(* ===== verification/_CoqProject ===== *)
-Q . S2P
Prelude.v
SipFrame.v
Json.v
FrameStream.v
CloudTunnel.v
CloudTunnelSpec.v
AgentTunnel.v
AgentTunnelSpec.v
AgentEnv.v
CallRouter.v
CallRouterSpec.v
AriClient.v
AriClientSpec.v
WsFrame.v
WsStream.v
WsConn.v
WsHistory.v
ClientSocket.v
BrowserStream.v
BrowserStreamSpec.v
BrowserBridge.v
BrowserBridgeSpec.v
DispatchTask.v
InnerTls.v
WsTlsBridge.v
TlsLoop.v
AgentStream.v
AgentStreamSpec.v
AgentStack.v
WsRecv.v
DbProto.v
DbAgent.v
DbProxy.v
DbServer.v
DbServerSpec.v
MessageParser.v
CloudWiring.v
HttpParser.v
HttpSpec.v
HttpHead.v
Base64.v
WsUpgrade.v
HttpExchange.v
AriRest.v
AriSocket.v
AsteriskStream.v
AsteriskBridge.v
AsteriskBridgeSpec.v
CloudTransport.v
SecureTunnel.v
SipParser.v
Provisioning.v
ProvisioningSpec.v
PasswordHash.v
PortalEnv.v
Portal.v
PortalRoutes.v
PortalDemo.v
PortalSpec.v
PortalViews.v
PortalImport.v
Legacy.v
LegacyShipment.v
LegacySpec.v
WebServer.v
WebServerSpec.v
Smtp.v
SmtpSession.v
SmtpSpec.v
SmtpFaults.v
HttpsClient.v
PushSender.v
PushSpec.v
Mongo.v
MongoStore.v
Mongodbc.v
MongodbcSpec.v
DbLink.v
DbLinkSpec.v
AgentMain.v
