(* ===== verification/Prelude.v ===== *)
(** * onprem-pbx: a verification library of the cloud PBX and its agent

    ** The program

    A society's Asterisk PBX stands behind a home router; residents call each other
    from a browser.  Two processes, one per side, are joined by one outbound connection:

    - the cloud web service ([modules/module]): an HTTP and WebSocket server.  A browser
      opens [/sip], its SIP messages travel over the tunnel; the agent opens [/agent],
      the other end of the tunnel; [/api/v1/pbx/...] is the REST control plane for
      subscribers, sessions, billing and the directory; [/db] is the connection of a
      database agent that runs the web service's database calls elsewhere;
    - the agent ([pbx-agent/src/main]): it dials the cloud, demultiplexes the tunnel into
      one local WebSocket per browser towards Asterisk, drives calls through Asterisk's
      REST interface (ARI), and keeps Asterisk's PJSIP objects equal to the subscribers
      collection.

    ** The files

    Every file models the code its opening comment names; [Foo.v] holds data, operations
    and the lemmas about single operations, [FooSpec.v] the theorems where they are many.

    The tunnel, from the browser to Asterisk:
    - [SipFrame]: sip_frame.hpp/.cpp, the frame codec; [FrameStream]: the append-and-decode
      loop of both ends, over the class [FrameReader] with its [ReaderLaws];
    - [CloudTunnel], [CloudTunnelSpec]: sip_bridge.cpp and cloud_tunnel_endpoint.cpp, one
      state [Cloud] because the objects re-enter each other;
    - [AgentTunnel], [AgentTunnelSpec]: sip_frame_demux.cpp and cloud_connector.cpp, one
      state [Agent];
    - [WsFrame], [WsStream], [WsConn], [WsHistory]: wsframe.cpp, and the frame loop, the
      socket and the ping timer that the socket handlers share;
    - [HttpHead], [Base64], [WsUpgrade]: request heads, the Base64 encoder and the opening
      handshake of the WebSockets, both sides, with the dialling of the clients;
    - [ClientSocket]: what the agent's three WebSocket clients share;
      [AriSocket]: ari_ws_client.cpp and its supervisor; [AsteriskStream]:
      asterisk_ws_factory.cpp; [AsteriskBridge], [AsteriskBridgeSpec]: one such stream and
      the demux calling each other, under the reactor;
    - [BrowserStream], [BrowserStreamSpec]: browser_stream.cpp against the class
      [BridgeHost]; [BrowserBridge], [BrowserBridgeSpec] make the cloud an instance of that
      class and compose the two;
    - [AgentStream], [AgentStreamSpec]: agent_stream.cpp against the class [EndpointHost];
      [InnerTls], [WsTlsBridge]: innertls.cpp (with OpenSSL's settings in its module
      [OpenSSL]), ws_inner_tls_bridge.cpp; [TlsLoop]: the
      encrypted part of both ends' frame loops; [AgentStack]: the layers of the cloud's
      socket to the agent together;
    - [CloudTransport]: ace_ssl_transport.cpp, the agent's socket to
      the cloud; [SecureTunnel]: both ends of the tunnel's socket together;
    - [CloudWiring]: the presence cache, the options and the handlers of
      webservice_main.cpp, and cloud_tunnel_tick_driver.cpp;
    - [AgentMain]: pbx-agent's main.cpp, the options, the handlers and the three threads
      (reactor, inner-TLS task, worker) with the queues between them, over the objects of the
      other files.

    The agent's side of the calls:
    - [HttpExchange]: one request and its answer on a connection of its own;
      [AriRest]: ari_rest_client.cpp, the requests to Asterisk;
    - [AgentEnv]: the outside world of the agent (ARI, database, clock) as one class with
      a trace of calls; [CallRouter], [CallRouterSpec]: call_router.cpp; [AriClient],
      [AriClientSpec]: ari_client.cpp; [Provisioning], [ProvisioningSpec]:
      pjsip_provisioner.cpp and subscriber_watcher.cpp;
      [DispatchTask]: the two worker threads as a transition system.

    The database connection:
    - [WsRecv]: the blocking frame reader; [DbProto]: dbproto.cpp; [DbAgent]: the requests
      and the reconnect loop of wsdbagent.cpp; [DbProxy]: WsMongodbProxy of wsdbproxy.cpp;
      [DbServer], [DbServerSpec]: the requests of WsDbServer (wsdbproxy.cpp) as a transition
      system; [DbLink], [DbLinkSpec]: the connection under these messages, from the opening
      handshake to the end of the session, at both ends, and what the server's threads share
      of it;
    - [Mongo]: the MongoDB driver as a class, with what its manual says of plain queries and
      updates (strings at dotted paths without operators or array indices, an update of one
      path that is not the identifier, documents that get their identifiers from the driver),
      the order of results left open but for a scan; [MongoStore]: a database that satisfies it, to evaluate on;
      [Mongodbc], [MongodbcSpec]: the client of mongodbc.cpp, which the agent serves, and the
      migration of the stored passwords.

    The web service:
    - [MessageParser], [HttpParser], [HttpSpec], [SipParser]: the parsers and the receive
      loop of [WebConnection]; [Json]: nlohmann's values as the code uses them;
    - [PasswordHash]: the password functions of mongodbc.cpp; [PortalEnv], [Portal],
      [PortalRoutes], [PortalViews], [PortalImport], [PortalDemo], [PortalSpec]:
      microservice_pbx.cpp and the routing in front of it;
    - [Legacy], [LegacyShipment], [LegacySpec]: the handlers of accounts and shipments of
      webservice.cpp; [WebServer], [WebServerSpec]: [WebServer], [WebConnection] and the
      workers of webservice.cpp as a transition system;
    - [Smtp], [SmtpSession], [SmtpSpec], [SmtpFaults]: emailservice_fsm.cpp (the
      conversation with the mail server) and emailservice.cpp (the session, with its two
      threads as a transition system), which the web service uses to send mail.

    Web Push, for a browser that is not connected:
    - [PushSender], [PushSpec]: push_sender.cpp, the encryption, the token
      and the policy of retries; [HttpsClient]: ace_https_client.cpp.

    This file is the prelude: exceptions and [Result], the two error monads, machine
    integers, the list, string and option lemmas and the tactics the components share.

    ** How operations correspond to code

    A C++ class is a [Record] with the class's member names; a method is a [Definition]
    of the same name from state to state, with the guards and early returns of the code.
    A method that can throw returns [Result]; what happens outside (sockets, ARI, the
    database, OpenSSL, zlib, bsoncxx, the clock) is a class whose instance is a parameter,
    and the calls made on it are a field of the state, in order, so that theorems can
    speak of what was sent, in which order and how often.  The documented behaviour a
    theorem relies on is a second class of laws ([TlsChannel], [BsonLaws], ...), which a
    concrete instance in the same file satisfies and the witnesses use.  Pointers between
    objects that call each other back are modelled by putting both into one state, or by
    an interface class that the other side implements ([BridgeHost], [EndpointHost]).
    Threads ([DispatchTask], [DbServer], [WebServer], [SmtpSession]) are transition systems with a step for each
    access to shared state; the theorems quantify over every interleaving.  Where the code's
    threads share objects without a lock ([AgentMain]) a data race leads to a state of its own,
    [Undefined], and the theorems speak of the runs that are not in it.  Machine
    integers are [Z] (or [N]) with the wrap-around written out ([wrap_u32] and the like);
    what the C++ standard leaves undefined is a value of its own where it can happen
    ([Undefined] in [WsFrame]).

    ** What the theorems show

    - The tunnel loses nothing: no frame given to either end is lost, duplicated or
      reordered across reconnects (C1, C2); what a browser sends in any fragmentation is on
      the tunnel in order, and back (C3, C4); so is what the agent sends, through WebSocket
      frames and the inner TLS, in both directions ([SecureTunnel]); the frame codecs
      round-trip, and the read loops do not depend on how bytes are cut into reads.
    - Lifetimes: the bridge never keeps a pointer to a deleted stream; every socket object
      releases its socket, timer and registration once and reports its end once; the
      connector never closes a transport from inside one of its callbacks; the demux and a
      stream to Asterisk never hold a dangling pointer to each other ([AsteriskBridgeSpec]).
    - The web service: an open socket always has exactly one owner, the requests of a
      connection are queued in order and answered with at most one response each, and the
      agent's upgrade request leads to its socket handler ([WebServerSpec]); a response can
      reach the wrong client when a descriptor is reused, which is proved as a defect.
    - Calls: every leg of a forked call is ringing, connected or told to hang up; the first
      answer wins; an admitted call writes one CDR; the cap on bridges is the number of
      live bridges.  A request to Asterisk determines the call it was built for, nothing a
      caller passes can add a header or a second request, and every exchange ends, within
      the size cap and with its socket closed ([AriRest]).
    - Mail: what is sent is the conversation in order, with the password only over an
      accepted greeting and the mail only after the login; a server that follows the
      protocol gets the mail, in every interleaving of caller, client thread and reactor once the caller
      has set the first state, and the call returns; what the client takes for a message is
      one exactly when no line begins with a dot; [SmtpFaults] proves the defects.
    - Push: a receiver written from RFC 8291 ([PushSpec.Receiver]) decrypts what was encrypted
      for it up to 4079 bytes and refuses more, the push service accepts the
      token, every subscription is served within the bounds of the policy ([PushSpec]),
      and a request is framed whatever its endpoint but for line breaks ([HttpsClient]).
    - Provisioning and presence refine an abstract directory, for the change stream and
      for the full scan: what Asterisk holds follows the directory for every user whose
      requests it grants.
    - Access: the two session gates and the login let nobody past without a live session or
      a verified password; account changes happen in the order subscriber, sessions,
      revocation; the refresh writes no session back.
    - The database connection: a caller gets the agent's answer to its own request, over
      every interleaving; a call through proxy, messages and agent is the call on the
      agent's client; the client's calls are the operations on the collection, locally and
      through the proxy; a number is handed out once; a file comes back as it was stored;
      the migration leaves no password in clear, and an account without a code costs the
      others theirs ([MongodbcSpec]).  Under the messages, what one end sends over the inner
      TLS is what the other executes or looks up, in order and once, and the opening
      handshake is accepted ([DbLinkSpec]).
    - The inner TLS: every request that is tested while a session runs is sealed, and no other
      clear request is on the wire of a session than those of callers that tested before it.
      The negative results of [DbLinkSpec]: such a request does go out in clear; a caller can
      use a session that is gone; the port for agents can be blocked from the web port; and
      neither client verifies its server's certificate.
    - The agent's process ([AgentMain]): every run of its three threads without a data race
      between the reactor and the inner-TLS task, exceptions of the handlers included, is a run
      of the tunnel's events; what the worker reports becomes what the cloud's presence cache
      says; a revocation at the cloud hangs up the subscriber's calls.  That such a race can
      happen from every state is [handlers_race].  The options that count are the last ones
      given, and a port out of range is taken modulo 65536.
    - Threads: accepted work runs in order and once; [stop] ends, except when the worker
      left and the queue is full, which is the negative result of [DispatchTask].

    The findings of the manifest list where the code departs from what it means to do.

    ** Fuel and bounds

    Recursion that is not structural runs with fuel, and [OutOfFuel] (or [None]) is then a
    result of its own that no theorem counts as success.  The read loop of the tunnel gets
    one unit per byte of the buffer (every frame has a header, [FrameStream]); the frame loop of
    the sockets likewise ([WsStream]); the HTTP constructor gives [decode_chunked] one unit
    per byte of the body and the inflate loop as many calls as zlib documents to need; the
    handshake loop of the inner TLS gets the number of steps of the session ([InnerTls]);
    back-off loops are bounded by their schedule.  Each file proves that its fuel is enough.
    The 32-bit stream ids, the 64-bit frame lengths and the counters wrap as in the code.

    ** Not modelled, and why

    - Sockets, the reactor, the outer TLS contexts and process start-up: calls into ACE and
      OpenSSL; their effects are the classes above.  Option parsing is [ACE_Get_Opt]'s: the
      models start from the options it delivers.
    - In [AgentMain] a job of the worker is one step on Asterisk and the database, and its
      reports are posted one by one after it; a block that the inner-TLS task handles has its
      effect at the end of the handler.
    - [update_bulk_document] of the proxy: it builds a vector from iterators of two
      different temporaries, which is undefined behaviour (a finding).
    - The MongoDB driver itself: the class [MongoDriver], with the documented behaviour of the
      queries and updates the code makes as laws; change streams have none.
    - OpenSSL's curve, cipher, key derivation and signature: the class [WebCrypto], with
      their documented equations as [WebCryptoLaws].
    - The synchronous test mode of the worker tasks, and logging. *)

From stdpp Require Export base tactics gmap strings list pretty numbers.
From Stdlib Require Export ZArith Lia Ascii String.

#[global] Set Default Goal Selector "!".
#[global] Set Warnings "-clear-no-such-hyp".

Declare Scope pbx_scope.
Delimit Scope pbx_scope with pbx.

Open Scope string_scope.
Open Scope list_scope.

(** * Exceptions and results

    The C++ code signals errors by throwing.  [exn] lists the exceptions the
    modelled code can meet: [std::out_of_range], [std::invalid_argument],
    [nlohmann::json::parse_error], [type_error], [out_of_range] and whatever the
    database client throws, [std::length_error] and [std::runtime_error].  [OutOfFuel] is not an exception
    of the code: it marks a loop that used up the fuel its model was given, and no
    [catch] stops it. *)
Inductive exn :=
  | OutOfRange
  | InvalidArgument
  | JsonParseError
  | JsonTypeError
  | JsonOutOfRange
  | DbError
  | LengthError
  | RuntimeError
  | OutOfFuel.

Inductive result (A : Type) :=
  | Ok (a : A)
  | Throw (e : exn).
Arguments Ok {A} _.
Arguments Throw {A} _.

#[global] Instance exn_eq_dec : EqDecision exn.
Proof. solve_decision. Defined.
#[global] Instance result_eq_dec {A} `{EqDecision A} : EqDecision (result A).
Proof. solve_decision. Defined.

#[global] Instance result_ret : MRet result := fun A a => Ok a.
#[global] Instance result_bind : MBind result := fun A B f m =>
  match m with Ok a => f a | Throw e => Throw e end.

Definition is_ok {A} (r : result A) : bool :=
  match r with Ok _ => true | Throw _ => false end.

(** [catch_all m d] is [try { m } catch (...) { d }] for a pure [m]. *)
Definition catch_all {A} (m : result A) (d : A) : A :=
  match m with Ok a => a | Throw _ => d end.

(** * The effect monad

    Stateful code that can throw: a function of the world that returns a result
    and the world it leaves behind.  As in C++, the state changes made before a
    throw persist. *)
Definition M (W A : Type) : Type := W -> result A * W.

#[global] Instance M_ret {W} : MRet (M W) := fun A a w => (Ok a, w).
#[global] Instance M_bind {W} : MBind (M W) := fun A B f m w =>
  match m w with
  | (Ok a, w') => f a w'
  | (Throw e, w') => (Throw e, w')
  end.

Section Effects.
Context {W : Type}.

Definition throw {A} (e : exn) : M W A := fun w => (Throw e, w).
Definition lift {A} (r : result A) : M W A := fun w => (r, w).
Definition asks {A} (f : W -> A) : M W A := fun w => (Ok (f w), w).
Definition modify (f : W -> W) : M W unit := fun w => (Ok tt, f w).

(** [try { m } catch (...) { h }]. *)
Definition try_catch {A} (m h : M W A) : M W A := fun w =>
  match m w with
  | (Ok a, w') => (Ok a, w')
  | (Throw OutOfFuel, w') => (Throw OutOfFuel, w')
  | (Throw _, w') => h w'
  end.

(** A range-for over a list. *)
Fixpoint for_each {A} (l : list A) (f : A -> M W unit) : M W unit :=
  match l with
  | [] => mret tt
  | a :: l' => f a ;; for_each l' f
  end.
End Effects.

Lemma M_bind_ok {W A B} (m : M W A) (f : A -> M W B) w a w' :
  m w = (Ok a, w') -> (m ≫= f) w = f a w'.
Proof. unfold mbind, M_bind. by intros ->. Qed.

Lemma M_bind_throw {W A B} (m : M W A) (f : A -> M W B) w e w' :
  m w = (Throw e, w') -> (m ≫= f) w = (Throw e, w').
Proof. unfold mbind, M_bind. by intros ->. Qed.

Lemma M_bind_inv {W A B} (m : M W A) (f : A -> M W B) w b w'' :
  (m ≫= f) w = (Ok b, w'') ->
  exists a w', m w = (Ok a, w') /\ f a w' = (Ok b, w'').
Proof.
  unfold mbind, M_bind. destruct (m w) as [[a|e] w'] eqn:E; [|done].
  intros H. eauto.
Qed.

Lemma bind_asks {W A B} (g : W -> A) (f : A -> M W B) w : (asks g ≫= f) w = f (g w) w.
Proof. done. Qed.
Lemma bind_modify {W B} (g : W -> W) (f : unit -> M W B) w : (modify g ≫= f) w = f tt (g w).
Proof. done. Qed.
Lemma bind_lift_ok {W A B} (a : A) (f : A -> M W B) w : (lift (Ok a) ≫= f) w = f a w.
Proof. done. Qed.

Lemma for_each_cons_inv {W A} (a : A) l (f : A -> M W unit) w w' :
  for_each (a :: l) f w = (Ok tt, w') ->
  exists w1, f a w = (Ok tt, w1) /\ for_each l f w1 = (Ok tt, w').
Proof.
  intros H. apply (M_bind_inv (f a) (fun _ => for_each l f)) in H as ([] & w1 & H1 & H2).
  by exists w1.
Qed.

Lemma for_each_cons_ok {W A} (a : A) l (f : A -> M W unit) w w1 :
  f a w = (Ok tt, w1) -> for_each (a :: l) f w = for_each l f w1.
Proof. apply (M_bind_ok (f a) (fun _ => for_each l f)). Qed.

Lemma for_each_cons_throw {W A} (a : A) l (f : A -> M W unit) w e w1 :
  f a w = (Throw e, w1) -> for_each (a :: l) f w = (Throw e, w1).
Proof. apply (M_bind_throw (f a) (fun _ => for_each l f)). Qed.

(** ** Effects that preserve a relation

    [preserves R m]: whatever [m] returns or throws, the state it leaves is related
    to the one it started from. *)
Definition preserves {W A} (R : W -> W -> Prop) (m : M W A) : Prop := forall w, R w (m w).2.

Section Preserves.
Context {W : Type} (R : W -> W -> Prop) `{!PreOrder R}.

Lemma preserves_ret {A} (a : A) : preserves R (mret a).
Proof. intros w. reflexivity. Qed.
Lemma preserves_lift {A} (r : result A) : preserves R (lift r).
Proof. intros w. reflexivity. Qed.
Lemma preserves_asks {A} (f : W -> A) : preserves R (asks f).
Proof. intros w. reflexivity. Qed.
Lemma preserves_modify (f : W -> W) : (forall w, R w (f w)) -> preserves R (modify f).
Proof. intros Hf w. apply Hf. Qed.
Lemma preserves_bind {A B} (m : M W A) (f : A -> M W B) :
  preserves R m -> (forall a, preserves R (f a)) -> preserves R (m ≫= f).
Proof.
  intros Hm Hf w. unfold mbind, M_bind. specialize (Hm w).
  destruct (m w) as [[a|e] w1]; [|done]. etransitivity; [exact Hm|apply Hf].
Qed.
Lemma preserves_for_each {A} (l : list A) (f : A -> M W unit) :
  (forall a, preserves R (f a)) -> preserves R (for_each l f).
Proof.
  intros Hf. induction l as [|a l IH]; [apply preserves_ret|]. by apply preserves_bind.
Qed.
Lemma preserves_try_catch {A} (m h : M W A) :
  preserves R m -> preserves R h -> preserves R (try_catch m h).
Proof.
  intros Hm Hh w. unfold try_catch. specialize (Hm w).
  destruct (m w) as [[a|[]] w1]; try done; etransitivity; [exact Hm|apply Hh|..];
    try exact Hm; apply Hh.
Qed.
End Preserves.

(** * Machine integers *)

(** Wrap-around of [std::uint32_t] and [std::uint64_t] (also [size_t]). *)
Definition u32 (z : Z) : Z := (z mod 2 ^ 32)%Z.
Definition u64 (z : Z) : Z := (z mod 2 ^ 64)%Z.
Definition is_u32 (z : Z) : Prop := (0 <= z < 2 ^ 32)%Z.

Lemma u32_range z : is_u32 (u32 z).
Proof. unfold is_u32, u32. apply Z.mod_pos_bound. lia. Qed.

Lemma u32_small z : is_u32 z -> u32 z = z.
Proof. apply Z.mod_small. Qed.

Lemma u64_small z : (0 <= z < 2 ^ 64)%Z -> u64 z = z.
Proof. apply Z.mod_small. Qed.

(** * Characters as bytes *)

Definition ord (c : ascii) : Z := Z.of_N (N_of_ascii c).
Definition chr (z : Z) : ascii := ascii_of_N (Z.to_N (z mod 256)%Z).

Lemma ord_range c : (0 <= ord c < 256)%Z.
Proof. unfold ord. pose proof (N_ascii_bounded c). lia. Qed.

Lemma chr_ord c : chr (ord c) = c.
Proof.
  pose proof (ord_range c) as Hr. unfold chr.
  rewrite Z.mod_small by done. unfold ord. rewrite N2Z.id. apply ascii_N_embedding.
Qed.

Lemma ord_chr z : ord (chr z) = (z mod 256)%Z.
Proof.
  unfold ord, chr. pose proof (Z.mod_pos_bound z 256 ltac:(lia)) as Hr.
  rewrite N_ascii_embedding by lia. lia.
Qed.

Lemma ord_inj c d : ord c = ord d -> c = d.
Proof. intros H. by rewrite <- (chr_ord c), H, chr_ord. Qed.

(** * std::string

    [std::string] is [string]; positions are [nat] and [npos] is [None]. *)

Section Strings.
Implicit Types (s t : string) (c : ascii) (n : nat).

Fixpoint str_take n s : string :=
  match n, s with
  | S n', String c s' => String c (str_take n' s')
  | _, _ => ""
  end.

(** [s.erase(0, n)]: erasing more than there is empties the string. *)
Fixpoint str_drop n s : string :=
  match n, s with
  | S n', String _ s' => str_drop n' s'
  | O, _ => s
  | _, EmptyString => ""
  end.

(** [s.substr(pos, len)] for [pos <= s.size()]. *)
Definition substr (pos len : nat) s : string := str_take len (str_drop pos s).

Definition str_empty s : bool := match s with EmptyString => true | _ => false end.

Definition str_eqb s t : bool := bool_decide (s = t).

(** [std::string(n, c)]. *)
Fixpoint str_repeat c n : string :=
  match n with O => "" | S n' => String c (str_repeat c n') end.

(** [s.find(c)], [s.find(c, from)] and [s.rfind(c)]. *)
Fixpoint find_char c s : option nat :=
  match s with
  | EmptyString => None
  | String d s' => if Ascii.eqb d c then Some O else S <$> find_char c s'
  end.
Definition find_char_from c (from : nat) s : option nat :=
  Nat.add from <$> find_char c (str_drop from s).
Fixpoint rfind_char c s : option nat :=
  match s with
  | EmptyString => None
  | String d s' =>
      match rfind_char c s' with
      | Some n => Some (S n)
      | None => if Ascii.eqb d c then Some O else None
      end
  end.

(** [s.find(pat)] and [s.find(pat, from)]. *)
Fixpoint find_str (pat : string) s : option nat :=
  if String.prefix pat s then Some O else
  match s with
  | EmptyString => None
  | String _ s' => S <$> find_str pat s'
  end.
Definition find_str_from (pat : string) (from : nat) s : option nat :=
  Nat.add from <$> find_str pat (str_drop from s).
Definition str_contains (pat : string) s : bool := bool_decide (is_Some (find_str pat s)).

Definition str_back s : option ascii := String.get (String.length s - 1) s.
Definition pop_back s : string := str_take (String.length s - 1) s.

(** [std::getline(stream, line, d)] repeated to the end of the stream: the
    text after the last delimiter is a line only when it is not empty. *)
Fixpoint getlines_aux (d : ascii) (cur : string) s : list string :=
  match s with
  | EmptyString => if str_empty cur then [] else [cur]
  | String c s' =>
      if Ascii.eqb c d then cur :: getlines_aux d "" s'
      else getlines_aux d (cur +:+ String c "") s'
  end.
Definition getlines (d : ascii) s : list string := getlines_aux d "" s.

(** The segments between the delimiters, the one after the last included. *)
Fixpoint split_aux (d : ascii) (cur s : string) : list string :=
  match s with
  | EmptyString => [cur]
  | String c s' => if Ascii.eqb c d then cur :: split_aux d "" s' else split_aux d (cur +:+ String c "") s'
  end.
Definition split_on (d : ascii) (s : string) : list string := split_aux d "" s.

Definition no_char (c : ascii) (s : string) : Prop := find_char c s = None.

Fixpoint str_join (sep : string) (l : list string) : string :=
  match l with
  | [] => ""
  | [s] => s
  | s :: l' => s +:+ sep +:+ str_join sep l'
  end.

Definition str_concat (l : list string) : string := fold_right append "" l.

(** [std::tolower] in the C locale. *)
Definition tolower c : ascii :=
  if (65 <=? ord c)%Z && (ord c <=? 90)%Z then chr (ord c + 32) else c.
Fixpoint str_map (f : ascii -> ascii) s : string :=
  match s with
  | EmptyString => ""
  | String c s' => String (f c) (str_map f s')
  end.
Definition to_lower s : string := str_map tolower s.

Fixpoint str_forallb (p : ascii -> bool) s : bool :=
  match s with
  | EmptyString => true
  | String c s' => p c && str_forallb p s'
  end.
(** What a function that takes a C string sees of [s.data()]. *)
Definition c_str s : string := match find_char zero s with Some n => str_take n s | None => s end.
End Strings.

(** [std::to_string]. *)
Definition to_string (z : Z) : string := pretty z.

Definition is_digit (c : ascii) : bool := (48 <=? ord c)%Z && (ord c <=? 57)%Z.

(** ** Lemmas on strings *)

#[global] Arguments String.append !_ _ : simpl nomatch.

Lemma str_app_cons c s t : String c s +:+ t = String c (s +:+ t).
Proof. done. Qed.

Lemma str_app_nil_l s : "" +:+ s = s.
Proof. done. Qed.

Lemma str_app_nil_r s : s +:+ "" = s.
Proof. induction s as [|c s IH]; [done|]. cbn. by rewrite IH. Qed.

Lemma str_app_assoc s t u : (s +:+ t) +:+ u = s +:+ (t +:+ u).
Proof. induction s as [|c s IH]; [done|]. cbn. by rewrite IH. Qed.

Lemma str_length_app s t : String.length (s +:+ t) = String.length s + String.length t.
Proof. induction s as [|c s IH]; [done|]. cbn. by rewrite IH. Qed.

Lemma str_length_nil s : String.length s = 0 -> s = "".
Proof. by destruct s. Qed.

Lemma str_take_drop n s : str_take n s +:+ str_drop n s = s.
Proof.
  revert s. induction n as [|n IH]; intros [|c s]; try done. cbn. by rewrite IH.
Qed.

Lemma str_length_take n s : String.length (str_take n s) = Nat.min n (String.length s).
Proof. revert s. induction n as [|n IH]; intros [|c s]; try done. cbn. by rewrite IH. Qed.

Lemma str_length_drop n s : String.length (str_drop n s) = String.length s - n.
Proof. revert s. induction n as [|n IH]; intros [|c s]; try done. cbn. by rewrite IH. Qed.

Lemma str_length_repeat c n : String.length (str_repeat c n) = n.
Proof. induction n as [|n IH]; [done|]. cbn. by rewrite IH. Qed.

Lemma str_drop_0 s : str_drop 0 s = s.
Proof. by destruct s. Qed.

Lemma str_take_0 s : str_take 0 s = "".
Proof. done. Qed.

Lemma str_drop_nil n : str_drop n "" = "".
Proof. by destruct n. Qed.

Lemma str_take_app_length s t : str_take (String.length s) (s +:+ t) = s.
Proof. induction s as [|c s IH]; [done|]. cbn. by rewrite IH. Qed.

Lemma str_drop_app_length s t : str_drop (String.length s) (s +:+ t) = t.
Proof. induction s as [|c s IH]; [by destruct t|]. done. Qed.

Lemma str_take_app_le n s t : n <= String.length s -> str_take n (s +:+ t) = str_take n s.
Proof.
  revert s. induction n as [|n IH]; intros [|c s] Hn; try done; cbn in *; [lia|].
  by rewrite IH by lia.
Qed.

Lemma str_drop_app_le n s t :
  n <= String.length s -> str_drop n (s +:+ t) = str_drop n s +:+ t.
Proof.
  revert s. induction n as [|n IH]; intros [|c s] Hn; try done; cbn in *; [lia|].
  by rewrite IH by lia.
Qed.

Lemma str_take_all n s : String.length s <= n -> str_take n s = s.
Proof.
  revert n. induction s as [|c s IH]; intros [|n] Hn; try done; cbn in *; [lia|].
  by rewrite IH by lia.
Qed.

Lemma str_drop_all n s : String.length s <= n -> str_drop n s = "".
Proof.
  revert n. induction s as [|c s IH]; intros [|n] Hn; try done; cbn in *; [lia|].
  apply IH. lia.
Qed.

Lemma str_drop_drop m n s : str_drop m (str_drop n s) = str_drop (n + m) s.
Proof.
  revert s. induction n as [|n IH]; intros s; [by rewrite str_drop_0|].
  destruct s as [|c s]; [by rewrite !str_drop_nil|]. apply IH.
Qed.

Lemma str_app_inj_l s t u : s +:+ t = s +:+ u -> t = u.
Proof. induction s as [|c s IH]; [done|]. cbn. intros [= H]. by apply IH. Qed.

Lemma str_eqb_eq s t : str_eqb s t = true <-> s = t.
Proof. apply bool_decide_eq_true. Qed.
Lemma str_eqb_neq s t : str_eqb s t = false <-> s <> t.
Proof. apply bool_decide_eq_false. Qed.
Lemma str_eqb_refl s : str_eqb s s = true.
Proof. by apply str_eqb_eq. Qed.
Lemma str_empty_true s : str_empty s = true <-> s = "".
Proof. by destruct s. Qed.
Lemma str_empty_false s : str_empty s = false <-> s <> "".
Proof. by destruct s. Qed.

Lemma find_char_app c s t :
  find_char c s = None -> find_char c (s +:+ String c t) = Some (String.length s).
Proof.
  induction s as [|d s IH]; cbn; [by rewrite Ascii.eqb_refl|].
  destruct (Ascii.eqb d c); [done|].
  destruct (find_char c s); [done|]. intros _. by rewrite IH.
Qed.

Lemma find_char_lt c s n : find_char c s = Some n -> n < String.length s.
Proof.
  revert n. induction s as [|d s IH]; intros n; cbn; [done|].
  destruct (Ascii.eqb d c); [intros [= <-]; lia|].
  destruct (find_char c s) as [m|]; [|done]. intros [= <-]. specialize (IH m eq_refl). lia.
Qed.

Lemma find_char_split c s n :
  find_char c s = Some n -> s = str_take n s +:+ String c (str_drop (S n) s).
Proof.
  revert n. induction s as [|d s IH]; intros n; cbn; [done|].
  destruct (Ascii.eqb_spec d c) as [->|].
  - intros [= <-]. by rewrite str_drop_0.
  - destruct (find_char c s) as [m|]; [|done]. intros [= <-]. cbn.
    f_equal. rewrite (IH m eq_refl) at 1. by destruct s.
Qed.

Lemma pretty_N_go_digits x s :
  str_forallb is_digit s = true -> str_forallb is_digit (pretty_N_go x s) = true.
Proof.
  revert s. induction (N.lt_wf_0 x) as [x _ IH]; intros s Hs.
  destruct (decide (x = 0)%N) as [->|Hx]; [by rewrite pretty_N_go_0|].
  rewrite pretty_N_go_step by lia. apply IH; [apply N.div_lt; lia|].
  cbn [str_forallb]. rewrite Hs, andb_true_r. unfold pretty_N_char. by repeat case_match.
Qed.

Lemma to_string_digits z : (0 <= z)%Z -> str_forallb is_digit (to_string z) = true.
Proof.
  intros Hz. unfold to_string, pretty, pretty_Z, pretty, pretty_positive, pretty, pretty_N.
  destruct z as [|p|p]; [done| |lia]. case_decide; [done|]. by apply pretty_N_go_digits.
Qed.

Lemma to_string_inj x y : to_string x = to_string y -> x = y.
Proof. apply pretty_Z_inj. Qed.

(** The text after the last [d] determines the text before it. *)
Lemma last_split_inj (d : ascii) s1 s2 t1 t2 :
  str_forallb (fun c => negb (Ascii.eqb c d)) t1 = true ->
  str_forallb (fun c => negb (Ascii.eqb c d)) t2 = true ->
  s1 +:+ String d t1 = s2 +:+ String d t2 -> s1 = s2 /\ t1 = t2.
Proof.
  intros H1 H2.
  assert (Hno : forall t u, str_forallb (fun c => negb (Ascii.eqb c d)) (t +:+ String d u) = false).
  { clear. induction t as [|c t IH]; intros u; cbn; [by rewrite Ascii.eqb_refl|].
    by rewrite IH, andb_false_r. }
  revert s2. induction s1 as [|c s1 IH]; intros [|c2 s2] He; rewrite ?str_app_cons in *; cbn in He.
  - by injection He.
  - injection He as <- ->. by rewrite Hno in H1.
  - injection He as <- <-. by rewrite Hno in H2.
  - injection He as <- He. destruct (IH s2 He) as [-> ->]. done.
Qed.

Lemma str_forallb_impl (p q : ascii -> bool) s :
  (forall c, p c = true -> q c = true) -> str_forallb p s = true -> str_forallb q s = true.
Proof.
  intros Hpq. induction s as [|c s IH]; [done|]. cbn. intros [Hc Hs]%andb_prop.
  by rewrite Hpq, IH.
Qed.

(** ** Lemmas on splitting *)

Lemma split_aux_app d cur s t :
  no_char d s -> split_aux d cur (s +:+ String d t) = (cur +:+ s) :: split_aux d "" t.
Proof.
  unfold no_char. revert cur. induction s as [|c s IH]; intros cur Hs; cbn in *.
  - by rewrite str_app_nil_r, Ascii.eqb_refl.
  - destruct (Ascii.eqb c d) eqn:Hc; [done|]. destruct (find_char d s) eqn:Hf; [done|].
    rewrite IH by done. by rewrite str_app_assoc.
Qed.

Lemma split_aux_last d cur s : no_char d s -> split_aux d cur s = [cur +:+ s].
Proof.
  unfold no_char. revert cur. induction s as [|c s IH]; intros cur Hs; cbn in *; [by rewrite str_app_nil_r|].
  destruct (Ascii.eqb c d) eqn:Hc; [done|]. destruct (find_char d s) eqn:Hf; [done|].
  rewrite IH by done. by rewrite str_app_assoc.
Qed.

Lemma no_char_app d s t : no_char d s -> no_char d t -> no_char d (s +:+ t).
Proof.
  unfold no_char. induction s as [|c s IH]; cbn; [done|]. destruct (Ascii.eqb c d); [done|].
  destruct (find_char d s); [done|]. intros _ Ht. by rewrite IH.
Qed.

Lemma str_back_snoc s c : str_back (s +:+ String c "") = Some c.
Proof.
  unfold str_back. rewrite str_length_app. cbn. replace (String.length s + 1 - 1)%nat with (String.length s) by lia.
  induction s as [|d s IH]; [done|]. rewrite str_app_cons. cbn [String.length String.get]. exact IH.
Qed.
Lemma pop_back_snoc s c : pop_back (s +:+ String c "") = s.
Proof.
  unfold pop_back. rewrite str_length_app. cbn. replace (String.length s + 1 - 1)%nat with (String.length s) by lia.
  apply str_take_app_length.
Qed.
Lemma str_join_cons2 sep s s' l : str_join sep (s :: s' :: l) = s +:+ sep +:+ str_join sep (s' :: l).
Proof. done. Qed.

(** [split_on] undoes [str_join] on segments free of the delimiter. *)
Lemma split_on_join d segs :
  Forall (no_char d) segs -> segs <> [] -> split_on d (str_join (String d "") segs) = segs.
Proof.
  unfold split_on. induction 1 as [|s segs Hs Hsegs IH]; intros Hne; [done|].
  destruct segs as [|s' segs]; [by apply (split_aux_last d "")|].
  change (str_join _ _) with (s +:+ String d (str_join (String d "") (s' :: segs))).
  rewrite split_aux_app by done. by rewrite IH.
Qed.

Lemma str_drop_mid s c t : str_drop (String.length s + 1) (s +:+ String c t) = t.
Proof. induction s as [|a s IH]; [by apply str_drop_0|exact IH]. Qed.

(** ** Lemmas on [find] *)

Lemma prefix_app pat s t :
  String.length pat <= String.length s -> String.prefix pat (s +:+ t) = String.prefix pat s.
Proof.
  revert s. induction pat as [|c pat IH]; intros s Hl; [by destruct s, t|].
  destruct s as [|d s]; [cbn in Hl; lia|]. cbn in *. destruct (ascii_dec c d); [apply IH; lia|done].
Qed.

Lemma prefix_self pat t : String.prefix pat (pat +:+ t) = true.
Proof.
  induction pat as [|c pat IH]; [by destruct t|]. cbn. by destruct (ascii_dec c c).
Qed.

Lemma prefix_length pat s : String.prefix pat s = true -> String.length pat <= String.length s.
Proof.
  revert s. induction pat as [|c pat IH]; intros [|d s]; cbn; try done; [lia|].
  destruct (ascii_dec c d); [|done]. intros Hp. apply IH in Hp. lia.
Qed.

Lemma prefix_split p s : String.prefix p s = true -> s = p +:+ str_drop (String.length p) s.
Proof.
  revert s. induction p as [|a p IH]; intros s; [done|]. destruct s as [|b s]; cbn; [done|].
  destruct (ascii_dec a b) as [->|]; [|done]. intros Hs. cbn. by rewrite <- (IH s).
Qed.

Lemma find_str_bound pat s n : find_str pat s = Some n -> n + String.length pat <= String.length s.
Proof.
  revert n. induction s as [|c s IH]; intros n; cbn [find_str];
    destruct (String.prefix pat _) eqn:Hp; try done.
  - intros [= <-]. by apply prefix_length in Hp.
  - intros [= <-]. by apply prefix_length in Hp.
  - destruct (find_str pat s) as [m|]; [|done]. intros [= <-]. specialize (IH m eq_refl). cbn. lia.
Qed.

(** What was found stays where it was when more text arrives. *)
Lemma find_str_app pat s t n : find_str pat s = Some n -> find_str pat (s +:+ t) = Some n.
Proof.
  revert n. induction s as [|c s IH]; intros n Hf; pose proof (find_str_bound _ _ _ Hf) as Hb.
  - cbn [find_str] in Hf. destruct (String.prefix pat "") eqn:Hp; [|done]. injection Hf as <-.
    assert (pat = "") as -> by (apply str_length_nil; cbn in Hb; lia). by destruct t.
  - rewrite str_app_cons. cbn [find_str] in *. rewrite <- str_app_cons, prefix_app by lia.
    destruct (String.prefix pat (String c s)); [done|].
    destruct (find_str pat s) as [m|]; [|done]. injection Hf as <-. by rewrite (IH m eq_refl).
Qed.

Lemma find_str_from_app pat from s t n :
  from <= String.length s -> find_str_from pat from s = Some n -> find_str_from pat from (s +:+ t) = Some n.
Proof.
  intros Hl. unfold find_str_from. rewrite str_drop_app_le by done.
  destruct (find_str pat (str_drop from s)) as [m|] eqn:Hf; [|done].
  intros [= <-]. by rewrite (find_str_app _ _ _ _ Hf).
Qed.

(** The first occurrence of a pattern after text that lacks its first character. *)
Lemma find_str_skip c pat s t :
  str_forallb (fun d => negb (Ascii.eqb d c)) s = true ->
  find_str (String c pat) (s +:+ String c pat +:+ t) = Some (String.length s).
Proof.
  induction s as [|d s IH]; intros Hs.
  - rewrite str_app_nil_l. change (find_str (String c pat) (String c pat +:+ t))
      with (if String.prefix (String c pat) (String c pat +:+ t) then Some 0
            else match String c pat +:+ t with EmptyString => None | String _ s' => S <$> find_str (String c pat) s' end).
    by rewrite prefix_self.
  - cbn [str_forallb] in Hs. apply andb_prop in Hs as [Hd Hs]. rewrite str_app_cons. cbn [find_str].
    cbn [String.prefix]. destruct (ascii_dec c d) as [->|]; [by rewrite Ascii.eqb_refl in Hd|].
    by rewrite (IH Hs).
Qed.

(** ** Command lines *)

Section CommandLine.
Context {O : Type} (set_option : ascii -> string -> O -> result (Z + O)).

(** The loop over the options that [ACE_Get_Opt] delivers with their arguments: the settings
    that the process goes on with, or the code that it ends with. *)
Fixpoint get_opts (args : list (ascii * string)) (o : O) : result (Z + O) :=
  match args with
  | [] => Ok (inr o)
  | (c, arg) :: args' =>
      r ← set_option c arg o;
      match r with inl code => Ok (inl code) | inr o => get_opts args' o end
  end.

(** The argument of an option that counts: the last one. *)
Definition last_given (c : ascii) (args : list (ascii * string)) : option string :=
  fold_left (fun acc kv => if Ascii.eqb kv.1 c then Some kv.2 else acc) args None.
Lemma last_given_cons c k v args :
  last_given c ((k, v) :: args) =
  match last_given c args with Some a => Some a | None => if Ascii.eqb k c then Some v else None end.
Proof.
  unfold last_given. cbn [fold_left fst snd].
  assert (forall acc, fold_left (fun acc kv => if Ascii.eqb kv.1 c then Some kv.2 else acc) args acc =
    match fold_left (fun acc kv => if Ascii.eqb kv.1 c then Some kv.2 else acc) args None with
    | Some a => Some a | None => acc end) as Hf.
  { induction args as [|[k' v'] args IH]; [done|]. intros acc. cbn [fold_left fst snd]. rewrite IH.
    rewrite (IH (if Ascii.eqb k' c then Some v' else None)). by destruct (fold_left _ _ None), (Ascii.eqb k' c). }
  rewrite Hf. by destruct (fold_left _ _ None).
Qed.

(** The setting [f] is what [read] makes of the argument of [c]. *)
Definition setting {A} (read : string -> result A) (c : ascii) (f : O -> A) : Prop :=
  forall k arg o o', set_option k arg o = Ok (inr o') -> if Ascii.eqb k c then read arg = Ok (f o') else f o' = f o.

Lemma setting_given {A} (read : string -> result A) c f args : setting read c f ->
  forall o o', get_opts args o = Ok (inr o') ->
  match last_given c args with Some a => read a = Ok (f o') | None => f o' = f o end.
Proof.
  intros Hf. induction args as [|[k v] args IH]; intros o o' Hs; [by injection Hs as <-|]. cbn [get_opts] in Hs.
  destruct (set_option k v o) as [[code|o1]|] eqn:H1; cbn in Hs; [done| |done]. rewrite last_given_cons. apply IH in Hs. apply Hf in H1.
  destruct (last_given c args); [done|]. destruct (Ascii.eqb k c); by rewrite Hs.
Qed.
Lemma text_given c f args o o' :
  setting Ok c f -> get_opts args o = Ok (inr o') -> f o' = default (f o) (last_given c args).
Proof. intros Hf Hs. apply (setting_given Ok c f args Hf) in Hs. destruct (last_given c args); [by injection Hs as <-|done]. Qed.
End CommandLine.

Create Rewrite HintDb pbx_str.
#[export] Hint Rewrite str_app_cons str_app_nil_l str_app_nil_r str_app_assoc str_length_app str_length_take
  str_length_drop str_drop_0 str_take_0 str_drop_nil str_take_app_length
  str_drop_app_length str_eqb_refl : pbx_str.

Create HintDb pbx.
Create HintDb preserve.
#[export] Hint Resolve preserves_ret preserves_lift preserves_asks preserves_bind
  preserves_for_each preserves_try_catch : preserve.
#[export] Hint Resolve u32_range ord_range : pbx.

(** [str_simpl] normalises string expressions; [str_lia] also closes length
    goals. *)
Ltac str_simpl := autorewrite with pbx_str in *.
Ltac str_lia := autorewrite with pbx_str in *; cbn [String.length] in *; lia.

(** Case analysis on every match of the goal, then of the hypotheses. *)
Ltac split_goal := repeat (case_match; simplify_eq; try done).

(** Proves [preserves R m] by the structure of [m]: binds, loops and matches. *)
Ltac solve_preserves :=
  intros; repeat first
    [ apply preserves_ret | apply preserves_lift | apply preserves_asks
    | apply preserves_bind; [..|intros ?] | apply preserves_for_each; [..|intros ?]
    | apply preserves_try_catch | solve [auto with preserve] | case_match
    | exact _ ].
