(* ===== verification/SipFrame.v ===== *)
(** The wire format of the tunnel between the cloud and pbx-agent:
    [modules/module/pbx/inc/sip_frame.hpp] and [src/sip_frame.cpp].

    [encode] and [decode] work on [std::string] buffers; integers are 32-bit
    big-endian.  The theorems give the round trip in both directions, the
    behaviour of [decode] on a truncated buffer and on an oversize payload. *)

From S2P Require Import Prelude.

#[local] Open Scope Z_scope.

Definition kVersion : Z := 1.
Definition kHeaderSize : nat := 10.
Definition kMaxPayload : Z := 1 * 1024 * 1024.

Inductive Op :=
  | OPEN | DATA | CLOSE | PING | PONG | ERR
  | PUSH_NOTIFY | CDR_PUSH | SUBSCRIBER_REVOKED | REGISTER_STATE
  | AGENT_HELLO | SOCIETY_BOOTSTRAP | ASTERISK_STATUS.

#[global] Instance Op_eq_dec : EqDecision Op.
Proof. solve_decision. Defined.

(** The enumerators' values. *)
Definition op_raw (op : Op) : Z :=
  match op with
  | OPEN => 1 | DATA => 2 | CLOSE => 3 | PING => 4 | PONG => 5 | ERR => 6
  | PUSH_NOTIFY => 16 | CDR_PUSH => 17 | SUBSCRIBER_REVOKED => 18
  | REGISTER_STATE => 19 | AGENT_HELLO => 20 | SOCIETY_BOOTSTRAP => 21
  | ASTERISK_STATUS => 22
  end.

(** The whitelist switch of [decode]. *)
Definition op_of_raw (z : Z) : option Op :=
  match z with
  | 1 => Some OPEN | 2 => Some DATA | 3 => Some CLOSE
  | 4 => Some PING | 5 => Some PONG | 6 => Some ERR
  | 16 => Some PUSH_NOTIFY | 17 => Some CDR_PUSH
  | 18 => Some SUBSCRIBER_REVOKED
  | 19 => Some REGISTER_STATE
  | 20 => Some AGENT_HELLO
  | 21 => Some SOCIETY_BOOTSTRAP
  | 22 => Some ASTERISK_STATUS
  | _ => None
  end.

Record Frame := mkFrame { op : Op; stream_id : Z; payload : string }.

#[global] Instance Frame_eq_dec : EqDecision Frame.
Proof. solve_decision. Defined.

(** [Status] with the fields that are valid under it. *)
Inductive DecodeResult :=
  | DecOk (frame : Frame) (consumed : nat)
  | NeedMore
  | Invalid.

#[global] Instance DecodeResult_eq_dec : EqDecision DecodeResult.
Proof. solve_decision. Defined.

Definition write_u32_be (v : Z) : string :=
  String (chr (Z.land (Z.shiftr v 24) 255))
    (String (chr (Z.land (Z.shiftr v 16) 255))
      (String (chr (Z.land (Z.shiftr v 8) 255))
        (String (chr (Z.land v 255)) ""))).

Definition char_at (n : nat) (s : string) : ascii := default zero (String.get n s).

Definition read_u32_be (n : nat) (s : string) : Z :=
  Z.lor (Z.lor (Z.lor (Z.shiftl (ord (char_at n s)) 24)
                      (Z.shiftl (ord (char_at (n + 1) s)) 16))
               (Z.shiftl (ord (char_at (n + 2) s)) 8))
        (ord (char_at (n + 3) s)).

Definition encode (op : Op) (stream_id : Z) (payload : string) : string :=
  String (chr kVersion) (String (chr (op_raw op))
    (write_u32_be stream_id
       +:+ write_u32_be (u32 (Z.of_nat (String.length payload)))
       +:+ payload)).

Definition decode (buf : string) : DecodeResult :=
  if (String.length buf <? kHeaderSize)%nat then NeedMore else
  if negb (ord (char_at 0 buf) =? kVersion) then Invalid else
  let op_raw := ord (char_at 1 buf) in
  let stream_id := read_u32_be 2 buf in
  let plen := read_u32_be 6 buf in
  match op_of_raw op_raw with
  | None => Invalid
  | Some op =>
      if plen >? kMaxPayload then Invalid else
      if (String.length buf <? kHeaderSize + Z.to_nat plen)%nat then NeedMore else
      DecOk (mkFrame op stream_id (substr kHeaderSize (Z.to_nat plen) buf))
            (kHeaderSize + Z.to_nat plen)
  end.

Definition encode_frame (f : Frame) : string := encode (op f) (stream_id f) (payload f).

(** ** Integer lemmas *)

Lemma testbit_above x k n : 0 <= x < 2 ^ k -> 0 <= k <= n -> Z.testbit x n = false.
Proof.
  intros Hx Hn. destruct (decide (x = 0)) as [->|]; [apply Z.bits_0|].
  apply Z.bits_above_log2; [lia|]. apply Z.log2_lt_pow2; [lia|].
  apply Z.lt_le_trans with (2 ^ k); [lia|]. apply Z.pow_le_mono_r; lia.
Qed.

Lemma lor_shiftl_add y x k :
  0 <= k -> 0 <= x < 2 ^ k -> Z.lor (Z.shiftl y k) x = y * 2 ^ k + x.
Proof.
  intros Hk Hx. rewrite <- Z.shiftl_mul_pow2 by done.
  assert (Hland : Z.land (Z.shiftl y k) x = 0).
  { apply Z.bits_inj'. intros n Hn. rewrite Z.land_spec, Z.bits_0.
    destruct (decide (n < k)) as [Hlt|]; [by rewrite Z.shiftl_spec_low|].
    rewrite (testbit_above x k n) by lia. apply andb_false_r. }
  rewrite Z.add_nocarry_lxor by done. symmetry. by apply Z.lxor_lor.
Qed.

Lemma byte_of_shift v k :
  0 <= k -> Z.land (Z.shiftr v k) 255 = (v / 2 ^ k) mod 256.
Proof.
  intros Hk. change 255 with (Z.ones 8).
  by rewrite Z.land_ones, Z.shiftr_div_pow2 by lia.
Qed.

Lemma be_bytes_sum a b c d :
  0 <= a < 256 -> 0 <= b < 256 -> 0 <= c < 256 -> 0 <= d < 256 ->
  Z.lor (Z.lor (Z.lor (Z.shiftl a 24) (Z.shiftl b 16)) (Z.shiftl c 8)) d
  = a * 2 ^ 24 + b * 2 ^ 16 + c * 2 ^ 8 + d.
Proof.
  intros Ha Hb Hc Hd. rewrite <- !Z.lor_assoc.
  rewrite (lor_shiftl_add c d 8) by lia.
  rewrite (lor_shiftl_add b _ 16) by lia.
  rewrite (lor_shiftl_add a _ 24) by lia. lia.
Qed.

Lemma read_u32_be_sum n s :
  read_u32_be n s
  = ord (char_at n s) * 2 ^ 24 + ord (char_at (n + 1) s) * 2 ^ 16
    + ord (char_at (n + 2) s) * 2 ^ 8 + ord (char_at (n + 3) s).
Proof. apply be_bytes_sum; apply ord_range. Qed.

Lemma read_u32_be_range n s : is_u32 (read_u32_be n s).
Proof.
  rewrite read_u32_be_sum. unfold is_u32.
  pose proof (ord_range (char_at n s)). pose proof (ord_range (char_at (n + 1) s)).
  pose proof (ord_range (char_at (n + 2) s)). pose proof (ord_range (char_at (n + 3) s)).
  lia.
Qed.

Lemma write_u32_be_bytes v :
  write_u32_be v
  = String (chr (v / 2 ^ 24)) (String (chr (v / 2 ^ 16))
      (String (chr (v / 2 ^ 8)) (String (chr v) ""))).
Proof.
  unfold write_u32_be. rewrite !byte_of_shift by lia.
  change (Z.land v 255) with (Z.land v (Z.ones 8)). rewrite Z.land_ones by lia.
  unfold chr. change (2 ^ 8) with 256. by rewrite !Z.mod_mod by lia.
Qed.

(** Four bytes read back from a big-endian rendering, at the head of a string. *)
Lemma read_write_u32 v s :
  is_u32 v -> read_u32_be 0 (write_u32_be v +:+ s) = v.
Proof.
  intros Hv. rewrite read_u32_be_sum, write_u32_be_bytes. cbn [char_at String.append].
  unfold char_at. cbn [String.get default]. cbn. rewrite !ord_chr.
  unfold is_u32 in Hv. Z.to_euclidean_division_equations. lia.
Qed.

Lemma write_read_u32 a b c d :
  write_u32_be (ord a * 2 ^ 24 + ord b * 2 ^ 16 + ord c * 2 ^ 8 + ord d)
  = String a (String b (String c (String d ""))).
Proof.
  rewrite write_u32_be_bytes.
  pose proof (ord_range a). pose proof (ord_range b).
  pose proof (ord_range c). pose proof (ord_range d).
  rewrite <- (chr_ord a), <- (chr_ord b), <- (chr_ord c), <- (chr_ord d) at 2.
  repeat f_equal; apply ord_inj; rewrite !ord_chr, ?chr_ord;
    Z.to_euclidean_division_equations; lia.
Qed.

Lemma char_at_app n s t : (n < String.length s)%nat -> char_at n (s +:+ t) = char_at n s.
Proof. intros Hn. unfold char_at. by rewrite <- append_correct1. Qed.

Lemma read_u32_be_app n s t :
  (n + 3 < String.length s)%nat -> read_u32_be n (s +:+ t) = read_u32_be n s.
Proof. intros Hn. rewrite !read_u32_be_sum, !char_at_app by lia. done. Qed.

Lemma op_of_raw_raw op : op_of_raw (op_raw op) = Some op.
Proof. by destruct op. Qed.

Lemma op_raw_byte op : op_raw op mod 256 = op_raw op.
Proof. by destruct op. Qed.

Lemma op_of_raw_inv z op : op_of_raw z = Some op -> z = op_raw op.
Proof.
  destruct z as [|p|p]; cbn; [done| |done].
  do 5 try (destruct p as [p|p|]; cbn; try done); by intros [= <-].
Qed.

Lemma length_write_u32 v : String.length (write_u32_be v) = 4%nat.
Proof. done. Qed.

Lemma length_encode op sid p : String.length (encode op sid p) = (10 + String.length p)%nat.
Proof. done. Qed.

(** A frame the wire format can carry. *)
Definition frame_wf (f : Frame) : Prop :=
  is_u32 (stream_id f) /\ Z.of_nat (String.length (payload f)) <= kMaxPayload.

(** Closes [frame_wf] goals on concrete frames, and lists of them. *)
Ltac frames_wf :=
  repeat apply Forall_cons_2; try apply Forall_nil_2;
  (split; [unfold is_u32; cbn; lia | unfold kMaxPayload; cbn; lia]).

(** What [decode] reads from the header [encode] writes. *)
Lemma decode_header op sid p rest :
  is_u32 sid -> Z.of_nat (String.length p) < 2 ^ 32 ->
  decode (encode op sid p +:+ rest)
  = if Z.of_nat (String.length p) >? kMaxPayload then Invalid
    else DecOk (mkFrame op sid p) (10 + String.length p).
Proof.
  intros Hsid Hp. unfold decode.
  assert (Hplen : is_u32 (Z.of_nat (String.length p))) by (unfold is_u32; lia).
  destruct (Nat.ltb_spec (String.length (encode op sid p +:+ rest)) kHeaderSize) as [Hl|Hl].
  { rewrite str_length_app, length_encode in Hl. unfold kHeaderSize in Hl. lia. }
  change (ord (char_at 0 (encode op sid p +:+ rest))) with (ord (chr kVersion)).
  change (ord (char_at 1 (encode op sid p +:+ rest))) with (ord (chr (op_raw op))).
  rewrite !ord_chr, op_raw_byte, op_of_raw_raw. cbn [kVersion Z.eqb negb Z.modulo].
  change (read_u32_be 2 (encode op sid p +:+ rest))
    with (read_u32_be 0 (write_u32_be sid +:+
      (write_u32_be (u32 (Z.of_nat (String.length p))) +:+ (p +:+ rest)))).
  change (read_u32_be 6 (encode op sid p +:+ rest))
    with (read_u32_be 0 (write_u32_be (u32 (Z.of_nat (String.length p))) +:+ (p +:+ rest))).
  rewrite !read_write_u32, u32_small by (done || apply u32_range).
  change (1 mod 256 =? 1) with true. cbn [negb].
  destruct (Z.of_nat (String.length p) >? kMaxPayload); [done|].
  rewrite Nat2Z.id.
  destruct (Nat.ltb_spec (String.length (encode op sid p +:+ rest))
              (kHeaderSize + String.length p)) as [Hl'|Hl'].
  { rewrite str_length_app, length_encode in Hl'. unfold kHeaderSize in Hl'. lia. }
  do 2 f_equal.
  change (substr kHeaderSize (String.length p) (encode op sid p +:+ rest))
    with (str_take (String.length p) (str_drop 0 (p +:+ rest))).
  by rewrite str_drop_0, str_take_app_length.
Qed.

Lemma decode_encode_frame f rest :
  frame_wf f ->
  decode (encode_frame f +:+ rest) = DecOk f (String.length (encode_frame f)).
Proof.
  intros [Hsid Hp]. destruct f as [op sid p]; cbn [SipFrame.op stream_id payload] in *.
  unfold encode_frame; cbn [SipFrame.op stream_id payload].
  rewrite decode_header; [|done|unfold kMaxPayload in Hp; lia].
  destruct (Z.gtb_spec (Z.of_nat (String.length p)) kMaxPayload); [lia|].
  by rewrite length_encode.
Qed.

(** Inversion of a successful decode: the consumed bytes are exactly the
    encoding of the frame. *)
Lemma decode_inv buf f n :
  decode buf = DecOk f n ->
  frame_wf f /\ n = String.length (encode_frame f)
  /\ buf = encode_frame f +:+ str_drop n buf.
Proof.
  unfold decode. destruct (Nat.ltb_spec (String.length buf) kHeaderSize) as [|Hl]; [done|].
  unfold kHeaderSize in *.
  destruct (Z.eqb_spec (ord (char_at 0 buf)) kVersion) as [Hver|]; [|done]. cbn [negb].
  destruct (op_of_raw _) as [op|] eqn:Hop; [|done].
  destruct (Z.gtb_spec (read_u32_be 6 buf) kMaxPayload) as [|Hmax]; [done|].
  pose proof (read_u32_be_range 2 buf) as Hsid. pose proof (read_u32_be_range 6 buf) as Hpl.
  destruct (Nat.ltb_spec (String.length buf) (10 + Z.to_nat (read_u32_be 6 buf)))
    as [|Hlen]; [done|].
  intros [= <- <-].
  assert (Hplen : String.length (substr 10 (Z.to_nat (read_u32_be 6 buf)) buf)
                  = Z.to_nat (read_u32_be 6 buf)).
  { unfold substr. rewrite str_length_take, str_length_drop. lia. }
  split; [split; [done|]|split].
  - cbn [payload]. rewrite Hplen. unfold is_u32 in Hpl. lia.
  - unfold encode_frame; cbn [SipFrame.op stream_id payload].
    by rewrite length_encode, Hplen.
  - unfold encode_frame; cbn [SipFrame.op stream_id payload]. unfold encode.
    rewrite Hplen, Z2Nat.id, u32_small by (done || unfold is_u32 in Hpl; lia).
    unfold substr. apply op_of_raw_inv in Hop. rewrite <- Hop, <- Hver.
    rewrite !chr_ord. clear Hop Hver Hplen Hsid.
    remember (Z.to_nat (read_u32_be 6 buf)) as k eqn:Hk.
    rewrite !read_u32_be_sum, !write_read_u32.
    pose proof (str_drop_drop k 10 buf) as Hdd. cbn [Nat.add] in Hdd. rewrite <- Hdd. clear Hdd.
    autorewrite with pbx_str. rewrite str_take_drop.
    clear Hk Hpl Hmax.
    do 10 (destruct buf as [|?c buf]; [cbn in Hl; lia|]). by destruct buf.
Qed.

Lemma decode_inv_length buf f n :
  decode buf = DecOk f n -> (10 <= n <= String.length buf)%nat.
Proof.
  intros Hd. destruct (decode_inv _ _ _ Hd) as (_ & -> & Hbuf).
  rewrite Hbuf, str_length_app. unfold encode_frame. rewrite length_encode. lia.
Qed.

Lemma decode_ok_app buf f n rest :
  decode buf = DecOk f n -> decode (buf +:+ rest) = DecOk f n.
Proof.
  intros Hd. destruct (decode_inv _ _ _ Hd) as (Hwf & -> & Hbuf).
  rewrite Hbuf, str_app_assoc. by apply decode_encode_frame.
Qed.

Lemma decode_invalid_app buf rest :
  decode buf = Invalid -> decode (buf +:+ rest) = Invalid.
Proof.
  unfold decode. destruct (Nat.ltb_spec (String.length buf) kHeaderSize) as [|Hl]; [done|].
  unfold kHeaderSize in *.
  destruct (Nat.ltb_spec (String.length (buf +:+ rest)) 10) as [Hl'|_].
  { rewrite str_length_app in Hl'. lia. }
  rewrite !char_at_app, !read_u32_be_app by lia.
  destruct (negb _); [done|]. destruct (op_of_raw _); [|done].
  destruct (_ >? _); [done|]. by destruct (_ <? _)%nat.
Qed.

Lemma decode_empty : decode "" = NeedMore.
Proof. done. Qed.

#[global] Opaque encode decode.

(** * Properties *)

(** C10. Decoding what [encode] wrote, whatever follows it in the buffer, gives the
    frame back and consumes exactly its bytes; and every successful decode
    consumed exactly the encoding of the frame it returned.  The two functions are
    inverse on the frames the format can carry. *)
Theorem encode_decode_roundtrip :
  (forall f rest, frame_wf f ->
     decode (encode_frame f +:+ rest) = DecOk f (String.length (encode_frame f)))
  /\ (forall buf f n, decode buf = DecOk f n ->
        frame_wf f /\ n = String.length (encode_frame f)
        /\ buf = encode_frame f +:+ str_drop n buf).
Proof. split; [exact decode_encode_frame | exact decode_inv]. Qed.

(** A buffer that holds a strict prefix of a well-formed frame makes [decode]
    answer [NeedMore]: it neither rejects nor accepts a truncated frame. *)
Theorem decode_truncated f n :
  frame_wf f -> (n < String.length (encode_frame f))%nat ->
  decode (str_take n (encode_frame f)) = NeedMore.
Proof.
  intros Hwf Hn. destruct (decode (str_take n (encode_frame f))) as [f' m| |] eqn:Hd; [|done|].
  - pose proof (decode_inv_length _ _ _ Hd) as Hm. rewrite str_length_take in Hm.
    apply (decode_ok_app _ _ _ (str_drop n (encode_frame f))) in Hd.
    rewrite str_take_drop in Hd.
    pose proof (decode_encode_frame f "" Hwf) as He. rewrite str_app_nil_r in He.
    rewrite He in Hd. injection Hd as -> Hlen. lia.
  - apply (decode_invalid_app _ (str_drop n (encode_frame f))) in Hd.
    rewrite str_take_drop in Hd.
    pose proof (decode_encode_frame f "" Hwf) as He. rewrite str_app_nil_r in He. congruence.
Qed.

Lemma decode_truncated_witness :
  frame_wf (mkFrame DATA 7 "abc") /\
  decode (str_take 12 (encode_frame (mkFrame DATA 7 "abc"))) = NeedMore.
Proof.
  split; [frames_wf|]. apply decode_truncated; [frames_wf|].
  vm_compute. lia.
Defined.

(** [encode] has no size check of its own: a payload above [kMaxPayload] (and
    below 2^32) is written out, and the peer's [decode] rejects the frame as a
    protocol violation instead of waiting for more bytes. *)
Theorem encode_oversize_rejected op sid p rest :
  is_u32 sid -> kMaxPayload < Z.of_nat (String.length p) < 2 ^ 32 ->
  decode (encode op sid p +:+ rest) = Invalid.
Proof.
  intros Hsid Hp. rewrite decode_header by lia || done.
  by destruct (Z.gtb_spec (Z.of_nat (String.length p)) kMaxPayload); [|lia].
Qed.

Lemma encode_oversize_rejected_witness :
  let p := str_repeat zero (Z.to_nat (kMaxPayload + 1)) in
  decode (encode DATA 7 p +:+ "rest") = Invalid.
Proof.
  apply encode_oversize_rejected; [unfold is_u32; lia|].
  rewrite str_length_repeat. unfold kMaxPayload. lia.
Defined.
