(* ===== verification/Json.v ===== *)
(** JSON values as the code uses them (nlohmann::json).

    The library is a vendored third-party header, so its parser and printer are
    the class [JsonLib]; the value type and the accessors the handlers call are
    defined here with the library's documented behaviour, exceptions included. *)

From S2P Require Import Prelude.

Set Warnings "-register-all".

(** A JSON value.  Objects are [std::map]s: association lists kept sorted by
    key without duplicates.  [JReal n d] is the floating-point number n/d. *)
Inductive json :=
  | JNull
  | JBool (b : bool)
  | JInt (z : Z)
  | JReal (num : Z) (den : positive)
  | JStr (s : string)
  | JArr (l : list json)
  | JObj (kvs : list (string * json)).

(** [json::parse] throws [parse_error]; [dump] throws [type_error] on a string
    that is not valid UTF-8. *)
Class JsonLib := {
  json_parse : string -> result json;
  json_dump : json -> result string;
}.
(** [bsoncxx::from_json]: the document a text stands for. *)
Class BsonText := { bson_of_json : string -> result json }.

Section Accessors.
Implicit Types (k s : string) (j v : json) (kvs : list (string * json)).

Fixpoint obj_find k kvs : option json :=
  match kvs with
  | [] => None
  | (k', v) :: kvs' => if str_eqb k k' then Some v else obj_find k kvs'
  end.

(** Insertion or assignment in key order. *)
Fixpoint obj_set k v kvs : list (string * json) :=
  match kvs with
  | [] => [(k, v)]
  | (k', v') :: kvs' =>
      match String.compare k k' with
      | Eq => (k, v) :: kvs'
      | Lt => (k, v) :: kvs
      | Gt => (k', v') :: obj_set k v kvs'
      end
  end.

Fixpoint obj_erase k kvs : list (string * json) :=
  match kvs with
  | [] => []
  | (k', v') :: kvs' =>
      if str_eqb k k' then obj_erase k kvs' else (k', v') :: obj_erase k kvs'
  end.

(** [json{{k1, v1}, ...}]. *)
Definition mk_obj kvs : json :=
  JObj (fold_left (fun acc kv => obj_set kv.1 kv.2 acc) kvs []).

Definition is_object j := match j with JObj _ => true | _ => false end.
Definition is_array j := match j with JArr _ => true | _ => false end.
Definition is_string j := match j with JStr _ => true | _ => false end.
Definition is_boolean j := match j with JBool _ => true | _ => false end.
Definition is_number j := match j with JInt _ | JReal _ _ => true | _ => false end.

(** The member [j[k]] when [j] is an object that has it. *)
Definition member k j : option json :=
  match j with JObj kvs => obj_find k kvs | _ => None end.

(** [j.contains(k)]: false on anything but an object. *)
Definition contains k j : bool := bool_decide (is_Some (member k j)).

(** [j.contains(k) && j[k].is_string()], and [j[k].get<std::string>()] then. *)
Definition member_str k j : option string :=
  match member k j with Some (JStr s) => Some s | _ => None end.
Definition member_obj k j : option json :=
  match member k j with Some (JObj kvs) => Some (JObj kvs) | _ => None end.
Definition member_bool k j : option bool :=
  match member k j with Some (JBool b) => Some b | _ => None end.

Definition get_string j : result string :=
  match j with JStr s => Ok s | _ => Throw JsonTypeError end.

(** Conversion of a stored integer to [long]. *)
Definition to_i64 (z : Z) : Z := ((z + 2 ^ 63) mod 2 ^ 64 - 2 ^ 63)%Z.
Definition get_long j : result Z :=
  match j with
  | JInt z => Ok (to_i64 z)
  | JReal n d => Ok (Z.quot n (Zpos d))
  | JBool b => Ok (Z.b2z b)
  | _ => Throw JsonTypeError
  end.

(** [j.value(k, default)]: a [type_error] when [j] is not an object or the
    member has another type. *)
Definition value_str k (d : string) j : result string :=
  match j with
  | JObj kvs =>
      match obj_find k kvs with
      | Some v => get_string v
      | None => Ok d
      end
  | _ => Throw JsonTypeError
  end.
Definition value_bool k (d : bool) j : result bool :=
  match j with
  | JObj kvs =>
      match obj_find k kvs with
      | Some (JBool b) => Ok b
      | Some _ => Throw JsonTypeError
      | None => Ok d
      end
  | _ => Throw JsonTypeError
  end.

(** [j.at(k).get<std::string>()]. *)
Definition at_str k j : result string :=
  match j with
  | JObj kvs =>
      match obj_find k kvs with
      | Some v => get_string v
      | None => Throw JsonOutOfRange
      end
  | _ => Throw JsonTypeError
  end.

Definition erase_key k j : json :=
  match j with JObj kvs => JObj (obj_erase k kvs) | _ => j end.
Definition set_key k v j : json :=
  match j with JObj kvs => JObj (obj_set k v kvs) | _ => j end.
End Accessors.

(** A member assigned with [j[k] = v]. *)
Lemma compare_refl (k : string) : String.compare k k = Eq.
Proof.
  induction k as [|c k IH]; [done|]. cbn. unfold Ascii.compare.
  by rewrite N.compare_refl.
Qed.

Lemma obj_find_set k v kvs : obj_find k (obj_set k v kvs) = Some v.
Proof.
  induction kvs as [|[k' v'] kvs IH]; cbn [obj_set obj_find]; [by rewrite str_eqb_refl|].
  destruct (String.compare k k') eqn:Hc; cbn [obj_find]; rewrite ?str_eqb_refl; try done.
  destruct (str_eqb k k') eqn:He; [|done].
  apply str_eqb_eq in He as ->. by rewrite compare_refl in Hc.
Qed.

Lemma obj_find_set_ne k k' v kvs : k <> k' -> obj_find k (obj_set k' v kvs) = obj_find k kvs.
Proof.
  intros Hne. apply str_eqb_neq in Hne as He.
  induction kvs as [|[k2 v2] kvs IH]; cbn [obj_set obj_find]; [by rewrite He|].
  destruct (String.compare k' k2) eqn:Hc; cbn [obj_find]; rewrite ?He; [| done |by rewrite IH].
  apply String.compare_eq_iff in Hc as ->. by rewrite He.
Qed.

Lemma obj_find_erase k kvs : obj_find k (obj_erase k kvs) = None.
Proof.
  induction kvs as [|[k' v'] kvs IH]; [done|]. cbn [obj_erase].
  destruct (str_eqb k k') eqn:He; [done|]. cbn [obj_find]. by rewrite He.
Qed.

Lemma obj_find_erase_ne k k' kvs : k <> k' -> obj_find k (obj_erase k' kvs) = obj_find k kvs.
Proof.
  intros Hne. induction kvs as [|[k2 v2] kvs IH]; [done|]. cbn [obj_erase obj_find].
  destruct (str_eqb k' k2) eqn:He2.
  - apply str_eqb_eq in He2 as ->. apply str_eqb_neq in Hne as ->. done.
  - cbn [obj_find]. by rewrite IH.
Qed.

(** ** Text that prints

    nlohmann's documentation: [parse] accepts UTF-8 input only, and [dump] throws a
    [type_error] exactly on a string that is not UTF-8.  What was parsed, and what is built
    of it and of constants, prints. *)
Definition byte_in (lo hi : N) (c : ascii) : bool := (lo <=? N_of_ascii c)%N && (N_of_ascii c <=? hi)%N.
Definition tail_byte : ascii -> bool := byte_in 128 191.

(** The well-formed sequences of RFC 3629, section 4. *)
Definition head2 : ascii -> bool := byte_in 194 223.
Definition head3 (c d : ascii) : bool :=
  byte_in 224 224 c && byte_in 160 191 d || byte_in 237 237 c && byte_in 128 159 d
  || (byte_in 225 236 c || byte_in 238 239 c) && tail_byte d.
Definition head4 (c d : ascii) : bool :=
  byte_in 240 240 c && byte_in 144 191 d || byte_in 241 243 c && tail_byte d
  || byte_in 244 244 c && byte_in 128 143 d.

Fixpoint utf8_ok (s : string) : bool :=
  match s with
  | EmptyString => true
  | String c s1 =>
      if byte_in 0 127 c then utf8_ok s1 else
      match s1 with
      | EmptyString => false
      | String d s2 =>
          if head2 c then tail_byte d && utf8_ok s2 else
          match s2 with
          | EmptyString => false
          | String e s3 =>
              if head3 c d then tail_byte e && utf8_ok s3 else
              match s3 with
              | EmptyString => false
              | String f s4 => head4 c d && tail_byte e && tail_byte f && utf8_ok s4
              end
          end
      end
  end.

Fixpoint json_utf8 (j : json) : bool :=
  match j with
  | JStr s => utf8_ok s
  | JArr l => forallb json_utf8 l
  | JObj kvs => forallb (fun kv => utf8_ok kv.1 && json_utf8 kv.2) kvs
  | _ => true
  end.

Class JsonText `{!JsonLib} : Prop := {
  parse_utf8 : forall s j, json_parse s = Ok j -> json_utf8 j = true;
  dump_utf8 : forall j, json_utf8 j = true -> is_ok (json_dump j);
}.

Lemma obj_find_utf8 k kvs v : json_utf8 (JObj kvs) = true -> obj_find k kvs = Some v -> json_utf8 v = true.
Proof.
  cbn. induction kvs as [|[k' v'] kvs IH]; [done|]. cbn. rewrite !andb_true_iff. intros [[_ Hv] Hr].
  case_match; [by intros [= <-]|by apply IH].
Qed.
Lemma member_utf8 k j v : json_utf8 j = true -> member k j = Some v -> json_utf8 v = true.
Proof. destruct j; try done. apply obj_find_utf8. Qed.
Lemma member_obj_utf8 k j v : json_utf8 j = true -> member_obj k j = Some v -> json_utf8 v = true.
Proof.
  intros Hj. unfold member_obj. destruct (member k j) as [[]|] eqn:Hm; try done. intros [= <-].
  by apply (member_utf8 k j).
Qed.
Lemma value_str_utf8 k d j s : json_utf8 j = true -> utf8_ok d = true -> value_str k d j = Ok s -> utf8_ok s = true.
Proof.
  intros Hj Hd. destruct j as [| | | | | |kvs]; try done. cbn [value_str].
  destruct (obj_find k kvs) as [v|] eqn:Hf; [|by intros [= <-]].
  apply (obj_find_utf8 _ _ _ Hj) in Hf. destruct v; try done. by intros [= <-].
Qed.
Lemma obj_set_utf8 k v kvs :
  utf8_ok k = true -> json_utf8 v = true -> json_utf8 (JObj kvs) = true -> json_utf8 (JObj (obj_set k v kvs)) = true.
Proof.
  cbn [json_utf8]. intros Hk Hv. induction kvs as [|[k' v'] kvs IH]; cbn; [by rewrite Hk, Hv|].
  rewrite !andb_true_iff. intros [[Hk' Hv'] Hr].
  destruct (String.compare k k'); cbn; rewrite ?Hk, ?Hv, ?Hk', ?Hv', ?Hr, ?IH; done.
Qed.
Lemma mk_obj_utf8 kvs : json_utf8 (JObj kvs) = true -> json_utf8 (mk_obj kvs) = true.
Proof.
  unfold mk_obj. intros Hkvs. assert (Hacc : json_utf8 (JObj []) = true) by done. revert Hacc Hkvs.
  generalize (@nil (string * json)). induction kvs as [|[k v] kvs IH]; intros acc Hacc Hkvs; [done|].
  cbn in Hkvs. rewrite !andb_true_iff in Hkvs. destruct Hkvs as [[Hk Hv] Hr]. cbn [fold_left].
  apply IH; [by apply obj_set_utf8|done].
Qed.

(** ** A concrete printer and parser, to evaluate the model on examples *)

Definition dquote : string := String "034" "".
Definition quoted (s : string) : string := dquote +:+ s +:+ dquote.

Fixpoint compact_dump (j : json) : string :=
  match j with
  | JNull => "null"
  | JBool true => "true"
  | JBool false => "false"
  | JInt z => pretty z
  | JReal n d => pretty n +:+ "/" +:+ pretty (Zpos d)
  | JStr s => quoted s
  | JArr l => "[" +:+ str_join "," (map compact_dump l) +:+ "]"
  | JObj kvs =>
      "{" +:+ str_join "," (map (fun kv => quoted kv.1 +:+ ":" +:+ compact_dump kv.2) kvs)
      +:+ "}"
  end.

(** Parsing by table: the values the example knows about. *)
Definition table_json (table : list json) : JsonLib := {|
  json_parse s :=
    match list_find (fun j => s = compact_dump j) table with
    | Some (_, j) => Ok j
    | None => Throw JsonParseError
    end;
  json_dump j := Ok (compact_dump j);
|}.

Lemma table_json_text (table : list json) :
  forallb json_utf8 table = true -> @JsonText (table_json table).
Proof.
  intros Ht. split; [|done]. intros s j. cbn. destruct (list_find _ table) as [[i x]|] eqn:Hf; [|done].
  intros [= <-]. apply list_find_Some in Hf as (Hi & _ & _).
  apply (proj1 (forallb_forall _ _) Ht). by apply list_elem_of_In, (list_elem_of_lookup_2 _ i).
Qed.
