(* ===== verification/FrameStream.v ===== *)
(** The read loop shared by the two ends of the tunnel.

    [SipBridge::on_tunnel_bytes] (sip_bridge.cpp) and
    [SipFrameDemux::on_tunnel_bytes] (sip_frame_demux.cpp) are the same code over
    different dispatchers.  [FrameReader] is what the loop needs of its owner and
    [ReaderLaws] what an owner promises about its dispatcher.  From these laws the
    file derives that the loop terminates, and that feeding a byte stream in
    chunks, wherever they are cut, is dispatching the frames the stream encodes. *)

From S2P Require Import Prelude SipFrame.

(** The owner of the loop: its [m_recv_buffer] and its [dispatch_frame]. *)
Class FrameReader (W : Type) := {
  recv_buffer : W -> string;
  set_recv_buffer : string -> W -> W;
  reader_dispatch : Frame -> M W unit;
}.

Section Loop.
Context {W : Type} `{!FrameReader W}.

(** The [for (;;)] of [on_tunnel_bytes].  [erase(0, consumed)] applies to
    whatever the buffer holds after the dispatch. *)
Fixpoint read_loop (fuel : nat) : M W bool := fun w =>
  match fuel with
  | O => (Throw OutOfFuel, w)
  | S fuel' =>
      match decode (recv_buffer w) with
      | NeedMore => (Ok true, w)
      | Invalid => (Ok false, set_recv_buffer "" w)
      | DecOk f consumed =>
          match reader_dispatch f w with
          | (Throw e, w') => (Throw e, w')
          | (Ok _, w') =>
              read_loop fuel' (set_recv_buffer (str_drop consumed (recv_buffer w')) w')
          end
      end
  end.

(** [on_tunnel_bytes]: append, then loop.  An iteration consumes a frame of at
    least ten bytes, so the length of the buffer is fuel enough. *)
Definition read_bytes (bytes : string) : M W bool := fun w =>
  let w := set_recv_buffer (recv_buffer w +:+ bytes) w in
  read_loop (S (String.length (recv_buffer w))) w.

(** A byte stream arriving in chunks, up to the first protocol violation. *)
Fixpoint read_chunks (chunks : list string) : M W bool :=
  match chunks with
  | [] => mret true
  | c :: chunks' => ok ← read_bytes c; if ok : bool then read_chunks chunks' else mret false
  end.
End Loop.

(** What the owner promises.  [reader_up] says that the tunnel is still attached;
    a dispatch that leaves it attached has not looked at the buffer, one that lost
    it has only emptied the buffer.  [reader_sane] says that the callbacks the
    dispatcher runs are total. *)
Class ReaderLaws (W : Type) `{!FrameReader W} := {
  reader_up : W -> bool;
  reader_sane : W -> Prop;
  buffer_set s w : recv_buffer (set_recv_buffer s w) = s;
  set_set s t w : set_recv_buffer s (set_recv_buffer t w) = set_recv_buffer s w;
  set_buffer w : set_recv_buffer (recv_buffer w) w = w;
  up_set s w : reader_up (set_recv_buffer s w) = reader_up w;
  sane_set s w : reader_sane w -> reader_sane (set_recv_buffer s w);
  dispatch_up f w r w' :
    reader_dispatch f w = (r, w') -> reader_up w' = true ->
    reader_up w = true /\ recv_buffer w' = recv_buffer w
    /\ forall s, reader_dispatch f (set_recv_buffer s w) = (r, set_recv_buffer s w');
  dispatch_shrinks f w :
    String.length (recv_buffer (reader_dispatch f w).2) <= String.length (recv_buffer w);
  dispatch_sane f w :
    reader_sane w ->
    (reader_dispatch f w).1 <> Throw OutOfFuel /\ reader_sane (reader_dispatch f w).2;
}.

(** The bytes of a sequence of frames. *)
Fixpoint encode_all (fs : list Frame) : string :=
  match fs with [] => "" | f :: fs' => encode_frame f +:+ encode_all fs' end.
Fixpoint concat_strings (l : list string) : string :=
  match l with [] => "" | s :: l' => s +:+ concat_strings l' end.

Lemma encode_all_app fs gs : encode_all (fs ++ gs) = encode_all fs +:+ encode_all gs.
Proof.
  induction fs as [|f fs IH]; [done|]. cbn [encode_all app].
  by rewrite IH, str_app_assoc.
Qed.

(** A buffer too short to hold a frame, and that is not already wrong. *)
Definition incomplete (s : string) : Prop := decode s = NeedMore.

Lemma incomplete_prefix s t : incomplete (s +:+ t) -> incomplete s.
Proof.
  unfold incomplete. intros Hst. destruct (decode s) eqn:Hs; [|done|].
  - by rewrite (decode_ok_app _ _ _ _ Hs) in Hst.
  - by rewrite (decode_invalid_app _ _ Hs) in Hst.
Qed.

Lemma truncated_incomplete f n :
  frame_wf f -> n < String.length (encode_frame f) ->
  incomplete (str_take n (encode_frame f)).
Proof.
  intros Hwf Hn. unfold incomplete.
  pose proof (decode_encode_frame f "" Hwf) as He. rewrite str_app_nil_r in He.
  destruct (decode (str_take n (encode_frame f))) as [f' m| |] eqn:Hd; [|done|].
  - pose proof (decode_inv_length _ _ _ Hd) as Hm. rewrite str_length_take in Hm.
    apply (decode_ok_app _ _ _ (str_drop n (encode_frame f))) in Hd.
    rewrite str_take_drop, He in Hd. injection Hd as -> Hlen. lia.
  - apply (decode_invalid_app _ (str_drop n (encode_frame f))) in Hd.
    rewrite str_take_drop in Hd. congruence.
Qed.

(** Two ways to cut the same string. *)
Lemma app_eq_split (a b c d : string) :
  a +:+ b = c +:+ d -> String.length a <= String.length c ->
  exists m, c = a +:+ m /\ b = m +:+ d.
Proof.
  revert c. induction a as [|x a IH]; intros c H Hl.
  - exists c. by autorewrite with pbx_str in *.
  - destruct c as [|y c]; [cbn in Hl; lia|].
    rewrite !str_app_cons in H. injection H as -> H.
    destruct (IH c H) as (m & -> & ->); [cbn in Hl; lia|]. by exists m.
Qed.

(** Where the first [b] bytes of a stream of frames end: after some whole frames
    and an incomplete rest. *)
Lemma stream_split fs tail b x :
  Forall frame_wf fs -> incomplete tail ->
  b +:+ x = encode_all fs +:+ tail ->
  exists fs1 fs2 r, fs = fs1 ++ fs2 /\ b = encode_all fs1 +:+ r /\ incomplete r
    /\ r +:+ x = encode_all fs2 +:+ tail.
Proof.
  intros Hwf Htail. revert b. induction Hwf as [|f fs Hf Hwf IH]; intros b Hb.
  - exists [], [], b. rewrite str_app_nil_l in Hb. repeat split; [|done].
    apply (incomplete_prefix _ x). by rewrite Hb.
  - cbn [encode_all] in Hb. rewrite str_app_assoc in Hb.
    destruct (Nat.lt_ge_cases (String.length b) (String.length (encode_frame f))) as [Hl|Hl].
    + exists [], (f :: fs), b. repeat split; [|by cbn [encode_all]; rewrite str_app_assoc].
      destruct (app_eq_split _ _ _ _ Hb) as (m & Hm & _); [lia|].
      replace b with (str_take (String.length b) (encode_frame f)).
      * apply truncated_incomplete; [done|lia].
      * by rewrite Hm, str_take_app_length.
    + symmetry in Hb. destruct (app_eq_split _ _ _ _ Hb) as (m & -> & Hm); [lia|].
      destruct (IH m) as (fs1 & fs2 & r & -> & -> & Hr & Hx); [done|].
      exists (f :: fs1), fs2, r. repeat split; [|done|done].
      cbn [encode_all]. by rewrite str_app_assoc.
Qed.

Section Laws.
Context {W : Type} `{!FrameReader W, !ReaderLaws W}.

(** The dispatcher run on a sequence of frames. *)
Definition dispatch_all (fs : list Frame) : M W unit := for_each fs reader_dispatch.

Lemma dispatch_all_app fs gs w w' :
  dispatch_all (fs ++ gs) w = (Ok tt, w') ->
  exists w1, dispatch_all fs w = (Ok tt, w1) /\ dispatch_all gs w1 = (Ok tt, w').
Proof.
  revert w. induction fs as [|f fs IH]; intros w H; [by exists w|].
  apply for_each_cons_inv in H as (w1 & H1 & H2).
  destruct (IH w1 H2) as (w2 & H3 & H4). exists w2. split; [|done].
  unfold dispatch_all. cbn [app]. by rewrite (for_each_cons_ok _ _ _ _ _ H1).
Qed.

(** A run that ends with the tunnel up had it up throughout, kept the buffer and
    does not depend on it. *)
Lemma dispatch_all_up fs w w' :
  dispatch_all fs w = (Ok tt, w') -> reader_up w' = true ->
  reader_up w = true /\ recv_buffer w' = recv_buffer w
  /\ forall s, dispatch_all fs (set_recv_buffer s w) = (Ok tt, set_recv_buffer s w').
Proof.
  revert w. induction fs as [|f fs IH]; intros w H Hup.
  { by injection H as <-. }
  apply for_each_cons_inv in H as (w1 & H1 & H2).
  destruct (IH w1 H2 Hup) as (Hup1 & Hb1 & Hs1).
  destruct (dispatch_up _ _ _ _ H1 Hup1) as (Hup0 & Hb0 & Hs0).
  repeat split; [done|congruence|]. intros s. unfold dispatch_all. rewrite (for_each_cons_ok _ _ _ _ _ (Hs0 s)). apply Hs1.
Qed.

(** The loop over the bytes of [fs] and an incomplete rest [r] is the dispatcher
    over [fs]; [r] stays in the buffer. *)
Lemma read_loop_frames fs r w w' fuel :
  Forall frame_wf fs -> incomplete r ->
  dispatch_all fs w = (Ok tt, w') -> reader_up w' = true ->
  recv_buffer w = encode_all fs +:+ r -> List.length fs < fuel ->
  read_loop fuel w = (Ok true, set_recv_buffer r w').
Proof.
  intros Hwf Hr. revert w w' fuel.
  induction Hwf as [|f fs Hf Hwf IH]; intros w w' fuel H Hup Hb Hfuel;
    (destruct fuel as [|fuel]; [cbn in Hfuel; lia|]).
  - injection H as <-. cbn [encode_all] in Hb. rewrite str_app_nil_l in Hb.
    cbn [read_loop]. rewrite Hb, Hr. by rewrite <- Hb, set_buffer.
  - apply for_each_cons_inv in H as (w1 & H1 & H2).
    destruct (dispatch_all_up _ _ _ H2 Hup) as (Hup1 & Hb1 & Hs1).
    destruct (dispatch_up _ _ _ _ H1 Hup1) as (_ & Hb0 & _).
    cbn [encode_all] in Hb. rewrite str_app_assoc in Hb.
    cbn [read_loop]. rewrite Hb, decode_encode_frame, H1, Hb0, Hb by done.
    rewrite str_drop_app_length.
    rewrite (IH _ _ _ (Hs1 _)), ?set_set; [done|by rewrite up_set|apply buffer_set|].
    cbn in Hfuel. lia.
Qed.

Lemma length_encode_all fs : List.length fs <= String.length (encode_all fs).
Proof.
  induction fs as [|f fs IH]; [done|]. cbn [encode_all List.length] in *.
  rewrite str_length_app. unfold encode_frame. rewrite length_encode. lia.
Qed.

Lemma read_bytes_frames fs r w w' bytes :
  Forall frame_wf fs -> incomplete r ->
  dispatch_all fs w = (Ok tt, w') -> reader_up w' = true ->
  recv_buffer w +:+ bytes = encode_all fs +:+ r ->
  read_bytes bytes w = (Ok true, set_recv_buffer r w').
Proof.
  intros Hwf Hr H Hup Hb. unfold read_bytes. rewrite buffer_set, Hb.
  destruct (dispatch_all_up _ _ _ H Hup) as (_ & _ & Hs).
  rewrite (read_loop_frames fs r _ _ _ Hwf Hr (Hs _)), ?set_set;
    rewrite ?up_set, ?buffer_set; [done..|].
  rewrite str_length_app. pose proof (length_encode_all fs). lia.
Qed.

Lemma read_chunks_frames chunks fs tail w w' :
  Forall frame_wf fs -> incomplete tail ->
  dispatch_all fs w = (Ok tt, w') -> reader_up w' = true ->
  recv_buffer w +:+ concat_strings chunks = encode_all fs +:+ tail ->
  incomplete (recv_buffer w) ->
  read_chunks chunks w = (Ok true, set_recv_buffer tail w').
Proof.
  intros Hwf Htail. revert fs Hwf w w'.
  induction chunks as [|c chunks IH]; intros fs Hwf w w' H Hup Hb Hw.
  - cbn [concat_strings] in Hb. rewrite str_app_nil_r in Hb.
    destruct Hwf as [|f fs Hf Hwf].
    + cbn [encode_all] in Hb. rewrite str_app_nil_l in Hb. injection H as <-.
      cbn. by rewrite <- Hb, set_buffer.
    + cbn [encode_all] in Hb. unfold incomplete in Hw.
      rewrite Hb, str_app_assoc, decode_encode_frame in Hw by done. done.
  - cbn [concat_strings] in Hb. rewrite <- str_app_assoc in Hb.
    destruct (stream_split fs tail _ _ Hwf Htail Hb)
      as (fs1 & fs2 & r & -> & Hc & Hr & Hx).
    apply Forall_app in Hwf as [Hwf1 Hwf2].
    apply dispatch_all_app in H as (w1 & H1 & H2).
    destruct (dispatch_all_up _ _ _ H2 Hup) as (Hup1 & _ & Hs).
    pose proof (read_bytes_frames fs1 r w w1 c Hwf1 Hr H1 Hup1 Hc) as Hread.
    cbn [read_chunks]. rewrite (M_bind_ok _ _ _ _ _ Hread).
    rewrite <- (set_set tail r). apply (IH fs2); rewrite ?up_set, ?buffer_set; done.
Qed.

(** The loop always ends, with a result that says what is left in the buffer. *)
Lemma read_loop_total fuel w :
  reader_sane w -> String.length (recv_buffer w) < fuel ->
  match read_loop fuel w with
  | (Ok true, w') => incomplete (recv_buffer w')
  | (Ok false, w') => recv_buffer w' = ""
  | (Throw e, _) => e <> OutOfFuel
  end.
Proof.
  revert w. induction fuel as [|fuel IH]; intros w Hs Hf; [lia|].
  cbn [read_loop]. destruct (decode (recv_buffer w)) as [f n| |] eqn:Hd.
  - pose proof (decode_inv_length _ _ _ Hd) as Hn.
    pose proof (dispatch_sane f w Hs) as [Hne Hs']. pose proof (dispatch_shrinks f w) as Hl.
    destruct (reader_dispatch f w) as [[[]|e] w'] eqn:Hdis; cbn [fst snd] in *;
      [|intros ->; done].
    apply IH; [by apply sane_set|]. rewrite buffer_set, str_length_drop. lia.
  - done.
  - apply buffer_set.
Qed.

Lemma read_bytes_total bytes w :
  reader_sane w ->
  match read_bytes bytes w with
  | (Ok true, w') => incomplete (recv_buffer w')
  | (Ok false, w') => recv_buffer w' = ""
  | (Throw e, _) => e <> OutOfFuel
  end.
Proof. intros Hs. apply read_loop_total; [by apply sane_set|]. rewrite buffer_set. lia. Qed.
End Laws.
