(* ===== verification/CloudTunnel.v ===== *)
(** The cloud end of the tunnel: [SipBridge] (sip_bridge.hpp/.cpp) and
    [CloudTunnelEndpoint] (cloud_tunnel_endpoint.hpp/.cpp).

    The two objects hold pointers to each other and re-enter each other: a send
    that fails inside a bridge call makes the endpoint tell the bridge that the
    tunnel is gone.  They are therefore one state, [Cloud], and every operation
    of either class is a function of it.  The sockets behind [IAgentTransport],
    [BrowserSink] and [IClock] are the interface [CloudIO]; [outs] records the
    calls made on them, in order. *)

From S2P Require Import Prelude SipFrame Json FrameStream.

#[local] Open Scope Z_scope.

(** What the two classes use of the injected objects.  Transports and browser
    sinks are named by numbers (their addresses). *)
Class CloudIO (H : Type) := {
  agent_send : nat -> string -> H -> bool * H;
  agent_close : nat -> H -> H;
  browser_send : nat -> string -> H -> H;
  browser_close : nat -> string -> H -> H;
  clock_now : H -> Z;
}.

Inductive out :=
  | AgentSent (t : nat) (bytes : string) (ok : bool)
  | AgentClosed (t : nat)
  | BrowserSent (b : nat) (bytes : string)
  | BrowserClosed (b : nat) (reason : string).

#[global] Instance out_eq_dec : EqDecision out.
Proof. solve_decision. Defined.

Record Config := mkConfig {
  outbound_buffer_max : nat;
  heartbeat_interval_sec : Z;
  heartbeat_max_missed : Z;
}.

(** [Config]'s member initialisers. *)
Definition default_config : Config := mkConfig 0 10 5.

Section State.
Context {H : Type}.

(** A [std::function] handler: it may act on the outside world and call
    [bootstrap_society] back on the bridge, or throw. *)
Definition handler : Type := string -> H -> result (list (string * string)) * H.

Record Handlers := mkHandlers {
  m_push_handler : option handler;
  m_cdr_handler : option handler;
  m_register_state_handler : option handler;
  m_agent_hello_handler : option handler;
  m_asterisk_status_handler : option handler;
}.

(** [SipBridge]'s fields.  [m_tunnel] is a pointer to the endpoint or null. *)
Record Bridge := mkBridge {
  m_tunnel : bool;
  m_next_stream_id : Z;
  m_browsers : gmap Z (option nat);
  m_recv_buffer : string;
  m_asterisk_connected : bool;
  m_handlers : Handlers;
}.

(** [CloudTunnelEndpoint]'s fields.  [m_clock] and [m_bridge] are null or set. *)
Record Endpoint := mkEndpoint {
  m_cfg : Config;
  m_clock : bool;
  m_bridge : bool;
  m_transport : option nat;
  m_outbound : list string;
  m_last_heartbeat_unix : Z;
  m_pings_outstanding : Z;
}.

Record Cloud := mkCloud {
  bridge : Bridge;
  endpoint : Endpoint;
  io : H;
  outs : list out;
}.

Definition no_handlers : Handlers := mkHandlers None None None None None.

(** The constructors of [SipBridge], over a tunnel pointer, and of
    [CloudTunnelEndpoint], over a configuration and a clock pointer. *)
Definition new_bridge (tunnel : bool) : Bridge := mkBridge tunnel 1 ∅ "" false no_handlers.
Definition new_endpoint (cfg : Config) (clock : bool) : Endpoint :=
  mkEndpoint cfg clock false None [] 0 0.

Definition on_bridge (f : Bridge -> Bridge) (w : Cloud) : Cloud :=
  mkCloud (f (bridge w)) (endpoint w) (io w) (outs w).
Definition on_endpoint (f : Endpoint -> Endpoint) (w : Cloud) : Cloud :=
  mkCloud (bridge w) (f (endpoint w)) (io w) (outs w).
Definition with_io (h : H) (o : list out) (w : Cloud) : Cloud :=
  mkCloud (bridge w) (endpoint w) h (outs w ++ o).

Definition put_tunnel (t : bool) (b : Bridge) : Bridge :=
  mkBridge t (m_next_stream_id b) (m_browsers b) (m_recv_buffer b)
    (m_asterisk_connected b) (m_handlers b).
Definition put_next_stream_id (n : Z) (b : Bridge) : Bridge :=
  mkBridge (m_tunnel b) n (m_browsers b) (m_recv_buffer b)
    (m_asterisk_connected b) (m_handlers b).
Definition put_browsers (m : gmap Z (option nat)) (b : Bridge) : Bridge :=
  mkBridge (m_tunnel b) (m_next_stream_id b) m (m_recv_buffer b)
    (m_asterisk_connected b) (m_handlers b).
Definition put_recv_buffer (s : string) (b : Bridge) : Bridge :=
  mkBridge (m_tunnel b) (m_next_stream_id b) (m_browsers b) s
    (m_asterisk_connected b) (m_handlers b).
Definition put_asterisk (a : bool) (b : Bridge) : Bridge :=
  mkBridge (m_tunnel b) (m_next_stream_id b) (m_browsers b) (m_recv_buffer b)
    a (m_handlers b).
Definition put_handlers (h : Handlers) (b : Bridge) : Bridge :=
  mkBridge (m_tunnel b) (m_next_stream_id b) (m_browsers b) (m_recv_buffer b)
    (m_asterisk_connected b) h.

Definition put_bridge_ptr (p : bool) (e : Endpoint) : Endpoint :=
  mkEndpoint (m_cfg e) (m_clock e) p (m_transport e) (m_outbound e)
    (m_last_heartbeat_unix e) (m_pings_outstanding e).
Definition put_transport (t : option nat) (e : Endpoint) : Endpoint :=
  mkEndpoint (m_cfg e) (m_clock e) (m_bridge e) t (m_outbound e)
    (m_last_heartbeat_unix e) (m_pings_outstanding e).
Definition put_outbound (q : list string) (e : Endpoint) : Endpoint :=
  mkEndpoint (m_cfg e) (m_clock e) (m_bridge e) (m_transport e) q
    (m_last_heartbeat_unix e) (m_pings_outstanding e).
Definition put_last_heartbeat (z : Z) (e : Endpoint) : Endpoint :=
  mkEndpoint (m_cfg e) (m_clock e) (m_bridge e) (m_transport e) (m_outbound e)
    z (m_pings_outstanding e).
Definition put_pings (z : Z) (e : Endpoint) : Endpoint :=
  mkEndpoint (m_cfg e) (m_clock e) (m_bridge e) (m_transport e) (m_outbound e)
    (m_last_heartbeat_unix e) z.
End State.
Arguments handler : clear implicits.
Arguments Handlers : clear implicits.
Arguments Bridge : clear implicits.
Arguments Endpoint : clear implicits.
Arguments Cloud : clear implicits.

Section Operations.
Context {H : Type} `{!CloudIO H} `{!JsonLib}.
Implicit Types (w : Cloud H).

(** ** Calls on the injected objects *)

Definition call_agent_send (t : nat) (bytes : string) w : bool * Cloud H :=
  let '(ok, h) := agent_send t bytes (io w) in
  (ok, with_io h [AgentSent t bytes ok] w).
Definition call_agent_close (t : nat) w : Cloud H :=
  with_io (agent_close t (io w)) [AgentClosed t] w.
Definition call_browser_send (b : nat) (bytes : string) w : Cloud H :=
  with_io (browser_send b bytes (io w)) [BrowserSent b bytes] w.
Definition call_browser_close (b : nat) (reason : string) w : Cloud H :=
  with_io (browser_close b reason (io w)) [BrowserClosed b reason] w.

(** ** SipBridge: operations that do not send *)

(** The loop of [on_tunnel_disconnect] over the sinks. *)
Definition close_all (l : list (Z * option nat)) w : Cloud H :=
  fold_left (fun w kv =>
    match kv.2 with
    | Some b => call_browser_close b "tunnel_lost" w
    | None => w
    end) l w.

Definition on_tunnel_disconnect w : Cloud H :=
  let w := close_all (map_to_list (m_browsers (bridge w))) w in
  on_bridge (fun b => put_asterisk false (put_tunnel false
               (put_recv_buffer "" (put_browsers ∅ b)))) w.

Definition set_tunnel (tunnel : bool) w : Cloud H :=
  on_bridge (fun b => put_recv_buffer "" (put_tunnel tunnel b)) w.

Definition close_stream (stream_id : Z) (reason : string) w : Cloud H :=
  match m_browsers (bridge w) !! stream_id with
  | None => w
  | Some sink =>
      let w := match sink with Some b => call_browser_close b reason w | None => w end in
      on_bridge (fun b => put_browsers (delete stream_id (m_browsers b)) b) w
  end.

(** ** CloudTunnelEndpoint *)

Definition attach_bridge (p : bool) w : Cloud H := on_endpoint (put_bridge_ptr p) w.

Definition mark_disconnected w : Cloud H :=
  let w := match m_transport (endpoint w) with
           | Some t => on_endpoint (put_transport None) (call_agent_close t w)
           | None => w
           end in
  if m_bridge (endpoint w) then on_tunnel_disconnect w else w.

(** The [while] of [flush_outbound]: the queue it walks is [m_outbound]. *)
Fixpoint flush_loop (q : list string) w : Cloud H :=
  match q, m_transport (endpoint w) with
  | bytes :: q', Some t =>
      let '(ok, w) := call_agent_send t bytes w in
      if ok then flush_loop q' (on_endpoint (put_outbound q') w)
      else mark_disconnected w
  | _, _ => w
  end.
Definition flush_outbound w : Cloud H := flush_loop (m_outbound (endpoint w)) w.

Definition buffer_frame (bytes : string) w : Cloud H :=
  let e := endpoint w in
  if (outbound_buffer_max (m_cfg e) =? 0)%nat
     || (List.length (m_outbound e) <? outbound_buffer_max (m_cfg e))%nat
  then on_endpoint (put_outbound (m_outbound e ++ [bytes])) w
  else w.

Definition send_frame (op : Op) (stream_id : Z) (payload : string) w : Cloud H :=
  let bytes := encode op stream_id payload in
  match m_transport (endpoint w) with
  | Some t =>
      let '(ok, w) := call_agent_send t bytes w in
      if ok then w else buffer_frame bytes (mark_disconnected w)
  | None => buffer_frame bytes w
  end.

Definition on_agent_connected (transport : option nat) w : Cloud H :=
  match transport with
  | None => w
  | Some t =>
      let w := match m_transport (endpoint w) with
               | Some _ => mark_disconnected w
               | None => w
               end in
      let w := on_endpoint (fun e => put_pings 0 (put_transport (Some t) e)) w in
      let w := if m_clock (endpoint w)
               then on_endpoint (put_last_heartbeat (clock_now (io w))) w else w in
      let w := if m_bridge (endpoint w) then set_tunnel true w else w in
      flush_outbound w
  end.

Definition on_agent_disconnected w : Cloud H :=
  match m_transport (endpoint w) with Some _ => mark_disconnected w | None => w end.

Definition maybe_heartbeat w : Cloud H :=
  let e := endpoint w in
  if negb (m_clock e) then w else
  if heartbeat_interval_sec (m_cfg e) <=? 0 then w else
  let now := clock_now (io w) in
  if now - m_last_heartbeat_unix e <? heartbeat_interval_sec (m_cfg e) then w else
  if heartbeat_max_missed (m_cfg e) <=? m_pings_outstanding e then mark_disconnected w else
  let w := send_frame PING 0 "" w in
  match m_transport (endpoint w) with
  | Some _ =>
      on_endpoint (fun e => put_last_heartbeat now
                              (put_pings (m_pings_outstanding e + 1) e)) w
  | None => w
  end.

Definition tick w : Cloud H :=
  match m_transport (endpoint w) with Some _ => maybe_heartbeat w | None => w end.

(** ** SipBridge: operations that send *)

(** [if (m_tunnel) m_tunnel->send_frame(...)]. *)
Definition tunnel_send (op : Op) (stream_id : Z) (payload : string) w : Cloud H :=
  if m_tunnel (bridge w) then send_frame op stream_id payload w else w.

Definition on_browser_upgrade (browser : option nat) (open_meta : string) w
    : Z * Cloud H :=
  let sid := m_next_stream_id (bridge w) in
  let w := on_bridge (put_next_stream_id (u32 (sid + 1))) w in
  (* emplace: an entry that is already there stays *)
  let w := match m_browsers (bridge w) !! sid with
           | Some _ => w
           | None => on_bridge (fun b => put_browsers (<[sid := browser]> (m_browsers b)) b) w
           end in
  (sid, tunnel_send OPEN sid open_meta w).

Definition on_browser_data (stream_id : Z) (bytes : string) w : Cloud H :=
  match m_browsers (bridge w) !! stream_id with
  | None => w
  | Some _ => tunnel_send DATA stream_id bytes w
  end.

Definition on_browser_close (stream_id : Z) (reason : string) w : Cloud H :=
  match m_browsers (bridge w) !! stream_id with
  | None => w
  | Some _ =>
      let w := on_bridge (fun b => put_browsers (delete stream_id (m_browsers b)) b) w in
      tunnel_send CLOSE stream_id reason w
  end.

Definition bootstrap_society (society_id sip_realm : string) : M (Cloud H) unit :=
  fun w =>
    if negb (m_tunnel (bridge w)) then (Ok tt, w) else
    match json_dump (mk_obj [("societyId", JStr society_id); ("sipRealm", JStr sip_realm)]) with
    | Throw e => (Throw e, w)
    | Ok payload => (Ok tt, tunnel_send SOCIETY_BOOTSTRAP 0 payload w)
    end.

Definition revoke (society_id sip_username : string) : M (Cloud H) unit :=
  fun w =>
    if negb (m_tunnel (bridge w)) then (Ok tt, w) else
    match json_dump (mk_obj [("societyId", JStr society_id);
                             ("sipUsername", JStr sip_username)]) with
    | Throw e => (Throw e, w)
    | Ok payload => (Ok tt, tunnel_send SUBSCRIBER_REVOKED 0 payload w)
    end.

(** [if (m_..._handler) m_..._handler(payload)]. *)
Definition run_handler (h : option (handler H)) (payload : string) : M (Cloud H) unit :=
  match h with
  | None => mret tt
  | Some h => fun w =>
      let '(r, h') := h payload (io w) in
      match r with
      | Throw e => (Throw e, with_io h' [] w)
      | Ok calls => for_each calls (fun c => bootstrap_society c.1 c.2) (with_io h' [] w)
      end
  end.

(** The flag an [ASTERISK_STATUS] payload sets; bad JSON leaves it alone. *)
Definition asterisk_flag (payload : string) (old : bool) : bool :=
  match json_parse payload with
  | Ok j => default old (member_bool "connected" j)
  | Throw _ => old
  end.

Definition dispatch_frame (f : Frame) : M (Cloud H) unit := fun w =>
  let hs := m_handlers (bridge w) in
  match op f with
  | DATA =>
      match m_browsers (bridge w) !! stream_id f with
      | Some (Some b) => (Ok tt, call_browser_send b (payload f) w)
      | _ => (Ok tt, w)
      end
  | CLOSE => (Ok tt, close_stream (stream_id f) (payload f) w)
  | PING => (Ok tt, tunnel_send PONG (stream_id f) "" w)
  | PONG | ERR | OPEN | SUBSCRIBER_REVOKED | SOCIETY_BOOTSTRAP => (Ok tt, w)
  | PUSH_NOTIFY => run_handler (m_push_handler hs) (payload f) w
  | CDR_PUSH => run_handler (m_cdr_handler hs) (payload f) w
  | REGISTER_STATE => run_handler (m_register_state_handler hs) (payload f) w
  | AGENT_HELLO => run_handler (m_agent_hello_handler hs) (payload f) w
  | ASTERISK_STATUS =>
      let w := on_bridge (fun b =>
        put_asterisk (asterisk_flag (payload f) (m_asterisk_connected b)) b) w in
      run_handler (m_asterisk_status_handler hs) (payload f) w
  end.

#[global] Instance bridge_reader : FrameReader (Cloud H) := {|
  recv_buffer w := m_recv_buffer (bridge w);
  set_recv_buffer s := on_bridge (put_recv_buffer s);
  reader_dispatch := dispatch_frame;
|}.

(** The append and the decode loop are [FrameStream.read_bytes]. *)
Definition on_tunnel_bytes (bytes : string) : M (Cloud H) bool := read_bytes bytes.

Definition on_bytes_received (bytes : string) : M (Cloud H) unit := fun w =>
  let w := on_endpoint (put_pings 0) w in
  if negb (m_bridge (endpoint w)) then (Ok tt, w) else
  match on_tunnel_bytes bytes w with
  | (Throw e, w') => (Throw e, w')
  | (Ok true, w') => (Ok tt, w')
  | (Ok false, w') => (Ok tt, mark_disconnected w')
  end.

(** The [set_*_handler] functions. *)
Definition set_push_notify_handler (h : option (handler H)) w : Cloud H :=
  on_bridge (fun b => let hs := m_handlers b in
    put_handlers (mkHandlers h (m_cdr_handler hs) (m_register_state_handler hs)
      (m_agent_hello_handler hs) (m_asterisk_status_handler hs)) b) w.
Definition set_cdr_push_handler (h : option (handler H)) w : Cloud H :=
  on_bridge (fun b => let hs := m_handlers b in
    put_handlers (mkHandlers (m_push_handler hs) h (m_register_state_handler hs)
      (m_agent_hello_handler hs) (m_asterisk_status_handler hs)) b) w.
Definition set_register_state_handler (h : option (handler H)) w : Cloud H :=
  on_bridge (fun b => let hs := m_handlers b in
    put_handlers (mkHandlers (m_push_handler hs) (m_cdr_handler hs) h
      (m_agent_hello_handler hs) (m_asterisk_status_handler hs)) b) w.
Definition set_agent_hello_handler (h : option (handler H)) w : Cloud H :=
  on_bridge (fun b => let hs := m_handlers b in
    put_handlers (mkHandlers (m_push_handler hs) (m_cdr_handler hs)
      (m_register_state_handler hs) h (m_asterisk_status_handler hs)) b) w.
Definition set_asterisk_status_handler (h : option (handler H)) w : Cloud H :=
  on_bridge (fun b => let hs := m_handlers b in
    put_handlers (mkHandlers (m_push_handler hs) (m_cdr_handler hs)
      (m_register_state_handler hs) (m_agent_hello_handler hs) h) b) w.

(** Observers. *)
Definition active_streams w : nat := size (m_browsers (bridge w)).
Definition last_stream_id w : Z := u32 (m_next_stream_id (bridge w) - 1).
Definition asterisk_connected w : bool := m_asterisk_connected (bridge w).
Definition has_agent w : bool := bool_decide (is_Some (m_transport (endpoint w))).
Definition buffered_frame_count w : nat := List.length (m_outbound (endpoint w)).
Definition pings_outstanding w : Z := m_pings_outstanding (endpoint w).
End Operations.

(** A concrete [CloudIO] for examples: transports that accept [budget] more
    writes, at time [time]. *)
Record FakeIO := mkFakeIO { budget : nat; time : Z }.
#[global] Instance fake_io : CloudIO FakeIO := {|
  agent_send _ _ h :=
    match budget h with
    | O => (false, h)
    | S n => (true, mkFakeIO n (time h))
    end;
  agent_close _ h := h;
  browser_send _ _ h := h;
  browser_close _ _ h := h;
  clock_now := time;
|}.

(** Another one: every write succeeds, and the world is the time. *)
#[global] Instance steady_io : CloudIO Z := {|
  agent_send _ _ h := (true, h);
  agent_close _ h := h;
  browser_send _ _ h := h;
  browser_close _ _ h := h;
  clock_now h := h;
|}.

(** The two objects as [main] builds them, attached to each other. *)
Definition new_cloud {H} (cfg : Config) (clock : bool) (h : H) : Cloud H :=
  mkCloud (new_bridge true) (put_bridge_ptr true (new_endpoint cfg clock)) h [].
