(* ===== verification/CloudTunnelSpec.v ===== *)
(** What the cloud end of the tunnel guarantees: theorems about [CloudTunnel]. *)

From S2P Require Import Prelude SipFrame Json FrameStream CloudTunnel.

#[local] Open Scope Z_scope.

Section Proofs.
Context {H : Type} `{!CloudIO H} `{!JsonLib}.
Implicit Types (w : Cloud H) (s : string).

(** ** The projections of each primitive *)

Lemma bridge_call_agent_send t s w : bridge (call_agent_send t s w).2 = bridge w.
Proof. unfold call_agent_send. by destruct agent_send. Qed.
Lemma endpoint_call_agent_send t s w : endpoint (call_agent_send t s w).2 = endpoint w.
Proof. unfold call_agent_send. by destruct agent_send. Qed.

Lemma bridge_close_all l w : bridge (close_all l w) = bridge w.
Proof.
  revert w. induction l as [|[k [b|]] l IH]; intros w; [done| |apply IH].
  etransitivity; [apply (IH (call_browser_close b _ w))|done].
Qed.
Lemma endpoint_close_all l w : endpoint (close_all l w) = endpoint w.
Proof.
  revert w. induction l as [|[k [b|]] l IH]; intros w; [done| |apply IH].
  etransitivity; [apply (IH (call_browser_close b _ w))|done].
Qed.

(** ** Operations and the receive buffer

    [buffer_blind F]: the operation [F] does not look at the receive buffer, and
    either leaves it alone or loses the tunnel and empties it. *)
Definition up w : bool := m_tunnel (bridge w).
Definition setb s w : Cloud H := on_bridge (put_recv_buffer s) w.
Definition buf w : string := m_recv_buffer (bridge w).

Definition handlers_of w : Handlers H := m_handlers (bridge w).
Definition kept w w' : Prop :=
  (buf w' = buf w \/ buf w' = "") /\ handlers_of w' = handlers_of w.

Lemma kept_refl w : kept w w.
Proof. split; [by left|done]. Qed.
Lemma kept_trans w1 w2 w3 : kept w1 w2 -> kept w2 w3 -> kept w1 w3.
Proof. unfold kept. intros [H1 ->] [[->| ->] ->]; [done|]. split; [by right|done]. Qed.

Definition buffer_blind (F : Cloud H -> Cloud H) : Prop :=
  forall w,
    (up (F w) = true -> up w = true /\ buf (F w) = buf w /\ forall s, F (setb s w) = setb s (F w))
    /\ kept w (F w).

Lemma blind_id : buffer_blind (fun w => w).
Proof. intros w. split; [done|apply kept_refl]. Qed.

Lemma blind_comp F G : buffer_blind F -> buffer_blind G -> buffer_blind (fun w => G (F w)).
Proof.
  intros HF HG w. destruct (HF w) as [HF1 HF2], (HG (F w)) as [HG1 HG2]. split.
  - intros Hup. destruct (HG1 Hup) as (Hup' & Hb & Hs). destruct (HF1 Hup') as (? & Hb' & Hs').
    split; [done|]. split; [congruence|]. intros s. by rewrite Hs', Hs.
  - by apply (kept_trans _ (F w)).
Qed.

(** An operation that leaves the tunnel pointer and the buffer alone. *)
Lemma blind_inert F :
  (forall w, up (F w) = up w /\ buf (F w) = buf w /\ handlers_of (F w) = handlers_of w) ->
  (forall s w, F (setb s w) = setb s (F w)) ->
  buffer_blind F.
Proof.
  intros HF Hs w. destruct (HF w) as (Hu & Hb & Hh). split; [|split; [by left|done]].
  intros Hup. split; [congruence|done].
Qed.

Lemma call_agent_send_setb t s s' w :
  call_agent_send t s (setb s' w)
  = ((call_agent_send t s w).1, setb s' (call_agent_send t s w).2).
Proof. unfold call_agent_send. cbn [io setb on_bridge]. by destruct agent_send. Qed.

Lemma close_all_setb l s w : close_all l (setb s w) = setb s (close_all l w).
Proof.
  revert w. induction l as [|[k [b|]] l IH]; intros w; [done| |apply IH].
  apply (IH (call_browser_close b _ w)).
Qed.

Lemma bridge_on_tunnel_disconnect w :
  bridge (on_tunnel_disconnect w)
  = put_asterisk false (put_tunnel false (put_recv_buffer "" (put_browsers ∅ (bridge w)))).
Proof. unfold on_tunnel_disconnect. cbn [bridge on_bridge]. by rewrite bridge_close_all. Qed.
Lemma endpoint_on_tunnel_disconnect w : endpoint (on_tunnel_disconnect w) = endpoint w.
Proof. apply endpoint_close_all. Qed.

Lemma bridge_mark_disconnected w :
  bridge (mark_disconnected w)
  = if m_bridge (endpoint w)
    then put_asterisk false (put_tunnel false (put_recv_buffer "" (put_browsers ∅ (bridge w))))
    else bridge w.
Proof.
  unfold mark_disconnected. destruct (m_transport (endpoint w));
    cbn [endpoint on_endpoint put_transport m_bridge call_agent_close with_io];
    destruct (m_bridge (endpoint w)); rewrite ?bridge_on_tunnel_disconnect; done.
Qed.
Lemma endpoint_mark_disconnected w :
  endpoint (mark_disconnected w) = put_transport None (endpoint w).
Proof.
  unfold mark_disconnected. destruct (m_transport (endpoint w)) eqn:Ht;
    cbn [endpoint on_endpoint put_transport m_bridge call_agent_close with_io];
    destruct (m_bridge (endpoint w)) eqn:Hb;
    rewrite ?endpoint_on_tunnel_disconnect; cbn [endpoint on_endpoint call_agent_close with_io];
    try done; destruct (endpoint w); cbn in *; by subst.
Qed.

Lemma blind_mark_disconnected : buffer_blind mark_disconnected.
Proof.
  intros w. unfold kept, up, buf, handlers_of. rewrite bridge_mark_disconnected.
  destruct (m_bridge (endpoint w)) eqn:Hb; [split; [done|]; split; [by right|done]|].
  split; [|split; [by left|done]]. intros Hup. split; [done|]. split; [done|].
  intros s. unfold mark_disconnected, setb. cbn [endpoint on_bridge].
  destruct (m_transport (endpoint w));
    cbn [endpoint on_endpoint put_transport m_bridge call_agent_close with_io on_bridge];
    by rewrite Hb.
Qed.

Lemma blind_buffer_frame bytes : buffer_blind (buffer_frame bytes).
Proof.
  apply blind_inert; intros; unfold buffer_frame; cbn [endpoint setb on_bridge];
    by destruct ((_ =? 0)%nat || _).
Qed.

Lemma blind_send_frame op sid p : buffer_blind (send_frame op sid p).
Proof.
  intros w. unfold send_frame.
  destruct (m_transport (endpoint w)) as [t|] eqn:Ht.
  - pose proof (bridge_call_agent_send t (encode op sid p) w) as Hbr.
    pose proof (call_agent_send_setb t (encode op sid p)) as Hset.
    destruct (call_agent_send t (encode op sid p) w) as [ok w1] eqn:Hc; cbn [fst snd] in *.
    destruct ok.
    + unfold kept, handlers_of, up, buf. rewrite Hbr. split; [|split; [by left|done]]. intros Hup. split; [done|].
      split; [done|]. intros s. cbn [endpoint setb on_bridge]. rewrite Ht.
      rewrite (Hset s), Hc. done.
    + destruct (blind_comp _ _ blind_mark_disconnected
                  (blind_buffer_frame (encode op sid p)) w1) as [H1 H2].
      unfold kept, handlers_of, up, buf in *. rewrite Hbr in *. split; [|done].
      intros Hup. destruct (H1 Hup) as (H3 & H4 & H5). split; [done|]. split; [done|].
      intros s. cbn [endpoint setb on_bridge]. rewrite Ht, (Hset s), Hc. cbn [fst snd].
      apply H5.
  - destruct (blind_buffer_frame (encode op sid p) w) as [H1 H2]. split; [|done].
    intros Hup. destruct (H1 Hup) as (H3 & H4 & H5). split; [done|]. split; [done|].
    intros s. cbn [endpoint setb on_bridge]. rewrite Ht. apply H5.
Qed.

Lemma blind_tunnel_send op sid p : buffer_blind (tunnel_send op sid p).
Proof.
  intros w. unfold tunnel_send. destruct (m_tunnel (bridge w)) eqn:Ht.
  - destruct (blind_send_frame op sid p w) as [H1 H2]. split; [|done].
    intros Hup. destruct (H1 Hup) as (H3 & H4 & H5). split; [done|]. split; [done|].
    intros s. unfold setb; cbn [bridge on_bridge put_recv_buffer m_tunnel].
    rewrite Ht. apply H5.
  - split; [|apply kept_refl]. unfold up. by rewrite Ht.
Qed.

(** The same for operations that can throw. *)
Definition blind_op {A} (F : M (Cloud H) A) : Prop :=
  forall w,
    (up (F w).2 = true ->
       up w = true /\ buf (F w).2 = buf w
       /\ forall s, F (setb s w) = ((F w).1, setb s (F w).2))
    /\ kept w (F w).2.

Lemma blind_op_lift {A} (r : result A) F : buffer_blind F -> blind_op (fun w => (r, F w)).
Proof.
  intros HF w. destruct (HF w) as [H1 H2]. split; [|done]. cbn [fst snd].
  intros Hup. destruct (H1 Hup) as (H3 & H4 & H5). split; [done|]. split; [done|].
  intros s. by rewrite H5.
Qed.

Lemma blind_bootstrap_society c r : blind_op (bootstrap_society c r).
Proof.
  intros w. unfold bootstrap_society. destruct (m_tunnel (bridge w)) eqn:Ht; cbn [negb].
  - destruct (json_dump _) as [p|e] eqn:Hd; cbn [fst snd].
    + destruct (blind_tunnel_send SOCIETY_BOOTSTRAP 0 p w) as [H1 H2]. split; [|done].
      intros Hup. destruct (H1 Hup) as (H3 & H4 & H5). split; [done|]. split; [done|].
      intros s. specialize (H5 s). unfold setb in *.
      cbn [bridge on_bridge put_recv_buffer m_tunnel] in *. rewrite Ht. cbn [negb].
      by rewrite <- H5.
    + split; [|apply kept_refl]. intros Hup. split; [done|]. split; [done|]. intros s.
      unfold setb; cbn [bridge on_bridge put_recv_buffer m_tunnel]. by rewrite Ht.
  - cbn [fst snd]. split; [|apply kept_refl]. unfold up. by rewrite Ht.
Qed.

Lemma blind_for_each {A} (l : list A) (f : A -> M (Cloud H) unit) :
  (forall a, blind_op (f a)) -> blind_op (for_each l f).
Proof.
  intros Hf. induction l as [|a l IH]; [apply (blind_op_lift (Ok tt)), blind_id|].
  intros w. destruct (Hf a w) as [Ha1 Ha2].
  destruct (f a w) as [[[]|e] w1] eqn:Hfa; cbn [fst snd] in *.
  - rewrite (for_each_cons_ok _ _ _ _ _ Hfa). destruct (IH w1) as [H1 H2]. split.
    + intros Hup. destruct (H1 Hup) as (H3 & H4 & H5).
      destruct (Ha1 H3) as (H6 & H7 & H8). split; [done|]. split; [congruence|].
      intros s. rewrite <- H5. by apply for_each_cons_ok.
    + by apply (kept_trans _ w1).
  - rewrite (for_each_cons_throw _ _ _ _ _ _ Hfa). split; [|done]. cbn [fst snd].
    intros Hup. destruct (Ha1 Hup) as (H6 & H7 & H8). split; [done|]. split; [done|].
    intros s. by apply for_each_cons_throw.
Qed.

Lemma blind_run_handler h p : blind_op (run_handler h p).
Proof.
  destruct h as [h|]; [|apply (blind_op_lift (Ok tt)), blind_id].
  intros w. unfold run_handler. cbn [setb on_bridge io].
  destruct (h p (io w)) as [[calls|e] h'].
  - pose proof (blind_for_each calls (fun c => bootstrap_society c.1 c.2)
      (fun c => blind_bootstrap_society c.1 c.2) (with_io h' [] w)) as [H1 H2].
    split; [|done]. intros Hup. destruct (H1 Hup) as (H3 & H4 & H5).
    split; [done|]. split; [done|]. intros s. by rewrite <- H5.
  - cbn [fst snd]. split; [done|]. split; [by left|done].
Qed.

Lemma blind_close_stream sid r : buffer_blind (close_stream sid r).
Proof.
  apply blind_inert; intros; unfold close_stream; cbn [bridge setb on_bridge put_recv_buffer m_browsers];
    by destruct (m_browsers (bridge w) !! sid) as [[b|]|].
Qed.

Lemma blind_dispatch_frame f : blind_op (dispatch_frame f).
Proof.
  destruct f as [[] sid p]; unfold dispatch_frame; cbn [op stream_id payload];
    try (apply (blind_op_lift (Ok tt)); (apply blind_id || apply blind_close_stream || apply blind_tunnel_send));
    try (intros w;
         first [ exact (blind_run_handler (m_push_handler (handlers_of w)) p w)
               | exact (blind_run_handler (m_cdr_handler (handlers_of w)) p w)
               | exact (blind_run_handler (m_register_state_handler (handlers_of w)) p w)
               | exact (blind_run_handler (m_agent_hello_handler (handlers_of w)) p w) ]).
  - intros w. cbn [bridge setb on_bridge put_recv_buffer m_browsers].
    destruct (m_browsers (bridge w) !! sid) as [[b|]|]; (split; [done|]; split; [by left|done]).
  - intros w.
    set (g := on_bridge (fun b : Bridge H => put_asterisk (asterisk_flag p (m_asterisk_connected b)) b)).
    destruct (blind_run_handler (m_asterisk_status_handler (m_handlers (bridge w))) p (g w)) as [H1 H2].
    split; [|exact H2]. intros Hup. destruct (H1 Hup) as (H3 & H4 & H5).
    split; [done|]. split; [done|]. intros s. apply (H5 s).
Qed.

(** ** The read loop's laws *)

(** The callbacks of the bridge, and the JSON printer, return. *)
Definition handler_total (h : option (handler H)) : Prop :=
  forall g p io, h = Some g -> (g p io).1 <> Throw OutOfFuel.
Definition dump_total : Prop := forall j, json_dump j <> Throw OutOfFuel.
Definition callbacks_total w : Prop :=
  dump_total
  /\ let hs := handlers_of w in
     handler_total (m_push_handler hs) /\ handler_total (m_cdr_handler hs)
     /\ handler_total (m_register_state_handler hs)
     /\ handler_total (m_agent_hello_handler hs)
     /\ handler_total (m_asterisk_status_handler hs).

Lemma bootstrap_society_total c r w :
  dump_total -> (bootstrap_society c r w).1 <> Throw OutOfFuel.
Proof.
  intros Hd. unfold bootstrap_society. destruct (negb _); [done|].
  pose proof (Hd (mk_obj [("societyId", JStr c); ("sipRealm", JStr r)])) as Hj.
  destruct (json_dump _); [done|]. cbn. congruence.
Qed.

Lemma run_handler_total h p w :
  dump_total -> handler_total h -> (run_handler h p w).1 <> Throw OutOfFuel.
Proof.
  intros Hd Hh. destruct h as [g|]; [|done]. unfold run_handler.
  pose proof (Hh g p (io w) eq_refl) as Hg.
  destruct (g p (io w)) as [[calls|e] h']; [|cbn in *; congruence]. clear Hg.
  generalize (with_io h' [] w). induction calls as [|[c r] calls IH]; intros w'; [done|].
  pose proof (bootstrap_society_total c r w' Hd) as Hb.
  destruct (bootstrap_society c r w') as [[[]|e] w1] eqn:Hbs; cbn [fst] in Hb.
  - by rewrite (for_each_cons_ok _ _ _ _ w1).
  - rewrite (for_each_cons_throw _ _ _ _ e w1) by done. cbn. congruence.
Qed.

Lemma dispatch_frame_total f w :
  callbacks_total w -> (dispatch_frame f w).1 <> Throw OutOfFuel.
Proof.
  intros (Hd & H1 & H2 & H3 & H4 & H5). unfold dispatch_frame.
  destruct (op f); try done; try (by apply run_handler_total).
  by destruct (m_browsers (bridge w) !! stream_id f) as [[b|]|].
Qed.

#[global] Instance bridge_laws : ReaderLaws (Cloud H).
Proof.
  refine {| reader_up := up; reader_sane := callbacks_total |}; try done.
  - intros w. by destruct w as [[] ? ? ?].
  - intros f w r w' Hd Hup. destruct (blind_dispatch_frame f w) as [H1 _].
    cbn [reader_dispatch bridge_reader] in *. rewrite Hd in H1. cbn [fst snd] in H1.
    destruct (H1 Hup) as (H3 & H4 & H5). by repeat split.
  - intros f w. destruct (blind_dispatch_frame f w) as [_ [[Hb|Hb] _]];
      cbn [recv_buffer reader_dispatch bridge_reader]; unfold buf in Hb; rewrite Hb; [done|].
    cbn. lia.
  - intros f w Hs. split; [by apply dispatch_frame_total|].
    destruct (blind_dispatch_frame f w) as [_ [_ Hh]]. unfold callbacks_total in *.
    cbn [reader_dispatch bridge_reader]. by rewrite Hh.
Defined.

(** ** Delivery: what the transports accepted, and what waits *)

Definition accepted (o : list out) : list string :=
  omap (fun x => match x with AgentSent _ s true => Some s | _ => None end) o.
Definition tunnel_stream w : list string := accepted (outs w) ++ m_outbound (endpoint w).
Definition unbounded w : Prop := outbound_buffer_max (m_cfg (endpoint w)) = 0%nat.

Lemma accepted_app o o' : accepted (o ++ o') = accepted o ++ accepted o'.
Proof. apply omap_app. Qed.

(** The endpoint's invariant.  A transport that is attached finds the queue
    empty and the bridge armed; a bounded queue is within its bound; unanswered
    heartbeats are within their limit; stream ids are 32-bit. *)
Record tunnel_pre w : Prop := {
  inv_armed : is_Some (m_transport (endpoint w)) -> m_bridge (endpoint w) = true ->
              m_tunnel (bridge w) = true;
  inv_bounded : ~ unbounded w ->
                (List.length (m_outbound (endpoint w))
                 <= outbound_buffer_max (m_cfg (endpoint w)))%nat;
  inv_pings : 0 <= m_pings_outstanding (endpoint w)
                <= Z.max 0 (heartbeat_max_missed (m_cfg (endpoint w)));
  inv_detached : m_bridge (endpoint w) = false -> m_tunnel (bridge w) = true;
  inv_ids : is_u32 (m_next_stream_id (bridge w))
            /\ forall k, is_Some (m_browsers (bridge w) !! k) -> is_u32 k;
}.
Record tunnel_inv w : Prop := {
  inv_pre : tunnel_pre w;
  inv_flushed : is_Some (m_transport (endpoint w)) -> m_outbound (endpoint w) = [];
}.

(** [evolves w w']: the invariant and the configuration carry over, and nothing
    that was accepted or queued is lost, repeated or reordered. *)
Definition evolves w w' : Prop :=
  tunnel_inv w ->
  tunnel_inv w' /\ m_cfg (endpoint w') = m_cfg (endpoint w)
  /\ (unbounded w -> exists new, tunnel_stream w' = tunnel_stream w ++ new).

Lemma evolves_refl w : evolves w w.
Proof. intros Hi. split; [done|]. split; [done|]. intros _. exists []. by rewrite app_nil_r. Qed.

Lemma evolves_trans w1 w2 w3 : evolves w1 w2 -> evolves w2 w3 -> evolves w1 w3.
Proof.
  intros H1 H2 Hi. destruct (H1 Hi) as (Hi2 & Hc2 & Hs2). destruct (H2 Hi2) as (Hi3 & Hc3 & Hs3).
  split; [done|]. split; [congruence|]. intros Hu. destruct (Hs2 Hu) as [n1 Hn1].
  destruct Hs3 as [n2 Hn2]; [unfold unbounded in *; by rewrite Hc2|].
  exists (n1 ++ n2). by rewrite Hn2, Hn1, app_assoc.
Qed.

#[global] Instance evolves_preorder : PreOrder evolves.
Proof. split; [exact evolves_refl|exact evolves_trans]. Qed.

Lemma outs_close_all l w : accepted (outs (close_all l w)) = accepted (outs w).
Proof.
  revert w. induction l as [|[k [b|]] l IH]; intros w; [done| |apply IH].
  etransitivity; [apply (IH (call_browser_close b _ w))|].
  cbn [outs call_browser_close with_io]. by rewrite accepted_app, app_nil_r.
Qed.

Lemma accepted_mark_disconnected w :
  accepted (outs (mark_disconnected w)) = accepted (outs w).
Proof.
  unfold mark_disconnected, on_tunnel_disconnect.
  destruct (m_transport (endpoint w));
    cbn [endpoint on_endpoint put_transport m_bridge call_agent_close with_io];
    destruct (m_bridge (endpoint w)); cbn [outs on_bridge]; rewrite ?outs_close_all;
    cbn [outs on_endpoint call_agent_close with_io];
    rewrite ?accepted_app, ?app_nil_r; done.
Qed.

Lemma stream_mark_disconnected w : tunnel_stream (mark_disconnected w) = tunnel_stream w.
Proof.
  unfold tunnel_stream. by rewrite accepted_mark_disconnected, endpoint_mark_disconnected.
Qed.

Lemma inv_mark_disconnected w : tunnel_pre w -> tunnel_inv (mark_disconnected w).
Proof.
  intros [Ha Hb Hp Hd [Hn Hk]].
  constructor; [constructor|]; unfold unbounded;
    rewrite ?endpoint_mark_disconnected, ?bridge_mark_disconnected;
    cbn [m_transport m_outbound put_transport m_bridge m_cfg m_pings_outstanding];
    try done; try (by intros []).
  - intros Hm. rewrite Hm. by apply Hd.
  - destruct (m_bridge (endpoint w)); [|done]. split; [done|].
    cbn [m_browsers put_browsers put_recv_buffer put_tunnel put_asterisk]. intros k.
    rewrite lookup_empty. by intros [].
Qed.

Lemma evolves_mark_disconnected w : evolves w (mark_disconnected w).
Proof.
  intros [Hpre _]. split; [by apply inv_mark_disconnected|]. split.
  - by rewrite endpoint_mark_disconnected.
  - intros _. exists []. by rewrite stream_mark_disconnected, app_nil_r.
Qed.

Lemma accepted_call_agent_send t s w :
  accepted (outs (call_agent_send t s w).2)
  = accepted (outs w) ++ (if (call_agent_send t s w).1 then [s] else []).
Proof.
  unfold call_agent_send. destruct agent_send as [[] h]; cbn [outs with_io fst snd];
    by rewrite accepted_app.
Qed.

(** [send_frame] puts exactly its frame at the end of the stream. *)
Lemma stream_send_frame op sid p w :
  tunnel_inv w -> unbounded w ->
  tunnel_stream (send_frame op sid p w) = tunnel_stream w ++ [encode op sid p].
Proof.
  intros Hi Hu. unfold send_frame, tunnel_stream.
  assert (Hbuf : forall v, unbounded v ->
    accepted (outs (buffer_frame (encode op sid p) v))
      ++ m_outbound (endpoint (buffer_frame (encode op sid p) v))
    = tunnel_stream v ++ [encode op sid p]).
  { intros v Hv. unfold buffer_frame, unbounded in *. rewrite Hv. cbn.
    unfold tunnel_stream. by rewrite app_assoc. }
  destruct (m_transport (endpoint w)) as [t|] eqn:Ht; [|by rewrite Hbuf].
  pose proof (accepted_call_agent_send t (encode op sid p) w) as Hacc.
  pose proof (endpoint_call_agent_send t (encode op sid p) w) as Hend.
  destruct (call_agent_send t (encode op sid p) w) as [[] w1]; cbn [fst snd] in *.
  - rewrite Hacc, Hend, (inv_flushed w Hi) by (by rewrite Ht). by rewrite !app_nil_r.
  - rewrite app_nil_r in Hacc.
    rewrite (Hbuf (mark_disconnected w1));
      [|unfold unbounded in *; rewrite endpoint_mark_disconnected; cbn; by rewrite Hend].
    rewrite stream_mark_disconnected. unfold tunnel_stream. by rewrite Hacc, Hend.
Qed.

Lemma inv_buffer_frame s w :
  tunnel_inv w -> m_transport (endpoint w) = None -> tunnel_inv (buffer_frame s w).
Proof.
  intros [[Ha Hb Hp Hd Hk] Hf] Ht. unfold buffer_frame, unbounded in *.
  destruct (Nat.eqb_spec (outbound_buffer_max (m_cfg (endpoint w))) 0) as [Hz|Hz]; cbn [orb];
    [|destruct (Nat.ltb_spec (List.length (m_outbound (endpoint w)))
                  (outbound_buffer_max (m_cfg (endpoint w)))) as [Hl|Hl]; [|done]];
    (constructor; [constructor|]; unfold unbounded;
       cbn [endpoint bridge on_endpoint m_transport m_outbound put_outbound m_bridge m_cfg
            m_pings_outstanding]; rewrite ?Ht; try done; try (by intros [])).
  intros _. rewrite length_app. cbn. lia.
Qed.

Lemma cfg_buffer_frame s w : m_cfg (endpoint (buffer_frame s w)) = m_cfg (endpoint w).
Proof. unfold buffer_frame. by destruct (_ || _). Qed.

Lemma inv_io h o w : tunnel_inv w -> tunnel_inv (with_io h o w).
Proof. by intros [[] ?]. Qed.

Lemma evolves_send_frame op sid p w : evolves w (send_frame op sid p w).
Proof.
  intros Hi. split; [|split].
  - unfold send_frame. destruct (m_transport (endpoint w)) as [t|] eqn:Ht;
      [|by apply inv_buffer_frame].
    unfold call_agent_send. destruct agent_send as [[] h].
    + by apply inv_io.
    + apply inv_buffer_frame; [apply evolves_mark_disconnected, inv_io, Hi|].
      by rewrite endpoint_mark_disconnected.
  - unfold send_frame. destruct (m_transport (endpoint w)) as [t|];
      [|apply cfg_buffer_frame].
    pose proof (endpoint_call_agent_send t (encode op sid p) w) as He.
    destruct (call_agent_send _ _ _) as [[] w1]; cbn [snd] in He; [by rewrite He|].
    rewrite cfg_buffer_frame, endpoint_mark_disconnected. cbn. by rewrite He.
  - intros Hu. exists [encode op sid p]. by apply stream_send_frame.
Qed.

(** An operation on the bridge that keeps its tunnel pointer and sends nothing. *)
Lemma evolves_bridge w w' :
  endpoint w' = endpoint w -> accepted (outs w') = accepted (outs w) ->
  m_tunnel (bridge w') = m_tunnel (bridge w) ->
  (tunnel_inv w -> is_u32 (m_next_stream_id (bridge w'))
     /\ forall k, is_Some (m_browsers (bridge w') !! k) -> is_u32 k) ->
  evolves w w'.
Proof.
  intros He Ho Ht Hk Hi. split; [|split].
  - specialize (Hk Hi). destruct Hi as [[] ?].
    by constructor; [constructor|]; unfold unbounded; rewrite ?He, ?Ht.
  - by rewrite He.
  - intros _. exists []. unfold tunnel_stream. by rewrite He, Ho, app_nil_r.
Qed.

Lemma evolves_tunnel_send op sid p w : evolves w (tunnel_send op sid p w).
Proof. unfold tunnel_send. destruct (m_tunnel _); [apply evolves_send_frame|reflexivity]. Qed.

Lemma accepted_browser o b s : accepted (o ++ [BrowserSent b s]) = accepted o.
Proof. by rewrite accepted_app, app_nil_r. Qed.
Lemma accepted_browser_closed o b s : accepted (o ++ [BrowserClosed b s]) = accepted o.
Proof. by rewrite accepted_app, app_nil_r. Qed.

Lemma lookup_delete_some (m : gmap Z (option nat)) k k' :
  is_Some (delete k m !! k') -> is_Some (m !! k').
Proof. intros [x Hx]. apply lookup_delete_Some in Hx as [_ Hx]. eauto. Qed.

Lemma evolves_close_stream sid r w : evolves w (close_stream sid r w).
Proof.
  unfold close_stream. destruct (m_browsers (bridge w) !! sid) as [[b|]|] eqn:Hb; [| |reflexivity];
    (apply evolves_bridge; [done| |done|]); try apply accepted_browser_closed; try done;
    intros [[_ _ _ _ [Hn Hk]] _]; (split; [done|]); intros k Hx;
    by apply Hk, (lookup_delete_some _ sid).
Qed.

Lemma evolves_on_browser_upgrade b m w : evolves w (on_browser_upgrade b m w).2.
Proof.
  unfold on_browser_upgrade. cbn [snd].
  etransitivity; [|apply evolves_tunnel_send].
  apply evolves_bridge; try (by destruct (m_browsers _ !! _)).
  intros [[_ _ _ _ [Hn Hk]] _]. cbn [bridge on_bridge put_next_stream_id m_browsers].
  destruct (m_browsers (bridge w) !! m_next_stream_id (bridge w)) eqn:Hm;
    (split; [apply u32_range|]); [done|].
  cbn [bridge on_bridge put_browsers m_browsers put_next_stream_id]. intros k [x Hx].
  apply lookup_insert_Some in Hx as [[<- _]|[_ Hx]]; eauto.
Qed.

Lemma evolves_on_browser_data sid s w : evolves w (on_browser_data sid s w).
Proof.
  unfold on_browser_data. destruct (_ !! sid); [apply evolves_tunnel_send|reflexivity].
Qed.

Lemma evolves_on_browser_close sid r w : evolves w (on_browser_close sid r w).
Proof.
  unfold on_browser_close. destruct (_ !! sid); [|reflexivity].
  etransitivity; [|apply evolves_tunnel_send]. apply evolves_bridge; try done.
  intros [[_ _ _ _ [Hn Hk]] _]. split; [done|]. intros k Hx. by apply Hk, (lookup_delete_some _ sid).
Qed.

Lemma evolves_bootstrap_society c r w : evolves w (bootstrap_society c r w).2.
Proof.
  unfold bootstrap_society. destruct (negb _); [reflexivity|].
  destruct (json_dump _); [apply evolves_tunnel_send|reflexivity].
Qed.

Lemma evolves_revoke c u w : evolves w (revoke c u w).2.
Proof.
  unfold revoke. destruct (negb _); [reflexivity|].
  destruct (json_dump _); [apply evolves_tunnel_send|reflexivity].
Qed.

Lemma evolves_io h w : evolves w (with_io h [] w).
Proof. apply evolves_bridge; [done| |done|by intros [[] ?]]. cbn. by rewrite app_nil_r. Qed.

Lemma evolves_run_handler h p w : evolves w (run_handler h p w).2.
Proof.
  destruct h as [h|]; [|reflexivity]. unfold run_handler.
  destruct (h p (io w)) as [[calls|e] h']; [|apply evolves_io].
  transitivity (with_io h' [] w); [apply evolves_io|].
  generalize (with_io h' [] w). clear. induction calls as [|[c r] calls IH]; intros w; [reflexivity|].
  pose proof (evolves_bootstrap_society c r w) as Hb.
  destruct (bootstrap_society c r w) as [[[]|e] w1] eqn:Hbs; cbn [snd] in Hb.
  - rewrite (for_each_cons_ok _ _ _ _ w1) by done. by transitivity w1.
  - by rewrite (for_each_cons_throw _ _ _ _ e w1).
Qed.

Lemma evolves_dispatch_frame f w : evolves w (dispatch_frame f w).2.
Proof.
  unfold dispatch_frame.
  destruct (op f); cbn [snd];
    try reflexivity; try apply evolves_run_handler; try apply evolves_close_stream;
    try apply evolves_tunnel_send.
  - destruct (m_browsers (bridge w) !! stream_id f) as [[b|]|]; try reflexivity.
    apply evolves_bridge; [done|apply accepted_browser|done|by intros [[] ?]].
  - etransitivity; [|apply evolves_run_handler]. apply evolves_bridge; try done. by intros [[] ?].
Qed.

Lemma evolves_set_buffer s w : evolves w (setb s w).
Proof. apply evolves_bridge; try done. by intros [[] ?]. Qed.

Lemma evolves_read_loop fuel w : evolves w (read_loop fuel w).2.
Proof.
  revert w. induction fuel as [|fuel IH]; intros w; cbn [read_loop]; [reflexivity|].
  destruct (decode (recv_buffer w)) as [f n| |]; [|reflexivity|apply evolves_set_buffer].
  pose proof (evolves_dispatch_frame f w) as Hd. cbn [reader_dispatch bridge_reader] in *.
  destruct (dispatch_frame f w) as [[[]|e] w1]; cbn [snd] in *; [|done].
  transitivity w1; [done|]. etransitivity; [apply evolves_set_buffer|apply IH].
Qed.

Lemma evolves_on_tunnel_bytes s w : evolves w (on_tunnel_bytes s w).2.
Proof.
  unfold on_tunnel_bytes, read_bytes. etransitivity; [|apply evolves_read_loop].
  apply evolves_set_buffer.
Qed.

Lemma evolves_pings w : evolves w (on_endpoint (put_pings 0) w).
Proof.
  intros [[Ha Hb Hp Hd Hk] Hf]. split; [|split]; [|done|].
  - constructor; [constructor|]; try done. cbn. lia.
  - intros _. exists []. by rewrite app_nil_r.
Qed.

Lemma evolves_on_bytes_received s w : evolves w (on_bytes_received s w).2.
Proof.
  unfold on_bytes_received. transitivity (on_endpoint (put_pings 0) w); [apply evolves_pings|].
  set (w1 := on_endpoint (put_pings 0) w).
  destruct (negb _); [reflexivity|]. pose proof (evolves_on_tunnel_bytes s w1) as Ht.
  destruct (on_tunnel_bytes s w1) as [[[]|e] w2]; cbn [snd] in *; [done| |done].
  transitivity w2; [done|apply evolves_mark_disconnected].
Qed.

(** ** Flushing and connecting *)

(** [flush_loop] delivers the queue from its front; it ends with an empty queue
    or without a transport, and the stream is what it was. *)
Lemma flush_loop_spec q w :
  m_outbound (endpoint w) = q ->
  tunnel_stream (flush_loop q w) = tunnel_stream w
  /\ m_cfg (endpoint (flush_loop q w)) = m_cfg (endpoint w)
  /\ (is_Some (m_transport (endpoint (flush_loop q w))) ->
       m_outbound (endpoint (flush_loop q w)) = []
       /\ bridge (flush_loop q w) = bridge w
       /\ m_bridge (endpoint (flush_loop q w)) = m_bridge (endpoint w)).
Proof.
  revert w. induction q as [|s q IH]; intros w Hq.
  { unfold flush_loop. by repeat split. }
  cbn [flush_loop]. destruct (m_transport (endpoint w)) as [t|] eqn:Ht.
  2:{ split; [done|]. split; [done|]. rewrite Ht. by intros []. }
  pose proof (accepted_call_agent_send t s w) as Hacc.
  pose proof (endpoint_call_agent_send t s w) as Hend.
  pose proof (bridge_call_agent_send t s w) as Hbr.
  destruct (call_agent_send t s w) as [[] w1]; cbn [fst snd] in *.
  - destruct (IH (on_endpoint (put_outbound q) w1) eq_refl) as (Hs & Hc & Hl).
    rewrite Hs, Hc. split; [|split].
    + unfold tunnel_stream. cbn [outs endpoint on_endpoint put_outbound m_outbound].
      by rewrite Hacc, Hq, <- app_assoc.
    + cbn. by rewrite Hend.
    + intros Hup. destruct (Hl Hup) as (Ho & Hb & Hm). rewrite Hb, Hm. cbn. by rewrite Hbr, Hend.
  - rewrite app_nil_r in Hacc. rewrite stream_mark_disconnected, endpoint_mark_disconnected.
    unfold tunnel_stream. rewrite Hacc, Hend. split; [done|]. split; [done|]. by intros [].
Qed.

Lemma inv_flush_loop q w :
  tunnel_pre w -> m_outbound (endpoint w) = q -> tunnel_inv (flush_loop q w).
Proof.
  revert w. induction q as [|s q IH]; intros w Hp Hq; [by constructor|].
  cbn [flush_loop]. destruct (m_transport (endpoint w)) as [t|] eqn:Ht.
  2:{ constructor; [done|]. rewrite Ht. by intros []. }
  unfold call_agent_send. destruct agent_send as [[] h].
  - apply IH; [|done]. destruct Hp as [Ha Hb Hp Hd Hk].
    constructor; try done. unfold unbounded in *. cbn. rewrite Hq in Hb. cbn in Hb.
    intros Hu. specialize (Hb Hu). lia.
  - apply inv_mark_disconnected. by destruct Hp.
Qed.

(** A transport that takes everything takes the whole queue. *)
Lemma flush_loop_accepts t q w :
  (forall s h, (agent_send t s h).1 = true) ->
  m_outbound (endpoint w) = q -> m_transport (endpoint w) = Some t ->
  m_outbound (endpoint (flush_loop q w)) = [].
Proof.
  intros Hok. revert w. induction q as [|s q IH]; intros w Hq Ht; [done|]. cbn [flush_loop].
  rewrite Ht. unfold call_agent_send. specialize (Hok s (io w)).
  destruct (agent_send t s (io w)) as [[] h]; [|done]. by apply IH.
Qed.

(** The state [on_agent_connected] flushes from. *)
Definition installed (t : nat) w : Cloud H :=
  let w := match m_transport (endpoint w) with Some _ => mark_disconnected w | None => w end in
  let w := on_endpoint (fun e => put_pings 0 (put_transport (Some t) e)) w in
  let w := if m_clock (endpoint w)
           then on_endpoint (put_last_heartbeat (clock_now (io w))) w else w in
  if m_bridge (endpoint w) then set_tunnel true w else w.

Lemma on_agent_connected_some t w :
  on_agent_connected (Some t) w = flush_outbound (installed t w).
Proof. done. Qed.

Lemma installed_spec t w :
  tunnel_inv w ->
  tunnel_pre (installed t w) /\ tunnel_stream (installed t w) = tunnel_stream w
  /\ m_cfg (endpoint (installed t w)) = m_cfg (endpoint w)
  /\ m_transport (endpoint (installed t w)) = Some t
  /\ m_bridge (endpoint (installed t w)) = m_bridge (endpoint w)
  /\ m_outbound (endpoint (installed t w)) = m_outbound (endpoint w)
  /\ m_pings_outstanding (endpoint (installed t w)) = 0.
Proof.
  intros Hi. unfold installed.
  set (w1 := match m_transport (endpoint w) with Some _ => mark_disconnected w | None => w end).
  assert (H1 : tunnel_inv w1 /\ tunnel_stream w1 = tunnel_stream w
               /\ m_cfg (endpoint w1) = m_cfg (endpoint w)
               /\ m_bridge (endpoint w1) = m_bridge (endpoint w)
               /\ m_outbound (endpoint w1) = m_outbound (endpoint w)).
  { unfold w1. destruct (m_transport (endpoint w)); [|done].
    rewrite stream_mark_disconnected, endpoint_mark_disconnected.
    split; [|done]. apply inv_mark_disconnected, Hi. }
  clearbody w1. destruct H1 as ([[Ha Hb Hp Hd [Hn Hk]] Hf] & Hst & Hc & Hm & Ho).
  unfold tunnel_stream in *.
  cbn [endpoint on_endpoint put_transport put_pings m_clock].
  destruct (m_clock (endpoint w1));
    cbn [endpoint on_endpoint put_transport put_pings put_last_heartbeat m_bridge];
    (destruct (m_bridge (endpoint w1)) eqn:Hbr; rewrite <- Hm; (split; [|done]);
     constructor; try done; cbn; rewrite ?Hbr; try done; try lia; by rewrite Hd).
Qed.

Lemma evolves_on_agent_connected t w : evolves w (on_agent_connected t w).
Proof.
  destruct t as [t|]; [|reflexivity]. intros Hi. rewrite on_agent_connected_some.
  destruct (installed_spec t w Hi) as (Hp & Hs & Hc & _).
  destruct (flush_loop_spec _ (installed t w) eq_refl) as (Hs' & Hc' & _).
  split; [by apply inv_flush_loop|]. unfold flush_outbound. rewrite Hs', Hc', Hs, Hc.
  split; [done|]. intros _. exists []. by rewrite app_nil_r.
Qed.

(** ** The heartbeat *)

Lemma send_frame_sent op sid p t h w :
  m_transport (endpoint w) = Some t ->
  agent_send t (encode op sid p) (io w) = (true, h) ->
  send_frame op sid p w = with_io h [AgentSent t (encode op sid p) true] w.
Proof. intros Ht Hs. unfold send_frame, call_agent_send. by rewrite Ht, Hs. Qed.

Lemma send_frame_failed op sid p t h w :
  m_transport (endpoint w) = Some t ->
  agent_send t (encode op sid p) (io w) = (false, h) ->
  send_frame op sid p w
  = buffer_frame (encode op sid p)
      (mark_disconnected (with_io h [AgentSent t (encode op sid p) false] w)).
Proof. intros Ht Hs. unfold send_frame, call_agent_send. by rewrite Ht, Hs. Qed.

Lemma transport_buffer_frame s w : m_transport (endpoint (buffer_frame s w)) = m_transport (endpoint w).
Proof. unfold buffer_frame. by destruct (_ || _). Qed.

Lemma send_frame_failed_down op sid p t h w :
  m_transport (endpoint w) = Some t ->
  agent_send t (encode op sid p) (io w) = (false, h) ->
  m_transport (endpoint (send_frame op sid p w)) = None.
Proof.
  intros Ht Hs. erewrite send_frame_failed by done.
  by rewrite transport_buffer_frame, endpoint_mark_disconnected.
Qed.

(** A heartbeat is due. *)
Definition heartbeat_due w : bool :=
  m_clock (endpoint w) && (0 <? heartbeat_interval_sec (m_cfg (endpoint w)))
  && (heartbeat_interval_sec (m_cfg (endpoint w))
      <=? clock_now (io w) - m_last_heartbeat_unix (endpoint w)).

(** [tick] on every branch. *)
Lemma tick_spec w :
  tick w =
  match m_transport (endpoint w) with
  | None => w
  | Some t =>
      if negb (heartbeat_due w) then w else
      if heartbeat_max_missed (m_cfg (endpoint w)) <=? m_pings_outstanding (endpoint w)
      then mark_disconnected w else
      if (agent_send t (encode PING 0 "") (io w)).1
      then on_endpoint (fun e => put_last_heartbeat (clock_now (io w))
                                   (put_pings (m_pings_outstanding e + 1) e))
             (with_io (agent_send t (encode PING 0 "") (io w)).2
                [AgentSent t (encode PING 0 "") true] w)
      else send_frame PING 0 "" w
  end.
Proof.
  unfold tick, maybe_heartbeat, heartbeat_due.
  destruct (m_transport (endpoint w)) as [t|] eqn:Ht; [|done].
  destruct (m_clock (endpoint w)); cbn [negb andb]; [|done].
  destruct (Z.leb_spec (heartbeat_interval_sec (m_cfg (endpoint w))) 0),
    (Z.ltb_spec 0 (heartbeat_interval_sec (m_cfg (endpoint w)))); try lia; cbn [negb andb]; [done|].
  destruct (Z.ltb_spec (clock_now (io w) - m_last_heartbeat_unix (endpoint w))
              (heartbeat_interval_sec (m_cfg (endpoint w)))),
    (Z.leb_spec (heartbeat_interval_sec (m_cfg (endpoint w)))
              (clock_now (io w) - m_last_heartbeat_unix (endpoint w))); try lia; [done|].
  cbn [negb]. destruct (_ <=? _); [done|].
  destruct (agent_send t (encode PING 0 "") (io w)) as [[] h] eqn:Hs; cbn [fst snd].
  - erewrite send_frame_sent by done. cbn [endpoint with_io]. by rewrite Ht.
  - by erewrite send_frame_failed_down.
Qed.

Lemma evolves_tick w : evolves w (tick w).
Proof.
  rewrite tick_spec. destruct (m_transport (endpoint w)) as [t|] eqn:Ht; [|reflexivity].
  destruct (negb _); [reflexivity|].
  destruct (Z.leb_spec (heartbeat_max_missed (m_cfg (endpoint w)))
              (m_pings_outstanding (endpoint w))) as [Hle|Hlt]; [apply evolves_mark_disconnected|].
  destruct (agent_send t (encode PING 0 "") (io w)) as [[] h] eqn:Hs; cbn [fst snd];
    [|apply evolves_send_frame].
  intros Hi. split; [|split; [done|]].
  - destruct Hi as [[Ha Hb Hp Hd Hk] Hf]. constructor; [constructor|]; try done.
    cbn. lia.
  - intros _. exists [encode PING 0 ""]. unfold tunnel_stream.
    cbn [outs endpoint with_io on_endpoint m_outbound put_last_heartbeat put_pings].
    rewrite accepted_app, (inv_flushed w Hi) by (by rewrite Ht). by rewrite !app_nil_r.
Qed.

(** ** Everything that can happen to the two objects *)

Inductive quiet_step : Cloud H -> Cloud H -> Prop :=
  | step_agent_connected t w : quiet_step w (on_agent_connected t w)
  | step_agent_disconnected w : quiet_step w (on_agent_disconnected w)
  | step_bytes s w : quiet_step w (on_bytes_received s w).2
  | step_tick w : quiet_step w (tick w)
  | step_send op sid p w : quiet_step w (send_frame op sid p w)
  | step_data sid s w : quiet_step w (on_browser_data sid s w)
  | step_close sid r w : quiet_step w (on_browser_close sid r w)
  | step_bootstrap c r w : quiet_step w (bootstrap_society c r w).2
  | step_revoke c u w : quiet_step w (revoke c u w).2
  | step_environment h w : quiet_step w (with_io h [] w).

Inductive cloud_step : Cloud H -> Cloud H -> Prop :=
  | step_quiet w w' : quiet_step w w' -> cloud_step w w'
  | step_upgrade b m w : cloud_step w (on_browser_upgrade b m w).2.

Lemma evolves_quiet w w' : quiet_step w w' -> evolves w w'.
Proof.
  destruct 1; eauto using evolves_on_agent_connected, evolves_on_bytes_received, evolves_tick,
    evolves_send_frame, evolves_on_browser_data,
    evolves_on_browser_close, evolves_bootstrap_society, evolves_revoke, evolves_io.
  unfold on_agent_disconnected. destruct (m_transport _); [|reflexivity].
  apply evolves_mark_disconnected.
Qed.

Lemma evolves_step w w' : cloud_step w w' -> evolves w w'.
Proof. destruct 1; [by apply evolves_quiet|apply evolves_on_browser_upgrade]. Qed.

Lemma evolves_steps w w' : rtc cloud_step w w' -> evolves w w'.
Proof.
  induction 1 as [w|w w1 w2 H1 _ IH]; [reflexivity|].
  transitivity w1; [by apply evolves_step|done].
Qed.

Lemma inv_new_cloud cfg clock h : tunnel_inv (new_cloud cfg clock h).
Proof.
  constructor; [constructor|]; cbn; try done; try lia.
  split; [unfold is_u32; lia|]. intros k. rewrite lookup_empty. by intros [].
Qed.

(** ** What a lost tunnel does *)

Definition closures (l : list (Z * option nat)) : list out :=
  omap (fun kv => (fun b => BrowserClosed b "tunnel_lost") <$> kv.2) l.

Lemma outs_close_all_eq l w : outs (close_all l w) = outs w ++ closures l.
Proof.
  revert w. induction l as [|[k [b|]] l IH]; intros w; [by rewrite app_nil_r| |apply IH].
  etransitivity; [apply (IH (call_browser_close b _ w))|].
  cbn [outs call_browser_close with_io closures omap list_omap snd fmap option_fmap option_map].
  by rewrite <- app_assoc.
Qed.

Lemma outs_mark_disconnected w :
  outs (mark_disconnected w)
  = outs w ++ match m_transport (endpoint w) with Some t => [AgentClosed t] | None => [] end
      ++ (if m_bridge (endpoint w) then closures (map_to_list (m_browsers (bridge w))) else []).
Proof.
  unfold mark_disconnected, on_tunnel_disconnect.
  destruct (m_transport (endpoint w));
    cbn [endpoint on_endpoint put_transport m_bridge call_agent_close with_io];
    destruct (m_bridge (endpoint w)); cbn [outs on_bridge]; rewrite ?outs_close_all_eq;
    cbn [outs on_endpoint call_agent_close with_io bridge];
    rewrite ?app_nil_r, <- ?app_assoc; done.
Qed.

(** ** Ticks of a silent agent *)

(** The reactor ticks in the environments [hs], one after the other. *)
Definition silence (hs : list H) w : Cloud H :=
  fold_left (fun w h => tick (with_io h [] w)) hs w.

(** Their times: each at least [d] after the one before. *)
Fixpoint spaced (d last : Z) (hs : list H) : Prop :=
  match hs with
  | [] => True
  | h :: hs' => d <= clock_now h - last /\ spaced d (clock_now h) hs'
  end.
Definition last_time (d : Z) (hs : list H) : Z := fold_left (fun _ h => clock_now h) hs d.
Definition accepts_ping (t : nat) (h : H) : Prop := (agent_send t (encode PING 0 "") h).1 = true.

Lemma silence_pings t hs w :
  m_transport (endpoint w) = Some t -> m_clock (endpoint w) = true ->
  0 < heartbeat_interval_sec (m_cfg (endpoint w)) ->
  m_pings_outstanding (endpoint w) + Z.of_nat (List.length hs)
    <= heartbeat_max_missed (m_cfg (endpoint w)) ->
  spaced (heartbeat_interval_sec (m_cfg (endpoint w))) (m_last_heartbeat_unix (endpoint w)) hs ->
  Forall (accepts_ping t) hs ->
  bridge (silence hs w) = bridge w
  /\ endpoint (silence hs w)
     = put_last_heartbeat (last_time (m_last_heartbeat_unix (endpoint w)) hs)
         (put_pings (m_pings_outstanding (endpoint w) + Z.of_nat (List.length hs)) (endpoint w))
  /\ outs (silence hs w)
     = outs w ++ repeat (AgentSent t (encode PING 0 "") true) (List.length hs).
Proof.
  intros Ht Hc Hi Hp Hs Hf. revert w Ht Hc Hi Hp Hs.
  induction Hf as [|h hs Hh Hf IH]; intros w Ht Hc Hi Hp Hs.
  { cbn. rewrite app_nil_r, Z.add_0_r. by destruct w as [? [] ? ?]. }
  destruct Hs as [Hd Hs]. cbn [List.length] in Hp.
  unfold silence. cbn [fold_left]. fold (silence hs (tick (with_io h [] w))).
  assert (Htick : exists h', tick (with_io h [] w)
    = mkCloud (bridge w) (put_last_heartbeat (clock_now h)
                            (put_pings (m_pings_outstanding (endpoint w) + 1) (endpoint w)))
        h' (outs w ++ [AgentSent t (encode PING 0 "") true])).
  { rewrite tick_spec. cbn [endpoint with_io io]. unfold heartbeat_due.
    cbn [endpoint with_io io]. rewrite Ht, Hc. cbn [andb].
    destruct (Z.ltb_spec 0 (heartbeat_interval_sec (m_cfg (endpoint w)))); [|lia].
    destruct (Z.leb_spec (heartbeat_interval_sec (m_cfg (endpoint w)))
                (clock_now h - m_last_heartbeat_unix (endpoint w))); [|lia]. cbn [negb andb].
    destruct (Z.leb_spec (heartbeat_max_missed (m_cfg (endpoint w)))
                (m_pings_outstanding (endpoint w))); [lia|].
    unfold accepts_ping in Hh. rewrite Hh. eexists. unfold with_io, on_endpoint.
    cbn [bridge endpoint io outs]. by rewrite app_nil_r. }
  destruct Htick as [h' ->].
  destruct (IH (mkCloud (bridge w) (put_last_heartbeat (clock_now h)
              (put_pings (m_pings_outstanding (endpoint w) + 1) (endpoint w)))
              h' (outs w ++ [AgentSent t (encode PING 0 "") true]))) as (H1 & H2 & H3);
    try done; [cbn; lia|].
  rewrite H1, H2, H3. split; [done|]. split.
  - cbn [endpoint m_cfg m_clock m_bridge m_transport m_outbound m_last_heartbeat_unix m_pings_outstanding
         put_last_heartbeat put_pings List.length].
    unfold put_last_heartbeat, put_pings; cbn. f_equal. lia.
  - cbn [outs List.length repeat]. by rewrite <- app_assoc.
Qed.

(** ** Stream ids *)

Definition next_id w : Z := m_next_stream_id (bridge w).

(** [keeps_ids w w']: no id is issued and no stream appears. *)
Definition keeps_ids w w' : Prop :=
  next_id w' = next_id w
  /\ forall k, is_Some (m_browsers (bridge w') !! k) -> is_Some (m_browsers (bridge w) !! k).
#[global] Instance keeps_ids_preorder : PreOrder keeps_ids.
Proof.
  split; [by intros w|]. intros w1 w2 w3 [H1 H2] [H3 H4]. split; [congruence|eauto].
Qed.

Lemma keeps_ids_bridge w w' : bridge w' = bridge w -> keeps_ids w w'.
Proof. unfold keeps_ids, next_id. by intros ->. Qed.

Lemma keeps_ids_mark_disconnected w : keeps_ids w (mark_disconnected w).
Proof.
  unfold keeps_ids, next_id. rewrite bridge_mark_disconnected.
  destruct (m_bridge _); [|done]. split; [done|]. intros k. cbn. rewrite lookup_empty. by intros [].
Qed.

Lemma keeps_ids_buffer_frame s w : keeps_ids w (buffer_frame s w).
Proof. apply keeps_ids_bridge. unfold buffer_frame. by destruct (_ || _). Qed.

Lemma keeps_ids_send_frame op sid p w : keeps_ids w (send_frame op sid p w).
Proof.
  unfold send_frame. destruct (m_transport _) as [t|]; [|apply keeps_ids_buffer_frame].
  pose proof (bridge_call_agent_send t (encode op sid p) w) as Hb.
  destruct (call_agent_send _ _ _) as [[] w1]; cbn [snd] in Hb; [by apply keeps_ids_bridge|].
  etransitivity; [|apply keeps_ids_buffer_frame].
  etransitivity; [by apply keeps_ids_bridge, Hb|apply keeps_ids_mark_disconnected].
Qed.

Lemma keeps_ids_tunnel_send op sid p w : keeps_ids w (tunnel_send op sid p w).
Proof. unfold tunnel_send. destruct (m_tunnel _); [apply keeps_ids_send_frame|reflexivity]. Qed.

Lemma keeps_ids_bootstrap c r w : keeps_ids w (bootstrap_society c r w).2.
Proof.
  unfold bootstrap_society. destruct (negb _); [reflexivity|].
  destruct (json_dump _); [apply keeps_ids_tunnel_send|reflexivity].
Qed.

Lemma keeps_ids_revoke c u w : keeps_ids w (revoke c u w).2.
Proof.
  unfold revoke. destruct (negb _); [reflexivity|].
  destruct (json_dump _); [apply keeps_ids_tunnel_send|reflexivity].
Qed.

Lemma keeps_ids_run_handler h p w : keeps_ids w (run_handler h p w).2.
Proof.
  destruct h as [h|]; [|reflexivity]. unfold run_handler.
  destruct (h p (io w)) as [[calls|e] h']; [|by apply keeps_ids_bridge].
  transitivity (with_io h' [] w); [by apply keeps_ids_bridge|].
  generalize (with_io h' [] w). clear. induction calls as [|[c r] calls IH]; intros w; [reflexivity|].
  pose proof (keeps_ids_bootstrap c r w) as Hb.
  destruct (bootstrap_society c r w) as [[[]|e] w1] eqn:Hbs; cbn [snd] in Hb.
  - rewrite (for_each_cons_ok _ _ _ _ w1) by done. by transitivity w1.
  - by rewrite (for_each_cons_throw _ _ _ _ e w1).
Qed.

Lemma keeps_ids_close_stream sid r w : keeps_ids w (close_stream sid r w).
Proof.
  unfold close_stream. destruct (m_browsers (bridge w) !! sid) as [[b|]|]; [| |reflexivity];
    (split; [done|]; intros k; apply lookup_delete_some).
Qed.

Lemma keeps_ids_dispatch_frame f w : keeps_ids w (dispatch_frame f w).2.
Proof.
  unfold dispatch_frame.
  destruct (op f); cbn [snd];
    try reflexivity; try apply keeps_ids_run_handler; try apply keeps_ids_close_stream;
    try apply keeps_ids_tunnel_send.
  - by destruct (m_browsers (bridge w) !! stream_id f) as [[b|]|]; apply keeps_ids_bridge.
  - etransitivity; [|apply keeps_ids_run_handler]. by split.
Qed.

Lemma keeps_ids_read_loop fuel w : keeps_ids w (read_loop fuel w).2.
Proof.
  revert w. induction fuel as [|fuel IH]; intros w; cbn [read_loop]; [reflexivity|].
  destruct (decode (recv_buffer w)) as [f n| |]; [|reflexivity|by split].
  pose proof (keeps_ids_dispatch_frame f w) as Hd. cbn [reader_dispatch bridge_reader] in *.
  destruct (dispatch_frame f w) as [[[]|e] w1]; cbn [snd] in *; [|done].
  transitivity w1; [done|]. etransitivity; [|apply IH]. by split.
Qed.

Lemma keeps_ids_on_bytes_received s w : keeps_ids w (on_bytes_received s w).2.
Proof.
  unfold on_bytes_received. set (w1 := on_endpoint (put_pings 0) w).
  transitivity w1; [by split|].
  destruct (negb _); [reflexivity|].
  assert (Ht : keeps_ids w1 (on_tunnel_bytes s w1).2).
  { unfold on_tunnel_bytes, read_bytes. etransitivity; [|apply keeps_ids_read_loop]. by split. }
  destruct (on_tunnel_bytes s w1) as [[[]|e] w2]; cbn [snd] in *; [done| |done].
  transitivity w2; [done|apply keeps_ids_mark_disconnected].
Qed.

Lemma keeps_ids_flush_loop q w : keeps_ids w (flush_loop q w).
Proof.
  revert w. induction q as [|s q IH]; intros w; [reflexivity|]. cbn [flush_loop].
  destruct (m_transport _) as [t|]; [|reflexivity].
  pose proof (bridge_call_agent_send t s w) as Hb.
  destruct (call_agent_send _ _ _) as [[] w1]; cbn [snd] in Hb.
  - etransitivity; [|apply IH]. by apply keeps_ids_bridge.
  - etransitivity; [by apply keeps_ids_bridge, Hb|apply keeps_ids_mark_disconnected].
Qed.

Lemma keeps_ids_on_agent_connected t w : keeps_ids w (on_agent_connected t w).
Proof.
  destruct t as [t|]; [|reflexivity]. rewrite on_agent_connected_some. unfold flush_outbound.
  etransitivity; [|apply keeps_ids_flush_loop]. unfold installed.
  transitivity (match m_transport (endpoint w) with Some _ => mark_disconnected w | None => w end).
  { destruct (m_transport _); [apply keeps_ids_mark_disconnected|reflexivity]. }
  generalize (match m_transport (endpoint w) with Some _ => mark_disconnected w | None => w end).
  clear. intros w. cbn [endpoint on_endpoint put_transport put_pings m_clock].
  destruct (m_clock (endpoint w));
    cbn [endpoint on_endpoint put_transport put_pings put_last_heartbeat m_bridge];
    destruct (m_bridge (endpoint w)); by split.
Qed.

Lemma keeps_ids_tick w : keeps_ids w (tick w).
Proof.
  rewrite tick_spec. destruct (m_transport (endpoint w)) as [t|]; [|reflexivity].
  destruct (negb _); [reflexivity|]. destruct (_ <=? _); [apply keeps_ids_mark_disconnected|].
  destruct (agent_send t (encode PING 0 "") (io w)) as [[] h]; [by split|apply keeps_ids_send_frame].
Qed.

Lemma keeps_ids_quiet w w' : quiet_step w w' -> keeps_ids w w'.
Proof.
  destruct 1; eauto using keeps_ids_on_agent_connected, keeps_ids_on_bytes_received,
    keeps_ids_tick, keeps_ids_send_frame, keeps_ids_bootstrap, keeps_ids_revoke.
  - unfold on_agent_disconnected. destruct (m_transport _); [|reflexivity].
    apply keeps_ids_mark_disconnected.
  - unfold on_browser_data. destruct (_ !! sid); [apply keeps_ids_tunnel_send|reflexivity].
  - unfold on_browser_close. destruct (_ !! sid); [|reflexivity].
    etransitivity; [|apply keeps_ids_tunnel_send]. split; [done|].
    intros k. apply lookup_delete_some.
  - by split.
Qed.

(** A run of the two objects, with the stream ids it issued. *)
Inductive issues : Cloud H -> list Z -> Cloud H -> Prop :=
  | issues_done w : issues w [] w
  | issues_upgrade b m w ids w' :
      issues (on_browser_upgrade b m w).2 ids w' ->
      issues w ((on_browser_upgrade b m w).1 :: ids) w'
  | issues_quiet w w1 ids w' :
      quiet_step w w1 -> issues w1 ids w' -> issues w ids w'.

Definition ids_below w : Prop :=
  forall k, is_Some (m_browsers (bridge w) !! k) -> 1 <= k < next_id w.

(** The state in which [on_browser_upgrade] sends the OPEN of a fresh stream. *)
Definition registered (b : option nat) w : Cloud H :=
  on_bridge (fun br => put_browsers (<[next_id w := b]> (m_browsers br)) br)
    (on_bridge (put_next_stream_id (u32 (next_id w + 1))) w).

Lemma upgrade_fresh b m w :
  m_browsers (bridge w) !! next_id w = None ->
  on_browser_upgrade b m w = (next_id w, tunnel_send OPEN (next_id w) m (registered b w)).
Proof.
  intros Hn. unfold on_browser_upgrade. fold (next_id w).
  cbn [bridge on_bridge put_next_stream_id m_browsers]. by rewrite Hn.
Qed.

Lemma inv_registered b w : tunnel_inv w -> tunnel_inv (registered b w).
Proof.
  intros [[Ha Hbd Hp Hd [Hk1 Hk2]] Hf]. constructor; [constructor|]; try done.
  split; [apply u32_range|]. intros k. cbn. intros [x Hx].
  apply lookup_insert_Some in Hx as [[<- _]|[_ Hx]]; [done|]. eauto.
Qed.

Lemma upgrade_ids b m w :
  ids_below w -> 1 <= next_id w < 2 ^ 32 - 1 ->
  ids_below (on_browser_upgrade b m w).2
  /\ next_id (on_browser_upgrade b m w).2 = next_id w + 1
  /\ m_browsers (bridge w) !! next_id w = None.
Proof.
  intros Hb Hn.
  assert (Hnone : m_browsers (bridge w) !! next_id w = None).
  { destruct (m_browsers (bridge w) !! next_id w) eqn:Hx; [|done].
    specialize (Hb (next_id w)). rewrite Hx in Hb. destruct Hb as [_ Hb]; [done|lia]. }
  rewrite upgrade_fresh by done. cbn [snd]. set (w2 := registered b w).
  destruct (keeps_ids_tunnel_send OPEN (next_id w) m w2) as [Hnx Hks].
  assert (Hn2 : next_id w2 = next_id w + 1) by (cbn; apply u32_small; unfold is_u32; lia).
  rewrite Hnx, Hn2. split; [|done]. intros k Hk. rewrite Hnx, Hn2. apply Hks in Hk as [x Hk].
  cbn in Hk. apply lookup_insert_Some in Hk as [[<- _]|[_ Hk]]; [lia|].
  specialize (Hb k ltac:(eauto)). lia.
Qed.

Lemma issues_seq w ids w' :
  issues w ids w' -> ids_below w -> 1 <= next_id w ->
  next_id w + Z.of_nat (List.length ids) < 2 ^ 32 ->
  ids = seqZ (next_id w) (Z.of_nat (List.length ids)) /\ ids_below w'
  /\ next_id w' = next_id w + Z.of_nat (List.length ids).
Proof.
  induction 1 as [w|b m w ids w' Hi IH|w w1 ids w' Hq Hi IH]; intros Hb Hn Hl.
  - cbn. split; [done|]. split; [done|lia].
  - cbn [List.length] in *. destruct (upgrade_ids b m w Hb) as (H1 & H2 & _); [lia|].
    destruct IH as (H3 & H4 & H5); [done|lia..|]. rewrite H2 in *.
    split; [|split; [done|lia]]. rewrite seqZ_cons by lia. f_equal.
    etransitivity; [exact H3|]. f_equal; lia.
  - destruct (keeps_ids_quiet _ _ Hq) as [H1 H2].
    rewrite <- H1 in Hn, Hl |- *. apply IH; [|done..].
    intros k Hk. rewrite H1. by apply Hb, H2.
Qed.
End Proofs.

(** * Properties *)

Section Properties.
Context {H : Type} `{!CloudIO H} `{!JsonLib}.
Implicit Types (w : Cloud H).

(** The bridge reassembles the tunnel's byte stream.  Whatever the chunks the
    bytes of a sequence of frames arrive in, [on_tunnel_bytes] on each chunk does
    exactly what dispatching the frames one by one does, provided no send made on
    the way loses the tunnel; an unfinished frame at the end waits in the buffer. *)
Theorem bridge_reassembles chunks fs tail w w' :
  Forall frame_wf fs -> decode tail = NeedMore ->
  m_recv_buffer (bridge w) = "" ->
  concat_strings chunks = encode_all fs +:+ tail ->
  for_each fs dispatch_frame w = (Ok tt, w') -> m_tunnel (bridge w') = true ->
  read_chunks chunks w = (Ok true, on_bridge (put_recv_buffer tail) w').
Proof.
  intros Hwf Ht Hb Hc Hd Hup. change (on_bridge (put_recv_buffer tail) w') with (set_recv_buffer tail w').
  apply (@read_chunks_frames (Cloud H) _ _ chunks fs tail w w'); try done.
  - cbn [recv_buffer bridge_reader]. by rewrite Hb, str_app_nil_l.
  - cbn [recv_buffer bridge_reader]. by rewrite Hb.
Qed.

(** [on_tunnel_bytes] terminates on every input, whatever the sends and the
    handlers do, if the handlers return.  When it answers true no complete frame
    is left in the buffer; when it answers false (protocol violation) the buffer
    is empty; and it throws only what a handler threw. *)
Theorem bridge_read_total bytes w :
  callbacks_total w ->
  match on_tunnel_bytes bytes w with
  | (Ok true, w') => decode (m_recv_buffer (bridge w')) = NeedMore
  | (Ok false, w') => m_recv_buffer (bridge w') = ""
  | (Throw e, _) => e <> OutOfFuel
  end.
Proof. exact (read_bytes_total bytes w). Qed.

(** C1. Delivery.  In every state the two objects can reach, an attached transport
    means an empty queue and an armed bridge, a bounded queue is within its bound
    and unanswered heartbeats within their limit.  With the default unbounded
    queue, the frames accepted by the transports followed by the queued ones only
    grow at the end, across any disconnects and reconnects: none is lost,
    duplicated or overtaken; and [send_frame] adds exactly its own frame. *)
Theorem tunnel_delivery w w' :
  tunnel_inv w -> rtc cloud_step w w' ->
  tunnel_inv w'
  /\ (unbounded w ->
      (exists new, tunnel_stream w' = tunnel_stream w ++ new)
      /\ forall op sid p,
           tunnel_stream (send_frame op sid p w') = tunnel_stream w' ++ [encode op sid p]).
Proof.
  intros Hi Hs. destruct (evolves_steps _ _ Hs Hi) as (Hi' & Hc & Hn). split; [done|].
  intros Hu. split; [by apply Hn|]. intros op sid p. apply stream_send_frame; [done|].
  unfold unbounded in *. by rewrite Hc.
Qed.

(** An agent that connects gets the backlog in order.  Either every queued
    frame was accepted, and the endpoint is left with the new transport, an empty
    queue, no outstanding heartbeat and the bridge armed again; or a write failed,
    and the endpoint has no transport and still holds the undelivered suffix. *)
Theorem agent_reconnect t w :
  tunnel_inv w ->
  let w' := on_agent_connected (Some t) w in
  tunnel_stream w' = tunnel_stream w
  /\ (m_transport (endpoint w') = None
      \/ (m_outbound (endpoint w') = []
          /\ (m_bridge (endpoint w) = true -> m_tunnel (bridge w') = true))).
Proof.
  intros Hi w'. unfold w'. rewrite on_agent_connected_some. unfold flush_outbound.
  destruct (installed_spec t w Hi) as (Hp & Hs & Hc & Ht & Hb & _).
  destruct (flush_loop_spec _ (installed t w) eq_refl) as (Hs' & Hc' & Hup).
  split; [by rewrite Hs', Hs|].
  destruct (m_transport (endpoint (flush_loop _ _))) as [t'|]; [|by left]. right.
  destruct (Hup ltac:(eauto)) as (Ho & Hbr & _). split; [done|]. intros Hm. rewrite Hbr.
  apply (inv_armed _ Hp); [by rewrite Ht|by rewrite Hb].
Qed.

(** The heartbeat.  While the agent stays silent each due tick sends one PING
    and keeps the transport, until [heartbeat_max_missed] are unanswered; the next
    due tick sends nothing, closes the transport and disarms the bridge. *)
Theorem silent_agent_dropped t hs h w :
  m_transport (endpoint w) = Some t -> m_clock (endpoint w) = true ->
  m_bridge (endpoint w) = true ->
  0 < heartbeat_interval_sec (m_cfg (endpoint w)) ->
  m_pings_outstanding (endpoint w) + Z.of_nat (List.length hs)
    = heartbeat_max_missed (m_cfg (endpoint w)) ->
  spaced (heartbeat_interval_sec (m_cfg (endpoint w)))
    (m_last_heartbeat_unix (endpoint w)) (hs ++ [h]) ->
  Forall (accepts_ping t) hs ->
  let w1 := silence hs w in
  let w2 := tick (with_io h [] w1) in
  m_transport (endpoint w1) = Some t
  /\ outs w1 = outs w ++ repeat (AgentSent t (encode PING 0 "") true) (List.length hs)
  /\ m_transport (endpoint w2) = None /\ m_tunnel (bridge w2) = false
  /\ outs w2 = outs w1 ++ [AgentClosed t] ++ closures (map_to_list (m_browsers (bridge w))).
Proof.
  intros Ht Hc Hb Hi Hp Hs Hf w1 w2.
  assert (Hs' : spaced (heartbeat_interval_sec (m_cfg (endpoint w)))
                  (m_last_heartbeat_unix (endpoint w)) hs
                /\ heartbeat_interval_sec (m_cfg (endpoint w))
                   <= clock_now h - last_time (m_last_heartbeat_unix (endpoint w)) hs).
  { clear -Hs. revert Hs. generalize (m_last_heartbeat_unix (endpoint w)).
    induction hs as [|h' hs IH]; intros l Hs; [by destruct Hs|].
    destruct Hs as [Hd Hs]. destruct (IH _ Hs). by repeat split. }
  destruct Hs' as [Hs1 Hs2].
  destruct (silence_pings t hs w Ht Hc Hi ltac:(lia) Hs1 Hf) as (H1 & H2 & H3).
  fold w1 in H1, H2, H3.
  assert (Htick : w2 = mark_disconnected (with_io h [] w1)).
  { unfold w2. rewrite tick_spec. unfold heartbeat_due. cbn [endpoint with_io io].
    rewrite H2. cbn [m_transport m_clock m_cfg m_last_heartbeat_unix m_pings_outstanding
                     put_last_heartbeat put_pings].
    rewrite Ht, Hc. cbn [andb].
    destruct (Z.ltb_spec 0 (heartbeat_interval_sec (m_cfg (endpoint w)))); [|lia].
    destruct (Z.leb_spec (heartbeat_interval_sec (m_cfg (endpoint w)))
      (clock_now h - last_time (m_last_heartbeat_unix (endpoint w)) hs)); [|lia].
    cbn [negb andb]. destruct (Z.leb_spec (heartbeat_max_missed (m_cfg (endpoint w)))
      (m_pings_outstanding (endpoint w) + Z.of_nat (List.length hs))); [done|lia]. }
  rewrite Htick, endpoint_mark_disconnected, bridge_mark_disconnected, outs_mark_disconnected.
  cbn [endpoint with_io bridge outs]. rewrite H2. cbn. rewrite Hb, Ht, H1, H3, app_nil_r.
  by repeat split.
Qed.

(** Losing the agent ends every stream at once: the transport is closed, every
    browser sink in the table is closed with the reason tunnel_lost and no other
    is, no stream, half-received frame or Asterisk status survives, and the queue
    and the stream id counter are kept for the next agent. *)
Theorem tunnel_loss_closes_streams t w :
  m_transport (endpoint w) = Some t -> m_bridge (endpoint w) = true ->
  let w' := on_agent_disconnected w in
  let closed := closures (map_to_list (m_browsers (bridge w))) in
  outs w' = outs w ++ AgentClosed t :: closed
  /\ (forall o, o ∈ closed <->
       exists sid b, m_browsers (bridge w) !! sid = Some (Some b)
                     /\ o = BrowserClosed b "tunnel_lost")
  /\ m_browsers (bridge w') = ∅ /\ m_recv_buffer (bridge w') = ""
  /\ m_tunnel (bridge w') = false /\ m_asterisk_connected (bridge w') = false
  /\ m_outbound (endpoint w') = m_outbound (endpoint w)
  /\ m_next_stream_id (bridge w') = m_next_stream_id (bridge w).
Proof.
  intros Ht Hb w' closed. unfold w', on_agent_disconnected. rewrite Ht.
  rewrite outs_mark_disconnected, endpoint_mark_disconnected, bridge_mark_disconnected, Ht, Hb.
  split; [done|]. split; [|done]. intros o. unfold closed, closures.
  rewrite list_elem_of_omap. split.
  - intros ([sid [b|]] & Hin & [= <-]). apply elem_of_map_to_list in Hin. eauto.
  - intros (sid & b & Hin & ->). exists (sid, Some b).
    split; [by apply elem_of_map_to_list|done].
Qed.

(** Stream ids are never reused: over any run, with agents coming and going,
    the ids handed out are consecutive (so all different), and none of them is in
    the table when it is handed out, until the 32-bit counter wraps. *)
Theorem stream_ids_unique w ids w' b m :
  issues w ids w' -> ids_below w -> 1 <= next_id w ->
  next_id w + Z.of_nat (List.length ids) < 2 ^ 32 - 1 ->
  ids = seqZ (next_id w) (Z.of_nat (List.length ids)) /\ NoDup ids
  /\ (on_browser_upgrade b m w').1 = next_id w + Z.of_nat (List.length ids)
  /\ m_browsers (bridge w') !! (on_browser_upgrade b m w').1 = None.
Proof.
  intros Hi Hb Hn Hl. destruct (issues_seq _ _ _ Hi Hb Hn ltac:(lia)) as (H1 & H2 & H3).
  split; [done|]. split; [rewrite H1; apply NoDup_seqZ|]. split; [done|].
  apply (upgrade_ids b m w' H2). lia.
Qed.

(** A browser that connects while the tunnel breaks.  If the OPEN frame of a new
    stream cannot be sent, the stream is closed and forgotten at once, but its OPEN
    is queued: the next agent receives the OPEN of a stream no browser has, and no
    CLOSE for it will ever follow. *)
Theorem failed_open_resent b m w t t' h :
  tunnel_inv w -> unbounded w -> m_transport (endpoint w) = Some t ->
  m_bridge (endpoint w) = true -> m_browsers (bridge w) !! next_id w = None ->
  agent_send t (encode OPEN (next_id w) m) (io w) = (false, h) ->
  (forall s h, (agent_send t' s h).1 = true) ->
  let w1 := (on_browser_upgrade (Some b) m w).2 in
  let w2 := on_agent_connected (Some t') w1 in
  BrowserClosed b "tunnel_lost" ∈ outs w1
  /\ accepted (outs w2) = accepted (outs w) ++ [encode OPEN (next_id w) m]
  /\ m_browsers (bridge w2) = ∅
  /\ forall r, on_browser_close (next_id w) r w2 = w2.
Proof.
  intros Hi Hu Ht Hb Hn Hs Hok w1 w2.
  pose proof (inv_armed w (inv_pre w Hi) ltac:(eauto) Hb) as Htun.
  set (v := registered (Some b) w). pose proof (inv_registered (Some b) w Hi) as Hiv. fold v in Hiv.
  assert (Hv : w1 = send_frame OPEN (next_id w) m v).
  { unfold w1. rewrite upgrade_fresh by done. cbn [snd]. unfold tunnel_send.
    fold v. change (m_tunnel (bridge v)) with (m_tunnel (bridge w)). by rewrite Htun. }
  assert (Hv2 : w1 = buffer_frame (encode OPEN (next_id w) m)
                 (mark_disconnected (with_io h [AgentSent t (encode OPEN (next_id w) m) false] v))).
  { rewrite Hv. by apply send_frame_failed. }
  assert (Hbr : m_browsers (bridge w1) = ∅).
  { rewrite Hv2. unfold buffer_frame. destruct (_ || _);
      cbn [bridge on_endpoint]; rewrite bridge_mark_disconnected; cbn; by rewrite Hb. }
  assert (Hst : tunnel_stream w1 = accepted (outs w) ++ [encode OPEN (next_id w) m]).
  { rewrite Hv, stream_send_frame by done. unfold tunnel_stream. cbn.
    rewrite (inv_flushed w Hi) by eauto. by rewrite app_nil_r. }
  assert (Hi1 : tunnel_inv w1) by (rewrite Hv; by apply evolves_send_frame).
  assert (Hbr2 : m_browsers (bridge w2) = ∅).
  { apply map_empty. intros k. destruct (m_browsers (bridge w2) !! k) eqn:Hk; [|done].
    destruct (proj2 (keeps_ids_on_agent_connected (Some t') w1) k) as [x Hx];
      [by eexists|]. by rewrite Hbr, lookup_empty in Hx. }
  split; [|split; [|split; [done|]]].
  - rewrite Hv2. unfold buffer_frame.
    assert (Hin : BrowserClosed b "tunnel_lost" ∈
      outs (mark_disconnected (with_io h [AgentSent t (encode OPEN (next_id w) m) false] v))).
    { rewrite outs_mark_disconnected. cbn [endpoint with_io bridge].
      change (endpoint v) with (endpoint w). rewrite Ht, Hb.
      rewrite !elem_of_app. right. right. apply list_elem_of_omap.
      exists (next_id w, Some b). split; [|done]. apply elem_of_map_to_list.
      cbn. by rewrite lookup_insert_eq. }
    by destruct (_ || _).
  - unfold w2. rewrite on_agent_connected_some. unfold flush_outbound.
    destruct (installed_spec t' w1 Hi1) as (Hp & Hs1 & Hc1 & Ht1 & _).
    destruct (flush_loop_spec _ (installed t' w1) eq_refl) as (Hs2 & _ & _).
    unfold tunnel_stream in Hs2 at 1. rewrite (flush_loop_accepts t') in Hs2 by done.
    by rewrite app_nil_r, Hs1, Hst in Hs2.
  - intros r. unfold on_browser_close. by rewrite Hbr2, lookup_empty.
Qed.
End Properties.

(** ** The theorems at work *)

Section Witnesses.
#[local] Instance no_json : JsonLib := table_json [].

(** A cloud whose agent 1 is connected and whose browser 5 has stream 1. *)
Definition ex_cloud : Cloud Z :=
  (on_browser_upgrade (Some 5%nat) "meta"
     (on_agent_connected (Some 1%nat) (new_cloud default_config true 100))).2.

Definition ex_frames : list Frame := [mkFrame DATA 1 "hello"; mkFrame PING 0 ""; mkFrame CLOSE 1 "bye"].

Lemma bridge_reassembles_witness :
  let bytes := encode_all ex_frames +:+ str_take 7 (encode_frame (mkFrame PONG 0 "")) in
  read_chunks [str_take 3 bytes; substr 3 20 bytes; str_drop 23 bytes] ex_cloud
  = (Ok true, on_bridge (put_recv_buffer (str_take 7 (encode_frame (mkFrame PONG 0 ""))))
                (for_each ex_frames dispatch_frame ex_cloud).2)
  /\ m_browsers (bridge (for_each ex_frames dispatch_frame ex_cloud).2) = ∅.
Proof.
  intros bytes. split; [|by vm_compute].
  eapply (bridge_reassembles _ ex_frames (str_take 7 (encode_frame (mkFrame PONG 0 "")))).
  - frames_wf.
  - by vm_compute.
  - by vm_compute.
  - by vm_compute.
  - by vm_compute.
  - by vm_compute.
Defined.

Lemma bridge_read_total_witness :
  match on_tunnel_bytes (encode_all ex_frames) ex_cloud with
  | (Ok true, w') => decode (m_recv_buffer (bridge w')) = NeedMore
  | (Ok false, w') => m_recv_buffer (bridge w') = ""
  | (Throw e, _) => e <> OutOfFuel
  end.
Proof. apply bridge_read_total. repeat split; done. Defined.

Lemma tunnel_delivery_witness :
  let w := new_cloud (H := Z) default_config true 100 in
  let w' := on_agent_connected (Some 1%nat) (send_frame PING 0 "" w) in
  tunnel_inv w' /\
  (unbounded w ->
   (exists new, tunnel_stream w' = tunnel_stream w ++ new) /\
   forall op sid p,
     tunnel_stream (send_frame op sid p w') = tunnel_stream w' ++ [encode op sid p]).
Proof.
  intros w w'. apply (tunnel_delivery w w'); [apply inv_new_cloud|].
  apply (rtc_l _ _ (send_frame PING 0 "" w)); [apply step_quiet, step_send|].
  apply rtc_once, step_quiet, step_agent_connected.
Defined.

Lemma agent_reconnect_witness :
  let w := send_frame PING 0 "" (new_cloud (H := FakeIO) default_config true (mkFakeIO 0 100)) in
  let w' := on_agent_connected (Some 1%nat) w in
  tunnel_stream w' = tunnel_stream w
  /\ (m_transport (endpoint w') = None
      \/ (m_outbound (endpoint w') = []
          /\ (m_bridge (endpoint w) = true -> m_tunnel (bridge w') = true))).
Proof. intros w. apply agent_reconnect, evolves_send_frame, inv_new_cloud. Defined.

Lemma silent_agent_dropped_witness :
  let cfg := mkConfig 0 10 2 in
  let w := on_agent_connected (Some 1%nat) (new_cloud (H := Z) cfg true 100) in
  m_transport (endpoint (silence [110; 120] w)) = Some 1%nat
  /\ m_transport (endpoint (tick (with_io 130 [] (silence [110; 120] w)))) = None.
Proof.
  intros cfg w.
  destruct (silent_agent_dropped 1%nat [110; 120] 130 w) as (H1 & _ & H2 & _);
    try (vm_compute; reflexivity).
  - cbn. lia.
  - by repeat constructor.
  - by split.
Defined.

Lemma tunnel_loss_closes_streams_witness :
  outs (on_agent_disconnected ex_cloud)
  = outs ex_cloud ++ [AgentClosed 1; BrowserClosed 5 "tunnel_lost"].
Proof.
  destruct (tunnel_loss_closes_streams 1%nat ex_cloud) as (H & _); try (by vm_compute).
Defined.

Lemma stream_ids_unique_witness :
  let w := new_cloud (H := Z) default_config true 100 in
  let w1 := (on_browser_upgrade (Some 5%nat) "a" w).2 in
  let w2 := (on_browser_upgrade (Some 6%nat) "b" (on_agent_connected (Some 1%nat) w1)).2 in
  [1; 2] = seqZ 1 2 /\ NoDup [1; 2]
  /\ (on_browser_upgrade (Some 7%nat) "c" w2).1 = 3
  /\ m_browsers (bridge w2) !! 3 = None.
Proof.
  intros w w1 w2. apply (stream_ids_unique w [1; 2] w2); [| |by vm_compute|by vm_compute].
  - apply (issues_upgrade (Some 5%nat) "a"). eapply issues_quiet; [apply (step_agent_connected (Some 1%nat))|].
    apply (issues_upgrade (Some 6%nat) "b"), issues_done.
  - intros k [x Hx]. by vm_compute in Hx.
Defined.

(** Transport 1 is broken, every other one works. *)
#[local] Instance broken_io : CloudIO unit := {|
  agent_send t _ h := (negb (t =? 1)%nat, h);
  agent_close _ h := h; browser_send _ _ h := h; browser_close _ _ h := h;
  clock_now _ := 0 |}.

Lemma failed_open_resent_witness :
  let w := on_agent_connected (Some 1%nat) (new_cloud (H := unit) default_config true tt) in
  let w1 := (on_browser_upgrade (Some 5%nat) "meta" w).2 in
  let w2 := on_agent_connected (Some 2%nat) w1 in
  BrowserClosed 5 "tunnel_lost" ∈ outs w1
  /\ accepted (outs w2) = accepted (outs w) ++ [encode OPEN (next_id w) "meta"]
  /\ m_browsers (bridge w2) = ∅
  /\ forall r, on_browser_close (next_id w) r w2 = w2.
Proof.
  intros w. apply (failed_open_resent 5%nat "meta" w 1%nat 2%nat tt); try (by vm_compute).
  apply evolves_on_agent_connected, inv_new_cloud.
Defined.
End Witnesses.
