(* ===== verification/AgentTunnel.v ===== *)
(** The on-premises end of the tunnel: [SipFrameDemux] (sip_frame_demux.hpp/.cpp)
    and [CloudConnector] (cloud_connector.hpp/.cpp) of pbx-agent.

    The demux holds a pointer to the connector as its [TunnelSink], the connector
    one to the demux; they are one state, [Agent].  What they do with the injected
    factories, streams, transports and clock is the interface [AgentIO]; [outs]
    records the calls, in order.  A transport that reports an error from inside
    [send] also calls [on_transport_lost]; both only set [m_disconnect_pending],
    so a failed send stands for either.  An Asterisk stream that fails inside
    [send_bytes] calls [on_asterisk_eof] before it returns (asterisk_ws_factory.cpp,
    [write_bytes]); that is the outcome [SendFailedEof]. *)

From S2P Require Import Prelude SipFrame Json FrameStream.

#[local] Open Scope Z_scope.

Inductive send_outcome :=
  | SendOk
  | SendFailed
  | SendFailedEof (reason : string).

(** Streams to Asterisk and transports to the cloud are named by numbers. *)
Class AgentIO (H : Type) := {
  asterisk_open : Z -> string -> H -> option nat * H;
  asterisk_send : nat -> string -> H -> send_outcome * H;
  asterisk_close : nat -> string -> H -> H;
  create_connected : H -> option nat * H;
  transport_send : nat -> string -> H -> bool * H;
  transport_ping : nat -> H -> bool * H;
  transport_close : nat -> H -> H;
  now_unix : H -> Z;
}.

Inductive out :=
  | AsteriskOpened (sid : Z) (open_meta : string) (stream : option nat)
  | AsteriskSent (stream : nat) (bytes : string) (r : send_outcome)
  | AsteriskClosed (stream : nat) (reason : string)
  | Connecting (t : option nat)
  | CloudSent (t : nat) (bytes : string) (ok : bool)
  | CloudPinged (t : nat) (ok : bool)
  | CloudClosed (t : nat).

Record Config := mkConfig {
  initial_backoff_sec : Z;
  max_backoff_sec : Z;
  outbound_buffer_max : nat;
  heartbeat_interval_sec : Z;
  heartbeat_max_missed : Z;
}.

(** [Config]'s member initialisers. *)
Definition default_config : Config := mkConfig 1 30 0 15 3.

Section State.
Context {H : Type}.

(** A control-frame callback: it acts on the world and may send frames. *)
Definition handler : Type := string -> H -> result (list Frame) * H.

(** What [main]'s [on_connected] callback does with the two objects. *)
Inductive agent_call :=
  | CallSetTunnel
  | CallSendFrame (f : Frame).
Definition connected_handler : Type := H -> result (list agent_call) * H.

(** [SipFrameDemux]'s fields. *)
Record Demux := mkDemux {
  m_tunnel : bool;
  m_streams : gmap Z nat;
  m_recv_buffer : string;
  m_revoked_handler : option handler;
  m_society_bootstrap_handler : option handler;
}.

(** [CloudConnector]'s fields. *)
Record Connector := mkConnector {
  m_cfg : Config;
  m_transport : option nat;
  m_demux : bool;
  m_reconnect_attempts : Z;
  m_current_backoff_sec : Z;
  m_next_reconnect_at : Z;
  m_outbound : list string;
  m_last_heartbeat_unix : Z;
  m_pings_outstanding : Z;
  m_disconnect_pending : bool;
  m_on_connected : option connected_handler;
}.

Record Agent := mkAgent {
  demux : Demux;
  connector : Connector;
  io : H;
  outs : list out;
}.

Definition new_demux (tunnel : bool) : Demux := mkDemux tunnel ∅ "" None None.
Definition new_connector (cfg : Config) : Connector :=
  mkConnector cfg None false 0 0 0 [] 0 0 false None.

Definition on_demux (f : Demux -> Demux) (w : Agent) : Agent :=
  mkAgent (f (demux w)) (connector w) (io w) (outs w).
Definition on_connector (f : Connector -> Connector) (w : Agent) : Agent :=
  mkAgent (demux w) (f (connector w)) (io w) (outs w).
Definition with_io (h : H) (o : list out) (w : Agent) : Agent :=
  mkAgent (demux w) (connector w) h (outs w ++ o).

Definition put_tunnel (t : bool) (d : Demux) : Demux :=
  mkDemux t (m_streams d) (m_recv_buffer d) (m_revoked_handler d) (m_society_bootstrap_handler d).
Definition put_streams (m : gmap Z nat) (d : Demux) : Demux :=
  mkDemux (m_tunnel d) m (m_recv_buffer d) (m_revoked_handler d) (m_society_bootstrap_handler d).
Definition put_recv_buffer (s : string) (d : Demux) : Demux :=
  mkDemux (m_tunnel d) (m_streams d) s (m_revoked_handler d) (m_society_bootstrap_handler d).

Definition put_transport (t : option nat) (c : Connector) : Connector :=
  mkConnector (m_cfg c) t (m_demux c) (m_reconnect_attempts c) (m_current_backoff_sec c)
    (m_next_reconnect_at c) (m_outbound c) (m_last_heartbeat_unix c)
    (m_pings_outstanding c) (m_disconnect_pending c) (m_on_connected c).
Definition put_demux_ptr (p : bool) (c : Connector) : Connector :=
  mkConnector (m_cfg c) (m_transport c) p (m_reconnect_attempts c) (m_current_backoff_sec c)
    (m_next_reconnect_at c) (m_outbound c) (m_last_heartbeat_unix c)
    (m_pings_outstanding c) (m_disconnect_pending c) (m_on_connected c).
Definition put_backoff (attempts backoff next : Z) (c : Connector) : Connector :=
  mkConnector (m_cfg c) (m_transport c) (m_demux c) attempts backoff next (m_outbound c)
    (m_last_heartbeat_unix c) (m_pings_outstanding c) (m_disconnect_pending c) (m_on_connected c).
Definition put_outbound (q : list string) (c : Connector) : Connector :=
  mkConnector (m_cfg c) (m_transport c) (m_demux c) (m_reconnect_attempts c)
    (m_current_backoff_sec c) (m_next_reconnect_at c) q (m_last_heartbeat_unix c)
    (m_pings_outstanding c) (m_disconnect_pending c) (m_on_connected c).
Definition put_last_heartbeat (z : Z) (c : Connector) : Connector :=
  mkConnector (m_cfg c) (m_transport c) (m_demux c) (m_reconnect_attempts c)
    (m_current_backoff_sec c) (m_next_reconnect_at c) (m_outbound c) z
    (m_pings_outstanding c) (m_disconnect_pending c) (m_on_connected c).
Definition put_pings (z : Z) (c : Connector) : Connector :=
  mkConnector (m_cfg c) (m_transport c) (m_demux c) (m_reconnect_attempts c)
    (m_current_backoff_sec c) (m_next_reconnect_at c) (m_outbound c)
    (m_last_heartbeat_unix c) z (m_disconnect_pending c) (m_on_connected c).
Definition put_pending (b : bool) (c : Connector) : Connector :=
  mkConnector (m_cfg c) (m_transport c) (m_demux c) (m_reconnect_attempts c)
    (m_current_backoff_sec c) (m_next_reconnect_at c) (m_outbound c)
    (m_last_heartbeat_unix c) (m_pings_outstanding c) b (m_on_connected c).
Definition put_on_connected (h : option connected_handler) (c : Connector) : Connector :=
  mkConnector (m_cfg c) (m_transport c) (m_demux c) (m_reconnect_attempts c)
    (m_current_backoff_sec c) (m_next_reconnect_at c) (m_outbound c)
    (m_last_heartbeat_unix c) (m_pings_outstanding c) (m_disconnect_pending c) h.
End State.
Arguments handler : clear implicits.
Arguments connected_handler : clear implicits.
Arguments Demux : clear implicits.
Arguments Connector : clear implicits.
Arguments Agent : clear implicits.

Section Operations.
Context {H : Type} `{!AgentIO H}.
Implicit Types (w : Agent H).

(** ** Calls on the injected objects *)

Definition call_asterisk_open (sid : Z) (meta : string) w : option nat * Agent H :=
  let '(s, h) := asterisk_open sid meta (io w) in
  (s, with_io h [AsteriskOpened sid meta s] w).
Definition call_asterisk_send (s : nat) (bytes : string) w : send_outcome * Agent H :=
  let '(r, h) := asterisk_send s bytes (io w) in
  (r, with_io h [AsteriskSent s bytes r] w).
Definition call_asterisk_close (s : nat) (reason : string) w : Agent H :=
  with_io (asterisk_close s reason (io w)) [AsteriskClosed s reason] w.
Definition call_create_connected w : option nat * Agent H :=
  let '(t, h) := create_connected (io w) in (t, with_io h [Connecting t] w).
Definition call_transport_send (t : nat) (bytes : string) w : bool * Agent H :=
  let '(ok, h) := transport_send t bytes (io w) in
  (ok, with_io h [CloudSent t bytes ok] w).
Definition call_transport_ping (t : nat) w : bool * Agent H :=
  let '(ok, h) := transport_ping t (io w) in (ok, with_io h [CloudPinged t ok] w).
Definition call_transport_close (t : nat) w : Agent H :=
  with_io (transport_close t (io w)) [CloudClosed t] w.

(** ** CloudConnector: sending *)

Definition request_disconnect w : Agent H := on_connector (put_pending true) w.

Definition connected w : bool :=
  bool_decide (is_Some (m_transport (connector w))) && negb (m_disconnect_pending (connector w)).

Definition buffer_frame (bytes : string) w : Agent H :=
  let c := connector w in
  if (outbound_buffer_max (m_cfg c) =? 0)%nat
     || (List.length (m_outbound c) <? outbound_buffer_max (m_cfg c))%nat
  then on_connector (put_outbound (m_outbound c ++ [bytes])) w
  else w.

Definition send_frame (op : Op) (stream_id : Z) (payload : string) w : Agent H :=
  let bytes := encode op stream_id payload in
  match m_transport (connector w), m_disconnect_pending (connector w) with
  | Some t, false =>
      let '(ok, w) := call_transport_send t bytes w in
      if ok then w else buffer_frame bytes (request_disconnect w)
  | _, _ => buffer_frame bytes w
  end.

Definition send_ws_ping w : Agent H :=
  match m_transport (connector w), m_disconnect_pending (connector w) with
  | Some t, false =>
      let '(ok, w) := call_transport_ping t w in if ok then w else request_disconnect w
  | _, _ => w
  end.

Definition on_transport_lost w : Agent H :=
  match m_transport (connector w) with Some _ => request_disconnect w | None => w end.

Definition attach_demux (p : bool) w : Agent H := on_connector (put_demux_ptr p) w.
Definition set_on_connected (h : option (connected_handler H)) w : Agent H :=
  on_connector (put_on_connected h) w.

(** ** SipFrameDemux *)

Definition tunnel_send (op : Op) (stream_id : Z) (payload : string) w : Agent H :=
  if m_tunnel (demux w) then send_frame op stream_id payload w else w.

Definition set_tunnel (tunnel : bool) w : Agent H :=
  on_demux (fun d => put_recv_buffer "" (put_tunnel tunnel d)) w.

Definition close_streams (l : list (Z * nat)) w : Agent H :=
  fold_left (fun w kv => call_asterisk_close kv.2 "tunnel_lost" w) l w.

Definition on_tunnel_disconnect w : Agent H :=
  let w := close_streams (map_to_list (m_streams (demux w))) w in
  on_demux (fun d => put_tunnel false (put_recv_buffer "" (put_streams ∅ d))) w.

Definition on_asterisk_data (stream_id : Z) (bytes : string) w : Agent H :=
  match m_streams (demux w) !! stream_id with
  | None => w
  | Some _ => tunnel_send DATA stream_id bytes w
  end.

Definition on_asterisk_eof (stream_id : Z) (reason : string) w : Agent H :=
  match m_streams (demux w) !! stream_id with
  | None => w
  | Some _ =>
      let w := on_demux (fun d => put_streams (delete stream_id (m_streams d)) d) w in
      tunnel_send CLOSE stream_id reason w
  end.

Definition close_stream (stream_id : Z) (reason : string) w : Agent H :=
  match m_streams (demux w) !! stream_id with
  | None => w
  | Some s =>
      let w := call_asterisk_close s reason w in
      on_demux (fun d => put_streams (delete stream_id (m_streams d)) d) w
  end.

Definition send_frames (fs : list Frame) w : Agent H :=
  fold_left (fun w f => send_frame (op f) (stream_id f) (payload f) w) fs w.

(** [if (m_..._handler) m_..._handler(f.payload)]. *)
Definition run_handler (h : option (handler H)) (bytes : string) : M (Agent H) unit :=
  match h with
  | None => mret tt
  | Some h => fun w =>
      let '(r, h') := h bytes (io w) in
      match r with
      | Throw e => (Throw e, with_io h' [] w)
      | Ok fs => (Ok tt, send_frames fs (with_io h' [] w))
      end
  end.

(** What [send_bytes] does before it returns, and whether it returns true. *)
Definition asterisk_send_outcome (stream_id : Z) (r : send_outcome) w : bool * Agent H :=
  match r with
  | SendOk => (true, w)
  | SendFailed => (false, w)
  | SendFailedEof reason => (false, on_asterisk_eof stream_id reason w)
  end.

Definition dispatch_frame (f : Frame) : M (Agent H) unit := fun w =>
  match op f with
  | OPEN =>
      match m_streams (demux w) !! stream_id f with
      | Some _ => (Ok tt, w)
      | None =>
          let '(s, w) := call_asterisk_open (stream_id f) (payload f) w in
          match s with
          | None => (Ok tt, tunnel_send CLOSE (stream_id f) "asterisk_unreachable" w)
          | Some s =>
              (Ok tt, on_demux (fun d => put_streams (<[stream_id f := s]> (m_streams d)) d) w)
          end
      end
  | DATA =>
      match m_streams (demux w) !! stream_id f with
      | None => (Ok tt, w)
      | Some s =>
          let '(r, w) := call_asterisk_send s (payload f) w in
          let '(ok, w) := asterisk_send_outcome (stream_id f) r w in
          (Ok tt, if ok then w else close_stream (stream_id f) "asterisk_write_failed" w)
      end
  | CLOSE => (Ok tt, close_stream (stream_id f) (payload f) w)
  | PING => (Ok tt, tunnel_send PONG (stream_id f) "" w)
  | SUBSCRIBER_REVOKED => run_handler (m_revoked_handler (demux w)) (payload f) w
  | SOCIETY_BOOTSTRAP => run_handler (m_society_bootstrap_handler (demux w)) (payload f) w
  | PONG | ERR | PUSH_NOTIFY | CDR_PUSH | REGISTER_STATE | AGENT_HELLO | ASTERISK_STATUS =>
      (Ok tt, w)
  end.

#[global] Instance demux_reader : FrameReader (Agent H) := {|
  recv_buffer w := m_recv_buffer (demux w);
  set_recv_buffer s := on_demux (put_recv_buffer s);
  reader_dispatch := dispatch_frame;
|}.

(** The append and the decode loop are [FrameStream.read_bytes]. *)
Definition on_tunnel_bytes (bytes : string) : M (Agent H) bool := read_bytes bytes.

Definition set_subscriber_revoked_handler (h : option (handler H)) w : Agent H :=
  on_demux (fun d => mkDemux (m_tunnel d) (m_streams d) (m_recv_buffer d) h
                       (m_society_bootstrap_handler d)) w.
Definition set_society_bootstrap_handler (h : option (handler H)) w : Agent H :=
  on_demux (fun d => mkDemux (m_tunnel d) (m_streams d) (m_recv_buffer d)
                       (m_revoked_handler d) h) w.

(** ** CloudConnector: the connect / reconnect machine *)

Definition mark_disconnected w : Agent H :=
  let w := match m_transport (connector w) with
           | Some t => on_connector (put_transport None) (call_transport_close t w)
           | None => w
           end in
  let w := if m_demux (connector w) then on_tunnel_disconnect w else w in
  on_connector (fun c => put_pending false
                  (put_pings 0 (put_backoff (m_reconnect_attempts c) 0 0 c))) w.

(** The [while] of [flush_outbound]: the queue it walks is [m_outbound]. *)
Fixpoint flush_loop (q : list string) w : Agent H :=
  match q, m_transport (connector w) with
  | bytes :: q', Some t =>
      let '(ok, w) := call_transport_send t bytes w in
      if ok then flush_loop q' (on_connector (put_outbound q') w)
      else mark_disconnected w
  | _, _ => w
  end.
Definition flush_outbound w : Agent H := flush_loop (m_outbound (connector w)) w.

Definition run_agent_call (c : agent_call) w : Agent H :=
  match c with
  | CallSetTunnel => set_tunnel true w
  | CallSendFrame f => send_frame (op f) (stream_id f) (payload f) w
  end.

Definition run_on_connected : M (Agent H) unit := fun w =>
  match m_on_connected (connector w) with
  | None => (Ok tt, w)
  | Some h =>
      let '(r, h') := h (io w) in
      match r with
      | Throw e => (Throw e, with_io h' [] w)
      | Ok cs => (Ok tt, fold_left (fun w c => run_agent_call c w) cs (with_io h' [] w))
      end
  end.

(** The delay after one more failed attempt. *)
Definition next_backoff (cfg : Config) (current : Z) : Z :=
  if current =? 0 then initial_backoff_sec cfg else Z.min (current * 2) (max_backoff_sec cfg).

Definition attempt_connect : M (Agent H) unit := fun w =>
  let '(t, w) := call_create_connected w in
  match t with
  | None =>
      (Ok tt, on_connector (fun c =>
        let b := next_backoff (m_cfg c) (m_current_backoff_sec c) in
        put_backoff (m_reconnect_attempts c + 1) b (now_unix (io w) + b) c) w)
  | Some t =>
      let w := on_connector (fun c =>
        put_pings 0 (put_last_heartbeat (now_unix (io w))
          (put_backoff 0 0 0 (put_transport (Some t) c)))) w in
      run_on_connected (flush_outbound w)
  end.

Definition maybe_heartbeat w : Agent H :=
  let c := connector w in
  if heartbeat_interval_sec (m_cfg c) <=? 0 then w else
  let now := now_unix (io w) in
  if now - m_last_heartbeat_unix c <? heartbeat_interval_sec (m_cfg c) then w else
  if heartbeat_max_missed (m_cfg c) <=? m_pings_outstanding c then mark_disconnected w else
  let w := send_frame PING 0 "" w in
  match m_transport (connector w) with
  | Some _ =>
      on_connector (fun c => put_last_heartbeat now (put_pings (m_pings_outstanding c + 1) c)) w
  | None => w
  end.

Definition tick : M (Agent H) unit := fun w =>
  let w := if m_disconnect_pending (connector w) then
             let w := on_connector (put_pending false) w in
             match m_transport (connector w) with Some _ => mark_disconnected w | None => w end
           else w in
  match m_transport (connector w) with
  | Some _ => (Ok tt, maybe_heartbeat w)
  | None =>
      if now_unix (io w) <? m_next_reconnect_at (connector w) then (Ok tt, w)
      else attempt_connect w
  end.

Definition on_bytes_received (bytes : string) : M (Agent H) unit := fun w =>
  let w := on_connector (put_pings 0) w in
  if negb (m_demux (connector w)) then (Ok tt, w) else
  match on_tunnel_bytes bytes w with
  | (Throw e, w') => (Throw e, w')
  | (Ok true, w') => (Ok tt, w')
  | (Ok false, w') => (Ok tt, request_disconnect w')
  end.

(** Observers. *)
Definition active_streams w : nat := size (m_streams (demux w)).
Definition reconnect_attempts w : Z := m_reconnect_attempts (connector w).
Definition current_backoff_sec w : Z := m_current_backoff_sec (connector w).
Definition next_reconnect_at w : Z := m_next_reconnect_at (connector w).
Definition buffered_frame_count w : nat := List.length (m_outbound (connector w)).
Definition pings_outstanding w : Z := m_pings_outstanding (connector w).
End Operations.

(** The callback [main] installs with [set_on_connected]: re-arm the demux, greet
    the cloud (main.cpp; the register snapshot it queues runs on another thread). *)
Definition main_on_connected {H} `{!JsonLib} (society_id : string) : connected_handler H := fun h =>
  match json_dump (mk_obj [("societyId", JStr society_id)]) with
  | Throw e => (Throw e, h)
  | Ok hello => (Ok [CallSetTunnel; CallSendFrame (mkFrame AGENT_HELLO 0 hello)], h)
  end.

(** The two objects as [main] builds them, attached to each other. *)
Definition new_agent {H} `{!JsonLib} (cfg : Config) (society_id : string) (h : H) : Agent H :=
  mkAgent (new_demux true)
    (put_on_connected (Some (main_on_connected society_id)) (put_demux_ptr true (new_connector cfg)))
    h [].

(** [ReactorFrameOutbox] (main.cpp): frames posted by the ARI worker thread wait in
    [m_pending] until the reactor thread sends them. *)
Definition outbox_post (f : Frame) (pending : list Frame) : list Frame := pending ++ [f].
Definition outbox_handle_exception {H} `{!AgentIO H} (pending : list Frame) (w : Agent H)
  : list Frame * Agent H := ([], send_frames pending w).

(** A concrete [AgentIO] for examples: connection attempts and cloud writes succeed
    as the script says (and succeed once it is used up), Asterisk always answers. *)
Record FakeIO := mkFakeIO { connects : list bool; writes : list bool; time : Z }.
#[export] Instance fake_io : AgentIO FakeIO := {|
  asterisk_open sid _ h := (Some (Z.to_nat sid), h);
  asterisk_send _ _ h := (SendOk, h);
  asterisk_close _ _ h := h;
  create_connected h :=
    match connects h with
    | [] => (Some 1%nat, h)
    | c :: cs => (if c then Some 1%nat else None, mkFakeIO cs (writes h) (time h))
    end;
  transport_send _ _ h :=
    match writes h with
    | [] => (true, h)
    | c :: cs => (c, mkFakeIO (connects h) cs (time h))
    end;
  transport_ping _ h := (true, h);
  transport_close _ h := h;
  now_unix := time;
|}.
