(* ===== verification/AgentTunnelSpec.v ===== *)
(** What the agent end of the tunnel guarantees: theorems about [AgentTunnel]. *)

From S2P Require Import Prelude SipFrame Json FrameStream AgentTunnel.

#[local] Open Scope Z_scope.

Section Proofs.
Context {H : Type} `{!AgentIO H}.
Implicit Types (w : Agent H) (s : string).

Definition setb s w : Agent H := on_demux (put_recv_buffer s) w.
Definition buf w : string := m_recv_buffer (demux w).

(** ** The operations reached from a dispatch

    [inert w w']: what a dispatched frame may do.  The transport, the demux's
    tunnel pointer, its buffer and its handlers stay. *)
Record inert w w' : Prop := {
  inert_buffer : buf w' = buf w;
  inert_tunnel : m_tunnel (demux w') = m_tunnel (demux w);
  inert_revoked : m_revoked_handler (demux w') = m_revoked_handler (demux w);
  inert_bootstrap :
    m_society_bootstrap_handler (demux w') = m_society_bootstrap_handler (demux w);
  inert_transport : m_transport (connector w') = m_transport (connector w);
  inert_cfg : m_cfg (connector w') = m_cfg (connector w);
  inert_demux_ptr : m_demux (connector w') = m_demux (connector w);
  inert_on_connected : m_on_connected (connector w') = m_on_connected (connector w);
  inert_closed t : CloudClosed t ∈ outs w' -> CloudClosed t ∈ outs w;
}.

#[global] Instance inert_preorder : PreOrder inert.
Proof.
  split; [by constructor|]. intros w1 w2 w3 [] []. constructor; try congruence. eauto.
Qed.

(** A new trace entry that is not a transport being closed. *)
Lemma elem_of_outs_app (l : list out) x t :
  (forall t, x <> CloudClosed t) -> CloudClosed t ∈ l ++ [x] -> CloudClosed t ∈ l.
Proof.
  intros Hx. rewrite elem_of_app, list_elem_of_singleton. intros [?|<-]; [done|].
  by destruct (Hx t).
Qed.

Lemma inert_io h x w : (forall t, x <> CloudClosed t) -> inert w (with_io h [x] w).
Proof. constructor; try done. intros t. by apply elem_of_outs_app. Qed.
Lemma inert_environment h w : inert w (with_io h [] w).
Proof. constructor; try done. intros t. cbn. by rewrite app_nil_r. Qed.
Lemma inert_streams m w : inert w (on_demux (put_streams m) w).
Proof. by constructor. Qed.

Lemma inert_transport_send t s w : inert w (call_transport_send t s w).2.
Proof. unfold call_transport_send. destruct transport_send. by apply inert_io. Qed.
Lemma inert_asterisk_send a s w : inert w (call_asterisk_send a s w).2.
Proof. unfold call_asterisk_send. destruct asterisk_send. by apply inert_io. Qed.
Lemma inert_asterisk_open a s w : inert w (call_asterisk_open a s w).2.
Proof. unfold call_asterisk_open. destruct asterisk_open. by apply inert_io. Qed.

Lemma inert_request_disconnect w : inert w (request_disconnect w).
Proof. by constructor. Qed.
Lemma inert_buffer_frame s w : inert w (buffer_frame s w).
Proof. unfold buffer_frame. destruct (_ || _); by constructor. Qed.

Lemma inert_send_frame op sid p w : inert w (send_frame op sid p w).
Proof.
  unfold send_frame. pose proof (fun t => inert_transport_send t (encode op sid p) w) as Hs.
  destruct (m_transport (connector w)) as [t|]; [|apply inert_buffer_frame].
  destruct (m_disconnect_pending (connector w)); [apply inert_buffer_frame|]. specialize (Hs t).
  destruct (call_transport_send _ _ _) as [[] w1]; [done|].
  etransitivity; [exact Hs|]. etransitivity; [apply inert_request_disconnect|].
  apply inert_buffer_frame.
Qed.

Lemma inert_send_frames fs w : inert w (send_frames fs w).
Proof.
  revert w. induction fs as [|f fs IH]; intros w; [reflexivity|].
  etransitivity; [apply inert_send_frame|apply IH].
Qed.

Lemma inert_tunnel_send op sid p w : inert w (tunnel_send op sid p w).
Proof. unfold tunnel_send. destruct (m_tunnel _); [apply inert_send_frame|reflexivity]. Qed.

Lemma inert_on_asterisk_eof sid r w : inert w (on_asterisk_eof sid r w).
Proof.
  unfold on_asterisk_eof. destruct (_ !! sid); [|reflexivity].
  etransitivity; [|apply inert_tunnel_send]. by constructor.
Qed.

Lemma inert_close_stream sid r w : inert w (close_stream sid r w).
Proof.
  unfold close_stream. destruct (_ !! sid) as [a|]; [|reflexivity].
  etransitivity; [|apply inert_streams]. by apply inert_io.
Qed.

Lemma inert_run_handler h s w : inert w (run_handler h s w).2.
Proof.
  destruct h as [h|]; [|reflexivity]. unfold run_handler.
  destruct (h s (io w)) as [[fs|e] h']; [|apply inert_environment].
  etransitivity; [apply inert_environment|apply inert_send_frames].
Qed.

Lemma inert_dispatch_frame f w : inert w (dispatch_frame f w).2.
Proof.
  unfold dispatch_frame.
  destruct (op f); try reflexivity; try apply inert_run_handler; cbn [snd];
    try apply inert_close_stream; try apply inert_tunnel_send.
  - destruct (m_streams (demux w) !! stream_id f); [reflexivity|].
    pose proof (inert_asterisk_open (stream_id f) (payload f) w) as Ho.
    destruct (call_asterisk_open _ _ _) as [[a|] w1]; cbn [snd] in *;
      (etransitivity; [exact Ho|]); [by constructor|apply inert_tunnel_send].
  - destruct (m_streams (demux w) !! stream_id f) as [a|]; [|reflexivity].
    pose proof (inert_asterisk_send a (payload f) w) as Ho.
    destruct (call_asterisk_send _ _ _) as [[| |r] w1]; cbn [snd asterisk_send_outcome] in *;
      (etransitivity; [exact Ho|]); [reflexivity|apply inert_close_stream|].
    etransitivity; [apply inert_on_asterisk_eof|apply inert_close_stream].
Qed.

(** ** None of them looks at the receive buffer *)

Definition blind (F : Agent H -> Agent H) : Prop := forall s w, F (setb s w) = setb s (F w).

Lemma agent_blind_send_frame op sid p : blind (send_frame op sid p).
Proof.
  intros s w. unfold send_frame, call_transport_send, buffer_frame.
  cbn [connector setb on_demux io]. destruct (m_transport (connector w)); [|by destruct (_ || _)].
  destruct (m_disconnect_pending _); [by destruct (_ || _)|].
  destruct transport_send as [[] h]; [done|]. cbn. by destruct (_ || _).
Qed.

Lemma blind_send_frames fs : blind (send_frames fs).
Proof.
  intros s. induction fs as [|f fs IH]; intros w; [done|]. unfold send_frames in *.
  cbn [fold_left]. by rewrite agent_blind_send_frame, IH.
Qed.

Lemma agent_blind_tunnel_send op sid p : blind (tunnel_send op sid p).
Proof.
  intros s w. unfold tunnel_send. change (m_tunnel (demux (setb s w))) with (m_tunnel (demux w)).
  destruct (m_tunnel _); [apply agent_blind_send_frame|done].
Qed.

Lemma blind_on_asterisk_eof sid r : blind (on_asterisk_eof sid r).
Proof.
  intros s w. unfold on_asterisk_eof.
  change (m_streams (demux (setb s w))) with (m_streams (demux w)).
  destruct (_ !! sid); [|done]. by rewrite <- agent_blind_tunnel_send.
Qed.

Lemma agent_blind_close_stream sid r : blind (close_stream sid r).
Proof.
  intros s w. unfold close_stream.
  change (m_streams (demux (setb s w))) with (m_streams (demux w)). by destruct (_ !! sid).
Qed.

Lemma agent_blind_run_handler h b s w :
  run_handler h b (setb s w) = ((run_handler h b w).1, setb s (run_handler h b w).2).
Proof.
  destruct h as [h|]; [|done]. unfold run_handler. change (io (setb s w)) with (io w).
  destruct (h b (io w)) as [[fs|e] h']; [|done]. cbn [fst snd]. by rewrite <- blind_send_frames.
Qed.

Lemma agent_blind_dispatch_frame f s w :
  dispatch_frame f (setb s w) = ((dispatch_frame f w).1, setb s (dispatch_frame f w).2).
Proof.
  unfold dispatch_frame. change (m_streams (demux (setb s w))) with (m_streams (demux w)).
  destruct (op f); try done.
  - destruct (m_streams (demux w) !! stream_id f); [done|].
    unfold call_asterisk_open. change (io (setb s w)) with (io w).
    destruct asterisk_open as [[a|] h]; [done|]. cbn [fst snd]; by rewrite <- agent_blind_tunnel_send.
  - destruct (m_streams (demux w) !! stream_id f) as [a|]; [|done].
    unfold call_asterisk_send. change (io (setb s w)) with (io w).
    destruct asterisk_send as [[| |r] h]; cbn [asterisk_send_outcome]; [done| |].
    + cbn [fst snd]; by rewrite <- agent_blind_close_stream.
    + cbn [fst snd]; by rewrite <- agent_blind_close_stream, <- blind_on_asterisk_eof.
  - cbn [fst snd]; by rewrite <- agent_blind_close_stream.
  - cbn [fst snd]; by rewrite <- agent_blind_tunnel_send.
  - apply agent_blind_run_handler.
  - apply agent_blind_run_handler.
Qed.

(** ** The read loop's laws *)

Definition handler_total (h : option (handler H)) : Prop :=
  forall g p io, h = Some g -> (g p io).1 <> Throw OutOfFuel.
Definition callbacks_total w : Prop :=
  handler_total (m_revoked_handler (demux w))
  /\ handler_total (m_society_bootstrap_handler (demux w)).

Lemma agent_run_handler_total h s w : handler_total h -> (run_handler h s w).1 <> Throw OutOfFuel.
Proof.
  intros Hh. destruct h as [g|]; [|done]. unfold run_handler.
  pose proof (Hh g s (io w) eq_refl) as Hg.
  destruct (g s (io w)) as [[fs|e] h']; [done|]. cbn in *. congruence.
Qed.

Lemma agent_dispatch_frame_total f w :
  callbacks_total w -> (dispatch_frame f w).1 <> Throw OutOfFuel.
Proof.
  intros [H1 H2]. unfold dispatch_frame.
  destruct (op f); try done; try by apply agent_run_handler_total.
  - destruct (_ !! _); [done|]. by destruct (call_asterisk_open _ _ _) as [[a|] w1].
  - destruct (_ !! _) as [a|]; [|done]. by destruct (call_asterisk_send _ _ _) as [[| |r] w1].
Qed.

#[global] Instance demux_laws : ReaderLaws (Agent H).
Proof.
  refine {| reader_up _ := true; reader_sane := callbacks_total |}; try done.
  - intros w. by destruct w as [[] ? ? ?].
  - intros f w r w' Hd _. split; [done|].
    cbn [reader_dispatch demux_reader recv_buffer set_recv_buffer] in *.
    pose proof (inert_dispatch_frame f w) as Hi. rewrite Hd in Hi.
    split; [apply (inert_buffer _ _ Hi)|]. intros s.
    pose proof (agent_blind_dispatch_frame f s w) as Hb. by rewrite Hd in Hb.
  - intros f w. cbn [reader_dispatch demux_reader recv_buffer].
    pose proof (inert_buffer _ _ (inert_dispatch_frame f w)) as Hb. unfold buf in Hb. by rewrite Hb.
  - intros f w Hs. split; [by apply agent_dispatch_frame_total|].
    destruct (inert_dispatch_frame f w). unfold callbacks_total in *.
    cbn [reader_dispatch demux_reader]. by rewrite inert_revoked0, inert_bootstrap0.
Defined.

(** ** Delivery: what the cloud transports accepted, and what waits *)

Definition accepted (o : list out) : list string :=
  omap (fun x => match x with CloudSent _ s true => Some s | _ => None end) o.
Definition tunnel_stream w : list string := accepted (outs w) ++ m_outbound (connector w).
Definition unbounded w : Prop := outbound_buffer_max (m_cfg (connector w)) = 0%nat.

Lemma agent_accepted_app o o' : accepted (o ++ o') = accepted o ++ accepted o'.
Proof. apply omap_app. Qed.

(** A transport in use finds the queue empty; the queue is within its bound. *)
Record agent_inv w : Prop := {
  inv_flushed : is_Some (m_transport (connector w)) ->
                m_disconnect_pending (connector w) = false -> m_outbound (connector w) = [];
  inv_bounded : ~ unbounded w ->
                (List.length (m_outbound (connector w))
                 <= outbound_buffer_max (m_cfg (connector w)))%nat;
  inv_backoff : 0 <= m_current_backoff_sec (connector w);
}.

Definition config_ok (cfg : Config) : Prop :=
  0 < initial_backoff_sec cfg <= max_backoff_sec cfg.

Definition evolves w w' : Prop :=
  agent_inv w -> config_ok (m_cfg (connector w)) ->
  agent_inv w' /\ m_cfg (connector w') = m_cfg (connector w)
  /\ (unbounded w -> exists new, tunnel_stream w' = tunnel_stream w ++ new).

#[global] Instance evolves_preorder : PreOrder evolves.
Proof.
  split.
  - intros w Hi _. split; [done|]. split; [done|]. intros _. exists []. by rewrite app_nil_r.
  - intros w1 w2 w3 H1 H2 Hi Hk. destruct (H1 Hi Hk) as (Hi2 & Hc2 & Hs2).
    destruct (H2 Hi2) as (Hi3 & Hc3 & Hs3); [by rewrite Hc2|].
    split; [done|]. split; [congruence|]. intros Hu. destruct (Hs2 Hu) as [n1 Hn1].
    destruct Hs3 as [n2 Hn2]; [unfold unbounded in *; by rewrite Hc2|].
    exists (n1 ++ n2). by rewrite Hn2, Hn1, app_assoc.
Qed.

(** Anything that leaves the connector alone and sends nothing to the cloud. *)
Lemma evolves_same w w' :
  connector w' = connector w -> accepted (outs w') = accepted (outs w) -> evolves w w'.
Proof.
  intros Hc Ho Hi _. split; [|split].
  - destruct Hi. by constructor; unfold unbounded; rewrite ?Hc.
  - by rewrite Hc.
  - intros _. exists []. unfold tunnel_stream. by rewrite Hc, Ho, app_nil_r.
Qed.

Lemma evolves_demux f w : evolves w (on_demux f w).
Proof. by apply evolves_same. Qed.
Lemma evolves_environment h w : evolves w (with_io h [] w).
Proof. apply evolves_same; [done|]. cbn. by rewrite app_nil_r. Qed.
Lemma agent_evolves_io h x w : accepted [x] = [] -> evolves w (with_io h [x] w).
Proof. intros Hx. apply evolves_same; [done|]. cbn [outs with_io]. by rewrite agent_accepted_app, Hx, app_nil_r. Qed.

Lemma evolves_asterisk_send a s w : evolves w (call_asterisk_send a s w).2.
Proof. unfold call_asterisk_send. destruct asterisk_send. by apply agent_evolves_io. Qed.
Lemma evolves_asterisk_open a s w : evolves w (call_asterisk_open a s w).2.
Proof. unfold call_asterisk_open. destruct asterisk_open. by apply agent_evolves_io. Qed.

Lemma evolves_request_disconnect w : evolves w (request_disconnect w).
Proof.
  intros [Hf Hb Hk] _. split; [by constructor|]. split; [done|].
  intros _. exists []. by rewrite app_nil_r.
Qed.

Lemma stream_buffer_frame s w :
  unbounded w -> tunnel_stream (buffer_frame s w) = tunnel_stream w ++ [s].
Proof.
  intros Hu. unfold buffer_frame, unbounded in *. rewrite Hu. cbn.
  unfold tunnel_stream. by rewrite app_assoc.
Qed.

(** [send_frame] puts exactly its frame at the end of the stream. *)
Lemma agent_stream_send_frame op sid p w :
  agent_inv w -> unbounded w ->
  tunnel_stream (send_frame op sid p w) = tunnel_stream w ++ [encode op sid p].
Proof.
  intros Hi Hu. unfold send_frame.
  destruct (m_transport (connector w)) as [t|] eqn:Ht; [|by apply stream_buffer_frame].
  destruct (m_disconnect_pending (connector w)) eqn:Hp; [by apply stream_buffer_frame|].
  unfold call_transport_send. destruct transport_send as [[] h].
  - unfold tunnel_stream. cbn [outs with_io connector].
    rewrite agent_accepted_app, (inv_flushed w Hi) by (by rewrite ?Ht). by rewrite !app_nil_r.
  - rewrite stream_buffer_frame by done. unfold tunnel_stream.
    cbn [outs with_io connector request_disconnect on_connector m_outbound put_pending].
    rewrite agent_accepted_app. by rewrite app_nil_r.
Qed.

Lemma agent_inv_buffer_frame s w :
  agent_inv w ->
  (is_Some (m_transport (connector w)) -> m_disconnect_pending (connector w) = true) ->
  agent_inv (buffer_frame s w).
Proof.
  intros [Hf Hb Hk] Hup. unfold buffer_frame, unbounded in *.
  destruct (Nat.eqb_spec (outbound_buffer_max (m_cfg (connector w))) 0) as [Hz|Hz]; cbn [orb];
    [|destruct (Nat.ltb_spec (List.length (m_outbound (connector w)))
                  (outbound_buffer_max (m_cfg (connector w)))) as [Hl|Hl]; [|done]];
    (constructor; unfold unbounded;
       cbn [connector on_connector m_transport m_outbound put_outbound m_cfg m_disconnect_pending];
       try done; try (intros H1 H2; by rewrite Hup in H2)).
  intros _. rewrite length_app. cbn. lia.
Qed.

Lemma cfg_send_frame op sid p w : m_cfg (connector (send_frame op sid p w)) = m_cfg (connector w).
Proof. apply (inert_cfg _ _ (inert_send_frame op sid p w)). Qed.

Lemma agent_evolves_send_frame op sid p w : evolves w (send_frame op sid p w).
Proof.
  intros Hi Hk. split; [|split].
  - unfold send_frame. destruct (m_transport (connector w)) as [t|] eqn:Ht.
    2:{ apply agent_inv_buffer_frame; [done|]. rewrite Ht. by intros []. }
    destruct (m_disconnect_pending (connector w)) eqn:Hp; [by apply agent_inv_buffer_frame|].
    unfold call_transport_send. destruct transport_send as [[] h]; [by destruct Hi|].
    apply agent_inv_buffer_frame; [|done]. destruct Hi. by constructor.
  - apply cfg_send_frame.
  - intros Hu. exists [encode op sid p]. by apply agent_stream_send_frame.
Qed.

Lemma evolves_send_frames fs w : evolves w (send_frames fs w).
Proof.
  revert w. induction fs as [|f fs IH]; intros w; [reflexivity|].
  etransitivity; [apply agent_evolves_send_frame|apply IH].
Qed.

Lemma agent_evolves_tunnel_send op sid p w : evolves w (tunnel_send op sid p w).
Proof. unfold tunnel_send. destruct (m_tunnel _); [apply agent_evolves_send_frame|reflexivity]. Qed.

Lemma evolves_on_asterisk_data sid s w : evolves w (on_asterisk_data sid s w).
Proof. unfold on_asterisk_data. destruct (_ !! sid); [apply agent_evolves_tunnel_send|reflexivity]. Qed.

Lemma evolves_on_asterisk_eof sid r w : evolves w (on_asterisk_eof sid r w).
Proof.
  unfold on_asterisk_eof. destruct (_ !! sid); [|reflexivity].
  etransitivity; [apply evolves_demux|apply agent_evolves_tunnel_send].
Qed.

Lemma agent_evolves_close_stream sid r w : evolves w (close_stream sid r w).
Proof.
  unfold close_stream. destruct (_ !! sid) as [a|]; [|reflexivity].
  etransitivity; [|apply evolves_demux]. by apply agent_evolves_io.
Qed.

Lemma agent_evolves_run_handler h s w : evolves w (run_handler h s w).2.
Proof.
  destruct h as [h|]; [|reflexivity]. unfold run_handler.
  destruct (h s (io w)) as [[fs|e] h']; [|apply evolves_environment].
  etransitivity; [apply evolves_environment|apply evolves_send_frames].
Qed.

Lemma agent_evolves_dispatch_frame f w : evolves w (dispatch_frame f w).2.
Proof.
  unfold dispatch_frame.
  destruct (op f); try reflexivity; try apply agent_evolves_run_handler; cbn [snd];
    try apply agent_evolves_close_stream; try apply agent_evolves_tunnel_send.
  - destruct (m_streams (demux w) !! stream_id f); [reflexivity|].
    pose proof (evolves_asterisk_open (stream_id f) (payload f) w) as Ho.
    destruct (call_asterisk_open _ _ _) as [[a|] w1]; cbn [snd] in *;
      (etransitivity; [exact Ho|]); [apply evolves_demux|apply agent_evolves_tunnel_send].
  - destruct (m_streams (demux w) !! stream_id f) as [a|]; [|reflexivity].
    pose proof (evolves_asterisk_send a (payload f) w) as Ho.
    destruct (call_asterisk_send _ _ _) as [[| |r] w1]; cbn [snd asterisk_send_outcome] in *;
      (etransitivity; [exact Ho|]); [reflexivity|apply agent_evolves_close_stream|].
    etransitivity; [apply evolves_on_asterisk_eof|apply agent_evolves_close_stream].
Qed.

Lemma agent_evolves_read_loop fuel w : evolves w (read_loop fuel w).2.
Proof.
  revert w. induction fuel as [|fuel IH]; intros w; cbn [read_loop]; [reflexivity|].
  destruct (decode (recv_buffer w)) as [f n| |]; [|reflexivity|apply evolves_demux].
  pose proof (agent_evolves_dispatch_frame f w) as Hd. cbn [reader_dispatch demux_reader] in *.
  destruct (dispatch_frame f w) as [[[]|e] w1]; cbn [snd] in *; [|done].
  transitivity w1; [done|]. etransitivity; [apply evolves_demux|apply IH].
Qed.

Lemma agent_evolves_pings z w : evolves w (on_connector (put_pings z) w).
Proof.
  intros [] _. split; [by constructor|]. split; [done|].
  intros _. exists []. by rewrite app_nil_r.
Qed.

Lemma agent_evolves_on_bytes_received s w : evolves w (on_bytes_received s w).2.
Proof.
  unfold on_bytes_received. set (w1 := on_connector (put_pings 0) w).
  transitivity w1; [apply agent_evolves_pings|]. destruct (negb _); [reflexivity|].
  assert (Ht : evolves w1 (on_tunnel_bytes s w1).2).
  { unfold on_tunnel_bytes, read_bytes. etransitivity; [apply evolves_demux|apply agent_evolves_read_loop]. }
  destruct (on_tunnel_bytes s w1) as [[[]|e] w2]; cbn [snd] in *; [done| |done].
  transitivity w2; [done|apply evolves_request_disconnect].
Qed.

(** ** Losing a transport, flushing, connecting *)

Lemma connector_close_streams l w :
  connector (close_streams l w) = connector w
  /\ demux (close_streams l w) = demux w
  /\ outs (close_streams l w) = outs w ++ map (fun kv => AsteriskClosed kv.2 "tunnel_lost") l.
Proof.
  revert w. induction l as [|[k a] l IH]; intros w; [by rewrite app_nil_r|].
  destruct (IH (call_asterisk_close a "tunnel_lost" w)) as (H1 & H2 & H3).
  repeat split; [exact H1|exact H2|]. etransitivity; [exact H3|].
  cbn [outs call_asterisk_close with_io map snd]. by rewrite <- app_assoc.
Qed.

Lemma connector_mark_disconnected w :
  connector (mark_disconnected w)
  = put_pending false (put_pings 0
      (put_backoff (m_reconnect_attempts (connector w)) 0 0 (put_transport None (connector w)))).
Proof.
  unfold mark_disconnected, on_tunnel_disconnect.
  destruct (m_transport (connector w)) eqn:Ht;
    cbn [connector on_connector put_transport m_demux call_transport_close with_io];
    destruct (m_demux (connector w)); cbn [connector on_connector on_demux];
    rewrite ?(proj1 (connector_close_streams _ _));
    cbn [connector on_connector on_demux call_transport_close with_io]; try done;
    destruct (connector w); cbn in *; by subst.
Qed.

Lemma demux_mark_disconnected w :
  demux (mark_disconnected w)
  = if m_demux (connector w)
    then put_tunnel false (put_recv_buffer "" (put_streams ∅ (demux w))) else demux w.
Proof.
  unfold mark_disconnected, on_tunnel_disconnect.
  destruct (m_transport (connector w));
    cbn [connector on_connector put_transport m_demux call_transport_close with_io];
    destruct (m_demux (connector w)); cbn [demux on_connector on_demux];
    by rewrite ?(proj1 (proj2 (connector_close_streams _ _))).
Qed.

Lemma agent_outs_mark_disconnected w :
  outs (mark_disconnected w)
  = outs w ++ match m_transport (connector w) with Some t => [CloudClosed t] | None => [] end
      ++ (if m_demux (connector w)
          then map (fun kv => AsteriskClosed kv.2 "tunnel_lost") (map_to_list (m_streams (demux w)))
          else []).
Proof.
  unfold mark_disconnected, on_tunnel_disconnect.
  destruct (m_transport (connector w));
    cbn [connector on_connector put_transport m_demux call_transport_close with_io];
    destruct (m_demux (connector w)); cbn [outs on_connector on_demux];
    rewrite ?(proj2 (proj2 (connector_close_streams _ _)));
    cbn [outs on_connector on_demux call_transport_close with_io demux];
    by rewrite ?app_nil_r, <- ?app_assoc.
Qed.

Lemma accepted_no_send (l : list out) :
  Forall (fun x => match x with CloudSent _ _ _ => False | _ => True end) l -> accepted l = [].
Proof. induction 1 as [|[] l Hx _ IH]; by cbn. Qed.

Lemma agent_stream_mark_disconnected w : tunnel_stream (mark_disconnected w) = tunnel_stream w.
Proof.
  unfold tunnel_stream. rewrite agent_outs_mark_disconnected, connector_mark_disconnected, agent_accepted_app.
  rewrite (accepted_no_send (_ ++ _)); [by rewrite app_nil_r|]. apply Forall_app. split.
  - destruct (m_transport _); repeat constructor.
  - destruct (m_demux _); [|constructor]. by apply Forall_map, Forall_forall.
Qed.

Lemma agent_evolves_mark_disconnected w : evolves w (mark_disconnected w).
Proof.
  intros [Hf Hb Hk] _. split; [|split].
  - constructor; unfold unbounded; rewrite connector_mark_disconnected; try done. by intros [].
  - by rewrite connector_mark_disconnected.
  - intros _. exists []. by rewrite agent_stream_mark_disconnected, app_nil_r.
Qed.

(** What [flush_loop] needs: the invariant, whatever is queued. *)
Definition flushable w : Prop :=
  ~ unbounded w ->
  (List.length (m_outbound (connector w)) <= outbound_buffer_max (m_cfg (connector w)))%nat.

Lemma agent_flush_loop_spec q w :
  m_outbound (connector w) = q -> flushable w -> m_current_backoff_sec (connector w) = 0 ->
  agent_inv (flush_loop q w)
  /\ tunnel_stream (flush_loop q w) = tunnel_stream w
  /\ m_cfg (connector (flush_loop q w)) = m_cfg (connector w)
  /\ (is_Some (m_transport (connector (flush_loop q w))) ->
       m_outbound (connector (flush_loop q w)) = []
       /\ demux (flush_loop q w) = demux w
       /\ connector (flush_loop q w) = put_outbound [] (connector w)).
Proof.
  revert w. induction q as [|s q IH]; intros w Hq Hfl Hk.
  { cbn [flush_loop]. split; [|split; [done|split; [done|]]].
    - constructor; [done|exact Hfl|]. cbn. lia.
    - intros _. repeat split; [done|]. destruct w as [? [] ? ?]. cbn in *. by subst. }
  cbn [flush_loop]. destruct (m_transport (connector w)) as [t|] eqn:Ht.
  2:{ split; [constructor; [rewrite Ht; by intros []|exact Hfl|lia]|].
      split; [done|]. split; [done|]. rewrite Ht. by intros []. }
  unfold call_transport_send. destruct transport_send as [[] h].
  - edestruct (IH (on_connector (put_outbound q) (with_io h [CloudSent t s true] w)))
      as (H1 & H2 & H3 & H4); [done| |done|].
    { unfold flushable, unbounded in *. cbn. rewrite Hq in Hfl. cbn in Hfl.
      intros Hu. specialize (Hfl Hu). lia. }
    split; [done|]. split; [|by split].
    rewrite H2. unfold tunnel_stream. cbn [outs connector on_connector put_outbound m_outbound with_io].
    by rewrite agent_accepted_app, Hq, <- app_assoc.
  - rewrite agent_stream_mark_disconnected, connector_mark_disconnected.
    split; [|split; [|split; [done|by intros []]]].
    + constructor; unfold unbounded; rewrite connector_mark_disconnected; try done. by intros [].
    + unfold tunnel_stream. cbn [outs with_io connector]. by rewrite agent_accepted_app, app_nil_r.
Qed.

(** A transport that takes everything takes the whole queue. *)
Lemma agent_flush_loop_accepts t :
  (forall s h, (transport_send t s h).1 = true) ->
  forall q w,
  m_outbound (connector w) = q -> m_transport (connector w) = Some t ->
  exists h, flush_loop q w
    = mkAgent (demux w) (put_outbound [] (connector w)) h
        (outs w ++ map (fun s => CloudSent t s true) q).
Proof.
  intros Hok. induction q as [|s q IH]; intros w Hq Ht.
  - exists (io w). cbn [flush_loop map]. rewrite app_nil_r. destruct w as [? [] ? ?].
    cbn in *. by subst.
  - cbn [flush_loop]. rewrite Ht. unfold call_transport_send. specialize (Hok s (io w)).
    destruct (transport_send t s (io w)) as [[] h]; [|done].
    destruct (IH (on_connector (put_outbound q) (with_io h [CloudSent t s true] w))) as [h' Hf];
      [done|done|]. exists h'. rewrite Hf.
    cbn [demux connector on_connector with_io put_outbound outs map]. by rewrite <- app_assoc.
Qed.

Lemma evolves_run_agent_call c w : evolves w (run_agent_call c w).
Proof. destruct c; [apply evolves_demux|apply agent_evolves_send_frame]. Qed.

Lemma evolves_run_on_connected w : evolves w (run_on_connected w).2.
Proof.
  unfold run_on_connected. destruct (m_on_connected _) as [h|]; [|reflexivity].
  destruct (h (io w)) as [[cs|e] h']; [|apply evolves_environment].
  transitivity (with_io h' [] w); [apply evolves_environment|]. cbn [snd].
  generalize (with_io h' [] w).
  induction cs as [|c cs IH]; intros v; [reflexivity|].
  etransitivity; [apply evolves_run_agent_call|apply IH].
Qed.

Lemma next_backoff_range cfg b :
  config_ok cfg -> 0 <= b -> 0 < next_backoff cfg b <= max_backoff_sec cfg.
Proof. unfold config_ok, next_backoff. intros Hc Hb. destruct (Z.eqb_spec b 0); lia. Qed.

(** The state [attempt_connect] flushes from. *)
Definition installed (t : nat) w : Agent H :=
  on_connector (fun c =>
    put_pings 0 (put_last_heartbeat (now_unix (io w))
      (put_backoff 0 0 0 (put_transport (Some t) c)))) w.

Lemma evolves_attempt_connect w : evolves w (attempt_connect w).2.
Proof.
  unfold attempt_connect, call_create_connected.
  destruct (create_connected (io w)) as [[t|] h]; cbn [snd].
  - etransitivity; [|apply evolves_run_on_connected].
    fold (installed t (with_io h [Connecting (Some t)] w)).
    set (v := installed t (with_io h [Connecting (Some t)] w)).
    intros [Hf Hb Hk] _.
    destruct (agent_flush_loop_spec _ v eq_refl Hb eq_refl) as (H1 & H2 & H3 & _).
    split; [done|]. split; [done|]. intros _. exists []. unfold flush_outbound. rewrite H2, app_nil_r.
    unfold tunnel_stream. cbn. by rewrite agent_accepted_app, app_nil_r.
  - intros [Hf Hb Hk] Hcfg. split; [|split; [done|]].
    + constructor; try done. cbn.
      pose proof (next_backoff_range _ _ Hcfg Hk). lia.
    + intros _. exists []. unfold tunnel_stream. cbn. by rewrite agent_accepted_app, !app_nil_r.
Qed.

Lemma evolves_maybe_heartbeat w : evolves w (maybe_heartbeat w).
Proof.
  unfold maybe_heartbeat. destruct (_ <=? 0); [reflexivity|]. destruct (_ <? _); [reflexivity|].
  destruct (_ <=? _); [apply agent_evolves_mark_disconnected|].
  transitivity (send_frame PING 0 "" w); [apply agent_evolves_send_frame|].
  destruct (m_transport (connector (send_frame PING 0 "" w))); [|reflexivity].
  intros [Hf Hb Hk] _. split; [by constructor|]. split; [done|].
  intros _. exists []. by rewrite app_nil_r.
Qed.

(** The first part of [tick]: a pending disconnect is carried out. *)
Definition settle w : Agent H :=
  if m_disconnect_pending (connector w) then
    let w := on_connector (put_pending false) w in
    match m_transport (connector w) with Some _ => mark_disconnected w | None => w end
  else w.

Lemma tick_settle w :
  tick w = match m_transport (connector (settle w)) with
           | Some _ => (Ok tt, maybe_heartbeat (settle w))
           | None =>
               if now_unix (io (settle w)) <? m_next_reconnect_at (connector (settle w))
               then (Ok tt, settle w) else attempt_connect (settle w)
           end.
Proof. done. Qed.

Lemma evolves_settle w : evolves w (settle w).
Proof.
  unfold settle. destruct (m_disconnect_pending (connector w)) eqn:Hp; [|reflexivity].
  cbn [connector on_connector put_pending m_transport].
  destruct (m_transport (connector w)) as [t|] eqn:Ht; intros [Hf Hb Hk] _.
  - split; [|split].
    + constructor; unfold unbounded; rewrite connector_mark_disconnected; try done. by intros [].
    + by rewrite connector_mark_disconnected.
    + intros _. exists []. by rewrite agent_stream_mark_disconnected, app_nil_r.
  - split; [|split; [done|]].
    + constructor; try done. cbn. rewrite Ht. by intros [].
    + intros _. exists []. by rewrite app_nil_r.
Qed.

Lemma agent_evolves_tick w : evolves w (tick w).2.
Proof.
  rewrite tick_settle. transitivity (settle w); [apply evolves_settle|].
  destruct (m_transport _); [apply evolves_maybe_heartbeat|].
  destruct (_ <? _); [reflexivity|apply evolves_attempt_connect].
Qed.

(** ** Everything that can happen to the two objects *)

(** Events from the sockets and from the other threads. *)
Inductive event_step : Agent H -> Agent H -> Prop :=
  | step_bytes s w : event_step w (on_bytes_received s w).2
  | step_lost w : event_step w (on_transport_lost w)
  | step_send op sid p w : event_step w (send_frame op sid p w)
  | step_ping w : event_step w (send_ws_ping w)
  | step_data sid s w : event_step w (on_asterisk_data sid s w)
  | step_eof sid r w : event_step w (on_asterisk_eof sid r w)
  | step_environment h w : event_step w (with_io h [] w).

Inductive agent_step : Agent H -> Agent H -> Prop :=
  | step_event w w' : event_step w w' -> agent_step w w'
  | step_tick w : agent_step w (tick w).2.

Lemma agent_evolves_step w w' : agent_step w w' -> evolves w w'.
Proof.
  destruct 1 as [w w' [s w1|w1|op sid p w1|w1|sid s w1|sid r w1|h w1]|w].
  - apply agent_evolves_on_bytes_received.
  - unfold on_transport_lost. destruct (m_transport _); [apply evolves_request_disconnect|reflexivity].
  - apply agent_evolves_send_frame.
  - unfold send_ws_ping. destruct (m_transport _); [|reflexivity].
    destruct (m_disconnect_pending _); [reflexivity|]. unfold call_transport_ping.
    destruct transport_ping as [[] h]; [by apply agent_evolves_io|].
    etransitivity; [|apply evolves_request_disconnect]. by apply agent_evolves_io.
  - apply evolves_on_asterisk_data.
  - apply evolves_on_asterisk_eof.
  - apply evolves_environment.
  - apply agent_evolves_tick.
Qed.

Lemma agent_evolves_steps w w' : rtc agent_step w w' -> evolves w w'.
Proof.
  induction 1 as [w|w w1 w2 H1 _ IH]; [reflexivity|].
  transitivity w1; [by apply agent_evolves_step|done].
Qed.

(** No event closes the transport: they only ask for it. *)
Lemma event_keeps_transport w w' :
  event_step w w' ->
  m_transport (connector w') = m_transport (connector w)
  /\ forall t, CloudClosed t ∈ outs w' -> CloudClosed t ∈ outs w.
Proof.
  assert (Hin : forall v v', inert v v' ->
    m_transport (connector v') = m_transport (connector v)
    /\ forall t, CloudClosed t ∈ outs v' -> CloudClosed t ∈ outs v) by (by intros v v' []).
  assert (Hloop : forall fuel v,
    m_transport (connector (read_loop fuel v).2) = m_transport (connector v)
    /\ forall t, CloudClosed t ∈ outs (read_loop fuel v).2 -> CloudClosed t ∈ outs v).
  { induction fuel as [|fuel IH]; intros v; cbn [read_loop]; [done|].
    destruct (decode (recv_buffer v)) as [f n| |]; [|done|done].
    destruct (Hin _ _ (inert_dispatch_frame f v)) as [Ht Hc].
    cbn [reader_dispatch demux_reader] in *.
    destruct (dispatch_frame f v) as [[[]|e] v1]; cbn [snd] in *; [|done].
    destruct (IH (set_recv_buffer (str_drop n (recv_buffer v1)) v1)) as [H1 H2].
    split; [by rewrite H1|]. intros t Hx. by apply Hc, H2. }
  destruct 1 as [s w|w|op sid p w|w|sid s w|sid r w|h w].
  - unfold on_bytes_received. destruct (negb _); [done|]. unfold on_tunnel_bytes, read_bytes.
    match goal with |- context [read_loop ?n ?v] => destruct (Hloop n v) as [H1 H2];
      destruct (read_loop n v) as [[[]|e] w1] end; done.
  - apply Hin. unfold on_transport_lost.
    destruct (m_transport _); [apply inert_request_disconnect|reflexivity].
  - apply Hin, inert_send_frame.
  - apply Hin. unfold send_ws_ping. destruct (m_transport _); [|reflexivity].
    destruct (m_disconnect_pending _); [reflexivity|]. unfold call_transport_ping.
    destruct transport_ping as [[] h]; [by apply inert_io|].
    etransitivity; [|apply inert_request_disconnect]. by apply inert_io.
  - apply Hin. unfold on_asterisk_data. destruct (_ !! sid); [apply inert_tunnel_send|reflexivity].
  - apply Hin, inert_on_asterisk_eof.
  - apply Hin, inert_environment.
Qed.
End Proofs.

(** ** Reconnecting *)

Section Reconnect.
Context {H : Type} `{!AgentIO H}.
Implicit Types (w : Agent H).

(** The agent has no transport and nothing to settle. *)
Definition idle w : Prop :=
  m_transport (connector w) = None /\ m_disconnect_pending (connector w) = false.

Lemma tick_idle h w :
  idle w ->
  tick (with_io h [] w)
  = if now_unix h <? m_next_reconnect_at (connector w) then (Ok tt, with_io h [] w)
    else attempt_connect (with_io h [] w).
Proof.
  intros [Ht Hp]. rewrite tick_settle. unfold settle. cbn [connector with_io]. rewrite Hp.
  cbn [connector with_io io]. by rewrite Ht.
Qed.

(** [retries w n w']: ticks have taken [w] to [w']; [n] of them dialled, in vain,
    and the others came too early. *)
Inductive retries w : nat -> Agent H -> Prop :=
  | retries_done : retries w 0 w
  | retries_early n h w' :
      retries w n w' -> now_unix h < m_next_reconnect_at (connector w') ->
      retries w n (tick (with_io h [] w')).2
  | retries_failed n h w' :
      retries w n w' -> m_next_reconnect_at (connector w') <= now_unix h ->
      (create_connected h).1 = None ->
      retries w (S n) (tick (with_io h [] w')).2.

Definition dials (o : list out) : nat :=
  List.length (omap (fun x => match x with Connecting t => Some t | _ => None end) o).

(** The backoff after [n] failures in a row. *)
Definition backoff_after (cfg : Config) (n : nat) : Z :=
  match n with
  | O => 0
  | S n => Z.min (initial_backoff_sec cfg * 2 ^ Z.of_nat n) (max_backoff_sec cfg)
  end.

Lemma next_backoff_after cfg n :
  config_ok cfg -> next_backoff cfg (backoff_after cfg n) = backoff_after cfg (S n).
Proof.
  unfold config_ok, next_backoff. intros Hc. destruct n as [|n]; cbn [backoff_after].
  - cbn. lia.
  - assert (0 < 2 ^ Z.of_nat n) by (apply Z.pow_pos_nonneg; lia).
    rewrite Nat2Z.inj_succ, Z.pow_succ_r by lia.
    destruct (Z.eqb_spec (Z.min (initial_backoff_sec cfg * 2 ^ Z.of_nat n) (max_backoff_sec cfg)) 0);
      nia.
Qed.

Lemma dials_app o o' : dials (o ++ o') = (dials o + dials o')%nat.
Proof. unfold dials. by rewrite omap_app, length_app. Qed.

(** ** The trace only grows *)

Definition grows w w' : Prop := exists r, outs w' = outs w ++ r.
#[global] Instance grows_preorder : PreOrder grows.
Proof.
  split; [by intros w; exists []; rewrite app_nil_r|].
  intros w1 w2 w3 [r1 H1] [r2 H2]. exists (r1 ++ r2). by rewrite H2, H1, app_assoc.
Qed.
Lemma grows_same w w' : outs w' = outs w -> grows w w'.
Proof. intros Ho. exists []. by rewrite Ho, app_nil_r. Qed.

Lemma grows_send_frame op sid p w : grows w (send_frame op sid p w).
Proof.
  unfold send_frame, call_transport_send, buffer_frame.
  destruct (m_transport _); [destruct (m_disconnect_pending _)|];
    try (apply grows_same; by destruct (_ || _)).
  destruct transport_send as [[] h]; [by eexists|].
  destruct (_ || _); by eexists.
Qed.

Lemma grows_mark_disconnected w : grows w (mark_disconnected w).
Proof. eexists. apply agent_outs_mark_disconnected. Qed.

Lemma grows_flush_loop q w : grows w (flush_loop q w).
Proof.
  revert w. induction q as [|s q IH]; intros w; [reflexivity|]. cbn [flush_loop].
  destruct (m_transport _) as [t|]; [|reflexivity]. unfold call_transport_send.
  destruct transport_send as [ok h]. transitivity (with_io h [CloudSent t s ok] w); [by eexists|].
  destruct ok; [|apply grows_mark_disconnected]. etransitivity; [|apply IH]. by apply grows_same.
Qed.

Lemma grows_run_on_connected w : grows w (run_on_connected w).2.
Proof.
  unfold run_on_connected. destruct (m_on_connected _) as [h|]; [|reflexivity].
  destruct (h (io w)) as [[cs|e] h']; (transitivity (with_io h' [] w); [by eexists|]); [|reflexivity].
  cbn [snd]. generalize (with_io h' [] w). induction cs as [|c cs IH]; intros v; [reflexivity|].
  cbn [fold_left]. transitivity (run_agent_call c v); [|apply IH].
  destruct c; [by apply grows_same|apply grows_send_frame].
Qed.

Lemma grows_attempt_connect w : grows w (attempt_connect w).2.
Proof.
  unfold attempt_connect, call_create_connected. destruct (create_connected (io w)) as [[t|] h]; cbn [snd].
  - etransitivity; [|apply grows_run_on_connected]. unfold flush_outbound.
    etransitivity; [|apply grows_flush_loop]. by eexists.
  - by eexists.
Qed.
End Reconnect.

(** * Properties *)

Section Properties.
Context {H : Type} `{!AgentIO H}.
Implicit Types (w : Agent H).

(** C11. The demux reassembles the tunnel's byte stream: whatever the chunks the
    bytes of a sequence of frames arrive in, and whatever fails on the way,
    [on_tunnel_bytes] on each chunk does exactly what dispatching the frames one
    by one does; and on any bytes at all it terminates, leaving no complete frame
    in the buffer (true) or an empty buffer (false, a protocol violation). *)
Theorem demux_reassembles w :
  (forall chunks fs tail w',
     Forall frame_wf fs -> decode tail = NeedMore -> m_recv_buffer (demux w) = "" ->
     concat_strings chunks = encode_all fs +:+ tail ->
     for_each fs dispatch_frame w = (Ok tt, w') ->
     read_chunks chunks w = (Ok true, on_demux (put_recv_buffer tail) w'))
  /\ (forall bytes, callbacks_total w ->
      match on_tunnel_bytes bytes w with
      | (Ok true, w') => decode (m_recv_buffer (demux w')) = NeedMore
      | (Ok false, w') => m_recv_buffer (demux w') = ""
      | (Throw e, _) => e <> OutOfFuel
      end).
Proof.
  split.
  - intros chunks fs tail w' Hwf Ht Hb Hc Hd.
    change (on_demux (put_recv_buffer tail) w') with (set_recv_buffer tail w').
    apply (@read_chunks_frames (Agent H) _ _ chunks fs tail w w'); try done.
    + cbn [recv_buffer demux_reader]. by rewrite Hb, str_app_nil_l.
    + cbn [recv_buffer demux_reader]. by rewrite Hb.
  - intros bytes. exact (read_bytes_total bytes w).
Qed.

(** C21. The transport is torn down only from [tick].  No event, in whatever order
    and however many, closes or replaces it, so none destroys the object whose
    method may be running; and the next [tick] after a disconnect was requested
    closes it first. *)
Theorem teardown_deferred w w' t :
  rtc event_step w w' -> m_transport (connector w) = Some t ->
  m_transport (connector w') = Some t
  /\ (forall t', CloudClosed t' ∈ outs w' -> CloudClosed t' ∈ outs w)
  /\ (m_disconnect_pending (connector w') = true ->
      exists rest, outs (tick w').2 = outs w' ++ CloudClosed t :: rest).
Proof.
  intros Hs Ht.
  assert (Hk : m_transport (connector w') = Some t
               /\ forall t', CloudClosed t' ∈ outs w' -> CloudClosed t' ∈ outs w).
  { rewrite <- Ht. clear Ht. induction Hs as [|w w1 w2 H1 _ [IH1 IH2]]; [done|].
    destruct (event_keeps_transport _ _ H1) as [H2 H3]. split; [congruence|]. eauto. }
  destruct Hk as [Ht' Hc]. split; [done|]. split; [done|]. intros Hp.
  set (v := on_connector (put_pending false) w').
  assert (Hset : settle w' = mark_disconnected v).
  { unfold settle. rewrite Hp. cbn [connector on_connector put_pending m_transport]. by rewrite Ht'. }
  rewrite tick_settle, Hset, connector_mark_disconnected.
  cbn [m_transport put_pending put_pings put_backoff put_transport].
  assert (Ho : exists r, outs (mark_disconnected v) = outs w' ++ CloudClosed t :: r).
  { rewrite agent_outs_mark_disconnected. cbn [connector on_connector put_pending m_transport v].
    rewrite Ht'. eauto. }
  destruct Ho as [r Ho]. destruct (_ <? _); [eauto|].
  destruct (grows_attempt_connect (mark_disconnected v)) as [r' Hr]. exists (r ++ r').
  by rewrite Hr, Ho, <- app_assoc.
Qed.

(** The reconnect schedule.  While dialling fails, the [n]-th failure in a row
    arms a backoff of min(initial * 2^(n-1), max) seconds from its own time; no
    tick before then dials, and there are exactly as many dials as failures. *)
Theorem backoff_schedule w n w' :
  idle w -> config_ok (m_cfg (connector w)) ->
  m_current_backoff_sec (connector w) = 0 -> m_reconnect_attempts (connector w) = 0 ->
  retries w n w' ->
  idle w' /\ m_reconnect_attempts (connector w') = Z.of_nat n
  /\ m_current_backoff_sec (connector w') = backoff_after (m_cfg (connector w)) n
  /\ m_current_backoff_sec (connector w') <= max_backoff_sec (m_cfg (connector w))
  /\ dials (outs w') = (dials (outs w) + n)%nat.
Proof.
  intros Hidle Hcfg Hb Ha Hr.
  assert (Hall : idle w' /\ m_reconnect_attempts (connector w') = Z.of_nat n
    /\ m_current_backoff_sec (connector w') = backoff_after (m_cfg (connector w)) n
    /\ m_cfg (connector w') = m_cfg (connector w)
    /\ dials (outs w') = (dials (outs w) + n)%nat).
  { induction Hr as [|n h w' Hr (Hi & Hat & Hbo & Hc & Hd) Hnow|n h w' Hr (Hi & Hat & Hbo & Hc & Hd) Hnow Hno].
    - split; [done|]. split; [by rewrite Ha|]. split; [by rewrite Hb|]. split; [done|lia].
    - rewrite tick_idle by done.
      destruct (Z.ltb_spec (now_unix h) (m_next_reconnect_at (connector w'))); [|lia].
      cbn [snd connector with_io outs]. rewrite app_nil_r. by destruct Hi.
    - rewrite tick_idle by done.
      destruct (Z.ltb_spec (now_unix h) (m_next_reconnect_at (connector w'))); [lia|].
      unfold attempt_connect, call_create_connected. cbn [io with_io].
      destruct (create_connected h) as [t h']; cbn [fst] in Hno; subst t.
      destruct Hi as [Ht Hp].
      cbn [snd connector on_connector with_io put_backoff m_reconnect_attempts
           m_current_backoff_sec m_cfg outs m_transport m_disconnect_pending].
      rewrite Hc, Hbo, next_backoff_after, Hat by done.
      split; [done|]. split; [lia|]. split; [done|]. split; [done|].
      rewrite !dials_app, Hd. cbn. lia. }
  destruct Hall as (Hi & Hat & Hbo & Hc & Hd). do 3 (split; [done|]). split; [|done].
  rewrite Hbo. unfold config_ok in Hcfg. destruct n; cbn [backoff_after]; lia.
Qed.

(** C2. Delivery.  In every state the two objects can reach, a transport in use
    means an empty queue, and a bounded queue is within its bound.  With the default
    unbounded queue, the frames the transports accepted followed by the queued ones
    only grow at the end, across any disconnects and reconnects, and [send_frame]
    adds exactly its own frame. *)
Theorem agent_delivery w w' :
  agent_inv w -> config_ok (m_cfg (connector w)) -> rtc agent_step w w' ->
  agent_inv w'
  /\ (unbounded w ->
      (exists new, tunnel_stream w' = tunnel_stream w ++ new)
      /\ forall op sid p,
           tunnel_stream (send_frame op sid p w') = tunnel_stream w' ++ [encode op sid p]).
Proof.
  intros Hi Hk Hs. destruct (agent_evolves_steps _ _ Hs Hi Hk) as (Hi' & Hc & Hn). split; [done|].
  intros Hu. split; [by apply Hn|]. intros op sid p. apply agent_stream_send_frame; [done|].
  unfold unbounded in *. by rewrite Hc.
Qed.

(** A heartbeat tick on every branch.  Not due: nothing happens.  Too many
    unanswered: the transport is dropped.  Otherwise a PING is sent and counted.  A
    PING that cannot be sent is queued and the disconnect is only requested, so the
    transport is still there, and the failed PING is counted as outstanding. *)
Theorem heartbeat_tick t w :
  m_transport (connector w) = Some t -> m_disconnect_pending (connector w) = false ->
  let c := connector w in
  let now := now_unix (io w) in
  let ping := encode PING 0 "" in
  let counted := on_connector (fun c => put_last_heartbeat now (put_pings (m_pings_outstanding c + 1) c)) in
  tick w =
  (Ok tt,
   if (heartbeat_interval_sec (m_cfg c) <=? 0)
      || (now - m_last_heartbeat_unix c <? heartbeat_interval_sec (m_cfg c)) then w
   else if heartbeat_max_missed (m_cfg c) <=? m_pings_outstanding c then mark_disconnected w
   else let '(ok, h) := transport_send t ping (io w) in
        let sent := with_io h [CloudSent t ping ok] w in
        if ok then counted sent
        else counted (buffer_frame ping (request_disconnect sent))).
Proof.
  intros Ht Hp c now ping counted. rewrite tick_settle. unfold settle. rewrite Hp, Ht.
  f_equal. unfold maybe_heartbeat. fold c now.
  destruct (heartbeat_interval_sec (m_cfg c) <=? 0); [done|]. cbn [orb].
  destruct (_ <? _); [done|]. destruct (_ <=? _); [done|].
  pose proof (inert_transport _ _ (inert_send_frame PING 0 "" w)) as Htr. rewrite Ht in Htr.
  rewrite Htr. unfold send_frame. rewrite Ht, Hp. unfold call_transport_send. fold ping.
  by destruct (transport_send t ping (io w)) as [[] h].
Qed.

(** What a DATA frame for a known stream does, for each way the Asterisk socket
    can answer.  Accepted: the payload went out unchanged and nothing else happened.
    Broken, with the stream reporting its own end first: the stream is forgotten and
    exactly one CLOSE goes up the tunnel.  Refused without a report: the stream is
    closed and forgotten, and the cloud is not told. *)
Theorem data_to_asterisk sid s bytes w :
  m_streams (demux w) !! sid = Some s ->
  let '(r, h) := asterisk_send s bytes (io w) in
  let sent := with_io h [AsteriskSent s bytes r] w in
  let forgotten := on_demux (fun d => put_streams (delete sid (m_streams d)) d) in
  dispatch_frame (mkFrame DATA sid bytes) w =
  (Ok tt, match r with
          | SendOk => sent
          | SendFailedEof reason => tunnel_send CLOSE sid reason (forgotten sent)
          | SendFailed => forgotten (call_asterisk_close s "asterisk_write_failed" sent)
          end).
Proof.
  intros Hs. destruct (asterisk_send s bytes (io w)) as [r h] eqn:Hsend.
  unfold dispatch_frame. cbn [op stream_id payload]. rewrite Hs.
  unfold call_asterisk_send. rewrite Hsend.
  destruct r as [| |reason]; cbn [asterisk_send_outcome]; [done| |]; f_equal.
  - unfold close_stream. cbn [demux with_io]. by rewrite Hs.
  - unfold on_asterisk_eof. cbn [demux with_io]. rewrite Hs.
    set (v := on_demux _ _). unfold close_stream.
    assert (Hgone : m_streams (demux (tunnel_send CLOSE sid reason v)) = m_streams (demux v)).
    { unfold tunnel_send. destruct (m_tunnel _); [|done].
      unfold send_frame, call_transport_send, buffer_frame.
      destruct (m_transport _); [destruct (m_disconnect_pending _)|];
        [by destruct (_ || _)| |by destruct (_ || _)].
      destruct transport_send as [[] h']; [done|]. by destruct (_ || _). }
    rewrite Hgone. unfold v at 1. cbn [demux on_demux with_io m_streams put_streams].
    by rewrite lookup_delete_eq.
Qed.

(** A successful connection.  When dialling succeeds and the transport takes
    every write, [attempt_connect] sends the backlog in order, then main's callback
    re-arms the demux and sends AGENT_HELLO; the queue is empty, the backoff and the
    heartbeat are reset. *)
Theorem agent_connects `{!JsonLib} society hello t w :
  m_on_connected (connector w) = Some (main_on_connected society) ->
  json_dump (mk_obj [("societyId", JStr society)]) = Ok hello ->
  m_disconnect_pending (connector w) = false ->
  (create_connected (io w)).1 = Some t ->
  (forall s h, (transport_send t s h).1 = true) ->
  let '(r, w') := attempt_connect w in
  r = Ok tt
  /\ outs w' = outs w ++ Connecting (Some t)
       :: map (fun s => CloudSent t s true)
            (m_outbound (connector w) ++ [encode AGENT_HELLO 0 hello])
  /\ m_transport (connector w') = Some t /\ m_outbound (connector w') = []
  /\ m_tunnel (demux w') = true /\ m_recv_buffer (demux w') = ""
  /\ m_current_backoff_sec (connector w') = 0 /\ m_pings_outstanding (connector w') = 0.
Proof.
  intros Hon Hj Hp Hc Hok. unfold attempt_connect, call_create_connected.
  destruct (create_connected (io w)) as [t' h]; cbn [fst] in Hc; subst t'.
  fold (installed t (with_io h [Connecting (Some t)] w)).
  set (v := installed t (with_io h [Connecting (Some t)] w)).
  destruct (agent_flush_loop_accepts t Hok (m_outbound (connector v)) v eq_refl eq_refl) as (h2 & Hfl).
  unfold flush_outbound. rewrite Hfl. unfold run_on_connected.
  cbn [connector m_on_connected v installed on_connector put_pings put_last_heartbeat
       put_backoff put_transport put_outbound with_io]. rewrite Hon.
  unfold main_on_connected. cbn [io]. rewrite Hj. cbn [fold_left run_agent_call].
  unfold send_frame. cbn [connector set_tunnel on_demux m_transport m_disconnect_pending with_io
       put_outbound put_pings put_last_heartbeat put_backoff put_transport].
  rewrite Hp. unfold call_transport_send. cbn [io with_io on_demux set_tunnel].
  pose proof (Hok (encode AGENT_HELLO 0 hello) h2) as Hsend.
  cbn [op stream_id payload].
  destruct (transport_send t (encode AGENT_HELLO 0 hello) h2) as [[] h3]; [|done].
  cbn [outs with_io on_demux connector demux set_tunnel]. split; [done|]. split; [|done].
  change (outs v) with (outs w ++ [Connecting (Some t)]).
  by rewrite app_nil_r, map_app, <- !app_assoc.
Qed.
End Properties.

(** ** The theorems at work *)

Section Witnesses.
#[local] Instance no_json : JsonLib := table_json [].

Definition ex_agent (c w : list bool) : Agent FakeIO :=
  new_agent default_config "soc1" (mkFakeIO c w 100).
Definition ex_hello : string := compact_dump (mk_obj [("societyId", JStr "soc1")]).

(** An agent that is connected. *)
Definition ex_up : Agent FakeIO := (tick (ex_agent [] [])).2.
Definition ex_frames : list Frame := [mkFrame OPEN 1 "{}"; mkFrame DATA 1 "hello"; mkFrame PING 0 ""].

Lemma teardown_deferred_witness :
  m_transport (connector (on_transport_lost ex_up)) = Some 1%nat
  /\ (forall t', CloudClosed t' ∈ outs (on_transport_lost ex_up) -> CloudClosed t' ∈ outs ex_up)
  /\ (m_disconnect_pending (connector (on_transport_lost ex_up)) = true ->
      exists rest, outs (tick (on_transport_lost ex_up)).2
                   = outs (on_transport_lost ex_up) ++ CloudClosed 1 :: rest).
Proof.
  apply (teardown_deferred ex_up); [apply rtc_once, step_lost|by vm_compute].
Defined.

Lemma backoff_schedule_witness :
  let w := ex_agent [false; false] [] in
  let w' := (tick (with_io (mkFakeIO [false] [] 102) []
               (tick (with_io (mkFakeIO [false] [] 100) [] w)).2)).2 in
  m_current_backoff_sec (connector w') = 2 /\ dials (outs w') = 2%nat.
Proof.
  intros w w'.
  destruct (backoff_schedule w 2 w') as (_ & _ & Hb & _ & Hd);
    [by split|by vm_compute|done|done| |by rewrite Hb].
  apply retries_failed; [apply retries_failed; [apply retries_done| |]| |];
    by vm_compute.
Defined.

Lemma agent_delivery_witness :
  let w := ex_agent [] [true; false] in
  let w' := (tick (send_frame CDR_PUSH 0 "b" (send_frame CDR_PUSH 0 "a" w))).2 in
  agent_inv w'
  /\ (unbounded w ->
      (exists new, tunnel_stream w' = tunnel_stream w ++ new)
      /\ forall op sid p,
           tunnel_stream (send_frame op sid p w') = tunnel_stream w' ++ [encode op sid p]).
Proof.
  intros w w'. apply (agent_delivery w w').
  - constructor; cbn; [by intros []|lia|lia].
  - vm_compute. split; congruence.
  - eapply rtc_l; [apply step_event, (step_send CDR_PUSH 0 "a")|].
    eapply rtc_l; [apply step_event, (step_send CDR_PUSH 0 "b")|]. apply rtc_once, step_tick.
Defined.

Lemma heartbeat_tick_witness :
  let w := with_io (mkFakeIO [] [false] 115) [] ex_up in
  m_transport (connector (tick w).2) = Some 1%nat
  /\ m_disconnect_pending (connector (tick w).2) = true
  /\ m_pings_outstanding (connector (tick w).2) = 1.
Proof. intros w. rewrite (heartbeat_tick 1%nat w); by vm_compute. Defined.

Lemma data_to_asterisk_witness :
  dispatch_frame (mkFrame DATA 1 "hello") (for_each [mkFrame OPEN 1 "{}"] dispatch_frame ex_up).2
  = (Ok tt, with_io (mkFakeIO [] [] 100) [AsteriskSent 1 "hello" SendOk]
              (for_each [mkFrame OPEN 1 "{}"] dispatch_frame ex_up).2).
Proof.
  pose proof (data_to_asterisk 1 1%nat "hello"
                (for_each [mkFrame OPEN 1 "{}"] dispatch_frame ex_up).2) as Hd.
  apply Hd. by vm_compute.
Defined.

(** A world where every connection and every write succeeds. *)
#[local] Instance steady_io : AgentIO unit := {|
  asterisk_open _ _ h := (None, h); asterisk_send _ _ h := (SendOk, h);
  asterisk_close _ _ h := h; create_connected h := (Some 1%nat, h);
  transport_send _ _ h := (true, h); transport_ping _ h := (true, h);
  transport_close _ h := h; now_unix _ := 0 |}.

Lemma agent_connects_witness :
  let w := send_frame CDR_PUSH 0 "a" (new_agent (H := unit) default_config "soc1" tt) in
  outs (attempt_connect w).2
  = [Connecting (Some 1%nat); CloudSent 1 (encode CDR_PUSH 0 "a") true;
     CloudSent 1 (encode AGENT_HELLO 0 ex_hello) true].
Proof.
  intros w. pose proof (agent_connects "soc1" ex_hello 1%nat w) as Hc.
  destruct (attempt_connect w) as [r w'].
  cbn [snd]. destruct Hc as (_ & -> & _); [done..|]. by vm_compute.
Defined.
End Witnesses.
