(* ===== verification/AgentEnv.v ===== *)
(** What the call-control classes of pbx-agent use of the outside world: the ARI
    REST surface [IAriRest] (ari_client.hpp), the MongoDB client [IMongodbClient]
    and the clock.

    They are one interface, [AgentEnv]; [Env] pairs the world with the trace of the
    calls made on it, so that theorems can speak of their order and number.  The
    callbacks that main installs on [AriClient] (they queue a frame for the cloud)
    are calls of the trace too. *)

From S2P Require Import Prelude.

#[local] Open Scope Z_scope.

(** One constructor per method of [IAriRest]. *)
Inductive ari_call :=
  | Subscribe (app : string) (sources : list string)
  | ContinueInDialplan (channel context extension : string) (priority : Z)
  | Originate (endpoint app app_args channel caller_id : string)
  | CreateBridge (bridge type : string)
  | AddChannel (bridge channel : string)
  | Hangup (channel reason : string)
  | Answer (channel : string)
  | GetEndpoint (tech resource : string)
  | ListEndpoints (tech : string)
  | CreateDynamicConfig (cfg_class obj_type id fields : string)
  | DeleteDynamicConfig (cfg_class obj_type id : string).

Record Response := mkResponse { status : Z; body : string }.

(** The calls on the database client and on the change-stream cursor. *)
Inductive db_call :=
  | GetDocuments (coll filter projection : string)
  | GetDocument (coll filter projection : string)
  | CreateDocument (db coll doc : string)
  | WatchCollection (coll resume_token : string)
  | TryNext (cursor : nat).

Inductive call :=
  | Ari (c : ari_call)
  | Db (c : db_call)
  | RegisterState (sip_username : string) (online : bool)
  | AsteriskStatus (connected : bool).

#[global] Instance ari_call_eq_dec : EqDecision ari_call.
Proof. solve_decision. Defined.
#[global] Instance db_call_eq_dec : EqDecision db_call.
Proof. solve_decision. Defined.
#[global] Instance call_eq_dec : EqDecision call.
Proof. solve_decision. Defined.

(** [std::time(nullptr)] is [env_time]; the client's [get_database] is [env_db]. *)
Class AgentEnv (H : Type) := {
  env_ari : ari_call -> H -> Response * H;
  env_query : db_call -> H -> result string * H;
  env_watch : string -> string -> H -> option nat * H;
  env_time : H -> Z;
  env_db : string;
}.

Record Env (H : Type) := mkEnv { host : H; calls : list call }.
Arguments mkEnv {H} _ _.
Arguments host {H} _.
Arguments calls {H} _.

(** A 2xx answer. *)
Definition http_ok (r : Response) : bool := (200 <=? status r) && (status r <? 300).

Section Calls.
Context {H : Type} `{!AgentEnv H}.

Definition env_call_ari (c : ari_call) : M (Env H) Response := fun e =>
  let '(r, h) := env_ari c (host e) in (Ok r, mkEnv h (calls e ++ [Ari c])).
Definition env_call_db (c : db_call) : M (Env H) string := fun e =>
  let '(r, h) := env_query c (host e) in (r, mkEnv h (calls e ++ [Db c])).
Definition env_call_watch (coll token : string) : M (Env H) (option nat) := fun e =>
  let '(r, h) := env_watch coll token (host e) in
  (Ok r, mkEnv h (calls e ++ [Db (WatchCollection coll token)])).
Definition env_note (c : call) : M (Env H) unit := fun e =>
  (Ok tt, mkEnv (host e) (calls e ++ [c])).
End Calls.

(** A component whose state contains the environment. *)
Class HasEnv (W : Type) (H : Type) := {
  get_env : W -> Env H;
  put_env : Env H -> W -> W;
}.

Section Lifting.
Context {W H : Type} `{!HasEnv W H} `{!AgentEnv H}.

Definition in_env {A} (m : M (Env H) A) : M W A := fun w =>
  let '(r, e) := m (get_env w) in (r, put_env e w).
Definition rest (c : ari_call) : M W Response := in_env (env_call_ari c).
Definition db (c : db_call) : M W string := in_env (env_call_db c).
Definition note (c : call) : M W unit := in_env (env_note c).
Definition now : M W Z := fun w => (Ok (env_time (host (get_env w))), w).
End Lifting.

(** A concrete environment for examples: every ARI call is answered [resp], every
    query [rows], and the world is the time. *)
Definition const_env (resp : Response) (rows : result string) : AgentEnv Z := {|
  env_ari _ h := (resp, h);
  env_query _ h := (rows, h);
  env_watch _ _ h := (Some O, h);
  env_time h := h;
  env_db := "pabx";
|}.
