(* ===== verification/CallRouter.v ===== *)
(** [CallRouter] (call_router.hpp/.cpp): resolves a dialed extension to the SIP
    users to ring, forks a ringing leg per user, bridges the first to answer and
    tears the others down. *)

From S2P Require Import Prelude Json AgentEnv.

#[local] Open Scope Z_scope.

Definition kGuardExtension : string := "0".
Definition kOutboundTag : string := "outbound".

(** [ringing_legs] is an unordered set; the loops over it go through [elements]. *)
Record PendingCall := mkPendingCall {
  dialed_ext : string;
  ringing_legs : gset string;
  connected_leg : string;
}.

Record Router (H : Type) := mkRouter {
  m_society_id : string;
  m_app_name : string;
  m_calls : gmap string PendingCall;
  m_leg_to_caller : gmap string string;
  router_env : Env H;
}.
Arguments mkRouter {H} _ _ _ _ _.
Arguments m_society_id {H} _.
Arguments m_app_name {H} _.
Arguments m_calls {H} _.
Arguments m_leg_to_caller {H} _.
Arguments router_env {H} _.

#[export] Instance router_has_env {H} : HasEnv (Router H) H := {|
  get_env := router_env;
  put_env e r := mkRouter (m_society_id r) (m_app_name r) (m_calls r) (m_leg_to_caller r) e;
|}.

Section CallRouter.
Context {H : Type} `{!AgentEnv H} `{!JsonLib}.

Definition new_router (society app : string) (e : Env H) : Router H :=
  mkRouter society app ∅ ∅ e.

Definition on_calls (f : gmap string PendingCall -> gmap string PendingCall) : M (Router H) unit :=
  modify (fun r => mkRouter (m_society_id r) (m_app_name r) (f (m_calls r))
                     (m_leg_to_caller r) (router_env r)).
Definition on_legs (f : gmap string string -> gmap string string) : M (Router H) unit :=
  modify (fun r => mkRouter (m_society_id r) (m_app_name r) (m_calls r)
                     (f (m_leg_to_caller r)) (router_env r)).

(** The body of the row loop of [resolve_targets]. *)
Definition row_target (row : json) : option string :=
  if negb (is_object row) then None else
  match member_str "status" row with
  | Some s => if negb (str_eqb s "active") then None else
      match member_str "sipUsername" row with
      | Some u => if str_empty u then None else Some u
      | None => None
      end
  | None =>
      match member_str "sipUsername" row with
      | Some u => if str_empty u then None else Some u
      | None => None
      end
  end.

Definition target_filter (society_id dialed_ext : string) : json :=
  mk_obj [("societyId", JStr society_id);
          if str_eqb dialed_ext kGuardExtension then ("role", JStr "guard")
          else ("flatNumber", JStr dialed_ext)].

Definition targets_of_rows (rows : string) : list string :=
  if str_empty rows then [] else
  match json_parse rows with
  | Ok (JArr arr) => omap row_target arr
  | _ => []
  end.

(** [filter.dump()] and the query are inside the [try]. *)
Definition resolve_targets (dialed_ext : string) : M (Router H) (list string) :=
  if str_empty dialed_ext then mret [] else
  society ← asks m_society_id;
  try_catch
    (filter ← lift (json_dump (target_filter society dialed_ext));
     rows ← db (GetDocuments "subscribers" filter "{}");
     mret (targets_of_rows rows))
    (mret []).

Definition leg_id (caller : string) (i : nat) : string :=
  caller +:+ "-leg-" +:+ to_string (Z.of_nat i).

(** The fork loop: the legs whose originate was accepted. *)
Fixpoint fork (caller caller_id : string) (i : nat) (targets : list string)
    (ringing : gset string) : M (Router H) (gset string) :=
  match targets with
  | [] => mret ringing
  | user :: targets' =>
      app ← asks m_app_name;
      let leg := leg_id caller i in
      r ← rest (Originate ("PJSIP/" +:+ user) app (kOutboundTag +:+ "," +:+ caller) leg caller_id);
      if http_ok r then
        on_legs (<[leg := caller]>) ;;
        fork caller caller_id (S i) targets' ({[leg]} ∪ ringing)
      else fork caller caller_id (S i) targets' ringing
  end.

Definition hangup (channel reason : string) : M (Router H) unit :=
  _ ← rest (Hangup channel reason); mret tt.

Definition on_caller_start (caller caller_id dialed_ext : string) : M (Router H) unit :=
  cs ← asks m_calls;
  if bool_decide (is_Some (cs !! caller)) then mret tt else
  targets ← resolve_targets dialed_ext;
  if bool_decide (targets = []) then hangup caller "congestion" else
  ringing ← fork caller caller_id 0 targets ∅;
  if bool_decide (ringing = ∅) then hangup caller "congestion" else
  on_calls (<[caller := mkPendingCall dialed_ext ringing ""]>).

Definition bridge_id (caller : string) : string := caller +:+ "-bridge".

Definition on_leg_start (leg caller : string) : M (Router H) unit :=
  cs ← asks m_calls;
  match cs !! caller with
  | None => hangup leg "normal"
  | Some call =>
      if negb (str_empty (connected_leg call)) then
        if str_eqb (connected_leg call) leg then mret tt else
        hangup leg "answered" ;;
        on_calls (<[caller := mkPendingCall (dialed_ext call) (ringing_legs call ∖ {[leg]})
                                (connected_leg call)]>)
      else
        let losers := ringing_legs call ∖ {[leg]} in
        on_calls (<[caller := mkPendingCall (dialed_ext call) losers leg]>) ;;
        _ ← rest (Answer caller);
        _ ← rest (CreateBridge (bridge_id caller) "mixing");
        _ ← rest (AddChannel (bridge_id caller) caller);
        _ ← rest (AddChannel (bridge_id caller) leg);
        for_each (elements losers) (fun loser => hangup loser "answered") ;;
        on_calls (<[caller := mkPendingCall (dialed_ext call) ∅ leg]>)
  end.

Definition on_channel_gone (channel : string) : M (Router H) unit :=
  cs ← asks m_calls;
  match cs !! channel with
  | Some call =>
      for_each (elements (ringing_legs call)) (fun leg => hangup leg "normal") ;;
      (if str_empty (connected_leg call) then mret tt
       else hangup (connected_leg call) "normal") ;;
      on_calls (delete channel)
  | None =>
      legs ← asks m_leg_to_caller;
      match legs !! channel with
      | None => mret tt
      | Some caller =>
          on_legs (delete channel) ;;
          match cs !! caller with
          | None => mret tt
          | Some call =>
              if str_eqb channel (connected_leg call) then
                hangup caller "normal" ;; on_calls (delete caller)
              else
                let ringing := ringing_legs call ∖ {[channel]} in
                on_calls (<[caller := mkPendingCall (dialed_ext call) ringing
                                        (connected_leg call)]>) ;;
                if str_empty (connected_leg call) && bool_decide (ringing = ∅) then
                  hangup caller "no_answer" ;; on_calls (delete caller)
                else mret tt
          end
      end
  end.

Definition active_calls (r : Router H) : nat := size (m_calls r).
End CallRouter.
