(* ===== verification/CallRouterSpec.v ===== *)
(** What the forked-ring driver guarantees: theorems about [CallRouter]. *)

From S2P Require Import Prelude Json AgentEnv CallRouter.

#[local] Open Scope Z_scope.

Section Proofs.
Context {H : Type} `{!AgentEnv H} `{!JsonLib}.
Implicit Types (r : Router H) (caller leg : string).

(** ** Leg ids *)

Lemma leg_id_inj c1 i1 c2 i2 : leg_id c1 i1 = leg_id c2 i2 -> c1 = c2 /\ i1 = i2.
Proof.
  unfold leg_id. intros He.
  change (c1 +:+ "-leg-" +:+ to_string (Z.of_nat i1))
    with (c1 +:+ ("-leg" +:+ String "-" (to_string (Z.of_nat i1)))) in He.
  change (c2 +:+ "-leg-" +:+ to_string (Z.of_nat i2))
    with (c2 +:+ ("-leg" +:+ String "-" (to_string (Z.of_nat i2)))) in He.
  rewrite <- !str_app_assoc in He.
  assert (Hd : forall i, str_forallb (fun c => negb (Ascii.eqb c "-")) (to_string (Z.of_nat i)) = true).
  { intros i. apply (str_forallb_impl is_digit); [|apply to_string_digits; lia].
    intros c Hc. destruct (Ascii.eqb_spec c "-") as [->|]; done. }
  apply last_split_inj in He as [He Hi]; [|done..].
  apply to_string_inj, Nat2Z.inj in Hi as ->. split; [|done].
  change ("-leg") with (String "-" "leg") in He.
  by apply last_split_inj in He as [-> _].
Qed.

(** ** Runs of calls

    [does r cs r']: only the environment changed, by the calls [cs]. *)
Definition does r (cs : list call) r' : Prop :=
  exists h, r' = mkRouter (m_society_id r) (m_app_name r) (m_calls r) (m_leg_to_caller r)
                  (mkEnv h (calls (router_env r) ++ cs)).

Lemma does_nil r : does r [] r.
Proof. exists (host (router_env r)). rewrite app_nil_r. by destruct r as [????[]]. Qed.

Lemma does_trans r1 r2 r3 c1 c2 : does r1 c1 r2 -> does r2 c2 r3 -> does r1 (c1 ++ c2) r3.
Proof. intros [h1 ->] [h2 ->]. exists h2. cbn. by rewrite app_assoc. Qed.

Lemma rest_does c r : exists resp r', rest c r = (Ok resp, r') /\ does r [Ari c] r'.
Proof.
  unfold rest, in_env, env_call_ari. cbn [get_env router_has_env].
  destruct (env_ari c (host (router_env r))) as [resp h]. eexists _, _. split; [done|]. by exists h.
Qed.

Lemma hangup_does ch reason r : exists r', hangup ch reason r = (Ok tt, r') /\ does r [Ari (Hangup ch reason)] r'.
Proof.
  destruct (rest_does (Hangup ch reason) r) as (resp & r' & Hr & Hd). exists r'. split; [|done].
  unfold hangup. by rewrite (M_bind_ok _ _ _ _ _ Hr).
Qed.

Lemma hangups_does (l : list string) reason r :
  exists r', for_each l (fun ch => hangup ch reason) r = (Ok tt, r')
             /\ does r (map (fun ch => Ari (Hangup ch reason)) l) r'.
Proof.
  revert r. induction l as [|ch l IH]; intros r; [by exists r; split; [|apply does_nil]|].
  destruct (hangup_does ch reason r) as (r1 & H1 & D1), (IH r1) as (r2 & H2 & D2).
  exists r2. split; [by rewrite (for_each_cons_ok ch l (fun ch => hangup ch reason) r r1 H1)|].
  by apply (does_trans _ r1 _ [_]).
Qed.

Lemma bind_on_calls {B} f (k : unit -> M (Router H) B) r :
  (on_calls f ≫= k) r
  = k tt (mkRouter (m_society_id r) (m_app_name r) (f (m_calls r)) (m_leg_to_caller r) (router_env r)).
Proof. done. Qed.
Lemma bind_on_legs {B} f (k : unit -> M (Router H) B) r :
  (on_legs f ≫= k) r
  = k tt (mkRouter (m_society_id r) (m_app_name r) (m_calls r) (f (m_leg_to_caller r)) (router_env r)).
Proof. done. Qed.

(** ** The operations in closed form

    [sets r cs calls legs r']: the calls [cs] were made, and the tables are now
    [calls] and [legs]. *)
Definition sets r (cs : list call) (m : gmap string PendingCall) (legs : gmap string string) r' : Prop :=
  m_society_id r' = m_society_id r /\ m_app_name r' = m_app_name r
  /\ m_calls r' = m /\ m_leg_to_caller r' = legs
  /\ calls (router_env r') = calls (router_env r) ++ cs.

Definition hangups (reason : string) (l : list string) : list call :=
  map (fun ch => Ari (Hangup ch reason)) l.

Lemma leg_start_spec leg caller r :
  exists r', on_leg_start leg caller r = (Ok tt, r') /\
  match m_calls r !! caller with
  | None => sets r [Ari (Hangup leg "normal")] (m_calls r) (m_leg_to_caller r) r'
  | Some call =>
      if str_empty (connected_leg call) then
        sets r ([Ari (Answer caller); Ari (CreateBridge (bridge_id caller) "mixing");
                 Ari (AddChannel (bridge_id caller) caller); Ari (AddChannel (bridge_id caller) leg)]
                ++ hangups "answered" (elements (ringing_legs call ∖ {[leg]})))
          (<[caller := mkPendingCall (dialed_ext call) ∅ leg]> (m_calls r)) (m_leg_to_caller r) r'
      else if str_eqb (connected_leg call) leg then r' = r
      else sets r [Ari (Hangup leg "answered")]
             (<[caller := mkPendingCall (dialed_ext call) (ringing_legs call ∖ {[leg]})
                            (connected_leg call)]> (m_calls r)) (m_leg_to_caller r) r'
  end.
Proof.
  unfold on_leg_start. rewrite bind_asks.
  destruct (m_calls r !! caller) as [call|] eqn:Hc.
  2:{ destruct (hangup_does leg "normal" r) as (r' & Hr & [h ->]). by eexists. }
  destruct (str_empty (connected_leg call)) eqn:He; cbn [negb].
  - set (losers := ringing_legs call ∖ {[leg]}).
    set (r1 := mkRouter (m_society_id r) (m_app_name r)
                 (<[caller := mkPendingCall (dialed_ext call) losers leg]> (m_calls r))
                 (m_leg_to_caller r) (router_env r)).
    destruct (rest_does (Answer caller) r1) as (x1 & r2 & H2 & D2).
    destruct (rest_does (CreateBridge (bridge_id caller) "mixing") r2) as (x2 & r3 & H3 & D3).
    destruct (rest_does (AddChannel (bridge_id caller) caller) r3) as (x3 & r4 & H4 & D4).
    destruct (rest_does (AddChannel (bridge_id caller) leg) r4) as (x4 & r5 & H5 & D5).
    destruct (hangups_does (elements losers) "answered" r5) as (r6 & H6 & D6).
    pose proof (does_trans _ _ _ _ _ (does_trans _ _ _ _ _ (does_trans _ _ _ _ _
      (does_trans _ _ _ _ _ D2 D3) D4) D5) D6) as [h D].
    eexists. split.
    + unfold mbind, M_bind, on_calls, modify. fold r1. by rewrite H2, H3, H4, H5, H6.
    + rewrite D. unfold sets. cbn. by rewrite insert_insert_eq.
  - destruct (str_eqb (connected_leg call) leg); [by eexists|].
    destruct (hangup_does leg "answered" r) as (r1 & H1 & [h ->]).
    eexists. split; [by rewrite (M_bind_ok _ _ _ _ _ H1)|]. done.
Qed.

(** A destroyed channel: a caller, a connected leg, a ringing leg, or none of ours. *)
Lemma channel_gone_spec ch r :
  exists r', on_channel_gone ch r = (Ok tt, r') /\
  match m_calls r !! ch with
  | Some call =>
      sets r (hangups "normal" (elements (ringing_legs call)
                ++ (if str_empty (connected_leg call) then [] else [connected_leg call])))
        (delete ch (m_calls r)) (m_leg_to_caller r) r'
  | None =>
      match m_leg_to_caller r !! ch with
      | None => r' = r
      | Some caller =>
          match m_calls r !! caller with
          | None => sets r [] (m_calls r) (delete ch (m_leg_to_caller r)) r'
          | Some call =>
              if str_eqb ch (connected_leg call) then
                sets r [Ari (Hangup caller "normal")] (delete caller (m_calls r))
                  (delete ch (m_leg_to_caller r)) r'
              else if str_empty (connected_leg call) && bool_decide (ringing_legs call ∖ {[ch]} = ∅) then
                sets r [Ari (Hangup caller "no_answer")] (delete caller (m_calls r))
                  (delete ch (m_leg_to_caller r)) r'
              else
                sets r [] (<[caller := mkPendingCall (dialed_ext call) (ringing_legs call ∖ {[ch]})
                                        (connected_leg call)]> (m_calls r))
                  (delete ch (m_leg_to_caller r)) r'
          end
      end
  end.
Proof.
  unfold on_channel_gone. rewrite bind_asks.
  destruct (m_calls r !! ch) as [call|] eqn:Hc.
  - destruct (hangups_does (elements (ringing_legs call)) "normal" r) as (r1 & H1 & D1).
    rewrite (M_bind_ok _ _ _ _ _ H1). unfold hangups.
    destruct (str_empty (connected_leg call)) eqn:He.
    + destruct D1 as [h ->]. rewrite app_nil_r. by eexists.
    + destruct (hangup_does (connected_leg call) "normal" r1) as (r2 & H2 & D2).
      destruct (does_trans _ _ _ _ _ D1 D2) as [h ->]. rewrite (M_bind_ok _ _ _ _ _ H2), map_app.
      by eexists.
  - rewrite bind_asks.
    destruct (m_leg_to_caller r !! ch) as [caller|]; [|by eexists].
    rewrite bind_on_legs.
    destruct (m_calls r !! caller) as [call|] eqn:Hcall.
    2:{ eexists. split; [done|]. unfold sets. cbn. by rewrite app_nil_r. }
    destruct (str_eqb ch (connected_leg call)).
    + match goal with |- context [mbind _ (hangup caller "normal") ?v] => set (r1 := v) end.
      destruct (hangup_does caller "normal" r1) as (r2 & H2 & [h ->]).
      rewrite (M_bind_ok _ _ _ _ _ H2). by eexists.
    + rewrite bind_on_calls.
      destruct (_ && _).
      * match goal with |- context [mbind _ (hangup caller "no_answer") ?v] => set (r1 := v) end.
        destruct (hangup_does caller "no_answer" r1) as (r2 & H2 & [h ->]).
        rewrite (M_bind_ok _ _ _ _ _ H2). eexists. split; [done|]. unfold sets. cbn.
        by rewrite delete_insert_eq.
      * eexists. split; [done|]. unfold sets. cbn. by rewrite app_nil_r.
Qed.

(** The legs a fork started, given which originates were accepted. *)
Fixpoint accepted_legs caller (i : nat) (acc : list bool) : list string :=
  match acc with
  | [] => []
  | b :: acc' => (if b : bool then [leg_id caller i] else []) ++ accepted_legs caller (S i) acc'
  end.

Fixpoint originates (app caller caller_id : string) (i : nat) (targets : list string) : list call :=
  match targets with
  | [] => []
  | user :: targets' =>
      Ari (Originate ("PJSIP/" +:+ user) app ("outbound," +:+ caller) (leg_id caller i) caller_id)
      :: originates app caller caller_id (S i) targets'
  end.

Definition own_legs caller (l : list string) (m : gmap string string) : gmap string string :=
  fold_left (fun m leg => <[leg := caller]> m) l m.

Lemma fork_spec caller caller_id i targets ringing r :
  exists acc r', List.length acc = List.length targets
  /\ fork caller caller_id i targets ringing r
     = (Ok (list_to_set (accepted_legs caller i acc) ∪ ringing), r')
  /\ sets r (originates (m_app_name r) caller caller_id i targets) (m_calls r)
       (own_legs caller (accepted_legs caller i acc) (m_leg_to_caller r)) r'.
Proof.
  revert i ringing r. induction targets as [|user targets IH]; intros i ringing r.
  { exists [], r. split; [done|]. split; [cbn; by rewrite union_empty_l_L|].
    unfold sets. cbn. by rewrite app_nil_r. }
  cbn [fork]. rewrite bind_asks.
  destruct (rest_does (Originate ("PJSIP/" +:+ user) (m_app_name r) (kOutboundTag +:+ "," +:+ caller)
              (leg_id caller i) caller_id) r) as (resp & r1 & H1 & [h ->]).
  rewrite (M_bind_ok _ _ _ _ _ H1). destruct (http_ok resp).
  - rewrite bind_on_legs. cbn.
    match goal with |- context [fork _ _ _ _ _ ?v] =>
      destruct (IH (S i) ({[leg_id caller i]} ∪ ringing) v) as (acc & r2 & Hl & Hf & Hs) end.
    exists (true :: acc), r2. split; [cbn; by rewrite Hl|]. split.
    + rewrite Hf. cbn [accepted_legs app list_to_set]. do 2 f_equal.
      by rewrite (assoc_L (∪)), (comm_L (∪) (list_to_set _) {[_]}).
    + destruct Hs as (S1 & S2 & S3 & S4 & S5). unfold sets. cbn in *.
      rewrite S5, <- app_assoc. by repeat split.
  - match goal with |- context [fork _ _ _ _ _ ?v] =>
      destruct (IH (S i) ringing v) as (acc & r2 & Hl & Hf & Hs) end.
    exists (false :: acc), r2. split; [cbn; by rewrite Hl|]. split; [done|].
    destruct Hs as (S1 & S2 & S3 & S4 & S5). unfold sets. cbn in *.
    rewrite S5, <- app_assoc. by repeat split.
Qed.

(** The database and the JSON printer answer. *)
Definition env_total : Prop :=
  (forall c h, (env_query c h).1 <> Throw OutOfFuel) /\ (forall j, json_dump j <> Throw OutOfFuel).

Lemma resolve_spec ext r :
  exists qs r', does r qs r' /\ (forall c, c ∈ qs -> exists q, c = Db q)
  /\ match resolve_targets ext r with
     | (Ok ts, r2) => r2 = r'
     | (Throw e, r2) => r2 = r' /\ e = OutOfFuel /\ ~ env_total
     end.
Proof.
  unfold resolve_targets. destruct (str_empty ext).
  { exists [], r. split; [apply does_nil|]. split; [|done]. intros c Hc. by apply elem_of_nil in Hc. }
  unfold asks, mbind at 1, M_bind at 1, try_catch, lift. unfold mbind at 1, M_bind at 1.
  destruct (json_dump _) as [f|e] eqn:Hj.
  2:{ exists [], r. split; [apply does_nil|].
      split; [intros c Hc; by apply elem_of_nil in Hc|].
      destruct e; try done. split; [done|]. split; [done|]. intros [_ Hd]. exact (Hd _ Hj). }
  unfold db, in_env, env_call_db, mbind, M_bind. cbn [get_env router_has_env put_env].
  pose (q := GetDocuments "subscribers" f "{}").
  destruct (env_query (GetDocuments "subscribers" f "{}") (host (router_env r))) as [res h] eqn:Hq.
  exists [Db q]. eexists. split; [by exists h|].
  split; [intros c Hc; apply list_elem_of_singleton in Hc as ->; by eexists|].
  destruct res as [rows|e]; [done|]. destruct e; try done. split; [done|]. split; [done|].
  intros [Hd _]. apply (Hd (GetDocuments "subscribers" f "{}") (host (router_env r))). by rewrite Hq.
Qed.

(** A caller that starts: ignored when known, released when nothing rings, else its
    call is the set of legs whose originate was accepted. *)
Lemma caller_start_spec caller caller_id ext r :
  env_total ->
  exists r', on_caller_start caller caller_id ext r = (Ok tt, r') /\
  if bool_decide (is_Some (m_calls r !! caller)) then r' = r else
  exists qs ts acc, (forall c, c ∈ qs -> exists q, c = Db q)
  /\ (resolve_targets ext r).1 = Ok ts /\ List.length acc = List.length ts
  /\ let legs := accepted_legs caller 0 acc in
     let os := originates (m_app_name r) caller caller_id 0 ts in
     if bool_decide (legs = []) then
       sets r (qs ++ os ++ [Ari (Hangup caller "congestion")]) (m_calls r) (m_leg_to_caller r) r'
     else
       sets r (qs ++ os) (<[caller := mkPendingCall ext (list_to_set legs) ""]> (m_calls r))
         (own_legs caller legs (m_leg_to_caller r)) r'.
Proof.
  intros Htot. unfold on_caller_start. rewrite bind_asks.
  case_bool_decide as Hknown; [by eexists|].
  destruct (resolve_spec ext r) as (qs & r1 & [h Hr1] & Hqs & Hres).
  unfold mbind at 1, M_bind at 1.
  destruct (resolve_targets ext r) as [[ts|e] r1'] eqn:Hrt; [|by destruct Hres as (_ & _ & ?)].
  subst r1' r1. set (r1 := mkRouter _ _ _ _ _).
  case_bool_decide as Hts.
  - destruct (hangup_does caller "congestion" r1) as (r2 & H2 & [h2 ->]).
    eexists. split; [done|]. exists qs, ts, []. subst ts. split; [done|]. split; [done|].
    split; [done|]. cbn. unfold sets. cbn. by rewrite app_assoc.
  - destruct (fork_spec caller caller_id 0 ts ∅ r1) as (acc & r2 & Hl & Hf & Hs).
    rewrite (M_bind_ok _ _ _ _ _ Hf).
    destruct Hs as (S1 & S2 & S3 & S4 & S5).
    assert (Hset : list_to_set (accepted_legs caller 0 acc) ∪ ∅ = (∅ : gset string)
                   <-> accepted_legs caller 0 acc = []).
    { rewrite union_empty_r_L. split; [|by intros ->].
      destruct (accepted_legs caller 0 acc) as [|x l]; [done|]. cbn. intros He. exfalso. set_solver. }
    case_bool_decide as Hempty.
    + apply Hset in Hempty. destruct (hangup_does caller "congestion" r2) as (r3 & H3 & [h3 ->]).
      eexists. split; [done|]. exists qs, ts, acc. repeat split; try done. cbn.
      rewrite bool_decide_eq_true_2 by done. rewrite Hempty in S4. unfold sets. cbn in *.
      rewrite S5. repeat split; try done. by rewrite !app_assoc.
    + eexists. split; [done|]. exists qs, ts, acc. repeat split; try done. cbn.
      rewrite bool_decide_eq_false_2 by (by rewrite <- Hset). unfold sets. cbn in *.
      rewrite S3, S4, S5, union_empty_r_L. repeat split; try done. by rewrite !app_assoc.
Qed.

(** ** The invariant *)

(** What is known of a leg whose channel is not yet destroyed: it rings, it is
    connected, or it was told to hang up. *)
Definition accounted r leg caller : Prop :=
  (exists call, m_calls r !! caller = Some call
                /\ (leg ∈ ringing_legs call \/ leg = connected_leg call))
  \/ exists reason, Ari (Hangup leg reason) ∈ calls (router_env r).

Record router_inv r : Prop := {
  inv_ringing c call : m_calls r !! c = Some call -> connected_leg call = "" ->
                       ringing_legs call <> ∅;
  inv_connected c call : m_calls r !! c = Some call -> connected_leg call <> "" ->
                         ringing_legs call = ∅;
  inv_leg_ids leg c : m_leg_to_caller r !! leg = Some c -> exists i, leg = leg_id c i;
  inv_indexed c call leg : m_calls r !! c = Some call -> leg ∈ ringing_legs call ->
                           m_leg_to_caller r !! leg = Some c;
  inv_accounted leg c : m_leg_to_caller r !! leg = Some c -> accounted r leg c;
}.

Lemma inv_new_router society app e : router_inv (new_router society app e).
Proof. by constructor; intros *; cbn; rewrite lookup_empty. Qed.

Lemma leg_id_nonempty c i : leg_id c i <> "".
Proof. unfold leg_id. by destruct c. Qed.

Lemma own_legs_lookup caller l m leg :
  own_legs caller l m !! leg = if bool_decide (leg ∈ l) then Some caller else m !! leg.
Proof.
  unfold own_legs. revert m. induction l as [|x l IH]; intros m; [done|]. cbn [fold_left].
  rewrite IH. destruct (decide (leg ∈ l)).
  - rewrite !bool_decide_eq_true_2; [done|by right|done].
  - rewrite (bool_decide_eq_false_2 (leg ∈ l)) by done.
    destruct (decide (leg = x)) as [->|Hne].
    + rewrite lookup_insert_eq, bool_decide_eq_true_2 by left. done.
    + rewrite lookup_insert_ne, bool_decide_eq_false_2 by (rewrite ?elem_of_cons; intuition congruence).
      done.
Qed.

Lemma accepted_legs_ids caller i acc leg :
  leg ∈ accepted_legs caller i acc -> exists j, leg = leg_id caller j.
Proof.
  revert i. induction acc as [|b acc IH]; intros i; cbn; [by intros ?%elem_of_nil|].
  rewrite elem_of_app. intros [Hl|Hl]; [|by apply IH in Hl].
  destruct b; [apply list_elem_of_singleton in Hl; eauto|by apply elem_of_nil in Hl].
Qed.

Lemma accounted_app r r' leg c cs :
  calls (router_env r') = calls (router_env r) ++ cs ->
  (exists reason, Ari (Hangup leg reason) ∈ calls (router_env r)) -> accounted r' leg c.
Proof. intros He [x Hx]. right. exists x. rewrite He. apply elem_of_app. by left. Qed.

Lemma elem_of_hangups leg reason l : leg ∈ l -> Ari (Hangup leg reason) ∈ hangups reason l.
Proof. intros Hl. unfold hangups. apply list_elem_of_fmap. eauto. Qed.

Lemma inv_caller_start caller caller_id ext r :
  env_total -> router_inv r -> router_inv (on_caller_start caller caller_id ext r).2.
Proof.
  intros Htot Hi. destruct (caller_start_spec caller caller_id ext r Htot) as (r' & -> & Hs). cbn [snd].
  case_bool_decide as Hk; [by subst|].
  destruct Hs as (qs & ts & acc & _ & _ & _ & Hs). cbn zeta in Hs.
  assert (Hnew : m_calls r !! caller = None) by (by apply eq_None_not_Some).
  destruct Hi as [I1 I2 I3 I4 I5].
  case_bool_decide as Hl; destruct Hs as (_ & _ & Hc & Hg & Ho).
  - constructor; rewrite ?Hc, ?Hg; try done. intros leg c Hleg.
    destruct (I5 leg c Hleg) as [(call & Hcall & Hin)|Hx]; [left; exists call; by rewrite Hc|].
    by apply (accounted_app r r' leg c _ Ho).
  - set (legs := accepted_legs caller 0 acc) in *.
    constructor; rewrite ?Hc, ?Hg.
    + intros c call. rewrite lookup_insert_Some. intros [[<- <-]|[_ Hcall]]; [|by apply (I1 c)].
      cbn. intros _. destruct legs as [|x l]; [done|]. cbn. set_solver.
    + intros c call. rewrite lookup_insert_Some. intros [[<- <-]|[_ Hcall]]; [done|by apply (I2 c)].
    + intros leg c. rewrite own_legs_lookup. case_bool_decide as Hin; [|apply I3].
      intros [= <-]. by apply accepted_legs_ids in Hin.
    + intros c call leg. rewrite lookup_insert_Some, own_legs_lookup.
      intros [[<- <-]|[Hne Hcall]] Hin.
      * cbn in Hin. apply elem_of_list_to_set in Hin. by rewrite bool_decide_eq_true_2.
      * pose proof (I4 c call leg Hcall Hin) as Hleg. case_bool_decide as Hin'; [|done].
        apply accepted_legs_ids in Hin' as [j ->]. destruct (I3 _ _ Hleg) as [i Hid].
        by apply leg_id_inj in Hid as [-> _].
    + intros leg c. rewrite own_legs_lookup. case_bool_decide as Hin.
      * intros [= <-]. left. rewrite Hc. eexists. split; [apply lookup_insert_eq|]. left.
        cbn. by apply elem_of_list_to_set.
      * intros Hleg. destruct (I5 leg c Hleg) as [(call & Hcall & Hor)|Hx].
        -- left. exists call. rewrite Hc, lookup_insert_ne by congruence. done.
        -- by apply (accounted_app r r' leg c _ Ho).
Qed.

Lemma inv_leg_start leg caller r :
  leg <> "" -> router_inv r -> router_inv (on_leg_start leg caller r).2.
Proof.
  intros Hne Hi. destruct (leg_start_spec leg caller r) as (r' & -> & Hs). cbn [snd].
  destruct (m_calls r !! caller) as [call|] eqn:Hcall.
  2:{ destruct Hs as (_ & _ & Hc & Hg & Ho). destruct Hi as [I1 I2 I3 I4 I5].
      constructor; rewrite ?Hc, ?Hg; try done. intros l c Hl.
      destruct (I5 l c Hl) as [(call & Hx & Hor)|Hx]; [left; exists call; by rewrite Hc|].
      by apply (accounted_app r r' l c _ Ho). }
  destruct (str_empty (connected_leg call)) eqn:He.
  - apply str_empty_true in He. destruct Hs as (_ & _ & Hc & Hg & Ho). destruct Hi as [I1 I2 I3 I4 I5].
    constructor; rewrite ?Hc, ?Hg; try done.
    + intros c x. rewrite lookup_insert_Some. intros [[<- <-]|[_ Hx]]; [done|by apply (I1 c)].
    + intros c x. rewrite lookup_insert_Some. intros [[<- <-]|[_ Hx]]; [done|by apply (I2 c)].
    + intros c x l. rewrite lookup_insert_Some. intros [[<- <-]|[_ Hx]]; [|by apply (I4 c)].
      cbn. set_solver.
    + intros l c Hl. destruct (I5 l c Hl) as [(x & Hx & Hor)|Hx].
      2:{ by apply (accounted_app r r' l c _ Ho). }
      destruct (decide (c = caller)) as [->|Hcne].
      2:{ left. exists x. by rewrite Hc, lookup_insert_ne by congruence. }
      rewrite Hcall in Hx. injection Hx as <-.
      destruct Hor as [Hin|Hx].
      * destruct (decide (l = leg)) as [->|Hlne].
        -- left. rewrite Hc. eexists. split; [apply lookup_insert_eq|]. by right.
        -- right. exists "answered". rewrite Ho. do 2 (apply elem_of_app; right).
           apply elem_of_hangups, elem_of_elements. set_solver.
      * destruct (I3 _ _ Hl) as [i Hid]. rewrite Hx, He in Hid.
        by destruct (leg_id_nonempty caller i).
  - apply str_empty_false in He. destruct (str_eqb (connected_leg call) leg); [by subst|].
    destruct Hs as (_ & _ & Hc & Hg & Ho). destruct Hi as [I1 I2 I3 I4 I5].
    pose proof (I2 _ _ Hcall He) as Hnone.
    constructor; rewrite ?Hc, ?Hg; try done.
    + intros c x. rewrite lookup_insert_Some. intros [[<- <-]|[_ Hx]]; [done|by apply (I1 c)].
    + intros c x. rewrite lookup_insert_Some. intros [[<- <-]|[_ Hx]]; [|by apply (I2 c)].
      cbn. rewrite Hnone. set_solver.
    + intros c x l. rewrite lookup_insert_Some. intros [[<- <-]|[_ Hx]]; [|by apply (I4 c)].
      cbn. rewrite Hnone. set_solver.
    + intros l c Hl. destruct (I5 l c Hl) as [(x & Hx & Hor)|Hx].
      2:{ by apply (accounted_app r r' l c _ Ho). }
      left. destruct (decide (c = caller)) as [->|Hcne].
      2:{ exists x. by rewrite Hc, lookup_insert_ne by congruence. }
      rewrite Hcall in Hx. injection Hx as <-. rewrite Hc. eexists.
      split; [apply lookup_insert_eq|]. cbn. rewrite Hnone in *. set_solver.
Qed.

(** A call is removed, and the index of its legs may shrink. *)
Lemma inv_call_deleted c0 call cs idx r r' :
  router_inv r -> m_calls r !! c0 = Some call ->
  m_calls r' = delete c0 (m_calls r) -> m_leg_to_caller r' = idx -> calls (router_env r') = calls (router_env r) ++ cs ->
  (forall l c, idx !! l = Some c -> m_leg_to_caller r !! l = Some c) ->
  (forall c x l, c <> c0 -> m_calls r !! c = Some x -> l ∈ ringing_legs x -> idx !! l = Some c) ->
  (forall l, idx !! l = Some c0 -> l ∈ ringing_legs call \/ l = connected_leg call -> accounted r' l c0) ->
  router_inv r'.
Proof.
  intros [I1 I2 I3 I4 I5] Hcall Hc Hg Ho Hsub Hidx Hown. constructor; rewrite ?Hc, ?Hg.
  - intros c x. rewrite lookup_delete_Some. intros [_ Hx]. by apply (I1 c).
  - intros c x. rewrite lookup_delete_Some. intros [_ Hx]. by apply (I2 c).
  - intros l c Hl. by apply I3, Hsub.
  - intros c x l. rewrite lookup_delete_Some. intros [Hne Hx] Hin. by apply (Hidx c x).
  - intros l c Hl. destruct (I5 l c (Hsub _ _ Hl)) as [(x & Hx & Hor)|Hx]; [|by apply (accounted_app r r' l c _ Ho)].
    destruct (decide (c = c0)) as [->|Hne]; [|left; exists x; by rewrite Hc, lookup_delete_ne by congruence].
    rewrite Hcall in Hx. injection Hx as <-. by apply Hown.
Qed.
(** The index without a leg: of its own call only. *)
Lemma index_shrinks ch (idx : gmap string string) l c : delete ch idx !! l = Some c -> idx !! l = Some c.
Proof. by rewrite lookup_delete_Some; intros [_ ?]. Qed.
Lemma index_of_others ch caller r c x l :
  router_inv r -> m_leg_to_caller r !! ch = Some caller -> c <> caller -> m_calls r !! c = Some x -> l ∈ ringing_legs x ->
  delete ch (m_leg_to_caller r) !! l = Some c.
Proof.
  intros Hi Hleg Hne Hx Hin. pose proof (inv_indexed r Hi _ _ _ Hx Hin) as Hl.
  rewrite lookup_delete_ne; [done|]. intros <-. congruence.
Qed.

Lemma inv_caller_gone ch call r :
  router_inv r -> m_calls r !! ch = Some call -> router_inv (on_channel_gone ch r).2.
Proof.
  intros Hi Hcall. destruct (channel_gone_spec ch r) as (r' & -> & Hs). cbn [snd]. rewrite Hcall in Hs.
  destruct Hs as (_ & _ & Hc & Hg & Ho). eapply (inv_call_deleted ch call); try done; [by intros; eapply inv_indexed|].
  intros l Hl Hor. right. exists "normal". rewrite Ho. apply elem_of_app. right. apply elem_of_hangups, elem_of_app.
  destruct Hor as [Hin|Hx]; [left; by apply elem_of_elements|right]. destruct (inv_leg_ids r Hi _ _ Hl) as [i Hid].
  destruct (str_empty (connected_leg call)) eqn:He; [|rewrite Hx; by apply list_elem_of_singleton].
  apply str_empty_true in He. rewrite Hx, He in Hid. by destruct (leg_id_nonempty ch i).
Qed.
Lemma inv_leg_gone ch caller r :
  router_inv r -> m_calls r !! ch = None -> m_leg_to_caller r !! ch = Some caller -> router_inv (on_channel_gone ch r).2.
Proof.
  intros Hi Hcall Hleg. destruct (channel_gone_spec ch r) as (r' & -> & Hs). cbn [snd]. rewrite Hcall, Hleg in Hs.
  pose proof (index_of_others ch caller r) as Hoth. pose proof Hi as [I1 I2 I3 I4 I5].
  destruct (m_calls r !! caller) as [call|] eqn:Hcc; [destruct (str_eqb ch (connected_leg call)) eqn:Heq; [|destruct (_ && _) eqn:Hlast]|];
    destruct Hs as (_ & _ & Hc & Hg & Ho).
  - apply str_eqb_eq in Heq. eapply (inv_call_deleted caller call); try done; [apply index_shrinks|by intros; eapply Hoth|].
    intros l [Hlne Hl]%lookup_delete_Some [Hin|Hl']; [|congruence]. rewrite (I2 _ _ Hcc) in Hin; [set_solver|].
    rewrite <- Heq. destruct (I3 _ _ Hleg) as [i ->]. apply leg_id_nonempty.
  - apply andb_prop in Hlast as [He Hem]. apply str_empty_true in He. apply bool_decide_eq_true in Hem.
    eapply (inv_call_deleted caller call); try done; [apply index_shrinks|by intros; eapply Hoth|].
    intros l [Hlne Hl]%lookup_delete_Some [Hin|Hl']; [set_solver|]. destruct (I3 _ _ Hl) as [i Hid].
    rewrite Hl', He in Hid. by destruct (leg_id_nonempty caller i).
  - rewrite app_nil_r in Ho. constructor; rewrite ?Hc, ?Hg.
    + intros c x. rewrite lookup_insert_Some. intros [[<- <-]|[_ Hx]]; [|by apply (I1 c)].
      cbn. intros He. rewrite He in Hlast. cbn in Hlast. by apply bool_decide_eq_false in Hlast.
    + intros c x. rewrite lookup_insert_Some. intros [[<- <-]|[_ Hx]]; [|by apply (I2 c)].
      cbn. intros He. rewrite (I2 _ _ Hcc He). set_solver.
    + intros l c Hl%index_shrinks. by apply I3.
    + intros c x l. rewrite lookup_insert_Some. intros [[<- <-]|[Hne Hx]] Hin; [|by apply (Hoth c x)].
      cbn in Hin. rewrite lookup_delete_ne by set_solver. apply (I4 _ _ _ Hcc). set_solver.
    + intros l c [Hlne Hl]%lookup_delete_Some. destruct (I5 l c Hl) as [(x & Hx & Hor)|Hx]; [left|right; by rewrite Ho].
      destruct (decide (c = caller)) as [->|Hcne]; [|exists x; by rewrite Hc, lookup_insert_ne by congruence].
      rewrite Hcc in Hx. injection Hx as <-. rewrite Hc. eexists. split; [apply lookup_insert_eq|]. cbn. set_solver.
  - rewrite app_nil_r in Ho. constructor; rewrite ?Hc, ?Hg; try done.
    + intros l c Hl%index_shrinks. by apply I3.
    + intros c x l Hx Hin. apply (Hoth c x); try done. intros ->. congruence.
    + intros l c Hl%index_shrinks. unfold accounted. rewrite Hc, Ho. by apply I5.
Qed.
Lemma inv_channel_gone ch r : router_inv r -> router_inv (on_channel_gone ch r).2.
Proof.
  intros Hi. destruct (m_calls r !! ch) as [call|] eqn:Hcall; [by eapply inv_caller_gone|].
  destruct (m_leg_to_caller r !! ch) as [caller|] eqn:Hleg; [by eapply inv_leg_gone|].
  destruct (channel_gone_spec ch r) as (r' & -> & Hs). rewrite Hcall, Hleg in Hs. by subst.
Qed.

(** ** Runs *)

Inductive event :=
  | CallerStart (caller caller_id ext : string)
  | LegStart (leg caller : string)
  | ChannelGone (ch : string).

Definition handle (ev : event) : M (Router H) unit :=
  match ev with
  | CallerStart c i e => on_caller_start c i e
  | LegStart l c => on_leg_start l c
  | ChannelGone ch => on_channel_gone ch
  end.

(** Channel ids are not empty. *)
Definition event_ok (ev : event) : Prop := match ev with LegStart l _ => l <> "" | _ => True end.

Lemma handle_total ev r : env_total -> exists r', handle ev r = (Ok tt, r').
Proof.
  intros Ht. destruct ev as [c i e|l c|ch]; cbn [handle].
  - destruct (caller_start_spec c i e r Ht) as (r' & Hr & _). eauto.
  - destruct (leg_start_spec l c r) as (r' & Hr & _). eauto.
  - destruct (channel_gone_spec ch r) as (r' & Hr & _). eauto.
Qed.

Lemma inv_handle ev r : env_total -> event_ok ev -> router_inv r -> router_inv (handle ev r).2.
Proof.
  intros Ht Hok Hi. destruct ev as [c i e|l c|ch]; cbn [handle].
  - by apply inv_caller_start.
  - by apply inv_leg_start.
  - by apply inv_channel_gone.
Qed.
End Proofs.

(** * Properties *)

Section Properties.
Context {H : Type} `{!AgentEnv H} `{!JsonLib}.
Implicit Types (r : Router H) (caller leg : string).

(** C5. The forked-ring state machine is total and keeps its invariant: over any
    sequence of caller, leg and hang-up events, a call has ringing legs exactly while
    nobody answered, and every leg whose channel still exists rings in its call, is
    the connected leg of its call, or has been told to hang up.  No leg is orphaned. *)
Theorem no_orphan_legs evs r :
  env_total -> Forall event_ok evs -> router_inv r ->
  exists r', for_each evs handle r = (Ok tt, r') /\ router_inv r'
  /\ (forall c call, m_calls r' !! c = Some call ->
        (connected_leg call = "" <-> ringing_legs call <> ∅))
  /\ (forall leg c, m_leg_to_caller r' !! leg = Some c -> accounted r' leg c).
Proof.
  intros Ht Hok. revert r. induction Hok as [|ev evs Hev Hok IH]; intros r Hi.
  - exists r. split; [done|]. split; [done|]. destruct Hi as [I1 I2 I3 I4 I5]. split; [|done].
    intros c call Hc. split; [by apply (I1 c)|]. intros Hne.
    destruct (decide (connected_leg call = "")); [done|]. by rewrite (I2 c call) in Hne.
  - destruct (handle_total ev r Ht) as [r1 H1].
    pose proof (inv_handle ev r Ht Hev Hi) as Hi1. rewrite H1 in Hi1.
    destruct (IH r1 Hi1) as (r' & Hr & Hrest). exists r'. split; [|done].
    by rewrite (for_each_cons_ok _ _ _ _ _ H1).
Qed.

(** First answer wins.  The first leg of a ringing call to answer gets the caller
    answered and both put into one bridge, in this order, and every other leg still
    ringing is hung up; any later leg is hung up and changes nothing else; a repeated
    event for the winner does nothing; a leg without a call is hung up. *)
Theorem first_answer_wins leg caller r :
  router_inv r ->
  exists r', on_leg_start leg caller r = (Ok tt, r') /\
  match m_calls r !! caller with
  | None => calls (router_env r') = calls (router_env r) ++ [Ari (Hangup leg "normal")]
            /\ m_calls r' = m_calls r
  | Some call =>
      if str_empty (connected_leg call) then
        calls (router_env r') = calls (router_env r)
          ++ [Ari (Answer caller); Ari (CreateBridge (bridge_id caller) "mixing");
              Ari (AddChannel (bridge_id caller) caller); Ari (AddChannel (bridge_id caller) leg)]
          ++ hangups "answered" (elements (ringing_legs call ∖ {[leg]}))
        /\ m_calls r' = <[caller := mkPendingCall (dialed_ext call) ∅ leg]> (m_calls r)
      else if str_eqb (connected_leg call) leg then r' = r
      else calls (router_env r') = calls (router_env r) ++ [Ari (Hangup leg "answered")]
           /\ m_calls r' = m_calls r
  end.
Proof.
  intros Hi. destruct (leg_start_spec leg caller r) as (r' & Hr & Hs). exists r'. split; [done|].
  destruct (m_calls r !! caller) as [call|] eqn:Hc.
  - destruct (str_empty (connected_leg call)) eqn:He; [by destruct Hs as (_ & _ & ? & _ & ?)|].
    destruct (str_eqb _ _); [done|]. destruct Hs as (_ & _ & Hm & _ & Ho). split; [done|].
    rewrite Hm. apply insert_id. rewrite Hc. f_equal. apply str_empty_false in He.
    pose proof (inv_connected r Hi _ _ Hc He) as Hnone. destruct call as [d l k]. cbn in *.
    subst l. f_equal. set_solver.
  - by destruct Hs as (_ & _ & ? & _ & ?).
Qed.

(** A call ends cleanly.  When the caller's channel goes, every leg still attached
    is hung up once and the call is forgotten; when the connected leg goes the caller
    is released; when the last ringing leg dies unanswered the caller is released with
    no_answer; a call with other legs ringing goes on. *)
Theorem channel_gone_releases ch r :
  exists r', on_channel_gone ch r = (Ok tt, r') /\
  match m_calls r !! ch, m_leg_to_caller r !! ch with
  | Some call, _ =>
      calls (router_env r') = calls (router_env r)
        ++ hangups "normal" (elements (ringing_legs call)
             ++ (if str_empty (connected_leg call) then [] else [connected_leg call]))
      /\ m_calls r' = delete ch (m_calls r)
  | None, None => r' = r
  | None, Some caller =>
      m_leg_to_caller r' = delete ch (m_leg_to_caller r) /\
      match m_calls r !! caller with
      | None => calls (router_env r') = calls (router_env r) /\ m_calls r' = m_calls r
      | Some call =>
          if str_eqb ch (connected_leg call) then
            calls (router_env r') = calls (router_env r) ++ [Ari (Hangup caller "normal")]
            /\ m_calls r' = delete caller (m_calls r)
          else if str_empty (connected_leg call) && bool_decide (ringing_legs call ∖ {[ch]} = ∅) then
            calls (router_env r') = calls (router_env r) ++ [Ari (Hangup caller "no_answer")]
            /\ m_calls r' = delete caller (m_calls r)
          else calls (router_env r') = calls (router_env r)
               /\ dom (m_calls r') = dom (m_calls r)
      end
  end.
Proof.
  destruct (channel_gone_spec ch r) as (r' & Hr & Hs). exists r'. split; [done|].
  destruct (m_calls r !! ch) as [call|]; [by destruct Hs as (_ & _ & ? & _ & ?)|].
  destruct (m_leg_to_caller r !! ch) as [caller|]; [|done].
  destruct (m_calls r !! caller) as [call|] eqn:Hc.
  - destruct (str_eqb _ _); [by destruct Hs as (_ & _ & ? & ? & ?)|].
    destruct (_ && _); destruct Hs as (_ & _ & Hm & Hl & Ho); [done|].
    split; [done|]. rewrite app_nil_r in Ho. split; [done|]. rewrite Hm, dom_insert_L.
    assert (caller ∈ dom (m_calls r)) by (apply elem_of_dom; eauto). set_solver.
  - destruct Hs as (_ & _ & ? & ? & Ho). by rewrite app_nil_r in Ho.
Qed.

(** A caller that is not yet routed is looked up once and then either released
    with congestion, because nobody is to be rung or every originate failed, or rung:
    one originate per target, in order, with channel ids of its own, and the call's
    ringing legs are exactly the ones whose originate was accepted.  A caller already
    routed is left alone. *)
Theorem caller_start_forks caller caller_id ext r :
  env_total ->
  exists r', on_caller_start caller caller_id ext r = (Ok tt, r') /\
  if bool_decide (is_Some (m_calls r !! caller)) then r' = r else
  exists qs ts acc, (forall c, c ∈ qs -> exists q, c = Db q)
  /\ (resolve_targets ext r).1 = Ok ts /\ List.length acc = List.length ts
  /\ let legs := accepted_legs caller 0 acc in
     let os := originates (m_app_name r) caller caller_id 0 ts in
     calls (router_env r') = calls (router_env r) ++ qs ++ os
       ++ (if bool_decide (legs = []) then [Ari (Hangup caller "congestion")] else [])
     /\ m_calls r' = (if bool_decide (legs = []) then m_calls r
                      else <[caller := mkPendingCall ext (list_to_set legs) ""]> (m_calls r)).
Proof.
  intros Ht. destruct (caller_start_spec caller caller_id ext r Ht) as (r' & Hr & Hs).
  exists r'. split; [done|]. case_bool_decide; [done|].
  destruct Hs as (qs & ts & acc & Hq & Hts & Hl & Hs). exists qs, ts, acc.
  split; [done|]. split; [done|]. split; [done|]. cbn zeta in *.
  case_bool_decide; destruct Hs as (_ & _ & Hm & _ & Ho); [done|]. by rewrite app_nil_r.
Qed.

(** Only active subscribers of the society are rung: the query is scoped to the
    society and to the flat (or to the guards, for extension 0); from its answer
    exactly the rows with a non-empty [sipUsername] that are not marked otherwise than
    active are targets, in row order; and an empty extension, a database failure or an
    unusable answer gives no target. *)
Theorem targets_are_active ext rows filter r :
  ext <> "" ->
  json_dump (target_filter (m_society_id r) ext) = Ok filter ->
  (env_query (GetDocuments "subscribers" filter "{}") (host (router_env r))).1 = rows ->
  rows <> Throw OutOfFuel ->
  (resolve_targets ext r).1 =
    Ok match rows with
       | Throw _ => []
       | Ok s => if str_empty s then [] else
                 match json_parse s with Ok (JArr arr) => omap row_target arr | _ => [] end
       end
  /\ (forall row u, row_target row = Some u <->
       is_object row = true /\ u <> "" /\ member_str "sipUsername" row = Some u
       /\ (member_str "status" row = None \/ member_str "status" row = Some "active")).
Proof.
  intros He Hj Hq Hne. split.
  - unfold resolve_targets. apply str_empty_false in He. rewrite He, bind_asks.
    unfold try_catch. rewrite Hj, bind_lift_ok. unfold db, in_env, env_call_db.
    unfold mbind, M_bind. cbn [get_env router_has_env put_env]. destruct (env_query _ _) as [res h].
    cbn [fst] in Hq. subst res. destruct rows as [s|e]; [done|]. by destruct e.
  - intros row u. unfold row_target. destruct (is_object row); cbn [negb]; [|naive_solver].
    destruct (member_str "status" row) as [st|] eqn:Hst.
    + destruct (str_eqb st "active") eqn:Hs; cbn [negb].
      * apply str_eqb_eq in Hs as ->.
        destruct (member_str "sipUsername" row) as [v|]; [|naive_solver].
        destruct (str_empty v) eqn:Hv; [apply str_empty_true in Hv|apply str_empty_false in Hv];
          naive_solver.
      * apply str_eqb_neq in Hs. naive_solver.
    + destruct (member_str "sipUsername" row) as [v|]; [|naive_solver].
      destruct (str_empty v) eqn:Hv; [apply str_empty_true in Hv|apply str_empty_false in Hv];
        naive_solver.
Qed.
End Properties.

(** ** The theorems at work *)

Section Witnesses.
Definition ex_row (user st : string) : json :=
  mk_obj [("sipUsername", JStr user); ("status", JStr st); ("flatNumber", JStr "A-1")].
Definition ex_rows : json := JArr [ex_row "alice" "active"; ex_row "bob" "disabled"; ex_row "carol" "active"].

#[local] Instance ex_json : JsonLib := table_json [ex_rows].
#[local] Instance ex_env : AgentEnv Z := const_env (mkResponse 200 "") (Ok (compact_dump ex_rows)).

Lemma ex_total : env_total (H := Z).
Proof. by split. Qed.

Definition ex_router : Router Z := new_router "soc1" "pbx" (mkEnv 0 []).
Definition ex_ringing : Router Z := (on_caller_start "c1" "A-9" "A-1" ex_router).2.

Lemma no_orphan_legs_witness :
  let evs := [CallerStart "c1" "A-9" "A-1"; LegStart "c1-leg-1" "c1"; ChannelGone "c1-leg-0"] in
  router_inv (for_each evs handle ex_router).2
  /\ calls (router_env (for_each evs handle ex_router).2)
     = calls (router_env ex_ringing)
       ++ [Ari (Answer "c1"); Ari (CreateBridge "c1-bridge" "mixing");
           Ari (AddChannel "c1-bridge" "c1"); Ari (AddChannel "c1-bridge" "c1-leg-1");
           Ari (Hangup "c1-leg-0" "answered")].
Proof.
  intros evs. destruct (no_orphan_legs evs ex_router) as (r' & Hr & Hi & _).
  - apply ex_total.
  - by repeat constructor.
  - apply inv_new_router.
  - rewrite Hr. split; [done|]. assert (r' = (for_each evs handle ex_router).2) as -> by (by rewrite Hr).
    by vm_compute.
Defined.

Lemma first_answer_wins_witness :
  m_calls (on_leg_start "c1-leg-0" "c1" ex_ringing).2 !! "c1"
  = Some (mkPendingCall "A-1" ∅ "c1-leg-0").
Proof.
  destruct (first_answer_wins "c1-leg-0" "c1" ex_ringing) as (r' & -> & Hs).
  - apply inv_caller_start; [apply ex_total|apply inv_new_router].
  - replace (m_calls ex_ringing !! "c1")
      with (Some (mkPendingCall "A-1" {["c1-leg-0"; "c1-leg-1"]} "")) in Hs by (by vm_compute).
    destruct Hs as [_ Hm]. cbn [snd]. rewrite Hm. apply lookup_insert_eq.
Defined.

Lemma caller_start_forks_witness :
  exists r', on_caller_start "c1" "A-9" "A-1" ex_router = (Ok tt, r') /\ active_calls r' = 1%nat.
Proof.
  destruct (caller_start_forks "c1" "A-9" "A-1" ex_router ex_total) as (r' & Hr & _).
  exists r'. split; [done|]. assert (r' = (on_caller_start "c1" "A-9" "A-1" ex_router).2) as ->
    by (by rewrite Hr). by vm_compute.
Defined.

Lemma targets_are_active_witness :
  (resolve_targets "A-1" ex_router).1 = Ok ["alice"; "carol"].
Proof.
  destruct (targets_are_active "A-1" (Ok (compact_dump ex_rows))
              (compact_dump (target_filter "soc1" "A-1")) ex_router) as [-> _]; by vm_compute.
Defined.
End Witnesses.
