(* ===== verification/AriClient.v ===== *)
(** [AriClient] (ari_client.hpp/.cpp): the agent's view of Asterisk's ARI events.
    It admits callers against a cap on active bridges, hands them to [CallRouter],
    joins conference callers to the society's bridge, keeps per-channel and
    per-bridge records, writes one CDR per admitted caller channel, and forwards
    registration changes to the cloud.

    The callbacks main installs only queue a frame; a call to one is an entry of the
    trace, and the two flags say whether it is installed. *)

From S2P Require Import Prelude Json AgentEnv CallRouter.

#[local] Open Scope Z_scope.

Definition kConfExtension : string := "conf".

Record Config := mkConfig {
  society_id : string;
  app_name : string;
  max_concurrent_calls : Z;
  busy_context : string;
  busy_extension : string;
  busy_priority : Z;
}.

(** [Config]'s member initialisers. *)
Definition default_config (society : string) : Config := mkConfig society "pbx" 5 "pbx-busy" "s" 1.

Record ChannelCtx := mkChannelCtx {
  channel_id : string;
  caller_flat : string;
  callee_flat : string;
  cx_bridge_id : string;
  started_at : Z;
  answered_at : Z;
}.

Record BridgeCtx := mkBridgeCtx {
  bx_bridge_id : string;
  bridge_type : string;
  channel_ids : gset string;
}.

Record AriClient (H : Type) := mkAriClient {
  m_cfg : Config;
  m_router : Router H;
  m_active_bridges : Z;
  m_channels : gmap string ChannelCtx;
  m_bridges : gmap string BridgeCtx;
  m_register_state_handler : bool;
  m_asterisk_status_handler : bool;
}.
Arguments mkAriClient {H} _ _ _ _ _ _ _.
Arguments m_cfg {H} _.
Arguments m_router {H} _.
Arguments m_active_bridges {H} _.
Arguments m_channels {H} _.
Arguments m_bridges {H} _.
Arguments m_register_state_handler {H} _.
Arguments m_asterisk_status_handler {H} _.

Definition put_router {H} (r : Router H) (c : AriClient H) : AriClient H :=
  mkAriClient (m_cfg c) r (m_active_bridges c) (m_channels c) (m_bridges c)
    (m_register_state_handler c) (m_asterisk_status_handler c).
Definition put_bridges {H} (n : Z) (m : gmap string BridgeCtx) (c : AriClient H) : AriClient H :=
  mkAriClient (m_cfg c) (m_router c) n (m_channels c) m
    (m_register_state_handler c) (m_asterisk_status_handler c).
Definition put_channels {H} (m : gmap string ChannelCtx) (c : AriClient H) : AriClient H :=
  mkAriClient (m_cfg c) (m_router c) (m_active_bridges c) m (m_bridges c)
    (m_register_state_handler c) (m_asterisk_status_handler c).

(** The environment is the router's: both hold references to the same objects. *)
#[export] Instance ari_has_env {H} : HasEnv (AriClient H) H := {|
  get_env c := router_env (m_router c);
  put_env e c := put_router (put_env e (m_router c)) c;
|}.

(** [std::isxdigit] in the C locale. *)
Definition is_xdigit (c : ascii) : bool :=
  is_digit c || ((97 <=? ord c) && (ord c <=? 102)) || ((65 <=? ord c) && (ord c <=? 70)).

(** "PJSIP/a101-0000001f" names the endpoint a101. *)
Definition sip_user_from_channel_name (name : string) : string :=
  let s := match find_char "/" name with
           | None => name
           | Some slash => str_drop (slash + 1) name
           end in
  if (9 <? String.length s)%nat then
    match str_drop (String.length s - 9) s with
    | String c digits =>
        if Ascii.eqb c "-" && str_forallb is_xdigit digits
        then str_take (String.length s - 9) s else s
    | EmptyString => s
    end
  else s.

(** The cause text of a hang-up, mapped to the CDR's values. *)
Definition hangup_cause (event : json) : string :=
  match member_str "cause_txt" event with
  | None => "normal"
  | Some txt =>
      let lc := to_lower txt in
      if str_contains "busy" lc then "busy"
      else if str_contains "no answer" lc then "missed"
      else if str_contains "normal" lc then "normal"
      else txt
  end.

Section AriClient.
Context {H : Type} `{!AgentEnv H} `{!JsonLib}.

Definition new_ari (cfg : Config) (e : Env H) : AriClient H :=
  mkAriClient cfg (new_router (society_id cfg) (app_name cfg) e) 0 ∅ ∅ false false.

Definition in_router {A} (m : M (Router H) A) : M (AriClient H) A := fun c =>
  let '(r, rt) := m (m_router c) in (r, put_router rt c).

Definition call_ari (c : ari_call) : M (AriClient H) Response := rest c.
Definition ari_hangup (channel reason : string) : M (AriClient H) unit :=
  _ ← call_ari (Hangup channel reason); mret tt.

Definition start : M (AriClient H) unit :=
  cfg ← asks m_cfg;
  _ ← call_ari (Subscribe (app_name cfg) ["channel:"; "bridge:"; "endpoint:"]); mret tt.

(** ** Registration events *)

(** The prefix the two registration handlers share: the PJSIP endpoint named by the
    event, if there is one. *)
Definition event_endpoint (j : json) : result (option (string * json)) :=
  match member_obj "endpoint" j with
  | None => Ok None
  | Some ep =>
      tech ← value_str "technology" "" ep;
      if negb (str_eqb tech "PJSIP") then Ok None else
      resource ← value_str "resource" "" ep;
      if str_empty resource then Ok None else Ok (Some (resource, ep))
  end.

Definition handle_endpoint_state_change (j : json) : M (AriClient H) unit :=
  installed ← asks m_register_state_handler;
  if negb installed then mret tt else
  found ← lift (event_endpoint j);
  match found with
  | None => mret tt
  | Some (resource, ep) =>
      state ← lift (value_str "state" "" ep);
      note (RegisterState resource (str_eqb state "online"))
  end.

Definition contact_online (status : string) : bool :=
  str_eqb status "Created" || str_eqb status "Reachable" || str_eqb status "NonQualified".

Definition handle_contact_status_change (j : json) : M (AriClient H) unit :=
  installed ← asks m_register_state_handler;
  if negb installed then mret tt else
  found ← lift (event_endpoint j);
  match found with
  | None => mret tt
  | Some (resource, _) =>
      match member_obj "contact_info" j with
      | None => mret tt
      | Some info =>
          status ← lift (value_str "contact_status" "" info);
          note (RegisterState resource (contact_online status))
      end
  end.

Definition set_register_state_handler (h : bool) : M (AriClient H) unit :=
  modify (fun c => mkAriClient (m_cfg c) (m_router c) (m_active_bridges c) (m_channels c)
                     (m_bridges c) h (m_asterisk_status_handler c)).
Definition set_asterisk_status_handler (h : bool) : M (AriClient H) unit :=
  modify (fun c => mkAriClient (m_cfg c) (m_router c) (m_active_bridges c) (m_channels c)
                     (m_bridges c) (m_register_state_handler c) h).

(** The body of the endpoint loop of [publish_register_snapshot]. *)
Definition publish_endpoint (ep : json) : M (AriClient H) unit :=
  if negb (is_object ep) then mret tt else
  tech ← lift (value_str "technology" "" ep);
  if negb (str_eqb tech "PJSIP") then mret tt else
  resource ← lift (value_str "resource" "" ep);
  if str_empty resource then mret tt else
  state ← lift (value_str "state" "" ep);
  note (RegisterState resource (str_eqb state "online")).

Definition publish_register_snapshot : M (AriClient H) unit :=
  reg ← asks m_register_state_handler;
  st ← asks m_asterisk_status_handler;
  if negb reg && negb st then mret tt else
  r ← call_ari (ListEndpoints "PJSIP");
  (if st : bool then note (AsteriskStatus (http_ok r)) else mret tt) ;;
  if negb reg then mret tt else
  if negb (http_ok r) then mret tt else
  match json_parse (body r) with
  | Ok (JArr arr) => for_each arr publish_endpoint
  | _ => mret tt
  end.

(** ** Revocation *)

Definition revoke_channel (cid : json) : M (AriClient H) unit :=
  match cid with
  | JStr id => if str_empty id then mret tt else ari_hangup id "normal"
  | _ => mret tt
  end.

Definition revoke_subscriber (sip_username : string) : M (AriClient H) unit :=
  if str_empty sip_username then mret tt else
  r ← call_ari (GetEndpoint "PJSIP" sip_username);
  if negb (http_ok r) then mret tt else
  match json_parse (body r) with
  | Ok ep =>
      match member "channel_ids" ep with
      | Some (JArr ids) => for_each ids revoke_channel
      | _ => mret tt
      end
  | Throw _ => mret tt
  end.

(** ** StasisStart *)

Definition lookup_flat_number (sip_username : string) : M (AriClient H) string :=
  if str_empty sip_username then mret "" else
  cfg ← asks m_cfg;
  doc ← try_catch
    (filter ← lift (json_dump (mk_obj [("societyId", JStr (society_id cfg));
                                       ("sipUsername", JStr sip_username)]));
     db (GetDocument "subscribers" filter "{}"))
    (mret "");
  if str_empty doc then mret "" else
  match json_parse doc with
  | Ok sub => mret (default "" (member_str "flatNumber" sub))
  | Throw _ => mret ""
  end.

Definition over_admission_cap (c : AriClient H) : bool :=
  max_concurrent_calls (m_cfg c) <=? m_active_bridges c.

(** [args[0]] when it is a string. *)
Definition first_arg (j : json) : option string :=
  match member "args" j with
  | Some (JArr (JStr a :: _)) => Some a
  | _ => None
  end.

(** The caller of an originated leg: [args] = ["outbound", caller]. *)
Definition outbound_caller (j : json) : option string :=
  match member "args" j with
  | Some (JArr (JStr tag :: JStr caller :: _)) =>
      if str_eqb tag kOutboundTag then Some caller else None
  | _ => None
  end.

Definition ari_ok (r : Response) : bool := http_ok r.

Definition handle_conference_join (channel : string) : M (AriClient H) unit :=
  cfg ← asks m_cfg;
  let conf_bridge := society_id cfg +:+ "-conf" in
  br ← call_ari (CreateBridge conf_bridge "mixing");
  if negb (ari_ok br || (status br =? 409)) then ari_hangup channel "congestion" else
  add ← call_ari (AddChannel conf_bridge channel);
  if negb (ari_ok add) then ari_hangup channel "congestion" else mret tt.

(** The extension a caller dialed. *)
Definition dialed_extension (j ch : json) : string :=
  let exten := match member_obj "dialplan" ch with
               | Some dp => default "" (member_str "exten" dp)
               | None => ""
               end in
  if str_empty exten then default "" (first_arg j) else exten.

(** The caller's flat: the subscriber's, else the caller-id number. *)
Definition caller_flat_of (flat : string) (ch : json) : string :=
  if str_empty flat then
    match member_obj "caller" ch with
    | Some cl => default flat (member_str "number" cl)
    | None => flat
    end
  else flat.

(** [emplace]: a record that is already there stays. *)
Definition record_channel (channel : string) (cx : ChannelCtx) (c : AriClient H) : AriClient H :=
  if bool_decide (is_Some (m_channels c !! channel)) then c
  else put_channels (<[channel := cx]> (m_channels c)) c.

Definition handle_stasis_start (j : json) : M (AriClient H) unit :=
  match member_obj "channel" j with
  | None => mret tt
  | Some ch =>
      match member_str "id" ch with
      | None => mret tt
      | Some channel =>
          match outbound_caller j with
          | Some caller => in_router (on_leg_start channel caller)
          | None =>
              over ← asks over_admission_cap;
              cfg ← asks m_cfg;
              if over : bool then
                _ ← call_ari (ContinueInDialplan channel (busy_context cfg)
                                (busy_extension cfg) (busy_priority cfg));
                mret tt
              else
              started ← now;
              name ← lift (value_str "name" "" ch);
              flat ← lookup_flat_number (sip_user_from_channel_name name);
              let caller_flat := caller_flat_of flat ch in
              let callee_flat := dialed_extension j ch in
              modify (record_channel channel (mkChannelCtx channel caller_flat callee_flat "" started 0)) ;;
              if str_eqb callee_flat kConfExtension then handle_conference_join channel
              else in_router (on_caller_start channel caller_flat callee_flat)
          end
      end
  end.

(** ** Bridges *)

Definition handle_bridge_created (j : json) : M (AriClient H) unit :=
  match member_obj "bridge" j with
  | None => mret tt
  | Some br =>
      match member_str "id" br with
      | None => mret tt
      | Some id =>
          modify (fun c =>
            if bool_decide (is_Some (m_bridges c !! id)) then c
            else put_bridges (m_active_bridges c + 1)
                   (<[id := mkBridgeCtx id (default "" (member_str "bridge_type" br)) ∅]>
                      (m_bridges c)) c)
      end
  end.

Definition handle_bridge_destroyed (j : json) : M (AriClient H) unit :=
  match member_obj "bridge" j with
  | None => mret tt
  | Some br =>
      match member_str "id" br with
      | None => mret tt
      | Some id =>
          modify (fun c =>
            if bool_decide (is_Some (m_bridges c !! id))
            then put_bridges (if 0 <? m_active_bridges c then m_active_bridges c - 1
                              else m_active_bridges c)
                   (delete id (m_bridges c)) c
            else c)
      end
  end.

Definition enter_bridge (bridge : string) (t : Z) (cx : ChannelCtx) : ChannelCtx :=
  mkChannelCtx (channel_id cx) (caller_flat cx) (callee_flat cx) bridge (started_at cx)
    (if answered_at cx =? 0 then t else answered_at cx).
Definition add_member (channel : string) (bx : BridgeCtx) : BridgeCtx :=
  mkBridgeCtx (bx_bridge_id bx) (bridge_type bx) ({[channel]} ∪ channel_ids bx).

Definition handle_channel_entered_bridge (j : json) : M (AriClient H) unit :=
  match member_obj "channel" j, member_obj "bridge" j with
  | Some ch, Some br =>
      channel ← lift (value_str "id" "" ch);
      bridge ← lift (value_str "id" "" br);
      if str_empty channel || str_empty bridge then mret tt else
      t ← now;
      modify (fun c => put_channels (alter (enter_bridge bridge t) channel (m_channels c)) c) ;;
      modify (fun c => put_bridges (m_active_bridges c)
                         (alter (add_member channel) bridge (m_bridges c)) c)
  | _, _ => mret tt
  end.

(** ** ChannelDestroyed *)

Definition call_type (cx : ChannelCtx) (bridges : gmap string BridgeCtx) : string :=
  if str_empty (cx_bridge_id cx) then "p2p" else
  match bridges !! cx_bridge_id cx with
  | Some bx => if (3 <=? size (channel_ids bx))%nat then "conference" else "p2p"
  | None => "p2p"
  end.

Definition call_duration (cx : ChannelCtx) (ended_at : Z) : Z :=
  if (0 <? answered_at cx) && (answered_at cx <=? ended_at) then ended_at - answered_at cx else 0.

Definition cdr_of (society channel : string) (cx : ChannelCtx) (bridges : gmap string BridgeCtx)
    (ended_at : Z) (event : json) : json :=
  mk_obj ([("societyId", JStr society); ("callId", JStr channel);
           ("fromFlat", JStr (caller_flat cx)); ("toFlat", JStr (callee_flat cx));
           ("startedAt", JInt (started_at cx)); ("answeredAt", JInt (answered_at cx));
           ("endedAt", JInt ended_at); ("durationSec", JInt (call_duration cx ended_at));
           ("type", JStr (call_type cx bridges))]
          ++ (if str_empty (cx_bridge_id cx) then []
              else [("conferenceBridge", JStr (cx_bridge_id cx))])
          ++ [("hangupCause", JStr (hangup_cause event))]).

Definition handle_channel_destroyed (j : json) : M (AriClient H) unit :=
  match member_obj "channel" j with
  | None => mret tt
  | Some ch =>
      channel ← lift (value_str "id" "" ch);
      if str_empty channel then mret tt else
      in_router (on_channel_gone channel) ;;
      channels ← asks m_channels;
      match channels !! channel with
      | None => mret tt
      | Some cx =>
          modify (fun c => put_channels (delete channel (m_channels c)) c) ;;
          bridges ← asks m_bridges;
          cfg ← asks m_cfg;
          ended ← now;
          doc ← lift (json_dump (cdr_of (society_id cfg) channel cx bridges ended j));
          _ ← db (CreateDocument env_db "cdr" doc);
          mret tt
      end
  end.

Definition on_event (json_event : string) : M (AriClient H) unit :=
  match json_parse json_event with
  | Throw _ => mret tt
  | Ok j =>
      match member_str "type" j with
      | None => mret tt
      | Some type =>
          if str_eqb type "StasisStart" then handle_stasis_start j
          else if str_eqb type "BridgeCreated" then handle_bridge_created j
          else if str_eqb type "BridgeDestroyed" then handle_bridge_destroyed j
          else if str_eqb type "ChannelEnteredBridge" then handle_channel_entered_bridge j
          else if str_eqb type "ChannelDestroyed" then handle_channel_destroyed j
          else if str_eqb type "EndpointStateChange" then handle_endpoint_state_change j
          else if str_eqb type "ContactStatusChange" then handle_contact_status_change j
          else mret tt
      end
  end.

Definition active_bridges (c : AriClient H) : Z := m_active_bridges c.
End AriClient.
