(* ===== verification/AriClientSpec.v ===== *)
(** What the ARI event handling guarantees: theorems about [AriClient]. *)

From S2P Require Import Prelude Json AgentEnv CallRouter CallRouterSpec AriClient.

#[local] Open Scope Z_scope.

Section Proofs.
Context {H : Type} `{!AgentEnv H} `{!JsonLib}.
Implicit Types (c : AriClient H).

(** ** The admission counter *)

Lemma size_alter {A} (f : A -> A) k (m : gmap string A) : size (alter f k m) = size m.
Proof. by rewrite <- !size_dom, dom_alter_L. Qed.

Definition counter_ok c : Prop := m_active_bridges c = Z.of_nat (size (m_bridges c)).
Definition keeps_counter c c' : Prop := counter_ok c -> counter_ok c'.
#[local] Instance keeps_counter_preorder : PreOrder keeps_counter.
Proof. split; [by intros c Hc|]. intros c1 c2 c3 H1 H2 Hc. by apply H2, H1. Qed.

Lemma counter_same c c' :
  m_active_bridges c' = m_active_bridges c -> m_bridges c' = m_bridges c -> keeps_counter c c'.
Proof. unfold keeps_counter, counter_ok. by intros -> ->. Qed.

Lemma counter_in_router {A} (m : M (Router H) A) : preserves keeps_counter (in_router m).
Proof. intros c. unfold in_router. destruct (m (m_router c)) as [r rt]. by apply counter_same. Qed.
Lemma counter_in_env {A} (m : M (Env H) A) : preserves keeps_counter (in_env m).
Proof. intros c. unfold in_env. destruct (m (get_env c)) as [r e]. by apply counter_same. Qed.
Lemma counter_now : preserves keeps_counter now.
Proof. intros c. by apply counter_same. Qed.
Lemma counter_call_ari x : preserves keeps_counter (call_ari x).
Proof. apply counter_in_env. Qed.
Lemma counter_note x : preserves keeps_counter (note x).
Proof. apply counter_in_env. Qed.
Lemma counter_db x : preserves keeps_counter (db x).
Proof. apply counter_in_env. Qed.
#[local] Hint Resolve counter_in_router counter_now counter_call_ari counter_note counter_db : preserve.

Lemma counter_handle_stasis_start j : preserves keeps_counter (handle_stasis_start j).
Proof.
  unfold handle_stasis_start, lookup_flat_number, handle_conference_join, ari_hangup.
  solve_preserves.
  all: apply preserves_modify; intros c; unfold record_channel; case_bool_decide; [done|by apply counter_same].
Qed.

Lemma counter_handle_bridge_created j : preserves keeps_counter (handle_bridge_created j).
Proof.
  unfold handle_bridge_created. solve_preserves. apply preserves_modify. intros c.
  case_bool_decide as Hk; [done|]. unfold keeps_counter, counter_ok. cbn. intros ->.
  rewrite map_size_insert_None by (by apply eq_None_not_Some). lia.
Qed.

Lemma counter_handle_bridge_destroyed j : preserves keeps_counter (handle_bridge_destroyed j).
Proof.
  unfold handle_bridge_destroyed. solve_preserves. apply preserves_modify. intros c.
  case_bool_decide as Hk; [|done]. unfold keeps_counter, counter_ok. cbn. intros Hc.
  destruct Hk as [bx Hb]. rewrite map_size_delete, Hb.
  assert (0 < size (m_bridges c))%nat.
  { assert (size (m_bridges c) <> 0%nat) by (apply map_size_non_empty_iff; intros He; by rewrite He in Hb).
    lia. }
  destruct (Z.ltb_spec 0 (m_active_bridges c)); lia.
Qed.

Lemma counter_handle_channel_entered_bridge j : preserves keeps_counter (handle_channel_entered_bridge j).
Proof.
  unfold handle_channel_entered_bridge. solve_preserves.
  all: apply preserves_modify; intros c; unfold keeps_counter, counter_ok; cbn; by rewrite ?size_alter.
Qed.

Lemma counter_handle_channel_destroyed j : preserves keeps_counter (handle_channel_destroyed j).
Proof.
  unfold handle_channel_destroyed. solve_preserves.
  all: apply preserves_modify; intros c; by apply counter_same.
Qed.

Lemma counter_registration j :
  preserves keeps_counter (handle_endpoint_state_change j)
  /\ preserves keeps_counter (handle_contact_status_change j).
Proof. unfold handle_endpoint_state_change, handle_contact_status_change. split; solve_preserves. Qed.

Lemma counter_on_event ev : preserves keeps_counter (on_event ev).
Proof.
  unfold on_event. pose proof counter_registration as Hreg.
  repeat first [apply preserves_ret | apply counter_handle_stasis_start
    | apply counter_handle_bridge_created | apply counter_handle_bridge_destroyed
    | apply counter_handle_channel_entered_bridge | apply counter_handle_channel_destroyed
    | apply Hreg | case_match | exact _].
Qed.

(** Events one after the other; one that throws is dropped by the worker's loop. *)
Definition run_events (evs : list string) c : AriClient H :=
  fold_left (fun c ev => (on_event ev c).2) evs c.

Lemma counter_run evs c : counter_ok c -> counter_ok (run_events evs c).
Proof.
  revert c. induction evs as [|ev evs IH]; intros c Hc; [done|]. apply IH, counter_on_event, Hc.
Qed.

(** ** What kind of calls the handlers make *)

Definition trace c : list call := calls (router_env (m_router c)).

(** Every handler but a few only asks Asterisk and reads the database. *)
Section Grows.
Context (P : call -> Prop) (P_ari : forall x, P (Ari x)) (P_rows : forall f p, P (Db (GetDocuments "subscribers" f p)))
  (P_row : forall f p, P (Db (GetDocument "subscribers" f p))).

(** The trace grew, by calls of this kind. *)
Definition grows (l1 l2 : list call) : Prop := exists new, l2 = l1 ++ new /\ Forall P new.

Lemma grows_refl l : grows l l.
Proof. exists []. by rewrite app_nil_r. Qed.
Lemma grows_trans l1 l2 l3 : grows l1 l2 -> grows l2 l3 -> grows l1 l3.
Proof.
  intros (n1 & -> & H1) (n2 & -> & H2). exists (n1 ++ n2). rewrite app_assoc. split; [done|]. by apply Forall_app_2.
Qed.
Lemma grows_one l x : P x -> grows l (l ++ [x]).
Proof. intros Hx. exists [x]. split; [done|]. by repeat constructor. Qed.

Definition router_grows (r r' : Router H) : Prop := grows (calls (router_env r)) (calls (router_env r')).
Definition ari_grows c c' : Prop := grows (trace c) (trace c').

#[local] Instance router_grows_preorder : PreOrder router_grows.
Proof. split; [intros r; apply grows_refl|intros r1 r2 r3; apply grows_trans]. Qed.
#[local] Instance ari_grows_preorder : PreOrder ari_grows.
Proof. split; [intros c; apply grows_refl|intros c1 c2 c3; apply grows_trans]. Qed.

Lemma grows_router_rest x : preserves router_grows (rest x).
Proof.
  intros r. unfold rest, in_env, env_call_ari, router_grows. cbn [get_env router_has_env].
  destruct (env_ari x _). by apply grows_one.
Qed.
Lemma grows_router_query f p : preserves router_grows (db (GetDocuments "subscribers" f p)).
Proof.
  intros r. unfold db, in_env, env_call_db, router_grows. cbn [get_env router_has_env].
  destruct (env_query _ _). by apply grows_one.
Qed.
Lemma grows_on_calls f : preserves router_grows (on_calls f).
Proof. intros r. apply grows_refl. Qed.
Lemma grows_on_legs f : preserves router_grows (on_legs f).
Proof. intros r. apply grows_refl. Qed.
#[local] Hint Resolve grows_router_rest grows_router_query grows_on_calls grows_on_legs : preserve.

Lemma grows_fork caller cid i targets ringing : preserves router_grows (fork caller cid i targets ringing).
Proof.
  revert i ringing. induction targets as [|u ts IH]; intros i ringing; cbn [fork]; solve_preserves; apply IH.
Qed.
#[local] Hint Resolve grows_fork : preserve.

Lemma grows_caller_start caller cid ext : preserves router_grows (on_caller_start caller cid ext).
Proof. unfold on_caller_start, resolve_targets, hangup. solve_preserves. Qed.
Lemma grows_leg_start leg caller : preserves router_grows (on_leg_start leg caller).
Proof. unfold on_leg_start, hangup. solve_preserves. Qed.
Lemma grows_channel_gone ch : preserves router_grows (on_channel_gone ch).
Proof. unfold on_channel_gone, hangup. solve_preserves. Qed.

Lemma grows_in_router {A} (m : M (Router H) A) :
  preserves router_grows m -> preserves ari_grows (in_router m).
Proof.
  intros Hm c. specialize (Hm (m_router c)). unfold in_router, ari_grows, trace.
  by destruct (m (m_router c)).
Qed.
Lemma grows_call_ari x : preserves ari_grows (call_ari x).
Proof.
  intros c. unfold call_ari, rest, in_env, env_call_ari, ari_grows, trace. cbn [get_env ari_has_env].
  destruct (env_ari x _). by apply grows_one.
Qed.
Lemma grows_db x : P (Db x) -> preserves ari_grows (db x).
Proof.
  intros Hx c. unfold db, in_env, env_call_db, ari_grows, trace. cbn [get_env ari_has_env].
  destruct (env_query _ _). by apply grows_one.
Qed.
Lemma grows_query f p : preserves ari_grows (db (GetDocument "subscribers" f p)).
Proof. by apply grows_db. Qed.
Lemma grows_note x : P x -> preserves ari_grows (note x).
Proof. intros Hx c. by apply grows_one. Qed.
Lemma grows_modify (f : AriClient H -> AriClient H) :
  (forall c, m_router (f c) = m_router c) -> preserves ari_grows (modify f).
Proof. intros Hf c. unfold ari_grows, trace. cbn. rewrite Hf. apply grows_refl. Qed.
Lemma grows_now : preserves ari_grows now.
Proof. intros c. apply grows_refl. Qed.
#[local] Hint Resolve grows_in_router grows_caller_start grows_leg_start grows_channel_gone
  grows_call_ari grows_query grows_now : preserve.

Lemma grows_stasis_start j : preserves ari_grows (handle_stasis_start j).
Proof.
  unfold handle_stasis_start, lookup_flat_number, handle_conference_join, ari_hangup.
  solve_preserves.
  all: apply grows_modify; intros c; unfold record_channel; by case_bool_decide.
Qed.
Lemma grows_bridges j :
  preserves ari_grows (handle_bridge_created j) /\ preserves ari_grows (handle_bridge_destroyed j)
  /\ preserves ari_grows (handle_channel_entered_bridge j).
Proof.
  unfold handle_bridge_created, handle_bridge_destroyed, handle_channel_entered_bridge.
  repeat split; solve_preserves.
  all: apply grows_modify; intros c; try case_bool_decide; done.
Qed.
Lemma grows_channel_destroyed j :
  (forall doc, P (Db (CreateDocument env_db "cdr" doc))) -> preserves ari_grows (handle_channel_destroyed j).
Proof.
  intros Hdb. unfold handle_channel_destroyed. solve_preserves; try (by apply grows_db).
  all: by apply grows_modify.
Qed.
Lemma grows_revoke user : preserves ari_grows (revoke_subscriber user).
Proof. unfold revoke_subscriber, revoke_channel, ari_hangup. solve_preserves. Qed.

(** A report is made of a name that was read from an object of a JSON text. *)
Definition names_in (j : json) (user : string) : Prop :=
  exists ep, value_str "resource" "" ep = Ok user /\ (j = ep \/ member_obj "endpoint" j = Some ep).

Lemma event_endpoint_names j user ep : event_endpoint j = Ok (Some (user, ep)) -> names_in j user.
Proof.
  unfold event_endpoint. destruct (member_obj "endpoint" j) as [ep'|] eqn:He; [|done].
  destruct (value_str "technology" "" ep') as [tech|]; [|done]. cbn. destruct (negb _); [done|].
  destruct (value_str "resource" "" ep') as [res|] eqn:Hr; [|done]. cbn. destruct (str_empty res); [done|].
  intros [= <- <-]. exists ep'. auto.
Qed.
Lemma grows_lift {A B} (r : result A) (f : A -> M (AriClient H) B) :
  (forall a, r = Ok a -> preserves ari_grows (f a)) -> preserves ari_grows (lift r ≫= f).
Proof. intros Hf. destruct r as [a|e]; intros c; [rewrite bind_lift_ok; by apply Hf|apply grows_refl]. Qed.
Lemma grows_registration j :
  (forall user b, names_in j user -> P (RegisterState user b)) ->
  preserves ari_grows (handle_endpoint_state_change j)
  /\ preserves ari_grows (handle_contact_status_change j).
Proof.
  intros Hn. pose proof (event_endpoint_names j) as He.
  unfold handle_endpoint_state_change, handle_contact_status_change.
  split; (apply preserves_bind; [exact _|apply preserves_asks; exact _|intros installed]; destruct installed; cbn [negb]; [|apply preserves_ret; exact _]);
    apply grows_lift; intros [[user ep]|] Hf; solve_preserves; eapply grows_note, Hn, He, Hf.
Qed.
Lemma grows_publish_endpoint ep :
  (forall user b, names_in ep user -> P (RegisterState user b)) -> preserves ari_grows (publish_endpoint ep).
Proof.
  intros Hn. unfold publish_endpoint. destruct (negb _); [apply preserves_ret; exact _|]. apply grows_lift. intros tech _.
  destruct (negb _); [apply preserves_ret; exact _|]. apply grows_lift. intros user Hr.
  solve_preserves. apply grows_note, Hn. exists ep. auto.
Qed.
End Grows.

(** Calls that are not CDR writes. *)
Definition is_cdr (x : call) : bool :=
  match x with Db (CreateDocument _ coll _) => str_eqb coll "cdr" | _ => false end.
Definition cdrs (l : list call) : list call := List.filter is_cdr l.
Definition no_cdr x : Prop := is_cdr x = false.
Definition ari_no_cdr : AriClient H -> AriClient H -> Prop := ari_grows no_cdr.

Lemma no_cdrs l : Forall no_cdr l -> cdrs l = [].
Proof. induction 1 as [|x l Hx _ IH]; [done|]. cbn. by rewrite Hx. Qed.
End Proofs.

(** ** The names in reports *)

Section Names.
Context {H : Type} `{!AgentEnv H} `{!JsonLib} `{!JsonText}.
Implicit Types (c : AriClient H).

Definition call_utf8 (x : call) : Prop := match x with RegisterState user _ => utf8_ok user = true | _ => True end.

Lemma names_utf8 j user : json_utf8 j = true -> names_in j user -> utf8_ok user = true.
Proof.
  intros Hj (ep & Hu & Hep). apply (value_str_utf8 "resource" "" ep); [|done|done].
  destruct Hep as [->|Hep]; [done|]. by apply (member_obj_utf8 "endpoint" j).
Qed.

(** Whatever happens, the names that are reported are UTF-8: they were read from JSON. *)
Lemma on_event_utf8 ev : preserves (ari_grows call_utf8) (on_event (H:=H) ev).
Proof.
  unfold on_event. destruct (json_parse ev) as [j|] eqn:Hj; [|intros c; apply grows_refl]. apply parse_utf8 in Hj.
  destruct (member_str "type" j) as [t|]; [|intros c; apply grows_refl].
  destruct (grows_bridges (H:=H) call_utf8 j) as (Hb1 & Hb2 & Hb3).
  destruct (grows_registration (H:=H) call_utf8 j) as [Hr1 Hr2]; [intros user b Hn; by apply (names_utf8 j)|].
  repeat case_match; try done; try (intros c; apply grows_refl); [by apply grows_stasis_start|by apply grows_channel_destroyed].
Qed.
Lemma snapshot_utf8 : preserves (ari_grows call_utf8) (publish_register_snapshot (H:=H)).
Proof.
  assert (PreOrder (ari_grows (H:=H) call_utf8)) by (split; [intros c; apply grows_refl|intros c1 c2 c3; apply grows_trans]).
  assert (Hall : forall arr, json_utf8 (JArr arr) = true -> preserves (ari_grows (H:=H) call_utf8) (for_each arr publish_endpoint)).
  { intros arr. induction arr as [|ep arr IH]; intros Ha; [intros c; apply grows_refl|].
    cbn in Ha. apply andb_true_iff in Ha as [Hep Ha]. apply preserves_bind; [exact _| |intros _; by apply IH].
    apply grows_publish_endpoint. intros user b Hn. by apply (names_utf8 ep). }
  unfold publish_register_snapshot. do 2 (apply preserves_bind; [exact _|apply preserves_asks; exact _|intros ?]).
  case_match; [apply preserves_ret; exact _|].
  apply preserves_bind; [exact _|by apply grows_call_ari|intros r].
  apply preserves_bind; [exact _|case_match; [by apply grows_note|apply preserves_ret; exact _]|intros []].
  do 2 (case_match; [apply preserves_ret; exact _|]).
  destruct (json_parse (body r)) as [[]|] eqn:Hp; try (apply preserves_ret; exact _). by apply Hall, (parse_utf8 (body r)).
Qed.
End Names.

(** * Properties *)

Section Properties.
Context {H : Type} `{!AgentEnv H} `{!JsonLib}.
Implicit Types (c : AriClient H).

Lemma on_event_of_type ev j t c :
  json_parse ev = Ok j -> member_str "type" j = Some t ->
  on_event ev c =
    (if str_eqb t "StasisStart" then handle_stasis_start j
     else if str_eqb t "BridgeCreated" then handle_bridge_created j
     else if str_eqb t "BridgeDestroyed" then handle_bridge_destroyed j
     else if str_eqb t "ChannelEnteredBridge" then handle_channel_entered_bridge j
     else if str_eqb t "ChannelDestroyed" then handle_channel_destroyed j
     else if str_eqb t "EndpointStateChange" then handle_endpoint_state_change j
     else if str_eqb t "ContactStatusChange" then handle_contact_status_change j
     else mret tt) c.
Proof. intros Hj Ht. unfold on_event. by rewrite Hj, Ht. Qed.

Lemma call_ari_run x c :
  call_ari x c = (Ok (env_ari x (host (router_env (m_router c)))).1,
                  put_router (put_env (mkEnv (env_ari x (host (router_env (m_router c)))).2
                                             (trace c ++ [Ari x])) (m_router c)) c).
Proof.
  unfold call_ari, rest, in_env, env_call_ari. cbn [get_env ari_has_env put_env].
  by destruct (env_ari x _).
Qed.

(** The admission counter is the number of live bridges: over any sequence of
    events, well-formed or not, duplicated or not, [active_bridges] equals the size of
    the bridge table; a duplicated BridgeCreated is not counted twice and an unknown
    BridgeDestroyed not subtracted. *)
Theorem active_bridges_counted evs cfg (e : Env H) :
  let c := run_events evs (new_ari cfg e) in
  active_bridges c = Z.of_nat (size (m_bridges c)).
Proof. apply (counter_run evs (new_ari cfg e)). done. Qed.

(** The admission gate.  A StasisStart of an originated leg goes to the router
    whatever the load.  A caller's StasisStart at the cap is sent to the busy context
    with one ContinueInDialplan and leaves every table alone, also when that caller was
    admitted before.  Below the cap the caller is recorded (a record already there
    stays) and handed to the conference or to the router. *)
Theorem admission_gate ev j ch channel c :
  json_parse ev = Ok j -> member_str "type" j = Some "StasisStart" ->
  member_obj "channel" j = Some ch -> member_str "id" ch = Some channel ->
  match outbound_caller j with
  | Some caller => on_event ev c = in_router (on_leg_start channel caller) c
  | None =>
      if max_concurrent_calls (m_cfg c) <=? m_active_bridges c then
        exists c', on_event ev c = (Ok tt, c')
        /\ trace c' = trace c ++ [Ari (ContinueInDialplan channel (busy_context (m_cfg c))
                                         (busy_extension (m_cfg c)) (busy_priority (m_cfg c)))]
        /\ m_channels c' = m_channels c /\ m_bridges c' = m_bridges c
        /\ m_active_bridges c' = m_active_bridges c /\ m_calls (m_router c') = m_calls (m_router c)
      else forall name flat c1,
        value_str "name" "" ch = Ok name ->
        lookup_flat_number (sip_user_from_channel_name name) c = (Ok flat, c1) ->
        let caller := caller_flat_of flat ch in
        let callee := dialed_extension j ch in
        let cx := mkChannelCtx channel caller callee "" (env_time (host (router_env (m_router c)))) 0 in
        on_event ev c =
          (if str_eqb callee "conf" then handle_conference_join channel
           else in_router (on_caller_start channel caller callee)) (record_channel channel cx c1)
  end.
Proof.
  intros Hj Ht Hch Hid. rewrite (on_event_of_type ev j "StasisStart" c Hj Ht).
  change (str_eqb "StasisStart" "StasisStart") with true. cbv iota.
  unfold handle_stasis_start. rewrite Hch, Hid.
  destruct (outbound_caller j) as [caller|]; [done|]. rewrite bind_asks, bind_asks. unfold over_admission_cap.
  destruct (_ <=? _).
  - eexists. rewrite (M_bind_ok _ _ _ _ _ (call_ari_run _ c)). by split_and!.
  - intros name flat c1 Hname Hflat. unfold now. unfold mbind at 1, M_bind at 1.
    rewrite Hname, bind_lift_ok, (M_bind_ok _ _ _ _ _ Hflat). cbn zeta. rewrite bind_modify.
    done.
Qed.
(** The channel a ChannelDestroyed event ends, when it is an admitted caller's. *)
Definition destroyed_caller (ev : string) c : option (json * string * ChannelCtx) :=
  match json_parse ev with
  | Throw _ => None
  | Ok j =>
      match member_str "type" j, member_obj "channel" j with
      | Some t, Some ch =>
          if negb (str_eqb t "ChannelDestroyed") then None else
          match value_str "id" "" ch with
          | Ok id => if str_empty id then None else
                     cx ← m_channels c !! id; Some (j, id, cx)
          | Throw _ => None
          end
      | _, _ => None
      end
  end.

Lemma call_duration_bounds cx ended :
  0 <= call_duration cx ended
  /\ (answered_at cx = 0 -> call_duration cx ended = 0)
  /\ (0 < answered_at cx -> call_duration cx ended <= Z.max 0 (ended - answered_at cx)).
Proof. unfold call_duration. destruct (0 <? answered_at cx) eqn:?, (answered_at cx <=? ended) eqn:?; cbn; lia. Qed.

Lemma channel_gone_run ch (r : Router H) : exists r', on_channel_gone ch r = (Ok tt, r').
Proof. destruct (channel_gone_spec ch r) as (r' & Hr & _). eauto. Qed.

(** A ChannelDestroyed for a channel without a record writes no CDR. *)
Lemma destroyed_unknown j c :
  (forall ch id cx, member_obj "channel" j = Some ch -> value_str "id" "" ch = Ok id ->
     id <> "" -> m_channels c !! id <> Some cx) ->
  ari_no_cdr c (handle_channel_destroyed j c).2.
Proof.
  intros Hno. unfold handle_channel_destroyed.
  destruct (member_obj "channel" j) as [ch|]; [|apply grows_refl].
  destruct (value_str "id" "" ch) as [id|e] eqn:Hid; [|apply grows_refl]. rewrite bind_lift_ok.
  destruct (str_empty id) eqn:He; [apply grows_refl|]. apply str_empty_false in He.
  pose proof (grows_in_router no_cdr _ (grows_channel_gone no_cdr ltac:(done) id) c) as Hg.
  unfold in_router in *. unfold mbind at 1, M_bind at 1.
  destruct (channel_gone_run id (m_router c)) as [r' Hr]. rewrite Hr in *. rewrite bind_asks.
  cbn [m_channels put_router] in *. destruct (m_channels c !! id) as [cx|] eqn:Hcx; [|done].
  by destruct (Hno ch id cx).
Qed.

(** One for a recorded channel writes one, after the router let go of it. *)
Lemma destroyed_known j ch id cx c :
  member_obj "channel" j = Some ch -> value_str "id" "" ch = Ok id -> id <> "" ->
  m_channels c !! id = Some cx ->
  let r := (on_channel_gone id (m_router c)).2 in
  let ended := env_time (host (router_env r)) in
  let c' := (handle_channel_destroyed j c).2 in
  m_channels c' = delete id (m_channels c)
  /\ trace c' = calls (router_env r) ++
       match json_dump (cdr_of (society_id (m_cfg c)) id cx (m_bridges c) ended j) with
       | Ok doc => [Db (CreateDocument env_db "cdr" doc)]
       | Throw _ => []
       end.
Proof.
  intros Hch Hid Hne Hcx. cbn zeta. destruct (channel_gone_run id (m_router c)) as [r' Hr]. rewrite Hr.
  set (doc := json_dump _).
  assert (exists res c', handle_channel_destroyed j c = (res, c') /\
    m_channels c' = delete id (m_channels c) /\
    trace c' = calls (router_env r') ++ match doc with
      | Ok doc => [Db (CreateDocument env_db "cdr" doc)] | Throw _ => [] end)
    as (res & c' & -> & Hd); [|done].
  unfold handle_channel_destroyed. rewrite Hch, Hid, bind_lift_ok.
  apply str_empty_false in Hne as ->. unfold in_router. unfold mbind at 1, M_bind at 1.
  rewrite Hr, bind_asks. cbn [m_channels put_router]. rewrite Hcx, bind_modify, bind_asks, bind_asks.
  unfold now. unfold mbind at 1, M_bind at 1.
  change (json_dump _) with doc. destruct doc as [doc'|e].
  - rewrite bind_lift_ok. unfold db, in_env, env_call_db, mbind, M_bind. cbn [get_env ari_has_env].
    destruct (env_query _ _) as [[row|e] h]; by eexists _, _.
  - eexists _, _. split; [done|]. split; [done|]. by rewrite app_nil_r.
Qed.

Lemma no_cdr_other_event ev c :
  (forall j, json_parse ev = Ok j -> member_str "type" j <> Some "ChannelDestroyed") ->
  ari_no_cdr c (on_event ev c).2.
Proof.
  intros Hno. unfold ari_no_cdr, on_event. destruct (json_parse ev) as [j|e]; [|apply grows_refl].
  specialize (Hno j eq_refl). destruct (member_str "type" j) as [t|]; [|apply grows_refl].
  destruct (grows_bridges no_cdr j) as (Hb1 & Hb2 & Hb3), (grows_registration (H:=H) no_cdr j ltac:(done)) as [Hr1 Hr2].
  repeat case_match; try apply grows_refl; auto; [by apply grows_stasis_start|].
  match goal with Hd : str_eqb t "ChannelDestroyed" = true |- _ => apply str_eqb_eq in Hd end. congruence.
Qed.

Lemma destroyed_caller_inv ev c j id cx :
  destroyed_caller ev c = Some (j, id, cx) ->
  exists ch, json_parse ev = Ok j /\ member_str "type" j = Some "ChannelDestroyed"
  /\ member_obj "channel" j = Some ch /\ value_str "id" "" ch = Ok id /\ id <> ""
  /\ m_channels c !! id = Some cx.
Proof.
  unfold destroyed_caller. destruct (json_parse ev) as [j'|] eqn:Hj; [|done].
  destruct (member_str "type" j') as [t|] eqn:Ht; [|done].
  destruct (member_obj "channel" j') as [ch|] eqn:Hch; [|done].
  destruct (str_eqb t "ChannelDestroyed") eqn:Hd; [|done]. apply str_eqb_eq in Hd as ->. cbn [negb].
  destruct (value_str "id" "" ch) as [id'|] eqn:Hid; [|done].
  destruct (str_empty id') eqn:He; [done|]. apply str_empty_false in He.
  destruct (m_channels c !! id') as [cx'|] eqn:Hcx; [|done]. cbn. intros [= <- <- <-]. by exists ch.
Qed.

Lemma destroyed_caller_none ev j ch id c :
  json_parse ev = Ok j -> member_obj "channel" j = Some ch -> value_str "id" "" ch = Ok id ->
  m_channels c !! id = None -> destroyed_caller ev c = None.
Proof.
  intros Hj Hch Hid Hc. unfold destroyed_caller. rewrite Hj. destruct (member_str "type" j); [|done].
  rewrite Hch, Hid, Hc. by repeat case_match.
Qed.

Lemma destroyed_none_no_cdr ev c : destroyed_caller ev c = None -> ari_no_cdr c (on_event ev c).2.
Proof.
  intros Hd. destruct (json_parse ev) as [j|e] eqn:Hj.
  2:{ apply no_cdr_other_event. congruence. }
  destruct (decide (member_str "type" j = Some "ChannelDestroyed")) as [Ht|Ht].
  2:{ apply no_cdr_other_event. congruence. }
  rewrite (on_event_of_type ev j _ c Hj Ht). apply (destroyed_unknown j c).
  intros ch id cx Hch Hid Hne Hcx. unfold destroyed_caller in Hd. rewrite Hj, Ht, Hch, Hid in Hd.
  apply str_empty_false in Hne. by rewrite Hne, Hcx in Hd.
Qed.

(** C12. One CDR per call.  An event writes a CDR only when it is the ChannelDestroyed of
    a recorded caller channel; it then writes exactly one, with the record's parties and
    times (the duration is that of the answered part, never negative), and drops the
    record, so that a repeated event writes none. *)
Theorem one_cdr_per_call ev c :
  exists new, trace (on_event ev c).2 = trace c ++ new /\
  match destroyed_caller ev c with
  | None => cdrs new = []
  | Some (j, id, cx) =>
      let ended := env_time (host (router_env (on_channel_gone id (m_router c)).2)) in
      cdrs new = match json_dump (cdr_of (society_id (m_cfg c)) id cx (m_bridges c) ended j) with
                 | Ok doc => [Db (CreateDocument env_db "cdr" doc)]
                 | Throw _ => []
                 end
      /\ m_channels (on_event ev c).2 = delete id (m_channels c)
      /\ destroyed_caller ev (on_event ev c).2 = None
      /\ 0 <= call_duration cx ended
  end.
Proof.
  destruct (destroyed_caller ev c) as [[[j id] cx]|] eqn:Hd.
  - destruct (destroyed_caller_inv _ _ _ _ _ Hd) as (ch & Hj & Ht & Hch & Hid & Hne & Hcx).
    rewrite (on_event_of_type ev j "ChannelDestroyed" c Hj Ht).
    change ((if str_eqb "ChannelDestroyed" "StasisStart" then _ else _) c) with (handle_channel_destroyed j c).
    destruct (destroyed_known j ch id cx c Hch Hid Hne Hcx) as [Hm Htr].
    destruct (grows_channel_gone no_cdr ltac:(done) id (m_router c)) as (n1 & Hn1 & Hz1%no_cdrs). cbn zeta in *.
    set (doc := json_dump _) in *. eexists. split; [rewrite Htr, Hn1, <- app_assoc; done|].
    split_and!; [|done| |apply call_duration_bounds].
    + unfold cdrs in *. rewrite List.filter_app, Hz1. by destruct doc.
    + apply (destroyed_caller_none ev j ch id); try done. by rewrite Hm, lookup_delete_eq.
  - destruct (destroyed_none_no_cdr ev c Hd) as (new & Hn & Hz%no_cdrs). by exists new.
Qed.
(** The answer to a call made now, and the host after it. *)
Definition answer x (h : H) : Response := (env_ari x h).1.
Definition ari_host c : H := host (router_env (m_router c)).

(** A conference caller.  The caller joins the society's one bridge, which is
    created first; an existing bridge (409) is no failure; when the bridge cannot be had
    or the caller not added the caller is released with congestion, and in no case does
    the join touch the tables. *)
Theorem conference_join_outcome channel c :
  let bridge := society_id (m_cfg c) +:+ "-conf" in
  let create := CreateBridge bridge "mixing" in
  let add := AddChannel bridge channel in
  let br := answer create (ari_host c) in
  let ar := answer add (env_ari create (ari_host c)).2 in
  exists c', handle_conference_join channel c = (Ok tt, c')
  /\ trace c' = trace c ++ Ari create ::
       (if http_ok br || (status br =? 409)
        then Ari add :: (if http_ok ar then [] else [Ari (Hangup channel "congestion")])
        else [Ari (Hangup channel "congestion")])
  /\ m_channels c' = m_channels c /\ m_bridges c' = m_bridges c
  /\ m_active_bridges c' = m_active_bridges c /\ m_calls (m_router c') = m_calls (m_router c).
Proof.
  cbn zeta. unfold handle_conference_join, ari_hangup, ari_ok. rewrite bind_asks.
  rewrite (M_bind_ok _ _ _ _ _ (call_ari_run _ c)). unfold answer, ari_host.
  destruct (_ || _); cbn [negb].
  - rewrite (M_bind_ok _ _ _ _ _ (call_ari_run _ _)). cbn [m_router put_router put_env router_has_env router_env host].
    destruct (http_ok _); cbn [negb].
    + eexists. split; [done|]. split_and!; try done. unfold trace. cbn. by rewrite <- app_assoc.
    + eexists. split; [by rewrite (M_bind_ok _ _ _ _ _ (call_ari_run _ _))|].
      split_and!; try done. unfold trace. cbn. by rewrite <- !app_assoc.
  - eexists. split; [by rewrite (M_bind_ok _ _ _ _ _ (call_ari_run _ _))|].
    split_and!; try done. unfold trace. cbn. by rewrite <- app_assoc.
Qed.

(** What the snapshot says of an endpoint. *)
Definition endpoint_report (ep : json) : option call :=
  match value_str "technology" "" ep, value_str "resource" "" ep, value_str "state" "" ep with
  | Ok tech, Ok resource, Ok state =>
      if is_object ep && str_eqb tech "PJSIP" && negb (str_empty resource)
      then Some (RegisterState resource (str_eqb state "online")) else None
  | _, _, _ => None
  end.
Definition endpoint_typed (ep : json) : Prop :=
  is_object ep = true -> is_ok (value_str "technology" "" ep) /\ is_ok (value_str "resource" "" ep)
                         /\ is_ok (value_str "state" "" ep).

Lemma put_router_same c : put_router (m_router c) c = c.
Proof. by destruct c. Qed.

Definition add_calls (l : list call) c : AriClient H :=
  put_router (put_env (mkEnv (ari_host c) (trace c ++ l)) (m_router c)) c.

Lemma add_calls_nil c : add_calls [] c = c.
Proof. unfold add_calls, trace, ari_host. rewrite app_nil_r. by destruct c as [? [????[]] ?????]. Qed.
Lemma add_calls_app l1 l2 c : add_calls l2 (add_calls l1 c) = add_calls (l1 ++ l2) c.
Proof. unfold add_calls, trace, ari_host. cbn. by rewrite app_assoc. Qed.

Lemma publish_endpoint_run ep c :
  endpoint_typed ep -> publish_endpoint ep c = (Ok tt, add_calls (option_list (endpoint_report ep)) c).
Proof.
  intros Hty. unfold publish_endpoint, endpoint_report.
  destruct (is_object ep) eqn:Ho; cbn [negb].
  2:{ by repeat case_match; rewrite ?add_calls_nil. }
  destruct (Hty Ho) as (H1 & H2 & H3).
  destruct (value_str "technology" "" ep) as [tech|]; [|done].
  destruct (value_str "resource" "" ep) as [res|]; [|done].
  destruct (value_str "state" "" ep) as [st|]; [|done]. rewrite bind_lift_ok.
  destruct (str_eqb tech "PJSIP"); cbn [negb andb]; [|by rewrite add_calls_nil]. rewrite bind_lift_ok.
  destruct (str_empty res); cbn [negb]; [by rewrite add_calls_nil|]. done.
Qed.

Lemma publish_endpoints_run eps c :
  Forall endpoint_typed eps -> for_each eps publish_endpoint c = (Ok tt, add_calls (omap endpoint_report eps) c).
Proof.
  intros Ht. revert c. induction Ht as [|ep eps Hep _ IH]; intros c; [by rewrite add_calls_nil|].
  rewrite (for_each_cons_ok _ _ _ _ _ (publish_endpoint_run ep c Hep)), IH, add_calls_app.
  cbn. by destruct (endpoint_report ep).
Qed.

(** The snapshot sent when the cloud connection comes up.  One ARI query is made, the
    reachability of Asterisk is reported first, and from a usable answer every PJSIP
    endpoint with a name is reported once, in order, online exactly when its state is
    online; from any other answer no endpoint is reported. *)
Theorem snapshot_reports c :
  m_register_state_handler c = true -> m_asterisk_status_handler c = true ->
  let r := answer (ListEndpoints "PJSIP") (ari_host c) in
  (forall arr, json_parse (body r) = Ok (JArr arr) -> Forall endpoint_typed arr) ->
  exists c', publish_register_snapshot c = (Ok tt, c')
  /\ trace c' = trace c ++ [Ari (ListEndpoints "PJSIP"); AsteriskStatus (http_ok r)]
       ++ (if http_ok r then match json_parse (body r) with
                             | Ok (JArr arr) => omap endpoint_report arr
                             | _ => []
                             end else [])
  /\ m_channels c' = m_channels c /\ m_bridges c' = m_bridges c.
Proof.
  intros Hreg Hst r Hty. unfold publish_register_snapshot. rewrite bind_asks, bind_asks, Hreg, Hst. cbn [negb andb].
  rewrite (M_bind_ok _ _ _ _ _ (call_ari_run _ c)). change (env_ari _ _).1 with r.
  match goal with |- context [mbind _ (note (AsteriskStatus (http_ok r))) ?v] => set (c1 := v) end.
  rewrite (M_bind_ok (note (AsteriskStatus (http_ok r))) _ c1 tt (add_calls [AsteriskStatus (http_ok r)] c1)) by done.
  assert (Htr : forall l, trace (add_calls l (add_calls [AsteriskStatus (http_ok r)] c1))
           = trace c ++ [Ari (ListEndpoints "PJSIP"); AsteriskStatus (http_ok r)] ++ l).
  { intros l. rewrite add_calls_app. unfold trace, add_calls. cbn. by rewrite <- app_assoc. }
  assert (Hdone : forall l, exists c', (Ok tt, add_calls l (add_calls [AsteriskStatus (http_ok r)] c1)) = (Ok tt, c')
    /\ trace c' = trace c ++ [Ari (ListEndpoints "PJSIP"); AsteriskStatus (http_ok r)] ++ l
    /\ m_channels c' = m_channels c /\ m_bridges c' = m_bridges c).
  { intros l. eexists. split; [done|]. by rewrite Htr. }
  destruct (http_ok r); cbn [negb]; [|rewrite <- (add_calls_nil (add_calls _ c1)); apply Hdone].
  destruct (json_parse (body r)) as [[]|]; try (rewrite <- (add_calls_nil (add_calls _ c1)); apply Hdone).
  rewrite publish_endpoints_run by (by apply Hty). apply Hdone.
Qed.
End Properties.

(** The subscriber behind a channel.  For every endpoint name, the
    channel names Asterisk builds from it, technology/name-sequence with eight hex digits,
    map back to exactly that name, whatever dashes and digits the name itself contains. *)
Theorem sip_user_of_channel tech user digits :
  find_char "/" tech = None -> user <> "" ->
  String.length digits = 8%nat -> str_forallb is_xdigit digits = true ->
  sip_user_from_channel_name (tech +:+ String "/" (user +:+ String "-" digits)) = user.
Proof.
  intros Ht Hu Hl Hx. unfold sip_user_from_channel_name. rewrite find_char_app by done.
  replace (String.length tech + 1)%nat with (S (String.length tech)) by lia.
  assert (Hd : forall t s, str_drop (S (String.length t)) (t +:+ String "/" s) = s).
  { clear. induction t as [|c t IH]; intros s; [|apply IH].
    cbn. by rewrite ?str_drop_0. }
  rewrite Hd, str_length_app. cbn [String.length]. rewrite Hl.
  assert (0 < String.length user)%nat by (destruct user; [done|cbn; lia]).
  destruct (Nat.ltb_spec 9 (String.length user + 9)); [|lia].
  replace (String.length user + 9 - 9)%nat with (String.length user) by lia.
  by rewrite str_drop_app_length, str_take_app_length, Hx.
Qed.

(** ** The theorems at work *)

Section Witnesses.
Definition ex_start : json :=
  mk_obj [("type", JStr "StasisStart");
          ("channel", mk_obj [("id", JStr "c1"); ("name", JStr "PJSIP/a101-0000001f");
                              ("dialplan", mk_obj [("exten", JStr "A-1")])])].
Definition ex_endpoints : json :=
  JArr [mk_obj [("technology", JStr "PJSIP"); ("resource", JStr "a101"); ("state", JStr "online")];
        mk_obj [("technology", JStr "PJSIP"); ("resource", JStr "a102"); ("state", JStr "offline")];
        mk_obj [("technology", JStr "Local"); ("resource", JStr "x"); ("state", JStr "online")]].
#[local] Instance ex_ari_json : JsonLib := table_json [ex_start; ex_endpoints].
#[local] Instance ex_ari_env : AgentEnv Z :=
  const_env (mkResponse 200 (compact_dump ex_endpoints)) (Throw DbError).

(** An agent at its cap of zero calls, and one with the default cap. *)
Definition full_ari : AriClient Z :=
  new_ari (mkConfig "soc1" "pbx" 0 "pbx-busy" "s" 1) (mkEnv 7 []).
Definition idle_ari : AriClient Z := new_ari (default_config "soc1") (mkEnv 7 []).
Definition wired_ari : AriClient Z :=
  mkAriClient (m_cfg idle_ari) (m_router idle_ari) 0 ∅ ∅ true true.

Lemma admission_gate_witness :
  (exists c', on_event (compact_dump ex_start) full_ari = (Ok tt, c')
   /\ trace c' = [Ari (ContinueInDialplan "c1" "pbx-busy" "s" 1)])
  /\ callee_flat <$> m_channels (on_event (compact_dump ex_start) idle_ari).2 !! "c1" = Some "A-1".
Proof.
  split.
  - pose proof (admission_gate (compact_dump ex_start) ex_start
      (default JNull (member_obj "channel" ex_start)) "c1" full_ari) as Hw.
    destruct Hw as (c' & Hc & Ht & _); [by vm_compute..|]. by exists c'.
  - pose proof (admission_gate (compact_dump ex_start) ex_start
      (default JNull (member_obj "channel" ex_start)) "c1" idle_ari) as Hw.
    rewrite (Hw ltac:(by vm_compute) ltac:(by vm_compute) ltac:(by vm_compute) ltac:(by vm_compute)
      "PJSIP/a101-0000001f" "" (lookup_flat_number "a101" idle_ari).2); by vm_compute.
Defined.

Lemma snapshot_reports_witness :
  exists c', publish_register_snapshot wired_ari = (Ok tt, c')
  /\ trace c' = [Ari (ListEndpoints "PJSIP"); AsteriskStatus true;
                 RegisterState "a101" true; RegisterState "a102" false].
Proof.
  destruct (snapshot_reports wired_ari) as (c' & Hc & Ht & _); [done..| |].
  - intros arr Ha. assert (arr = match ex_endpoints with JArr l => l | _ => [] end) as ->.
    { vm_compute in Ha. by injection Ha as <-. }
    repeat constructor.
  - exists c'. split; [done|]. rewrite Ht. by vm_compute.
Defined.

Lemma sip_user_of_channel_witness :
  sip_user_from_channel_name "PJSIP/flat-12-0000001f" = "flat-12".
Proof. apply (sip_user_of_channel "PJSIP" "flat-12" "0000001f"); by vm_compute. Defined.
End Witnesses.
