(* ===== verification/WsFrame.v ===== *)
(** WebSocket frames (modules/module/wsdbproxy/src/wsframe.cpp): [encode], [decode]
    and the control frames, which every WebSocket of the system is read and written
    with.  Vectors of bytes are strings.

    [decode] computes the frame's length in 64 bits; the sum can wrap, and what the
    code does then is undefined: [decode] answers [Undefined]. *)

From S2P Require Import Prelude SipFrame.

#[local] Open Scope Z_scope.

Record Frame := mkFrame { opcode : Z; payload : string }.

#[global] Instance ws_frame_eq_dec : EqDecision Frame.
Proof. solve_decision. Defined.

Inductive DecodeResult :=
  | NoFrame
  | GotFrame (f : Frame) (rest : string)
  | Undefined.

(** The byte of [v] with [k] bytes below it. *)
Definition byte_of (v : Z) (k : nat) : Z := Z.land (Z.shiftr v (8 * Z.of_nat k)) 255.

(** [for (s = 8 * (n - 1); s >= 0; s -= 8) push_back((v >> s) & 0xFF)]. *)
Fixpoint be_bytes (n : nat) (v : Z) : string :=
  match n with
  | O => ""
  | S n' => String (chr (byte_of v n')) (be_bytes n' v)
  end.

(** [for (i = 0; i < n; ++i) acc = (acc << 8) | s[i]]. *)
Fixpoint be_read (n : nat) (s : string) (acc : Z) : Z :=
  match n, s with
  | S n', String c s' => be_read n' s' (Z.lor (Z.shiftl acc 8) (ord c))
  | _, _ => acc
  end.

(** [data[i] ^= k[i % 4]] from position [i] on. *)
Fixpoint xor_with (k : nat -> Z) (i : nat) (data : string) : string :=
  match data with
  | EmptyString => ""
  | String c data' => String (chr (Z.lxor (ord c) (k (i mod 4)%nat))) (xor_with k (S i) data')
  end.

Definition key_byte (key : Z) (i : nat) : Z := byte_of key (3 - i).
Definition apply_mask (data : string) (key : Z) : string := xor_with (key_byte key) 0 data.

Definition length_bytes (mask : bool) (plen : Z) : string :=
  let mask_bit := if mask then 128 else 0 in
  if plen <? 126 then String (chr (Z.lor mask_bit plen)) ""
  else if plen <? 65536 then String (chr (Z.lor mask_bit 126)) (be_bytes 2 plen)
  else String (chr (Z.lor mask_bit 127)) (be_bytes 8 plen).

(** [random] is what [random_mask_key] returns, used when no key is given. *)
Definition encode (payload : string) (opcode : Z) (mask : bool) (mask_key random : Z) : string :=
  String (chr (Z.lor 128 (Z.land opcode 15)))
    (length_bytes mask (Z.of_nat (String.length payload))
     +:+ (if mask then
            let key := if mask_key =? 0 then random else mask_key in
            be_bytes 4 key +:+ apply_mask payload key
          else payload)).

(** The rest of [decode] once the header size and the declared length are known. *)
Definition decode_payload (buf : string) (opcode : Z) (masked : bool) (header_size : nat) (plen : Z) :
    DecodeResult :=
  let start := (header_size + (if masked then 4 else 0))%nat in
  let total := u64 (Z.of_nat start + plen) in
  let size := Z.of_nat (String.length buf) in
  if size <? total then NoFrame else
  (* reading the mask key past the end, or a payload that ends before it begins *)
  if (size <? Z.of_nat start) || (total <? Z.of_nat start) then Undefined else
  let raw := substr start (Z.to_nat total - start) buf in
  let data := if masked then xor_with (fun i => ord (char_at (header_size + i) buf)) 0 raw else raw in
  GotFrame (mkFrame opcode data) (str_drop (Z.to_nat total) buf).

Definition decode (buf : string) : DecodeResult :=
  if (String.length buf <? 2)%nat then NoFrame else
  let byte0 := ord (char_at 0 buf) in
  let byte1 := ord (char_at 1 buf) in
  let opcode := Z.land byte0 15 in
  let masked := negb (Z.land byte1 128 =? 0) in
  let plen := Z.land byte1 127 in
  if plen =? 126 then
    if (String.length buf <? 4)%nat then NoFrame else
    decode_payload buf opcode masked 4
      (Z.lor (Z.shiftl (ord (char_at 2 buf)) 8) (ord (char_at 3 buf)))
  else if plen =? 127 then
    if (String.length buf <? 10)%nat then NoFrame else
    decode_payload buf opcode masked 10 (be_read 8 (str_drop 2 buf) 0)
  else decode_payload buf opcode masked 2 plen.

Definition close_frame : string := encode "" 8 false 0 0.
Definition ping_frame : string := encode "" 9 false 0 0.
Definition pong_frame (payload : string) : string := encode payload 10 false 0 0.

(** ** Bytes *)

Lemma byte_of_div v k : 0 <= v -> byte_of v k = (v / 2 ^ (8 * Z.of_nat k)) mod 256.
Proof. intros Hv. unfold byte_of. by rewrite byte_of_shift by lia. Qed.

Lemma byte_of_range v k : 0 <= byte_of v k < 256.
Proof.
  unfold byte_of. change 255 with (Z.ones 8). rewrite Z.land_ones by lia. apply Z.mod_pos_bound. lia.
Qed.

Lemma ord_byte_of v k : ord (chr (byte_of v k)) = byte_of v k.
Proof. rewrite ord_chr. apply Z.mod_small, byte_of_range. Qed.

Lemma be_bytes_length n v : String.length (be_bytes n v) = n.
Proof. induction n as [|n IH]; [done|]. cbn. by rewrite IH. Qed.

Lemma be_read_bytes n v t acc :
  0 <= v -> be_read n (be_bytes n v +:+ t) acc = acc * 256 ^ Z.of_nat n + v mod 256 ^ Z.of_nat n.
Proof.
  intros Hv. revert acc. induction n as [|n IH]; intros acc.
  { change (256 ^ Z.of_nat 0) with 1. rewrite Z.mod_1_r. change (be_read 0 _ acc) with acc. lia. }
  cbn [be_bytes]. rewrite str_app_cons. cbn [be_read]. rewrite IH, ord_byte_of.
  rewrite lor_shiftl_add by (pose proof (byte_of_range v n); lia).
  rewrite byte_of_div by done.
  replace (2 ^ (8 * Z.of_nat n)) with (256 ^ Z.of_nat n)
    by (change 256 with (2 ^ 8); rewrite <- Z.pow_mul_r by lia; done).
  replace (256 ^ Z.of_nat (S n)) with (256 ^ Z.of_nat n * 256)
    by (rewrite Nat2Z.inj_succ, Z.pow_succ_r by lia; ring).
  rewrite (Z.rem_mul_r v (256 ^ Z.of_nat n) 256) by (try apply Z.pow_nonzero; lia). ring.
Qed.

Lemma be_read_app n s t acc : (n <= String.length s)%nat -> be_read n (s +:+ t) acc = be_read n s acc.
Proof.
  revert s acc. induction n as [|n IH]; intros s acc Hn; [by destruct s, t|].
  destruct s as [|c s]; [cbn in Hn; lia|]. cbn [be_read str_app_cons] in *. rewrite str_app_cons.
  cbn in Hn. apply IH. lia.
Qed.

Lemma xor_byte a b : 0 <= b < 256 -> chr (Z.lxor (ord (chr (Z.lxor (ord a) b))) b) = a.
Proof.
  intros Hb. pose proof (ord_range a) as Ha.
  assert (Hx : 0 <= Z.lxor (ord a) b < 256).
  { split; [apply Z.lxor_nonneg; split; lia|].
    destruct (decide (Z.lxor (ord a) b = 0)) as [->|]; [lia|].
    assert (0 <= Z.lxor (ord a) b) by (apply Z.lxor_nonneg; split; lia).
    change 256 with (2 ^ 8). apply Z.log2_lt_pow2; [lia|].
    eapply Z.le_lt_trans; [apply Z.log2_lxor; lia|].
    assert (forall x, 0 <= x < 256 -> Z.log2 x < 8).
    { intros x Hr. destruct (decide (x = 0)) as [->|]; [done|]. apply Z.log2_lt_pow2; lia. }
    apply Z.max_lub_lt; auto. }
  rewrite ord_chr, (Z.mod_small (Z.lxor _ _)) by done.
  by rewrite Z.lxor_assoc, Z.lxor_nilpotent, Z.lxor_0_r, chr_ord.
Qed.

Lemma xor_with_length k i s : String.length (xor_with k i s) = String.length s.
Proof. revert i. induction s as [|c s IH]; intros i; [done|]. cbn. by rewrite IH. Qed.

Lemma xor_with_twice k k' i s :
  (forall j, (j < 4)%nat -> k j = k' j /\ 0 <= k' j < 256) -> xor_with k i (xor_with k' i s) = s.
Proof.
  intros Hk. revert i. induction s as [|c s IH]; intros i; [done|]. cbn [xor_with].
  destruct (Hk (i mod 4)%nat) as [-> Hb]; [by apply Nat.mod_upper_bound|]. by rewrite xor_byte, IH.
Qed.

(** ** The header *)

(** The second byte of a frame: the mask bit and a 7-bit length. *)
Lemma length_byte (mask : bool) p :
  0 <= p < 128 ->
  let b := ord (chr (Z.lor (if mask then 128 else 0) p)) in
  negb (Z.land b 128 =? 0) = mask /\ Z.land b 127 = p.
Proof.
  intros Hp. cbn zeta.
  assert (Hall : forallb (fun n => let b := ord (chr (Z.lor (if mask then 128 else 0) (Z.of_nat n))) in
    Bool.eqb (negb (Z.land b 128 =? 0)) mask && (Z.land b 127 =? Z.of_nat n)) (seq 0 128) = true)
    by (by destruct mask; vm_compute).
  rewrite List.forallb_forall in Hall. specialize (Hall (Z.to_nat p)). cbn zeta in Hall.
  rewrite Z2Nat.id in Hall by lia. rewrite List.in_seq in Hall.
  apply andb_prop in Hall as [H1 H2]; [|lia]. by apply Bool.eqb_prop in H1; apply Z.eqb_eq in H2.
Qed.

Lemma opcode_byte o : 0 <= o < 16 -> Z.land (ord (chr (Z.lor 128 (Z.land o 15)))) 15 = o.
Proof.
  intros Ho. assert (Hall : forall n, (n < 16)%nat ->
    Z.land (ord (chr (Z.lor 128 (Z.land (Z.of_nat n) 15)))) 15 = Z.of_nat n).
  { intros n Hn. do 16 (destruct n as [|n]; [done|]). lia. }
  specialize (Hall (Z.to_nat o)). rewrite Z2Nat.id in Hall by lia. apply Hall. lia.
Qed.

(** A frame's tail in a buffer that holds it whole, or less than whole. *)
Lemma decode_payload_whole hdr kb data rest op (masked : bool) hs plen :
  String.length hdr = hs -> String.length kb = (if masked then 4 else 0)%nat ->
  plen = Z.of_nat (String.length data) -> Z.of_nat hs + 4 + plen < 2 ^ 64 ->
  decode_payload (hdr +:+ kb +:+ data +:+ rest) op masked hs plen
  = GotFrame (mkFrame op (if masked then xor_with (fun i => ord (char_at i kb)) 0 data else data)) rest.
Proof.
  intros Hh Hk -> Hbound. unfold decode_payload.
  set (start := (hs + (if masked then 4 else 0))%nat).
  assert (Hs : start = String.length (hdr +:+ kb)) by (rewrite str_length_app, Hh, Hk; done).
  assert (Hst : (start <= hs + 4)%nat) by (unfold start; destruct masked; lia).
  rewrite u64_small by lia.
  replace (hdr +:+ kb +:+ data +:+ rest) with ((hdr +:+ kb) +:+ data +:+ rest) by (by rewrite str_app_assoc).
  rewrite !str_length_app, <- str_length_app, <- Hs.
  destruct (Z.ltb_spec (Z.of_nat (start + (String.length data + String.length rest)))
              (Z.of_nat start + Z.of_nat (String.length data))); [lia|].
  destruct (Z.ltb_spec (Z.of_nat (start + (String.length data + String.length rest))) (Z.of_nat start)); [lia|].
  destruct (Z.ltb_spec (Z.of_nat start + Z.of_nat (String.length data)) (Z.of_nat start)); [lia|]. cbn [orb].
  replace (Z.to_nat (Z.of_nat start + Z.of_nat (String.length data)))
    with (String.length ((hdr +:+ kb) +:+ data)) by (rewrite str_length_app, <- Hs; lia).
  rewrite <- (str_app_assoc (hdr +:+ kb) data rest), str_drop_app_length, str_app_assoc.
  unfold substr. rewrite Hs, str_drop_app_length, str_length_app.
  replace (String.length (hdr +:+ kb) + String.length data - String.length (hdr +:+ kb))%nat
    with (String.length data) by lia.
  rewrite str_take_app_length. f_equal. f_equal. destruct masked; [|done].
  assert (Hx : forall k k' s i, (forall j, (j < 4)%nat -> k j = k' j) -> xor_with k i s = xor_with k' i s).
  { clear. intros k k' s. induction s as [|c s IH]; intros i He; [done|]. cbn [xor_with].
    rewrite He by (by apply Nat.mod_upper_bound). f_equal. by apply IH. }
  apply Hx. intros j Hj. rewrite <- Hh.
  replace (((hdr +:+ kb) +:+ data +:+ rest)) with (hdr +:+ (kb +:+ (data +:+ rest))) by (by rewrite str_app_assoc).
  assert (Hc : forall n s t, char_at (String.length s + n) (s +:+ t) = char_at n t).
  { clear. intros n s t. unfold char_at. induction s as [|c s IH]; [done|]. exact IH. }
  rewrite Hc, char_at_app by lia. done.
Qed.

Lemma decode_payload_short buf op (masked : bool) hs plen :
  0 <= plen -> Z.of_nat hs + 4 + plen < 2 ^ 64 ->
  Z.of_nat (String.length buf) < Z.of_nat hs + (if masked then 4 else 0) + plen ->
  decode_payload buf op masked hs plen = NoFrame.
Proof.
  intros H0 Hbound Hl. unfold decode_payload.
  rewrite u64_small by (destruct masked; lia).
  destruct (Z.ltb_spec (Z.of_nat (String.length buf)) (Z.of_nat (hs + (if masked then 4 else 0)) + plen)); [done|].
  destruct masked; lia.
Qed.

Lemma key_bytes key i : 0 <= key -> (i < 4)%nat ->
  ord (char_at i (be_bytes 4 key)) = key_byte key i.
Proof. intros Hk Hi. do 4 (destruct i as [|i]; [cbn; apply ord_byte_of|]). lia. Qed.

Lemma unmask payload key : 0 <= key ->
  xor_with (fun i => ord (char_at i (be_bytes 4 key))) 0 (apply_mask payload key) = payload.
Proof.
  intros Hk. apply xor_with_twice. intros j Hj. rewrite key_bytes by done.
  split; [done|apply byte_of_range].
Qed.

Lemma char_at_0 a s : char_at 0 (String a s) = a.
Proof. done. Qed.
Lemma char_at_1 a b s : char_at 1 (String a (String b s)) = b.
Proof. done. Qed.

(** The two bytes [encode] starts with, whatever the length. *)
Lemma decode_length_bytes o (mask : bool) plen body :
  0 <= o < 16 -> 0 <= plen < 2 ^ 63 ->
  let buf := String (chr (Z.lor 128 (Z.land o 15))) (length_bytes mask plen +:+ body) in
  let hs := S (String.length (length_bytes mask plen)) in
  decode buf = decode_payload buf o mask hs plen /\ (hs <= 10)%nat.
Proof.
  intros Ho Hp. unfold length_bytes.
  assert (Hrd : forall n v acc, 0 <= v < 256 ^ Z.of_nat n ->
            be_read n (be_bytes n v +:+ body) acc = acc * 256 ^ Z.of_nat n + v).
  { intros n v acc Hv. rewrite be_read_bytes by lia. by rewrite Z.mod_small. }
  destruct (Z.ltb_spec plen 126); [|destruct (Z.ltb_spec plen 65536)]; cbn zeta;
    rewrite ?str_app_cons; split; try (cbn; lia); unfold decode;
    match goal with |- context [(String.length ?s <? 2)%nat] => change (String.length s <? 2)%nat with false end;
    cbv iota; rewrite ?char_at_0, ?char_at_1.
  - destruct (length_byte mask plen ltac:(lia)) as [-> ->]. rewrite opcode_byte by done.
    destruct (Z.eqb_spec plen 126); [lia|]. by destruct (Z.eqb_spec plen 127); [lia|].
  - destruct (length_byte mask 126 ltac:(lia)) as [-> ->]. rewrite opcode_byte by done. cbn [Z.eqb].
    change (126 =? 126) with true. cbv iota. cbn [be_bytes]. rewrite ?str_app_cons.
    match goal with |- context [(String.length ?s <? 4)%nat] => change (String.length s <? 4)%nat with false end.
    cbv iota. f_equal. specialize (Hrd 2%nat plen 0 ltac:(lia)). rewrite Z.mul_0_l, Z.add_0_l in Hrd.
    etransitivity; [|exact Hrd]. done.
  - destruct (length_byte mask 127 ltac:(lia)) as [-> ->]. rewrite opcode_byte by done.
    change (127 =? 126) with false. change (127 =? 127) with true. cbv iota.
    match goal with |- context [(String.length ?s <? 10)%nat] =>
      assert ((String.length s <? 10)%nat = false) as -> by
        (apply Nat.ltb_ge; cbn [String.length]; rewrite str_length_app, be_bytes_length; lia) end.
    change (str_drop 2 (String ?a (String ?b ?s))) with (str_drop 0 s). rewrite str_drop_0.
    rewrite Hrd by lia. f_equal.
Qed.

Lemma decode_header_short o (mask : bool) plen n :
  (n <= String.length (length_bytes mask plen))%nat -> 0 <= plen ->
  decode (str_take n (String (chr (Z.lor 128 (Z.land o 15))) (length_bytes mask plen))) = NoFrame.
Proof.
  intros Hn Hp. destruct n as [|[|n]]; [done|done|]. unfold length_bytes in *.
  destruct (Z.ltb_spec plen 126); [cbn in Hn; lia|].
  destruct (Z.ltb_spec plen 65536); cbn [String.length] in Hn; rewrite be_bytes_length in Hn;
    cbn [str_take]; unfold decode; rewrite char_at_0, char_at_1; cbn [String.length];
    rewrite str_length_take, be_bytes_length;
    match goal with |- context [(?x <? 2)%nat] => destruct (Nat.ltb_spec x 2) as [|_]; [done|] end.
  - destruct (length_byte mask 126 ltac:(lia)) as [_ ->]. change (126 =? 126) with true. cbv iota.
    by match goal with |- context [(?x <? 4)%nat] => destruct (Nat.ltb_spec x 4); [|lia] end.
  - destruct (length_byte mask 127 ltac:(lia)) as [_ ->].
    change (127 =? 126) with false. change (127 =? 127) with true. cbv iota.
    by match goal with |- context [(?x <? 10)%nat] => destruct (Nat.ltb_spec x 10); [|lia] end.
Qed.

Lemma str_take_app n s t : str_take n (s +:+ t) = str_take n s +:+ str_take (n - String.length s) t.
Proof.
  revert n. induction s as [|c s IH]; intros n; [rewrite !str_app_nil_l; cbn; rewrite Nat.sub_0_r; by destruct n|].
  destruct n as [|n]; [done|]. cbn. by rewrite IH.
Qed.

(** A strict prefix of a frame is no frame. *)
Lemma decode_short o (mask : bool) body plen n :
  0 <= o < 16 -> 0 <= plen < 2 ^ 63 ->
  Z.of_nat (String.length body) = (if mask then 4 else 0) + plen ->
  let frame := String (chr (Z.lor 128 (Z.land o 15))) (length_bytes mask plen +:+ body) in
  (n < String.length frame)%nat -> decode (str_take n frame) = NoFrame.
Proof.
  intros Ho Hp Hb frame. unfold frame. set (lb := length_bytes mask plen) in *.
  rewrite <- str_app_cons. set (hdr := String _ lb).
  assert (Hh : String.length hdr = S (String.length lb)) by done.
  rewrite str_length_app, str_take_app, Hh. intros Hn.
  destruct (Nat.le_gt_cases n (String.length lb)) as [Hle|Hgt].
  - replace (n - S (String.length lb))%nat with 0%nat by lia.
    rewrite str_take_0, str_app_nil_r. apply decode_header_short; [done|lia].
  - rewrite (str_take_all n hdr) by lia. unfold hdr. rewrite str_app_cons.
    destruct (decode_length_bytes o mask plen (str_take (n - S (String.length lb)) body) Ho Hp) as [Hd Hhs].
    fold lb in Hd, Hhs. rewrite Hd. apply decode_payload_short; [lia|lia|].
    cbn [String.length]. rewrite str_length_app, str_length_take. destruct mask; lia.
Qed.

(** ** Frames *)

Lemma encode_parts pl o (mask : bool) key rnd :
  encode pl o mask key rnd =
  let k := if key =? 0 then rnd else key in
  String (chr (Z.lor 128 (Z.land o 15)))
    (length_bytes mask (Z.of_nat (String.length pl))
     +:+ (if mask then be_bytes 4 k else "") +:+ (if mask then apply_mask pl k else pl)).
Proof. unfold encode. cbn zeta. destruct mask; [done|]. by rewrite str_app_nil_l. Qed.

(** The preconditions the callers meet: a 4-bit opcode, keys of 32 bits, a payload that
    fits in memory. *)
Definition ws_ok (pl : string) (o key rnd : Z) : Prop :=
  0 <= o < 16 /\ 0 <= key < 2 ^ 32 /\ 0 <= rnd < 2 ^ 32 /\ Z.of_nat (String.length pl) < 2 ^ 63.

Lemma decode_encode pl o (mask : bool) key rnd rest :
  ws_ok pl o key rnd ->
  decode (encode pl o mask key rnd +:+ rest) = GotFrame (mkFrame o pl) rest.
Proof.
  intros (Ho & Hk & Hr & Hl). rewrite encode_parts. cbn zeta.
  set (k := if key =? 0 then rnd else key).
  assert (Hk0 : 0 <= k) by (unfold k; destruct (key =? 0); lia).
  set (lb := length_bytes mask (Z.of_nat (String.length pl))).
  set (kb := if mask then be_bytes 4 k else ""). set (data := if mask then apply_mask pl k else pl).
  assert (Hkb : String.length kb = (if mask then 4 else 0)%nat) by (unfold kb; by destruct mask).
  assert (Hdata : String.length data = String.length pl)
    by (unfold data, apply_mask; destruct mask; by rewrite ?xor_with_length).
  rewrite str_app_cons, str_app_assoc.
  destruct (decode_length_bytes o mask (Z.of_nat (String.length pl)) ((kb +:+ data) +:+ rest)) as [Hd0 Hhs]; [done|lia|].
  fold lb in Hhs, Hd0. rewrite Hd0, str_app_assoc. clear Hd0.
  pose proof (decode_payload_whole (String (chr (Z.lor 128 (Z.land o 15))) lb) kb data rest o mask
    (S (String.length lb)) (Z.of_nat (String.length pl))) as Hd.
  rewrite str_app_cons in Hd. rewrite Hd; try done; [|by rewrite Hdata|lia].
  do 2 f_equal. unfold kb, data. destruct mask; [by apply unmask|done].
Qed.

Lemma decode_encode_prefix pl o (mask : bool) key rnd n :
  ws_ok pl o key rnd -> (n < String.length (encode pl o mask key rnd))%nat ->
  decode (str_take n (encode pl o mask key rnd)) = NoFrame.
Proof.
  intros (Ho & Hk & Hr & Hl). rewrite encode_parts. cbn zeta. intros Hn.
  apply decode_short; [done|lia| |done]. rewrite str_length_app.
  unfold apply_mask. destruct mask; rewrite ?be_bytes_length, ?xor_with_length; cbn [String.length]; lia.
Qed.

(** WebSocket frames round-trip.  Whatever the length class, masked with a given or a
    random key or not masked, an encoded frame followed by anything decodes to its opcode
    and payload and leaves what followed; and no strict prefix of it decodes to a frame. *)
Theorem ws_roundtrip pl o (mask : bool) key rnd rest :
  ws_ok pl o key rnd ->
  decode (encode pl o mask key rnd +:+ rest) = GotFrame (mkFrame o pl) rest
  /\ (forall n, (n < String.length (encode pl o mask key rnd))%nat ->
        decode (str_take n (encode pl o mask key rnd)) = NoFrame).
Proof. intros Hok. split; [by apply decode_encode|]. intros n. by apply decode_encode_prefix. Qed.

(** What a 127-length header declares. *)
Definition declared_length (buf : string) : Z := be_read 8 (str_drop 2 buf) 0.

(** The length arithmetic of [decode] is safe exactly below the wrap.  Once the
    header and mask key of a frame with a 64-bit length are in the buffer, a declared length under 2^64 - 14 gives a frame or the
    request for more bytes, never undefined behaviour; from 2^64 - 14 on the sum wraps
    and every such header, whatever follows it, makes the code build the payload from an
    iterator range that ends before it begins. *)
Theorem ws_length_wrap buf :
  (14 <= String.length buf)%nat -> Z.land (ord (char_at 1 buf)) 127 = 127 ->
  Z.land (ord (char_at 1 buf)) 128 <> 0 -> Z.of_nat (String.length buf) < 2 ^ 63 ->
  decode buf = Undefined <-> 2 ^ 64 - 14 <= declared_length buf.
Proof.
  intros Hl H127 H128 Hsz. unfold decode.
  destruct (Nat.ltb_spec (String.length buf) 2); [lia|]. rewrite H127.
  change (127 =? 126) with false. change (127 =? 127) with true. cbv iota.
  destruct (Nat.ltb_spec (String.length buf) 10); [lia|].
  destruct (Z.eqb_spec (Z.land (ord (char_at 1 buf)) 128) 0); [done|]. cbn [negb].
  fold (declared_length buf).
  assert (Hr : 0 <= declared_length buf < 2 ^ 64).
  { assert (Hgen : forall n s acc, 0 <= acc -> 0 <= be_read n s acc < (acc + 1) * 256 ^ Z.of_nat n).
    { clear. induction n as [|n IH]; intros s acc Ha; [destruct s; cbn; lia|].
      destruct s as [|c s]; cbn [be_read].
      - assert (0 < 256 ^ Z.of_nat (S n)) by (apply Z.pow_pos_nonneg; lia). nia.
      - pose proof (ord_range c). specialize (IH s (Z.lor (Z.shiftl acc 8) (ord c))).
        rewrite (lor_shiftl_add acc (ord c) 8) in * by lia.
        rewrite Nat2Z.inj_succ, Z.pow_succ_r by lia.
        assert (0 < 256 ^ Z.of_nat n) by (apply Z.pow_pos_nonneg; lia). nia. }
    specialize (Hgen 8%nat (str_drop 2 buf) 0 ltac:(lia)). unfold declared_length. lia. }
  unfold decode_payload. cbn [Nat.add]. change (Z.of_nat 14) with 14.
  assert (u64 (14 + declared_length buf) = 14 + declared_length buf /\ declared_length buf < 2 ^ 64 - 14
          \/ u64 (14 + declared_length buf) = 14 + declared_length buf - 2 ^ 64
             /\ 2 ^ 64 - 14 <= declared_length buf) as [[-> Hd]|[-> Hd]].
  { unfold u64. destruct (Z.lt_ge_cases (declared_length buf) (2 ^ 64 - 14)); [left|right]; split; try lia.
    - apply Z.mod_small. lia.
    - symmetry. apply (Z.mod_unique _ _ 1); lia. }
  - destruct (Z.ltb_spec (Z.of_nat (String.length buf)) (14 + declared_length buf)); [split; [done|lia]|].
    destruct (Z.ltb_spec (Z.of_nat (String.length buf)) 14); [lia|].
    destruct (Z.ltb_spec (14 + declared_length buf) 14); [lia|]. split; [done|lia].
  - destruct (Z.ltb_spec (Z.of_nat (String.length buf)) (14 + declared_length buf - 2 ^ 64)); [lia|].
    destruct (Z.ltb_spec (14 + declared_length buf - 2 ^ 64) 14); [|lia]. by rewrite orb_true_r.
Qed.

(** ** The theorems at work *)

Lemma ws_roundtrip_witness :
  decode (encode "hello" 1 true 0 305419896 +:+ "rest") = GotFrame (mkFrame 1 "hello") "rest".
Proof. apply (ws_roundtrip "hello" 1 true 0 305419896 "rest"). by repeat split. Defined.

Definition evil_header : string := String (chr 130) (be_bytes 1 255 +:+ be_bytes 8 (2 ^ 64 - 4) +:+ "mask").

Lemma ws_length_wrap_witness : decode evil_header = Undefined.
Proof. apply (ws_length_wrap evil_header); vm_compute; (done || (repeat constructor)). Defined.
