(* ===== verification/WsStream.v ===== *)
(** The receive loop of the system's WebSocket readers.

    [BrowserStream], [AgentStream], the sockets of the agent and [WsInnerTlsBridge] all decode
    frames from a buffer and act on each one until an action says to stop.  The loop is
    [drain], over the action; what arrives on the socket in any number of reads is [feed].
    The file shows that [feed] does not depend on how the bytes are cut into reads.
    What the readers share apart from the loop (the socket and the ping timer) is
    [WsConn]. *)

From S2P Require Import Prelude SipFrame WsFrame.

#[local] Open Scope Z_scope.

(** The opcodes of RFC 6455, under the readers' names. *)
Definition kOpcodeContinuation : Z := 0.
Definition kOpcodeText : Z := 1.
Definition kOpcodeBinary : Z := 2.
Definition kOpcodeClose : Z := 8.
Definition kOpcodePing : Z := 9.
Definition kOpcodePong : Z := 10.
Definition is_data (op : Z) : bool :=
  (op =? kOpcodeBinary) || (op =? kOpcodeText) || (op =? kOpcodeContinuation).

(** The frames after which a reader goes on, and the payloads that it hands up. *)
Definition keeps_going (f : Frame) : bool :=
  is_data (opcode f) || (opcode f =? kOpcodePing) || (opcode f =? kOpcodePong).
Definition payloads (fs : list Frame) : list string :=
  map payload (filter (fun f => is_data (opcode f) = true) fs).

(** What acting on a frame says: go on with the next, leave the loop with [false], or the
    action does not return. *)
Inductive verdict (C : Type) :=
  | Continue (c : C)
  | Halt (c : C)
  | Hang.
Arguments Continue {C} _.
Arguments Halt {C} _.
Arguments Hang {C}.

(** [drain_frames]: [true], with what stays in the buffer; [false]; undefined behaviour
    of the decoder; an action that does not return. *)
Inductive drained (C : Type) :=
  | NeedBytes (buf : string) (c : C)
  | Stopped (buf : string) (c : C)
  | Undef
  | Spin.
Arguments NeedBytes {C} _ _.
Arguments Stopped {C} _ _.
Arguments Undef {C}.
Arguments Spin {C}.

Section Drain.
Context {C : Type} (on_frame : Frame -> C -> verdict C).

Fixpoint drain_loop (fuel : nat) (buf : string) (c : C) : drained C :=
  match fuel with
  | O => Spin
  | S fuel' =>
      match decode buf with
      | NoFrame => NeedBytes buf c
      | Undefined => Undef
      | GotFrame f rest =>
          match on_frame f c with
          | Continue c => drain_loop fuel' rest c
          | Halt c => Stopped rest c
          | Hang => Spin
          end
      end
  end.
(** A frame takes at least two bytes, so the length of the buffer is fuel enough. *)
Definition drain (buf : string) (c : C) : drained C := drain_loop (S (String.length buf)) buf c.

(** The reads of [handle_input], up to the one that leaves the loop. *)
Fixpoint feed (chunks : list string) (buf : string) (c : C) : drained C :=
  match chunks with
  | [] => NeedBytes buf c
  | chunk :: chunks' =>
      match drain (buf +:+ chunk) c with
      | NeedBytes buf c => feed chunks' buf c
      | r => r
      end
  end.

(** The actions on a sequence of frames. *)
Fixpoint run_frames (fs : list Frame) (c : C) : verdict C :=
  match fs with
  | [] => Continue c
  | f :: fs' => match on_frame f c with Continue c => run_frames fs' c | v => v end
  end.

(** ** Termination *)

Lemma decode_shrinks buf f rest : decode buf = GotFrame f rest -> (String.length rest < String.length buf)%nat.
Proof.
  assert (Hp : forall op masked hs plen, (0 < hs)%nat -> decode_payload buf op masked hs plen = GotFrame f rest ->
            (String.length rest < String.length buf)%nat).
  { intros op masked hs plen Hhs. unfold decode_payload.
    set (start := (hs + _)%nat). set (total := u64 _).
    destruct (Z.ltb_spec (Z.of_nat (String.length buf)) total); [done|].
    destruct (Z.ltb_spec (Z.of_nat (String.length buf)) (Z.of_nat start)); [done|].
    destruct (Z.ltb_spec total (Z.of_nat start)); [done|]. cbn [orb]. intros [= _ <-].
    rewrite str_length_drop. unfold start in *. destruct masked; lia. }
  unfold decode. repeat case_match; try done; by apply Hp; lia.
Qed.

Lemma drain_loop_ends fuel buf c :
  (String.length buf < fuel)%nat -> (forall f c, on_frame f c <> Hang) -> drain_loop fuel buf c <> Spin.
Proof.
  intros Hf Hh. revert buf c Hf. induction fuel as [|fuel IH]; intros buf c Hf; [lia|]. cbn.
  destruct (decode buf) as [|f rest|] eqn:Hd; [done| |done]. apply decode_shrinks in Hd.
  destruct (on_frame f c) as [c'|c'|] eqn:Ho; [apply IH; lia|done|by destruct (Hh f c)].
Qed.
End Drain.

(** ** Frames on the wire *)

(** A frame as its sender encodes it, and a stream of them. *)
Record Wire := mkWire { w_frame : Frame; w_mask : bool; w_key : Z; w_random : Z }.
Definition wire_bytes (w : Wire) : string :=
  encode (payload (w_frame w)) (opcode (w_frame w)) (w_mask w) (w_key w) (w_random w).
Definition wire_ok (w : Wire) : Prop := ws_ok (payload (w_frame w)) (opcode (w_frame w)) (w_key w) (w_random w).
Definition wire_stream (ws : list Wire) : string := str_concat (map wire_bytes ws).

(** The start of a frame that has not arrived in full: every part of it is no frame. *)
Definition partial (s : string) : Prop := forall n, decode (str_take n s) = NoFrame.

Lemma partial_nil : partial "".
Proof. intros n. by destruct n. Qed.

Lemma partial_take n s : partial s -> partial (str_take n s).
Proof.
  intros Hs m. replace (str_take m (str_take n s)) with (str_take (Nat.min m n) s); [apply Hs|].
  clear. revert m n. induction s as [|c s IH]; intros [|m] [|n]; try done. cbn. by rewrite IH.
Qed.

Lemma partial_decode s : partial s -> decode s = NoFrame.
Proof. intros Hs. specialize (Hs (String.length s)). by rewrite str_take_all in Hs. Qed.

Lemma decode_wire w rest : wire_ok w -> decode (wire_bytes w +:+ rest) = GotFrame (w_frame w) rest.
Proof. intros Hw. unfold wire_bytes. rewrite decode_encode by done. by destruct (w_frame w). Qed.

Lemma wire_partial w n : wire_ok w -> (n < String.length (wire_bytes w))%nat -> partial (str_take n (wire_bytes w)).
Proof.
  intros Hw Hn m.
  replace (str_take m (str_take n (wire_bytes w))) with (str_take (Nat.min m n) (wire_bytes w)).
  - apply decode_encode_prefix; [exact Hw|]. unfold wire_bytes in *. lia.
  - clear. revert m n. generalize (wire_bytes w). intros s. induction s as [|c s IH]; intros [|m] [|n]; try done.
    cbn. by rewrite IH.
Qed.

Lemma wire_bytes_not_empty w : (2 <= String.length (wire_bytes w))%nat.
Proof.
  unfold wire_bytes, encode. cbn. rewrite str_length_app. unfold length_bytes.
  repeat case_match; cbn; lia.
Qed.

(** A prefix of a byte stream is some whole frames and the start of the next one. *)
Lemma ws_stream_split ws tail b x :
  Forall wire_ok ws -> partial tail -> b +:+ x = wire_stream ws +:+ tail ->
  exists ws1 ws2 b', ws = ws1 ++ ws2 /\ b = wire_stream ws1 +:+ b' /\ b' +:+ x = wire_stream ws2 +:+ tail /\ partial b'.
Proof.
  intros Hws. revert b. induction Hws as [|w ws Hw Hws IH]; intros b Ht He.
  { exists [], [], b. split_and!; try done. cbn in He.
    replace b with (str_take (String.length b) tail); [by apply partial_take|].
    rewrite <- He. apply str_take_app_length. }
  change (wire_stream (w :: ws)) with (wire_bytes w +:+ wire_stream ws) in He. rewrite str_app_assoc in He.
  destruct (Nat.lt_ge_cases (String.length b) (String.length (wire_bytes w))) as [Hlt|Hge].
  - exists [], (w :: ws), b. split_and!; try done; [by rewrite He, <- str_app_assoc|].
    replace b with (str_take (String.length b) (wire_bytes w)); [by apply wire_partial|].
    rewrite <- (str_take_app_le _ _ (wire_stream ws +:+ tail)) by lia. rewrite <- He. apply str_take_app_length.
  - assert (Hb : b = wire_bytes w +:+ str_drop (String.length (wire_bytes w)) b).
    { rewrite <- (str_take_drop (String.length (wire_bytes w)) b) at 1. f_equal.
      rewrite <- (str_take_app_le _ b x) by lia. rewrite He. apply str_take_app_length. }
    rewrite Hb, str_app_assoc in He. apply str_app_inj_l in He.
    destruct (IH _ Ht He) as (ws1 & ws2 & b' & -> & Hb2 & Hx & Hp).
    exists (w :: ws1), ws2, b'. split_and!; try done. rewrite Hb, Hb2.
    change (wire_stream (w :: ws1)) with (wire_bytes w +:+ wire_stream ws1). by rewrite str_app_assoc.
Qed.

Section Feed.
Context {C : Type} (on_frame : Frame -> C -> verdict C).

Lemma drain_loop_stream ws b c fuel :
  Forall wire_ok ws -> partial b -> (List.length ws < fuel)%nat ->
  match run_frames on_frame (map w_frame ws) c with
  | Continue c' => drain_loop on_frame fuel (wire_stream ws +:+ b) c = NeedBytes b c'
  | Halt c' => exists rest, drain_loop on_frame fuel (wire_stream ws +:+ b) c = Stopped rest c'
  | Hang => drain_loop on_frame fuel (wire_stream ws +:+ b) c = Spin
  end.
Proof.
  intros Hws Hb. revert c fuel. induction Hws as [|w ws Hw Hws IH]; intros c [|fuel] Hf; cbn in Hf; try lia.
  { cbn. by rewrite partial_decode. }
  change (wire_stream (w :: ws)) with (wire_bytes w +:+ wire_stream ws). rewrite str_app_assoc.
  cbn [drain_loop map run_frames]. rewrite decode_wire by done.
  destruct (on_frame (w_frame w) c) as [c'|c'|]; [apply IH; lia|by eexists|done].
Qed.

Lemma wire_stream_length ws : (2 * List.length ws <= String.length (wire_stream ws))%nat.
Proof.
  induction ws as [|w ws IH]; [done|].
  change (wire_stream (w :: ws)) with (wire_bytes w +:+ wire_stream ws). cbn [List.length].
  rewrite str_length_app. pose proof (wire_bytes_not_empty w). lia.
Qed.

Lemma drain_stream ws b c :
  Forall wire_ok ws -> partial b ->
  match run_frames on_frame (map w_frame ws) c with
  | Continue c' => drain on_frame (wire_stream ws +:+ b) c = NeedBytes b c'
  | Halt c' => exists rest, drain on_frame (wire_stream ws +:+ b) c = Stopped rest c'
  | Hang => drain on_frame (wire_stream ws +:+ b) c = Spin
  end.
Proof.
  intros Hws Hb. unfold drain. apply drain_loop_stream; try done.
  rewrite str_length_app. pose proof (wire_stream_length ws). lia.
Qed.

Lemma run_frames_app fs gs c :
  run_frames on_frame (fs ++ gs) c
  = match run_frames on_frame fs c with Continue c' => run_frames on_frame gs c' | v => v end.
Proof. revert c. induction fs as [|f fs IH]; intros c; [done|]. cbn. by destruct (on_frame f c). Qed.

(** Whatever way a stream of frames is cut into reads, the readers act on the frames in
    order, up to the one that stops them. *)
Lemma feed_stream chunks ws tail buf c :
  Forall wire_ok ws -> partial tail -> partial buf -> buf +:+ str_concat chunks = wire_stream ws +:+ tail ->
  match run_frames on_frame (map w_frame ws) c with
  | Continue c' => feed on_frame chunks buf c = NeedBytes tail c'
  | Halt c' => exists rest, feed on_frame chunks buf c = Stopped rest c'
  | Hang => feed on_frame chunks buf c = Spin
  end.
Proof.
  intros Hws Ht. revert ws buf c Hws. induction chunks as [|chunk chunks IH]; intros ws buf c Hws Hb He.
  { cbn [str_concat fold_right] in He. rewrite str_app_nil_r in He. destruct ws as [|w ws].
    - cbn in *. by rewrite He.
    - exfalso. inversion_clear Hws as [|? ? Hw _]. apply partial_decode in Hb.
      change (wire_stream (w :: ws)) with (wire_bytes w +:+ wire_stream ws) in He.
      by rewrite He, str_app_assoc, decode_wire in Hb. }
  change (str_concat (chunk :: chunks)) with (chunk +:+ str_concat chunks) in He. rewrite <- str_app_assoc in He.
  destruct (ws_stream_split ws tail _ _ Hws Ht He) as (ws1 & ws2 & b' & -> & Hb' & Hx & Hp).
  apply Forall_app in Hws as [H1 H2]. rewrite map_app, run_frames_app. cbn [feed]. rewrite Hb'.
  pose proof (drain_stream ws1 b' c H1 Hp) as Hd.
  destruct (run_frames on_frame (map w_frame ws1) c) as [c'|c'|].
  - rewrite Hd. by apply IH.
  - destruct Hd as [rest ->]. by exists rest.
  - by rewrite Hd.
Qed.
End Feed.
