(* ===== verification/WsConn.v ===== *)
(** The socket side that [BrowserStream] and [AgentStream] share: the accepted socket,
    its registration with the reactor and the keep-alive ping timer
    (browser_stream.cpp, agent_stream.cpp).

    The kernel and the reactor are the class [NetIO]; [log] records what was asked of
    them. *)

From S2P Require Import Prelude SipFrame WsFrame WsStream.

#[local] Open Scope Z_scope.

(** [net_recv] answers [None] when [recv] returns zero or less; [net_send] whether
    [send_n] wrote every byte; [net_schedule] the timer's id, [None] for -1;
    [net_mask_key] draws a masking key and [net_rand_bytes] asks [RAND_bytes]. *)
Class NetIO (S : Type) := {
  net_recv : S -> option string * S;
  net_send : string -> S -> bool * S;
  net_close : S -> S;
  net_register : S -> bool * S;
  net_unregister : S -> S;
  net_schedule : Z -> S -> option Z * S;
  net_cancel : Z -> S -> S;
  net_mask_key : S -> Z * S;
  net_rand_bytes : nat -> S -> option string * S;
}.

Inductive net_event :=
  | Sent (bytes : string) (ok : bool)
  | SockClosed
  | TimerSet (id : Z)
  | TimerCancelled (id : Z)
  | HandlerAdded
  | HandlerRemoved.

#[global] Instance net_event_eq_dec : EqDecision net_event.
Proof. solve_decision. Defined.

Definition kPingIntervalSec : Z := 25.

Section Conn.
Context {S : Type}.

(** [m_handle] tells whether the handle is valid; [m_stream] is open exactly then. *)
Record Conn := mkConn {
  m_handle : bool;
  m_ping_timer : option Z;
  net : S;
  log : list net_event;
}.

Definition new_conn (s : S) : Conn := mkConn true None s [].

Context `{!NetIO S}.
Implicit Types (c : Conn).

(** [m_stream.send_n]: on a closed stream it fails without reaching the kernel. *)
Definition write (bytes : string) c : bool * Conn :=
  if m_handle c then
    let '(ok, s) := net_send bytes (net c) in
    (ok, mkConn (m_handle c) (m_ping_timer c) s (log c ++ [Sent bytes ok]))
  else (false, c).

(** A frame that is masked or not, as a client's and a server's are. *)
Definition write_frame (mask : bool) (payload : string) (op : Z) c : bool * Conn :=
  if mask then
    let '(key, s) := net_mask_key (net c) in
    write (encode payload op true 0 key) (mkConn (m_handle c) (m_ping_timer c) s (log c))
  else write (encode payload op false 0 0) c.

(** [m_stream.recv]: on a closed stream it fails. *)
Definition read c : option string * Conn :=
  if m_handle c then
    let '(r, s) := net_recv (net c) in (r, mkConn (m_handle c) (m_ping_timer c) s (log c))
  else (None, c).

(** [if (m_handle != ACE_INVALID_HANDLE) { m_stream.close(); m_handle = ...; }]. *)
Definition shut c : Conn :=
  if m_handle c then mkConn false (m_ping_timer c) (net_close (net c)) (log c ++ [SockClosed]) else c.

Definition cancel_ping_timer c : Conn :=
  match m_ping_timer c with
  | Some id => mkConn (m_handle c) None (net_cancel id (net c)) (log c ++ [TimerCancelled id])
  | None => c
  end.

(** Whether [register_with_reactor] returned 0; [register_handler] refuses an invalid
    handle. *)
Definition register_with_reactor c : bool * Conn :=
  let '(ok, s) := if m_handle c then net_register (net c) else (false, net c) in
  if negb ok then (false, mkConn (m_handle c) (m_ping_timer c) s (log c)) else
  let c := mkConn (m_handle c) (m_ping_timer c) s (log c ++ [HandlerAdded]) in
  let '(id, s) := net_schedule kPingIntervalSec (net c) in
  match id with
  | Some id => (true, mkConn (m_handle c) (Some id) s (log c ++ [TimerSet id]))
  | None => (false, mkConn (m_handle c) None (net_unregister s) (log c ++ [HandlerRemoved]))
  end.

(** ** What the operations leave alone *)

Lemma write_state bytes c :
  m_handle (write bytes c).2 = m_handle c /\ m_ping_timer (write bytes c).2 = m_ping_timer c.
Proof. unfold write. destruct (m_handle c) eqn:Hh; [|done]. by destruct (net_send bytes (net c)). Qed.
Lemma write_closed bytes c : m_handle c = false -> write bytes c = (false, c).
Proof. unfold write. by intros ->. Qed.
Lemma write_frame_state mask payload op c :
  m_handle (write_frame mask payload op c).2 = m_handle c /\ m_ping_timer (write_frame mask payload op c).2 = m_ping_timer c.
Proof.
  unfold write_frame. destruct mask; [|apply write_state]. destruct (net_mask_key (net c)) as [key s].
  apply (write_state _ (mkConn (m_handle c) (m_ping_timer c) s (log c))).
Qed.
Lemma read_state c : m_handle (read c).2 = m_handle c /\ m_ping_timer (read c).2 = m_ping_timer c.
Proof. unfold read. destruct (m_handle c) eqn:Hh; [|done]. by destruct (net_recv (net c)). Qed.
Lemma shut_state c : m_handle (shut c) = false /\ m_ping_timer (shut c) = m_ping_timer c.
Proof. unfold shut. by destruct (m_handle c) eqn:Hh. Qed.
Lemma shut_closed c : m_handle c = false -> shut c = c.
Proof. unfold shut. by intros ->. Qed.
Lemma cancel_state c : m_handle (cancel_ping_timer c) = m_handle c /\ m_ping_timer (cancel_ping_timer c) = None.
Proof. unfold cancel_ping_timer. by destruct (m_ping_timer c) eqn:Ht. Qed.
Lemma cancel_idle c : m_ping_timer c = None -> cancel_ping_timer c = c.
Proof. unfold cancel_ping_timer. by intros ->. Qed.

(** The bytes written so far, in order. *)
Definition written c : list string := omap (fun e => match e with Sent bytes _ => Some bytes | _ => None end) (log c).
End Conn.
Arguments Conn : clear implicits.

(** A concrete kernel for examples: what the reads will return, and whether writes
    succeed.  Timers get the id 7. *)
Record FakeNet := mkFakeNet { incoming : list string; writable : bool }.
#[global] Instance fake_net : NetIO FakeNet := {|
  net_recv s :=
    match incoming s with
    | [] => (None, s)
    | bytes :: rest => (Some bytes, mkFakeNet rest (writable s))
    end;
  net_send _ s := (writable s, s);
  net_close s := s;
  net_register s := (true, s);
  net_unregister s := s;
  net_schedule _ s := (Some 7, s);
  net_cancel _ s := s;
  net_mask_key s := (0x5A5A5A5A, s);
  net_rand_bytes n s := (Some (str_repeat "x" n), s);
|}.
