(* ===== verification/WsHistory.v ===== *)
(** What the socket's history says: nothing is written after the socket was closed, and it
    is closed once.  The operations of [WsConn] that only read and write are the relation
    [sock_rel]. *)

From S2P Require Import Prelude SipFrame WsFrame WsStream WsConn.

#[local] Open Scope Z_scope.

Definition is_write (e : net_event) : bool := match e with Sent _ _ => true | _ => false end.

(** An open socket was never closed; a closed one was closed once, after every write. *)
Definition history_ok (handle : bool) (l : list net_event) : Prop :=
  if handle then SockClosed ∉ l
  else exists before after, (l = before ++ SockClosed :: after) /\ (SockClosed ∉ before) /\ (SockClosed ∉ after)
       /\ Forall (fun e => is_write e = false) after.

Section Conn.
Context {S : Type} `{!NetIO S}.
Implicit Types (c : Conn S).

Lemma history_snoc c e :
  e <> SockClosed -> (m_handle c = true \/ is_write e = false) -> history_ok (m_handle c) (log c) ->
  history_ok (m_handle c) (log c ++ [e]).
Proof.
  unfold history_ok. intros He Hw. destruct (m_handle c).
  - intros Hn. rewrite elem_of_app, list_elem_of_singleton. intros [?|?]; by subst.
  - intros (before & after & Hl & Hb & Ha & Hf). exists before, (after ++ [e]). rewrite Hl.
    split_and!; [by rewrite <- app_assoc|done| |].
    + rewrite elem_of_app, list_elem_of_singleton. intros [?|?]; by subst.
    + apply Forall_app. split; [done|]. apply Forall_singleton. by destruct Hw.
Qed.

Lemma write_history bytes c : history_ok (m_handle c) (log c) -> history_ok (m_handle c) (log (write bytes c).2).
Proof.
  intros Hc. unfold write. destruct (m_handle c) eqn:Hh; [|done].
  destruct (net_send bytes (net c)) as [ok s]. cbn.
  pose proof (history_snoc c (Sent bytes ok)) as Hs. rewrite Hh in Hs. apply Hs; auto.
Qed.
Lemma cancel_history c :
  history_ok (m_handle c) (log c) -> history_ok (m_handle c) (log (cancel_ping_timer c)).
Proof.
  intros Hc. unfold cancel_ping_timer. destruct (m_ping_timer c) as [id|]; [|done]. cbn. apply history_snoc; auto.
Qed.
Lemma shut_history c : history_ok (m_handle c) (log c) -> history_ok false (log (shut c)).
Proof.
  unfold shut. destruct (m_handle c) eqn:Hh; [|done]. cbn. intros Hn. exists (log c), [].
  split_and!; [done|done|by apply not_elem_of_nil|by apply Forall_nil_2].
Qed.
Lemma register_history c :
  history_ok (m_handle c) (log c) ->
  m_handle (register_with_reactor c).2 = m_handle c /\ history_ok (m_handle c) (log (register_with_reactor c).2).
Proof.
  destruct c as [[] t s l]; [|done]. unfold register_with_reactor. cbn [m_handle net log m_ping_timer]. intros Hc.
  destruct (net_register s) as [[] s1]; cbn [negb]; [|done].
  assert (H1 : history_ok true (l ++ [HandlerAdded])) by (apply (history_snoc (mkConn true t s l)); auto).
  cbn [net]. destruct (net_schedule kPingIntervalSec s1) as [[id|] s']; (split; [done|]);
    apply (history_snoc (mkConn true t s1 (l ++ [HandlerAdded]))); auto.
Qed.

(** Reading and writing: the handle and the timer stay, and so does a good history. *)
Definition sock_rel c c' : Prop :=
  m_handle c' = m_handle c /\ m_ping_timer c' = m_ping_timer c
  /\ (history_ok (m_handle c) (log c) -> history_ok (m_handle c') (log c')).

#[global] Instance sock_rel_preorder : PreOrder sock_rel.
Proof.
  split; [by intros c; unfold sock_rel|]. intros c1 c2 c3 (H1 & T1 & L1) (H2 & T2 & L2). unfold sock_rel. split_and!; [congruence..|auto].
Qed.

Lemma sock_write bytes c : sock_rel c (write bytes c).2.
Proof. destruct (write_state bytes c) as [H1 H2]. unfold sock_rel. split_and!; [done|done|]. rewrite H1. apply write_history. Qed.
Lemma sock_write_frame mask payload op c : sock_rel c (write_frame mask payload op c).2.
Proof.
  unfold write_frame. destruct mask; [|apply sock_write]. destruct (net_mask_key (net c)) as [key s].
  etransitivity; [|apply sock_write]. done.
Qed.
Lemma sock_read c : sock_rel c (read c).2.
Proof. unfold read. destruct (m_handle c) eqn:Hh; [|reflexivity]. destruct (net_recv (net c)). unfold sock_rel. by rewrite Hh. Qed.

Lemma register_closed c : m_handle c = false -> m_ping_timer (register_with_reactor c).2 = m_ping_timer c.
Proof. unfold register_with_reactor. by intros ->. Qed.
End Conn.
