(* ===== verification/ClientSocket.v ===== *)
(** What the agent's three WebSocket clients share: [AriWsClient] (ari_ws_client.cpp),
    [AsteriskStream] (asterisk_ws_factory.cpp) and [AceSslTransport]
    (ace_ssl_transport.cpp).

    Their [drain_frames] are the same [switch]: a ping is answered by a masked pong, a close
    frame by a close frame, and what is done with a payload and at the end is up to the
    class.  The file has that body over the two actions, and what follows for any class. *)

From S2P Require Import Prelude SipFrame WsFrame WsStream WsConn WsHistory.

#[local] Open Scope Z_scope.

(** The memory of an object that is deleted while others may still point to it. *)
Inductive lifetime := Unborn | Alive | Dead.

#[global] Instance lifetime_eq_dec : EqDecision lifetime.
Proof. solve_decision. Defined.

(** [register_with_reactor] of the clients: a handler, and no timer. *)
Definition add_handler {N} `{!NetIO N} (c : Conn N) : bool * Conn N :=
  let '(ok, s) := if m_handle c then net_register (net c) else (false, net c) in
  (ok, mkConn (m_handle c) (m_ping_timer c) s (if ok : bool then log c ++ [HandlerAdded] else log c)).

Lemma add_handler_state {N} `{!NetIO N} (c : Conn N) :
  m_handle (add_handler c).2 = m_handle c /\ m_ping_timer (add_handler c).2 = m_ping_timer c.
Proof. unfold add_handler. by destruct (m_handle c); [destruct (net_register (net c)) as [[] ?]|]. Qed.

Lemma add_handler_history {N} `{!NetIO N} (c : Conn N) :
  history_ok (m_handle c) (log c) -> history_ok (m_handle c) (log (add_handler c).2).
Proof.
  unfold add_handler. destruct (m_handle c) eqn:Hh; [|done]. destruct (net_register (net c)) as [[] s]; cbn; [|done].
  intros Hl. pose proof (history_snoc c HandlerAdded) as Hs. rewrite Hh in Hs. apply Hs; auto.
Qed.

(** A masked frame on an open socket: what the log has of it. *)
Lemma write_masked_log {N} `{!NetIO N} p op (c : Conn N) :
  m_handle c = true ->
  exists key, log (write_frame true p op c).2 = log c ++ [Sent (encode p op true 0 key) (write_frame true p op c).1].
Proof.
  intros Hh. unfold write_frame. destruct (net_mask_key (net c)) as [key s]. exists key. unfold write. cbn. rewrite Hh.
  by destruct (net_send _ s).
Qed.

Section History.
Context {N : Type} `{!NetIO N}.
Implicit Types (c : Conn N).

(** A socket that was opened was closed at most once, and nothing was written after that;
    one that was never opened has no history. *)
Definition conn_ok c : Prop := history_ok (m_handle c) (log c) \/ (m_handle c = false /\ log c = []).

Lemma conn_ok_write_frame mask p op c : conn_ok c -> conn_ok (write_frame mask p op c).2.
Proof.
  intros [Hc|[Hh Hl]].
  - left. destruct (sock_write_frame mask p op c) as (_ & _ & Hk). exact (Hk Hc).
  - right. unfold write_frame. destruct mask; [destruct (net_mask_key (net c)) as [key n]|]; unfold write; cbn; by rewrite Hh.
Qed.
Lemma conn_ok_shut c : conn_ok c -> conn_ok (shut c) /\ m_handle (shut c) = false.
Proof.
  intros Hc. split; [|apply shut_state]. destruct Hc as [Hc|[Hh Hl]].
  - left. rewrite (proj1 (shut_state _)). by apply shut_history.
  - right. by rewrite shut_closed.
Qed.
Lemma conn_ok_add_handler c : conn_ok c -> conn_ok (add_handler c).2.
Proof.
  unfold conn_ok. rewrite (proj1 (add_handler_state c)). intros [Hc|[Hh Hl]]; [left; by apply add_handler_history|].
  right. unfold add_handler. by rewrite Hh.
Qed.
Lemma conn_ok_read c : conn_ok c -> conn_ok (read c).2.
Proof.
  destruct (read_state c) as [E _]. unfold conn_ok. rewrite E. unfold read.
  destruct (m_handle c); [by destruct (net_recv (net c))|done].
Qed.
End History.

Section Loop.
Context {N X : Type} `{!NetIO N}.
Variable on_conn : (Conn N -> Conn N) -> X -> X.
Variable on_payload : string -> X -> verdict X.
Variable ended : string -> X -> X.
Implicit Types (x : X).

(** The body of the [switch]; the end is told with the reason where the class has one. *)
Definition client_frame (f : Frame) x : verdict X :=
  let op := opcode f in
  if is_data op then on_payload (payload f) x
  else if op =? kOpcodePing then Continue (on_conn (fun c => (write_frame true (payload f) kOpcodePong c).2) x)
  else if op =? kOpcodePong then Continue x
  else if op =? kOpcodeClose then Halt (ended "asterisk_closed" (on_conn (fun c => (write close_frame c).2) x))
  else Halt (ended "ws_protocol_error" x).

(** ** A relation that the actions keep is kept by the loop *)

Section Keeps.
Context (R : X -> X -> Prop) `{!PreOrder R}.
Hypothesis keeps_write : forall mask p op x, R x (on_conn (fun c => (write_frame mask p op c).2) x).
Hypothesis keeps_payload : forall p x, match on_payload p x with Continue x' | Halt x' => R x x' | Hang => True end.
Hypothesis keeps_ended : forall reason x, R x (ended reason x).

Lemma client_frame_keeps f x : match client_frame f x with Continue x' | Halt x' => R x x' | Hang => True end.
Proof.
  unfold client_frame. destruct (is_data _); [apply keeps_payload|].
  destruct (_ =? kOpcodePing); [apply keeps_write|]. destruct (_ =? kOpcodePong); [reflexivity|].
  destruct (_ =? kOpcodeClose); [|apply keeps_ended].
  etransitivity; [apply (keeps_write false "" 8)|apply keeps_ended].
Qed.

Lemma client_drain_keeps fuel buf x :
  match drain_loop client_frame fuel buf x with NeedBytes _ x' | Stopped _ x' => R x x' | _ => True end.
Proof.
  revert buf x. induction fuel as [|fuel IH]; intros buf x; [done|]. cbn [drain_loop].
  destruct (decode buf) as [|f rest|]; [reflexivity| |done].
  pose proof (client_frame_keeps f x) as Hf. destruct (client_frame f x) as [x'|x'|]; [|done|done].
  specialize (IH rest x'). destruct (drain_loop _ _ _ _); try done; by etransitivity.
Qed.
End Keeps.

(** ** Delivery

    [heard] is what the class has passed on so far, [g] how it passes on a payload; [live]
    is what keeps it from stopping. *)

Section Delivery.
Context {A : Type} (heard : X -> list A) (g : string -> A) (live : X -> Prop).
Hypothesis heard_payload : forall p x, live x ->
  exists x', on_payload p x = Continue x' /\ live x' /\ heard x' = heard x ++ [g p].
Hypothesis heard_write : forall mask p op x, live x ->
  live (on_conn (fun c => (write_frame mask p op c).2) x) /\ heard (on_conn (fun c => (write_frame mask p op c).2) x) = heard x.

Lemma client_frames_heard fs x :
  Forall (fun f => keeps_going f = true) fs -> live x ->
  exists x', run_frames client_frame fs x = Continue x' /\ live x' /\ heard x' = heard x ++ map g (payloads fs).
Proof.
  intros Hfs. revert x. induction Hfs as [|f fs Hf Hfs IH]; intros x Hx.
  { exists x. by rewrite app_nil_r. }
  cbn [run_frames]. unfold client_frame at 1, payloads. unfold keeps_going in Hf. rewrite filter_cons.
  destruct (is_data (opcode f)) eqn:Hd.
  - destruct (heard_payload (payload f) x Hx) as (x1 & -> & H1 & E1). destruct (IH x1 H1) as (x' & Hr & Hl & Hh).
    exists x'. rewrite Hh, E1, <- app_assoc. by case_decide.
  - cbn [orb] in Hf. case_decide as Hdec; [done|]. destruct (opcode f =? kOpcodePing).
    + destruct (heard_write true (payload f) kOpcodePong x Hx) as [H1 E1].
      destruct (IH _ H1) as (x' & Hr & Hl & Hh). exists x'. by rewrite Hh, E1.
    + cbn [orb] in Hf. rewrite Hf. by apply IH.
Qed.

Lemma client_frame_ends f x :
  keeps_going f = false -> live x -> exists reason x1, client_frame f x = Halt (ended reason x1) /\ live x1 /\ heard x1 = heard x.
Proof.
  unfold keeps_going, client_frame. destruct (is_data _); [done|]. destruct (_ =? kOpcodePing); [done|].
  cbn [orb]. intros -> Hx. destruct (_ =? kOpcodeClose); do 2 eexists; (split; [done|]); [|done].
  apply (heard_write false "" 8 x Hx).
Qed.

(** However the bytes are cut into reads, the payloads of the data frames are passed on
    whole and in order, up to the first frame that ends the connection; then the end is
    told; an unfinished frame stays in the buffer. *)
Lemma client_delivers chunks ws tail buf x :
  Forall wire_ok ws -> partial tail -> partial buf -> buf +:+ str_concat chunks = wire_stream ws +:+ tail -> live x ->
  let fs := map w_frame ws in
  (Forall (fun f => keeps_going f = true) fs ->
   exists x', feed client_frame chunks buf x = NeedBytes tail x' /\ live x' /\ heard x' = heard x ++ map g (payloads fs))
  /\ forall fs1 f fs2, fs = fs1 ++ f :: fs2 -> Forall (fun f => keeps_going f = true) fs1 -> keeps_going f = false ->
     exists rest reason x1, feed client_frame chunks buf x = Stopped rest (ended reason x1)
       /\ live x1 /\ heard x1 = heard x ++ map g (payloads fs1).
Proof.
  intros Hws Ht Hb Hc Hx fs. pose proof (feed_stream client_frame chunks ws tail buf x Hws Ht Hb Hc) as Hf. fold fs in Hf.
  split.
  - intros Hk. destruct (client_frames_heard fs x Hk Hx) as (x' & Hr & Hl & Hh). rewrite Hr in Hf. eauto.
  - intros fs1 f fs2 He Hk Hstop. rewrite He, run_frames_app in Hf.
    destruct (client_frames_heard fs1 x Hk Hx) as (x1 & Hr & Hl & Hh). rewrite Hr in Hf. cbn [run_frames] in Hf.
    destruct (client_frame_ends f x1 Hstop Hl) as (reason & x2 & Ho & Hl2 & Hh2). rewrite Ho in Hf.
    destruct Hf as [rest Hf]. exists rest, reason, x2. by rewrite Hh2, Hh.
Qed.
End Delivery.
End Loop.

(** The close frame that the clients send has the mask bit clear, which RFC 6455 forbids a
    client. *)
Lemma close_frame_unmasked : close_frame = String (ascii_of_nat 136) (String (ascii_of_nat 0) "").
Proof. by vm_compute. Qed.
