(* ===== verification/BrowserStream.v ===== *)
(** One browser's SIP-over-WebSocket socket: modules/module/pbx/src/browser_stream.cpp.

    The stream calls the bridge, and the bridge may call the stream back while it does:
    it sends bytes to the browser or closes the stream.  [BridgeHost] is the bridge as the
    stream sees it, a function of the stream and of its own state; its laws
    [BridgeHostLaws] say that it changes the stream only by those two calls. *)

From S2P Require Import Prelude SipFrame WsFrame WsStream WsConn.

#[local] Open Scope Z_scope.

Section Stream.
Context {S : Type} `{!NetIO S}.

Record Browser := mkBrowser { conn : Conn S; m_stream_id : Z; m_close_notified : bool }.

Definition on_conn (f : Conn S -> Conn S) (b : Browser) : Browser :=
  mkBrowser (f (conn b)) (m_stream_id b) (m_close_notified b).

(** ** BrowserSink: what the bridge calls *)

Definition send_bytes (sip_ws_bytes : string) (b : Browser) : Browser :=
  if m_handle (conn b) then on_conn (fun c => (write (encode sip_ws_bytes kOpcodeText false 0 0) c).2) b else b.

Definition close (reason : string) (b : Browser) : Browser :=
  if m_handle (conn b) then
    let b := on_conn (fun c => (write close_frame (cancel_ping_timer c)).2) b in
    let b := mkBrowser (conn b) (m_stream_id b) true in
    on_conn shut b
  else b.

(** What a caller that has only these two operations can do to a stream. *)
Inductive sink_op := SendBytes (bytes : string) | CloseSink (reason : string).
Definition run_op (b : Browser) (op : sink_op) : Browser :=
  match op with SendBytes bytes => send_bytes bytes b | CloseSink reason => close reason b end.
Definition run_sink (ops : list sink_op) (b : Browser) : Browser := fold_left run_op ops b.
Definition sink_calls (b b' : Browser) : Prop := exists ops, b' = run_sink ops b.
End Stream.
Arguments Browser : clear implicits.

(** The three functions of the bridge that the stream calls. *)
Class BridgeHost (S W : Type) := {
  host_upgrade : string -> Browser S -> W -> Z * (Browser S * W);
  host_data : Z -> string -> Browser S -> W -> Browser S * W;
  host_close : Z -> string -> Browser S -> W -> Browser S * W;
}.
Class BridgeHostLaws (S W : Type) `{!NetIO S} `{!BridgeHost S W} : Prop := {
  host_upgrade_sink meta b w : sink_calls b (host_upgrade meta b w).2.1;
  host_data_sink sid bytes b w : sink_calls b (host_data sid bytes b w).1;
  host_close_sink sid reason b w : sink_calls b (host_close sid reason b w).1;
}.

Inductive host_call :=
  | ToldUpgrade (open_meta : string)
  | ToldData (stream_id : Z) (bytes : string)
  | ToldClose (stream_id : Z) (reason : string).

#[global] Instance host_call_eq_dec : EqDecision host_call.
Proof. solve_decision. Defined.

Section Operations.
Context {S W : Type} `{!NetIO S} `{!BridgeHost S W}.

(** The stream, the bridge's state, and the calls the stream made on the bridge. *)
Record World := mkWorld { browser : Browser S; bridge : W; told : list host_call }.
Implicit Types (x : World).

Definition on_browser (f : Browser S -> Browser S) x : World := mkWorld (f (browser x)) (bridge x) (told x).

Definition notify_close_once (reason : string) x : World :=
  let b := browser x in
  if m_close_notified b then x else
  let '(b', w) := host_close (m_stream_id b) reason (mkBrowser (conn b) (m_stream_id b) true) (bridge x) in
  mkWorld b' w (told x ++ [ToldClose (m_stream_id b) reason]).

Definition tell_data (bytes : string) x : World :=
  let sid := m_stream_id (browser x) in
  let '(b, w) := host_data sid bytes (browser x) (bridge x) in
  mkWorld b w (told x ++ [ToldData sid bytes]).

(** The constructor, on an accepted socket.  While the bridge is called the id is 0. *)
Definition new_stream (open_meta : string) (s : S) (w : W) : World :=
  let '(sid, (b, w)) := host_upgrade open_meta (mkBrowser (new_conn s) 0 false) w in
  mkWorld (mkBrowser (conn b) sid (m_close_notified b)) w [ToldUpgrade open_meta].

(** The body of the [switch] of [drain_frames]. *)
Definition on_frame (f : Frame) x : verdict World :=
  let op := opcode f in
  if is_data op then Continue (tell_data (payload f) x)
  else if op =? kOpcodePing then Continue (on_browser (on_conn (fun c => (write (pong_frame (payload f)) c).2)) x)
  else if op =? kOpcodePong then Continue x
  else if op =? kOpcodeClose then
    Halt (notify_close_once "browser_closed" (on_browser (on_conn (fun c => (write close_frame c).2)) x))
  else Halt (notify_close_once "ws_protocol_error" x).

Definition drain_frames (recv_buf : string) x : drained World := drain on_frame recv_buf x.

(** [Stopped] is the return value -1. *)
Definition handle_input (recv_buf : string) x : drained World :=
  let '(chunk, c) := read (conn (browser x)) in
  let x := on_browser (on_conn (fun _ => c)) x in
  match chunk with
  | None => Stopped recv_buf (notify_close_once "peer_closed" x)
  | Some bytes => drain_frames (recv_buf +:+ bytes) x
  end.

(** [handle_close] up to [delete this], and the destructor. *)
Definition release (reason : string) x : World :=
  on_browser (on_conn shut) (notify_close_once reason (on_browser (on_conn cancel_ping_timer) x)).
Definition handle_close x : World := release "handle_close" x.
Definition destroy x : World := release "destroyed" x.

(** Whether the timer callback returned 0. *)
Definition handle_timeout x : bool * World :=
  if negb (m_handle (conn (browser x))) then (false, x) else
  let '(ok, c) := write ping_frame (conn (browser x)) in
  let x := on_browser (on_conn (fun _ => c)) x in
  if ok : bool then (true, x) else (false, notify_close_once "keepalive_write_failed" x).

(** ** The life of a stream under the reactor *)

(** An input event, the ping timer, the bridge acting on its own (on an event of the
    tunnel or of another browser), or the reactor closing the handler. *)
Inductive event :=
  | Readable
  | TimerFired
  | HostActs (ops : list sink_op) (w : W)
  | HandleClosed.

Inductive life :=
  | Live (recv_buf : string) (x : World)
  | Deleted (x : World)
  | Crashed.

(** The reactor calls [handle_close] when a callback returned -1. *)
Definition closed_down x : life := Deleted (destroy (handle_close x)).
Definition react (e : event) (l : life) : life :=
  match l with
  | Live buf x =>
      match e with
      | Readable =>
          match handle_input buf x with
          | NeedBytes buf x => Live buf x
          | Stopped _ x => closed_down x
          | Undef | Spin => Crashed
          end
      | TimerFired => let '(ok, x) := handle_timeout x in if ok : bool then Live buf x else closed_down x
      | HostActs ops w => Live buf (mkWorld (run_sink ops (browser x)) w (told x))
      | HandleClosed => closed_down x
      end
  | _ => l
  end.
Definition reacts (es : list event) (l : life) : life := fold_left (fun l e => react e l) es l.
End Operations.
Arguments World : clear implicits.
Arguments event : clear implicits.
Arguments life : clear implicits.
