(* ===== verification/BrowserStreamSpec.v ===== *)
(** What a browser's stream guarantees: its frames reach the bridge whole and in order
    however they were cut into reads, the bridge is told of its end at most once, and
    nothing is written after the socket was closed. *)

From S2P Require Import Prelude SipFrame WsFrame WsStream WsConn WsHistory BrowserStream.

#[local] Open Scope Z_scope.

(** ** The stream's invariant *)

Section Stream.
Context {S : Type} `{!NetIO S}.
Implicit Types (b : Browser S).

Definition stream_ok b : Prop :=
  history_ok (m_handle (conn b)) (log (conn b))
  /\ (m_handle (conn b) = false -> m_close_notified b = true /\ m_ping_timer (conn b) = None).

(** A later state of the same stream: same id, a told end stays told, a cancelled timer
    stays cancelled. *)
Definition later b b' : Prop :=
  m_stream_id b' = m_stream_id b /\ (m_close_notified b = true -> m_close_notified b' = true)
  /\ (m_ping_timer (conn b) = None -> m_ping_timer (conn b') = None).

#[global] Instance later_preorder : PreOrder later.
Proof. split; [by repeat split|]. intros b1 b2 b3 (E1 & N1 & T1) (E2 & N2 & T2). unfold later. split_and!; [congruence|auto..]. Qed.

Lemma write_ok bytes b : stream_ok b -> stream_ok (on_conn (fun c => (write bytes c).2) b).
Proof.
  intros [Hh Hc]. destruct (write_state bytes (conn b)) as [E1 E2]. split; cbn.
  - rewrite E1. by apply write_history.
  - by rewrite E1, E2.
Qed.
Lemma write_later bytes b : later b (on_conn (fun c => (write bytes c).2) b).
Proof. unfold later. split_and!; try done. cbn. by rewrite (proj2 (write_state _ _)). Qed.
Lemma send_bytes_ok bytes b : stream_ok b -> stream_ok (send_bytes bytes b) /\ later b (send_bytes bytes b).
Proof.
  unfold send_bytes. destruct (m_handle (conn b)); [|done]. intros Hb.
  split; [by apply write_ok|apply write_later].
Qed.

Lemma close_ok reason b : stream_ok b -> stream_ok (close reason b) /\ later b (close reason b).
Proof.
  unfold close. destruct (m_handle (conn b)) eqn:Hh; [|done]. intros [Hb _].
  rewrite Hh in Hb. cbn. set (c := cancel_ping_timer (conn b)).
  assert (Hc : m_handle c = true /\ m_ping_timer c = None) by (unfold c; by rewrite (proj1 (cancel_state _)), (proj2 (cancel_state _))).
  assert (Hl : history_ok (m_handle c) (log c)).
  { rewrite (proj1 Hc), <- Hh. apply cancel_history. by rewrite Hh. }
  destruct (write_state close_frame c) as [E1 E2].
  assert (Ht : m_ping_timer (shut (write close_frame c).2) = None)
    by (by rewrite (proj2 (shut_state _)), E2, (proj2 Hc)).
  split; [|unfold later; by split_and!]. split; cbn; rewrite (proj1 (shut_state _)); [|done].
  apply shut_history. rewrite E1. by apply write_history.
Qed.

Lemma run_sink_ok ops b : stream_ok b -> stream_ok (run_sink ops b) /\ later b (run_sink ops b).
Proof.
  revert b. induction ops as [|op ops IH]; intros b Hb; [done|]. cbn.
  assert (H1 : stream_ok (run_op b op) /\ later b (run_op b op))
    by (destruct op; [by apply send_bytes_ok|by apply close_ok]).
  destruct H1 as [H1 L1]. destruct (IH _ H1) as [H2 L2]. split; [done|]. by etransitivity.
Qed.
End Stream.

(** ** Relations that every callback preserves

    A preorder that holds across a write, a read, and the stream's two calls of the bridge
    holds across every callback. *)
Section Closure.
Context {S W : Type} `{!NetIO S} `{!BridgeHost S W}.
Implicit Types (x : World S W).

Class CallbackRel (R : World S W -> World S W -> Prop) : Prop := {
  #[global] rel_preorder :: PreOrder R;
  rel_write bytes x : R x (on_browser (on_conn (fun c => (write bytes c).2)) x);
  rel_read x : R x (on_browser (on_conn (fun c => (read c).2)) x);
  rel_data bytes x : R x (tell_data bytes x);
  rel_notify reason x : R x (notify_close_once reason x);
}.
Context (R : World S W -> World S W -> Prop) `{!CallbackRel R}.

Lemma on_frame_rel f x :
  match on_frame f x with Continue x' | Halt x' => R x x' | Hang => False end.
Proof.
  unfold on_frame. destruct (is_data _); [apply rel_data|].
  destruct (_ =? kOpcodePing); [apply rel_write|]. destruct (_ =? kOpcodePong); [reflexivity|].
  destruct (_ =? kOpcodeClose); [|apply rel_notify].
  etransitivity; [apply rel_write|apply rel_notify].
Qed.

Lemma drain_rel fuel buf x :
  match drain_loop on_frame fuel buf x with NeedBytes _ x' | Stopped _ x' => R x x' | _ => True end.
Proof.
  revert buf x. induction fuel as [|fuel IH]; intros buf x; [done|]. cbn.
  destruct (decode buf) as [|f rest|]; [reflexivity| |done].
  pose proof (on_frame_rel f x) as Hf. destruct (on_frame f x) as [x'|x'|]; [|done|done].
  specialize (IH rest x'). destruct (drain_loop _ _ _ _); try done; by etransitivity.
Qed.

Lemma handle_input_rel buf x :
  match handle_input buf x with NeedBytes _ x' | Stopped _ x' => R x x' | _ => True end.
Proof.
  unfold handle_input. pose proof (rel_read x) as Hr. unfold on_browser at 1, on_conn at 1 in Hr.
  destruct (read (conn (browser x))) as [[bytes|] c]; cbn [snd] in Hr.
  - pose proof (drain_rel (Datatypes.S (String.length (buf +:+ bytes))) (buf +:+ bytes)
      (on_browser (on_conn (fun _ => c)) x)) as Hd.
    unfold drain_frames, drain. destruct (drain_loop _ _ _ _); try done; (etransitivity; [exact Hr|done]).
  - etransitivity; [exact Hr|apply rel_notify].
Qed.

Lemma handle_timeout_rel x : R x (handle_timeout x).2.
Proof.
  unfold handle_timeout. destruct (m_handle (conn (browser x))) eqn:Hh; cbn [negb]; [|reflexivity].
  pose proof (rel_write ping_frame x) as Hw. unfold on_browser at 1, on_conn at 1 in Hw.
  destruct (write ping_frame (conn (browser x))) as [ok c]. cbn in Hw.
  destruct ok; [exact Hw|]. etransitivity; [exact Hw|apply rel_notify].
Qed.
End Closure.

Section Life.
Context {S W : Type} `{!NetIO S} `{!BridgeHost S W} `{!BridgeHostLaws S W}.
Implicit Types (x : World S W).

Definition is_close (c : host_call) : bool := match c with ToldClose _ _ => true | _ => false end.
Definition ends_told x : nat := List.length (filter (fun c => is_close c = true) (told x)).

(** The bridge was told of the end at most once, and not before the stream says so. *)
Definition world_ok x : Prop :=
  stream_ok (browser x) /\ (ends_told x <= if m_close_notified (browser x) then 1 else 0)%nat.

(** A step keeps the invariant and the stream's identity. *)
Definition good_step x x' : Prop :=
  world_ok x -> world_ok x' /\ later (browser x) (browser x').

#[global] Instance good_step_preorder : PreOrder good_step.
Proof.
  split; [by intros x Hx|]. intros x y z H1 H2 Hx. destruct (H1 Hx) as [Hy L1]. destruct (H2 Hy) as [Hz L2].
  split; [done|]. by etransitivity.
Qed.

Lemma ends_told_app x b w c :
  ends_told (mkWorld b w (told x ++ [c])) = (ends_told x + if is_close c then 1 else 0)%nat.
Proof.
  unfold ends_told. cbn [told]. rewrite list.filter_app, length_app, filter_cons, filter_nil.
  destruct (is_close c) eqn:Hc; case_decide; done.
Qed.

Lemma write_step bytes x : good_step x (on_browser (on_conn (fun c => (write bytes c).2)) x).
Proof. intros [Hs Ht]. split; [split; [by apply write_ok|done]|apply write_later]. Qed.

Lemma read_step x : good_step x (on_browser (on_conn (fun c => (read c).2)) x).
Proof.
  intros [[Hh Hc] Ht]. destruct (read_state (conn (browser x))) as [E1 E2].
  assert (El : log (read (conn (browser x))).2 = log (conn (browser x))).
  { unfold read. destruct (m_handle _); [|done]. by destruct (net_recv _). }
  split; [split; [split; cbn; by rewrite ?El, ?E1, ?E2|done]|].
  unfold later. split_and!; try done. cbn. by rewrite E2.
Qed.

Lemma tell_data_step bytes x : good_step x (tell_data bytes x).
Proof.
  intros [Hs Ht]. unfold tell_data.
  pose proof (host_data_sink (m_stream_id (browser x)) bytes (browser x) (bridge x)) as [ops Hops].
  destruct (host_data _ _ _ _) as [b w]. cbn in Hops. subst b.
  destruct (run_sink_ok ops _ Hs) as [Hs' Hl]. split; [|done]. split; [done|].
  rewrite ends_told_app. cbn [is_close browser]. destruct Hl as (_ & Hn & _).
  destruct (m_close_notified (browser x)); [rewrite Hn by done; lia|].
  destruct (m_close_notified (run_sink ops (browser x))); lia.
Qed.

Lemma notify_step reason x :
  good_step x (notify_close_once reason x)
  /\ (world_ok x -> m_close_notified (browser (notify_close_once reason x)) = true).
Proof.
  unfold notify_close_once. destruct (m_close_notified (browser x)) eqn:Hn; [split; [reflexivity|done]|].
  set (b0 := mkBrowser (conn (browser x)) (m_stream_id (browser x)) true).
  pose proof (host_close_sink (m_stream_id (browser x)) reason b0 (bridge x)) as [ops Hops].
  destruct (host_close _ _ _ _) as [b w]. cbn in Hops. subst b.
  assert (Hs0 : stream_ok (browser x) -> stream_ok b0).
  { intros [Hh Hc]. split; [done|]. intros Hf. split; [done|]. by apply Hc. }
  split; intros [Hs Ht]; destruct (run_sink_ok ops _ (Hs0 Hs)) as [Hs' (Hid & Hn' & Hti)]; [|by apply Hn'].
  split; [split; [done|]|unfold later; split_and!; [exact Hid|intros _; by apply Hn'|exact Hti]].
  rewrite ends_told_app. cbn [is_close browser]. rewrite (Hn' eq_refl), Hn in *. lia.
Qed.

#[global] Instance good_step_rel : CallbackRel good_step.
Proof.
  split; [apply _|apply write_step|apply read_step|apply tell_data_step|].
  intros reason x. apply notify_step.
Qed.

(** What remains of a stream once the reactor has let go of it. *)
Definition gone x : Prop :=
  world_ok x /\ m_close_notified (browser x) = true /\ m_handle (conn (browser x)) = false
  /\ m_ping_timer (conn (browser x)) = None.

Lemma release_gone reason x : world_ok x -> gone (release reason x) /\ later (browser x) (browser (release reason x)).
Proof.
  intros Hx. unfold release. set (x1 := on_browser (on_conn cancel_ping_timer) x).
  assert (H1 : world_ok x1).
  { destruct Hx as [[Hh Hc] Ht]. destruct (cancel_state (conn (browser x))) as [E1 E2].
    split; [|done]. split; cbn; rewrite E1; [by apply cancel_history|]. intros Hf. split; [by apply Hc|done]. }
  assert (L1 : later (browser x) (browser x1)).
  { unfold later. split_and!; try done. intros _. apply cancel_state. }
  destruct (notify_step reason x1) as [H2 H3]. specialize (H3 H1). destruct (H2 H1) as [H2' L2].
  set (x2 := notify_close_once reason x1) in *. destruct H2' as [[Hh Hc] Ht].
  assert (Hti : m_ping_timer (conn (browser x2)) = None) by (apply L2, cancel_state).
  split.
  - unfold gone, world_ok, stream_ok. cbn. rewrite (proj1 (shut_state _)), (proj2 (shut_state _)).
    split_and!; try done. by apply shut_history.
  - do 2 (etransitivity; [eassumption|]). unfold later. split_and!; try done. cbn. by rewrite (proj2 (shut_state _)).
Qed.

Definition life_ok (sid : Z) (l : life S W) : Prop :=
  match l with
  | Live _ x => world_ok x /\ m_stream_id (browser x) = sid
  | Deleted x => gone x /\ m_stream_id (browser x) = sid
  | Crashed => True
  end.

Lemma closed_down_ok sid x : world_ok x -> m_stream_id (browser x) = sid -> life_ok sid (closed_down x).
Proof.
  intros Hx Hid. unfold closed_down, handle_close, destroy.
  destruct (release_gone "handle_close" x Hx) as [[H1 _] L1].
  destruct (release_gone "destroyed" _ H1) as [H2 L2]. split; [done|].
  etransitivity; [apply L2|]. etransitivity; [apply L1|done].
Qed.

Lemma react_ok sid e l : life_ok sid l -> life_ok sid (react e l).
Proof.
  destruct l as [buf x|x|]; cbn [react life_ok]; [|done|done]. intros [Hx Hid].
  assert (Hstep : forall x', good_step x x' -> world_ok x' /\ m_stream_id (browser x') = sid).
  { intros x' Hs. destruct (Hs Hx) as [H1 [E1 _]]. split; [done|congruence]. }
  destruct e as [| |ops w|].
  - pose proof (handle_input_rel good_step buf x) as Hi.
    destruct (handle_input buf x); [by apply Hstep|apply closed_down_ok; by apply Hstep|done|done].
  - pose proof (handle_timeout_rel good_step x) as Hi. destruct (handle_timeout x) as [[] x'];
      [by apply Hstep|apply closed_down_ok; by apply Hstep].
  - destruct Hx as [Hs Ht]. destruct (run_sink_ok ops _ Hs) as [Hs' (Hi & Hn & _)].
    split; [split; [done|]|cbn; congruence]. cbn. unfold ends_told in *. cbn.
    destruct (m_close_notified (browser x)); [by rewrite Hn|]. destruct (m_close_notified (run_sink _ _)); lia.
  - by apply closed_down_ok.
Qed.

Lemma new_stream_ok meta s w : world_ok (new_stream meta s w).
Proof.
  unfold new_stream. set (b0 := mkBrowser (new_conn s) 0 false).
  pose proof (host_upgrade_sink meta b0 w) as [ops Hops].
  destruct (host_upgrade meta b0 w) as [sid [b w']]. cbn in Hops. subst b.
  assert (Hb : stream_ok b0) by (split; [by apply not_elem_of_nil|done]).
  destruct (run_sink_ok ops _ Hb) as [[Hh Hc] _]. split; [by split|]. unfold ends_told. cbn [told].
  rewrite filter_cons_False by done. rewrite filter_nil. cbn. lia.
Qed.

Lemma registered_ok x : world_ok x -> world_ok (on_browser (on_conn (fun c => (register_with_reactor c).2)) x).
Proof.
  intros [[Hl Hc] Ht]. destruct (register_history (conn (browser x)) Hl) as [E1 E2].
  split; [|done]. split; cbn; rewrite E1; [done|]. intros Hf. rewrite register_closed by done. by apply Hc.
Qed.

(** A browser's stream ends exactly once.  From its construction, whatever the
    browser, the timer and the bridge do and in whatever order: the bridge is told of the
    end at most once, the stream keeps its id, and nothing is written to the socket after
    it was closed; when the reactor has let go of the stream, the socket is closed, the
    ping timer is cancelled and no later event tells the bridge anything. *)
Theorem browser_released_once meta s w es :
  let x := new_stream meta s w in
  let sid := m_stream_id (browser x) in
  life_ok sid (reacts es (Live "" x))
  /\ life_ok sid (reacts es (Live "" (on_browser (on_conn (fun c => (register_with_reactor c).2)) x)))
  /\ forall x' es', reacts es (Live "" x) = Deleted x' -> reacts (es ++ es') (Live "" x) = Deleted x'.
Proof.
  intros x sid. assert (Hrun : forall l, life_ok sid l -> life_ok sid (reacts es l)).
  { clear -BridgeHostLaws0. induction es as [|e es IH]; [done|]. intros l Hl. apply IH. by apply react_ok. }
  pose proof (new_stream_ok meta s w) as Hx. fold x in Hx. split_and!.
  - by apply Hrun.
  - apply Hrun. split; [by apply registered_ok|done].
  - intros x' es' He. unfold reacts in *. rewrite fold_left_app, He. by induction es'.
Qed.

(** ** Delivery *)

Definition data_of (sid : Z) (fs : list Frame) : list host_call :=
  map (fun f => ToldData sid (payload f)) (filter (fun f => is_data (opcode f) = true) fs).

Lemma run_sink_id ops (b : Browser S) : m_stream_id (run_sink ops b) = m_stream_id b.
Proof.
  revert b. induction ops as [|op ops IH]; intros b; [done|].
  change (run_sink (op :: ops) b) with (run_sink ops (run_op b op)). rewrite IH.
  destruct op as [bytes|reason]; cbn; [unfold send_bytes|unfold close]; by destruct (m_handle (conn b)).
Qed.

Lemma tell_data_told bytes x :
  told (tell_data bytes x) = told x ++ [ToldData (m_stream_id (browser x)) bytes]
  /\ m_stream_id (browser (tell_data bytes x)) = m_stream_id (browser x).
Proof.
  unfold tell_data. pose proof (host_data_sink (m_stream_id (browser x)) bytes (browser x) (bridge x)) as [ops Hops].
  destruct (host_data _ _ _ _) as [b w]. cbn in Hops. subst b. split; [done|]. apply run_sink_id.
Qed.

Lemma run_frames_told fs x :
  Forall (fun f => keeps_going f = true) fs ->
  exists x', run_frames on_frame fs x = Continue x' /\ told x' = told x ++ data_of (m_stream_id (browser x)) fs
    /\ m_stream_id (browser x') = m_stream_id (browser x).
Proof.
  intros Hfs. revert x. induction Hfs as [|f fs Hf Hfs IH]; intros x.
  { exists x. cbn. by rewrite app_nil_r. }
  cbn [run_frames]. unfold on_frame at 1, data_of. unfold keeps_going in Hf. rewrite filter_cons.
  destruct (is_data (opcode f)) eqn:Hd.
  - destruct (tell_data_told (payload f) x) as [E1 E2]. destruct (IH (tell_data (payload f) x)) as (x' & Hr & Ht & Hi).
    exists x'. rewrite Hr, Ht, E1, E2, <- app_assoc. split_and!; [done|by case_decide|congruence].
  - cbn [orb] in Hf. destruct (opcode f =? kOpcodePing).
    + destruct (IH (on_browser (on_conn (fun c => (write (pong_frame (payload f)) c).2)) x)) as (x' & Hr & Ht & Hi).
      exists x'. split_and!; [done|rewrite Ht; by case_decide|done].
    + cbn [orb] in Hf. rewrite Hf. destruct (IH x) as (x' & Hr & Ht & Hi). exists x'.
      split_and!; [done|rewrite Ht; by case_decide|done].
Qed.

Lemma notify_told reason x :
  told (notify_close_once reason x)
  = told x ++ (if m_close_notified (browser x) then [] else [ToldClose (m_stream_id (browser x)) reason]).
Proof.
  unfold notify_close_once. destruct (m_close_notified (browser x)); [by rewrite app_nil_r|].
  by destruct (host_close _ _ _ _).
Qed.

Lemma run_stop_told f x :
  keeps_going f = false ->
  exists x' ends, on_frame f x = Halt x' /\ told x' = told x ++ ends
    /\ (ends = [] \/ exists reason, ends = [ToldClose (m_stream_id (browser x)) reason]).
Proof.
  unfold keeps_going, on_frame. destruct (is_data (opcode f)); [done|].
  destruct (_ =? kOpcodePing); [done|]. cbn [orb]. intros ->.
  destruct (_ =? kOpcodeClose); do 2 eexists; (split; [done|]); rewrite notify_told; (split; [done|]); cbn;
    destruct (m_close_notified (browser x)); eauto.
Qed.

(** SIP messages of the browser reach the bridge whole, in order and once, however the
    network cuts the bytes into reads: for a stream of well-formed frames followed by the
    start of one more, the bridge is given exactly the payloads of the text, binary and
    continuation frames, up to the first close or unknown frame; pings and pongs between
    them change nothing, and the unfinished frame stays in the buffer. *)
Theorem browser_delivers chunks ws tail x :
  Forall wire_ok ws -> partial tail -> str_concat chunks = wire_stream ws +:+ tail ->
  let fs := map w_frame ws in
  let sid := m_stream_id (browser x) in
  (Forall (fun f => keeps_going f = true) fs ->
   exists x', feed on_frame chunks "" x = NeedBytes tail x' /\ told x' = told x ++ data_of sid fs)
  /\ forall fs1 f fs2, fs = fs1 ++ f :: fs2 -> Forall (fun f => keeps_going f = true) fs1 -> keeps_going f = false ->
     exists rest x' ends, feed on_frame chunks "" x = Stopped rest x'
       /\ told x' = told x ++ data_of sid fs1 ++ ends
       /\ (ends = [] \/ exists reason, ends = [ToldClose sid reason]).
Proof.
  intros Hws Ht Hc fs sid. pose proof (feed_stream on_frame chunks ws tail "" x Hws Ht partial_nil) as Hf.
  rewrite str_app_nil_l in Hf. specialize (Hf Hc). fold fs in Hf. split.
  - intros Hk. destruct (run_frames_told fs x Hk) as (x' & Hr & Htold & _). rewrite Hr in Hf. eauto.
  - intros fs1 f fs2 He Hk Hstop. rewrite He, run_frames_app in Hf.
    destruct (run_frames_told fs1 x Hk) as (x1 & Hr & Htold & Hid). rewrite Hr in Hf. cbn [run_frames] in Hf.
    destruct (run_stop_told f x1 Hstop) as (x' & ends & Ho & Ht' & Hends). rewrite Ho in Hf.
    destruct Hf as [rest Hf]. exists rest, x', ends. rewrite Ht', Htold, <- app_assoc, Hid in *. auto.
Qed.
End Life.

Section Witnesses.
(** A bridge that answers every message with the same message. *)
#[local] Instance echo_host : BridgeHost FakeNet nat := {|
  host_upgrade _ b w := (1, (b, w));
  host_data _ bytes b w := (send_bytes bytes b, Datatypes.S w);
  host_close _ _ b w := (b, w);
|}.
#[local] Instance echo_laws : BridgeHostLaws FakeNet nat.
Proof.
  split.
  - intros meta b w. by exists [].
  - intros sid bytes b w. by exists [SendBytes bytes].
  - intros sid reason b w. by exists [].
Qed.

Definition ex_wires : list Wire :=
  [mkWire (mkFrame kOpcodeText "REGISTER") true 0x11223344 0; mkWire (mkFrame kOpcodePing "") true 1 0].
Definition ex_next : Wire := mkWire (mkFrame kOpcodeText "INVITE") true 5 0.

Lemma ex_wires_ok : Forall wire_ok ex_wires.
Proof. do 2 (apply Forall_cons_2; [by repeat split|]). by apply Forall_nil_2. Qed.

Lemma browser_released_once_witness :
  life_ok 1 (reacts [Readable; TimerFired; Readable; HandleClosed]
    (Live "" (new_stream "{}" (mkFakeNet [wire_stream ex_wires] true) 0%nat))).
Proof.
  exact (proj1 (browser_released_once "{}" (mkFakeNet [wire_stream ex_wires] true) 0%nat
    [Readable; TimerFired; Readable; HandleClosed])).
Defined.

Lemma browser_delivers_witness :
  exists x', feed on_frame [str_take 5 (wire_stream ex_wires); str_drop 5 (wire_stream ex_wires) +:+ str_take 3 (wire_bytes ex_next)]
               "" (new_stream "{}" (mkFakeNet [] true) 0%nat) = NeedBytes (str_take 3 (wire_bytes ex_next)) x'
    /\ told x' = [ToldUpgrade "{}"; ToldData 1 "REGISTER"].
Proof.
  refine (proj1 (browser_delivers
    [str_take 5 (wire_stream ex_wires); str_drop 5 (wire_stream ex_wires) +:+ str_take 3 (wire_bytes ex_next)]
    ex_wires (str_take 3 (wire_bytes ex_next)) (new_stream "{}" (mkFakeNet [] true) 0%nat) _ _ _) _).
  - apply ex_wires_ok.
  - apply wire_partial; [by repeat split|vm_compute; lia].
  - by vm_compute.
  - by repeat constructor.
Defined.
End Witnesses.
