(* ===== verification/BrowserBridge.v ===== *)
(** A browser's stream together with the cloud it is registered with: [BrowserStream]
    (browser_stream.cpp) on one side, [SipBridge] and [CloudTunnelEndpoint] on the other.

    The bridge keeps the stream as a bare [BrowserSink*]; the stream keeps a reference to
    the bridge.  Here the pointer is the number [me], the cloud's outside world holds the
    stream itself, and a call through the pointer is a call of the stream
    ([sink_io]).  This makes the bridge an instance of the interface [BridgeHost] that the
    stream's own theorems are proved against. *)

From S2P Require Import Prelude Json WsFrame WsStream WsConn BrowserStream BrowserStreamSpec.
From S2P Require Import SipFrame FrameStream CloudTunnel CloudTunnelSpec.

#[local] Open Scope Z_scope.

(** The address of the stream. *)
Class Address := me : nat.

Section Join.
Context {S O : Type} `{!NetIO S} `{!CloudIO O} `{!JsonLib} `{!Address}.

#[global] Instance sink_io : CloudIO (Browser S * O) := {|
  agent_send t bytes h := let '(ok, o) := agent_send t bytes h.2 in (ok, (h.1, o));
  agent_close t h := (h.1, agent_close t h.2);
  browser_send b bytes h :=
    if (b =? me)%nat then (send_bytes bytes h.1, h.2) else (h.1, browser_send b bytes h.2);
  browser_close b reason h :=
    if (b =? me)%nat then (close reason h.1, h.2) else (h.1, browser_close b reason h.2);
  clock_now h := clock_now h.2;
|}.

(** The cloud without the stream. *)
Record Rest := mkRest {
  rest_bridge : Bridge (Browser S * O);
  rest_endpoint : Endpoint;
  rest_io : O;
  rest_outs : list out;
}.
Definition join (b : Browser S) (r : Rest) : Cloud (Browser S * O) :=
  mkCloud (rest_bridge r) (rest_endpoint r) (b, rest_io r) (rest_outs r).
Definition part (w : Cloud (Browser S * O)) : Browser S * Rest :=
  ((io w).1, mkRest (bridge w) (endpoint w) (io w).2 (outs w)).

Lemma join_part w : join (part w).1 (part w).2 = w.
Proof. by destruct w as [? ? [? ?] ?]. Qed.

(** The bridge as the stream sees it. *)
#[global] Instance bridge_host : BridgeHost S Rest := {|
  host_upgrade meta b r := let '(sid, w) := on_browser_upgrade (Some me) meta (join b r) in (sid, part w);
  host_data sid bytes b r := part (on_browser_data sid bytes (join b r));
  host_close sid reason b r := part (on_browser_close sid reason (join b r));
|}.

(** ** What an operation of the cloud does to the stream *)

Implicit Types (w : Cloud (Browser S * O)) (ops : list sink_op).

Definition points k w : Prop := m_browsers (bridge w) !! k = Some (Some me).
Definition unknown w : Prop := forall k, ~ points k w.
Definition is_send (op : sink_op) : bool := match op with SendBytes _ => true | _ => false end.

(** The installed handlers leave the stream alone: they reach it only through the
    bridge. *)
Definition handler_quiet (h : option (handler (Browser S * O))) : Prop :=
  match h with None => True | Some h => forall payload o, (h payload o).2.1 = o.1 end.
Definition quiet w : Prop :=
  let hs := m_handlers (bridge w) in
  handler_quiet (m_push_handler hs) /\ handler_quiet (m_cdr_handler hs) /\ handler_quiet (m_register_state_handler hs)
  /\ handler_quiet (m_agent_hello_handler hs) /\ handler_quiet (m_asterisk_status_handler hs).

(** [stays w w']: the pointer is stored nowhere new; the stream is called through it only
    when the table holds it, and is closed only if the pointer leaves the table. *)
Definition stays w w' : Prop :=
  m_handlers (bridge w') = m_handlers (bridge w)
  /\ (forall k, points k w' -> points k w)
  /\ exists ops, (io w').1 = run_sink ops (io w).1
       /\ (ops = [] \/ exists k, points k w)
       /\ ((exists k, points k w' /\ forall k', points k' w -> k' = k) -> Forall (fun op => is_send op = true) ops).

#[global] Instance stays_preorder : PreOrder stays.
Proof.
  split; [intros w; split_and!; [done|done|]; exists []; split_and!; [done|by left|done]|].
  intros w1 w2 w3 (Hq2 & Hp1 & ops1 & E1 & C1 & S1) (Hq3 & Hp2 & ops2 & E2 & C2 & S2).
  split_and!; [congruence|auto|].
  exists (ops1 ++ ops2). split_and!.
  - unfold run_sink in *. by rewrite fold_left_app, E2, E1.
  - destruct C1 as [-> |?]; [|by right]. destruct C2 as [-> |[k Hk]]; [by left|]. right. exists k. auto.
  - intros (k & Hk & Hu). apply Forall_app. split; [apply S1|apply S2]; exists k; auto.
Qed.

(** Most steps do not touch the stream at all. *)
Lemma stays_same w w' :
  m_handlers (bridge w') = m_handlers (bridge w) -> (io w').1 = (io w).1 -> (forall k, points k w' -> points k w) -> stays w w'.
Proof.
  intros Hh Hi Hp. split_and!; [done|done|]. exists [].
  split_and!; [done|by left|done].
Qed.
Lemma stays_bridge w w' : bridge w' = bridge w -> (io w').1 = (io w).1 -> stays w w'.
Proof. intros Hb Hi. apply stays_same; [by rewrite Hb|done|]. unfold points. by rewrite Hb. Qed.

Lemma stays_agent_send t s w : stays w (call_agent_send t s w).2.
Proof. unfold call_agent_send. cbn. destruct (agent_send t s (io w).2) as [ok o]. by apply stays_bridge. Qed.
Lemma stays_agent_close t w : stays w (call_agent_close t w).
Proof. by apply stays_bridge. Qed.

Lemma close_all_sink l w :
  exists ops, (io (close_all l w)).1 = run_sink ops (io w).1 /\ (ops = [] \/ exists k, (k, Some me) ∈ l).
Proof.
  revert w. induction l as [|[k [b|]] l IH]; intros w; [exists []; auto| |].
  - change (close_all ((k, Some b) :: l) w) with (close_all l (call_browser_close b "tunnel_lost" w)).
    destruct (IH (call_browser_close b "tunnel_lost" w)) as (ops & Hops & Hc). cbn in Hops.
    destruct (Nat.eqb_spec b me) as [-> |Hb]; cbn in Hops.
    + exists (CloseSink "tunnel_lost" :: ops). split; [done|]. right. exists k. by left.
    + exists ops. split; [done|]. destruct Hc as [-> |[k' Hk]]; [by left|]. right. exists k'. by right.
  - destruct (IH w) as (ops & Hops & Hc). exists ops. split; [done|].
    destruct Hc as [-> |[k' Hk]]; [by left|]. right. exists k'. by right.
Qed.

Lemma stays_on_tunnel_disconnect w : stays w (on_tunnel_disconnect w).
Proof.
  assert (Hu : unknown (on_tunnel_disconnect w)).
  { intros k. unfold points. rewrite bridge_on_tunnel_disconnect. cbn. by rewrite lookup_empty. }
  split_and!.
  - by rewrite bridge_on_tunnel_disconnect.
  - intros k Hk. by destruct (Hu k).
  - destruct (close_all_sink (map_to_list (m_browsers (bridge w))) w) as (ops & Hops & Hc).
    exists ops. split_and!; [done| |intros (k & Hk & _); by destruct (Hu k)].
    destruct Hc as [-> |[k Hk]]; [by left|]. right. exists k. by apply elem_of_map_to_list.
Qed.

Lemma stays_mark_disconnected w : stays w (mark_disconnected w).
Proof.
  unfold mark_disconnected.
  set (w1 := match m_transport (endpoint w) with Some t => _ | None => w end).
  transitivity w1; [unfold w1; destruct (m_transport _); [by apply stays_bridge|reflexivity]|].
  destruct (m_bridge _); [apply stays_on_tunnel_disconnect|reflexivity].
Qed.

Lemma stays_buffer_frame s w : stays w (buffer_frame s w).
Proof. unfold buffer_frame. destruct (_ || _); by apply stays_bridge. Qed.

Lemma stays_send_frame op sid p w : stays w (send_frame op sid p w).
Proof.
  unfold send_frame. destruct (m_transport _) as [t|]; [|apply stays_buffer_frame].
  pose proof (stays_agent_send t (encode op sid p) w) as Hs.
  destruct (call_agent_send _ _ _) as [[] w1]; cbn [snd] in Hs; [done|].
  etransitivity; [|apply stays_buffer_frame]. etransitivity; [exact Hs|apply stays_mark_disconnected].
Qed.

Lemma stays_tunnel_send op sid p w : stays w (tunnel_send op sid p w).
Proof. unfold tunnel_send. destruct (m_tunnel _); [apply stays_send_frame|reflexivity]. Qed.

Lemma stays_json op r w :
  stays w (match r with Throw e => (Throw e, w) | Ok payload => (Ok tt, tunnel_send op 0 payload w) end : result unit * _).2.
Proof. destruct r; [apply stays_tunnel_send|reflexivity]. Qed.
Lemma stays_bootstrap c r w : stays w (bootstrap_society c r w).2.
Proof. unfold bootstrap_society. destruct (negb _); [reflexivity|apply stays_json]. Qed.
Lemma stays_revoke c u w : stays w (revoke c u w).2.
Proof. unfold revoke. destruct (negb _); [reflexivity|apply stays_json]. Qed.

Lemma stays_run_handler h p w : handler_quiet h -> stays w (run_handler h p w).2.
Proof.
  destruct h as [h|]; [|reflexivity]. unfold run_handler, handler_quiet. intros Hh. specialize (Hh p (io w)).
  destruct (h p (io w)) as [[calls|e] h']; cbn [fst snd] in Hh; [|by apply stays_bridge].
  transitivity (with_io h' [] w); [by apply stays_bridge|].
  generalize (with_io h' [] w). clear. induction calls as [|[c r] calls IH]; intros w; [reflexivity|].
  pose proof (stays_bootstrap c r w) as Hb.
  destruct (bootstrap_society c r w) as [[[]|e] w1] eqn:Hbs; cbn [snd] in Hb.
  - rewrite (for_each_cons_ok _ _ _ _ w1) by done. by transitivity w1.
  - by rewrite (for_each_cons_throw _ _ _ _ e w1).
Qed.

Lemma stays_still_quiet w w' : stays w w' -> quiet w -> quiet w'.
Proof. intros [Hh _]. unfold quiet. by rewrite Hh. Qed.

Lemma points_delete k sid w w' :
  bridge w' = put_browsers (delete sid (m_browsers (bridge w))) (bridge w) -> points k w' -> k <> sid /\ points k w.
Proof.
  unfold points. intros ->. cbn. destruct (decide (k = sid)) as [-> |Hk]; [by rewrite lookup_delete_eq|].
  by rewrite lookup_delete_ne.
Qed.

Lemma stays_delete sid w :
  stays w (on_bridge (fun b => put_browsers (delete sid (m_browsers b)) b) w).
Proof. apply stays_same; [done|done|]. intros k Hk. by apply (points_delete k sid w) in Hk as [_ ?]. Qed.

Lemma stays_close_stream sid r w : stays w (close_stream sid r w).
Proof.
  unfold close_stream. destruct (m_browsers (bridge w) !! sid) as [[b|]|] eqn:Hs; [|apply stays_delete|reflexivity].
  destruct (decide (b = me)) as [-> |Hb].
  - set (w' := on_bridge _ _).
    assert (Hp : forall k, points k w' -> k <> sid /\ points k w) by (intros k; by apply points_delete).
    split_and!; [done|intros k Hk; by apply Hp|].
    exists [CloseSink r]. split_and!.
    + cbn. by rewrite Nat.eqb_refl.
    + right. by exists sid.
    + intros (k & Hk & Hu). destruct (Hp k Hk) as [Hne _]. destruct Hne. symmetry. by apply Hu.
  - etransitivity; [|apply stays_delete]. apply stays_bridge; [done|]. cbn. by rewrite (proj2 (Nat.eqb_neq _ _) Hb).
Qed.

Lemma stays_dispatch_frame f w : quiet w -> stays w (dispatch_frame f w).2.
Proof.
  intros (Hq1 & Hq2 & Hq3 & Hq4 & Hq5). unfold dispatch_frame.
  destruct (op f); cbn [snd];
    try reflexivity; try (by apply stays_run_handler); try apply stays_close_stream;
    try apply stays_tunnel_send.
  - destruct (m_browsers (bridge w) !! stream_id f) as [[b|]|] eqn:Hs; [|reflexivity..].
    destruct (decide (b = me)) as [-> |Hb].
    + split_and!; [done|done|]. exists [SendBytes (payload f)]. cbn. rewrite Nat.eqb_refl.
      split_and!; [done|right; by exists (stream_id f)|]. intros _. by apply Forall_singleton.
    + apply stays_bridge; [done|]. cbn. by rewrite (proj2 (Nat.eqb_neq _ _) Hb).
  - etransitivity; [|by apply stays_run_handler]. by apply stays_same.
Qed.

Lemma stays_read_loop fuel w : quiet w -> stays w (read_loop fuel w).2.
Proof.
  revert w. induction fuel as [|fuel IH]; intros w Hq; cbn [read_loop]; [reflexivity|].
  destruct (decode (recv_buffer w)) as [f n| |]; [|reflexivity|by apply stays_same].
  pose proof (stays_dispatch_frame f w Hq) as Hd. cbn [reader_dispatch bridge_reader] in *.
  destruct (dispatch_frame f w) as [[[]|e] w1]; cbn [snd] in *; [|done].
  transitivity w1; [done|]. apply stays_still_quiet in Hd as Hq1; [|done].
  etransitivity; [|by apply IH]. by apply stays_same.
Qed.

Lemma stays_on_bytes_received s w : quiet w -> stays w (on_bytes_received s w).2.
Proof.
  intros Hq. unfold on_bytes_received. set (w1 := on_endpoint (put_pings 0) w).
  transitivity w1; [by apply stays_same|].
  destruct (negb _); [reflexivity|].
  assert (Ht : stays w1 (on_tunnel_bytes s w1).2).
  { unfold on_tunnel_bytes, read_bytes. etransitivity; [|by apply stays_read_loop]. by apply stays_same. }
  destruct (on_tunnel_bytes s w1) as [[[]|e] w2]; cbn [snd] in *; [done| |done].
  transitivity w2; [done|apply stays_mark_disconnected].
Qed.

Lemma stays_flush_loop q w : stays w (flush_loop q w).
Proof.
  revert w. induction q as [|s q IH]; intros w; [reflexivity|]. cbn [flush_loop].
  destruct (m_transport _) as [t|]; [|reflexivity].
  pose proof (stays_agent_send t s w) as Hs.
  destruct (call_agent_send _ _ _) as [[] w1]; cbn [snd] in Hs; (etransitivity; [exact Hs|]).
  - etransitivity; [|apply IH]. by apply stays_same.
  - apply stays_mark_disconnected.
Qed.

Lemma stays_on_agent_connected t w : stays w (on_agent_connected t w).
Proof.
  destruct t as [t|]; [|reflexivity]. rewrite on_agent_connected_some. unfold flush_outbound.
  etransitivity; [|apply stays_flush_loop]. unfold installed.
  transitivity (match m_transport (endpoint w) with Some _ => mark_disconnected w | None => w end).
  { destruct (m_transport _); [apply stays_mark_disconnected|reflexivity]. }
  generalize (match m_transport (endpoint w) with Some _ => mark_disconnected w | None => w end).
  clear. intros w. cbn [endpoint on_endpoint put_transport put_pings m_clock].
  destruct (m_clock (endpoint w));
    cbn [endpoint on_endpoint put_transport put_pings put_last_heartbeat m_bridge];
    destruct (m_bridge (endpoint w)); by apply stays_same.
Qed.

Lemma stays_tick w : stays w (tick w).
Proof.
  unfold tick, maybe_heartbeat. destruct (m_transport (endpoint w)) as [t|]; [|reflexivity].
  destruct (negb _); [reflexivity|]. destruct (_ <=? 0); [reflexivity|]. destruct (_ <? _); [reflexivity|].
  destruct (_ <=? _); [apply stays_mark_disconnected|].
  destruct (m_transport _); [|apply stays_send_frame].
  etransitivity; [apply stays_send_frame|]. by apply stays_same.
Qed.

Lemma stays_on_browser_data sid s w : stays w (on_browser_data sid s w).
Proof. unfold on_browser_data. destruct (_ !! sid); [apply stays_tunnel_send|reflexivity]. Qed.
Lemma stays_on_browser_close sid r w : stays w (on_browser_close sid r w).
Proof.
  unfold on_browser_close. destruct (_ !! sid); [|reflexivity].
  etransitivity; [apply stays_delete|apply stays_tunnel_send].
Qed.

(** Another browser's stream is registered. *)
Lemma stays_other_upgrade b meta w : b <> Some me -> stays w (on_browser_upgrade b meta w).2.
Proof.
  intros Hb. unfold on_browser_upgrade. cbn [snd]. etransitivity; [|apply stays_tunnel_send].
  etransitivity; [by apply (stays_same w (on_bridge (put_next_stream_id (u32 (m_next_stream_id (bridge w) + 1))) w))|].
  destruct (m_browsers _ !! _); [reflexivity|]. apply stays_same; [done|done|].
  intros k. unfold points. cbn. intros [[_ ?]|[_ ?]]%lookup_insert_Some; [done|done].
Qed.

(** ** The stream's registration *)

Lemma sends_keep ops (b : Browser S) :
  Forall (fun op => is_send op = true) ops -> m_close_notified (run_sink ops b) = m_close_notified b.
Proof.
  intros Hs. revert b. induction Hs as [|[bytes|?] ops Hop Hs IH]; intros b; [done| |done].
  change (run_sink (SendBytes bytes :: ops) b) with (run_sink ops (send_bytes bytes b)).
  rewrite IH. unfold send_bytes. by destruct (m_handle (conn b)).
Qed.

(** The pointer is in the table at most under the stream's own id, and only while the
    stream has not told the bridge that it ended. *)
Definition own sid w : Prop := forall k, points k w -> k = sid /\ m_close_notified (io w).1 = false.

Lemma stays_own sid w w' : stays w w' -> own sid w -> own sid w'.
Proof.
  intros (_ & Hp & ops & Hops & _ & Hs) Ho k Hk. destruct (Ho k (Hp k Hk)) as [-> Hn]. split; [done|].
  rewrite Hops, sends_keep; [done|]. apply Hs. exists sid. split; [done|]. intros k' Hk'. by apply Ho.
Qed.
Lemma stays_unknown w w' : stays w w' -> unknown w -> unknown w' /\ (io w').1 = (io w).1.
Proof.
  intros (_ & Hp & ops & Hops & Hc & _) Hu. split; [intros k Hk; by apply (Hu k), Hp|].
  destruct Hc as [-> |[k Hk]]; [done|by destruct (Hu k)].
Qed.
Lemma stays_calls w w' : stays w w' -> sink_calls (io w).1 (io w').1.
Proof. intros (_ & _ & ops & Hops & _). by exists ops. Qed.

Lemma upgrade_me meta w :
  let r := on_browser_upgrade (Some me) meta w in
  sink_calls (io w).1 (io r.2).1 /\ m_handlers (bridge r.2) = m_handlers (bridge w)
  /\ (unknown w -> m_close_notified (io w).1 = false -> own r.1 r.2).
Proof.
  unfold on_browser_upgrade. set (sid := m_next_stream_id (bridge w)).
  set (w1 := match m_browsers _ !! sid with Some _ => _ | None => _ end). cbn [fst snd].
  assert (Hw1 : m_handlers (bridge w1) = m_handlers (bridge w) /\ (io w1).1 = (io w).1
                /\ forall k, points k w1 -> k = sid \/ points k w).
  { unfold w1. destruct (m_browsers _ !! sid); (split_and!; [done|done|]); intros k; [by right|].
    unfold points. cbn. intros [[? _]|[_ ?]]%lookup_insert_Some; auto. }
  destruct Hw1 as (Hh & Hi & Hp). pose proof (stays_tunnel_send OPEN sid meta w1) as Ht. rewrite <- Hi. split_and!.
  - by apply stays_calls.
  - by rewrite (proj1 Ht).
  - intros Hu Hn. apply (stays_own _ _ _ Ht). intros k Hk. destruct (Hp k Hk) as [-> |?]; [done|by destruct (Hu k)].
Qed.

#[global] Instance bridge_host_laws : BridgeHostLaws S Rest.
Proof.
  split.
  - intros meta b r. pose proof (upgrade_me meta (join b r)) as [Hc _].
    unfold host_upgrade, bridge_host. by destruct (on_browser_upgrade _ _ _).
  - intros sid bytes b r. apply (stays_calls (join b r)), stays_on_browser_data.
  - intros sid reason b r. apply (stays_calls (join b r)), stays_on_browser_close.
Qed.
End Join.
Arguments Rest : clear implicits.
