(* ===== verification/BrowserBridgeSpec.v ===== *)
(** What a browser's stream and the cloud guarantee together: the bridge never uses a
    stream that is gone, SIP messages of a browser reach the tunnel and SIP messages of the
    tunnel reach the browser, whole and in order. *)

From S2P Require Import Prelude Json WsFrame WsStream WsConn BrowserStream BrowserStreamSpec.
From S2P Require Import SipFrame FrameStream CloudTunnel CloudTunnelSpec BrowserBridge.

#[local] Open Scope Z_scope.

Section System.
Context {S O : Type} `{!NetIO S} `{!CloudIO O} `{!JsonLib} `{!Address}.
Implicit Types (w : Cloud (Browser S * O)) (x : World S (Rest S O)).

(** The cloud of a stream's world, stream included. *)
Definition cloud x : Cloud (Browser S * O) := join (browser x) (BrowserStream.bridge x).
Definition with_cloud w x : World S (Rest S O) := mkWorld (part w).1 (part w).2 (told x).

Lemma cloud_with_cloud w x : cloud (with_cloud w x) = w.
Proof. apply join_part. Qed.

(** ** Every callback keeps the registration *)

Definition registration x : Prop := own (m_stream_id (browser x)) (cloud x).
Definition keeps_registration x x' : Prop :=
  m_handlers (bridge (cloud x')) = m_handlers (bridge (cloud x))
  /\ m_stream_id (browser x') = m_stream_id (browser x)
  /\ (registration x -> registration x')
  /\ (unknown (cloud x) -> unknown (cloud x')).

#[global] Instance keeps_registration_preorder : PreOrder keeps_registration.
Proof.
  split; [intros x; unfold keeps_registration; auto|]. intros x y z (A1 & A2 & A3 & A4) (B1 & B2 & B3 & B4).
  unfold keeps_registration. split_and!; [congruence..|auto|auto].
Qed.

Lemma stays_registration x x' :
  stays (cloud x) (cloud x') -> m_stream_id (browser x') = m_stream_id (browser x) -> keeps_registration x x'.
Proof.
  intros Hs Hid. split_and!; [apply Hs|done| |].
  - unfold registration. rewrite Hid. by apply stays_own.
  - intros Hu. by apply (stays_unknown _ _ Hs).
Qed.

Lemma keeps_conn f x : keeps_registration x (on_browser (on_conn f) x).
Proof. unfold keeps_registration. auto. Qed.

Lemma cloud_tell_data bytes x :
  cloud (tell_data bytes x) = on_browser_data (m_stream_id (browser x)) bytes (cloud x).
Proof. apply join_part. Qed.

(** When the stream has told the bridge of its end, the bridge forgets it. *)
Lemma notify_forgets reason x :
  registration x -> unknown (cloud (notify_close_once reason x)).
Proof.
  unfold registration, notify_close_once. intros Ho. destruct (m_close_notified (browser x)) eqn:Hn.
  { intros k Hk. destruct (Ho k Hk) as [_ Hf]. cbn in Hf. congruence. }
  set (b0 := mkBrowser (conn (browser x)) (m_stream_id (browser x)) true).
  set (sid := m_stream_id (browser x)) in *. set (w0 := join b0 (BrowserStream.bridge x)).
  assert (Hs : unknown (on_browser_close sid reason w0)).
  { unfold on_browser_close. destruct (m_browsers (bridge w0) !! sid) eqn:Hl.
    - refine (proj1 (stays_unknown _ _ (stays_tunnel_send _ _ _ _) _)).
      intros k Hk. apply (points_delete k sid w0) in Hk as [Hne Hk]; [|done]. destruct Hne. by apply Ho.
    - intros k Hk. destruct (Ho k Hk) as [-> _]. unfold points in Hk. congruence. }
  unfold host_close, bridge_host. fold w0. intros k Hk. apply (Hs k). unfold cloud in Hk. cbn in Hk.
  unfold points in *. by rewrite <- (join_part (on_browser_close sid reason w0)).
Qed.

#[global] Instance keeps_registration_rel : CallbackRel keeps_registration.
Proof.
  split; [apply _|intros; apply keeps_conn..| |].
  - intros bytes x. apply stays_registration; [rewrite cloud_tell_data; apply stays_on_browser_data|].
    apply tell_data_told.
  - intros reason x. pose proof (notify_forgets reason x) as Hf. unfold notify_close_once in *.
    destruct (m_close_notified (browser x)) eqn:Hn; [reflexivity|].
    set (sid := m_stream_id (browser x)) in *.
    set (b0 := mkBrowser (conn (browser x)) sid true) in *. set (w0 := join b0 (BrowserStream.bridge x)).
    pose proof (stays_on_browser_close sid reason w0) as Hs.
    pose proof (stays_calls _ _ Hs) as [ops Hops]. unfold host_close, bridge_host in *. fold w0 in Hf |- *.
    split_and!; [exact (proj1 Hs)| | |].
    + cbn. rewrite Hops. etransitivity; [apply run_sink_id|done].
    + intros Ho k Hk. destruct (Hf Ho k Hk).
    + intros Hu k Hk. by apply (proj1 (stays_unknown _ _ Hs Hu) k).
Qed.

Lemma release_forgets reason x : registration x -> unknown (cloud (release reason x)).
Proof.
  intros Ho. unfold release. set (x1 := on_browser (on_conn cancel_ping_timer) x).
  intros k Hk. apply (notify_forgets reason x1) with k; [|exact Hk]. by apply keeps_conn.
Qed.
Lemma release_keeps reason x : keeps_registration x (release reason x).
Proof. unfold release. etransitivity; [|apply keeps_conn]. etransitivity; [apply keeps_conn|apply rel_notify]. Qed.

(** ** The whole system: the stream, the bridge, the endpoint and everybody else *)

(** What the cloud does that does not come from this stream: the agent's socket, the
    timer, the provisioning code, the other browsers' streams, and the world outside. *)
Inductive cloud_event : Cloud (Browser S * O) -> Cloud (Browser S * O) -> Prop :=
  | ev_agent_connected t w : cloud_event w (on_agent_connected t w)
  | ev_agent_disconnected w : cloud_event w (on_agent_disconnected w)
  | ev_bytes bytes w : cloud_event w (on_bytes_received bytes w).2
  | ev_tick w : cloud_event w (tick w)
  | ev_send op sid p w : cloud_event w (send_frame op sid p w)
  | ev_bootstrap c r w : cloud_event w (bootstrap_society c r w).2
  | ev_revoke c u w : cloud_event w (revoke c u w).2
  | ev_upgrade b meta w : b <> Some me -> cloud_event w (on_browser_upgrade b meta w).2
  | ev_data sid bytes w : cloud_event w (on_browser_data sid bytes w)
  | ev_close sid reason w : cloud_event w (on_browser_close sid reason w)
  | ev_outside o w : cloud_event w (with_io ((io w).1, o) [] w).

Lemma cloud_event_stays w w' : cloud_event w w' -> quiet w -> stays w w'.
Proof.
  intros He Hq. destruct He; eauto using stays_on_agent_connected, stays_on_bytes_received, stays_tick,
    stays_send_frame, stays_bootstrap, stays_revoke, stays_other_upgrade, stays_on_browser_data, stays_on_browser_close.
  - unfold on_agent_disconnected. destruct (m_transport _); [apply stays_mark_disconnected|reflexivity].
  - by apply stays_same.
Qed.

(** The stream's own events, without what [BrowserStream] leaves to its host. *)
Definition socket_event (e : event (Rest S O)) : bool := match e with HostActs _ _ => false | _ => true end.

Inductive sys_step : life S (Rest S O) -> life S (Rest S O) -> Prop :=
  | sys_socket e l : socket_event e = true -> sys_step l (react e l)
  | sys_register buf x :
      sys_step (Live buf x) (Live buf (on_browser (on_conn (fun c => (register_with_reactor c).2)) x))
  | sys_live buf x w : cloud_event (cloud x) w -> sys_step (Live buf x) (Live buf (with_cloud w x))
  | sys_dead x w : cloud_event (cloud x) w -> sys_step (Deleted x) (Deleted (with_cloud w x)).

Definition sys_ok (sid : Z) (l : life S (Rest S O)) : Prop :=
  life_ok sid l
  /\ match l with
     | Live _ x => quiet (cloud x) /\ registration x
     | Deleted x => quiet (cloud x) /\ unknown (cloud x)
     | Crashed => True
     end.

Lemma closed_down_sys sid x :
  quiet (cloud x) -> registration x -> life_ok sid (closed_down x) -> sys_ok sid (closed_down x).
Proof.
  intros Hq Ho Hl. split; [done|]. unfold closed_down, destroy, handle_close.
  pose proof (release_keeps "handle_close" x) as (H1 & _). pose proof (release_forgets "handle_close" x Ho) as Hu.
  pose proof (release_keeps "destroyed" (release "handle_close" x)) as (H2 & _ & _ & H3).
  split; [|by apply H3]. unfold quiet in *. by rewrite H2, H1.
Qed.

Lemma react_sys sid e l : socket_event e = true -> sys_ok sid l -> sys_ok sid (react e l).
Proof.
  intros He [Hl Hm]. pose proof (react_ok sid e l Hl) as Hl'.
  destruct l as [buf x|x|]; [|done|done]. destruct Hm as [Hq Ho].
  assert (Hk : forall x', keeps_registration x x' -> quiet (cloud x') /\ registration x').
  { intros x' (H1 & _ & H3 & _). split; [|by apply H3]. unfold quiet. by rewrite H1. }
  destruct e as [| | |]; cbn [react] in *; [| |done|by apply closed_down_sys].
  - pose proof (handle_input_rel keeps_registration buf x) as Hi.
    destruct (handle_input buf x); [by split; [|apply Hk]| |done|done]. by apply closed_down_sys; [apply Hk..|].
  - pose proof (handle_timeout_rel keeps_registration x) as Hi.
    destruct (handle_timeout x) as [[] x']; [by split; [|apply Hk]|]. by apply closed_down_sys; [apply Hk..|].
Qed.

Lemma cloud_sys sid buf x w : cloud_event (cloud x) w -> sys_ok sid (Live buf x) -> sys_ok sid (Live buf (with_cloud w x)).
Proof.
  intros He (Hl & Hq & Ho). pose proof (cloud_event_stays _ _ He Hq) as Hs.
  destruct (stays_calls _ _ Hs) as [ops Hops]. cbn [cloud join io fst] in Hops. split; [|split].
  - pose proof (react_ok sid (HostActs ops (part w).2) (Live buf x) Hl) as Hr. cbn [react] in Hr.
    unfold with_cloud. cbn [part fst snd]. by rewrite Hops.
  - rewrite cloud_with_cloud. by apply (stays_still_quiet _ _ Hs).
  - apply (stays_registration x); [by rewrite cloud_with_cloud| |done].
    cbn. rewrite Hops. apply run_sink_id.
Qed.

Lemma cloud_dead sid x w :
  cloud_event (cloud x) w -> sys_ok sid (Deleted x) -> browser (with_cloud w x) = browser x /\ sys_ok sid (Deleted (with_cloud w x)).
Proof.
  intros He (Hl & Hq & Hu). pose proof (cloud_event_stays _ _ He Hq) as Hs.
  destruct (stays_unknown _ _ Hs Hu) as [Hu' Hb]. split; [done|]. split; [|split].
  - unfold life_ok, gone, world_ok, ends_told, with_cloud in *. cbn in *. by rewrite Hb.
  - rewrite cloud_with_cloud. by apply (stays_still_quiet _ _ Hs).
  - by rewrite cloud_with_cloud.
Qed.

Lemma sys_step_ok sid l l' : sys_step l l' -> sys_ok sid l -> sys_ok sid l'.
Proof.
  intros Hst Hl. destruct Hst as [e l He|buf x|buf x w He|x w He].
  - by apply react_sys.
  - destruct Hl as ([Hw Hid] & Hq & Ho). split; [|split; [exact Hq|by apply keeps_conn]].
    split; [by apply registered_ok|done].
  - by apply cloud_sys.
  - by apply cloud_dead.
Qed.

Lemma new_stream_sys meta s (r : Rest S O) :
  quiet (join (mkBrowser (new_conn s) 0 false) r) -> unknown (join (mkBrowser (new_conn s) 0 false) r) ->
  sys_ok (m_stream_id (browser (new_stream meta s r))) (Live "" (new_stream meta s r)).
Proof.
  intros Hq Hu. split; [split; [apply new_stream_ok|done]|].
  unfold new_stream, host_upgrade, bridge_host. set (w0 := join _ r) in *.
  pose proof (upgrade_me meta w0) as (_ & Hh & Ho). destruct (on_browser_upgrade (Some me) meta w0) as [sid w].
  cbn [fst snd] in *. specialize (Ho Hu eq_refl). split; [|exact Ho]. unfold quiet in *. cbn in *. by rewrite Hh.
Qed.

(** C8. The bridge never uses a stream that is gone.  A stream is created in a cloud that
    does not know its address; then the socket, the timer, the agent, the other browsers
    and the provisioning code act in any order.  While the stream lives, its address is in
    the bridge's table at most under the stream's own id, and then its socket is open;
    once the reactor has deleted it, its address is nowhere in the table, and nothing the
    cloud does afterwards touches it. *)
Theorem no_dangling_sink meta s (r : Rest S O) l :
  quiet (join (mkBrowser (new_conn s) 0 false) r) -> unknown (join (mkBrowser (new_conn s) 0 false) r) ->
  let x0 := new_stream meta s r in
  rtc sys_step (Live "" x0) l ->
  match l with
  | Live _ x =>
      m_stream_id (browser x) = m_stream_id (browser x0)
      /\ forall k, m_browsers (bridge (cloud x)) !! k = Some (Some me) ->
           k = m_stream_id (browser x) /\ m_handle (conn (browser x)) = true
  | Deleted x =>
      (forall k, m_browsers (bridge (cloud x)) !! k <> Some (Some me))
      /\ forall l', rtc sys_step l l' -> exists x', l' = Deleted x' /\ browser x' = browser x
  | Crashed => True
  end.
Proof.
  intros Hq Hu x0 Hsteps.
  assert (Hl : sys_ok (m_stream_id (browser x0)) l).
  { eapply rtc_ind_r with (P := sys_ok (m_stream_id (browser x0))); [|intros; by eapply sys_step_ok|exact Hsteps].
    by apply new_stream_sys. }
  clear Hsteps. destruct l as [buf x|x|]; [| |done].
  - destruct Hl as ([[[_ Hc] _] Hid] & _ & Ho). split; [done|]. intros k Hk. destruct (Ho k Hk) as [-> Hn]. split; [done|].
    destruct (m_handle (conn (browser x))) eqn:Hh; [done|]. destruct (Hc eq_refl) as [Hn' _]. cbn in Hn. congruence.
  - split; [apply Hl|]. intros l' Hsteps. remember (Deleted x) as l eqn:El. revert x El Hl.
    induction Hsteps as [l|l1 l2 l3 Hst _ IH]; intros x -> Hl; [eauto|].
    inversion Hst; subst.
    + by apply IH.
    + destruct (cloud_dead _ _ _ H2 Hl) as [Hb Hl']. destruct (IH _ eq_refl Hl') as (x' & -> & Hx'). 
      exists x'. split; [done|]. congruence.
Qed.

(** ** From the browser to the tunnel *)

Lemma send_frame_bridge op sid p w :
  bridge (send_frame op sid p w) = bridge w \/ m_tunnel (bridge (send_frame op sid p w)) = false.
Proof.
  assert (Hb : forall (v : Cloud (Browser S * O)) s, bridge (buffer_frame s v) = bridge v)
    by (intros v s; unfold buffer_frame; by destruct (_ || _)).
  unfold send_frame. destruct (m_transport _) as [t|]; [|left; apply Hb].
  pose proof (bridge_call_agent_send t (SipFrame.encode op sid p) w) as He.
  destruct (call_agent_send _ _ _) as [[] w1]; cbn [snd] in He; [by left|].
  rewrite Hb, bridge_mark_disconnected, He. destruct (m_bridge _); [by right|by left].
Qed.

(** The tunnel can carry data of the stream, exactly and in order. *)
Definition carries sid w : Prop :=
  tunnel_inv w /\ unbounded w /\ m_tunnel (bridge w) = true /\ is_Some (m_browsers (bridge w) !! sid).

Lemma data_carried sid bytes w :
  carries sid w ->
  let w' := on_browser_data sid bytes w in
  tunnel_stream w' = tunnel_stream w ++ [SipFrame.encode DATA sid bytes]
  /\ (carries sid w' \/ m_tunnel (bridge w') = false).
Proof.
  intros (Hi & Hu & Ht & Hr). unfold on_browser_data, tunnel_send. destruct Hr as [k Hk]. rewrite Hk, Ht. cbn zeta.
  split; [by apply stream_send_frame|].
  destruct (evolves_send_frame DATA sid bytes w Hi) as (Hi' & Hc & _).
  destruct (send_frame_bridge DATA sid bytes w) as [Hb|]; [left|by right].
  unfold carries, unbounded in *. rewrite Hb, Hc. split_and!; [done|done|done|by eexists].
Qed.
Lemma data_dropped sid bytes w : m_tunnel (bridge w) = false -> on_browser_data sid bytes w = w.
Proof. unfold on_browser_data, tunnel_send. intros ->. by destruct (_ !! sid). Qed.

(** What the frames of a browser become on the tunnel. *)
Definition uplinked (sid : Z) (fs : list WsFrame.Frame) : list string :=
  map (fun f => SipFrame.encode DATA sid (WsFrame.payload f)) (filter (fun f => is_data (opcode f) = true) fs).

(** What [on_frame] does on the cloud's side. *)
Lemma on_frame_cloud f x :
  keeps_going f = true ->
  exists x', on_frame f x = Continue x' /\ m_stream_id (browser x') = m_stream_id (browser x)
    /\ if is_data (opcode f) then cloud x' = on_browser_data (m_stream_id (browser x)) (WsFrame.payload f) (cloud x)
       else exists b, cloud x' = join b (BrowserStream.bridge x).
Proof.
  unfold keeps_going, on_frame. destruct (is_data (opcode f)).
  - intros _. eexists. split_and!; [done|apply tell_data_told|apply cloud_tell_data].
  - cbn [orb]. destruct (_ =? kOpcodePing); [|cbn [orb]; intros ->]; eexists; (split; [done|]; split; [done|]; by eexists).
Qed.

Lemma carries_join sid b x : carries sid (cloud x) -> carries sid (join b (BrowserStream.bridge x)).
Proof. intros ([[] Hf] & Hu & Ht & Hr). by split_and!. Qed.

Lemma run_frames_cut fs x :
  Forall (fun f => keeps_going f = true) fs -> m_tunnel (bridge (cloud x)) = false ->
  exists x', run_frames on_frame fs x = Continue x' /\ tunnel_stream (cloud x') = tunnel_stream (cloud x)
    /\ m_tunnel (bridge (cloud x')) = false.
Proof.
  intros Hfs. revert x. induction Hfs as [|f fs Hf Hfs IH]; intros x Hx; [by exists x|]. cbn [run_frames].
  destruct (on_frame_cloud f x Hf) as (x1 & -> & _ & Hc).
  assert (H1 : m_tunnel (bridge (cloud x1)) = false /\ tunnel_stream (cloud x1) = tunnel_stream (cloud x)).
  { destruct (is_data (opcode f)); [rewrite Hc, data_dropped by done; done|]. destruct Hc as [b ->]. done. }
  destruct H1 as [Ht1 <-]. by apply IH.
Qed.

Lemma run_frames_carried fs x :
  let sid := m_stream_id (browser x) in
  Forall (fun f => keeps_going f = true) fs -> carries sid (cloud x) ->
  exists x' n, run_frames on_frame fs x = Continue x'
    /\ tunnel_stream (cloud x') = tunnel_stream (cloud x) ++ take n (uplinked sid fs)
    /\ (m_tunnel (bridge (cloud x')) = true -> take n (uplinked sid fs) = uplinked sid fs).
Proof.
  intros sid Hfs. revert x sid. induction Hfs as [|f fs Hf Hfs IH]; intros x sid Hx.
  { exists x, 0%nat. split_and!; [done|by rewrite app_nil_r|done]. }
  cbn [run_frames]. destruct (on_frame_cloud f x Hf) as (x1 & -> & Hid & Hc).
  specialize (IH x1). rewrite Hid in IH. fold sid in IH, Hc. unfold uplinked in *. rewrite filter_cons.
  destruct (is_data (opcode f)).
  - rewrite decide_True by done. cbn [map].
    destruct (data_carried sid (WsFrame.payload f) _ Hx) as [Hs Hn]. rewrite <- Hc in Hs, Hn.
    destruct Hn as [Hn|Hn].
    + destruct (IH Hn) as (x' & n & Hr & Hst & Hup). exists x', (Datatypes.S n).
      rewrite Hst, Hs, <- app_assoc. split_and!; [done|done|]. intros Hu. cbn. by rewrite Hup.
    + destruct (run_frames_cut fs x1 Hfs Hn) as (x' & Hr & Hst & Ht). exists x', 1%nat.
      rewrite Hst, Hs. split_and!; [done|done|congruence].
  - rewrite decide_False by done. destruct Hc as [b Hc].
    destruct IH as (x' & n & Hr & Hst & Hup); [rewrite Hc; by apply carries_join|].
    exists x', n. split_and!; [done| |done]. by rewrite Hst, Hc.
Qed.

(** C3. Uplink, end to end.  Whatever way the browser's frames are cut into reads, each of
    its SIP messages becomes one DATA frame of its stream on the tunnel, in order, behind
    everything that was queued or sent before; when the tunnel fails on the way exactly a
    prefix of them has been accepted or queued, and when it did not, all of them. *)
Theorem uplink_end_to_end chunks ws tail x :
  let sid := m_stream_id (browser x) in
  let sent := uplinked sid (map w_frame ws) in
  carries sid (cloud x) -> Forall wire_ok ws -> Forall (fun f => keeps_going f = true) (map w_frame ws) ->
  partial tail -> str_concat chunks = wire_stream ws +:+ tail ->
  exists x' n, feed on_frame chunks "" x = NeedBytes tail x'
    /\ tunnel_stream (cloud x') = tunnel_stream (cloud x) ++ take n sent
    /\ (m_tunnel (bridge (cloud x')) = true -> take n sent = sent).
Proof.
  intros sid sent Hx Hws Hk Ht Hc. pose proof (feed_stream on_frame chunks ws tail "" x Hws Ht partial_nil) as Hf.
  rewrite str_app_nil_l in Hf. specialize (Hf Hc).
  destruct (run_frames_carried _ x Hk Hx) as (x' & n & Hr & H1). rewrite Hr in Hf. eauto.
Qed.

(** ** From the tunnel to the browser *)

(** If the tunnel is still up afterwards, the stream and the table were left alone. *)
Definition undisturbed w w' : Prop :=
  m_tunnel (bridge w') = true ->
  m_tunnel (bridge w) = true /\ (io w').1 = (io w).1 /\ m_browsers (bridge w') = m_browsers (bridge w).
#[global] Instance undisturbed_preorder : PreOrder undisturbed.
Proof.
  split; [by intros w|]. intros w1 w2 w3 H1 H2 Hup. destruct (H2 Hup) as (Hup2 & E1 & E2).
  destruct (H1 Hup2) as (Hup1 & E3 & E4). split_and!; congruence.
Qed.

Lemma undisturbed_mark w : undisturbed w (mark_disconnected w).
Proof.
  unfold undisturbed. rewrite bridge_mark_disconnected. unfold mark_disconnected.
  destruct (m_bridge (endpoint w)) eqn:Hb; [done|]. intros Hup.
  destruct (m_transport (endpoint w)); cbn; by rewrite Hb.
Qed.
Lemma undisturbed_send_frame op sid p w : undisturbed w (send_frame op sid p w).
Proof.
  assert (Hb : forall (v : Cloud (Browser S * O)) s, undisturbed v (buffer_frame s v))
    by (intros v s; unfold buffer_frame; by destruct (_ || _)).
  unfold send_frame. destruct (m_transport _) as [t|]; [|apply Hb].
  assert (Hs : undisturbed w (call_agent_send t (SipFrame.encode op sid p) w).2).
  { unfold call_agent_send. cbn. by destruct (agent_send _ _ (io w).2). }
  destruct (call_agent_send _ _ _) as [[] w1]; cbn [snd] in Hs; [done|].
  etransitivity; [exact Hs|]. etransitivity; [apply undisturbed_mark|apply Hb].
Qed.
Lemma undisturbed_tunnel_send op sid p w : undisturbed w (tunnel_send op sid p w).
Proof. unfold tunnel_send. destruct (m_tunnel _); [apply undisturbed_send_frame|reflexivity]. Qed.
Lemma undisturbed_bootstrap c r w : undisturbed w (bootstrap_society c r w).2.
Proof.
  unfold bootstrap_society. destruct (negb _); [reflexivity|].
  destruct (json_dump _); [apply undisturbed_tunnel_send|reflexivity].
Qed.
Lemma undisturbed_run_handler h p w : handler_quiet h -> undisturbed w (run_handler h p w).2.
Proof.
  destruct h as [h|]; [|reflexivity]. unfold run_handler, handler_quiet. intros Hh. specialize (Hh p (io w)).
  destruct (h p (io w)) as [[calls|e] h']; cbn [fst snd] in Hh; [|done].
  transitivity (with_io h' [] w); [done|].
  generalize (with_io h' [] w). clear. induction calls as [|[c r] calls IH]; intros w; [reflexivity|].
  pose proof (undisturbed_bootstrap c r w) as Hb.
  destruct (bootstrap_society c r w) as [[[]|e] w1] eqn:Hbs; cbn [snd] in Hb.
  - rewrite (for_each_cons_ok _ _ _ _ w1) by done. by transitivity w1.
  - by rewrite (for_each_cons_throw _ _ _ _ e w1).
Qed.

(** The SIP messages of a sequence of tunnel frames that are for the stream. *)
Definition for_stream (sid : Z) (f : SipFrame.Frame) : list sink_op :=
  match op f with DATA => if decide (stream_id f = sid) then [SendBytes (payload f)] else [] | _ => [] end.
Definition ends_stream (sid : Z) (f : SipFrame.Frame) : Prop := op f = CLOSE /\ stream_id f = sid.

(** The stream is in the table, under its id and nowhere else. *)
Definition listed sid w : Prop := points sid w /\ forall k, points k w -> k = sid.

Lemma dispatch_down sid f w :
  quiet w -> listed sid w -> ~ ends_stream sid f ->
  let w' := (dispatch_frame f w).2 in
  m_tunnel (bridge w') = true ->
  m_tunnel (bridge w) = true /\ (io w').1 = run_sink (for_stream sid f) (io w).1 /\ listed sid w'.
Proof.
  intros (Hq1 & Hq2 & Hq3 & Hq4 & Hq5) [Hp Hu] He w' Hup.
  assert (Hsame : for_stream sid f = [] -> undisturbed w w' ->
            m_tunnel (bridge w) = true /\ (io w').1 = run_sink (for_stream sid f) (io w).1 /\ listed sid w').
  { intros -> Hun. destruct (Hun Hup) as (Ht & Hi & Hb). unfold listed, points. by rewrite Hb. }
  unfold w', dispatch_frame, for_stream in *. destruct (op f) eqn:Ho; cbn [snd] in *;
    try (apply Hsame; [done|first [reflexivity|by apply undisturbed_run_handler|apply undisturbed_tunnel_send]]).
  - destruct (decide (stream_id f = sid)) as [E|E].
    + rewrite E in *. unfold points in Hp. rewrite Hp in *. cbn [snd] in *. split_and!; [done| |done].
      cbn. by rewrite Nat.eqb_refl.
    + destruct (m_browsers (bridge w) !! stream_id f) as [[b|]|] eqn:Hl; [|by apply Hsame..].
      apply Hsame; [done|]. intros _. split_and!; [done| |done]. cbn.
      destruct (Nat.eqb_spec b me) as [-> |]; [|done]. destruct E. by apply Hu.
  - destruct (decide (stream_id f = sid)) as [E|E]; [by destruct He|]. unfold close_stream in *.
    destruct (m_browsers (bridge w) !! stream_id f) as [o|] eqn:Hl; [|by apply Hsame].
    split_and!.
    + by destruct o.
    + destruct o as [b|]; [|done]. cbn. destruct (Nat.eqb_spec b me) as [-> |]; [|done]. destruct E. by apply Hu.
    + split; [unfold points; by destruct o; cbn; rewrite lookup_delete_ne|].
      intros k Hk. apply Hu. by apply (points_delete k (stream_id f) w) in Hk as [_ ?]; [|destruct o].
  - apply Hsame; [done|]. etransitivity; [|by apply undisturbed_run_handler]. done.
Qed.

Lemma dispatches_down sid fs w w' :
  quiet w -> listed sid w -> Forall (fun f => ~ ends_stream sid f) fs ->
  for_each fs dispatch_frame w = (Ok tt, w') -> m_tunnel (bridge w') = true ->
  (io w').1 = run_sink (flat_map (for_stream sid) fs) (io w).1 /\ m_tunnel (bridge w) = true.
Proof.
  intros Hq Hl Hfs Hd Hup. revert w Hq Hl Hd. induction Hfs as [|f fs Hf Hfs IH]; intros w Hq Hl Hd.
  { injection Hd as ->. done. }
  pose proof (dispatch_down sid f w Hq Hl Hf) as H1. pose proof (stays_dispatch_frame f w Hq) as Hs.
  destruct (dispatch_frame f w) as [[[]|e] w1] eqn:Hw1; cbn [snd] in *.
  - rewrite (for_each_cons_ok _ _ _ _ w1) in Hd by done.
    pose proof (proj1 (blind_for_each fs dispatch_frame blind_dispatch_frame w1)) as Hb. rewrite Hd in Hb.
    destruct (Hb Hup) as [Hup1 _]. destruct (H1 Hup1) as (Ht & Hi & Hl').
    destruct (IH w1) as [E _]; [by apply (stays_still_quiet _ _ Hs)|done|done|]. split; [|done].
    cbn [flat_map]. rewrite E, Hi. unfold run_sink. by rewrite fold_left_app.
  - by rewrite (for_each_cons_throw _ _ _ _ e w1) in Hd.
Qed.

(** The text frames that carry SIP messages to the browser. *)
Definition text_frames (ops : list sink_op) : list string :=
  omap (fun o => match o with SendBytes bytes => Some (WsFrame.encode bytes kOpcodeText false 0 0) | _ => None end) ops.

Lemma sends_written ops (b : Browser S) :
  m_handle (conn b) = true -> Forall (fun o => is_send o = true) ops ->
  written (conn (run_sink ops b)) = written (conn b) ++ text_frames ops.
Proof.
  intros Hh Hs. revert b Hh. induction Hs as [|[bytes|?] ops Hop Hs IH]; intros b Hh; [by rewrite app_nil_r| |done].
  change (run_sink (SendBytes bytes :: ops) b) with (run_sink ops (send_bytes bytes b)).
  unfold send_bytes. rewrite Hh.
  assert (Hw : m_handle (write (WsFrame.encode bytes kOpcodeText false 0 0) (conn b)).2 = true
    /\ written (write (WsFrame.encode bytes kOpcodeText false 0 0) (conn b)).2
       = written (conn b) ++ [WsFrame.encode bytes kOpcodeText false 0 0]).
  { unfold write, written. rewrite Hh. destruct (net_send _ _). cbn. by rewrite omap_app. }
  rewrite IH by apply Hw. cbn [on_conn conn]. rewrite (proj2 Hw), <- app_assoc. done.
Qed.

Lemma for_stream_sends sid fs : Forall (fun o => is_send o = true) (flat_map (for_stream sid) fs).
Proof.
  induction fs as [|f fs IH]; [done|]. cbn. apply Forall_app. split; [|done].
  unfold for_stream. destruct (op f); try done. destruct (decide _); [|done]. by apply Forall_singleton.
Qed.

(** C4. Downlink, end to end.  Whatever way the agent's bytes are cut into reads, the
    payload of each DATA frame for the stream is written on the browser's socket as one
    text frame, in the order of the tunnel, and no other frame of the tunnel writes
    anything on it, provided the tunnel survives what the frames trigger and none of them
    closes the stream. *)
Theorem downlink_end_to_end chunks fs tail x w' :
  let sid := m_stream_id (browser x) in
  quiet (cloud x) -> listed sid (cloud x) -> m_handle (conn (browser x)) = true ->
  Forall frame_wf fs -> Forall (fun f => ~ ends_stream sid f) fs -> SipFrame.decode tail = NeedMore ->
  m_recv_buffer (bridge (cloud x)) = "" -> concat_strings chunks = encode_all fs +:+ tail ->
  for_each fs dispatch_frame (cloud x) = (Ok tt, w') -> m_tunnel (bridge w') = true ->
  exists w'', read_chunks chunks (cloud x) = (Ok true, w'')
    /\ (io w'').1 = run_sink (flat_map (for_stream sid) fs) (browser x)
    /\ written (conn (io w'').1) = written (conn (browser x)) ++ text_frames (flat_map (for_stream sid) fs).
Proof.
  intros sid Hq Hl Hh Hwf He Ht Hb Hc Hd Hup. exists (on_bridge (put_recv_buffer tail) w').
  assert (Hi : (io w').1 = run_sink (flat_map (for_stream sid) fs) (browser x))
    by exact (proj1 (dispatches_down sid fs (cloud x) w' Hq Hl He Hd Hup)).
  split_and!; [|done|].
  - change (on_bridge (put_recv_buffer tail) w') with (set_recv_buffer tail w').
    apply (@read_chunks_frames (Cloud (Browser S * O)) _ _ chunks fs tail (cloud x) w'); try done;
      cbn [recv_buffer bridge_reader]; by rewrite Hb, ?str_app_nil_l.
  - cbn [io on_bridge]. rewrite Hi. apply sends_written; [done|apply for_stream_sends].
Qed.
End System.

(** ** Concrete runs *)

Section Witnesses.
#[local] Instance no_json : JsonLib := table_json [].
#[local] Instance my_address : Address := 5%nat.
Definition net0 : FakeNet := mkFakeNet [] true.
Definition b0 : Browser FakeNet := mkBrowser (new_conn net0) 0 false.

(** A cloud whose agent 1 is connected, at time 100. *)
Definition ex_rest : Rest FakeNet Z :=
  (part (on_agent_connected (Some 1%nat) (new_cloud default_config true (b0, 100)))).2.
Definition ex_world : World FakeNet (Rest FakeNet Z) := new_stream "{}" net0 ex_rest.

Lemma no_dangling_sink_witness :
  let x := with_cloud (on_agent_disconnected (cloud ex_world)) ex_world in
  m_stream_id (browser x) = 1 /\ forall k, m_browsers (bridge (cloud x)) !! k = Some (Some me) ->
     k = 1 /\ m_handle (conn (browser x)) = true.
Proof.
  refine (no_dangling_sink "{}" net0 ex_rest (Live "" _) _ _ _).
  - by split_and!.
  - intros k. unfold points. cbn. by rewrite lookup_empty.
  - apply rtc_once. apply sys_live. apply ev_agent_disconnected.
Defined.

Lemma ex_table : m_browsers (bridge (cloud ex_world)) = {[1 := Some 5%nat]}.
Proof. by vm_compute. Qed.

Lemma uplink_end_to_end_witness :
  exists x' n, feed on_frame [wire_stream ex_wires] "" ex_world = NeedBytes "" x'
    /\ tunnel_stream (cloud x') = tunnel_stream (cloud ex_world) ++ take n [SipFrame.encode DATA 1 "REGISTER"]
    /\ (m_tunnel (bridge (cloud x')) = true -> take n [SipFrame.encode DATA 1 "REGISTER"] = [SipFrame.encode DATA 1 "REGISTER"]).
Proof.
  apply (uplink_end_to_end [wire_stream ex_wires] ex_wires "" ex_world).
  - split_and!; [|done|done|by eexists]. split; [|done]. constructor; try done.
    split; [done|]. intros k [o Hk]. rewrite ex_table in Hk. by apply lookup_singleton_Some in Hk as [<- _].
  - apply ex_wires_ok.
  - by repeat constructor.
  - apply partial_nil.
  - by vm_compute.
Defined.

Definition ex_down : list SipFrame.Frame :=
  [SipFrame.mkFrame DATA 1 "200 OK"; SipFrame.mkFrame PING 0 ""; SipFrame.mkFrame DATA 2 "other"].

Lemma downlink_end_to_end_witness :
  exists w'', read_chunks [str_take 7 (encode_all ex_down); str_drop 7 (encode_all ex_down)] (cloud ex_world) = (Ok true, w'')
    /\ (io w'').1 = run_sink [SendBytes "200 OK"] (browser ex_world)
    /\ written (conn (io w'').1) = [WsFrame.encode "200 OK" kOpcodeText false 0 0].
Proof.
  apply (downlink_end_to_end [str_take 7 (encode_all ex_down); str_drop 7 (encode_all ex_down)] ex_down "" ex_world
    (for_each ex_down dispatch_frame (cloud ex_world)).2).
  - by split_and!.
  - split; [done|]. intros k Hk. unfold points in Hk. rewrite ex_table in Hk.
    by apply lookup_singleton_Some in Hk as [<- _].
  - done.
  - by repeat constructor.
  - by repeat constructor; intros [? ?].
  - done.
  - done.
  - by vm_compute.
  - by vm_compute.
  - by vm_compute.
Defined.
End Witnesses.
