(* ===== verification/DispatchTask.v ===== *)
(** The agent's two worker tasks: [AriDispatchTask] (ari_dispatch_task.cpp) and
    [InnerTlsDispatchTask] (inner_tls_task.cpp).

    They are the same active object over different work: producers put work on a bounded
    queue, one worker thread runs it, [stop] shuts the worker down.  The threads interleave,
    so the task is a transition system: a state with the program counter of each thread, and
    a step for each access to what they share.  The queue is ACE's message queue: a
    producer waits while the queue holds [hwm] bytes or more.  [weight] is the size of the
    block that carries a piece of work and [run] the handler's effect; the worker catches
    what the handler throws, so only the effect counts. *)

From S2P Require Import Prelude.

Section Task.
Context {J W : Type} (weight : J -> nat) (run : J -> W -> result unit * W) (hwm : nat).

(** A message block: work ([MB_DATA], [MB_HANGUP]), or the poison pill ([MB_STOP]). *)
Inductive message := Work (j : J) | Poison.

(** Where the worker is: not spawned, before the test of [m_continue], in [getq], in a
    handler, gone. *)
Inductive worker_pc := NotSpawned | Testing | Getting | Running (j : J) | Exited.

(** Where the thread in [stop] is: not called, past the exchange of [m_stop_called], about
    to put the pill, in [wait], draining, returned. *)
Inductive stop_pc := NotCalled | Flagging | Putting | Waiting | Draining | Returned.

(** [start] sets [m_continue] and then spawns the worker. *)
Inductive start_pc := NotStarted | Activating | Started.

(** [accepted], [executed] and [dropped] are the history: what was put on the queue, run,
    and thrown away by [stop].  [pending] are the producers past their test of
    [m_continue]. *)
Record Task := mkTask {
  m_continue : bool;
  queue : list message;
  worker : worker_pc;
  starter : start_pc;
  stopper : stop_pc;
  pending : list J;
  world : W;
  accepted : list J;
  executed : list J;
  dropped : list J;
}.

Definition new_task (w : W) : Task := mkTask false [] NotSpawned NotStarted NotCalled [] w [] [] [].

Definition message_weight (m : message) : nat := match m with Work j => weight j | Poison => 0 end.
Definition queue_bytes (q : list message) : nat := sum_list_with message_weight q.
Definition full (t : Task) : bool := (hwm <=? queue_bytes (queue t))%nat.

Definition put_continue (b : bool) t : Task :=
  mkTask b (queue t) (worker t) (starter t) (stopper t) (pending t) (world t) (accepted t) (executed t) (dropped t).
Definition put_queue (q : list message) t : Task :=
  mkTask (m_continue t) q (worker t) (starter t) (stopper t) (pending t) (world t) (accepted t) (executed t) (dropped t).
Definition put_worker (w : worker_pc) t : Task :=
  mkTask (m_continue t) (queue t) w (starter t) (stopper t) (pending t) (world t) (accepted t) (executed t) (dropped t).
Definition put_starter (s : start_pc) t : Task :=
  mkTask (m_continue t) (queue t) (worker t) s (stopper t) (pending t) (world t) (accepted t) (executed t) (dropped t).
Definition put_stopper (s : stop_pc) t : Task :=
  mkTask (m_continue t) (queue t) (worker t) (starter t) s (pending t) (world t) (accepted t) (executed t) (dropped t).
Definition put_pending (p : list J) t : Task :=
  mkTask (m_continue t) (queue t) (worker t) (starter t) (stopper t) p (world t) (accepted t) (executed t) (dropped t).
Definition put_accepted (l : list J) t : Task :=
  mkTask (m_continue t) (queue t) (worker t) (starter t) (stopper t) (pending t) (world t) l (executed t) (dropped t).
Definition put_executed (w : W) (l : list J) t : Task :=
  mkTask (m_continue t) (queue t) (worker t) (starter t) (stopper t) (pending t) w (accepted t) l (dropped t).
Definition put_dropped (l : list J) t : Task :=
  mkTask (m_continue t) (queue t) (worker t) (starter t) (stopper t) (pending t) (world t) (accepted t) (executed t) l.

(** ** start *)

(** The owner starts the task once, and not after it asked it to stop. *)
Inductive start_step : Task -> Task -> Prop :=
  | start_continue t :
      starter t = NotStarted -> stopper t = NotCalled ->
      start_step t (put_starter Activating (put_continue true t))
  | start_activated t :
      starter t = Activating -> start_step t (put_starter Started (put_worker Testing t))
  | start_failed t :
      starter t = Activating -> start_step t (put_starter Started (put_continue false t)).

(** ** dispatch, dispatch_bytes, dispatch_disconnect *)

(** [dispatch_refused] is the [false] of a stopped task and [dispatch_failed] the one of a
    [putq] that failed. *)
Inductive dispatch_step : Task -> Task -> Prop :=
  | dispatch_refused t : m_continue t = false -> dispatch_step t t
  | dispatch_tested j t : m_continue t = true -> dispatch_step t (put_pending (pending t ++ [j]) t)
  | dispatch_put p1 j p2 t :
      pending t = p1 ++ j :: p2 -> full t = false ->
      dispatch_step t (put_accepted (accepted t ++ [j]) (put_queue (queue t ++ [Work j]) (put_pending (p1 ++ p2) t)))
  | dispatch_failed p1 j p2 t :
      pending t = p1 ++ j :: p2 -> dispatch_step t (put_pending (p1 ++ p2) t).

(** ** svc *)

Inductive svc_step : Task -> Task -> Prop :=
  | svc_continue t : worker t = Testing -> m_continue t = true -> svc_step t (put_worker Getting t)
  | svc_exit t : worker t = Testing -> m_continue t = false -> svc_step t (put_worker Exited t)
  | svc_get j q t :
      worker t = Getting -> queue t = Work j :: q -> svc_step t (put_worker (Running j) (put_queue q t))
  | svc_poison q t :
      worker t = Getting -> queue t = Poison :: q ->
      svc_step t (put_worker Exited (put_continue false (put_queue q t)))
  | svc_run j t :
      worker t = Running j ->
      svc_step t (put_worker Testing (put_executed (run j (world t)).2 (executed t ++ [j]) t)).

(** ** stop *)

Inductive stop_step : Task -> Task -> Prop :=
  | stop_called t : stopper t = NotCalled -> starter t <> Activating -> stop_step t (put_stopper Flagging t)
  | stop_flag t : stopper t = Flagging -> stop_step t (put_stopper Putting (put_continue false t))
  | stop_put t :
      stopper t = Putting -> full t = false -> stop_step t (put_stopper Waiting (put_queue (queue t ++ [Poison]) t))
  | stop_joined t :
      stopper t = Waiting -> worker t = NotSpawned \/ worker t = Exited -> stop_step t (put_stopper Draining t)
  | stop_drop m q t :
      stopper t = Draining -> queue t = m :: q ->
      stop_step t (put_dropped (dropped t ++ match m with Work j => [j] | Poison => [] end) (put_queue q t))
  | stop_drained t : stopper t = Draining -> queue t = [] -> stop_step t (put_stopper Returned t).

Inductive step : Task -> Task -> Prop :=
  | step_start t t' : start_step t t' -> step t t'
  | step_dispatch t t' : dispatch_step t t' -> step t t'
  | step_svc t t' : svc_step t t' -> step t t'
  | step_stop t t' : stop_step t t' -> step t t'.
End Task.
Arguments message : clear implicits.
Arguments worker_pc : clear implicits.
Arguments Task : clear implicits.

#[global] Instance stop_pc_eq_dec : EqDecision stop_pc.
Proof. solve_decision. Defined.

(** The work of the two tasks: a closure, whose block carries a pointer; plaintext, or the
    news that the transport is gone. *)
Definition ari_weight (j : nat) : nat := 8.
Inductive tls_work := Bytes (bytes : string) | Hangup.
Definition tls_weight (j : tls_work) : nat := match j with Bytes bytes => String.length bytes | Hangup => 0 end.
Definition tls_run {W} (on_bytes : option (string -> W -> result unit * W)) (on_disconnect : option (W -> result unit * W))
    (j : tls_work) (w : W) : result unit * W :=
  match j with
  | Bytes bytes => match on_bytes with Some f => f bytes w | None => (Ok tt, w) end
  | Hangup => match on_disconnect with Some f => f w | None => (Ok tt, w) end
  end.
(** ACE's default high water mark. *)
Definition ace_hwm : nat := 16 * 1024.

(** * What the worker tasks guarantee, over every interleaving
    of the producers, the worker and the thread that stops it. *)

Section Proofs.
Context {J W : Type} (weight : J -> nat) (run : J -> W -> result unit * W) (hwm : nat).
Implicit Types (t : Task J W).
Let step := step weight run hwm.

Definition works (q : list (message J)) : list J := omap (fun m => match m with Work j => Some j | Poison => None end) q.
Definition in_hand (w : worker_pc J) : list J := match w with Running j => [j] | _ => [] end.
Definition gone (w : worker_pc J) : Prop := w = NotSpawned \/ w = Exited.
Definition stopping t : Prop := stopper t <> NotCalled /\ stopper t <> Flagging.

Record task_ok (w0 : W) t : Prop := {
  ok_history : accepted t = executed t ++ in_hand (worker t) ++ dropped t ++ works (queue t);
  ok_world : world t = fold_left (fun w j => (run j w).2) (executed t) w0;
  ok_start : starter t <> Started -> worker t = NotSpawned /\ (starter t = Activating -> stopper t = NotCalled);
  ok_drain : stopper t = Draining \/ stopper t = Returned -> gone (worker t);
  ok_dropped : stopper t <> Draining -> stopper t <> Returned -> dropped t = [];
  ok_stopping : stopping t -> m_continue t = false;
  ok_pill : stopper t = Waiting -> Poison ∈ queue t \/ gone (worker t);
}.

Lemma new_task_ok w0 : task_ok w0 (new_task w0).
Proof. constructor; cbn; try done. unfold stopping. by intros []. Qed.

Lemma works_app q q' : works (q ++ q') = works q ++ works q'.
Proof. apply omap_app. Qed.

(** A step changes a few fields; the clauses that do not mention them carry over. *)
Ltac keep_ok := constructor; cbn in *; auto.

Lemma task_start_ok w0 t t' : start_step t t' -> task_ok w0 t -> task_ok w0 t'.
Proof.
  intros Hst [Hh Hw Hs Hd Hr Hc Hp]. destruct Hst as [t H1 H2|t H1|t H1]; keep_ok; try done.
  - intros _. split; [|done]. apply Hs. by rewrite H1.
  - intros [H3 H4]. cbn in *. by rewrite H2 in H3.
  - rewrite Hh. by destruct Hs as [-> _]; [rewrite H1|].
  - destruct Hs as [_ H3]; [by rewrite H1|]. rewrite H3 by done. by intros [].
  - destruct Hs as [_ H3]; [by rewrite H1|]. by rewrite H3.
Qed.

Lemma dispatch_ok w0 t t' : dispatch_step weight hwm t t' -> task_ok w0 t -> task_ok w0 t'.
Proof.
  intros Hst [Hh Hw Hs Hd Hr Hc Hp]. destruct Hst as [t H1|j t H1|p1 j p2 t H1 H2|p1 j p2 t H1]; keep_ok.
  - by rewrite omap_app, Hh, <- !app_assoc.
  - intros H3. destruct (Hp H3) as [H4|H4]; [|by right]. left. apply elem_of_app. by left.
Qed.

(** While the worker is there, nothing has been dropped and [stop] is still waiting. *)
Lemma worker_alive w0 t :
  task_ok w0 t -> ~ gone (worker t) ->
  dropped t = [] /\ starter t = Started /\ stopper t <> Draining /\ stopper t <> Returned.
Proof.
  intros [Hh Hw Hs Hd Hr Hc Hp] Hg.
  assert (Hs1 : stopper t <> Draining) by (intros He; apply Hg, Hd; auto).
  assert (Hs2 : stopper t <> Returned) by (intros He; apply Hg, Hd; auto).
  split_and!; [by apply Hr| |done|done].
  destruct (starter t) eqn:He; [| |done]; (destruct Hs as [Hn _]; [done|]; by destruct Hg; left).
Qed.

Lemma svc_ok w0 t t' : svc_step run t t' -> task_ok w0 t -> task_ok w0 t'.
Proof.
  intros Hst Hok. assert (Hg : ~ gone (worker t)) by (destruct Hst as [t H1 H2|t H1 H2|j q t H1 H2|q t H1 H2|j t H1]; rewrite H1; by intros []).
  destruct (worker_alive w0 t Hok Hg) as (L1 & L2 & L3 & L4). destruct Hok as [Hh Hw Hs Hd Hr Hc Hp].
  assert (Hw' : stopper t = Waiting -> Poison ∈ queue t) by (intros He; by destruct (Hp He)).
  destruct Hst as [t H1 H2|t H1 H2|j q t H1 H2|q t H1 H2|j t H1]; keep_ok; rewrite ?L2; try done; try tauto.
  - by rewrite Hh, H1.
  - by rewrite Hh, H1.
  - by rewrite Hh, H1, L1, H2.
  - rewrite H2 in Hw'. intros He. left. specialize (Hw' He). by apply elem_of_cons in Hw' as [|].
  - by rewrite Hh, H1, L1, H2.
  - intros _. by right; right.
  - by rewrite Hh, H1, L1, <- app_assoc.
  - by rewrite fold_left_app, Hw.
Qed.

(** Once [stop] was called the task is not being started. *)
Lemma not_activating w0 t s :
  task_ok w0 t -> stopper t <> NotCalled ->
  starter t <> Started -> worker t = NotSpawned /\ (starter t = Activating -> s = NotCalled).
Proof. intros [_ _ Hs _ _ _ _] Hn Hst. destruct (Hs Hst) as [H1 H2]. split; [done|]. intros Ha. by destruct Hn, H2. Qed.

Lemma gone_idle w : gone w -> in_hand w = [].
Proof. by intros [-> | ->]. Qed.

Lemma stop_ok w0 t t' : stop_step weight hwm t t' -> task_ok w0 t -> task_ok w0 t'.
Proof.
  intros Hst Hok. pose proof (not_activating w0 t) as Ha. destruct Hok as [Hh Hw Hs Hd Hr Hc Hp] eqn:E. clear E.
  destruct Hst as [t H1 H2|t H1|t H1 H2|t H1 H2|m q t H1 H2|t H1 H2];
    keep_ok; try done; try tauto; try (apply Ha; [done|by rewrite H1]); try (intros [?|?]; done); try (intros _ _; apply Hr; by rewrite H1);
    try (intros _; apply Hc; split; by rewrite H1).
  - intros [? ?]. cbn in *. done.
  - by rewrite omap_app, Hh, app_nil_r.
  - intros _. left. apply elem_of_app. right. by left.
  - rewrite Hh, H2, gone_idle by (apply Hd; auto). destruct m; cbn; by rewrite <- ?app_assoc, ?app_nil_r.
Qed.

Lemma step_ok w0 t t' : step t t' -> task_ok w0 t -> task_ok w0 t'.
Proof. destruct 1; eauto using task_start_ok, dispatch_ok, svc_ok, stop_ok. Qed.
Lemma steps_ok w0 t t' : rtc step t t' -> task_ok w0 t -> task_ok w0 t'.
Proof. induction 1; eauto using step_ok. Qed.
Lemma reachable_ok w0 t : rtc step (new_task w0) t -> task_ok w0 t.
Proof. intros Hs. eapply steps_ok; [exact Hs|apply new_task_ok]. Qed.

(** ** Shutting down *)

(** How far a stopping task is from its end. *)
Definition worker_rank (w : worker_pc J) : nat :=
  match w with Getting => 3 | Running _ => 2 | Testing => 1 | NotSpawned | Exited => 0 end.
Definition stop_rank (s : stop_pc) : nat :=
  match s with NotCalled | Flagging => 5 | Putting => 4 | Waiting => 2 | Draining => 1 | Returned => 0 end.
Definition distance t : nat :=
  3 * List.length (pending t) + List.length (queue t) + worker_rank (worker t) + stop_rank (stopper t).

Lemma stopping_step w0 t t' :
  task_ok w0 t -> stopping t -> step t t' -> stopping t' /\ (t' = t \/ distance t' < distance t).
Proof.
  intros Hok [Hn Hf] Hst. pose proof (ok_stopping _ _ Hok (conj Hn Hf)) as Hc. pose proof (ok_start _ _ Hok) as Hs.
  unfold stopping, distance.
  destruct Hst as [t t' Hst|t t' Hst|t t' Hst|t t' Hst]; destruct Hst; cbn in *; simplify_eq;
    try (by destruct Hn; apply Hs; [congruence|]); try congruence;
    repeat match goal with
    | H : worker _ = _ |- _ => rewrite H in *
    | H : stopper _ = _ |- _ => rewrite H in *
    | H : queue _ = _ |- _ => rewrite H in *
    | H : pending _ = _ |- _ => rewrite H in *
    end; rewrite ?length_app; cbn in *; (split; [done|]); (by left) || (right; lia).
Qed.

Lemma stopping_progress w0 t :
  task_ok w0 t -> stopping t -> stopper t <> Returned -> (stopper t = Putting -> full weight hwm t = false) ->
  exists t', step t t' /\ t' <> t /\ stopper t' <> Putting.
Proof.
  intros Hok [Hn Hf] Hr Hput. pose proof (ok_stopping _ _ Hok (conj Hn Hf)) as Hc.
  assert (Hstop : forall t', step t t' -> stopper t' <> stopper t -> stopper t' <> Putting ->
            exists t', step t t' /\ t' <> t /\ stopper t' <> Putting)
    by (intros t' H1 H2 H3; exists t'; split_and!; [done|by intros ->|done]).
  assert (Hwork : forall t', step t t' -> worker t' <> worker t -> stopper t' <> Putting ->
            exists t', step t t' /\ t' <> t /\ stopper t' <> Putting)
    by (intros t' H1 H2 H3; exists t'; split_and!; [done|by intros ->|done]).
  destruct (stopper t) eqn:Hs; try done.
  - eapply Hstop; [apply step_stop, stop_put; auto|done..].
  - destruct (worker t) eqn:Hw.
    + eapply Hstop; [apply step_stop, stop_joined; auto|done..].
    + eapply Hwork; [by apply step_svc, svc_exit|done|cbn; congruence].
    + destruct (queue t) as [|[j|] q] eqn:Hq.
      * destruct (ok_pill _ _ Hok Hs) as [Hp|Hg]; [rewrite Hq in Hp; by apply not_elem_of_nil in Hp|].
        rewrite Hw in Hg. by destruct Hg.
      * eapply Hwork; [by eapply step_svc, svc_get|done|cbn; congruence].
      * eapply Hwork; [by eapply step_svc, svc_poison|done|cbn; congruence].
    + eapply Hwork; [by eapply step_svc, svc_run|done|cbn; congruence].
    + eapply Hstop; [apply step_stop, stop_joined; auto|done..].
  - destruct (queue t) as [|m q] eqn:Hq.
    + eapply Hstop; [by apply step_stop, stop_drained|done..].
    + eexists. split_and!; [by eapply step_stop, stop_drop| |cbn; congruence].
      intros E. apply (f_equal queue) in E. cbn in E. rewrite Hq in E. apply (f_equal List.length) in E. cbn in E. lia.
Qed.

Lemma returned_stays w0 t t' :
  task_ok w0 t -> stopper t = Returned -> step t t' ->
  stopper t' = Returned /\ executed t' = executed t /\ world t' = world t /\ in_hand (worker t') = in_hand (worker t).
Proof.
  intros Hok Hr Hst. pose proof (ok_drain _ _ Hok (or_intror Hr)) as Hg. pose proof (ok_start _ _ Hok) as Hs.
  destruct Hst as [t t' Hst|t t' Hst|t t' Hst|t t' Hst]; destruct Hst; cbn in *; try done; try congruence;
    try (destruct Hg; congruence).
  destruct Hs as [_ Hs]; [congruence|]. rewrite Hs in Hr; done.
Qed.

(** ** Properties *)

(** C23. The worker runs the work in the order it was put on the queue, every piece at most
    once and one at a time, whatever the handlers throw and however the threads interleave;
    what was accepted has been run, is being run, still waits, or was thrown away by
    [stop].  After [stop] has returned nothing is run any more. *)
Theorem jobs_in_order w0 t :
  rtc step (new_task w0) t ->
  accepted t = executed t ++ in_hand (worker t) ++ dropped t ++ works (queue t)
  /\ world t = fold_left (fun w j => (run j w).2) (executed t) w0
  /\ (dropped t <> [] -> stopper t = Draining \/ stopper t = Returned)
  /\ (stopper t = Returned ->
      in_hand (worker t) = [] /\ forall t', rtc step t t' -> executed t' = executed t /\ world t' = world t).
Proof.
  intros Hs. pose proof (reachable_ok w0 t Hs) as Hok. split_and!; [apply Hok|apply Hok| |].
  - intros Hd. destruct (stopper t) eqn:E; auto; destruct Hd; apply Hok; by rewrite E.
  - intros Hr. split; [apply gone_idle, (ok_drain _ _ Hok); auto|]. intros t' Hs'. clear Hs.
    induction Hs' as [t|t t1 t2 H1 _ IH]; [done|].
    destruct (returned_stays w0 t t1 Hok Hr H1) as (R1 & R2 & R3 & _).
    destruct IH as [-> ->]; [by eapply step_ok|done|done].
Qed.

(** C24. [stop] returns.  From the moment the stopping thread has cleared [m_continue], every
    interleaving is finite, with a bound computed from the state, and it can always go on
    until [stop] has returned, provided the queue has room for the poison pill. *)
Theorem stop_terminates w0 t :
  rtc step (new_task w0) t -> stopping t -> (stopper t = Putting -> full weight hwm t = false) ->
  (exists t', rtc step t t' /\ stopper t' = Returned)
  /\ forall n t', nsteps (fun a b => step a b /\ b <> a) n t t' -> n <= distance t.
Proof.
  intros Hs Hst Hput. apply reachable_ok in Hs as Hok. clear Hs. split.
  - remember (distance t) as d eqn:Hd. revert t Hd Hok Hst Hput. induction (lt_wf d) as [d _ IH]. intros t -> Hok Hst Hput.
    destruct (decide (stopper t = Returned)) as [|Hr]; [by exists t|].
    destruct (stopping_progress w0 t Hok Hst Hr Hput) as (t1 & H1 & Hne & Hp).
    destruct (stopping_step w0 t t1 Hok Hst H1) as [Hst1 [->|Hlt]]; [done|].
    destruct (IH _ Hlt t1) as (t' & H2 & H3); [done|by eapply step_ok|done|done|].
    exists t'. split; [by eapply rtc_l|done].
  - intros n t'. clear Hput. revert t Hok Hst. induction n as [|n IH]; intros t Hok Hst Hn; [lia|].
    inversion Hn as [|? ? t1 ? [H1 Hne] H2]; subst. destruct (stopping_step w0 t t1 Hok Hst H1) as [Hst1 [->|Hlt]]; [done|].
    pose proof (IH t1 ltac:(by eapply step_ok) Hst1 H2). lia.
Qed.

(** The shutdown can hang.  When the worker has gone and the queue is full before
    [stop] puts its pill, [stop] waits for room that nobody will make: it never returns,
    whatever happens. *)
Theorem stop_can_hang w0 t t' :
  rtc step (new_task w0) t -> stopper t = Putting -> gone (worker t) -> full weight hwm t = true ->
  rtc step t t' -> stopper t' = Putting /\ queue t' = queue t.
Proof.
  intros Hs Hp Hg Hfull Hs'. apply reachable_ok in Hs as Hok. clear Hs.
  induction Hs' as [t|t t1 t2 H1 _ IH]; [done|].
  assert (Hnext : stopper t1 = Putting /\ gone (worker t1) /\ queue t1 = queue t).
  { pose proof (ok_start _ _ Hok) as Hst.
    destruct H1 as [t t1 H1|t t1 H1|t t1 H1|t t1 H1]; destruct H1; cbn in *; try done; try congruence;
      try (destruct Hg; congruence). destruct Hst as [_ Hst]; [congruence|]. rewrite Hst in Hp; done. }
  destruct Hnext as (N1 & N2 & N3). destruct IH as [E1 E2]; [done|done| |by eapply step_ok|].
  - unfold full in *. by rewrite N3.
  - split; [done|congruence].
Qed.
End Proofs.

Section Witnesses.
(** A handler of the connector that counts the bytes it was given, and throws. *)
Definition ex_run : tls_work -> nat -> result unit * nat :=
  tls_run (Some (fun bytes n => (Throw JsonParseError, n + String.length bytes))) None.
(** One message is being handled, a second one that fills the queue waits, and [stop] has
    cleared [m_continue]; then the worker leaves. *)
Definition ex_full : Task tls_work nat :=
  mkTask true [Work (Bytes "world")] (Running (Bytes "hello")) Started NotCalled [] 0 [Bytes "hello"; Bytes "world"] [] [].
Definition ex_stuck : Task tls_work nat :=
  mkTask false [Work (Bytes "world")] Exited Started Putting [] 5 [Bytes "hello"; Bytes "world"] [Bytes "hello"] [].

Definition ex_stopping : Task tls_work nat :=
  mkTask false [Work (Bytes "world")] (Running (Bytes "hello")) Started Putting [] 0 [Bytes "hello"; Bytes "world"] [] [].

Lemma ex_full_reached hwm : rtc (step tls_weight ex_run (S hwm)) (new_task 0) ex_full.
Proof.
  eapply rtc_l; [by apply step_start, start_continue|].
  eapply rtc_l; [by apply step_start, start_activated|].
  eapply rtc_l; [by apply step_svc, svc_continue|].
  eapply rtc_l; [by apply step_dispatch, (dispatch_tested _ _ (Bytes "hello"))|].
  eapply rtc_l; [by apply step_dispatch, (dispatch_put _ _ [] (Bytes "hello") [])|].
  eapply rtc_l; [by eapply step_svc, svc_get|].
  eapply rtc_l; [by apply step_dispatch, (dispatch_tested _ _ (Bytes "world"))|].
  apply rtc_once. by apply step_dispatch, (dispatch_put _ _ [] (Bytes "world") []).
Qed.
Lemma ex_stopping_reached hwm : rtc (step tls_weight ex_run (S hwm)) (new_task 0) ex_stopping.
Proof.
  etransitivity; [apply ex_full_reached|].
  eapply rtc_l; [by apply step_stop, stop_called|]. apply rtc_once. by apply step_stop, stop_flag.
Qed.
Lemma ex_stuck_reached hwm : rtc (step tls_weight ex_run (S hwm)) (new_task 0) ex_stuck.
Proof.
  etransitivity; [apply ex_stopping_reached|].
  eapply rtc_l; [by eapply step_svc, svc_run|]. apply rtc_once. by apply step_svc, svc_exit.
Qed.

Lemma jobs_in_order_witness : accepted ex_full = [] ++ [Bytes "hello"] ++ [] ++ [Bytes "world"].
Proof. exact (proj1 (jobs_in_order tls_weight ex_run 5 0 ex_full (ex_full_reached 4))). Defined.

Lemma stop_terminates_witness :
  exists t', rtc (step tls_weight ex_run 100) ex_stopping t' /\ stopper t' = Returned.
Proof.
  refine (proj1 (stop_terminates tls_weight ex_run 100 0 ex_stopping (ex_stopping_reached 99) _ _)); [by split|done].
Defined.

(** The queue is full at five bytes. *)
Lemma stop_can_hang_witness : stopper ex_stuck = Putting /\ queue ex_stuck = [Work (Bytes "world")].
Proof.
  refine (stop_can_hang tls_weight ex_run 5 0 ex_stuck ex_stuck (ex_stuck_reached 4) _ _ _ _);
    [done|by right|done|apply rtc_refl].
Defined.
End Witnesses.
