(* ===== verification/InnerTls.v ===== *)
(** The inner TLS layer: [InnerTlsClient] and [InnerTlsServer] (innertls.cpp), over the
    interface [IInnerTlsTransport].

    A session with its context and its two memory BIOs is the class [Tls], and the
    constructors over OpenSSL's own calls are the module [OpenSSL].  [TlsChannel] states what
    the code relies on once the handshake is done, in OpenSSL's documentation: reading
    yields, in order, the plaintext of the ciphertext that was written into the BIO, and
    wants more only when there is no more of it; writing yields ciphertext for the peer. *)

From S2P Require Import Prelude.

(** [SSL_connect] or [SSL_accept] with [SSL_get_error], and [SSL_read] with it. *)
Inductive hs_result := HsDone | HsWantRead | HsWantWrite | HsError.
Inductive rd_result := RdBytes (bytes : string) | RdWantRead | RdError.

(** [tls_pending] is [BIO_pending(m_wbio)], [tls_bio_read] is [BIO_read(m_wbio)] with [None]
    for zero or less, [tls_bio_write] writes to [m_rbio].  [tls_readable] bounds the number
    of times [SSL_read] can succeed before more is written. *)
Class Tls (T : Type) := {
  tls_server : string -> string -> string -> T;
  tls_client : T;
  tls_set_ca : string -> T -> T;
  tls_set_cert : string -> string -> T -> bool * T;
  tls_check_host : string -> T -> bool;
  tls_peer_cn : T -> string;
  tls_handshake : T -> hs_result * T;
  tls_write : string -> T -> bool * T;
  tls_read : T -> rd_result * T;
  tls_pending : T -> nat;
  tls_bio_read : nat -> T -> option string * T;
  tls_bio_write : string -> T -> T;
  tls_readable : T -> nat;
}.

(** [tr_recv] blocks; [None] outside is a call that does not return. *)
Class TlsTransport (X : Type) := {
  tr_send : string -> X -> bool * X;
  tr_recv : X -> option (option string * X);
}.

(** The number of rounds granted to a loop whose end is up to the peer. *)
Class Fuel := fuel : nat.

Section Inner.
Context {T X : Type} `{!Tls T} `{!TlsTransport X}.

Record Inner := mkInner { ssl : T; transport : X }.
Implicit Types (s : Inner).

(** Reading what is pending and sending it; [n] decides what a failed read means. *)
Definition send_pending (n : bool) s : bool * Inner :=
  let pending := tls_pending (ssl s) in
  if (pending =? 0)%nat then (true, s) else
  match tls_bio_read pending (ssl s) with
  | (None, t) => (n, mkInner t (transport s))
  | (Some buf, t) => let '(ok, x) := tr_send buf (transport s) in (ok, mkInner t x)
  end.
Definition flush_wbio s : bool * Inner := send_pending false s.

(** [handshake] and [accept]; [None] when the loop is still running. *)
Fixpoint handshake_loop (fuel : nat) s : option (bool * Inner) :=
  match fuel with
  | O => None
  | S fuel' =>
      let '(ret, t) := tls_handshake (ssl s) in
      let s := mkInner t (transport s) in
      match ret with
      | HsDone => Some (true, (flush_wbio s).2)
      | _ =>
          let '(ok, s) := send_pending true s in
          if negb ok then Some (false, s) else
          match ret with
          | HsWantRead =>
              match tr_recv (transport s) with
              | None => None
              | Some (None, x) => Some (false, mkInner (ssl s) x)
              | Some (Some buf, x) =>
                  let t := if str_empty buf then ssl s else tls_bio_write buf (ssl s) in
                  if str_empty buf && (tls_pending t =? 0)%nat then Some (false, mkInner t x)
                  else handshake_loop fuel' (mkInner t x)
              end
          | HsWantWrite => handshake_loop fuel' s
          | _ => Some (false, s)
          end
      end
  end.
Definition handshake `{!Fuel} s : option (bool * Inner) := handshake_loop fuel s.

Definition send (plaintext : string) s : bool * Inner :=
  match tls_write plaintext (ssl s) with
  | (false, t) => (false, mkInner t (transport s))
  | (true, t) => flush_wbio (mkInner t (transport s))
  end.

(** The loop over [SSL_read]: the plaintext, or [false]. *)
Fixpoint read_loop (fuel : nat) (plaintext : string) (t : T) : option (option string * T) :=
  match fuel with
  | O => None
  | S fuel' =>
      match tls_read t with
      | (RdBytes buf, t) => read_loop fuel' (plaintext +:+ buf) t
      | (RdWantRead, t) => Some (Some plaintext, t)
      | (RdError, t) => Some (None, t)
      end
  end.

Definition recv s : option (option string * Inner) :=
  match tr_recv (transport s) with
  | None => None
  | Some (None, x) => Some (None, mkInner (ssl s) x)
  | Some (Some wire, x) =>
      let t := if str_empty wire then ssl s else tls_bio_write wire (ssl s) in
      match read_loop (S (tls_readable t)) "" t with
      | None => None
      | Some (r, t) => Some (r, mkInner t x)
      end
  end.
End Inner.
Arguments Inner : clear implicits.

(** ** An established session *)

(** [fed] and [delivered] are the ciphertext written into the session and the plaintext
    read out of it so far, [sealed] and [emitted] the plaintext written and the ciphertext
    taken; [plain] maps the peer's ciphertext to its plaintext and [genuine] says that
    ciphertext is a beginning of what the peer sends. *)
Class TlsChannel (T : Type) `{!Tls T} := {
  tls_up : T -> Prop;
  fed : T -> string;
  delivered : T -> string;
  sealed : T -> string;
  emitted : T -> string;
  plain : T -> string -> string;
  genuine : T -> string -> Prop;
  genuine_prefix t c1 c2 : genuine t (c1 +:+ c2) -> genuine t c1;
  up_bio_write c t :
    tls_up t -> genuine t (fed t +:+ c) ->
    let t' := tls_bio_write c t in
    tls_up t' /\ fed t' = fed t +:+ c /\ delivered t' = delivered t /\ plain t' = plain t /\ genuine t' = genuine t
    /\ sealed t' = sealed t /\ emitted t' = emitted t;
  up_read t :
    tls_up t ->
    let t' := (tls_read t).2 in
    tls_up t' /\ fed t' = fed t /\ plain t' = plain t /\ genuine t' = genuine t
    /\ sealed t' = sealed t /\ emitted t' = emitted t
    /\ match (tls_read t).1 with
       | RdBytes b => b <> "" /\ delivered t' = delivered t +:+ b /\ (tls_readable t' < tls_readable t)%nat
       | RdWantRead => delivered t' = delivered t /\ delivered t = plain t (fed t)
       | RdError => False
       end;
  (** Writing and flushing together: the ciphertext of [p] is taken out at once. *)
  up_write p t :
    tls_up t -> p <> "" ->
    exists t1 c t2, tls_write p t = (true, t1) /\ tls_pending t1 <> 0%nat
      /\ tls_bio_read (tls_pending t1) t1 = (Some c, t2)
      /\ tls_up t2 /\ sealed t2 = sealed t +:+ p /\ emitted t2 = emitted t +:+ c
      /\ fed t2 = fed t /\ delivered t2 = delivered t /\ plain t2 = plain t /\ genuine t2 = genuine t;
}.

(** Two ends of one session: what one emits is the other's genuine ciphertext, and opens to
    what was written. *)
Definition linked {T} `{!Tls T} `{!TlsChannel T} (a b : T) : Prop :=
  genuine b (emitted a) /\ plain b (emitted a) = sealed a.

Section Channel.
Context {T X : Type} `{!Tls T} `{!TlsTransport X} `{!TlsChannel T}.

(** The state of the session but for what was read. *)
Definition same_channel (t t' : T) : Prop :=
  plain t' = plain t /\ genuine t' = genuine t /\ sealed t' = sealed t /\ emitted t' = emitted t.

Lemma read_loop_drains fuel acc t :
  tls_up t -> (tls_readable t < fuel)%nat ->
  exists p t', read_loop fuel acc t = Some (Some (acc +:+ p), t') /\ tls_up t' /\ fed t' = fed t
    /\ delivered t' = delivered t +:+ p /\ delivered t' = plain t (fed t) /\ same_channel t t'.
Proof.
  revert acc t. induction fuel as [|fuel IH]; intros acc t Hup Hf; [lia|]. cbn [read_loop].
  destruct (up_read t Hup) as (U & F & P & G & E1 & E2 & R). destruct (tls_read t) as [[b| |] t']; cbn [fst snd] in *.
  - destruct R as (Hb & Hd & Hr). destruct (IH (acc +:+ b) t' U) as (p & t2 & -> & U2 & F2 & D2 & D3 & S2); [lia|].
    exists (b +:+ p), t2. rewrite <- !str_app_assoc, <- Hd. unfold same_channel in *. rewrite P, F in *.
    destruct S2 as (S1 & S2 & S3 & S4). split_and!; try done; congruence.
  - destruct R as [Hd Hp]. exists "", t'. rewrite !str_app_nil_r. unfold same_channel. split_and!; congruence.
  - done.
Qed.

(** [recv] hands out everything that can be read, however many records it came in. *)
Lemma recv_drains s wire x :
  tls_up (ssl s) -> genuine (ssl s) (fed (ssl s) +:+ wire) -> tr_recv (transport s) = Some (Some wire, x) ->
  exists p t', recv s = Some (Some p, mkInner t' x) /\ tls_up t' /\ fed t' = fed (ssl s) +:+ wire
    /\ delivered t' = delivered (ssl s) +:+ p /\ delivered t' = plain (ssl s) (fed (ssl s) +:+ wire)
    /\ same_channel (ssl s) t'.
Proof.
  intros Hup Hg Hr. unfold recv. rewrite Hr. set (t := if str_empty wire then _ else _).
  assert (Ht : tls_up t /\ fed t = fed (ssl s) +:+ wire /\ delivered t = delivered (ssl s) /\ same_channel (ssl s) t).
  { unfold t. destruct (str_empty wire) eqn:He.
    - apply str_empty_true in He as ->. by rewrite str_app_nil_r.
    - destruct (up_bio_write wire (ssl s) Hup Hg) as (H1 & H2 & H3 & H4 & H5 & H6 & H7). unfold same_channel. auto 10. }
  destruct Ht as (U & F & D & C1 & C2 & C3 & C4).
  destruct (read_loop_drains (S (tls_readable t)) "" t U) as (p & t' & -> & U' & F' & D' & D2 & S1 & S2 & S3 & S4); [lia|].
  exists p, t'. rewrite str_app_nil_l. unfold same_channel. rewrite F', D', F, D, S1, C1, <- F in *.
  split_and!; try done; try congruence.
Qed.

(** [send] puts the ciphertext of exactly its plaintext on the transport, in one piece. *)
Lemma send_seals p s :
  tls_up (ssl s) -> p <> "" ->
  exists c t', send p s = (let '(ok, x) := tr_send c (transport s) in (ok, mkInner t' x))
    /\ tls_up t' /\ sealed t' = sealed (ssl s) +:+ p /\ emitted t' = emitted (ssl s) +:+ c
    /\ fed t' = fed (ssl s) /\ delivered t' = delivered (ssl s) /\ plain t' = plain (ssl s) /\ genuine t' = genuine (ssl s).
Proof.
  intros Hup Hp. destruct (up_write p (ssl s) Hup Hp) as (t1 & c & t2 & Hw & Hn & Hb & H1).
  exists c, t2. split; [|exact H1]. unfold send, flush_wbio, send_pending. rewrite Hw. cbn [ssl transport].
  apply Nat.eqb_neq in Hn. by rewrite Hn, Hb.
Qed.
End Channel.

(** A session that does not encrypt, for examples: the handshake is done at once. *)
Record PlainTls := mkPlainTls { p_fed : string; p_unread : string; p_sealed : string; p_wbio : string }.
#[global] Instance plain_tls : Tls PlainTls := {|
  tls_server _ _ _ := mkPlainTls "" "" "" "";
  tls_client := mkPlainTls "" "" "" "";
  tls_set_ca _ t := t;
  tls_set_cert _ _ t := (true, t);
  tls_check_host _ _ := true;
  tls_peer_cn _ := "agent";
  tls_handshake t := (HsDone, t);
  tls_write p t :=
    if str_empty p then (false, t) else (true, mkPlainTls (p_fed t) (p_unread t) (p_sealed t +:+ p) (p_wbio t +:+ p));
  tls_read t :=
    if str_empty (p_unread t) then (RdWantRead, t)
    else (RdBytes (p_unread t), mkPlainTls (p_fed t) "" (p_sealed t) (p_wbio t));
  tls_pending t := String.length (p_wbio t);
  tls_bio_read n t := (Some (p_wbio t), mkPlainTls (p_fed t) (p_unread t) (p_sealed t) "");
  tls_bio_write c t := mkPlainTls (p_fed t +:+ c) (p_unread t +:+ c) (p_sealed t) (p_wbio t);
  tls_readable t := String.length (p_unread t);
|}.

(** What was read is what was fed before the unread rest. *)
Definition p_delivered (t : PlainTls) : string := str_take (String.length (p_fed t) - String.length (p_unread t)) (p_fed t).
#[global] Program Instance plain_channel : TlsChannel PlainTls := {|
  tls_up t := p_wbio t = "" /\ p_fed t = p_delivered t +:+ p_unread t;
  fed := p_fed;
  delivered := p_delivered;
  sealed := p_sealed;
  emitted := p_sealed;
  plain _ c := c;
  genuine _ _ := True;
|}.
Next Obligation. done. Qed.
Next Obligation.
  intros c [f u s w] [Hw Hf] _. cbn in *. subst w. unfold p_delivered in *. cbn in *.
  assert (E : str_take (String.length (f +:+ c) - String.length (u +:+ c)) (f +:+ c) = str_take (String.length f - String.length u) f).
  { rewrite !str_length_app. replace (_ - _)%nat with (String.length f - String.length u)%nat by lia. apply str_take_app_le. lia. }
  rewrite E. split_and!; try done. by rewrite <- str_app_assoc, <- Hf.
Qed.
Next Obligation.
  intros [f u s w] [Hw Hf]. cbn in *. subst w. unfold p_delivered in *. cbn in *.
  destruct (str_empty u) eqn:Hu; cbn.
  - apply str_empty_true in Hu as ->. rewrite Nat.sub_0_r, str_take_all in * by lia. done.
  - assert (E : str_take (String.length f - 0) f = f) by (apply str_take_all; lia). rewrite E, str_app_nil_r.
    split_and!; try done; [by apply str_empty_false|]. destruct u; [done|cbn; lia].
Qed.
Next Obligation.
  intros p [f u s w] [Hw Hf] Hp. cbn in *. subst w. apply str_empty_false in Hp. rewrite Hp.
  do 3 eexists. split_and!; [done| |done|..]; try done.
  cbn. destruct p; [done|]. done.
Qed.

(** ** The OpenSSL objects of a session *)

Module OpenSSL.

(** Of a certificate's check: [SSL_VERIFY_NONE] and [SSL_VERIFY_PEER] (without
    [SSL_VERIFY_FAIL_IF_NO_PEER_CERT]). *)
Inductive verify_mode := VerifyNone | VerifyPeer.

(** The calls of OpenSSL on a context and on a session; the argument of [SSL_CTX_new] says
    whether the method is the server's, [read_x509] opens the file and parses it, and the
    session's calls get the context that the session refers to. *)
Class OpenSsl (C S X509 : Type) := {
  SSL_CTX_new : bool -> C;
  SSL_CTX_set_min_tls12 : C -> C;
  SSL_CTX_load_verify_locations : string -> C -> bool * C;
  SSL_CTX_set_verify : verify_mode -> C -> C;
  SSL_CTX_use_certificate_file : string -> C -> bool * C;
  SSL_CTX_use_PrivateKey_file : string -> C -> bool * C;
  SSL_CTX_add_client_CA : X509 -> C -> C;
  read_x509 : string -> option X509;
  verify_env : option string;
  SSL_new : C -> S;
  SSL_set_state : bool -> S -> S;
  SSL_use_certificate_file : string -> S -> bool * S;
  SSL_use_PrivateKey_file : string -> S -> bool * S;
  SSL_check_private_key : S -> bool;
  SSL_get_peer_certificate : S -> option X509;
  X509_check_host : X509 -> string -> bool;
  X509_common_name : X509 -> option string;
  SSL_do_handshake : C -> S -> hs_result * S;
  SSL_write : C -> string -> S -> bool * S;
  SSL_read : C -> S -> rd_result * S;
  wbio_pending : S -> nat;
  wbio_read : nat -> S -> option string * S;
  rbio_write : string -> S -> S;
  SSL_readable : S -> nat;
}.

Section Objects.
Context {C S X509 : Type} `{!OpenSsl C S X509}.

(** The two pointers of [InnerTlsClient] and of [InnerTlsServer]; the memory BIOs belong to
    the session. *)
Record Session := mkSession { m_ctx : C; m_ssl : S }.
Implicit Types (s : Session).

(** The constructors.  The client's session is made by the member initialisers, before the
    body runs. *)
Definition new_client : Session :=
  let ctx := SSL_CTX_new false in
  let ssl := SSL_new ctx in
  mkSession (SSL_CTX_set_min_tls12 ctx) (SSL_set_state false ssl).

Definition verify_off : bool := match verify_env with Some v => str_eqb v "0" | None => false end.
Definition new_server (cert_path key_path ca_path : string) : Session :=
  let ctx := SSL_CTX_set_min_tls12 (SSL_CTX_new true) in
  let ctx := (SSL_CTX_use_certificate_file cert_path ctx).2 in
  let ctx := (SSL_CTX_use_PrivateKey_file key_path ctx).2 in
  let ctx :=
    if str_empty ca_path then ctx else
    let ctx := (SSL_CTX_load_verify_locations ca_path ctx).2 in
    let ctx := match read_x509 ca_path with Some ca => SSL_CTX_add_client_CA ca ctx | None => ctx end in
    SSL_CTX_set_verify (if verify_off then VerifyNone else VerifyPeer) ctx in
  mkSession ctx (SSL_set_state true (SSL_new ctx)).

Definition set_ca (ca_path : string) s : Session :=
  if str_empty ca_path then s else
  mkSession (SSL_CTX_set_verify VerifyPeer (SSL_CTX_load_verify_locations ca_path (m_ctx s)).2) (m_ssl s).

Definition set_cert (cert_path key_path : string) s : bool * Session :=
  let '(ok, ssl) := SSL_use_certificate_file cert_path (m_ssl s) in
  if negb ok then (false, mkSession (m_ctx s) ssl) else
  let '(ok, ssl) := SSL_use_PrivateKey_file key_path ssl in
  if negb ok then (false, mkSession (m_ctx s) ssl) else (SSL_check_private_key ssl, mkSession (m_ctx s) ssl).

Definition verify_hostname (hostname : string) s : bool :=
  match SSL_get_peer_certificate (m_ssl s) with None => false | Some cert => X509_check_host cert hostname end.
Definition peer_subject_cn s : string :=
  match SSL_get_peer_certificate (m_ssl s) with
  | None => ""
  | Some cert => match X509_common_name cert with Some cn => cn | None => "" end
  end.

Definition on_ssl {A} (f : S -> A * S) s : A * Session := let '(r, ssl) := f (m_ssl s) in (r, mkSession (m_ctx s) ssl).

#[local] Instance openssl_session : Tls Session := {|
  tls_server := new_server;
  tls_client := new_client;
  tls_set_ca := set_ca;
  tls_set_cert := set_cert;
  tls_check_host := verify_hostname;
  tls_peer_cn := peer_subject_cn;
  tls_handshake s := on_ssl (SSL_do_handshake (m_ctx s)) s;
  tls_write p s := on_ssl (SSL_write (m_ctx s) p) s;
  tls_read s := on_ssl (SSL_read (m_ctx s)) s;
  tls_pending s := wbio_pending (m_ssl s);
  tls_bio_read n s := on_ssl (wbio_read n) s;
  tls_bio_write c s := mkSession (m_ctx s) (rbio_write c (m_ssl s));
  tls_readable s := SSL_readable (m_ssl s);
|}.

(** What the manual says of the settings: a context does not verify unless it is told to
    ([SSL_CTX_set_verify]); a session takes the context's settings when it is made
    ([SSL_new]), and is changed by the calls on itself. *)
Class OpenSslLaws := {
  ctx_verify : C -> verify_mode;
  ssl_verify : S -> verify_mode;
  ctx_new_verify b : ctx_verify (SSL_CTX_new b) = VerifyNone;
  ctx_set_verify m c : ctx_verify (SSL_CTX_set_verify m c) = m;
  ctx_min_verify c : ctx_verify (SSL_CTX_set_min_tls12 c) = ctx_verify c;
  ctx_cert_verify p c : ctx_verify (SSL_CTX_use_certificate_file p c).2 = ctx_verify c;
  ctx_key_verify p c : ctx_verify (SSL_CTX_use_PrivateKey_file p c).2 = ctx_verify c;
  ssl_new_verify c : ssl_verify (SSL_new c) = ctx_verify c;
  ssl_state_verify b t : ssl_verify (SSL_set_state b t) = ssl_verify t;
  ssl_cert_verify p t : ssl_verify (SSL_use_certificate_file p t).2 = ssl_verify t;
  ssl_key_verify p t : ssl_verify (SSL_use_PrivateKey_file p t).2 = ssl_verify t;
  ssl_handshake_verify c t : ssl_verify (SSL_do_handshake c t).2 = ssl_verify t;
  ssl_out_verify n t : ssl_verify (wbio_read n t).2 = ssl_verify t;
  ssl_in_verify b t : ssl_verify (rbio_write b t) = ssl_verify t;
}.
Context `{!OpenSslLaws}.

(** How the session checks the peer's certificate. *)
Definition checks s : verify_mode := ssl_verify (m_ssl s).

Lemma server_checks cert key ca :
  checks (new_server cert key ca) = if str_empty ca || verify_off then VerifyNone else VerifyPeer.
Proof.
  unfold checks, new_server. cbn [m_ssl]. rewrite ssl_state_verify, ssl_new_verify.
  destruct (str_empty ca); cbn [orb].
  - by rewrite ctx_key_verify, ctx_cert_verify, ctx_min_verify, ctx_new_verify.
  - rewrite ctx_set_verify. by destruct verify_off.
Qed.
Lemma client_checks : checks new_client = VerifyNone.
Proof. unfold checks, new_client. cbn [m_ssl]. by rewrite ssl_state_verify, ssl_new_verify, ctx_new_verify. Qed.
(** [set_ca] comes too late for the session. *)
Lemma set_ca_checks ca s : checks (set_ca ca s) = checks s.
Proof. unfold checks, set_ca. by destruct (str_empty ca). Qed.
Lemma set_cert_checks cert key s : checks (set_cert cert key s).2 = checks s.
Proof.
  unfold checks, set_cert. pose proof (ssl_cert_verify cert (m_ssl s)) as E.
  destruct (SSL_use_certificate_file cert (m_ssl s)) as [[] t]; cbn [snd negb] in *; [|done].
  pose proof (ssl_key_verify key t) as E2. destruct (SSL_use_PrivateKey_file key t) as [[] t']; cbn [snd negb] in *; cbn; congruence.
Qed.

Context {X : Type} `{!TlsTransport X}.
Lemma send_pending_checks n (i : Inner Session X) : checks (ssl (send_pending n i).2) = checks (ssl i).
Proof.
  unfold send_pending. destruct (_ =? 0)%nat; [done|]. cbn [tls_bio_read openssl_session]. unfold on_ssl.
  pose proof (ssl_out_verify (tls_pending (ssl i)) (m_ssl (ssl i))) as E.
  destruct (wbio_read _ _) as [[b|] t]; [|exact E]. cbn [snd] in E. by destruct (tr_send b (transport i)).
Qed.
Lemma handshake_checks `{!Fuel} (i : Inner Session X) r :
  handshake i = Some r -> checks (ssl r.2) = checks (ssl i).
Proof.
  unfold handshake. generalize (fuel : nat). intros n. revert i r. induction n as [|n IH]; intros i r; [done|]. cbn [handshake_loop].
  cbn [tls_handshake openssl_session]. unfold on_ssl.
  pose proof (ssl_handshake_verify (m_ctx (ssl i)) (m_ssl (ssl i))) as E. destruct (SSL_do_handshake _ _) as [h t]. cbn [snd] in E.
  set (j := mkInner (mkSession (m_ctx (ssl i)) t) (transport i)). assert (Ej : checks (ssl j) = checks (ssl i)) by exact E.
  pose proof (send_pending_checks true j) as E1.
  destruct h; [intros [= <-]; cbn [snd]; unfold flush_wbio; by rewrite send_pending_checks|..];
    destruct (send_pending true j) as [[] k]; cbn [negb snd] in *; try (intros [= <-]; cbn [snd]; congruence).
  - destruct (tr_recv (transport k)) as [[[b|] x]|]; [| |done].
    + assert (Eb : checks (if str_empty b then ssl k else tls_bio_write b (ssl k)) = checks (ssl i)).
      { destruct (str_empty b); [congruence|]. unfold checks. cbn. rewrite ssl_in_verify. unfold checks in *. congruence. }
      destruct (str_empty b && _); [intros [= <-]; exact Eb|]. intros Hr. apply IH in Hr. rewrite Hr. exact Eb.
    + intros [= <-]. cbn. congruence.
  - intros Hr. apply IH in Hr. congruence.
Qed.
End Objects.
Arguments Session : clear implicits.
End OpenSSL.
