(* ===== verification/WsTlsBridge.v ===== *)
(** [WsInnerTlsBridge] (ws_inner_tls_bridge.cpp): the transport of the inner TLS over a
    WebSocket.  During the handshake [recv] blocks on the socket; afterwards it takes
    from a queue that the owner's event handler fills. *)

From S2P Require Import Prelude WsFrame WsStream WsConn InnerTls.

#[local] Open Scope Z_scope.

Section Bridge.
Context {N : Type} `{!NetIO N} `{!Fuel}.

(** [m_recv_raw] and [m_send_raw] are the owner's socket, which is part of the state. *)
Record TlsBridge := mkTlsBridge {
  m_client_mask : bool;
  m_buffered : bool;
  m_closed : bool;
  m_socket_buf : string;
  m_inbound : list string;
}.
Implicit Types (b : TlsBridge) (c : Conn N).

Definition new_bridge (client_mask : bool) : TlsBridge := mkTlsBridge client_mask false false "" [].
Definition put_socket_buf (s : string) b : TlsBridge :=
  mkTlsBridge (m_client_mask b) (m_buffered b) (m_closed b) s (m_inbound b).
Definition put_inbound (q : list string) b : TlsBridge :=
  mkTlsBridge (m_client_mask b) (m_buffered b) (m_closed b) (m_socket_buf b) q.
Definition mark_closed b : TlsBridge :=
  mkTlsBridge (m_client_mask b) (m_buffered b) true (m_socket_buf b) (m_inbound b).

Definition send (data : string) (x : TlsBridge * Conn N) : bool * (TlsBridge * Conn N) :=
  let '(b, c) := x in
  if m_closed b then (false, x) else
  let '(ok, c) := write_frame (m_client_mask b) data kOpcodeBinary c in (ok, (b, c)).

(** [None] when the loop is still running, or the decoder is undefined. *)
Fixpoint blocking_recv (fuel : nat) (x : TlsBridge * Conn N) : option (option string * (TlsBridge * Conn N)) :=
  match fuel with
  | O => None
  | S fuel' =>
      let '(b, c) := x in
      match decode (m_socket_buf b) with
      | Undefined => None
      | GotFrame f rest =>
          let b := put_socket_buf rest b in
          if is_data (opcode f) then Some (Some (payload f), (b, c))
          else if opcode f =? kOpcodePing then
            let '(ok, c) := write_frame (m_client_mask b) (payload f) kOpcodePong c in
            if ok : bool then blocking_recv fuel' (b, c) else Some (None, (b, c))
          else if opcode f =? kOpcodePong then blocking_recv fuel' (b, c)
          else if opcode f =? kOpcodeClose then Some (None, (mark_closed b, c))
          else Some (None, (b, c))
      | NoFrame =>
          match read c with
          | (None, c) => Some (None, (mark_closed b, c))
          | (Some chunk, c) => blocking_recv fuel' (put_socket_buf (m_socket_buf b +:+ chunk) b, c)
          end
      end
  end.

Definition recv (x : TlsBridge * Conn N) : option (option string * (TlsBridge * Conn N)) :=
  let '(b, c) := x in
  if m_closed b then Some (None, x) else
  if negb (m_buffered b) then blocking_recv fuel x else
  match m_inbound b with
  | [] => Some (Some "", x)
  | data :: rest => Some (Some data, (put_inbound rest b, c))
  end.

Definition switch_to_buffered b : TlsBridge :=
  mkTlsBridge (m_client_mask b) true (m_closed b) (m_socket_buf b) (m_inbound b).
Definition leftover_socket_bytes b : string * TlsBridge := (m_socket_buf b, put_socket_buf "" b).
Definition push_inbound (data : string) b : TlsBridge :=
  if str_empty data then b else put_inbound (m_inbound b ++ [data]) b.

#[global] Instance bridge_transport : TlsTransport (TlsBridge * Conn N) := {|
  tr_send := send;
  tr_recv := recv;
|}.
End Bridge.
