(* ===== verification/TlsLoop.v ===== *)
(** The encrypted part of the two ends of the tunnel's socket: the [switch] of
    [AgentStream::drain_frames] (agent_stream.cpp) and of [AceSslTransport::drain_frames]
    (ace_ssl_transport.cpp) does the same with a data frame, over different owners.

    The owner is given by its session, its socket, what it does with plaintext and what it
    does at the end.  From what it promises the file derives that the plaintext of the
    peer's ciphertext is handed over in order, each byte once, however it is framed. *)

From S2P Require Import Prelude WsFrame WsStream WsConn InnerTls WsTlsBridge.

#[local] Open Scope Z_scope.

Section Loop.
Context {N T X : Type} `{!NetIO N} `{!Tls T} `{!Fuel}.
Variable session : X -> option (T * TlsBridge).
Variable sock : X -> Conn N.
Variable put_session : T * TlsBridge -> X -> X.
Variable put_sock : Conn N -> X -> X.
Variable tell : string -> X -> result unit * X.
Variable lost : X -> X.
(** What is done with a frame that carries no data. *)
Variable control : Frame -> X -> verdict X.
Implicit Types (x : X) (t : T) (b : TlsBridge).

Definition with_session (s : Inner T (TlsBridge * Conn N)) x : X :=
  put_sock (transport s).2 (put_session (ssl s, (transport s).1) x).

(** The loop over [m_inner_tls->recv]: each round takes one payload of the bridge's queue.
    An exception of the owner's callback leaves the reactor's callback like a call that does
    not return. *)
Fixpoint plaintext_loop (rounds : nat) x : verdict X :=
  match rounds, session x with
  | S rounds', Some (t, b) =>
      match InnerTls.recv (mkInner t (b, sock x)) with
      | None => Hang
      | Some (None, s) => Halt (lost (with_session s x))
      | Some (Some plaintext, s) =>
          let x := with_session s x in
          if str_empty plaintext then Continue x else
          match tell plaintext x with
          | (Throw _, _) => Hang
          | (Ok _, x) => if m_handle (sock x) then plaintext_loop rounds' x else Halt x
          end
      end
  | _, _ => Hang
  end.

(** A data frame: through the session when there is one. *)
Definition data_frame (bytes : string) x : verdict X :=
  match session x with
  | Some (t, b) =>
      let b := push_inbound bytes b in
      plaintext_loop (S (S (List.length (m_inbound b)))) (put_session (t, b) x)
  | None =>
      match tell bytes x with
      | (Throw _, _) => Hang
      | (Ok _, x) => if m_handle (sock x) then Continue x else Halt x
      end
  end.

Definition tls_frame (f : Frame) x : verdict X :=
  if is_data (opcode f) then data_frame (payload f) x else control f x.

(** ** A relation that the owner's actions keep is kept by the loop *)

Section Keeps.
Context (R : X -> X -> Prop) `{!PreOrder R}.
Hypothesis keeps_put : forall p x, R x (put_session p x).
Hypothesis keeps_recv : forall t b x r s,
  InnerTls.recv (mkInner t (b, sock x)) = Some (r, s) -> R x (with_session s x).
Hypothesis keeps_tell : forall bytes x, R x (tell bytes x).2.
Hypothesis keeps_lost : forall x, R x (lost x).
Hypothesis keeps_control : forall f x, match control f x with Continue x' | Halt x' => R x x' | Hang => True end.

Lemma plaintext_loop_keeps n x : match plaintext_loop n x with Continue x' | Halt x' => R x x' | Hang => True end.
Proof.
  revert x. induction n as [|n IH]; intros x; [done|]. cbn [plaintext_loop]. destruct (session x) as [[t b]|]; [|done].
  destruct (InnerTls.recv _) as [[[p|] s]|] eqn:Hr; [| |done].
  - apply keeps_recv in Hr. destruct (str_empty p); [done|].
    pose proof (keeps_tell p (with_session s x)) as Ht. destruct (tell p _) as [[[]|e] x1]; cbn [snd] in Ht; [|done].
    assert (H1 : R x x1) by (by etransitivity). destruct (m_handle _); [|done].
    specialize (IH x1). destruct (plaintext_loop n x1); try done; by etransitivity.
  - apply keeps_recv in Hr. by etransitivity.
Qed.

Lemma tls_frame_keeps f x : match tls_frame f x with Continue x' | Halt x' => R x x' | Hang => True end.
Proof.
  unfold tls_frame, data_frame. destruct (is_data _); [|apply keeps_control]. destruct (session x) as [[t b]|].
  - pose proof (keeps_put (t, push_inbound (payload f) b) x) as Hp.
    pose proof (plaintext_loop_keeps (S (S (List.length (m_inbound (push_inbound (payload f) b))))) (put_session (t, push_inbound (payload f) b) x)) as Hl.
    destruct (plaintext_loop _ _); try done; by etransitivity.
  - pose proof (keeps_tell (payload f) x) as Ht. destruct (tell _ x) as [[[]|e] x1]; cbn [snd] in Ht; [|done].
    by destruct (m_handle _).
Qed.

Lemma tls_drain_keeps fuel buf x :
  match drain_loop tls_frame fuel buf x with NeedBytes _ x' | Stopped _ x' => R x x' | _ => True end.
Proof.
  revert buf x. induction fuel as [|fuel IH]; intros buf x; [done|]. cbn [drain_loop].
  destruct (decode buf) as [|f rest|]; [reflexivity| |done].
  pose proof (tls_frame_keeps f x) as Hf. destruct (tls_frame f x) as [x'|x'|]; [|done|done].
  specialize (IH rest x'). destruct (drain_loop _ _ _ _); try done; by etransitivity.
Qed.

Lemma tls_feed_keeps chunks buf x :
  match feed tls_frame chunks buf x with NeedBytes _ x' | Stopped _ x' => R x x' | _ => True end.
Proof.
  revert buf x. induction chunks as [|c chunks IH]; intros buf x; cbn [feed]; [reflexivity|]. unfold drain.
  pose proof (tls_drain_keeps (S (String.length (buf +:+ c))) (buf +:+ c) x) as Hd.
  destruct (drain_loop _ _ _ _) as [buf' x1|buf' x1| |]; [|done|done|done].
  specialize (IH buf' x1). destruct (feed _ _ _ _); try done; by etransitivity.
Qed.
End Keeps.

(** ** Delivery *)

Section Delivery.
Context `{!TlsChannel T}.
Hypothesis session_put : forall p x, session (put_session p x) = Some p.
Hypothesis session_sock : forall c x, session (put_sock c x) = session x.
Hypothesis sock_put : forall p x, sock (put_session p x) = sock x.
Hypothesis sock_sock : forall c x, sock (put_sock c x) = c.

(** What the owner was handed, and the reasons it may throw. *)
Variable told : X -> string.
Variable throws : Prop.
Hypothesis told_put : forall p x, told (put_session p x) = told x.
Hypothesis told_sock : forall c x, told (put_sock c x) = told x.

(** The session after its handshake, between two frames. *)
Definition idle_bridge b : Prop := m_buffered b = true /\ m_closed b = false.
Definition secure t b x : Prop := session x = Some (t, b) /\ tls_up t /\ idle_bridge b.
Definition same_input t t' : Prop :=
  fed t' = fed t /\ delivered t' = delivered t /\ plain t' = plain t /\ genuine t' = genuine t.

Hypothesis tell_secure : forall bytes t b x, bytes <> "" -> secure t b x ->
  (exists t', secure t' b (tell bytes x).2 /\ same_input t t') /\ told (tell bytes x).2 = told x +:+ bytes.
Hypothesis tell_throws : forall bytes x e, (tell bytes x).1 = Throw e -> throws.
Hypothesis control_told : forall f x, is_data (opcode f) = false ->
  match control f x with
  | Continue x' => session x' = session x /\ told x' = told x
  | Halt x' => keeps_going f = false /\ told x' = told x
  | Hang => False
  end.

(** The rest of the plaintext of [c] was handed over between [x] and [x']. *)
Definition handed t (c : string) x x' : Prop :=
  exists p, told x' = told x +:+ p /\ delivered t +:+ p = plain t (fed t +:+ c).

(** One round of the loop takes the whole of [wire]. *)
Lemma recv_round wire t b b' (c : Conn N) :
  tls_up t -> genuine t (fed t +:+ wire) -> WsTlsBridge.recv (b, c) = Some (Some wire, (b', c)) ->
  exists p t', InnerTls.recv (mkInner t (b, c)) = Some (Some p, mkInner t' (b', c)) /\ tls_up t'
    /\ fed t' = fed t +:+ wire /\ delivered t' = delivered t +:+ p /\ delivered t' = plain t (fed t')
    /\ plain t' = plain t /\ genuine t' = genuine t.
Proof.
  intros Hup Hg Hr. change (tr_recv (transport (mkInner t (b, c))) = Some (Some wire, (b', c))) in Hr.
  destruct (recv_drains (mkInner t (b, c)) wire (b', c) Hup Hg Hr) as (p & t' & H1 & H2 & H3 & H4 & H5 & H6 & H7 & _).
  exists p, t'. rewrite H3. by split_and!.
Qed.

Lemma with_session_state s x :
  session (with_session s x) = Some (ssl s, (transport s).1) /\ sock (with_session s x) = (transport s).2
  /\ told (with_session s x) = told x.
Proof. unfold with_session. by rewrite session_sock, session_put, sock_sock, told_sock, told_put. Qed.

(** A round on an empty queue of a drained session ends the loop. *)
Lemma drained_round n t b x :
  secure t b x -> m_inbound b = [] -> delivered t = plain t (fed t) -> genuine t (fed t) ->
  exists x' t', plaintext_loop (S n) x = Continue x' /\ secure t' b x' /\ same_input t t' /\ told x' = told x.
Proof.
  intros (Hi & Hup & [H1 H2]) Hb Hd Hg. cbn [plaintext_loop]. rewrite Hi.
  destruct (recv_round "" t b b (sock x)) as (p & t' & -> & U & F & D & E & P & G);
    [done|by rewrite str_app_nil_r|unfold WsTlsBridge.recv; by rewrite H2, H1, Hb|].
  rewrite str_app_nil_r in F. rewrite F in E. rewrite E, <- Hd in D.
  assert (p = "") as ->. { apply (str_app_inj_l (delivered t)). by rewrite str_app_nil_r. }
  cbn [str_empty]. destruct (with_session_state (mkInner t' (b, sock x)) x) as (S1 & _ & S3).
  exists (with_session (mkInner t' (b, sock x)) x), t'. split; [done|]. split; [by split_and!|]. split; [|done].
  unfold same_input. split_and!; congruence.
Qed.

(** One data frame. *)
Lemma data_frame_handed bytes t b x :
  secure t b x -> m_inbound b = [] -> delivered t = plain t (fed t) -> genuine t (fed t) -> genuine t (fed t +:+ bytes) ->
  match data_frame bytes x with
  | Continue x' => handed t bytes x x' /\ exists t', secure t' b x' /\ fed t' = fed t +:+ bytes
      /\ delivered t' = plain t (fed t') /\ plain t' = plain t /\ genuine t' = genuine t
  | Halt x' => handed t bytes x x' /\ m_handle (sock x') = false
  | Hang => throws
  end.
Proof.
  intros Hs Hb Hd Hg0 Hg. unfold data_frame. destruct Hs as (Hi & Hup & Hidle). rewrite Hi. cbn zeta.
  unfold push_inbound. destruct (str_empty bytes) eqn:Hp.
  { apply str_empty_true in Hp as ->. rewrite str_app_nil_r in *. rewrite Hb. cbn [List.length].
    assert (Hs1 : secure t b (put_session (t, b) x)) by (split; [apply session_put|done]).
    destruct (drained_round 1 t b _ Hs1 Hb Hd Hg) as (x' & t' & -> & Hs' & (F & D & P & G) & Htold). split.
    - exists "". rewrite !str_app_nil_r. split; [|done]. by rewrite Htold, told_put.
    - exists t'. split; [done|]. split_and!; congruence. }
  rewrite Hb. cbn [app m_inbound put_inbound List.length]. set (b1 := put_inbound [bytes] b).
  remember 2%nat as n eqn:En. cbn [plaintext_loop]. rewrite session_put, sock_put. destruct Hidle as [H1 H2].
  destruct (recv_round bytes t b1 (put_inbound [] b) (sock x)) as (p & t' & Hr & U & F & D & E & P & G);
    [done|done|unfold WsTlsBridge.recv; cbn; by rewrite H2, H1|].
  assert (Hb0 : put_inbound [] b = b) by (destruct b; cbn in *; by subst). rewrite Hb0 in Hr. rewrite Hr. clear Hr.
  set (s1 := mkInner t' (b, sock x)). set (x1 := with_session s1 _).
  destruct (with_session_state s1 (put_session (t, b1) x)) as (S1 & S2 & S3). fold x1 in S1, S2, S3. rewrite told_put in S3.
  assert (Hs1 : secure t' b x1) by (by split_and!).
  assert (Hh1 : delivered t +:+ p = plain t (fed t +:+ bytes)) by congruence.
  destruct (str_empty p) eqn:Hpe.
  { apply str_empty_true in Hpe as ->. split.
    - exists "". split; [by rewrite str_app_nil_r|done].
    - exists t'. split_and!; try done. }
  apply str_empty_false in Hpe. destruct (tell_secure p t' b x1 Hpe Hs1) as [(t2 & Hs2 & (F2 & D2 & P2 & G2)) Hb2].
  pose proof (tell_throws p x1) as Hthrow.
  destruct (tell p x1) as [[[]|e] x2]; cbn [snd] in Hs2, Hb2; [|by eapply Hthrow].
  assert (Hhand : handed t bytes x x2) by (exists p; by rewrite Hb2, S3). destruct (m_handle (sock x2)) eqn:Hh; [|done]. subst n.
  destruct (drained_round 1 t2 b x2 Hs2 Hb) as (x' & t3 & -> & Hs3 & (F3 & D3 & P3 & G3) & Htold); [congruence| |].
  { rewrite G2, G, F2, F. done. }
  split.
  - destruct Hhand as (q & Hq & Hq2). exists q. by rewrite Htold.
  - exists t3. split; [done|]. split_and!; congruence.
Qed.

(** ** A stream of frames *)

Definition cipher (fs : list Frame) : string := str_concat (omap (fun f => if is_data (opcode f) then Some (payload f) else None) fs).

Lemma cipher_cons f fs : cipher (f :: fs) = (if is_data (opcode f) then payload f else "") +:+ cipher fs.
Proof. unfold cipher. cbn. by destruct (is_data (opcode f)). Qed.

(** The session between two frames: everything that was fed was read. *)
Definition between t b x : Prop :=
  secure t b x /\ m_inbound b = [] /\ delivered t = plain t (fed t) /\ genuine t (fed t).
Definition stops (fs : list Frame) x' : Prop :=
  Exists (fun f => keeps_going f = false) fs \/ m_handle (sock x') = false.

Lemma tls_frame_told f t b x :
  between t b x -> genuine t (fed t +:+ cipher [f]) ->
  match tls_frame f x with
  | Continue x' => handed t (cipher [f]) x x' /\ exists t', between t' b x' /\ fed t' = fed t +:+ cipher [f]
      /\ plain t' = plain t /\ genuine t' = genuine t
  | Halt x' => (exists c1 c2, cipher [f] = c1 +:+ c2 /\ handed t c1 x x') /\ stops [f] x'
  | Hang => throws
  end.
Proof.
  intros (Hs & Hb & Hd & Hg0) Hg. rewrite cipher_cons in *. rewrite str_app_nil_r in *. unfold tls_frame.
  destruct (is_data (opcode f)) eqn:Hdata.
  - pose proof (data_frame_handed (payload f) t b x Hs Hb Hd Hg0 Hg) as Hf. destruct (data_frame (payload f) x) as [x'|x'|].
    + destruct Hf as [Hh (t' & H1 & H2 & H3 & H4 & H5)]. split; [done|]. exists t'. unfold between.
      rewrite H3, H4, H5, H2. by split_and!.
    + destruct Hf as [Hh Hc]. split; [|by right]. exists (payload f), "". by rewrite str_app_nil_r.
    + done.
  - pose proof (control_told f x Hdata) as Hc. destruct (control f x) as [x'|x'|]; [| |done].
    + destruct Hc as [E1 E2]. split; [exists ""; by rewrite E2, !str_app_nil_r|].
      exists t. rewrite str_app_nil_r. destruct Hs as (Hs1 & Hs2 & Hs3). split; [|done].
      split; [split; [congruence|by split]|done].
    + destruct Hc as [E1 E2]. split; [|left; by constructor]. exists "", "". split; [done|]. exists "". by rewrite E2, !str_app_nil_r.
Qed.

Lemma handed_trans t t' c c' x x1 x' :
  handed t c x x1 -> delivered t' = plain t' (fed t') -> fed t' = fed t +:+ c -> plain t' = plain t ->
  handed t' c' x1 x' -> handed t (c +:+ c') x x'.
Proof.
  intros (p & H1 & H2) Hd F P (p' & H3 & H4). exists (p +:+ p'). split; [by rewrite H3, H1, str_app_assoc|].
  rewrite P, F in *. by rewrite <- !str_app_assoc, H2, <- Hd.
Qed.

Lemma tls_frames_told fs t b x :
  between t b x -> genuine t (fed t +:+ cipher fs) ->
  match run_frames tls_frame fs x with
  | Continue x' => handed t (cipher fs) x x'
  | Halt x' => (exists c1 c2, cipher fs = c1 +:+ c2 /\ handed t c1 x x') /\ stops fs x'
  | Hang => throws
  end.
Proof.
  revert t x. induction fs as [|f fs IH]; intros t x Hx Hg; cbn [run_frames].
  { exists "". destruct Hx as (_ & _ & Hd & _). by rewrite !str_app_nil_r. }
  assert (Hc : cipher (f :: fs) = cipher [f] +:+ cipher fs) by (by rewrite !(cipher_cons f), str_app_nil_r).
  rewrite Hc in *. rewrite <- str_app_assoc in Hg.
  pose proof (tls_frame_told f t b x Hx (genuine_prefix _ _ _ Hg)) as Hf.
  destruct (tls_frame f x) as [x1|x1|]; [| |done].
  - destruct Hf as [H1 (t' & H2 & F & P & G)]. specialize (IH t' x1 H2). rewrite F, G in IH. specialize (IH Hg).
    assert (Hd : delivered t' = plain t' (fed t')) by apply H2.
    destruct (run_frames tls_frame fs x1) as [x2|x2|]; [by eapply handed_trans| |done].
    destruct IH as [(c1 & c2 & -> & H3) Hs]. split; [|destruct Hs; [left; by constructor 2|by right]].
    exists (cipher [f] +:+ c1), c2. split; [by rewrite str_app_assoc|by eapply handed_trans].
  - destruct Hf as [(c1 & c2 & -> & H1) Hs]. split; [|destruct Hs as [Hs|]; [left|by right]].
    + exists c1, (c2 +:+ cipher fs). by rewrite str_app_assoc.
    + inversion Hs as [? ? Hf|? ? Hf]; [by constructor|by inversion Hf].
Qed.

(** What the peer's end [u] of the session sealed is handed over, however its ciphertext is
    framed and cut into reads. *)
Lemma tls_delivers chunks ws tail t b u x :
  between t b x -> linked u t -> Forall wire_ok ws -> partial tail ->
  str_concat chunks = wire_stream ws +:+ tail -> fed t +:+ cipher (map w_frame ws) = emitted u ->
  match feed tls_frame chunks "" x with
  | NeedBytes rest x' => rest = tail /\ exists p, told x' = told x +:+ p /\ delivered t +:+ p = sealed u
  | Stopped _ x' => stops (map w_frame ws) x'
      /\ exists c1 c2 p, cipher (map w_frame ws) = c1 +:+ c2
           /\ told x' = told x +:+ p /\ delivered t +:+ p = plain t (fed t +:+ c1)
  | Undef => False
  | Spin => throws
  end.
Proof.
  intros Hx [Hgen Hplain] Hws Htail Hc He. rewrite <- He in Hgen.
  pose proof (feed_stream tls_frame chunks ws tail "" x Hws Htail partial_nil) as Hf.
  rewrite str_app_nil_l in Hf. specialize (Hf Hc). pose proof (tls_frames_told (map w_frame ws) t b x Hx Hgen) as Hr.
  destruct (run_frames tls_frame (map w_frame ws) x) as [x'|x'|].
  - rewrite Hf. split; [done|]. destruct Hr as (p & H1 & H2). exists p. by rewrite H2, He.
  - destruct Hf as [rest ->]. destruct Hr as [(c1 & c2 & H1 & (p & H2 & H3)) Hs]. split; [done|]. by exists c1, c2, p.
  - by rewrite Hf.
Qed.
End Delivery.
End Loop.
