(* ===== verification/AgentStream.v ===== *)
(** The cloud's socket to the agent: modules/module/pbx/src/agent_stream.cpp.

    The stream gives the endpoint a [TransportAdapter] through which the endpoint writes to
    it and closes it, also while the stream is calling the endpoint.  The endpoint is the
    interface [EndpointHost]; its laws say that it acts on the stream only through the
    adapter. *)

From S2P Require Import Prelude WsFrame WsStream WsConn InnerTls WsTlsBridge TlsLoop.

#[local] Open Scope Z_scope.

Section Stream.
Context {N T : Type} `{!NetIO N} `{!Tls T} `{!Fuel}.

(** [m_adapter] tells whether the pointer to the adapter is set, [m_s] whether the adapter
    still points back; [m_inner_tls] comes with the bridge it refers to. *)
Record Agent := mkAgent {
  conn : Conn N;
  m_adapter : bool;
  m_s : bool;
  m_attached : bool;
  m_close_notified : bool;
  m_inner_tls : option (T * TlsBridge);
  m_peer_cn : string;
}.
Implicit Types (a : Agent).

Definition put_conn (c : Conn N) a : Agent :=
  mkAgent c (m_adapter a) (m_s a) (m_attached a) (m_close_notified a) (m_inner_tls a) (m_peer_cn a).
Definition on_conn (f : Conn N -> Conn N) a : Agent := put_conn (f (conn a)) a.
Definition put_adapter (p s : bool) a : Agent :=
  mkAgent (conn a) p s (m_attached a) (m_close_notified a) (m_inner_tls a) (m_peer_cn a).
Definition put_attached a : Agent :=
  mkAgent (conn a) (m_adapter a) (m_s a) true (m_close_notified a) (m_inner_tls a) (m_peer_cn a).
Definition put_notified a : Agent :=
  mkAgent (conn a) (m_adapter a) (m_s a) (m_attached a) true (m_inner_tls a) (m_peer_cn a).
Definition put_inner (i : option (T * TlsBridge)) (cn : string) a : Agent :=
  mkAgent (conn a) (m_adapter a) (m_s a) (m_attached a) (m_close_notified a) i cn.

(** The inner TLS with its transport, and back. *)
Definition inner_of (t : T) (b : TlsBridge) (c : Conn N) : Inner T (TlsBridge * Conn N) := mkInner t (b, c).
Definition with_inner (s : Inner T (TlsBridge * Conn N)) a : Agent :=
  put_conn (transport s).2 (put_inner (Some (ssl s, (transport s).1)) (m_peer_cn a) a).

(** ** What the adapter does *)

Definition write_bytes (sip_ws_bytes : string) a : bool * Agent :=
  if negb (m_handle (conn a)) then (false, a) else
  match m_inner_tls a with
  | Some (t, b) => let '(ok, s) := InnerTls.send sip_ws_bytes (inner_of t b (conn a)) in (ok, with_inner s a)
  | None => let '(ok, c) := write_frame false sip_ws_bytes kOpcodeText (conn a) in (ok, put_conn c a)
  end.

Definition close_socket a : Agent := on_conn (fun c => shut (cancel_ping_timer c)) (put_adapter false (m_s a) a).

Definition adapter_send (bytes : string) a : bool * Agent := if m_s a then write_bytes bytes a else (false, a).
Definition adapter_close a : Agent := if m_s a then close_socket a else a.

Inductive adapter_op := AdapterSend (bytes : string) | AdapterClose.
Definition run_op a (op : adapter_op) : Agent :=
  match op with AdapterSend bytes => (adapter_send bytes a).2 | AdapterClose => adapter_close a end.
Definition run_adapter (ops : list adapter_op) a : Agent := fold_left run_op ops a.
Definition adapter_calls a a' : Prop := exists ops, a' = run_adapter ops a.
End Stream.
Arguments Agent : clear implicits.

(** The functions of the endpoint that the stream calls; [on_bytes_received] may throw. *)
Class EndpointHost (N T W : Type) := {
  host_connected : Agent N T -> W -> Agent N T * W;
  host_bytes : string -> Agent N T -> W -> result unit * (Agent N T * W);
  host_disconnected : Agent N T -> W -> Agent N T * W;
}.
Class EndpointHostLaws (N T W : Type) `{!NetIO N, !Tls T, !Fuel, !EndpointHost N T W} : Prop := {
  host_connected_adapter a w : adapter_calls a (host_connected a w).1;
  host_bytes_adapter bytes a w : adapter_calls a (host_bytes bytes a w).2.1;
  host_disconnected_adapter a w : adapter_calls a (host_disconnected a w).1;
}.

Inductive host_call := ToldConnected | ToldBytes (bytes : string) | ToldDisconnected.

#[global] Instance agent_host_call_eq_dec : EqDecision host_call.
Proof. solve_decision. Defined.

Section Operations.
Context {N T W : Type} `{!NetIO N} `{!Tls T} `{!Fuel} `{!EndpointHost N T W}.

Record World := mkWorld { agent : Agent N T; endpoint : W; told : list host_call }.
Implicit Types (x : World).

Definition on_agent (f : Agent N T -> Agent N T) x : World := mkWorld (f (agent x)) (endpoint x) (told x).

Definition notify_disconnect_once x : World :=
  let a := agent x in
  if m_close_notified a then x else
  let a := put_notified a in
  if negb (m_adapter a) then mkWorld a (endpoint x) (told x) else
  let '(a, w) := host_disconnected (put_adapter false false a) (endpoint x) in
  mkWorld a w (told x ++ [ToldDisconnected]).

Definition attach x : World :=
  if m_attached (agent x) then x else
  let '(a, w) := host_connected (put_adapter true true (put_attached (agent x))) (endpoint x) in
  mkWorld a w (told x ++ [ToldConnected]).

(** The constructor, on an accepted socket. *)
Definition new_agent (s : N) (auto_attach : bool) (w : W) : World :=
  let x := mkWorld (mkAgent (new_conn s) false false false false None "") w [] in
  if auto_attach then attach x else x.

(** The verdict, and what the bridge had read past the handshake, which becomes
    [m_recv_buf]; [None] while the handshake is still running. *)
Definition setup_inner_tls (cert_path key_path ca_path recv_buf : string) x : option (bool * (string * World)) :=
  let a := agent x in
  if m_attached a then Some (false, (recv_buf, x)) else
  if negb (m_handle (conn a)) then Some (false, (recv_buf, x)) else
  match handshake (inner_of (tls_server cert_path key_path ca_path) (new_bridge false) (conn a)) with
  | None => None
  | Some (false, s) =>
      Some (false, (recv_buf, on_agent (fun a => put_conn (transport s).2 (put_inner None (m_peer_cn a) a)) x))
  | Some (true, s) =>
      let '(leftover, b) := leftover_socket_bytes (switch_to_buffered (transport s).1) in
      Some (true, (leftover,
        on_agent (fun a => put_conn (transport s).2 (put_inner (Some (ssl s, b)) (tls_peer_cn (ssl s)) a)) x))
  end.

Definition tell_bytes (bytes : string) x : result unit * World :=
  let '(r, (a, w)) := host_bytes bytes (agent x) (endpoint x) in
  (r, mkWorld a w (told x ++ [ToldBytes bytes])).

(** The parts of the stream that the shared loop works on. *)
Definition session x : option (T * TlsBridge) := m_inner_tls (agent x).
Definition sock x : Conn N := conn (agent x).
Definition put_session (p : T * TlsBridge) x : World := on_agent (fun a => put_inner (Some p) (m_peer_cn a) a) x.
Definition put_sock (c : Conn N) x : World := on_agent (put_conn c) x.

(** The body of the [switch] of [drain_frames]: the control frames, and all. *)
Definition control_frame (f : Frame) x : verdict World :=
  let op := opcode f in
  if op =? kOpcodePing then Continue (on_agent (on_conn (fun c => (write (pong_frame (payload f)) c).2)) x)
  else if op =? kOpcodePong then Continue x
  else if op =? kOpcodeClose then
    Halt (notify_disconnect_once (on_agent (on_conn (fun c => (write close_frame c).2)) x))
  else Halt (notify_disconnect_once x).
Definition on_frame : Frame -> World -> verdict World :=
  tls_frame session sock put_session put_sock tell_bytes notify_disconnect_once control_frame.

Definition drain_frames (recv_buf : string) x : drained World := drain on_frame recv_buf x.

Definition handle_input (recv_buf : string) x : drained World :=
  let '(chunk, c) := read (conn (agent x)) in
  let x := on_agent (put_conn c) x in
  match chunk with
  | None => Stopped recv_buf (notify_disconnect_once x)
  | Some bytes => drain_frames (recv_buf +:+ bytes) x
  end.

(** [handle_close] up to [delete this]; the destructor also drops the inner TLS. *)
Definition release x : World :=
  on_agent (on_conn shut) (notify_disconnect_once (on_agent (on_conn cancel_ping_timer) x)).
Definition handle_close x : World := release x.
Definition destroy x : World := on_agent (fun a => put_inner None (m_peer_cn a) a) (release x).

Definition handle_timeout x : bool * World :=
  if negb (m_handle (conn (agent x))) then (false, x) else
  let '(ok, c) := write ping_frame (conn (agent x)) in
  let x := on_agent (put_conn c) x in
  if ok : bool then (true, x) else (false, notify_disconnect_once x).

Definition register x : bool * World :=
  let '(ok, c) := register_with_reactor (conn (agent x)) in (ok, on_agent (put_conn c) x).

(** ** The life of a stream under the reactor *)

(** [EndpointActs]: the endpoint acts on its own (a frame of a browser, the heartbeat, a
    newer agent). *)
Inductive event :=
  | Readable
  | TimerFired
  | EndpointActs (ops : list adapter_op) (w : W)
  | HandleClosed.

Inductive life :=
  | Live (recv_buf : string) (x : World)
  | Deleted (x : World)
  | Crashed.

Definition closed_down x : life := Deleted (destroy (handle_close x)).
Definition react (e : event) (l : life) : life :=
  match l with
  | Live buf x =>
      match e with
      | Readable =>
          match handle_input buf x with
          | NeedBytes buf x => Live buf x
          | Stopped _ x => closed_down x
          | Undef | Spin => Crashed
          end
      | TimerFired => let '(ok, x) := handle_timeout x in if ok : bool then Live buf x else closed_down x
      | EndpointActs ops w => Live buf (mkWorld (run_adapter ops (agent x)) w (told x))
      | HandleClosed => closed_down x
      end
  | _ => l
  end.
(** The hand-off of an accepted /agent socket (webservice.cpp): the handshake when a
    certificate is configured, then the endpoint, then the reactor. *)
Definition start (recv_buf : string) x : life :=
  let '(ok, x) := register x in if ok : bool then Live recv_buf x else Deleted (destroy x).
Definition accept_agent (cert_path key_path ca_path : string) (s : N) (w : W) : option life :=
  let want_inner_tls := negb (str_empty cert_path) in
  let x := new_agent s (negb want_inner_tls) w in
  if want_inner_tls then
    match setup_inner_tls cert_path key_path ca_path "" x with
    | None => None
    | Some (false, (_, x)) => Some (Deleted (destroy x))
    | Some (true, (recv_buf, x)) => Some (start recv_buf (attach x))
    end
  else Some (start "" x).

Definition reacts (es : list event) (l : life) : life := fold_left (fun l e => react e l) es l.
End Operations.
Arguments World : clear implicits.
Arguments event : clear implicits.
Arguments life : clear implicits.
