(* ===== verification/AgentStreamSpec.v ===== *)
(** What the cloud's socket to the agent guarantees: the endpoint learns of its end at most
    once and only if it does not know already, nothing is written after the socket was
    closed, and the agent's bytes reach the endpoint in order, through the inner TLS too. *)

From S2P Require Import Prelude WsFrame WsStream WsConn WsHistory InnerTls WsTlsBridge TlsLoop AgentStream.

#[local] Open Scope Z_scope.

(** ** The inner TLS only reads and writes the socket *)

Section Inner.
Context {N T : Type} `{!NetIO N} `{!Tls T} `{!Fuel}.
Implicit Types (s : Inner T (TlsBridge * Conn N)) (c : Conn N).

Lemma sock_bridge_send data x : sock_rel x.2 (WsTlsBridge.send data x).2.2.
Proof.
  destruct x as [b c]. unfold WsTlsBridge.send. destruct (m_closed b); [reflexivity|].
  pose proof (sock_write_frame (m_client_mask b) data kOpcodeBinary c) as Hs. by destruct (write_frame _ _ _ _).
Qed.

Lemma sock_blocking_recv n b c r x : blocking_recv n (b, c) = Some (r, x) -> sock_rel c x.2.
Proof.
  revert b c. induction n as [|n IH]; intros b c; [done|]. cbn [blocking_recv].
  destruct (decode (m_socket_buf b)) as [|f rest|]; [| |done].
  - pose proof (sock_read c) as Hr. destruct (read c) as [[chunk|] c1]; cbn [snd] in Hr.
    + intros H1. etransitivity; [exact Hr|by eapply IH].
    + by intros [= _ <-].
  - destruct (is_data (opcode f)); [by intros [= _ <-]|]. destruct (_ =? kOpcodePing).
    + pose proof (sock_write_frame (m_client_mask (put_socket_buf rest b)) (payload f) kOpcodePong c) as Hw.
      destruct (write_frame _ _ _ c) as [[] c1]; cbn [snd] in Hw.
      * intros H1. etransitivity; [exact Hw|by eapply IH].
      * by intros [= _ <-].
    + destruct (_ =? kOpcodePong); [by apply IH|]. destruct (_ =? kOpcodeClose); by intros [= _ <-].
Qed.

Lemma sock_bridge_recv x r x' : WsTlsBridge.recv x = Some (r, x') -> sock_rel x.2 x'.2.
Proof.
  destruct x as [b c]. unfold WsTlsBridge.recv. destruct (m_closed b); [by intros [= _ <-]|].
  destruct (m_buffered b); cbn [negb]; [destruct (m_inbound b); by intros [= _ <-]|]. apply sock_blocking_recv.
Qed.

Lemma sock_send_pending n s : sock_rel (transport s).2 (transport (send_pending n s).2).2.
Proof.
  unfold send_pending. destruct (_ =? 0)%nat; [reflexivity|]. destruct (tls_bio_read _ _) as [[buf|] t]; [|reflexivity].
  pose proof (sock_bridge_send buf (transport s)) as Hs. cbn [tr_send bridge_transport].
  by destruct (WsTlsBridge.send buf (transport s)).
Qed.

Lemma sock_inner_send p s : sock_rel (transport s).2 (transport (InnerTls.send p s).2).2.
Proof.
  unfold InnerTls.send. destruct (tls_write p (ssl s)) as [[] t]; [|reflexivity].
  apply (sock_send_pending false (mkInner t (transport s))).
Qed.

Lemma sock_inner_recv s r s' : InnerTls.recv s = Some (r, s') -> sock_rel (transport s).2 (transport s').2.
Proof.
  unfold InnerTls.recv. cbn [tr_recv bridge_transport].
  destruct (WsTlsBridge.recv (transport s)) as [[[wire|] x]|] eqn:Hr; [| |done].
  - destruct (InnerTls.read_loop _ _ _) as [[q t]|]; [|done]. intros [= _ <-]. cbn. by eapply sock_bridge_recv.
  - intros [= _ <-]. cbn. by eapply sock_bridge_recv.
Qed.

Lemma sock_handshake n s ok s' : handshake_loop n s = Some (ok, s') -> sock_rel (transport s).2 (transport s').2.
Proof.
  revert s. induction n as [|n IH]; intros s; [done|]. cbn [handshake_loop].
  destruct (tls_handshake (ssl s)) as [ret t]. set (s1 := mkInner t (transport s)).
  assert (Hpend : forall ok2 s2, send_pending true s1 = (ok2, s2) -> sock_rel (transport s).2 (transport s2).2).
  { intros ok2 s2 He. pose proof (sock_send_pending true s1) as Hp. by rewrite He in Hp. }
  destruct ret.
  - intros [= _ <-]. apply (sock_send_pending false s1).
  - destruct (send_pending true s1) as [[] s2] eqn:Hp; cbn [negb]; [|by intros [= _ <-]; eapply Hpend].
    specialize (Hpend _ _ eq_refl). cbn [tr_recv bridge_transport].
    destruct (WsTlsBridge.recv (transport s2)) as [[[buf|] x]|] eqn:Hr; [| |done].
    + apply sock_bridge_recv in Hr. destruct (_ && _); [intros [= _ <-]; by etransitivity|].
      intros H1. apply IH in H1. cbn in H1. do 2 (etransitivity; [eassumption|]). exact H1.
    + intros [= _ <-]. apply sock_bridge_recv in Hr. by etransitivity.
  - destruct (send_pending true s1) as [[] s2] eqn:Hp; cbn [negb]; [|by intros [= _ <-]; eapply Hpend].
    intros H1. etransitivity; [by eapply Hpend|]. by apply IH.
  - destruct (send_pending true s1) as [[] s2] eqn:Hp; cbn [negb]; intros [= _ <-]; by eapply Hpend.
Qed.
End Inner.

(** ** The stream's invariant *)

Section Stream.
Context {N T : Type} `{!NetIO N} `{!Tls T} `{!Fuel}.
Implicit Types (a : Agent N T).

Definition agent_ok a : Prop :=
  history_ok (m_handle (conn a)) (log (conn a))
  /\ (m_handle (conn a) = false -> m_ping_timer (conn a) = None /\ m_adapter a = false)
  /\ (m_close_notified a = true -> m_adapter a = false)
  /\ (m_adapter a = true -> m_s a = true /\ m_attached a = true).

(** Only the socket and the inner TLS move. *)
Definition same_flags a a' : Prop :=
  m_adapter a' = m_adapter a /\ m_s a' = m_s a /\ m_attached a' = m_attached a /\ m_close_notified a' = m_close_notified a.
Definition socket_only a a' : Prop := sock_rel (conn a) (conn a') /\ same_flags a a'.

(** A later state: what was told stays told, a cancelled timer stays cancelled, and an
    adapter that was given up never comes back. *)
Definition later a a' : Prop :=
  (m_close_notified a = true -> m_close_notified a' = true)
  /\ (m_attached a = true -> m_attached a' = true)
  /\ (m_ping_timer (conn a) = None -> m_ping_timer (conn a') = None)
  /\ (m_attached a = true -> m_adapter a = false -> m_adapter a' = false).

#[global] Instance later_preorder : PreOrder later.
Proof. split; [by repeat split|]. intros a b c (A1 & A2 & A3 & A4) (B1 & B2 & B3 & B4). unfold later. split_and!; auto. Qed.

Lemma socket_only_ok a a' : socket_only a a' -> agent_ok a -> agent_ok a' /\ later a a'.
Proof.
  intros [(H1 & H2 & H3) (F1 & F2 & F3 & F4)] (O1 & O2 & O3 & O4). unfold agent_ok, later.
  rewrite F1, F2, F3, F4, H2. rewrite H1 in *. split_and!; auto.
Qed.

Lemma socket_inner_send p t b a ok s :
  InnerTls.send p (inner_of t b (conn a)) = (ok, s) -> socket_only a (with_inner s a).
Proof.
  intros Hs. split; [|done]. pose proof (sock_inner_send p (inner_of t b (conn a))) as Hr. by rewrite Hs in Hr.
Qed.

Lemma socket_write_bytes bytes a : socket_only a (write_bytes bytes a).2.
Proof.
  unfold write_bytes. destruct (m_handle (conn a)); cbn [negb]; [|done]. destruct (m_inner_tls a) as [[t b]|].
  - destruct (InnerTls.send _ _) as [ok s] eqn:Hs. by eapply socket_inner_send.
  - pose proof (sock_write_frame false bytes kOpcodeText (conn a)) as Hw. by destruct (write_frame _ _ _ _).
Qed.

Lemma close_socket_ok a : agent_ok a -> agent_ok (close_socket a) /\ later a (close_socket a).
Proof.
  intros (O1 & O2 & O3 & O4). unfold close_socket.
  assert (Hh : history_ok (m_handle (cancel_ping_timer (conn a))) (log (cancel_ping_timer (conn a))))
    by (rewrite (proj1 (cancel_state _)); by apply cancel_history).
  assert (Ht : m_ping_timer (shut (cancel_ping_timer (conn a))) = None) by (rewrite (proj2 (shut_state _)); apply cancel_state).
  split; [|unfold later; cbn; split_and!; auto]. unfold agent_ok. cbn.
  rewrite (proj1 (shut_state _)). split_and!; auto; [by apply shut_history|done].
Qed.

Lemma run_adapter_ok ops a : agent_ok a -> agent_ok (run_adapter ops a) /\ later a (run_adapter ops a).
Proof.
  revert a. induction ops as [|op ops IH]; intros a Ha; [done|].
  change (run_adapter (op :: ops) a) with (run_adapter ops (run_op a op)).
  assert (H1 : agent_ok (run_op a op) /\ later a (run_op a op)).
  { destruct op as [bytes|]; cbn; [unfold adapter_send|unfold adapter_close]; destruct (m_s a); try done.
    - by apply (socket_only_ok a); [apply socket_write_bytes|].
    - by apply close_socket_ok. }
  destruct H1 as [H1 L1]. destruct (IH _ H1) as [H2 L2]. split; [done|]. by etransitivity.
Qed.
End Stream.

(** ** Relations that every callback preserves *)

Section Closure.
Context {N T W : Type} `{!NetIO N} `{!Tls T} `{!Fuel} `{!EndpointHost N T W}.
Implicit Types (x : World N T W).

Class CallbackRel (R : World N T W -> World N T W -> Prop) : Prop := {
  #[global] rel_preorder :: PreOrder R;
  rel_socket a x : socket_only (agent x) a -> R x (on_agent (fun _ => a) x);
  rel_bytes bytes x : R x (tell_bytes bytes x).2;
  rel_notify x : R x (notify_disconnect_once x);
}.
Context (R : World N T W -> World N T W -> Prop) `{!CallbackRel R}.

Lemma rel_sock c x : sock_rel (conn (agent x)) c -> R x (on_agent (put_conn c) x).
Proof. intros Hc. by apply (rel_socket (put_conn c (agent x))). Qed.

Lemma control_frame_rel f x : match control_frame f x with Continue x' | Halt x' => R x x' | Hang => True end.
Proof.
  unfold control_frame. destruct (_ =? kOpcodePing); [apply rel_sock, sock_write|]. destruct (_ =? kOpcodePong); [reflexivity|].
  destruct (_ =? kOpcodeClose); [|apply rel_notify].
  etransitivity; [apply rel_sock, sock_write|apply rel_notify].
Qed.

Lemma agent_drain_rel n buf x :
  match drain_loop on_frame n buf x with NeedBytes _ x' | Stopped _ x' => R x x' | _ => True end.
Proof.
  apply tls_drain_keeps; [apply _| | |apply rel_bytes|apply rel_notify|apply control_frame_rel].
  - intros p y. by apply (rel_socket (put_inner (Some p) (m_peer_cn (agent y)) (agent y))).
  - intros t b y r s Hr. apply sock_inner_recv in Hr. by apply (rel_socket (with_inner s (agent y))).
Qed.

Lemma agent_handle_input_rel buf x :
  match handle_input buf x with NeedBytes _ x' | Stopped _ x' => R x x' | _ => True end.
Proof.
  unfold handle_input. pose proof (rel_sock _ x (sock_read (conn (agent x)))) as Hr.
  destruct (read (conn (agent x))) as [[bytes|] c]; cbn [snd] in Hr.
  - pose proof (agent_drain_rel (S (String.length (buf +:+ bytes))) (buf +:+ bytes) (on_agent (put_conn c) x)) as Hd.
    unfold drain_frames, drain. destruct (drain_loop _ _ _ _); try done; (etransitivity; [exact Hr|done]).
  - etransitivity; [exact Hr|apply rel_notify].
Qed.

Lemma agent_handle_timeout_rel x : R x (handle_timeout x).2.
Proof.
  unfold handle_timeout. destruct (m_handle (conn (agent x))); cbn [negb]; [|reflexivity].
  pose proof (rel_sock _ x (sock_write ping_frame (conn (agent x)))) as Hw.
  destruct (write ping_frame (conn (agent x))) as [[] c]; cbn [snd] in Hw; [exact Hw|].
  etransitivity; [exact Hw|apply rel_notify].
Qed.
End Closure.

(** ** The life of a stream *)

Section Life.
Context {N T W : Type} `{!NetIO N} `{!Tls T} `{!Fuel} `{!EndpointHost N T W} `{!EndpointHostLaws N T W}.
Implicit Types (x : World N T W).

Definition count_of (c : host_call) x : nat := List.length (filter (fun c' => c' = c) (told x)).

(** The endpoint got the transport at most once and heard of its end at most once. *)
Definition world_ok x : Prop :=
  agent_ok (agent x)
  /\ (count_of ToldConnected x <= if m_attached (agent x) then 1 else 0)%nat
  /\ (count_of ToldDisconnected x <= if m_close_notified (agent x) then 1 else 0)%nat.
Definition good_step x x' : Prop := world_ok x -> world_ok x' /\ later (agent x) (agent x').

#[global] Instance good_step_preorder : PreOrder good_step.
Proof.
  split; [by intros x Hx|]. intros x y z H1 H2 Hx. destruct (H1 Hx) as [Hy L1]. destruct (H2 Hy) as [Hz L2].
  split; [done|]. by etransitivity.
Qed.

Lemma count_of_app c c' a w x :
  count_of c (mkWorld a w (told x ++ [c'])) = (count_of c x + if decide (c' = c) then 1 else 0)%nat.
Proof.
  unfold count_of. cbn [told]. rewrite list.filter_app, length_app, filter_cons, filter_nil. by destruct (decide _).
Qed.

(** A later state of the stream only raises the bounds. *)
Lemma counts_later x a w :
  world_ok x -> agent_ok a -> later (agent x) a -> world_ok (mkWorld a w (told x)).
Proof.
  intros (H1 & H2 & H3) Ha (L1 & L2 & _). unfold world_ok. cbn [agent]. split_and!; [done| |].
  - change (count_of ToldConnected (mkWorld a w (told x))) with (count_of ToldConnected x).
    revert H2. destruct (m_attached (agent x)); [by rewrite L2|]. destruct (m_attached a); lia.
  - change (count_of ToldDisconnected (mkWorld a w (told x))) with (count_of ToldDisconnected x).
    revert H3. destruct (m_close_notified (agent x)); [by rewrite L1|]. destruct (m_close_notified a); lia.
Qed.

Lemma socket_step a x : socket_only (agent x) a -> good_step x (on_agent (fun _ => a) x).
Proof.
  intros Hs Hx. destruct (socket_only_ok _ _ Hs (proj1 Hx)) as [Ha L]. split; [|done]. by apply counts_later.
Qed.

Lemma tell_bytes_step bytes x : good_step x (tell_bytes bytes x).2.
Proof.
  intros Hx. unfold tell_bytes. pose proof (host_bytes_adapter bytes (agent x) (endpoint x)) as [ops Hops].
  destruct (host_bytes _ _ _) as [r [a w]]. cbn in Hops. subst a.
  destruct (run_adapter_ok ops _ (proj1 Hx)) as [Ha L]. split; [|done].
  destruct (counts_later x _ w Hx Ha L) as (_ & C1 & C2). split_and!; [done|..].
  - cbn [snd]. rewrite count_of_app. rewrite decide_False by done. rewrite Nat.add_0_r. exact C1.
  - cbn [snd]. rewrite count_of_app. rewrite decide_False by done. rewrite Nat.add_0_r. exact C2.
Qed.

Lemma agent_notify_step x :
  good_step x (notify_disconnect_once x)
  /\ (world_ok x -> m_close_notified (agent (notify_disconnect_once x)) = true
                  /\ m_adapter (agent (notify_disconnect_once x)) = false).
Proof.
  unfold notify_disconnect_once. destruct (m_close_notified (agent x)) eqn:Hn.
  { split; [reflexivity|]. intros ((_ & _ & O3 & _) & _). split; [done|by apply O3]. }
  assert (Hput : forall b s : bool, b = false -> agent_ok (agent x) -> agent_ok (put_adapter b s (put_notified (agent x)))
            /\ later (agent x) (put_adapter b s (put_notified (agent x)))).
  { intros b s -> (O1 & O2 & O3 & O4). unfold agent_ok, later. cbn. split_and!; auto; try done. intros Hh. split; [by apply O2|done]. }
  destruct (m_adapter (agent x)) eqn:Ha; cbn [m_adapter put_notified]; rewrite Ha; cbn [negb].
  - set (a0 := put_adapter false false (put_notified (agent x))).
    pose proof (host_disconnected_adapter a0 (endpoint x)) as [ops Hops].
    destruct (host_disconnected a0 (endpoint x)) as [a w]. cbn in Hops. subst a.
    assert (Hrun : agent_ok (agent x) -> agent_ok (run_adapter ops a0) /\ later (agent x) (run_adapter ops a0) /\ later a0 (run_adapter ops a0)).
    { intros Hok. destruct (Hput false false eq_refl Hok) as [P1 P2]. destruct (run_adapter_ok ops a0 P1) as [R1 R2].
      split_and!; [done|by etransitivity|done]. }
    split; intros Hx; destruct (Hrun (proj1 Hx)) as (R1 & R2 & (L1 & L2 & L3 & L4)).
    + split; [|done]. destruct (counts_later x _ w Hx R1 R2) as (_ & C1 & _). destruct Hx as (_ & _ & C2). rewrite Hn in C2.
      split_and!; [done|..]; rewrite count_of_app.
      * rewrite decide_False by done. by rewrite Nat.add_0_r.
      * cbn [agent]. rewrite L1 by done. destruct (decide _); lia.
    + cbn. split; [by apply L1|]. apply L4; [|done]. cbn. destruct Hx as ((_ & _ & _ & O4) & _). by apply O4.
  - assert (E : put_adapter false (m_s (agent x)) (put_notified (agent x)) = put_notified (agent x))
      by (unfold put_adapter, put_notified; cbn; by rewrite Ha).
    split; intros Hx; destruct (Hput false (m_s (agent x)) eq_refl (proj1 Hx)) as [P1 P2]; rewrite E in *;
      [split; [by apply counts_later|done]|done].
Qed.

#[global] Instance good_step_rel : CallbackRel good_step.
Proof. split; [apply _|intros; by apply socket_step|apply tell_bytes_step|]. intros x. apply agent_notify_step. Qed.

(** What remains of a stream once the reactor has let go of it. *)
Definition gone x : Prop :=
  world_ok x /\ m_close_notified (agent x) = true /\ m_adapter (agent x) = false
  /\ m_handle (conn (agent x)) = false /\ m_ping_timer (conn (agent x)) = None.

Lemma agent_release_gone x : world_ok x -> gone (release x).
Proof.
  intros Hx. unfold release. set (x1 := on_agent (on_conn cancel_ping_timer) x).
  assert (H1 : world_ok x1 /\ m_ping_timer (conn (agent x1)) = None).
  { split; [|apply cancel_state]. destruct Hx as ((O1 & O2 & O3 & O4) & C1 & C2). split_and!; [|done|done].
    destruct (cancel_state (conn (agent x))) as [E1 E2]. split; cbn; rewrite ?E1, ?E2; [by apply cancel_history|].
    split_and!; auto. intros Hh. split; [done|by apply O2]. }
  destruct H1 as [H1 Ht1]. destruct (agent_notify_step x1) as [Hs Hn]. destruct (Hs H1) as [H2 (_ & _ & L3 & _)].
  destruct (Hn H1) as [N1 N2]. specialize (L3 Ht1). clear Hs Hn. set (x2 := notify_disconnect_once x1) in *.
  destruct H2 as ((O1 & O2 & O3 & O4) & C1 & C2). unfold gone, world_ok, agent_ok. cbn.
  rewrite (proj1 (shut_state _)), (proj2 (shut_state _)). split_and!; auto. by apply shut_history.
Qed.

Definition life_ok (l : life N T W) : Prop :=
  match l with Live _ x => world_ok x | Deleted x => gone x | Crashed => True end.

Lemma agent_closed_down_ok x : world_ok x -> life_ok (closed_down x).
Proof. intros Hx. destruct (agent_release_gone _ (proj1 (agent_release_gone x Hx))) as (H1 & H2). exact (conj H1 H2). Qed.

Lemma agent_react_ok e l : life_ok l -> life_ok (react e l).
Proof.
  destruct l as [buf x|x|]; cbn [react life_ok]; [|done|done]. intros Hx.
  assert (Hstep : forall x', good_step x x' -> world_ok x') by (intros x' Hs; by apply Hs).
  destruct e as [| |ops w|].
  - pose proof (agent_handle_input_rel good_step buf x) as Hi.
    destruct (handle_input buf x); [by apply Hstep|apply agent_closed_down_ok; by apply Hstep|done|done].
  - pose proof (agent_handle_timeout_rel good_step x) as Hi. destruct (handle_timeout x) as [[] x'];
      [by apply Hstep|apply agent_closed_down_ok; by apply Hstep].
  - destruct (run_adapter_ok ops _ (proj1 Hx)) as [Ha L]. by apply counts_later.
  - by apply agent_closed_down_ok.
Qed.

Lemma attach_ok x : world_ok x -> m_close_notified (agent x) = false -> m_handle (conn (agent x)) = true -> world_ok (attach x).
Proof.
  intros Hx Hn Hh. unfold attach. destruct (m_attached (agent x)) eqn:Ha; [done|].
  set (a0 := put_adapter true true (put_attached (agent x))).
  assert (H0 : agent_ok a0).
  { destruct Hx as ((O1 & O2 & O3 & O4) & _). unfold agent_ok, a0. cbn. rewrite Hh, Hn in *. by split_and!. }
  pose proof (host_connected_adapter a0 (endpoint x)) as [ops Hops].
  destruct (host_connected a0 (endpoint x)) as [a w]. cbn in Hops. subst a.
  destruct (run_adapter_ok ops a0 H0) as [Hr (L1 & L2 & _)]. destruct Hx as (_ & C1 & C2). rewrite Ha, Hn in *.
  split_and!; [done| |]; rewrite count_of_app; cbn [agent].
  - rewrite L2 by done. destruct (decide _); lia.
  - rewrite decide_False by done. destruct (m_close_notified _); lia.
Qed.

Lemma new_agent_ok s auto w : world_ok (new_agent s auto w).
Proof.
  assert (H0 : world_ok (mkWorld (mkAgent (T := T) (new_conn s) false false false false None "") w [])).
  { split_and!; [|done|done]. unfold agent_ok. cbn. split_and!; try done. apply not_elem_of_nil. }
  unfold new_agent. destruct auto; [by apply attach_ok|done].
Qed.

Lemma setup_ok cert key ca buf x ok buf' x' :
  setup_inner_tls cert key ca buf x = Some (ok, (buf', x')) -> world_ok x ->
  world_ok x' /\ same_flags (agent x) (agent x') /\ m_handle (conn (agent x')) = m_handle (conn (agent x)).
Proof.
  unfold setup_inner_tls. intros Hs Hx. destruct (m_attached (agent x)); [by injection Hs as _ _ <-|].
  destruct (m_handle (conn (agent x))) eqn:Hh; cbn [negb] in Hs; [|by injection Hs as _ _ <-].
  destruct (handshake _) as [[r s]|] eqn:He; [|done]. unfold handshake in He. apply sock_handshake in He.
  cbn [transport inner_of snd] in He.
  assert (Hany : forall i cn, let a := put_conn (transport s).2 (put_inner i cn (agent x)) in
            world_ok (on_agent (fun _ => a) x) /\ same_flags (agent x) a /\ m_handle (conn a) = true).
  { intros i cn a. assert (Hso : socket_only (agent x) a) by done.
    split_and!; [by apply (socket_step a x Hso)|done|]. cbn. rewrite <- Hh. apply He. }
  destruct r; [|injection Hs as _ _ <-; apply (Hany None)].
  destruct (leftover_socket_bytes _) as [left b]. injection Hs as _ _ <-. apply Hany.
Qed.

Lemma register_ok x : world_ok x -> world_ok (register x).2.
Proof.
  intros ((O1 & O2 & O3 & O4) & C1 & C2). unfold register.
  destruct (register_history (conn (agent x)) O1) as [E1 E2]. pose proof (register_closed (conn (agent x))) as Hc.
  destruct (register_with_reactor (conn (agent x))) as [ok c]. cbn [snd] in *. split_and!; [|done|done].
  unfold agent_ok. cbn. rewrite E1. split_and!; auto. intros Hf. rewrite Hc by done. by apply O2.
Qed.

Lemma agent_start_ok buf x : world_ok x -> life_ok (start buf x).
Proof.
  intros Hx. apply register_ok in Hx. unfold start. destruct (register x) as [[] x1]; [done|].
  destruct (agent_release_gone _ Hx) as (H1 & H2). exact (conj H1 H2).
Qed.

Lemma accept_ok cert key ca s w l : accept_agent cert key ca s w = Some l -> life_ok l.
Proof.
  unfold accept_agent. destruct (str_empty cert); cbn [negb].
  - intros [= <-]. apply agent_start_ok. exact (new_agent_ok s true w).
  - destruct (setup_inner_tls _ _ _ _ _) as [[[] [buf x]]|] eqn:Hs; [| |done]; intros [= <-];
      destruct (setup_ok _ _ _ _ _ _ _ _ Hs (new_agent_ok s false w)) as (Hx & (F1 & F2 & F3 & F4) & Hh).
    + by apply agent_start_ok, attach_ok; rewrite ?F4.
    + destruct (agent_release_gone _ Hx) as (H1 & H2). exact (conj H1 H2).
Qed.

(** The agent's stream ends exactly once.  From the hand-off of the socket on, with or
    without the inner TLS, whatever the agent, the timer and the endpoint do and in
    whatever order: the endpoint gets at most one transport from the stream and hears of
    its end at most once, and nothing is written after the socket was closed; when the
    reactor has let go of the stream, the socket is closed, the timer cancelled, the
    adapter detached, and no later event tells the endpoint anything. *)
Theorem agent_released_once cert key ca s w es l :
  accept_agent cert key ca s w = Some l ->
  life_ok (reacts es l) /\ forall x es', reacts es l = Deleted x -> reacts (es ++ es') l = Deleted x.
Proof.
  intros Hl. apply accept_ok in Hl. split.
  - revert l Hl. induction es as [|e es IH]; intros l Hl; [done|]. apply IH. by apply agent_react_ok.
  - intros x es' He. unfold reacts in *. rewrite fold_left_app, He. by induction es'.
Qed.
End Life.
