(* ===== verification/AgentStack.v ===== *)
(** The agent's bytes through all the layers of the cloud's socket: WebSocket frames, the
    inner TLS with its bridge, and the hand-over to the endpoint. *)

From S2P Require Import Prelude WsFrame WsStream WsConn InnerTls WsTlsBridge TlsLoop AgentStream AgentStreamSpec.

#[local] Open Scope Z_scope.

Section Stack.
Context {N T W : Type} `{!NetIO N} `{!Tls T} `{!TlsChannel T} `{!Fuel} `{!EndpointHost N T W}.
Implicit Types (x : World N T W) (a : Agent N T) (t : T) (b : TlsBridge).

(** The endpoint reaches the stream through the adapter, and sends no empty message. *)
Definition op_nonempty (op : adapter_op) : Prop := match op with AdapterSend bytes => bytes <> "" | AdapterClose => True end.
Context (host_sends : forall bytes a w,
  exists ops, (host_bytes bytes a w).2.1 = run_adapter ops a /\ Forall op_nonempty ops).

Definition agent_secure t b a : Prop := m_inner_tls a = Some (t, b) /\ tls_up t /\ idle_bridge b.

#[local] Instance same_input_preorder : PreOrder same_input.
Proof.
  split; [by intros t|]. intros t1 t2 t3 (A1 & A2 & A3 & A4) (B1 & B2 & B3 & B4). unfold same_input. split_and!; congruence.
Qed.

Lemma write_bytes_secure bytes t b a :
  bytes <> "" -> agent_secure t b a -> exists t', agent_secure t' b (write_bytes bytes a).2 /\ same_input t t'.
Proof.
  intros Hb (Hi & Hup & Hidle). unfold write_bytes. destruct (m_handle (conn a)); cbn [negb]; [|by exists t].
  rewrite Hi. destruct (send_seals bytes (inner_of t b (conn a)) Hup Hb) as (c & t' & -> & U & _ & _ & F & D & P & G).
  exists t'. cbn [tr_send bridge_transport inner_of transport]. unfold WsTlsBridge.send. destruct Hidle as [H1 H2].
  rewrite H2. destruct (write_frame _ _ _ (conn a)) as [ok c']. by split.
Qed.

Lemma run_adapter_secure ops t b a :
  Forall op_nonempty ops -> agent_secure t b a -> exists t', agent_secure t' b (run_adapter ops a) /\ same_input t t'.
Proof.
  intros Hops. revert t a. induction Hops as [|op ops Hop Hops IH]; intros t a Ha; [by exists t|].
  change (run_adapter (op :: ops) a) with (run_adapter ops (run_op a op)).
  assert (H1 : exists t1, agent_secure t1 b (run_op a op) /\ same_input t t1).
  { destruct op as [bytes|]; cbn; [unfold adapter_send|unfold adapter_close]; destruct (m_s a); try (by exists t).
    by apply write_bytes_secure. }
  destruct H1 as (t1 & H1 & S1). destruct (IH t1 _ H1) as (t' & H2 & S2). exists t'. split; [done|]. by etransitivity.
Qed.

(** ** What the endpoint was given *)

Definition bytes_of (l : list host_call) : string := str_concat (omap (fun c => match c with ToldBytes s => Some s | _ => None end) l).
Definition bytes_told x : string := bytes_of (told x).

Lemma str_concat_app l l' : str_concat (l ++ l') = str_concat l +:+ str_concat l'.
Proof.
  induction l as [|s l IH]; [done|]. change (str_concat ((s :: l) ++ l')) with (s +:+ str_concat (l ++ l')).
  change (str_concat (s :: l)) with (s +:+ str_concat l). by rewrite IH, str_app_assoc.
Qed.
Lemma bytes_of_app l l' : bytes_of (l ++ l') = bytes_of l +:+ bytes_of l'.
Proof. unfold bytes_of. by rewrite omap_app, str_concat_app. Qed.

Lemma tell_bytes_secure bytes t b x :
  bytes <> "" -> secure session t b x ->
  (exists t', secure session t' b (tell_bytes bytes x).2 /\ same_input t t') /\ bytes_told (tell_bytes bytes x).2 = bytes_told x +:+ bytes.
Proof.
  intros _ Hs. unfold tell_bytes. destruct (host_sends bytes (agent x) (endpoint x)) as (ops & Hops & Hne).
  destruct (host_bytes _ _ _) as [r [a w]]. cbn in Hops. subst a. cbn [snd agent]. split.
  - exact (run_adapter_secure ops t b (agent x) Hne Hs).
  - unfold bytes_told. cbn [told]. rewrite bytes_of_app. unfold bytes_of at 2. cbn. by rewrite str_app_nil_r.
Qed.

Lemma notify_bytes x : bytes_told (notify_disconnect_once x) = bytes_told x.
Proof.
  unfold notify_disconnect_once. destruct (m_close_notified (agent x)); [done|].
  destruct (negb _); [done|]. destruct (host_disconnected _ _) as [a w]. unfold bytes_told. cbn [told].
  rewrite bytes_of_app. cbn. apply str_app_nil_r.
Qed.

Definition throws : Prop := exists bytes a w e, (host_bytes bytes a w).1 = Throw e.

Lemma tell_bytes_throws bytes x e : (tell_bytes bytes x).1 = Throw e -> throws.
Proof.
  unfold tell_bytes. destruct (host_bytes bytes (agent x) (endpoint x)) as [r [a w]] eqn:Hb. cbn. intros ->.
  exists bytes, (agent x), (endpoint x), e. by rewrite Hb.
Qed.

Lemma control_frame_told f x :
  is_data (opcode f) = false ->
  match control_frame f x with
  | Continue x' => session x' = session x /\ bytes_told x' = bytes_told x
  | Halt x' => keeps_going f = false /\ bytes_told x' = bytes_told x
  | Hang => False
  end.
Proof.
  intros Hd. unfold control_frame, keeps_going. rewrite Hd. destruct (opcode f =? kOpcodePing); [done|].
  destruct (opcode f =? kOpcodePong); [done|]. destruct (opcode f =? kOpcodeClose); by rewrite notify_bytes.
Qed.

(** The agent's messages survive all the layers of the cloud's socket.  Let the agent's
    end [u] of the inner TLS have sealed some plaintext, and let its ciphertext travel as
    the payloads of the data frames of a WebSocket stream, in any fragmentation, with pings
    in between, and cut into reads at any place.  Then the stream never stalls for another
    reason than missing bytes: when it waits, the endpoint was given, in order and each byte
    once, exactly what the agent wrote; when it stopped, the endpoint was given the
    beginning that arrived first, and the reason is a close (or unknown) frame of the agent
    or that the endpoint closed the socket; the frame decoder never leaves its buffer and
    no loop runs out of its bound unless the endpoint threw. *)
Theorem agent_stack_delivers chunks ws tail t b u x :
  between session t b x -> linked u t -> Forall wire_ok ws -> partial tail ->
  str_concat chunks = wire_stream ws +:+ tail -> fed t +:+ cipher (map w_frame ws) = emitted u ->
  match feed on_frame chunks "" x with
  | NeedBytes rest x' => rest = tail
      /\ exists p, bytes_told x' = bytes_told x +:+ p /\ delivered t +:+ p = sealed u
  | Stopped _ x' => stops sock (map w_frame ws) x'
      /\ exists c1 c2 p, cipher (map w_frame ws) = c1 +:+ c2
           /\ bytes_told x' = bytes_told x +:+ p /\ delivered t +:+ p = plain t (fed t +:+ c1)
  | Undef => False
  | Spin => throws
  end.
Proof.
  apply tls_delivers; try done.
  - apply tell_bytes_secure.
  - apply tell_bytes_throws.
  - apply control_frame_told.
Qed.
End Stack.

(** ** Examples *)

Section Witnesses.
#[local] Instance ex_fuel : Fuel := 100%nat.
(** An endpoint that answers every message with the same message. *)
#[local] Instance ex_host : EndpointHost FakeNet PlainTls nat := {|
  host_connected a w := (a, w);
  host_bytes bytes a w := (Ok tt, (run_adapter (if str_empty bytes then [] else [AdapterSend bytes]) a, Datatypes.S w));
  host_disconnected a w := (a, w);
|}.
Lemma ex_sends bytes (a : Agent FakeNet PlainTls) (w : nat) :
  exists ops, (host_bytes bytes a w).2.1 = run_adapter ops a /\ Forall op_nonempty ops.
Proof.
  cbn. destruct (str_empty bytes) eqn:E; [by exists []|]. exists [AdapterSend bytes]. split; [done|].
  constructor; [by apply str_empty_false|done].
Qed.
#[local] Instance ex_laws : EndpointHostLaws FakeNet PlainTls nat.
Proof.
  split; [by exists []| |by exists []]. intros bytes a w. destruct (ex_sends bytes a w) as (ops & H1 & _). by exists ops.
Qed.

Definition ex_session : PlainTls := plain_tls.(tls_server) "cert" "key" "".
Definition ex_bridge : TlsBridge := switch_to_buffered (new_bridge false).
Definition ex_agent : World FakeNet PlainTls nat :=
  mkWorld (mkAgent (new_conn (mkFakeNet [] true)) true true true false (Some (ex_session, ex_bridge)) "agent") 0%nat [].
Definition ex_ws : list Wire :=
  [mkWire (mkFrame kOpcodeBinary "REGI") true 0x11223344 0; mkWire (mkFrame kOpcodePing "") true 1 0;
   mkWire (mkFrame kOpcodeContinuation "STER") true 9 0].

Definition ex_reads : list string := [str_take 5 (wire_stream ex_ws); str_drop 5 (wire_stream ex_ws); "x"].
Definition ex_peer : PlainTls := mkPlainTls "" "" "REGISTER" "".

Lemma ex_between : between session ex_session ex_bridge ex_agent.
Proof. by repeat split. Qed.
Lemma ex_ws_ok : Forall wire_ok ex_ws.
Proof. do 3 (apply Forall_cons_2; [by repeat split|]). by apply Forall_nil_2. Qed.
Lemma ex_partial : partial "x".
Proof. by intros [|[|n]]. Qed.
Lemma ex_reads_ok : str_concat ex_reads = wire_stream ex_ws +:+ "x".
Proof. by vm_compute. Qed.
Lemma ex_waits : exists x', feed on_frame ex_reads "" ex_agent = NeedBytes "x" x'.
Proof. vm_compute. by eexists. Qed.

(** The ciphertext of one message in two frames with a ping between them, in three reads. *)
Lemma agent_stack_delivers_witness :
  exists x', feed on_frame ex_reads "" ex_agent = NeedBytes "x" x' /\ bytes_told x' = "REGISTER".
Proof.
  pose proof (agent_stack_delivers ex_sends ex_reads ex_ws "x" ex_session ex_bridge ex_peer ex_agent
    ex_between (conj I eq_refl) ex_ws_ok ex_partial ex_reads_ok eq_refl) as Hs.
  destruct ex_waits as [x' Hx']. rewrite Hx' in Hs. destruct Hs as [_ (p & Hp & Hd)].
  exists x'. split; [exact Hx'|]. rewrite Hp. exact Hd.
Defined.

(** The same agent through the whole of its life, with the inner TLS. *)
Lemma agent_released_once_witness :
  exists l, accept_agent "cert" "key" "ca" (mkFakeNet [wire_stream ex_ws] true) 0%nat = Some l
    /\ life_ok (reacts [Readable; TimerFired; EndpointActs [AdapterSend "pong"; AdapterClose] 4%nat; Readable; HandleClosed] l).
Proof.
  eexists. split; [by vm_compute|].
  exact (proj1 (agent_released_once "cert" "key" "ca" (mkFakeNet [wire_stream ex_ws] true) 0%nat
    [Readable; TimerFired; EndpointActs [AdapterSend "pong"; AdapterClose] 4%nat; Readable; HandleClosed] _ eq_refl)).
Defined.
End Witnesses.
