(* ===== verification/WsRecv.v ===== *)
(** The blocking frame reader of the database connection: [ws_recv_frame] of [WsDbServer]
    and of [WsDbAgent] (wsdbproxy.cpp, wsdbagent.cpp; the same code twice), and the
    transport of the inner TLS that reads with it (wstransport.hpp).

    The reader takes a frame's header from the socket byte by byte before it asks the
    decoder; the file shows that it finds the frames that the decoder finds in the whole
    stream, and takes no byte more. *)

From S2P Require Import Prelude SipFrame WsFrame WsStream.

#[local] Open Scope Z_scope.

(** [recv_n]: that many bytes, or the connection ended before. *)
Class RecvN (S : Type) := recv_n : nat -> S -> option string * S.
(** A socket on which these bytes will arrive and then the end. *)
#[export] Instance string_recv_n : RecvN string := fun n s =>
  if (String.length s <? n)%nat then (None, "") else (Some (str_take n s), str_drop n s).

(** [RecvThrow]: a buffer larger than a vector may be. *)
Inductive received (S : Type) :=
  | RecvFrame (f : Frame) (rest : S)
  | RecvEnd (rest : S)
  | RecvUndefined
  | RecvThrow.
Arguments RecvFrame {S} _ _.
Arguments RecvEnd {S} _.
Arguments RecvUndefined {S}.
Arguments RecvThrow {S}.

Definition max_size : Z := 2 ^ 63 - 1.

(** The length that the header declares, from the complete header. *)
Definition declared (plen : Z) (buf : string) : Z :=
  if plen =? 126 then Z.lor (Z.shiftl (ord (char_at 2 buf)) 8) (ord (char_at 3 buf))
  else if plen =? 127 then be_read 8 (str_drop 2 buf) 0
  else plen.

Section Reader.
Context {S : Type} `{!RecvN S}.

Definition read_n (n : nat) (buf : string) (s : S) : option string * S :=
  let '(got, s) := recv_n n s in (match got with Some bytes => Some (buf +:+ bytes) | None => None end, s).

Definition ws_recv_frame (s : S) : received S :=
  match read_n 2 "" s with
  | (None, s) => RecvEnd s
  | (Some buf, s) =>
      let masked := negb (Z.land (ord (char_at 1 buf)) 128 =? 0) in
      let plen := Z.land (ord (char_at 1 buf)) 127 in
      match read_n (if plen =? 126 then 2 else if plen =? 127 then 8 else 0) buf s with
      | (None, s) => RecvEnd s
      | (Some buf, s) =>
          match read_n (if masked then 4 else 0) buf s with
          | (None, s) => RecvEnd s
          | (Some buf, s) =>
              match decode buf with
              | Undefined => RecvUndefined
              | GotFrame f _ => RecvFrame f s
              | NoFrame =>
                  let need := declared plen buf in
                  if max_size <? Z.of_nat (String.length buf) + need then RecvThrow else
                  match read_n (Z.to_nat need) buf s with
                  | (None, s) => RecvEnd s
                  | (Some buf, s) =>
                      match decode buf with
                      | GotFrame f _ => RecvFrame f s
                      | NoFrame => RecvEnd s
                      | Undefined => RecvUndefined
                      end
                  end
              end
          end
      end
  end.
End Reader.

(** ** WebSocketTransport *)

(** What [recv] gives the inner TLS for a frame, and what it sends back on the way: the
    bytes (none for a control frame), or [false] when the peer closed. *)
Definition transport_recv (f : Frame) : option string * option (string * Z) :=
  if opcode f =? 2 then (Some (payload f), None)
  else if opcode f =? 9 then (Some "", Some (payload f, 10))
  else if opcode f =? 10 then (Some "", None)
  else if opcode f =? 8 then (None, None)
  else (Some "", None).

(** ** The reader and the decoder *)

(** The size of the header without the mask key, and the declared length. *)
Definition header (s : string) : option (nat * Z) :=
  if (String.length s <? 2)%nat then None else
  let plen := Z.land (ord (char_at 1 s)) 127 in
  let hs := if plen =? 126 then 4%nat else if plen =? 127 then 10%nat else 2%nat in
  if (String.length s <? hs)%nat then None else Some (hs, declared plen s).
Definition is_masked (s : string) : bool := negb (Z.land (ord (char_at 1 s)) 128 =? 0).

Lemma ws_decode_header s :
  decode s = match header s with
             | None => NoFrame
             | Some (hs, plen) => decode_payload s (Z.land (ord (char_at 0 s)) 15) (is_masked s) hs plen
             end.
Proof.
  unfold decode, header, declared, is_masked. destruct (Nat.ltb_spec (String.length s) 2); [done|].
  destruct (_ =? 126); [by destruct (_ <? 4)%nat|]. destruct (_ =? 127); [by destruct (_ <? 10)%nat|].
  by destruct (Nat.ltb_spec (String.length s) 2); [lia|].
Qed.

Lemma char_at_take i n s : (i < n)%nat -> (n <= String.length s)%nat -> char_at i (str_take n s) = char_at i s.
Proof.
  intros Hi Hn. rewrite <- (str_take_drop n s) at 2. symmetry. apply char_at_app. rewrite str_length_take. lia.
Qed.

Lemma declared_take plen hs n s :
  hs = (if plen =? 126 then 4%nat else if plen =? 127 then 10%nat else 2%nat) -> (hs <= n)%nat -> (n <= String.length s)%nat ->
  declared plen (str_take n s) = declared plen s.
Proof.
  unfold declared. intros -> Hn Hl. destruct (plen =? 126); [by rewrite !char_at_take by lia|]. destruct (plen =? 127); [|done].
  rewrite <- (str_take_drop n s) at 2. rewrite str_drop_app_le by (rewrite str_length_take; lia).
  symmetry. apply be_read_app. rewrite str_length_drop, str_length_take. lia.
Qed.

Lemma header_take n s hs plen :
  header s = Some (hs, plen) -> (hs <= n)%nat -> (n <= String.length s)%nat -> header (str_take n s) = Some (hs, plen).
Proof.
  unfold header. destruct (Nat.ltb_spec (String.length s) 2); [done|]. set (p := Z.land _ 127). set (h := if p =? 126 then _ else _).
  destruct (Nat.ltb_spec (String.length s) h); [done|]. intros [= <- <-] Hn Hl.
  assert (2 <= h)%nat by (unfold h; destruct (p =? 126), (p =? 127); lia).
  rewrite str_length_take, Nat.min_l by lia. destruct (Nat.ltb_spec n 2); [lia|].
  rewrite char_at_take by lia. fold p. fold h. destruct (Nat.ltb_spec n h); [lia|]. by rewrite (declared_take p h).
Qed.

Lemma xor_with_ext k k' i s : (forall j, (j < 4)%nat -> k j = k' j) -> xor_with k i s = xor_with k' i s.
Proof.
  intros He. revert i. induction s as [|c s IH]; intros i; [done|]. cbn [xor_with].
  by rewrite He, IH by (by apply Nat.mod_upper_bound).
Qed.

Lemma str_take_take m n s : (m <= n)%nat -> str_take m (str_take n s) = str_take m s.
Proof.
  revert n s. induction m as [|m IH]; intros n s Hn; [done|]. destruct n as [|n]; [lia|]. destruct s as [|c s]; [done|]. cbn. by rewrite IH by lia.
Qed.
Lemma str_drop_take m n s : str_drop m (str_take n s) = str_take (n - m) (str_drop m s).
Proof.
  revert m s. induction n as [|n IH]; intros m s; [by rewrite str_take_0, str_drop_nil|].
  destruct m as [|m]; [by rewrite !str_drop_0|]. destruct s as [|c s]; [cbn; by destruct (n - m)%nat|]. exact (IH m s).
Qed.

(** What a frame's declared length says about the buffer that holds it. *)
Lemma decode_payload_inv s op masked hs plen f rest :
  decode_payload s op masked hs plen = GotFrame f rest -> 0 <= plen < 2 ^ 64 -> (hs <= 10)%nat ->
  let start := (hs + (if masked then 4 else 0))%nat in
  let total := (start + Z.to_nat plen)%nat in
  (total <= String.length s)%nat /\ rest = str_drop total s
  /\ decode_payload (str_take total s) op masked hs plen = GotFrame f ""
  /\ (plen <> 0 -> decode_payload (str_take start s) op masked hs plen = NoFrame).
Proof.
  intros Hd Hp Hh start total. unfold decode_payload in Hd. fold start in Hd.
  assert (Hst : Z.of_nat start <= 14) by (unfold start; destruct masked; lia).
  destruct (Z.ltb_spec (Z.of_nat (String.length s)) (u64 (Z.of_nat start + plen))) as [|Ht]; [done|].
  destruct (Z.ltb_spec (Z.of_nat (String.length s)) (Z.of_nat start)) as [|Hs]; [done|].
  destruct (Z.ltb_spec (u64 (Z.of_nat start + plen)) (Z.of_nat start)) as [|Hw]; [done|]. cbn [orb] in Hd.
  assert (Hu : u64 (Z.of_nat start + plen) = Z.of_nat start + plen).
  { unfold u64 in *. clear - Hp Hst Hw. Z.to_euclidean_division_equations. lia. }
  assert (Htot : Z.to_nat (Z.of_nat start + plen) = total) by (unfold total; lia).
  rewrite Hu in *. rewrite Htot in Hd. injection Hd as <- <-.
  split_and!; [unfold total; lia|done| |].
  - unfold decode_payload. fold start. rewrite Hu, Htot, str_length_take, Nat.min_l by (unfold total; lia).
    destruct (Z.ltb_spec (Z.of_nat total) (Z.of_nat start + plen)); [unfold total in *; lia|].
    destruct (Z.ltb_spec (Z.of_nat total) (Z.of_nat start)); [unfold total in *; lia|].
    destruct (Z.ltb_spec (Z.of_nat start + plen) (Z.of_nat start)); [lia|]. cbn [orb].
    assert (Hraw : substr start (total - start) (str_take total s) = substr start (total - start) s).
    { unfold substr. by rewrite str_drop_take, str_take_take by lia. }
    rewrite Hraw, str_drop_take, Nat.sub_diag. cbn [str_take]. f_equal. f_equal.
    destruct masked; [|done]. apply xor_with_ext. intros j Hj. rewrite char_at_take; [done|unfold total, start; lia|unfold total; lia].
  - intros Hne. unfold decode_payload. fold start. rewrite Hu, str_length_take, Nat.min_l by lia.
    destruct (Z.ltb_spec (Z.of_nat start) (Z.of_nat start + plen)); [done|lia].
Qed.

Lemma be_read_range n s acc : 0 <= acc -> 0 <= be_read n s acc < (acc + 1) * 256 ^ Z.of_nat n.
Proof.
  revert s acc. induction n as [|n IH]; intros s acc Ha; [destruct s; cbn [be_read]; change (256 ^ Z.of_nat 0) with 1; lia|].
  rewrite Nat2Z.inj_succ, Z.pow_succ_r by lia. assert (Hpos : 0 < 256 ^ Z.of_nat n) by (apply Z.pow_pos_nonneg; lia).
  destruct s as [|c s]; cbn [be_read]; [nia|]. pose proof (ord_range c) as Hc. rewrite lor_shiftl_add by lia.
  destruct (IH s (acc * 2 ^ 8 + ord c) ltac:(lia)) as [H1 H2]. split; [lia|]. nia.
Qed.

Lemma header_range s hs plen : header s = Some (hs, plen) -> (2 <= hs <= 10)%nat /\ (hs <= String.length s)%nat /\ 0 <= plen < 2 ^ 64.
Proof.
  unfold header. destruct (Nat.ltb_spec (String.length s) 2); [done|]. set (p := Z.land _ 127).
  assert (Hp : 0 <= p < 128) by (unfold p; change 127 with (Z.ones 7); rewrite Z.land_ones by lia; apply Z.mod_pos_bound; lia).
  destruct (Nat.ltb_spec (String.length s) (if p =? 126 then 4 else if p =? 127 then 10 else 2)); [done|]. intros [= <- <-].
  split; [by destruct (p =? 126), (p =? 127); lia|]. split; [done|]. unfold declared.
  destruct (p =? 126); [|destruct (p =? 127)].
  - pose proof (ord_range (char_at 2 s)). pose proof (ord_range (char_at 3 s)). rewrite lor_shiftl_add by lia. lia.
  - pose proof (be_read_range 8 (str_drop 2 s) 0 ltac:(lia)) as Hr. change ((0 + 1) * 256 ^ Z.of_nat 8) with (2 ^ 64) in Hr. exact Hr.
  - lia.
Qed.

Lemma read_more k n s :
  (k <= String.length s)%nat ->
  read_n n (str_take k s) (str_drop k s)
    = if (String.length s <? k + n)%nat then (None, "") else (Some (str_take (k + n) s), str_drop (k + n) s).
Proof.
  intros Hk. unfold read_n, recv_n, string_recv_n. rewrite str_length_drop, str_drop_drop.
  destruct (Nat.ltb_spec (String.length s - k) n), (Nat.ltb_spec (String.length s) (k + n)); try lia; [done|].
  f_equal. f_equal. revert s Hk H H0. induction k as [|k IH]; intros s Hk H1 H2; [by rewrite str_take_0, str_drop_0|].
  destruct s as [|c s]; [cbn in *; lia|]. cbn [str_take str_drop Nat.add String.length] in *. rewrite str_app_cons, IH by lia. done.
Qed.

(** The reader, in terms of the whole stream. *)
Lemma ws_recv_frame_header s :
  ws_recv_frame s =
    match header s with
    | None => RecvEnd ""
    | Some (hs, plen) =>
        let start := (hs + (if is_masked s then 4 else 0))%nat in
        if (String.length s <? start)%nat then RecvEnd "" else
        match decode (str_take start s) with
        | Undefined => RecvUndefined
        | GotFrame f _ => RecvFrame f (str_drop start s)
        | NoFrame =>
            if max_size <? Z.of_nat start + plen then RecvThrow else
            if (String.length s <? start + Z.to_nat plen)%nat then RecvEnd "" else
            match decode (str_take (start + Z.to_nat plen) s) with
            | GotFrame f _ => RecvFrame f (str_drop (start + Z.to_nat plen) s)
            | NoFrame => RecvEnd (str_drop (start + Z.to_nat plen) s)
            | Undefined => RecvUndefined
            end
        end
    end.
Proof.
  unfold ws_recv_frame, header. pose proof (read_more 0 2 s ltac:(lia)) as H2. rewrite str_take_0, str_drop_0 in H2.
  rewrite H2. clear H2. cbn [Nat.add]. destruct (Nat.ltb_spec (String.length s) 2); [done|].
  rewrite !char_at_take by lia. fold (is_masked s). set (p := Z.land _ 127).
  rewrite read_more by lia. set (more := if p =? 126 then 2%nat else _). set (hs := if p =? 126 then 4%nat else _).
  assert (Hhs : (2 + more)%nat = hs) by (unfold more, hs; by destruct (p =? 126), (p =? 127)). rewrite Hhs.
  destruct (Nat.ltb_spec (String.length s) hs); [done|]. rewrite read_more by lia.
  set (start := (hs + _)%nat). destruct (Nat.ltb_spec (String.length s) start); [done|].
  rewrite (declared_take p hs) by (done || unfold start; lia). destruct (decode (str_take start s)); try done.
  rewrite str_length_take, Nat.min_l by lia. destruct (max_size <? _); [done|]. rewrite read_more by lia.
  by destruct (_ <? _)%nat.
Qed.

(** The blocking reader finds the frame that the decoder finds.  When the bytes that
    arrive on the socket begin with a frame, however its length is written and whether it
    is masked or not, [ws_recv_frame] returns that frame, having taken exactly its bytes
    from the socket; when the connection ends before the first frame is complete it
    returns [false], or, if the frame claims more than a vector may hold, throws. *)
Theorem recv_frame_decodes s :
  Z.of_nat (String.length s) <= max_size ->
  (forall f rest, decode s = GotFrame f rest -> ws_recv_frame s = RecvFrame f rest)
  /\ (decode s = NoFrame -> ws_recv_frame s = RecvEnd "" \/ ws_recv_frame s = RecvThrow).
Proof.
  intros Hmax. rewrite ws_recv_frame_header, ws_decode_header. destruct (header s) as [[hs plen]|] eqn:Hh; [|split; [done|by left]].
  destruct (header_range _ _ _ Hh) as (Hhs & Hlen & Hp). cbn zeta. set (start := (hs + _)%nat).
  assert (Hdec : forall n, (start <= n)%nat -> (n <= String.length s)%nat ->
            decode (str_take n s) = decode_payload (str_take n s) (Z.land (ord (char_at 0 s)) 15) (is_masked s) hs plen).
  { intros n Hn Hl. rewrite ws_decode_header, (header_take n s hs plen) by (done || unfold start in Hn; lia).
    unfold is_masked. by rewrite !char_at_take by (unfold start in Hn; lia). }
  split.
  - intros f rest Hd. destruct (decode_payload_inv _ _ _ _ _ _ _ Hd Hp ltac:(lia)) as (Ht & -> & Hfull & Hpart). fold start in Ht, Hfull, Hpart |- *.
    destruct (Nat.ltb_spec (String.length s) start); [lia|]. rewrite Hdec by lia.
    destruct (decide (plen = 0)) as [->|Hne].
    + rewrite Z2Nat.inj_0, Nat.add_0_r in *. by rewrite Hfull.
    + rewrite Hpart by done. destruct (Z.ltb_spec max_size (Z.of_nat start + plen)); [lia|].
      destruct (Nat.ltb_spec (String.length s) (start + Z.to_nat plen)); [lia|]. by rewrite Hdec, Hfull by lia.
  - intros Hd. destruct (Nat.ltb_spec (String.length s) start); [by left|]. rewrite Hdec by lia.
    assert (Hshort : Z.of_nat (String.length s) < u64 (Z.of_nat start + plen)).
    { unfold decode_payload in Hd. fold start in Hd. destruct (Z.ltb_spec (Z.of_nat (String.length s)) (u64 (Z.of_nat start + plen))); [done|].
      by match type of Hd with context [if ?b then _ else _] => destruct b end. }
    assert (Hpart : decode_payload (str_take start s) (Z.land (ord (char_at 0 s)) 15) (is_masked s) hs plen = NoFrame).
    { unfold decode_payload. fold start. rewrite str_length_take, Nat.min_l by lia.
      by destruct (Z.ltb_spec (Z.of_nat start) (u64 (Z.of_nat start + plen))); [|lia]. }
    rewrite Hpart. destruct (max_size <? _); [by right|]. left.
    destruct (Nat.ltb_spec (String.length s) (start + Z.to_nat plen)); [done|].
    assert (u64 (Z.of_nat start + plen) <= Z.of_nat start + plen) by (unfold u64; apply Z.mod_le; lia). lia.
Qed.

Lemma recv_frame_decodes_witness :
  ws_recv_frame (encode "pong" 10 true 7 0 +:+ "rest") = RecvFrame (mkFrame 10 "pong") "rest"
  /\ ws_recv_frame (str_take 5 (encode "pong" 10 true 7 0)) = RecvEnd "".
Proof.
  split.
  - apply (recv_frame_decodes (encode "pong" 10 true 7 0 +:+ "rest")); by vm_compute.
  - destruct (recv_frame_decodes (str_take 5 (encode "pong" 10 true 7 0))) as [_ Hn]; [by vm_compute|].
    destruct Hn as [|Hn]; [by vm_compute|done|by vm_compute in Hn].
Defined.
