(* ===== verification/DbProto.v ===== *)
(** The messages between the web service and the database agent (dbproto.cpp): a request or
    a response is one BSON document.

    bsoncxx, which builds and reads BSON, is the class [Bson]; [BsonLaws] says that a field
    that was appended is found again. *)

From S2P Require Import Prelude.

#[local] Open Scope Z_scope.

(** ** BSON *)

Inductive bson :=
  | BInt32 (z : Z)
  | BBool (b : bool)
  | BUtf8 (s : string)
  | BBinary (bytes : string)
  | BOther.

(** [bson_doc] is the builder's bytes, [bson_find] the element [v[key]] of a view, [from_json]
    and [to_json] convert; each of the last three may throw. *)
Class Bson := {
  bson_doc : list (string * bson) -> string;
  bson_find : string -> string -> result (option bson);
  from_json : string -> result string;
  to_json : string -> result string;
}.

Definition assoc (key : string) (kvs : list (string * bson)) : option bson :=
  snd <$> head (filter (fun kv => kv.1 = key) kvs).

Definition is_i32 (z : Z) : Prop := -2 ^ 31 <= z < 2 ^ 31.
Definition value_ok (v : bson) : Prop := match v with BInt32 z => is_i32 z | _ => True end.

Class BsonLaws `{!Bson} : Prop := {
  bson_doc_not_empty kvs : bson_doc kvs <> "";
  bson_find_doc kvs key :
    NoDup kvs.*1 -> Forall (fun kv => value_ok kv.2) kvs -> bson_find (bson_doc kvs) key = Ok (assoc key kvs);
}.

(** ** The messages *)

(** [OtherOp] is any other value of the enumeration's underlying type. *)
Inductive DbOp :=
  | CREATE_DOCUMENT
  | CREATE_BULK_DOCUMENT
  | UPDATE_COLLECTION
  | UPDATE_BULK_DOCUMENT
  | DELETE_DOCUMENT
  | GET_DOCUMENT
  | GET_DOCUMENTS_QUERIED
  | GET_DOCUMENTS_ALL
  | NEXT_AWBNO
  | STORE_FILE
  | FETCH_FILE
  | FETCH_FILE_BY_ID
  | DELETE_FILE
  | OtherOp (z : Z).

Definition op_raw (op : DbOp) : Z :=
  match op with
  | CREATE_DOCUMENT => 0
  | CREATE_BULK_DOCUMENT => 1
  | UPDATE_COLLECTION => 2
  | UPDATE_BULK_DOCUMENT => 3
  | DELETE_DOCUMENT => 4
  | GET_DOCUMENT => 5
  | GET_DOCUMENTS_QUERIED => 6
  | GET_DOCUMENTS_ALL => 7
  | NEXT_AWBNO => 8
  | STORE_FILE => 9
  | FETCH_FILE => 10
  | FETCH_FILE_BY_ID => 11
  | DELETE_FILE => 12
  | OtherOp z => z
  end.
Definition known_ops : list DbOp :=
  [CREATE_DOCUMENT; CREATE_BULK_DOCUMENT; UPDATE_COLLECTION; UPDATE_BULK_DOCUMENT; DELETE_DOCUMENT; GET_DOCUMENT;
   GET_DOCUMENTS_QUERIED; GET_DOCUMENTS_ALL; NEXT_AWBNO; STORE_FILE; FETCH_FILE; FETCH_FILE_BY_ID; DELETE_FILE].
(** [static_cast<DbOp>(z)]. *)
Definition op_cast (z : Z) : DbOp :=
  match head (filter (fun op => op_raw op = z) known_ops) with Some op => op | None => OtherOp z end.

Record DbRequest := mkDbRequest {
  rq_reqid : Z;
  rq_op : DbOp;
  rq_db : string;
  rq_coll : string;
  rq_doc : string;
  rq_doc2 : string;
  rq_sval : string;
}.
Definition default_request : DbRequest := mkDbRequest (-1) GET_DOCUMENT "" "" "" "" "".

Record DbResponse := mkDbResponse {
  rs_reqid : Z;
  rs_ok : bool;
  rs_sval : string;
  rs_ival : Z;
  rs_bval : bool;
  rs_data : string;
  rs_errmsg : string;
}.
Definition default_response : DbResponse := mkDbResponse (-1) false "" 0 false "" "".

(** Wrap-around of [std::int32_t]. *)
Definition i32 (z : Z) : Z := (z + 2 ^ 31) mod 2 ^ 32 - 2 ^ 31.

Section Proto.
Context `{!Bson}.
Implicit Types (bytes : string).

Definition unless (empty : bool) (key : string) (v : bson) : list (string * bson) := if empty then [] else [(key, v)].

(** [s_reqid] is the process-wide counter; the request and the counter after it. *)
Definition build_request (op : DbOp) (db coll doc doc2 sval : string) (s_reqid : Z) : Z * string * Z :=
  let reqid := s_reqid in
  (reqid,
   bson_doc ([("reqid", BInt32 reqid); ("op", BInt32 (op_raw op))]
     ++ unless (str_empty db) "db" (BUtf8 db)
     ++ unless (str_empty coll) "coll" (BUtf8 coll)
     ++ unless (str_empty doc) "doc" (BBinary doc)
     ++ unless (str_empty doc2) "doc2" (BBinary doc2)
     ++ unless (str_empty sval) "sval" (BUtf8 sval)),
   i32 (s_reqid + 1)).

(** [get_int32] and the others throw on another type. *)
Definition get_int32 (v : bson) : result Z := match v with BInt32 z => Ok z | _ => Throw DbError end.
Definition get_bool (v : bson) : result bool := match v with BBool b => Ok b | _ => Throw DbError end.
Definition get_utf8 (v : bson) : result string := match v with BUtf8 s => Ok s | _ => Throw DbError end.
Definition get_binary (v : bson) : result string := match v with BBinary s => Ok s | _ => Throw DbError end.

(** [if (auto e = v[key]) out.field = e.get().value], on the output parameter. *)
Definition if_found {W A} bytes (key : string) (get : bson -> result A) (set : A -> W -> W) : M W unit :=
  e ← lift (bson_find bytes key);
  match e with
  | None => mret tt
  | Some v => a ← lift (get v); modify (set a)
  end.

(** The result, and what [out] is then: a field that was read before the exception keeps
    its value. *)
Definition run_parse {W} (m : M W unit) (out : W) : bool * W :=
  match m out with (Ok _, out) => (true, out) | (Throw _, out) => (false, out) end.

Definition parse_request bytes (out : DbRequest) : bool * DbRequest :=
  if str_empty bytes then (false, out) else
  run_parse (
    if_found bytes "reqid" get_int32 (fun z r => mkDbRequest z (rq_op r) (rq_db r) (rq_coll r) (rq_doc r) (rq_doc2 r) (rq_sval r)) ;;
    if_found bytes "op" get_int32 (fun z r => mkDbRequest (rq_reqid r) (op_cast z) (rq_db r) (rq_coll r) (rq_doc r) (rq_doc2 r) (rq_sval r)) ;;
    if_found bytes "db" get_utf8 (fun s r => mkDbRequest (rq_reqid r) (rq_op r) s (rq_coll r) (rq_doc r) (rq_doc2 r) (rq_sval r)) ;;
    if_found bytes "coll" get_utf8 (fun s r => mkDbRequest (rq_reqid r) (rq_op r) (rq_db r) s (rq_doc r) (rq_doc2 r) (rq_sval r)) ;;
    if_found bytes "sval" get_utf8 (fun s r => mkDbRequest (rq_reqid r) (rq_op r) (rq_db r) (rq_coll r) (rq_doc r) (rq_doc2 r) s) ;;
    if_found bytes "doc" get_binary (fun s r => mkDbRequest (rq_reqid r) (rq_op r) (rq_db r) (rq_coll r) s (rq_doc2 r) (rq_sval r)) ;;
    if_found bytes "doc2" get_binary (fun s r => mkDbRequest (rq_reqid r) (rq_op r) (rq_db r) (rq_coll r) (rq_doc r) s (rq_sval r))) out.

Definition build_response (rsp : DbResponse) : string :=
  bson_doc ([("reqid", BInt32 (rs_reqid rsp)); ("ok", BBool (rs_ok rsp))]
    ++ unless (str_empty (rs_sval rsp)) "sval" (BUtf8 (rs_sval rsp))
    ++ unless (rs_ival rsp =? 0) "ival" (BInt32 (rs_ival rsp))
    ++ unless (negb (rs_bval rsp)) "bval" (BBool (rs_bval rsp))
    ++ unless (str_empty (rs_data rsp)) "data" (BBinary (rs_data rsp))
    ++ unless (str_empty (rs_errmsg rsp)) "errmsg" (BUtf8 (rs_errmsg rsp))).

Definition parse_response bytes (out : DbResponse) : bool * DbResponse :=
  if str_empty bytes then (false, out) else
  run_parse (
    if_found bytes "reqid" get_int32 (fun z r => mkDbResponse z (rs_ok r) (rs_sval r) (rs_ival r) (rs_bval r) (rs_data r) (rs_errmsg r)) ;;
    if_found bytes "ok" get_bool (fun b r => mkDbResponse (rs_reqid r) b (rs_sval r) (rs_ival r) (rs_bval r) (rs_data r) (rs_errmsg r)) ;;
    if_found bytes "sval" get_utf8 (fun s r => mkDbResponse (rs_reqid r) (rs_ok r) s (rs_ival r) (rs_bval r) (rs_data r) (rs_errmsg r)) ;;
    if_found bytes "ival" get_int32 (fun z r => mkDbResponse (rs_reqid r) (rs_ok r) (rs_sval r) z (rs_bval r) (rs_data r) (rs_errmsg r)) ;;
    if_found bytes "bval" get_bool (fun b r => mkDbResponse (rs_reqid r) (rs_ok r) (rs_sval r) (rs_ival r) b (rs_data r) (rs_errmsg r)) ;;
    if_found bytes "errmsg" get_utf8 (fun s r => mkDbResponse (rs_reqid r) (rs_ok r) (rs_sval r) (rs_ival r) (rs_bval r) (rs_data r) s) ;;
    if_found bytes "data" get_binary (fun s r => mkDbResponse (rs_reqid r) (rs_ok r) (rs_sval r) (rs_ival r) (rs_bval r) s (rs_errmsg r))) out.

Definition make_error_response (reqid : Z) (errmsg : string) : string :=
  build_response (mkDbResponse reqid false "" 0 false "" errmsg).
End Proto.

(** ** The messages come back as they were sent *)

Definition op_ok (op : DbOp) : Prop := match op with OtherOp z => is_i32 z /\ ~ (0 <= z <= 12) | _ => True end.

Lemma op_raw_i32 op : op_ok op -> is_i32 (op_raw op).
Proof. intros Ho. destruct op; try exact (proj1 Ho); unfold is_i32; cbn [op_raw]; lia. Qed.

Lemma op_cast_raw op : op_ok op -> op_cast (op_raw op) = op.
Proof.
  destruct op as [| | | | | | | | | | | | |z]; try done. intros [_ Hz]. unfold op_cast, known_ops. cbn [op_raw].
  do 13 (rewrite filter_cons_False by (cbn in *; lia)). done.
Qed.

Lemma i32_small z : is_i32 z -> i32 z = z.
Proof. unfold is_i32, i32. intros Hz. rewrite Z.mod_small by lia. lia. Qed.
Lemma i32_range z : is_i32 (i32 z).
Proof. unfold is_i32, i32. pose proof (Z.mod_pos_bound (z + 2 ^ 31) (2 ^ 32)). lia. Qed.

Section Roundtrip.
Context `{!Bson} `{!BsonLaws}.

Lemma assoc_app key l l' : assoc key (l ++ l') = match assoc key l with Some v => Some v | None => assoc key l' end.
Proof. unfold assoc. rewrite list.filter_app. by destruct (filter _ l). Qed.
Lemma assoc_cons key k v l : assoc key ((k, v) :: l) = if decide (k = key) then Some v else assoc key l.
Proof.
  unfold assoc. destruct (decide (k = key)) as [Hk|Hk]; [by rewrite filter_cons_True|by rewrite filter_cons_False].
Qed.
Lemma assoc_unless key empty k v : assoc key (unless empty k v) = if empty then None else if decide (k = key) then Some v else None.
Proof. destruct empty; [done|]. cbn [unless]. by rewrite assoc_cons. Qed.

(** A field that may have been left out, because its value was the default: what is read
    back is the value all the same. *)
Lemma if_found_unless {W A} bytes key get (set : A -> W -> W) (k : M W unit) out (empty : bool) (v : bson) (a : A) :
  bson_find bytes key = Ok (if empty then None else Some v) -> get v = Ok a -> (empty = true -> set a out = out) ->
  (if_found bytes key get set ;; k) out = k (set a out).
Proof.
  intros Hf Hg He. unfold if_found, mbind, M_bind, lift. rewrite Hf. destruct empty; [by rewrite He|]. by rewrite Hg.
Qed.
Lemma if_found_last {W A} bytes key get (set : A -> W -> W) out (empty : bool) (v : bson) (a : A) :
  bson_find bytes key = Ok (if empty then None else Some v) -> get v = Ok a -> (empty = true -> set a out = out) ->
  if_found bytes key get set out = (Ok tt, set a out).
Proof.
  intros Hf Hg He. unfold if_found, mbind, M_bind, lift. rewrite Hf. destruct empty; [by rewrite He|]. by rewrite Hg.
Qed.
Lemma if_found_step {W A} bytes key get (set : A -> W -> W) (k : M W unit) out v a :
  bson_find bytes key = Ok (Some v) -> get v = Ok a -> (if_found bytes key get set ;; k) out = k (set a out).
Proof. intros Hf Hg. by apply (if_found_unless bytes key get set k out false v a). Qed.

Lemma keys_unless empty k v : (unless empty k v).*1 = if empty then [] else [k].
Proof. by destruct empty. Qed.
Lemma values_unless empty k v : value_ok v -> Forall (fun kv => value_ok kv.2) (unless empty k v).
Proof. intros Hv. destruct empty; [apply Forall_nil_2|by apply Forall_singleton]. Qed.

(** A document of seven fields of which the last five may be missing. *)
Lemma find_fields (k1 k2 k3 k4 k5 k6 k7 : string) v1 v2 v3 v4 v5 v6 v7 e3 e4 e5 e6 e7 :
  NoDup [k1; k2; k3; k4; k5; k6; k7] -> Forall value_ok [v1; v2; v3; v4; v5; v6; v7] ->
  let d := bson_doc ([(k1, v1); (k2, v2)] ++ unless e3 k3 v3 ++ unless e4 k4 v4 ++ unless e5 k5 v5
                     ++ unless e6 k6 v6 ++ unless e7 k7 v7) in
  bson_find d k1 = Ok (Some v1) /\ bson_find d k2 = Ok (Some v2)
  /\ bson_find d k3 = Ok (if e3 then None else Some v3) /\ bson_find d k4 = Ok (if e4 then None else Some v4)
  /\ bson_find d k5 = Ok (if e5 then None else Some v5) /\ bson_find d k6 = Ok (if e6 then None else Some v6)
  /\ bson_find d k7 = Ok (if e7 then None else Some v7).
Proof.
  intros Hnd Hv d. set (kvs := [(k1, v1); (k2, v2)] ++ _) in d.
  assert (Hsub : kvs.*1 `sublist_of` [k1; k2; k3; k4; k5; k6; k7]).
  { unfold kvs. rewrite !fmap_app, !keys_unless. destruct e3, e4, e5, e6, e7; cbn; repeat constructor. }
  assert (Hfind : forall key, bson_find d key = Ok (assoc key kvs)).
  { intros key. apply bson_find_doc; [by eapply sublist_NoDup|]. unfold kvs.
    repeat (apply Forall_cons_1 in Hv as [? Hv]).
    repeat apply Forall_app_2; try (by apply values_unless). by repeat apply Forall_cons_2. }
  rewrite !Hfind. unfold kvs. cbn [app]. rewrite !assoc_cons, !assoc_app, !assoc_unless.
  repeat (apply list.NoDup_cons in Hnd as [Hnot Hnd]; repeat (apply not_elem_of_cons in Hnot as [? Hnot]); clear Hnot).
  split_and!; repeat (case_decide; try congruence); destruct e3, e4, e5, e6, e7; done.
Qed.

(** A left out field has its default. *)
Ltac read_default :=
  let He := fresh in
  intros He; first [apply str_empty_true in He as ->|apply Z.eqb_eq in He as ->|apply negb_true_iff in He as ->]; reflexivity.

(** A request is read as it was built, whichever fields it leaves out. *)
Lemma request_roundtrip op db coll doc doc2 sval n :
  is_i32 n -> op_ok op ->
  parse_request (build_request op db coll doc doc2 sval n).1.2 default_request
    = (true, mkDbRequest n op db coll doc doc2 sval).
Proof.
  intros Hn Hop. unfold build_request. cbn [fst snd].
  destruct (find_fields "reqid" "op" "db" "coll" "doc" "doc2" "sval" (BInt32 n) (BInt32 (op_raw op)) (BUtf8 db) (BUtf8 coll)
    (BBinary doc) (BBinary doc2) (BUtf8 sval) (str_empty db) (str_empty coll) (str_empty doc) (str_empty doc2) (str_empty sval))
    as (F1 & F2 & F3 & F4 & F5 & F6 & F7).
  { by apply (bool_decide_unpack _). }
  { repeat apply Forall_cons_2; try done. by apply op_raw_i32. }
  unfold parse_request, run_parse. destruct (str_empty (bson_doc _)) eqn:He.
  { apply str_empty_true in He. by apply bson_doc_not_empty in He. }
  rewrite (if_found_step _ _ get_int32 _ _ _ _ _ F1 eq_refl), (if_found_step _ _ get_int32 _ _ _ _ _ F2 eq_refl), op_cast_raw by done.
  rewrite (if_found_unless _ _ get_utf8 _ _ _ _ _ _ F3 eq_refl) by read_default.
  rewrite (if_found_unless _ _ get_utf8 _ _ _ _ _ _ F4 eq_refl) by read_default.
  rewrite (if_found_unless _ _ get_utf8 _ _ _ _ _ _ F7 eq_refl) by read_default.
  rewrite (if_found_unless _ _ get_binary _ _ _ _ _ _ F5 eq_refl) by read_default.
  by rewrite (if_found_last _ _ get_binary _ _ _ _ _ F6 eq_refl) by read_default.
Qed.

(** So is a response. *)
Lemma response_roundtrip rsp :
  is_i32 (rs_reqid rsp) -> is_i32 (rs_ival rsp) -> parse_response (build_response rsp) default_response = (true, rsp).
Proof.
  destruct rsp as [n ok sval ival bval data errmsg]. cbn [rs_reqid rs_ival]. intros Hn Hi. unfold build_response. cbn [rs_reqid rs_ok rs_sval rs_ival rs_bval rs_data rs_errmsg].
  destruct (find_fields "reqid" "ok" "sval" "ival" "bval" "data" "errmsg" (BInt32 n) (BBool ok) (BUtf8 sval) (BInt32 ival)
    (BBool bval) (BBinary data) (BUtf8 errmsg) (str_empty sval) (ival =? 0) (negb bval) (str_empty data) (str_empty errmsg))
    as (F1 & F2 & F3 & F4 & F5 & F6 & F7).
  { by apply (bool_decide_unpack _). }
  { by repeat apply Forall_cons_2. }
  unfold parse_response, run_parse. destruct (str_empty (bson_doc _)) eqn:He.
  { apply str_empty_true in He. by apply bson_doc_not_empty in He. }
  rewrite (if_found_step _ _ get_int32 _ _ _ _ _ F1 eq_refl), (if_found_step _ _ get_bool _ _ _ _ _ F2 eq_refl).
  rewrite (if_found_unless _ _ get_utf8 _ _ _ _ _ _ F3 eq_refl) by read_default.
  rewrite (if_found_unless _ _ get_int32 _ _ _ _ _ _ F4 eq_refl) by read_default.
  rewrite (if_found_unless _ _ get_bool _ _ _ _ _ _ F5 eq_refl) by read_default.
  rewrite (if_found_unless _ _ get_utf8 _ _ _ _ _ _ F7 eq_refl) by read_default.
  by rewrite (if_found_last _ _ get_binary _ _ _ _ _ F6 eq_refl) by read_default.
Qed.
End Roundtrip.

(** ** An encoding for examples *)

Definition bson_sum (v : bson) : (Z + bool) + (string + string) + unit :=
  match v with
  | BInt32 z => inl (inl (inl z))
  | BBool b => inl (inl (inr b))
  | BUtf8 s => inl (inr (inl s))
  | BBinary s => inl (inr (inr s))
  | BOther => inr tt
  end.
Definition sum_bson (s : (Z + bool) + (string + string) + unit) : bson :=
  match s with
  | inl (inl (inl z)) => BInt32 z
  | inl (inl (inr b)) => BBool b
  | inl (inr (inl s)) => BUtf8 s
  | inl (inr (inr s)) => BBinary s
  | inr _ => BOther
  end.
#[global] Instance bson_eq_dec : EqDecision bson.
Proof. solve_decision. Defined.
#[global] Instance bson_countable : Countable bson.
Proof. refine (inj_countable' bson_sum sum_bson _). by intros []. Defined.

(** The bits of a number, lowest first. *)
Fixpoint bits_of (p : positive) : string :=
  match p with xH => "1" | xO p' => String "o" (bits_of p') | xI p' => String "i" (bits_of p') end.
Fixpoint of_bits (s : string) : option positive :=
  match s with
  | EmptyString => None
  | String c s' =>
      if Ascii.eqb c "1" then Some xH
      else if Ascii.eqb c "o" then xO <$> of_bits s'
      else if Ascii.eqb c "i" then xI <$> of_bits s' else None
  end.
Lemma of_bits_of p : of_bits (bits_of p) = Some p.
Proof. induction p as [p IH|p IH|]; cbn; [by rewrite IH|by rewrite IH|done]. Qed.

(** Every string is a text; JSON text is stored as it is. *)
Definition toy_bson : Bson := {|
  bson_doc kvs := bits_of (encode kvs);
  bson_find bytes key :=
    match of_bits bytes ≫= decode (A := list (string * bson)) with Some kvs => Ok (assoc key kvs) | None => Throw DbError end;
  from_json s := Ok s;
  to_json s := Ok s;
|}.
Lemma toy_bson_laws : @BsonLaws toy_bson.
Proof.
  split; cbn.
  - intros kvs. by destruct (encode kvs).
  - intros kvs key _ _. rewrite of_bits_of. cbn [mbind option_bind]. by rewrite decode_encode.
Qed.
