(* ===== verification/DbAgent.v ===== *)
(** The database agent (wsdbagent.cpp): it answers each request with the local database
    client and reconnects with a growing pause.

    The database client is the interface [MongoClient] (mongodbc.hpp), which the web
    service's proxy implements too. *)

From S2P Require Import Prelude Json DbProto.

#[local] Open Scope Z_scope.

(** ** IMongodbClient *)

(** Every function may throw.  Files are byte strings. *)
Class MongoClient (D : Type) := {
  create_document : string -> string -> string -> D -> result string * D;
  create_bulk_document : string -> string -> string -> D -> result Z * D;
  update_collection : string -> string -> string -> D -> result bool * D;
  update_bulk_document : string -> list string -> list string -> D -> result Z * D;
  delete_document : string -> string -> D -> result bool * D;
  get_document : string -> string -> string -> D -> result string * D;
  get_documents : string -> string -> string -> D -> result string * D;
  get_documents_all : string -> string -> D -> result string * D;
  next_awbno : string -> D -> result string * D;
  store_file : string -> string -> string -> D -> result string * D;
  fetch_file : string -> D -> result string * D;
  fetch_file_by_id : string -> D -> result string * D;
  delete_file : string -> D -> result bool * D;
}.

(** [std::int32_t] results. *)
Class MongoLaws (D : Type) `{!MongoClient D} : Prop := {
  create_bulk_i32 db coll doc d n d' : create_bulk_document db coll doc d = (Ok n, d') -> is_i32 n;
  update_bulk_i32 coll f v d n d' : update_bulk_document coll f v d = (Ok n, d') -> is_i32 n;
}.

(** [e.what()]. *)
Class What := what : exn -> string.

Section Agent.
Context {D : Type} `{!Bson} `{!JsonLib} `{!MongoClient D} `{!What}.

Definition bson_to_json (bytes : string) : string :=
  if str_empty bytes then "{}" else catch_all (to_json bytes) "{}".

(** [json::parse(s).get<std::vector<std::string>>()]. *)
Definition string_array (s : string) : result (list string) :=
  j ← json_parse s;
  match j with JArr l => mapM get_string l | _ => Throw JsonTypeError end.

(** ** dispatch *)

(** The body of the [try]: the response, with [reqid] set and the rest default. *)
Definition answer (m_db_name : string) (req : DbRequest) : M D DbResponse :=
  let reply := mkDbResponse (rq_reqid req) in
  match rq_op req with
  | CREATE_DOCUMENT =>
      sval ← create_document m_db_name (rq_coll req) (bson_to_json (rq_doc req));
      mret (reply (negb (str_empty sval)) sval 0 false "" "")
  | CREATE_BULK_DOCUMENT =>
      ival ← create_bulk_document m_db_name (rq_coll req) (rq_doc req);
      mret (reply (0 <=? ival) "" ival false "" "")
  | UPDATE_COLLECTION =>
      bval ← update_collection (rq_coll req) (bson_to_json (rq_doc req)) (bson_to_json (rq_doc2 req));
      mret (reply true "" 0 bval "" "")
  | UPDATE_BULK_DOCUMENT =>
      fa ← lift (string_array (rq_doc req));
      va ← lift (string_array (rq_doc2 req));
      ival ← update_bulk_document (rq_coll req) fa va;
      mret (reply (0 <=? ival) "" ival false "" "")
  | DELETE_DOCUMENT =>
      bval ← delete_document (rq_coll req) (bson_to_json (rq_doc req));
      mret (reply true "" 0 bval "" "")
  | GET_DOCUMENT =>
      sval ← get_document (rq_coll req) (bson_to_json (rq_doc req)) (bson_to_json (rq_doc2 req));
      mret (reply (negb (str_empty sval)) sval 0 false "" "")
  | GET_DOCUMENTS_QUERIED =>
      sval ← get_documents (rq_coll req) (bson_to_json (rq_doc req)) (bson_to_json (rq_doc2 req));
      mret (reply true sval 0 false "" "")
  | GET_DOCUMENTS_ALL =>
      sval ← get_documents_all (rq_coll req) (bson_to_json (rq_doc2 req));
      mret (reply true sval 0 false "" "")
  | NEXT_AWBNO =>
      sval ← next_awbno (rq_sval req);
      mret (reply (negb (str_empty sval)) sval 0 false "" "")
  | STORE_FILE =>
      let '(filename, content_type) :=
        match find_char "|" (rq_sval req) with
        | Some sep => (str_take sep (rq_sval req), str_drop (S sep) (rq_sval req))
        | None => (rq_sval req, "")
        end in
      sval ← store_file filename content_type (rq_doc req);
      mret (reply (negb (str_empty sval)) sval 0 false "" "")
  | FETCH_FILE =>
      data ← fetch_file (rq_sval req);
      mret (reply (negb (str_empty data)) "" 0 false data "")
  | FETCH_FILE_BY_ID =>
      data ← fetch_file_by_id (rq_sval req);
      mret (reply (negb (str_empty data)) "" 0 false data "")
  | DELETE_FILE =>
      bval ← delete_file (rq_sval req);
      mret (reply true "" 0 bval "" "")
  | OtherOp _ => mret (reply false "" 0 false "" "unknown op")
  end.

(** With the [catch]: whatever throws, the response's other fields are still default. *)
Definition dispatch (m_db_name : string) (req : DbRequest) (d : D) : string * D :=
  let '(r, d) := answer m_db_name req d in
  (build_response (match r with Ok rsp => rsp | Throw e => mkDbResponse (rq_reqid req) false "" 0 false "" (what e) end), d).

(** The body of [run_session]'s loop for one message: the response that is sent back, if
    the message is a request. *)
Definition serve (m_db_name : string) (plaintext : string) (d : D) : option string * D :=
  let '(ok, req) := parse_request plaintext default_request in
  if ok : bool then let '(rsp, d) := dispatch m_db_name req d in (Some rsp, d) else (None, d).
End Agent.

(** ** run *)

(** How an attempt ended: not connected, no inner TLS (or a wrong host name), or after a
    session. *)
Inductive attempt := ConnectFailed | TlsFailed | SessionRan.

Definition max_backoff : Z := 60.
Definition base_backoff (backoff_secs : Z) : Z := if 0 <? backoff_secs then backoff_secs else 5.
(** The pause after an attempt, and [cur_backoff] for the next one. *)
Definition after_attempt (base cur : Z) (a : attempt) : Z * Z :=
  match a with
  | SessionRan => (base, base)
  | _ => (cur, Z.min (cur * 2) max_backoff)
  end.
(** The pauses of the loop until [stop]. *)
Fixpoint pauses (base cur : Z) (attempts : list attempt) : list Z :=
  match attempts with
  | [] => []
  | a :: attempts' => let '(pause, cur) := after_attempt base cur a in pause :: pauses base cur attempts'
  end.
Definition run (backoff_secs : Z) (attempts : list attempt) : list Z :=
  let base := base_backoff backoff_secs in pauses base base attempts.

(** ** What the agent guarantees *)

Section Laws.
Context {D : Type} `{!Bson} `{!BsonLaws} `{!JsonLib} `{!MongoClient D} `{!MongoLaws D} `{!What}.

Lemma M_inv_ret {W A B} (m : M W A) (f : A -> B) w b w' :
  (a ← m; mret (f a)) w = (Ok b, w') -> exists a, m w = (Ok a, w') /\ b = f a.
Proof. intros Hm. apply M_bind_inv in Hm as (a & w1 & Ha & Hb). injection Hb as <- <-. by exists a. Qed.

(** The response carries the request's id, and values of the fields' types. *)
Lemma answer_typed db req d rsp d' :
  answer db req d = (Ok rsp, d') -> rs_reqid rsp = rq_reqid req /\ is_i32 (rs_ival rsp).
Proof.
  assert (Hz : is_i32 0) by done. unfold answer.
  destruct (rq_op req); try (intros Hm; apply M_inv_ret in Hm as (a & Ha & ->); split; [done|];
    first [exact Hz|by eapply create_bulk_i32]).
  - intros Hm. apply M_bind_inv in Hm as (fa & w1 & _ & Hm). apply M_bind_inv in Hm as (va & w2 & _ & Hm).
    apply M_inv_ret in Hm as (a & Ha & ->). split; [done|by eapply update_bulk_i32].
  - destruct (find_char _ _); intros Hm; apply M_inv_ret in Hm as (a & Ha & ->); by split.
  - by intros [= <- _].
Qed.

(** The dispatcher of the web service reads exactly the response the agent made. *)
Lemma dispatch_parses db req d :
  is_i32 (rq_reqid req) ->
  parse_response (dispatch db req d).1 default_response
    = (true, match (answer db req d).1 with
             | Ok rsp => rsp
             | Throw e => mkDbResponse (rq_reqid req) false "" 0 false "" (what e)
             end)
  /\ (dispatch db req d).2 = (answer db req d).2.
Proof.
  intros Hid. unfold dispatch. destruct (answer db req d) as [[rsp|e] d'] eqn:Ha; cbn [fst snd]; (split; [|done]).
  - destruct (answer_typed _ _ _ _ _ Ha) as [Hr Hi]. apply response_roundtrip; [by rewrite Hr|done].
  - by apply response_roundtrip.
Qed.

Lemma dispatch_reqid db req d :
  is_i32 (rq_reqid req) -> exists rsp, parse_response (dispatch db req d).1 default_response = (true, rsp) /\ rs_reqid rsp = rq_reqid req.
Proof.
  intros Hid. destruct (dispatch_parses db req d Hid) as [-> _]. eexists; split; [done|].
  destruct (answer db req d) as [[rsp|e] d'] eqn:Ha; [|done]. by apply (answer_typed _ _ _ _ _ Ha).
Qed.

(** A request that the web service built gets an answer. *)
Lemma serve_request db op dbn coll doc doc2 sval n d :
  is_i32 n -> op_ok op ->
  serve db (build_request op dbn coll doc doc2 sval n).1.2 d
    = let '(rsp, d') := dispatch db (mkDbRequest n op dbn coll doc doc2 sval) d in (Some rsp, d').
Proof. intros Hn Hop. unfold serve. by rewrite request_roundtrip. Qed.
End Laws.

(** The pauses stay between one and the larger of the base and a minute; the i-th failure
    in a row waits twice as long as the one before, up to a minute. *)
Lemma pauses_bounded base cur l :
  1 <= base -> 1 <= cur <= Z.max base max_backoff -> Forall (fun p => 1 <= p <= Z.max base max_backoff) (pauses base cur l).
Proof.
  intros Hb. revert cur. induction l as [|a l IH]; intros cur Hc; cbn [pauses]; [apply Forall_nil_2|].
  unfold max_backoff in *. destruct a; cbn [after_attempt]; (apply Forall_cons_2; [lia|apply IH]); unfold max_backoff; lia.
Qed.
