(* ===== verification/DbProxy.v ===== *)
(** The web service's database client over the wire: [WsMongodbProxy] (wsdbproxy.cpp).

    The proxy is an instance of [MongoClient], the interface its callers use; whoever
    carries a request to the agent and back is the class [Dispatcher]. *)

From S2P Require Import Prelude Json DbProto DbAgent.

#[local] Open Scope Z_scope.

(** [IWsDispatcher::dispatch]. *)
Class Dispatcher (X : Type) := dispatcher : string -> X -> string * X.

Section Proxy.
Context {X : Type} `{!Bson} `{!Dispatcher X}.

(** [s_reqid] is the counter of dbproto.cpp. *)
Record Proxy := mkProxy { s_reqid : Z; m_dispatcher : X }.
Implicit Types (p : Proxy).

Definition json_to_bson (json_str : string) : string :=
  if str_empty json_str then "" else catch_all (from_json json_str) "".

(** A response that cannot be read keeps what was read of it, but for two fields. *)
Definition roundtrip (op : DbOp) (db coll doc doc2 sval : string) p : DbResponse * Proxy :=
  let '(_, bson, s_reqid) := build_request op db coll doc doc2 sval (s_reqid p) in
  let '(rsp_bson, x) := dispatcher bson (m_dispatcher p) in
  let '(ok, rsp) := parse_response rsp_bson default_response in
  let rsp :=
    if ok : bool then rsp
    else mkDbResponse (rs_reqid rsp) false (rs_sval rsp) (rs_ival rsp) (rs_bval rsp) (rs_data rsp) "malformed response" in
  (rsp, mkProxy s_reqid x).

(** What a call returns from its response. *)
Definition returns {A} (f : DbResponse -> A) (r : DbResponse * Proxy) : result A * Proxy := (Ok (f r.1), r.2).
Definition sval_of (rsp : DbResponse) : string := if rs_ok rsp then rs_sval rsp else "".
Definition ival_of (rsp : DbResponse) : Z := if rs_ok rsp then rs_ival rsp else 0.
Definition bval_of (rsp : DbResponse) : bool := rs_ok rsp && rs_bval rsp.
Definition data_of (rsp : DbResponse) : string := if rs_ok rsp then rs_data rsp else "".

Definition proxy_create_document (dbName coll doc : string) p :=
  returns sval_of (roundtrip CREATE_DOCUMENT "" coll (json_to_bson doc) "" "" p).
Definition proxy_create_bulk_document (dbName coll doc : string) p :=
  returns ival_of (roundtrip CREATE_BULK_DOCUMENT "" coll doc "" "" p).
Definition proxy_update_collection (coll filter document : string) p :=
  returns bval_of (roundtrip UPDATE_COLLECTION "" coll (json_to_bson filter) (json_to_bson document) "" p).
Definition proxy_delete_document (coll doc : string) p :=
  returns bval_of (roundtrip DELETE_DOCUMENT "" coll (json_to_bson doc) "" "" p).
Definition proxy_get_document (coll query projection : string) p :=
  returns sval_of (roundtrip GET_DOCUMENT "" coll (json_to_bson query) (json_to_bson projection) "" p).
Definition proxy_get_documents (coll query projection : string) p :=
  returns sval_of (roundtrip GET_DOCUMENTS_QUERIED "" coll (json_to_bson query) (json_to_bson projection) "" p).
Definition proxy_get_documents_all (coll projection : string) p :=
  returns sval_of (roundtrip GET_DOCUMENTS_ALL "" coll "" (json_to_bson projection) "" p).
Definition proxy_next_awbno (prefix : string) p := returns sval_of (roundtrip NEXT_AWBNO "" "" "" "" prefix p).
Definition proxy_store_file (filename content_type data : string) p :=
  returns sval_of (roundtrip STORE_FILE "" "" data "" (filename +:+ "|" +:+ content_type) p).
Definition proxy_fetch_file (filename : string) p := returns data_of (roundtrip FETCH_FILE "" "" "" "" filename p).
Definition proxy_fetch_file_by_id (oid : string) p := returns data_of (roundtrip FETCH_FILE_BY_ID "" "" "" "" oid p).
Definition proxy_delete_file (oid : string) p := returns bval_of (roundtrip DELETE_FILE "" "" "" "" oid p).
End Proxy.
Arguments Proxy : clear implicits.

(** ** A proxy whose requests reach the agent *)

Section Remote.
Context {D : Type} `{!Bson} `{!BsonLaws} `{!JsonLib} `{!MongoClient D} `{!MongoLaws D} `{!What}.
Context (m_db_name : string).

(** The agent itself as the dispatcher: it serves the request and its response comes back;
    [lost] is what the dispatcher answers when nothing comes back. *)
Context (lost : string -> string).
#[local] Instance wired : Dispatcher D := fun bson d =>
  match serve m_db_name bson d with (Some rsp, d) => (rsp, d) | (None, d) => (lost bson, d) end.

Implicit Types (p : Proxy D).

(** A document as it arrives: through BSON and back. *)
Definition arrives (json_str : string) : string := bson_to_json (json_to_bson json_str).

(** The call of the local client on the agent's side, and the proxy after it: an exception
    of the client becomes the default result, a negative count zero. *)
Definition remote {A B} (f : A -> B) (failed : B) (call : D -> result A * D) p : result B * Proxy D :=
  let '(r, d) := call (m_dispatcher p) in
  (Ok (match r with Ok a => f a | Throw _ => failed end), mkProxy (i32 (s_reqid p + 1)) d).

Lemma roundtrip_serves op db coll doc doc2 sval p :
  is_i32 (s_reqid p) -> op_ok op ->
  let req := mkDbRequest (s_reqid p) op db coll doc doc2 sval in
  roundtrip op db coll doc doc2 sval p
    = (match (answer m_db_name req (m_dispatcher p)).1 with
       | Ok rsp => rsp
       | Throw e => mkDbResponse (s_reqid p) false "" 0 false "" (what e)
       end,
       mkProxy (i32 (s_reqid p + 1)) (answer m_db_name req (m_dispatcher p)).2).
Proof.
  intros Hid Hop req. unfold roundtrip, dispatcher, wired.
  pose proof (serve_request m_db_name op db coll doc doc2 sval (s_reqid p) (m_dispatcher p) Hid Hop) as Hs.
  pose proof (dispatch_parses m_db_name req (m_dispatcher p) Hid) as [Hp Hd].
  unfold build_request in *. cbn [fst snd] in Hs. rewrite Hs. fold req.
  destruct (dispatch m_db_name req (m_dispatcher p)) as [rsp d]. cbn [fst snd] in Hp, Hd. by rewrite Hp, Hd.
Qed.

(** A call whose answer is a pure function of the client's result. *)
Lemma remote_call {A B} op db coll doc doc2 sval (call : D -> result A * D) (reply : A -> DbResponse) (f : DbResponse -> B)
    (g : A -> B) (failed : B) p :
  is_i32 (s_reqid p) -> op_ok op ->
  answer m_db_name (mkDbRequest (s_reqid p) op db coll doc doc2 sval) = (a ← call; mret (reply a)) ->
  (forall msg, f (mkDbResponse (s_reqid p) false "" 0 false "" msg) = failed) ->
  (forall a, f (reply a) = g a) ->
  returns f (roundtrip op db coll doc doc2 sval p) = remote g failed call p.
Proof.
  intros Hid Hop Ha Hf Hg. rewrite roundtrip_serves, Ha by done. unfold returns, remote, mbind, M_bind.
  destruct (call (m_dispatcher p)) as [[a|e] d]; cbn [fst snd]; [by rewrite <- Hg|by rewrite Hf].
Qed.

Lemma positive_or_zero n : (if 0 <=? n then n else 0) = Z.max 0 n.
Proof. destruct (Z.leb_spec 0 n); lia. Qed.
Lemma nonempty_or s : (if negb (str_empty s) then s else "") = s.
Proof. by destruct s. Qed.

(** [filename|content_type] is taken apart at the first bar. *)
Lemma find_bar filename content_type :
  no_char "|" filename -> find_char "|" (filename +:+ "|" +:+ content_type) = Some (String.length filename).
Proof.
  unfold no_char. induction filename as [|c s IH]; [done|].
  rewrite str_app_cons. cbn [find_char String.length]. destruct (Ascii.eqb c "|"); [done|].
  intros Hn. rewrite IH; [done|]. by destruct (find_char "|" s).
Qed.

(** The calls that [MongodbcSpec] follows to the server. *)
Ltac by_remote_call :=
  eapply remote_call; [done|done|unfold answer; cbn [rq_op rq_coll rq_doc rq_doc2 rq_sval rq_reqid]; reflexivity|done|];
  done || exact nonempty_or.
Lemma remote_create dbName coll doc p :
  is_i32 (s_reqid p) -> proxy_create_document dbName coll doc p = remote id "" (create_document m_db_name coll (arrives doc)) p.
Proof. intros Hid. by_remote_call. Qed.
Lemma remote_get_documents coll query projection p :
  is_i32 (s_reqid p) ->
  proxy_get_documents coll query projection p = remote id "" (get_documents coll (arrives query) (arrives projection)) p.
Proof. intros Hid. by_remote_call. Qed.
Lemma remote_update coll filter document p :
  is_i32 (s_reqid p) ->
  proxy_update_collection coll filter document p = remote id false (update_collection coll (arrives filter) (arrives document)) p.
Proof. intros Hid. by_remote_call. Qed.
Lemma remote_delete coll doc p :
  is_i32 (s_reqid p) -> proxy_delete_document coll doc p = remote id false (delete_document coll (arrives doc)) p.
Proof. intros Hid. by_remote_call. Qed.

(** C17. The database over the wire is the agent's database.  Through the proxy, the messages
    and the agent, each call of the database interface does what the same call does on the
    agent's client, in the agent's database, with the documents as they come through BSON:
    it returns the client's result and leaves the client's state.  An exception of the
    client is not thrown but becomes the empty string, false or zero, a failed bulk insert
    becomes zero, and [store_file] needs a name without the separator. *)
Theorem proxy_is_remote_client p :
  is_i32 (s_reqid p) ->
  (forall dbName coll doc,
     proxy_create_document dbName coll doc p = remote id "" (create_document m_db_name coll (arrives doc)) p)
  /\ (forall dbName coll doc,
     proxy_create_bulk_document dbName coll doc p = remote (Z.max 0) 0 (create_bulk_document m_db_name coll doc) p)
  /\ (forall coll filter document,
     proxy_update_collection coll filter document p
       = remote id false (update_collection coll (arrives filter) (arrives document)) p)
  /\ (forall coll doc, proxy_delete_document coll doc p = remote id false (delete_document coll (arrives doc)) p)
  /\ (forall coll query projection,
     proxy_get_document coll query projection p
       = remote id "" (get_document coll (arrives query) (arrives projection)) p)
  /\ (forall coll query projection,
     proxy_get_documents coll query projection p
       = remote id "" (get_documents coll (arrives query) (arrives projection)) p)
  /\ (forall coll projection,
     proxy_get_documents_all coll projection p = remote id "" (get_documents_all coll (arrives projection)) p)
  /\ (forall prefix, proxy_next_awbno prefix p = remote id "" (next_awbno prefix) p)
  /\ (forall filename content_type data, no_char "|" filename ->
     proxy_store_file filename content_type data p = remote id "" (store_file filename content_type data) p)
  /\ (forall filename, proxy_fetch_file filename p = remote id "" (fetch_file filename) p)
  /\ (forall oid, proxy_fetch_file_by_id oid p = remote id "" (fetch_file_by_id oid) p)
  /\ (forall oid, proxy_delete_file oid p = remote id false (delete_file oid) p).
Proof.
  intros Hid. split_and!; intros.
  all: eapply remote_call; [done|done| |done|].
  all: try (unfold answer; cbn [rq_op rq_coll rq_doc rq_doc2 rq_sval rq_reqid]; reflexivity).
  all: try (exact nonempty_or || exact positive_or_zero).
  - unfold answer. cbn [rq_op rq_coll rq_doc rq_doc2 rq_sval rq_reqid].
    rewrite find_bar by done. rewrite str_take_app_length.
    rewrite <- (Nat.add_1_r (String.length filename)), <- str_drop_drop, str_drop_app_length. reflexivity.
  - exact nonempty_or.
Qed.
End Remote.

(** ** Examples *)

Section Witnesses.
#[local] Existing Instance toy_bson.
#[local] Existing Instance toy_bson_laws.
#[local] Instance ex_proxy_json : JsonLib := table_json [].
#[local] Instance ex_what : What := fun _ => "error".
(** A client whose state is the documents it holds; it can only insert, and read the first. *)
#[local] Instance ex_mongo : MongoClient (list string) := {|
  create_document db coll doc d := (Ok "42", d ++ [doc]);
  create_bulk_document _ _ _ d := (Ok (-1), d);
  update_collection _ _ _ d := (Ok false, d);
  update_bulk_document _ _ _ d := (Ok 0, d);
  delete_document _ _ d := (Throw DbError, d);
  get_document coll query projection d := (Ok (default "" (head d)), d);
  get_documents _ _ _ d := (Ok "[]", d);
  get_documents_all _ _ d := (Ok "[]", d);
  next_awbno _ d := (Throw DbError, d);
  store_file _ _ _ d := (Ok "", d);
  fetch_file _ d := (Ok "", d);
  fetch_file_by_id _ d := (Ok "", d);
  delete_file _ d := (Ok true, d);
|}.
#[local] Instance ex_mongo_laws : MongoLaws (list string).
Proof. split; cbn; intros; simplify_eq; done. Qed.

Lemma proxy_is_remote_client_witness :
  let lost := fun _ : string => "" in
  @proxy_create_document _ _ (wired "pbx" lost) "other" "societies" "{code}" (mkProxy 7 ["old"]) = (Ok "42", mkProxy 8 ["old"; "{code}"])
  /\ @proxy_create_bulk_document _ _ (wired "pbx" lost) "other" "societies" "[]" (mkProxy 7 ["old"]) = (Ok 0, mkProxy 8 ["old"]).
Proof.
  intros lost. assert (Hid : is_i32 (s_reqid (mkProxy 7 ["old"]))) by (split; by vm_compute).
  destruct (proxy_is_remote_client "pbx" lost (mkProxy 7 ["old"]) Hid) as (H1 & H2 & _).
  split; [rewrite H1|rewrite H2]; by vm_compute.
Defined.
End Witnesses.
