(* ===== verification/DbServer.v ===== *)
(** The web service's end of the database connection: [WsDbServer] (wsdbproxy.cpp).

    Any number of request handlers call [dispatch] while one thread runs the session with
    the agent; they share the table of pending requests.  The server is a transition
    system with a step for each access to what the threads share: a caller's position is
    its [call_pc], the session's the field [routing].  The agent is at the other end of
    two queues of messages; a message that was sent may be lost with the connection. *)

From S2P Require Import Prelude Json DbProto DbAgent.

#[local] Open Scope Z_scope.

Section Server.
Context {D : Type} `{!Bson} `{!JsonLib} `{!MongoClient D} `{!What}.
Context (m_db_name : string).

(** [PendingRequest], which its callers and the session hold by shared pointer. *)
Record PendingRequest := mkPending { response : string; ready : bool; failed : bool }.

(** Where a call of [dispatch] is: before the test of [m_connected], before it registers,
    before it sends, in [wait_for], past it, returned. *)
Inductive call_pc :=
  | Entered
  | Checked
  | Sending (p : nat)
  | Waiting (p : nat)
  | Leaving (rsp : string)
  | Returned (rsp : string).
Record Call := mkCall { c_bson : string; c_pc : call_pc }.

(** [heap] holds every [PendingRequest] made so far; [failing] are the entries of
    [fail_all_pending]'s snapshots that are still to be failed; [executed] is the history
    of the requests that the agent served. *)
Record Server := mkServer {
  m_connected : bool;
  m_pending : gmap Z nat;
  heap : list PendingRequest;
  routing : option (nat * string);
  failing : list (Z * nat * string);
  s_reqid : Z;
  calls : list Call;
  to_agent : list string;
  from_agent : list string;
  database : D;
  executed : list string;
}.
Implicit Types (w : Server).

Definition new_server (d : D) : Server := mkServer false ∅ [] None [] 0 [] [] [] d [].

Definition put_connected (b : bool) (out back : list string) w : Server :=
  mkServer b (m_pending w) (heap w) (routing w) (failing w) (s_reqid w) (calls w) out back (database w) (executed w).
Definition put_pending (m : gmap Z nat) w : Server :=
  mkServer (m_connected w) m (heap w) (routing w) (failing w) (s_reqid w) (calls w) (to_agent w) (from_agent w) (database w) (executed w).
Definition put_heap (h : list PendingRequest) w : Server :=
  mkServer (m_connected w) (m_pending w) h (routing w) (failing w) (s_reqid w) (calls w) (to_agent w) (from_agent w) (database w) (executed w).
Definition put_routing (r : option (nat * string)) (back : list string) w : Server :=
  mkServer (m_connected w) (m_pending w) (heap w) r (failing w) (s_reqid w) (calls w) (to_agent w) back (database w) (executed w).
Definition put_failing (f : list (Z * nat * string)) w : Server :=
  mkServer (m_connected w) (m_pending w) (heap w) (routing w) f (s_reqid w) (calls w) (to_agent w) (from_agent w) (database w) (executed w).
Definition put_calls (n : Z) (cs : list Call) w : Server :=
  mkServer (m_connected w) (m_pending w) (heap w) (routing w) (failing w) n cs (to_agent w) (from_agent w) (database w) (executed w).
Definition put_served (out back : list string) (d : D) (l : list string) w : Server :=
  mkServer (m_connected w) (m_pending w) (heap w) (routing w) (failing w) (s_reqid w) (calls w) out back d l.

Definition move (i : nat) (c : Call) (pc : call_pc) w : Server := put_calls (s_reqid w) (<[i := mkCall (c_bson c) pc]> (calls w)) w.
Definition set_response (p : nat) (r : PendingRequest) w : Server := put_heap (<[p := r]> (heap w)) w.
Definition parsed (bson : string) : bool * DbRequest := parse_request bson default_request.
Definition request_id (bson : string) : Z := rq_reqid (parsed bson).2.

(** ** dispatch *)

(** [call_enter] is a caller ([WsMongodbProxy::roundtrip]) that builds its request; whether
    a send fails, and whether it reaches the agent, is up to the network. *)
Inductive call_step : Server -> Server -> Prop :=
  | call_enter op db coll doc doc2 sval w :
      op_ok op ->
      call_step w (put_calls (build_request op db coll doc doc2 sval (s_reqid w)).2
                     (calls w ++ [mkCall (build_request op db coll doc doc2 sval (s_reqid w)).1.2 Entered]) w)
  | call_unconnected i c w :
      calls w !! i = Some c -> c_pc c = Entered -> m_connected w = false ->
      call_step w (move i c (Returned (make_error_response (request_id (c_bson c)) "no agent connected")) w)
  | call_malformed i c w :
      calls w !! i = Some c -> c_pc c = Entered -> m_connected w = true -> (parsed (c_bson c)).1 = false ->
      call_step w (move i c (Returned (make_error_response (-1) "malformed request")) w)
  | call_checked i c w :
      calls w !! i = Some c -> c_pc c = Entered -> m_connected w = true -> (parsed (c_bson c)).1 = true ->
      call_step w (move i c Checked w)
  | call_register i c w :
      calls w !! i = Some c -> c_pc c = Checked ->
      call_step w (move i c (Sending (List.length (heap w)))
        (put_pending (<[request_id (c_bson c) := List.length (heap w)]> (m_pending w))
           (put_heap (heap w ++ [mkPending "" false false]) w)))
  | call_sent i c p w :
      calls w !! i = Some c -> c_pc c = Sending p ->
      call_step w (move i c (Waiting p) (put_served (to_agent w ++ [c_bson c]) (from_agent w) (database w) (executed w) w))
  | call_sent_lost i c p w :
      calls w !! i = Some c -> c_pc c = Sending p -> call_step w (move i c (Waiting p) w)
  | call_send_failed i c p w :
      calls w !! i = Some c -> c_pc c = Sending p ->
      call_step w (move i c (Returned (make_error_response (request_id (c_bson c)) "send failed"))
        (put_pending (delete (request_id (c_bson c)) (m_pending w)) w))
  | call_woken i c p r w :
      calls w !! i = Some c -> c_pc c = Waiting p -> heap w !! p = Some r -> ready r = true ->
      call_step w (move i c (Leaving (response r)) w)
  | call_timeout i c p r w :
      calls w !! i = Some c -> c_pc c = Waiting p -> heap w !! p = Some r -> ready r = false ->
      call_step w (move i c (Leaving (make_error_response (request_id (c_bson c)) "dispatch timeout")) w)
  | call_leave i c rsp w :
      calls w !! i = Some c -> c_pc c = Leaving rsp ->
      call_step w (move i c (Returned rsp) (put_pending (delete (request_id (c_bson c)) (m_pending w)) w)).

(** ** run_session *)

(** A response is parsed and its request looked up; then the request is completed. *)
Inductive session_step : Server -> Server -> Prop :=
  | session_drop bytes q w :
      routing w = None -> from_agent w = bytes :: q ->
      (parse_response bytes default_response).1 = false
        \/ m_pending w !! rs_reqid (parse_response bytes default_response).2 = None ->
      session_step w (put_routing None q w)
  | session_find bytes q p w :
      routing w = None -> from_agent w = bytes :: q -> (parse_response bytes default_response).1 = true ->
      m_pending w !! rs_reqid (parse_response bytes default_response).2 = Some p ->
      session_step w (put_routing (Some (p, bytes)) q w)
  | session_complete p bytes r w :
      routing w = Some (p, bytes) -> heap w !! p = Some r ->
      session_step w (put_routing None (from_agent w) (set_response p (mkPending bytes true (failed r)) w)).

(** ** fail_all_pending *)

(** Its callers pass these reasons. *)
Definition fail_reasons : list string := ["server shutting down"; "inner TLS setup failed"; "agent disconnected"].
Definition snapshot (reason : string) (m : gmap Z nat) : list (Z * nat * string) := (fun '(id, p) => (id, p, reason)) <$> map_to_list m.

Inductive fail_step : Server -> Server -> Prop :=
  | fail_all reason w :
      reason ∈ fail_reasons ->
      fail_step w (put_failing (failing w ++ snapshot reason (m_pending w)) (put_pending ∅ w))
  | fail_one f1 id p reason f2 r w :
      failing w = f1 ++ (id, p, reason) :: f2 -> heap w !! p = Some r ->
      fail_step w (put_failing (f1 ++ f2) (set_response p (mkPending (make_error_response id reason) true true) w)).

(** ** The connection and the agent *)

(** [on_agent_connected] takes an agent when there is none; the connection ends by itself,
    by [on_agent_connected] for another agent or by [close]. *)
Inductive link_step : Server -> Server -> Prop :=
  | link_up w : m_connected w = false -> link_step w (put_connected true [] [] w)
  | link_down w : link_step w (put_connected false [] [] w).

Inductive agent_step : Server -> Server -> Prop :=
  | agent_serves bson q w :
      to_agent w = bson :: q ->
      agent_step w (put_served q (from_agent w ++ match (serve m_db_name bson (database w)).1 with Some rsp => [rsp] | None => [] end)
                      (serve m_db_name bson (database w)).2 (executed w ++ [bson]) w).

Inductive step : Server -> Server -> Prop :=
  | step_call w w' : call_step w w' -> step w w'
  | step_session w w' : session_step w w' -> step w w'
  | step_fail w w' : fail_step w w' -> step w w'
  | step_link w w' : link_step w w' -> step w w'
  | step_agent w w' : agent_step w w' -> step w w'.
End Server.
Arguments Server : clear implicits.
