(* ===== verification/DbServerSpec.v ===== *)
(** What the web service's dispatcher guarantees: theorems about [DbServer], over every
    interleaving of the callers, the session, the connection and the agent. *)

From S2P Require Import Prelude Json DbProto DbAgent DbServer.

#[local] Open Scope Z_scope.

Section Spec.
Context {D : Type} {bson_lib : Bson} {bson_laws : BsonLaws} {json_lib : JsonLib} `{!MongoClient D} `{!MongoLaws D} {what_lib : What}.
Context (m_db_name : string).
Implicit Types (w : Server D) (c : Call).
Let step := step (D := D) m_db_name.

Definition error_reasons : list string :=
  "no agent connected" :: "send failed" :: "dispatch timeout" :: fail_reasons.

(** What the caller of a request may get: the agent's answer to that request, or one of the
    server's own errors, under the request's id. *)
Definition answer_of (bson rsp : string) : Prop := exists d, (serve m_db_name bson d).1 = Some rsp.
Definition good (bson rsp : string) : Prop :=
  answer_of bson rsp \/ exists reason, reason ∈ error_reasons /\ rsp = make_error_response (request_id bson) reason.

(** The request of the i-th call. *)
Definition well_built (i : nat) (bson : string) : Prop :=
  exists op db coll doc doc2 sval, op_ok op /\ bson = (build_request op db coll doc doc2 sval (i32 (Z.of_nat i))).1.2.

Lemma well_built_parsed i bson : well_built i bson -> (parsed bson).1 = true /\ request_id bson = i32 (Z.of_nat i).
Proof.
  intros (op & db & coll & doc & doc2 & sval & Hop & ->). unfold request_id, parsed.
  rewrite request_roundtrip by (try done; apply i32_range). done.
Qed.

(** An answer carries the id of its request. *)
Lemma answer_id i bson rsp :
  well_built i bson -> answer_of bson rsp ->
  (parse_response rsp default_response).1 = true /\ rs_reqid (parse_response rsp default_response).2 = request_id bson.
Proof.
  intros Hb [d Hd]. destruct (well_built_parsed i bson Hb) as [_ Hid]. destruct Hb as (op & db & coll & doc & doc2 & sval & Hop & ->).
  rewrite serve_request in Hd by (try done; apply i32_range). rewrite Hid.
  pose proof (dispatch_reqid m_db_name (mkDbRequest (i32 (Z.of_nat i)) op db coll doc doc2 sval) d (i32_range _)) as (r & Hp & Hr).
  destruct (dispatch _ _ d) as [rsp' d']. injection Hd as <-. cbn [fst] in Hp. by rewrite Hp.
Qed.

Lemma i32_inj i j : 0 <= i < 2 ^ 32 -> 0 <= j < 2 ^ 32 -> i32 i = i32 j -> i = j.
Proof.
  unfold i32. intros Hi Hj He. assert (Hm : (i + 2 ^ 31) mod 2 ^ 32 = (j + 2 ^ 31) mod 2 ^ 32) by lia.
  clear He. Z.to_euclidean_division_equations. lia.
Qed.

Lemma i32_succ z : i32 (i32 z + 1) = i32 (z + 1).
Proof. unfold i32. Z.to_euclidean_division_equations. lia. Qed.

(** ** The invariant *)

(** The caller that a pending request belongs to. *)
Definition pointer_of (pc : call_pc) : option nat := match pc with Sending p | Waiting p => Some p | _ => None end.
Definition result_of (pc : call_pc) : option string := match pc with Leaving r | Returned r => Some r | _ => None end.

(** The calls: [own] maps a pending request to the call that made it. *)
Record calls_ok (own : gmap nat nat) (n : Z) (cs : list Call) : Prop := {
  ok_counter : n = i32 (Z.of_nat (List.length cs));
  ok_built i c : cs !! i = Some c -> well_built i (c_bson c);
  ok_pointer i c p : cs !! i = Some c -> pointer_of (c_pc c) = Some p -> own !! p = Some i;
  ok_result i c r : cs !! i = Some c -> result_of (c_pc c) = Some r -> good (c_bson c) r;
}.

(** The id of the call that a pending request belongs to; the bytes a call may be given. *)
Definition belongs (own : gmap nat nat) (cs : list Call) (id : Z) (p : nat) : Prop :=
  exists i c, own !! p = Some i /\ cs !! i = Some c /\ request_id (c_bson c) = id.
Definition answered (own : gmap nat nat) (cs : list Call) (p : nat) (ok : string -> Prop) : Prop :=
  forall i c, own !! p = Some i -> cs !! i = Some c -> ok (c_bson c).
Definition some_call (cs : list Call) (ok : string -> Prop) : Prop := exists i c, cs !! i = Some c /\ ok (c_bson c).

(** What the server and the agent hold. *)
Record shared_ok (own : gmap nat nat) (cs : list Call) w : Prop := {
  ok_own p i : own !! p = Some i -> (p < List.length (heap w))%nat /\ (i < List.length cs)%nat;
  ok_pending id p : m_pending w !! id = Some p -> belongs own cs id p;
  ok_failing id p reason : (id, p, reason) ∈ failing w -> reason ∈ fail_reasons /\ belongs own cs id p;
  ok_routing p bytes : routing w = Some (p, bytes) -> (p < List.length (heap w))%nat /\ answered own cs p (fun b => answer_of b bytes);
  ok_heap p r : heap w !! p = Some r -> ready r = true -> answered own cs p (fun b => good b (response r));
  ok_to b : b ∈ to_agent w -> some_call cs (eq b);
  ok_from b : b ∈ from_agent w -> some_call cs (fun bson => answer_of bson b);
}.
Definition server_ok (own : gmap nat nat) w : Prop := calls_ok own (s_reqid w) (calls w) /\ shared_ok own (calls w) w.

(** A call that is looked up again keeps its request. *)
Definition calls_later (cs cs' : list Call) : Prop :=
  forall i c, cs !! i = Some c -> exists c', cs' !! i = Some c' /\ c_bson c' = c_bson c.

Lemma calls_later_app cs l : calls_later cs (cs ++ l).
Proof. intros i c Hc. exists c. split; [by apply lookup_app_l_Some|done]. Qed.
Lemma calls_later_move cs i c pc : cs !! i = Some c -> calls_later cs (<[i := mkCall (c_bson c) pc]> cs).
Proof.
  intros Hi j c' Hj. destruct (decide (i = j)) as [<-|Hne].
  - exists (mkCall (c_bson c) pc). rewrite list_lookup_insert_eq by (by eapply lookup_lt_Some). split; [done|]. cbn. congruence.
  - exists c'. by rewrite list_lookup_insert_ne.
Qed.

Lemma belongs_later own cs cs' id p : calls_later cs cs' -> belongs own cs id p -> belongs own cs' id p.
Proof. intros Hl (i & c & Ho & Hc & He). destruct (Hl i c Hc) as (c' & Hc' & Hb). exists i, c'. by rewrite Hb. Qed.
Lemma some_call_later cs cs' ok : calls_later cs cs' -> some_call cs ok -> some_call cs' ok.
Proof. intros Hl (i & c & Hc & He). destruct (Hl i c Hc) as (c' & Hc' & Hb). exists i, c'. by rewrite Hb. Qed.
Lemma answered_later own cs cs' p ok :
  calls_later cs cs' -> (forall i, own !! p = Some i -> (i < List.length cs)%nat) -> answered own cs p ok -> answered own cs' p ok.
Proof.
  intros Hl Hi Ha i c Ho Hc. destruct (lookup_lt_is_Some_2 cs i (Hi i Ho)) as [c0 Hc0].
  destruct (Hl i c0 Hc0) as (c1 & Hc1 & Hb). rewrite Hc in Hc1. injection Hc1 as <-. rewrite Hb. by eapply Ha.
Qed.

Lemma shared_later own cs cs' w :
  calls_later cs cs' -> (List.length cs <= List.length cs')%nat -> shared_ok own cs w -> shared_ok own cs' w.
Proof.
  intros Hl Hlen [H1 H2 H3 H4 H5 H6 H7].
  assert (Hi : forall p i, own !! p = Some i -> (i < List.length cs)%nat) by (intros p i Ho; by apply (H1 p i)).
  constructor.
  - intros p i Ho. destruct (H1 p i Ho). split; lia.
  - intros id p Hp. by eapply belongs_later; [|apply H2].
  - intros id p reason Hf. destruct (H3 _ _ _ Hf). split; [done|by eapply belongs_later].
  - intros p bytes Hr. destruct (H4 _ _ Hr). split; [done|]. by eapply answered_later; [|apply Hi|].
  - intros p r Hr Hy. by eapply answered_later; [|apply Hi|apply (H5 p r)].
  - intros b Hb. by eapply some_call_later; [|apply H6].
  - intros b Hb. by eapply some_call_later; [|apply H7].
Qed.

(** Moving a call, and a new call. *)
Lemma move_ok own i c pc w :
  server_ok own w -> calls w !! i = Some c ->
  (forall p, pointer_of pc = Some p -> own !! p = Some i) -> (forall r, result_of pc = Some r -> good (c_bson c) r) ->
  server_ok own (move i c pc w).
Proof.
  intros [[C1 C2 C3 C4] Hs] Hi Hp Hr. unfold move. split.
  - assert (Hlk : forall j d, <[i:=mkCall (c_bson c) pc]> (calls w) !! j = Some d ->
              (i = j /\ d = mkCall (c_bson c) pc) \/ calls w !! j = Some d).
    { intros j d. destruct (decide (i = j)) as [<-|Hne].
      - rewrite list_lookup_insert_eq by (by eapply lookup_lt_Some). intros [= <-]. by left.
      - rewrite list_lookup_insert_ne by done. by right. }
    constructor; cbn [put_calls s_reqid calls].
    + by rewrite length_insert.
    + intros j d Hd. destruct (Hlk j d Hd) as [[<- ->]|Hj]; [exact (C2 i c Hi)|by apply C2].
    + intros j d p Hd. destruct (Hlk j d Hd) as [[<- ->]|Hj]; [apply Hp|by apply C3].
    + intros j d r Hd. destruct (Hlk j d Hd) as [[<- ->]|Hj]; [apply Hr|by eapply C4].
  - assert (Hs' : shared_ok own (calls w) (put_calls (s_reqid w) (<[i:=mkCall (c_bson c) pc]> (calls w)) w)) by by destruct Hs.
    eapply shared_later; [by apply calls_later_move| |exact Hs']. cbn. by rewrite length_insert.
Qed.

Lemma enter_ok own op db coll doc doc2 sval w :
  server_ok own w -> op_ok op ->
  let r := build_request op db coll doc doc2 sval (s_reqid w) in
  server_ok own (put_calls r.2 (calls w ++ [mkCall r.1.2 Entered]) w).
Proof.
  intros [[C1 C2 C3 C4] Hs] Hop r. split.
  - assert (Hlk : forall j d, (calls w ++ [mkCall r.1.2 Entered]) !! j = Some d ->
              calls w !! j = Some d \/ (j = List.length (calls w) /\ d = mkCall r.1.2 Entered)).
    { intros j d Hd. apply lookup_app_Some in Hd as [|[Hj Hd]]; [by left|right].
      apply list_lookup_singleton_Some in Hd as [Hz <-]. split; [lia|done]. }
    constructor; cbn [put_calls s_reqid calls].
    + unfold r, build_request. cbn [snd]. rewrite length_app, C1. cbn [List.length]. rewrite i32_succ. f_equal. lia.
    + intros j d Hd. destruct (Hlk j d Hd) as [Hj|[-> ->]]; [by apply C2|].
      exists op, db, coll, doc, doc2, sval. split; [done|]. unfold r. by rewrite C1.
    + intros j d p Hd. destruct (Hlk j d Hd) as [Hj|[-> ->]]; [by apply C3|done].
    + intros j d r' Hd. destruct (Hlk j d Hd) as [Hj|[-> ->]]; [by eapply C4|done].
  - assert (Hs' : shared_ok own (calls w) (put_calls r.2 (calls w ++ [mkCall r.1.2 Entered]) w)) by by destruct Hs.
    eapply shared_later; [apply calls_later_app| |exact Hs']. cbn. rewrite length_app. lia.
Qed.

(** Two calls with the same id are the same call. *)
Lemma same_call own w i j c c' :
  server_ok own w -> Z.of_nat (List.length (calls w)) <= 2 ^ 32 ->
  calls w !! i = Some c -> calls w !! j = Some c' -> request_id (c_bson c) = request_id (c_bson c') -> i = j.
Proof.
  intros [Hok _] Hlen Hi Hj. destruct (well_built_parsed i _ (ok_built _ _ _ Hok i c Hi)) as [_ ->].
  destruct (well_built_parsed j _ (ok_built _ _ _ Hok j c' Hj)) as [_ ->].
  apply lookup_lt_Some in Hi, Hj. intros He. apply i32_inj in He; lia.
Qed.

(** ** Steps *)

Lemma new_server_ok d : server_ok ∅ (new_server d).
Proof.
  split; constructor; cbn; try done; intros; try (by rewrite lookup_empty in *); by apply not_elem_of_nil in H.
Qed.

(** Forgetting a pending request. *)
Lemma forget_ok own m w : (forall id p, m !! id = Some p -> m_pending w !! id = Some p) -> server_ok own w -> server_ok own (put_pending m w).
Proof. intros Hm [Hc [H1 H2 H3 H4 H5 H6 H7]]. split; [exact Hc|]. constructor; try done. intros id p Hp. by apply H2, Hm. Qed.
Lemma erase_ok own id w : server_ok own w -> server_ok own (put_pending (delete id (m_pending w)) w).
Proof. apply forget_ok. intros id' p Hp. by apply lookup_delete_Some in Hp as [_ Hp]. Qed.

(** A response in a pending request. *)
Lemma respond_ok own p r w :
  server_ok own w -> answered own (calls w) p (fun b => good b (response r)) -> server_ok own (set_response p r w).
Proof.
  intros [Hc [H1 H2 H3 H4 H5 H6 H7]] Hr. split; [exact Hc|]. constructor; try done.
  - intros q i Ho. cbn. rewrite length_insert. by apply H1.
  - intros q bytes Hq. cbn. rewrite length_insert. by apply H4.
  - intros q r' Hq Hy. cbn in Hq. destruct (decide (p = q)) as [<-|Hne]; [|rewrite list_lookup_insert_ne in Hq by done; by apply (H5 q)].
    destruct (decide (p < List.length (heap w))%nat) as [Hlt|Hge].
    + rewrite list_lookup_insert_eq in Hq by done. by injection Hq as <-.
    + rewrite list_insert_ge in Hq by lia. by apply (H5 p).
Qed.

(** The request of a new caller: nobody knew its pointer. *)
Lemma register_step_ok own i c w :
  server_ok own w -> calls w !! i = Some c ->
  let p := List.length (heap w) in
  server_ok (<[p := i]> own) (put_pending (<[request_id (c_bson c) := p]> (m_pending w)) (put_heap (heap w ++ [mkPending "" false false]) w)).
Proof.
  intros [[C1 C2 C3 C4] [H1 H2 H3 H4 H5 H6 H7]] Hi p.
  assert (Hfresh : forall q j, own !! q = Some j -> q <> p) by (intros q j Hq ->; destruct (H1 _ _ Hq); unfold p in *; lia).
  assert (Hkeep : forall q j, own !! q = Some j -> <[p := i]> own !! q = Some j)
    by (intros q j Hq; rewrite lookup_insert_ne; [done|]; intros ->; by apply (Hfresh q j)).
  assert (Hb : forall id q, belongs own (calls w) id q -> belongs (<[p := i]> own) (calls w) id q)
    by (intros id q (j & d & Ho & Hd); exists j, d; split; [by apply Hkeep|done]).
  assert (Ha : forall q ok, q <> p -> answered own (calls w) q ok -> answered (<[p := i]> own) (calls w) q ok)
    by (intros q ok Hq Hok j d Ho; rewrite lookup_insert_ne in Ho by done; by apply Hok).
  split; constructor; try done; cbn [put_pending put_heap heap m_pending routing failing calls].
  - intros j d q Hd Hq. by apply Hkeep, (C3 j d).
  - intros q j Hq. rewrite length_app. destruct (decide (q = p)) as [->|Hne].
    + rewrite lookup_insert_eq in Hq. injection Hq as <-. split; [cbn; unfold p; lia|by eapply lookup_lt_Some].
    + rewrite lookup_insert_ne in Hq by done. destruct (H1 _ _ Hq). split; [lia|done].
  - intros id q Hq. destruct (decide (id = request_id (c_bson c))) as [->|Hne].
    + rewrite lookup_insert_eq in Hq. injection Hq as <-. exists i, c. by rewrite lookup_insert_eq.
    + rewrite lookup_insert_ne in Hq by done. by apply Hb, H2.
  - intros id q reason Hf. destruct (H3 _ _ _ Hf). split; [done|by apply Hb].
  - intros q bytes Hr. destruct (H4 _ _ Hr). rewrite length_app. split; [lia|]. apply Ha; [unfold p; lia|done].
  - intros q r Hq Hy. apply lookup_app_Some in Hq as [Hq|[Hge Hq]].
    + apply Ha; [|by apply (H5 q r)]. apply lookup_lt_Some in Hq. unfold p. lia.
    + apply list_lookup_singleton_Some in Hq as [_ <-]. done.
Qed.

Lemma own_error i c w own reason :
  server_ok own w -> calls w !! i = Some c -> reason ∈ error_reasons -> good (c_bson c) (make_error_response (request_id (c_bson c)) reason).
Proof. intros _ _ Hr. right. by exists reason. Qed.

Lemma send_ok own i c w :
  server_ok own w -> calls w !! i = Some c ->
  server_ok own (put_served (to_agent w ++ [c_bson c]) (from_agent w) (database w) (executed w) w).
Proof.
  intros [Hc [H1 H2 H3 H4 H5 H6 H7]] Hi. split; [exact Hc|]. constructor; try done.
  intros b Hb. cbn in *. apply elem_of_app in Hb as [Hb|Hb]; [by apply H6|].
  apply list_elem_of_singleton in Hb as ->. by exists i, c.
Qed.

Lemma call_step_ok own w w' : server_ok own w -> call_step w w' -> exists own', server_ok own' w'.
Proof.
  intros Hok Hst. assert (Hbuilt := fun i c => ok_built _ _ _ (proj1 Hok) i c).
  assert (Herr : forall i c reason, calls w !! i = Some c -> reason ∈ error_reasons ->
            good (c_bson c) (make_error_response (request_id (c_bson c)) reason)) by (intros i c reason; by apply (own_error i c w own)).
  destruct Hst as [op db coll doc doc2 sval w Hop|i c w Hi Hpc Hd|i c w Hi Hpc Hd Hp|i c w Hi Hpc Hd Hp|i c w Hi Hpc|i c p w Hi Hpc
    |i c p w Hi Hpc|i c p w Hi Hpc|i c p r w Hi Hpc Hr Hy|i c p r w Hi Hpc Hr Hy|i c rsp w Hi Hpc].
  - exists own. by apply enter_ok.
  - exists own. apply move_ok; [done|done|done|]. intros r [= <-]. apply (Herr i); [done|set_solver].
  - destruct (well_built_parsed i _ (Hbuilt i c Hi)) as [Hy _]. by rewrite Hy in Hp.
  - exists own. by apply move_ok.
  - eexists. apply move_ok; [by apply register_step_ok|done| |done]. intros p [= <-]. apply lookup_insert_eq.
  - exists own. apply move_ok; [by apply (send_ok own i)|done| |done]. intros q [= <-].
    apply (ok_pointer _ _ _ (proj1 Hok) i c); [done|by rewrite Hpc].
  - exists own. apply move_ok; [done|done| |done]. intros q [= <-].
    apply (ok_pointer _ _ _ (proj1 Hok) i c); [done|by rewrite Hpc].
  - exists own. apply move_ok; [by apply erase_ok|done|done|]. intros r [= <-]. apply (Herr i); [done|set_solver].
  - exists own. apply move_ok; [done|done|done|]. intros r' [= <-].
    eapply (ok_heap _ _ _ (proj2 Hok) p); [done|done| |done]. apply (ok_pointer _ _ _ (proj1 Hok) i c); [done|by rewrite Hpc].
  - exists own. apply move_ok; [done|done|done|]. intros r' [= <-]. apply (Herr i); [done|set_solver].
  - exists own. apply move_ok; [by apply erase_ok|done|done|]. intros r [= <-].
    apply (ok_result _ _ _ (proj1 Hok) i c); [done|by rewrite Hpc].
Qed.

Lemma routing_ok own r q w :
  server_ok own w -> (forall b, b ∈ q -> b ∈ from_agent w) ->
  (forall p bytes, r = Some (p, bytes) -> (p < List.length (heap w))%nat /\ answered own (calls w) p (fun b => answer_of b bytes)) ->
  server_ok own (put_routing r q w).
Proof.
  intros [Hc [H1 H2 H3 H4 H5 H6 H7]] Hq Hr. split; [exact Hc|]. constructor; try done. intros b Hb. by apply H7, Hq.
Qed.

(** The response of a call goes to that call: its id is the call's, and no other call has
    it. *)
Lemma session_step_ok own w w' :
  Z.of_nat (List.length (calls w)) <= 2 ^ 32 -> server_ok own w -> session_step w w' -> server_ok own w'.
Proof.
  intros Hlen Hok Hst. destruct Hst as [bytes q w Hn Hq Hdrop|bytes q p w Hn Hq Hparse Hp|p bytes r w Hn Hr].
  - apply routing_ok; [done| |done]. rewrite Hq. set_solver.
  - apply routing_ok; [done|rewrite Hq; set_solver|]. intros p' bytes' [= <- <-].
    destruct (ok_pending _ _ _ (proj2 Hok) _ _ Hp) as (i & c & Ho & Hi & Hid).
    split; [by apply (ok_own _ _ _ (proj2 Hok) p i)|]. intros j d Hj Hd. rewrite Ho in Hj. injection Hj as <-.
    rewrite Hi in Hd. injection Hd as <-.
    destruct (ok_from _ _ _ (proj2 Hok) bytes) as (j & d & Hj & Ha); [rewrite Hq; set_solver|].
    destruct (answer_id j (c_bson d) bytes) as [_ Hjd]; [by apply (ok_built _ _ _ (proj1 Hok))|done|].
    assert (i = j) as -> by (apply (same_call own w i j c d); congruence || done). congruence.
  - apply routing_ok; [|by cbn|done]. apply respond_ok; [done|]. cbn [response]. intros i c Ho Hi. left.
    destruct (ok_routing _ _ _ (proj2 Hok) _ _ Hn) as [_ Ha]. by apply (Ha i c).
Qed.

Lemma failing_ok own f w :
  server_ok own w -> (forall id p reason, (id, p, reason) ∈ f -> reason ∈ fail_reasons /\ belongs own (calls w) id p) ->
  server_ok own (put_failing f w).
Proof. intros [Hc [H1 H2 H3 H4 H5 H6 H7]] Hf. split; [exact Hc|]. by constructor. Qed.

Lemma fail_step_ok own w w' : server_ok own w -> fail_step w w' -> server_ok own w'.
Proof.
  intros Hok Hst. destruct Hst as [reason w Hr|f1 id p reason f2 r w Hf Hp].
  - apply failing_ok.
    + apply forget_ok; [|done]. intros id p Hp. by rewrite lookup_empty in Hp.
    + intros id p reason' Hin. apply elem_of_app in Hin as [Hin|Hin]; [by apply (ok_failing _ _ _ (proj2 Hok))|].
      unfold snapshot in Hin. apply list_elem_of_fmap in Hin as ([id' p'] & [= -> -> ->] & Hin).
      apply elem_of_map_to_list in Hin. split; [done|]. by apply (ok_pending _ _ _ (proj2 Hok)).
  - assert (Hin : (id, p, reason) ∈ failing w) by (rewrite Hf; set_solver).
    destruct (ok_failing _ _ _ (proj2 Hok) _ _ _ Hin) as [Hreason Hb].
    apply failing_ok.
    + apply respond_ok; [done|]. cbn [response]. intros i c Ho Hi. right. exists reason.
      destruct Hb as (j & d & Hj & Hd & <-). rewrite Ho in Hj. injection Hj as <-. rewrite Hi in Hd. injection Hd as <-.
      split; [|done]. unfold error_reasons. set_solver.
    + intros id' p' reason' H. apply (ok_failing _ _ _ (proj2 Hok)). rewrite Hf. set_solver.
Qed.

Lemma link_step_ok own w w' : server_ok own w -> link_step w w' -> server_ok own w'.
Proof.
  intros [Hc [H1 H2 H3 H4 H5 H6 H7]] Hst. destruct Hst; (split; [exact Hc|]); constructor; try done; intros b Hb; by apply not_elem_of_nil in Hb.
Qed.

Lemma agent_step_ok own w w' : server_ok own w -> agent_step m_db_name w w' -> server_ok own w'.
Proof.
  intros Hok Hst. destruct Hst as [bson q w Hq]. destruct Hok as [Hc [H1 H2 H3 H4 H5 H6 H7]]. split; [exact Hc|]. constructor; try done; cbn.
  - intros b Hb. apply H6. rewrite Hq. set_solver.
  - intros b Hb. apply elem_of_app in Hb as [Hb|Hb]; [by apply H7|].
    destruct (H6 bson) as (i & c & Hi & Hcb); [rewrite Hq; set_solver|]. exists i, c. split; [done|].
    destruct (serve m_db_name bson (database w)) as [[rsp|] d] eqn:Hs; cbn in Hb; [|by apply not_elem_of_nil in Hb].
    apply list_elem_of_singleton in Hb as ->. exists (database w). by rewrite <- Hcb, Hs.
Qed.

Lemma step_length w w' : step w w' -> (List.length (calls w) <= List.length (calls w'))%nat.
Proof.
  intros [w1 w2 Hst|w1 w2 Hst|w1 w2 Hst|w1 w2 Hst|w1 w2 Hst]; destruct Hst; unfold move; cbn [calls put_calls put_pending put_heap put_served put_routing put_failing put_connected set_response]; rewrite ?length_insert, ?length_app; lia.
Qed.

Lemma server_step_ok own w w' :
  Z.of_nat (List.length (calls w')) <= 2 ^ 32 -> server_ok own w -> step w w' -> exists own', server_ok own' w'.
Proof.
  intros Hlen Hok Hst. pose proof (step_length w w' Hst) as Hl. destruct Hst as [w1 w2 Hst|w1 w2 Hst|w1 w2 Hst|w1 w2 Hst|w1 w2 Hst].
  - by eapply call_step_ok.
  - exists own. apply (session_step_ok own w1); [lia|done..].
  - exists own. by eapply fail_step_ok.
  - exists own. by eapply link_step_ok.
  - exists own. by eapply agent_step_ok.
Qed.

(** ** No request is executed twice *)

Definition sent (pc : call_pc) : bool := match pc with Waiting _ | Leaving _ | Returned _ => true | _ => false end.
Definition handed w : list string := executed w ++ to_agent w.
Definition once_ok w : Prop :=
  NoDup (handed w) /\ forall b, b ∈ handed w -> exists i c, calls w !! i = Some c /\ c_bson c = b /\ sent (c_pc c) = true.

(** Fewer messages under way, and calls that stay sent. *)
Lemma once_less w w' :
  handed w' `sublist_of` handed w ->
  (forall i c, calls w !! i = Some c -> sent (c_pc c) = true ->
     exists c', calls w' !! i = Some c' /\ c_bson c' = c_bson c /\ sent (c_pc c') = true) ->
  once_ok w -> once_ok w'.
Proof.
  intros Hsub Hc [Hn Hb]. split; [by eapply sublist_NoDup|]. intros b Hin.
  destruct (Hb b) as (i & c & Hi & <- & Hs); [by eapply elem_of_sublist|]. destruct (Hc i c Hi Hs) as (c' & H1 & H2 & H3). eauto 10.
Qed.

Lemma once_move i c pc w :
  calls w !! i = Some c -> (sent (c_pc c) = true -> sent pc = true) ->
  forall j d, calls w !! j = Some d -> sent (c_pc d) = true ->
    exists d', <[i := mkCall (c_bson c) pc]> (calls w) !! j = Some d' /\ c_bson d' = c_bson d /\ sent (c_pc d') = true.
Proof.
  intros Hi Hs j d Hj Hd. destruct (decide (i = j)) as [<-|Hne].
  - exists (mkCall (c_bson c) pc). rewrite list_lookup_insert_eq by (by eapply lookup_lt_Some). rewrite Hi in Hj. injection Hj as <-. auto.
  - exists d. by rewrite list_lookup_insert_ne.
Qed.

Lemma once_call own w w' :
  Z.of_nat (List.length (calls w)) <= 2 ^ 32 -> server_ok own w -> call_step w w' -> once_ok w -> once_ok w'.
Proof.
  intros Hlen Hok Hst Ho. destruct Hst as [op db coll doc doc2 sval w Hop|i c w Hi Hpc Hd|i c w Hi Hpc Hd Hp|i c w Hi Hpc Hd Hp|i c w Hi Hpc|i c p w Hi Hpc
    |i c p w Hi Hpc|i c p w Hi Hpc|i c p r w Hi Hpc Hr Hy|i c p r w Hi Hpc Hr Hy|i c rsp w Hi Hpc].
  all: try (apply (once_less w); [done|apply (once_move i c _ w Hi); by rewrite Hpc|done]).
  - apply (once_less w); [done| |done]. intros i c Hi Hs. exists c. split; [by apply lookup_app_l_Some|done].
  - destruct Ho as [Hn Hb]. unfold once_ok, handed, move in *. cbn [put_calls put_served executed to_agent calls]. rewrite app_assoc. split.
    + apply list.NoDup_app. split_and!; [done| |by apply NoDup_singleton]. intros b Hin Hlast.
      apply list_elem_of_singleton in Hlast as ->. destruct (Hb _ Hin) as (j & d & Hj & He & Hs).
      assert (i = j) as -> by (apply (same_call own w i j c d); done || by rewrite He).
      rewrite Hi in Hj. injection Hj as <-. by rewrite Hpc in Hs.
    + intros b Hin. apply elem_of_app in Hin as [Hin|Hin].
      * destruct (Hb b Hin) as (j & d & Hj & <- & Hs). destruct (once_move i c (Waiting p) w Hi) with j d as (d' & H1 & H2 & H3); [by rewrite Hpc|done|done|eauto 10].
      * apply list_elem_of_singleton in Hin as ->. exists i, (mkCall (c_bson c) (Waiting p)).
        rewrite list_lookup_insert_eq by (by eapply lookup_lt_Some). done.
Qed.

Lemma once_step own w w' :
  Z.of_nat (List.length (calls w)) <= 2 ^ 32 -> server_ok own w -> step w w' -> once_ok w -> once_ok w'.
Proof.
  intros Hlen Hok Hst Ho.
  assert (Hsame : calls w' = calls w -> handed w' `sublist_of` handed w -> once_ok w').
  { intros Hc Hs. apply (once_less w); [done| |done]. rewrite Hc. eauto. }
  destruct Hst as [w1 w2 Hst|w1 w2 Hst|w1 w2 Hst|w1 w2 Hst|w1 w2 Hst]; [by eapply once_call|..]; destruct Hst as [];
    apply Hsame; try done; unfold handed; cbn.
  - rewrite app_nil_r. apply sublist_inserts_r. done.
  - rewrite app_nil_r. apply sublist_inserts_r. done.
  - rename select (to_agent _ = _) into Hq. by rewrite Hq, <- app_assoc.
Qed.

(** C16. However many request handlers use the database connection at a time, and however
    their steps interleave with the session, with connections that break, are replaced or
    are shut down, with sends that fail or are lost and with timeouts: what [dispatch]
    returns to a caller is the agent's answer to that caller's own request or one of the
    server's error responses under that request's id, never another caller's answer, and
    the agent executes no request twice.  It holds for the first 2^32 requests, before the
    request ids wrap around. *)
Theorem answers_match d w :
  rtc step (new_server d) w -> Z.of_nat (List.length (calls w)) <= 2 ^ 32 ->
  (forall i c rsp, calls w !! i = Some c -> c_pc c = Returned rsp -> good (c_bson c) rsp)
  /\ NoDup (executed w).
Proof.
  intros Hrun Hlen. assert (Hok : (exists own, server_ok own w) /\ once_ok w).
  { revert Hlen. pattern w. apply (rtc_ind_r (R := step) _ (new_server d)); [|clear w Hrun|exact Hrun].
    - intros _. split; [exists ∅; apply new_server_ok|]. split; [apply NoDup_nil_2|]. intros b Hb. by apply not_elem_of_nil in Hb.
    - intros w w' Hrun Hst IH Hlen. pose proof (step_length w w' Hst). destruct IH as [[own Hok] Ho]; [lia|].
      split; [by eapply server_step_ok|]. apply (once_step own w); [lia|done..]. }
  destruct Hok as [[own [Hc _]] [Hn _]]. split.
  - intros i c rsp Hi Hpc. apply (ok_result _ _ _ Hc i c rsp Hi). by rewrite Hpc.
  - by apply list.NoDup_app in Hn as [Hn _].
Qed.
End Spec.

(** ** Examples *)

Section Witnesses.
#[local] Existing Instance toy_bson.
#[local] Existing Instance toy_bson_laws.
#[local] Instance ex_server_json : JsonLib := table_json [].
#[local] Instance ex_server_what : What := fun _ => "error".
(** A client that can only draw numbers. *)
#[local] Instance ex_counter : MongoClient nat := {|
  create_document _ _ _ d := (Throw DbError, d);
  create_bulk_document _ _ _ d := (Throw DbError, d);
  update_collection _ _ _ d := (Throw DbError, d);
  update_bulk_document _ _ _ d := (Throw DbError, d);
  delete_document _ _ d := (Throw DbError, d);
  get_document _ _ _ d := (Throw DbError, d);
  get_documents _ _ _ d := (Throw DbError, d);
  get_documents_all _ _ d := (Throw DbError, d);
  next_awbno prefix d := (Ok (prefix +:+ pretty d), S d);
  store_file _ _ _ d := (Throw DbError, d);
  fetch_file _ d := (Throw DbError, d);
  fetch_file_by_id _ d := (Throw DbError, d);
  delete_file _ d := (Throw DbError, d);
|}.
#[local] Instance ex_counter_laws : MongoLaws nat.
Proof. by split. Qed.

Definition ex_request : string := (build_request NEXT_AWBNO "" "" "" "" "AWB" 0).1.2.
Definition ex_response : string := build_response (mkDbResponse 0 true "AWB7" 0 false "" "").

(** One request from its caller to the agent and back. *)
Lemma answers_match_witness :
  exists w, rtc (step "pbx") (new_server 7%nat) w
    /\ calls w !! 0%nat = Some (mkCall ex_request (Returned ex_response))
    /\ good "pbx" ex_request ex_response /\ executed w = [ex_request].
Proof.
  eexists ?[w]. assert (Hrun : rtc (step "pbx") (new_server 7%nat) ?w).
  { eapply rtc_l; [apply step_link, link_up; reflexivity|].
    eapply rtc_l; [apply step_call, (call_enter NEXT_AWBNO "" "" "" "" "AWB"); exact I|].
    eapply rtc_l; [apply step_call; eapply (call_checked 0); [reflexivity|reflexivity|reflexivity|by vm_compute]|].
    eapply rtc_l; [apply step_call; eapply (call_register 0); reflexivity|].
    eapply rtc_l; [apply step_call; eapply (call_sent 0); reflexivity|].
    eapply rtc_l; [apply step_agent; eapply agent_serves; reflexivity|].
    eapply rtc_l; [apply step_session; eapply (session_find ex_response []); [reflexivity|by vm_compute|by vm_compute|by vm_compute]|].
    eapply rtc_l; [apply step_session; eapply session_complete; by vm_compute|].
    eapply rtc_l; [apply step_call; eapply (call_woken 0); by vm_compute|].
    eapply rtc_l; [apply step_call; eapply (call_leave 0); by vm_compute|].
    apply rtc_refl. }
  destruct (answers_match "pbx" _ _ Hrun) as [Hgood _]; [by vm_compute|].
  split; [exact Hrun|]. split; [by vm_compute|]. split; [|by vm_compute].
  apply (Hgood 0%nat (mkCall ex_request (Returned ex_response)) ex_response); by vm_compute.
Defined.
End Witnesses.
