(* ===== verification/MessageParser.v ===== *)
(** The parser base shared by HTTP and SIP: modules/module/http/src/message_parser.cpp,
    with the conversions of the standard library it relies on ([std::stoi],
    [std::stoul] through [strtol]/[strtoul]). *)

From S2P Require Import Prelude.

#[local] Open Scope Z_scope.

Definition CR : ascii := "013".
Definition LF : ascii := "010".
Definition CRLF : string := String CR (String LF "").

(** ** Number conversion *)

Definition is_space (c : ascii) : bool := (ord c =? 32) || ((9 <=? ord c) && (ord c <=? 13)).

Definition digit_value (c : ascii) : Z :=
  let z := ord c in
  if (48 <=? z) && (z <=? 57) then z - 48
  else if (97 <=? z) && (z <=? 122) then z - 87
  else if (65 <=? z) && (z <=? 90) then z - 55
  else 36.

Fixpoint skip_space (s : string) : string :=
  match s with
  | String c s' => if is_space c then skip_space s' else s
  | EmptyString => ""
  end.

(** The digits at the head of [s], as a number; [None] when there is none. *)
Fixpoint digits_from (base acc : Z) (s : string) : Z :=
  match s with
  | String c s' => if digit_value c <? base then digits_from base (acc * base + digit_value c) s' else acc
  | EmptyString => acc
  end.
Definition read_digits (base : Z) (s : string) : option Z :=
  match s with
  | String c _ => if digit_value c <? base then Some (digits_from base 0 s) else None
  | EmptyString => None
  end.

(** A base-16 number may carry a 0x prefix. *)
Definition drop_prefix (base : Z) (s : string) : string :=
  match s with
  | String z (String x (String d s')) =>
      if (base =? 16) && Ascii.eqb z "0" && (Ascii.eqb x "x" || Ascii.eqb x "X") && (digit_value d <? 16)
      then String d s' else s
  | _ => s
  end.

(** [strtol]/[strtoul] before range checks: the sign and the magnitude. *)
Definition scan_number (base : Z) (s : string) : option (bool * Z) :=
  let s := skip_space s in
  match s with
  | String c s' =>
      if Ascii.eqb c "-" then pair true <$> read_digits base (drop_prefix base s')
      else if Ascii.eqb c "+" then pair false <$> read_digits base (drop_prefix base s')
      else pair false <$> read_digits base (drop_prefix base s)
  | EmptyString => None
  end.

(** [std::stoi]: outside [int] it throws. *)
Definition stoi (base : Z) (s : string) : result Z :=
  match scan_number base s with
  | None => Throw InvalidArgument
  | Some (neg, v) =>
      let z := if neg : bool then - v else v in
      if (- 2 ^ 31 <=? z) && (z <? 2 ^ 31) then Ok z else Throw OutOfRange
  end.

(** [std::stoul]: a minus sign negates modulo 2^64. *)
Definition stoul (base : Z) (s : string) : result Z :=
  match scan_number base s with
  | None => Throw InvalidArgument
  | Some (neg, v) =>
      if v <? 2 ^ 64 then Ok (if neg : bool then u64 (- v) else v) else Throw OutOfRange
  end.

(** ** Percent decoding *)

Fixpoint pct_decode (s : string) : result string :=
  match s with
  | EmptyString => Ok ""
  | String c s' =>
      if Ascii.eqb c "+" then t ← pct_decode s'; mret (String " " t)
      else if Ascii.eqb c "%" then
        match s' with
        | String a (String b s'') =>
            z ← stoi 16 (String a (String b ""));
            t ← pct_decode s'';
            mret (String (chr z) t)
        | _ => t ← pct_decode s'; mret (String c t)
        end
      else t ← pct_decode s'; mret (String c t)
  end.

(** ** Headers *)

Definition header_sep : string := CRLF +:+ CRLF.

Definition extract_header (s : string) : string :=
  match find_str header_sep s with
  | Some offset => str_take (offset + String.length header_sep) s
  | None => s
  end.

(** A line as [getline] gives it, without a trailing CR. *)
Definition strip_cr (line : string) : string :=
  match str_back line with
  | Some c => if Ascii.eqb c CR then pop_back line else line
  | None => line
  end.

Definition field_of_line (line : string) : option (string * string) :=
  match find_char ":" line with
  | None => None
  | Some colon =>
      Some (str_take colon line,
            if (colon + 2 <=? String.length line)%nat then str_drop (colon + 2) line else "")
  end.

(** The header walk: from the second line to the first empty one. *)
Fixpoint fields_of_lines (lines : list string) : list (string * string) :=
  match lines with
  | [] => []
  | line :: lines' =>
      let line := strip_cr line in
      if str_empty line then [] else
      option_list (field_of_line line) ++ fields_of_lines lines'
  end.
Definition mime_fields (s : string) : list (string * string) := fields_of_lines (tail (getlines LF s)).

(** The token map: the first value of a key stays ([emplace]). *)
Definition token_map := gmap string string.
Definition add_element (key value : string) (m : token_map) : token_map :=
  let k := to_lower key in
  if bool_decide (is_Some (m !! k)) then m else <[k := value]> m.
Definition get_element (key : string) (m : token_map) : string := default "" (m !! to_lower key).

Definition parse_mime_header (s : string) (m : token_map) : token_map :=
  fold_left (fun m kv => add_element kv.1 kv.2 m) (mime_fields s) m.

(** ** Lemmas *)

(** Digits read give a number that is not negative. *)
Lemma digit_value_range c : 0 <= digit_value c.
Proof. unfold digit_value. pose proof (ord_range c). repeat case_match; lia. Qed.

Lemma digits_from_nonneg base acc s : 0 <= base -> 0 <= acc -> 0 <= digits_from base acc s.
Proof.
  intros Hb. revert acc. induction s as [|c s IH]; intros acc Ha; [done|]. cbn [digits_from].
  destruct (_ <? _); [|done]. apply IH. pose proof (digit_value_range c). nia.
Qed.

Lemma read_digits_nonneg base s v : 0 <= base -> read_digits base s = Some v -> 0 <= v.
Proof.
  intros Hb. unfold read_digits. destruct s as [|c s]; [done|]. destruct (_ <? _); [|done].
  intros [= <-]. by apply (digits_from_nonneg base 0 (String c s)).
Qed.

Lemma scan_number_nonneg base s neg v : 0 <= base -> scan_number base s = Some (neg, v) -> 0 <= v.
Proof.
  intros Hb. unfold scan_number. destruct (skip_space s) as [|c s']; [done|].
  assert (Hm : forall t (b : bool), pair b <$> read_digits base t = Some (neg, v) -> 0 <= v).
  { intros t b Hx. destruct (read_digits base t) as [w|] eqn:Hr; [|done]. injection Hx as _ ->.
    by apply read_digits_nonneg in Hr. }
  repeat case_match; apply Hm.
Qed.

Lemma stoul_range base s n : 0 <= base -> stoul base s = Ok n -> 0 <= n < 2 ^ 64.
Proof.
  intros Hb. unfold stoul. destruct (scan_number base s) as [[neg v]|] eqn:Hv; [|done].
  apply scan_number_nonneg in Hv; [|done].
  destruct (Z.ltb_spec v (2 ^ 64)); [|done]. intros [= <-].
  destruct neg; [apply Z.mod_pos_bound; lia|lia].
Qed.

(** ** Numbers that are printed and read back *)

Lemma digit_value_char x : (x < 10)%N -> digit_value (pretty_N_char x) = Z.of_N x.
Proof.
  intros Hx. assert (Hc : x = 0%N \/ x = 1%N \/ x = 2%N \/ x = 3%N \/ x = 4%N \/ x = 5%N \/ x = 6%N \/ x = 7%N \/ x = 8%N \/ x = 9%N) by lia.
  destruct Hc as [-> |[-> |[-> |[-> |[-> |[-> |[-> |[-> |[-> | ->]]]]]]]]]; by vm_compute.
Qed.

Lemma digits_pretty x s :
  exists k, 0 <= k /\ forall acc, digits_from 10 acc (pretty_N_go x s) = digits_from 10 (acc * 10 ^ k + Z.of_N x) s.
Proof.
  revert s. induction (N.lt_wf_0 x) as [x _ IH]; intros s. destruct (decide (x = 0)%N) as [->|Hx].
  { exists 0. split; [lia|]. intros acc. rewrite pretty_N_go_0. f_equal. lia. }
  rewrite pretty_N_go_step by lia.
  destruct (IH (x / 10)%N ltac:(apply N.div_lt; lia) (String (pretty_N_char (x mod 10)) s)) as (k & Hk & Hd).
  exists (k + 1). split; [lia|]. intros acc. rewrite Hd. cbn [digits_from].
  assert (Hm : (x mod 10 < 10)%N) by (apply N.mod_lt; lia). rewrite digit_value_char by done.
  destruct (Z.ltb_spec (Z.of_N (x mod 10)) 10); [|lia]. f_equal. rewrite Z.pow_add_r by lia.
  pose proof (N.div_mod x 10 ltac:(lia)). lia.
Qed.

Lemma pretty_head x : x <> 0%N -> exists d t, pretty_N_go x "" = String d t /\ (digit_value d <? 10) = true /\ is_space d = false
  /\ Ascii.eqb d "-" = false /\ Ascii.eqb d "+" = false.
Proof.
  intros Hx. pose proof (pretty_N_go_digits x "" eq_refl) as Hd.
  destruct (pretty_N_go x "") as [|d t] eqn:E.
  - destruct (digits_pretty x "") as (k & _ & Hp). rewrite E in Hp. specialize (Hp 0). cbn in Hp. lia.
  - exists d, t. cbn in Hd. apply andb_prop in Hd as [Hd _]. split; [done|].
    destruct d as [[] [] [] [] [] [] [] []]; try (by vm_compute in Hd); by vm_compute.
Qed.

Lemma scan_to_string n : 0 <= n -> scan_number 10 (to_string n) = Some (false, n).
Proof.
  intros Hn. destruct (decide (n = 0)) as [->|Hz]; [by vm_compute|].
  assert (Hx : Z.to_N n <> 0%N) by lia. destruct (pretty_head _ Hx) as (d & t & E & Hd & Hs & Hm & Hp).
  assert (Ht : to_string n = String d t).
  { rewrite <- E. unfold to_string, pretty, pretty_Z, pretty, pretty_positive, pretty, pretty_N.
    destruct n as [|p|p]; [done| |lia]. case_decide; [done|]. done. }
  destruct (digits_pretty (Z.to_N n) "") as (k & _ & Hdig). rewrite E in Hdig. specialize (Hdig 0).
  rewrite Ht. unfold scan_number. cbn [skip_space]. rewrite Hs, Hm, Hp.
  assert (Hpre : drop_prefix 10 (String d t) = String d t) by (destruct t as [|a [|b t]]; done).
  rewrite Hpre. unfold read_digits. rewrite Hd. cbn [fmap option_fmap option_map]. do 2 f_equal.
  rewrite Hdig. cbn [digits_from]. lia.
Qed.
Lemma stoul_to_string n : 0 <= n < 2 ^ 64 -> stoul 10 (to_string n) = Ok n.
Proof. intros Hn. unfold stoul. rewrite scan_to_string by lia. by destruct (Z.ltb_spec n (2 ^ 64)); [|lia]. Qed.
Lemma stoi_to_string n : 0 <= n < 2 ^ 31 -> stoi 10 (to_string n) = Ok n.
Proof.
  intros Hn. unfold stoi. rewrite scan_to_string by lia.
  destruct (Z.leb_spec (- 2 ^ 31) n); [|lia]. by destruct (Z.ltb_spec n (2 ^ 31)); [|lia].
Qed.
