(* ===== verification/CloudWiring.v ===== *)
(** The cloud process around the tunnel: the presence cache (presence_cache.hpp), the
    options of [main] and the handlers that it installs on the bridge (webservice_main.cpp),
    and the reactor timer that drives the heartbeat (cloud_tunnel_tick_driver.cpp).

    [main] builds the same objects in its two modes; the definitions follow the remote-db
    one.  The database client and the push sender are the class [CloudHost]. *)

From S2P Require Import Prelude SipFrame Json MessageParser FrameStream CloudTunnel CloudTunnelSpec WsConn.

#[local] Open Scope Z_scope.

(** ** InMemoryPresenceCache *)

Module Presence.
Definition Cache : Type := gmap string bool.

Definition key (society_id sip_username : string) : string :=
  society_id +:+ String "000" sip_username.
Definition set (society_id sip_username : string) (online : bool) (m_state : Cache) : Cache :=
  <[key society_id sip_username := online]> m_state.
Definition is_online (m_state : Cache) (society_id sip_username : string) : bool :=
  match m_state !! key society_id sip_username with Some online => online | None => false end.
End Presence.

(** ** The handlers *)

(** What the handlers call: [db_ptr->get_document], [create_document] in the client's own
    database, and [PushSender::notify]; each may throw. *)
Class CloudHost (D : Type) := {
  db_get_document : string -> string -> string -> D -> result string * D;
  db_create_document : string -> string -> D -> result string * D;
  push_notify : string -> string -> D -> result unit * D;
}.

Record Host (D : Type) := mkHost { cache : Presence.Cache; outside : D }.
Arguments mkHost {D} _ _.
Arguments cache {D} _.
Arguments outside {D} _.

Section Handlers.
Context {D : Type} `{!CloudHost D} `{!JsonLib}.

(** What the three tests of the REGISTER_STATE handler accept. *)
Definition register_report (payload : string) : option (string * string * bool) :=
  match json_parse payload with
  | Throw _ => None
  | Ok j =>
      match member_str "societyId" j, member_str "sipUsername" j, member_bool "online" j with
      | Some society, Some user, Some online => Some (society, user, online)
      | _, _, _ => None
      end
  end.
Definition register_state_handler : handler (Host D) := fun payload h =>
  match register_report payload with
  | Some (society, user, online) => (Ok [], mkHost (Presence.set society user online (cache h)) (outside h))
  | None => (Ok [], h)
  end.

(** The realm in a society document. *)
Definition realm_of (doc : string) : string :=
  if str_empty doc then "" else
  match json_parse doc with
  | Throw _ => ""
  | Ok j => match value_str "sipRealm" "" j with Ok realm => realm | Throw _ => "" end
  end.
Definition society_filter (society_id : string) : string :=
  "{" +:+ quoted "code" +:+ ":" +:+ dquote +:+ society_id +:+ dquote +:+ "}".
Definition agent_hello_handler (db : bool) : handler (Host D) := fun payload h =>
  if negb db then (Ok [], h) else
  match json_parse payload with
  | Throw _ => (Ok [("", "")], h)
  | Ok j =>
      match member_str "societyId" j with
      | None => (Ok [], h)
      | Some society_id =>
          let '(doc, o) := db_get_document "societies" (society_filter society_id) "{}" (outside h) in
          let h := mkHost (cache h) o in
          match doc with
          | Throw e => (Throw e, h)
          | Ok doc => (Ok [(society_id, realm_of doc)], h)
          end
      end
  end.

(** With a [PushSender], and without one (which only logs). *)
Definition push_handler (sender : bool) : handler (Host D) := fun payload h =>
  if negb sender then (Ok [], h) else
  match json_parse payload with
  | Throw _ => (Ok [], h)
  | Ok j =>
      match member_str "subscriberId" j with
      | None => (Ok [], h)
      | Some sub_id => let '(_, o) := push_notify sub_id payload (outside h) in (Ok [], mkHost (cache h) o)
      end
  end.

Definition cdr_handler (db : bool) : handler (Host D) := fun payload h =>
  if negb db then (Ok [], h) else
  let '(r, o) := db_create_document "cdr" payload (outside h) in
  (match r with Ok _ => Ok [] | Throw e => Throw e end, mkHost (cache h) o).

(** The bridge and the endpoint as [main] leaves them; no handler for ASTERISK_STATUS is
    installed. *)
Definition wire_cloud `{!CloudIO (Host D)} (cfg : Config) (db sender : bool) (d : D) : Cloud (Host D) :=
  let w := new_cloud cfg true (mkHost ∅ d) in
  let w := set_register_state_handler (Some register_state_handler) w in
  let w := set_agent_hello_handler (Some (agent_hello_handler db)) w in
  let w := set_push_notify_handler (Some (push_handler sender)) w in
  set_cdr_push_handler (Some (cdr_handler db)) w.

(** What the agent's [main] sends for a registration. *)
Definition register_state_payload (society_id sip_username : string) (online : bool) : json :=
  mk_obj [("societyId", JStr society_id); ("sipUsername", JStr sip_username); ("online", JBool online)].
End Handlers.

(** ** CloudTunnelTickDriver *)

Module TickDriver.
Section Driver.
Context {S H : Type} `{!NetIO S} `{!CloudIO H}.

(** [m_cte] is the endpoint of the cloud, which the timer's callback gets. *)
Record Driver := mkDriver { m_interval_sec : Z; m_timer_id : option Z; m_reactor : bool; reactor : S }.

Definition new_driver (interval_sec : Z) (s : S) : Driver := mkDriver interval_sec None false s.

(** [r] tells whether the reactor's pointer is not null. *)
Definition register_with_reactor (r : bool) (d : Driver) : bool * Driver :=
  if negb r then (false, d) else
  let '(id, s) := net_schedule (m_interval_sec d) (reactor d) in
  (bool_decide (is_Some id), mkDriver (m_interval_sec d) id true s).
Definition cancel_with_reactor (d : Driver) : Driver :=
  match m_timer_id d with
  | None => d
  | Some id =>
      mkDriver (m_interval_sec d) None (m_reactor d) (if m_reactor d then net_cancel id (reactor d) else reactor d)
  end.
Definition destroy (d : Driver) : Driver := cancel_with_reactor d.
(** Whether the timer stays armed. *)
Definition handle_timeout (w : Cloud H) : bool * Cloud H := (true, tick w).
End Driver.
End TickDriver.

(** ** The options *)

Module CloudMain.

(** [CommandArgumentName], and the array of the options. *)
Inductive Arg :=
  | SERVER_IP | SERVER_PORT | SERVER_WORKER_NODE | DB_URI | DB_CONN_POOL | DB_NAME | EMAIL_FROM_NAME | EMAIL_FROM_ID
  | EMAIL_FROM_PASSWORD | REMOTE_DB | AGENT_PORT | TLS_CERT | TLS_KEY | TLS_CA | MIGRATE_PASSWORDS | VAPID_KEY_PATH | VAPID_SUBJECT.
#[export] Instance Arg_eq_dec : EqDecision Arg.
Proof. solve_decision. Defined.
Definition Opt : Type := Arg -> string.
Implicit Types (opt : Opt).

Definition kOptMap : list (ascii * Arg) :=
  [("s"%char, SERVER_IP); ("p"%char, SERVER_PORT); ("w"%char, SERVER_WORKER_NODE); ("u"%char, DB_URI); ("c"%char, DB_CONN_POOL);
   ("d"%char, DB_NAME); ("n"%char, EMAIL_FROM_NAME); ("i"%char, EMAIL_FROM_ID); ("o"%char, EMAIL_FROM_PASSWORD);
   ("a"%char, AGENT_PORT); ("e"%char, TLS_CERT); ("k"%char, TLS_KEY); ("q"%char, TLS_CA); ("V"%char, VAPID_KEY_PATH); ("S"%char, VAPID_SUBJECT)].
Fixpoint find_key (c : ascii) (m : list (ascii * Arg)) : option Arg :=
  match m with [] => None | (ch, key) :: m' => if Ascii.eqb c ch then Some key else find_key c m' end.
Definition assign (key : Arg) (v : string) opt : Opt := fun a => if decide (a = key) then v else opt a.

Definition set_option (c : ascii) (arg : string) opt : result (Z + Opt) :=
  if Ascii.eqb c "h" then Ok (inl 0)
  else if Ascii.eqb c "?" then Ok (inl (-1))
  else if Ascii.eqb c "m" then Ok (inr (assign MIGRATE_PASSWORDS "1" opt))
  else if Ascii.eqb c "r" then Ok (inr (assign REMOTE_DB "1" opt))
  else Ok (inr match find_key c kOptMap with Some key => assign key arg opt | None => opt end).

Definition opt_int opt (key : Arg) (default_val : Z) : result Z :=
  if str_empty (opt key) then Ok default_val else stoi 10 (opt key).

(** Which [WsDbServer] is made in the remote mode. *)
Inductive DbMode := Mtls (port : Z) (cert key ca : string) | InnerTls (cert key ca : string) | Unencrypted.
(** What [main] does: end, migrate, or construct the [WebServer] with these arguments. *)
Inductive Run :=
  | Exit (code : Z)
  | Migrate (uri : string)
  | Remote (ip : string) (port workers : Z) (db : DbMode)
  | Local (ip : string) (port workers : Z) (uri pool name : string).

Definition to_u16 (z : Z) : Z := z mod 2 ^ 16.
Definition db_mode opt : result DbMode :=
  let cert := opt TLS_CERT in let key := opt TLS_KEY in let ca := opt TLS_CA in
  if negb (str_empty (opt AGENT_PORT)) && negb (str_empty cert) && negb (str_empty key) && negb (str_empty ca)
  then port ← stoi 10 (opt AGENT_PORT); Ok (Mtls (to_u16 port) cert key ca)
  else Ok (if negb (str_empty cert) && negb (str_empty key) then InnerTls cert key ca else Unencrypted).

Definition decide_run opt : result Run :=
  port ← opt_int opt SERVER_PORT 8080;
  worker ← opt_int opt SERVER_WORKER_NODE 10;
  let remoteDb := negb (str_empty (opt REMOTE_DB)) in
  if negb (str_empty (opt MIGRATE_PASSWORDS)) then
    Ok (if remoteDb then Exit (-1) else if str_empty (opt DB_URI) then Exit (-1) else Migrate (opt DB_URI))
  else if remoteDb then db ← db_mode opt; Ok (Remote (opt SERVER_IP) (to_u16 port) (u32 worker) db)
  else Ok (Local (opt SERVER_IP) (to_u16 port) (u32 worker) (opt DB_URI) (opt DB_CONN_POOL) (opt DB_NAME)).
Definition run_main (args : list (ascii * string)) : result Run :=
  r ← get_opts set_option args (fun _ => ""); match r with inl code => Ok (Exit code) | inr opt => decide_run opt end.

(** The address of the database that the [WebServer] of the local mode connects to: the pool
    is read and not used, the name is not read. *)
Definition local_uri (uri pool name : string) : result string :=
  let chosen := if str_empty uri then "mongodb://127.0.0.1:27017" else uri in
  if str_empty pool then Ok chosen else _ ← stoi 10 pool; Ok chosen.

(** [cte_cfg.inner_tls]: certificate, key and authority of the tunnel's inner TLS. *)
Definition tunnel_tls opt : string * string * string := (opt TLS_CERT, opt TLS_KEY, opt TLS_CA).

(** The key and the subject that a [PushSender] is made with; [read_file] is the text of a
    file, empty when it cannot be opened. *)
Definition make_push_deps (read_file : string -> string) (db : bool) opt : option (string * string) :=
  if str_empty (opt VAPID_KEY_PATH) || str_empty (opt VAPID_SUBJECT) || negb db then None else
  let pem := read_file (opt VAPID_KEY_PATH) in
  if str_empty pem then None else Some (pem, opt VAPID_SUBJECT).
End CloudMain.

(** * What the cloud's handlers guarantee. *)

(** ** The presence cache as a map from subscribers *)

Definition nul_free (s : string) : Prop := no_char "000" s.

Lemma key_inj s s' u u' : nul_free s -> nul_free s' -> Presence.key s u = Presence.key s' u' -> s = s' /\ u = u'.
Proof.
  unfold Presence.key, nul_free, no_char. revert s'. induction s as [|c s IH]; intros [|c' s'] Hs Hs' He; cbn in *.
  - by simplify_eq.
  - by simplify_eq.
  - by simplify_eq.
  - injection He as -> He. destruct (Ascii.eqb c' "000") eqn:Hc; [done|].
    destruct (find_char "000" s) eqn:H1; [done|]. destruct (find_char "000" s') eqn:H2; [done|].
    by destruct (IH s' eq_refl H2 He) as [-> ->].
Qed.

Lemma is_online_set s u online m : Presence.is_online (Presence.set s u online m) s u = online.
Proof. unfold Presence.is_online, Presence.set, Presence.Cache in *. by rewrite lookup_insert_eq. Qed.
Lemma is_online_set_ne s u s' u' online m :
  Presence.key s u <> Presence.key s' u' ->
  Presence.is_online (Presence.set s u online m) s' u' = Presence.is_online m s' u'.
Proof. intros He. unfold Presence.is_online, Presence.set, Presence.Cache in *. by rewrite lookup_insert_ne. Qed.

Section Handlers.
Context {D : Type} `{!CloudHost D} `{!JsonLib} `{!CloudIO (Host D)}.
Implicit Types (w : Cloud (Host D)) (dir : gmap (string * string) bool).

Definition report_step dir (payload : string) : gmap (string * string) bool :=
  match register_report payload with
  | Some (society, user, online) => <[(society, user) := online]> dir
  | None => dir
  end.
(** The cache answers what the map says. *)
Definition agrees (m : Presence.Cache) dir : Prop :=
  forall society user, nul_free society ->
  Presence.is_online m society user = default false (dir !! (society, user)).
Definition report_ok (payload : string) : Prop :=
  forall society user online, register_report payload = Some (society, user, online) -> nul_free society.

Lemma agrees_set m dir society user online :
  nul_free society -> agrees m dir ->
  agrees (Presence.set society user online m) (<[(society, user) := online]> dir).
Proof.
  intros Hs Ha s u Hn. destruct (decide ((s, u) = (society, user))) as [[= -> ->]|Hne].
  - by rewrite is_online_set, lookup_insert_eq.
  - rewrite lookup_insert_ne by congruence. rewrite is_online_set_ne; [by apply Ha|].
    intros He. destruct (key_inj _ _ _ _ Hs Hn He) as [-> ->]. by destruct Hne.
Qed.

Definition report_frame (payload : string) : Frame := mkFrame REGISTER_STATE 0 payload.

Lemma dispatch_report payload w :
  m_register_state_handler (m_handlers (bridge w)) = Some register_state_handler ->
  dispatch_frame (report_frame payload) w = (Ok tt, with_io (register_state_handler payload (io w)).2 [] w).
Proof.
  intros Hh. unfold dispatch_frame, report_frame, run_handler. cbn. rewrite Hh. unfold register_state_handler.
  by destruct (register_report payload) as [[[society user] online]|].
Qed.

(** Presence end to end.  After any sequence of REGISTER_STATE frames the cache says of
    every subscriber what the last well-formed report about it said, and that it is
    offline when there was none; the reports never throw and touch nothing else.  What the
    agent sends for a registration is such a report. *)
Theorem presence_refines payloads w dir :
  m_register_state_handler (m_handlers (bridge w)) = Some register_state_handler ->
  agrees (cache (io w)) dir -> Forall report_ok payloads ->
  exists w', for_each (map report_frame payloads) dispatch_frame w = (Ok tt, w')
    /\ agrees (cache (io w')) (fold_left report_step payloads dir)
    /\ bridge w' = bridge w /\ endpoint w' = endpoint w /\ outs w' = outs w /\ outside (io w') = outside (io w)
    /\ forall society user online text,
         json_dump (register_state_payload society user online) = Ok text ->
         json_parse text = Ok (register_state_payload society user online) ->
         register_report text = Some (society, user, online).
Proof.
  intros Hh Ha Hp. revert w dir Hh Ha. induction Hp as [|p payloads Hp Hps IH]; intros w dir Hh Ha.
  - exists w. split_and!; try done. intros society user online text _ Hparse. unfold register_report.
    rewrite Hparse. by vm_compute.
  - set (w1 := with_io (register_state_handler p (io w)).2 [] w).
    destruct (IH w1 (report_step dir p)) as (w' & Hd & Ha' & Hb & He & Ho & Hx & Hr); [done| |].
    + unfold w1, report_step, register_state_handler. cbn [io with_io].
      destruct (register_report p) as [[[society user] online]|] eqn:Hrep; [|done].
      by apply agrees_set; [apply (Hp society user online)|].
    + exists w'. split_and!; try done.
      * change (map report_frame (p :: payloads)) with (report_frame p :: map report_frame payloads).
        rewrite (for_each_cons_ok _ _ _ _ w1); [done|by apply dispatch_report].
      * rewrite Ho. unfold w1. cbn. by rewrite app_nil_r.
      * rewrite Hx. unfold w1, register_state_handler. cbn. by destruct (register_report p) as [[[? ?] ?]|].
Qed.

(** ** AGENT_HELLO *)

(** Every AGENT_HELLO that names a society is acknowledged.  Whether the society exists
    or not, exactly one SOCIETY_BOOTSTRAP frame is accepted by the tunnel or queued for it,
    behind everything else, with the society's id and the realm of its document, empty when
    the document has none or cannot be read; only an exception of the database escapes. *)
Theorem hello_acknowledged payload j society w :
  m_agent_hello_handler (m_handlers (bridge w)) = Some (agent_hello_handler true) ->
  tunnel_inv w -> unbounded w -> m_tunnel (bridge w) = true ->
  json_parse payload = Ok j -> member_str "societyId" j = Some society ->
  let asked := db_get_document "societies" (society_filter society) "{}" (outside (io w)) in
  let hello := mkFrame AGENT_HELLO 0 payload in
  match asked.1 with
  | Throw e => dispatch_frame hello w = (Throw e, with_io (mkHost (cache (io w)) asked.2) [] w)
  | Ok doc => forall ack,
      json_dump (mk_obj [("societyId", JStr society); ("sipRealm", JStr (realm_of doc))]) = Ok ack ->
      exists w', dispatch_frame hello w = (Ok tt, w')
        /\ tunnel_stream w' = tunnel_stream w ++ [encode SOCIETY_BOOTSTRAP 0 ack]
  end.
Proof.
  intros Hh Hi Hu Ht Hj Hs asked hello. unfold dispatch_frame, run_handler, hello. cbn [op SipFrame.payload].
  rewrite Hh. unfold agent_hello_handler. cbn [negb]. rewrite Hj, Hs. fold asked. destruct asked as [[doc|e] o]; [|done].
  cbn [fst snd]. intros ack Hack. set (w1 := with_io (mkHost (cache (io w)) o) [] w).
  eexists. split.
  - rewrite (for_each_cons_ok _ _ _ _ (tunnel_send SOCIETY_BOOTSTRAP 0 ack w1)); [done|].
    unfold bootstrap_society. cbn [fst snd bridge with_io w1]. rewrite Ht. cbn [negb]. by rewrite Hack.
  - unfold tunnel_send. cbn [bridge with_io w1]. rewrite Ht.
    rewrite stream_send_frame; [|by apply inv_io|done]. f_equal. unfold tunnel_stream, w1. cbn. by rewrite app_nil_r.
Qed.

(** An exception of the database on a CDR the agent sent leaves the bridge's dispatcher. *)
Lemma cdr_exception_escapes payload w e o :
  m_cdr_handler (m_handlers (bridge w)) = Some (cdr_handler true) ->
  db_create_document "cdr" payload (outside (io w)) = (Throw e, o) ->
  (dispatch_frame (mkFrame CDR_PUSH 0 payload) w).1 = Throw e.
Proof.
  intros Hh Hd. unfold dispatch_frame, run_handler. cbn [op CloudTunnel.bridge]. cbn. rewrite Hh. cbn. by rewrite Hd.
Qed.
End Handlers.

(** Two subscribers whose keys coincide: a society id with a NUL byte. *)
Lemma presence_key_clash : Presence.key (String "a" (String "000" "b")) "c" = Presence.key "a" (String "b" (String "000" "c")).
Proof. done. Qed.

(** ** What the options decide *)

Module Options.
Import CloudMain.

Lemma find_key_in c m key : find_key c m = Some key -> key ∈ map snd m.
Proof.
  induction m as [|[ch key'] m IH]; cbn; [done|]. destruct (Ascii.eqb c ch); [intros [= ->]; left|]. intros Hk. right. by apply IH.
Qed.
Lemma find_key_inj k c m key : NoDup (map snd m) -> find_key k m = Some key -> find_key c m = Some key -> k = c.
Proof.
  induction m as [|[ch key'] m IH]; cbn; [done|]. intros [Hni Hnd]%list.NoDup_cons.
  destruct (Ascii.eqb_spec k ch) as [->|?], (Ascii.eqb_spec c ch) as [->|?]; try done.
  - intros [= ->] Hk. by apply find_key_in in Hk.
  - intros Hk [= ->]. by apply find_key_in in Hk.
  - by apply IH.
Qed.
Lemma kOptMap_nodup : NoDup (map snd kOptMap).
Proof. apply (bool_decide_eq_true_1 (NoDup (map snd kOptMap))). vm_compute. reflexivity. Qed.

(** Every option with an argument is kept under its key. *)
Lemma key_setting c key : find_key c kOptMap = Some key -> setting set_option Ok c (fun opt => opt key).
Proof.
  intros Hc k arg opt opt'. unfold set_option.
  destruct (Ascii.eqb_spec k "h") as [->|?]; [done|]. destruct (Ascii.eqb_spec k "?") as [->|?]; [done|].
  assert (forall key', key' ∉ map snd kOptMap -> key <> key') as Hne by (intros key' Hn ->; by apply find_key_in in Hc).
  assert (forall d key', find_key d kOptMap = None -> key' ∉ map snd kOptMap ->
    if Ascii.eqb d c then Ok arg = Ok (assign key' "1" opt key) else assign key' "1" opt key = opt key) as Hflag.
  { intros d key' Hd Hn. destruct (Ascii.eqb_spec d c) as [->|?]; [by rewrite Hc in Hd|]. unfold assign.
    by rewrite decide_False by (by apply Hne). }
  destruct (Ascii.eqb_spec k "m") as [->|?].
  { intros [= <-]. apply Hflag; [done|]. refine (bool_decide_eq_true_1 (_ ∉ _) _); vm_compute; reflexivity. }
  destruct (Ascii.eqb_spec k "r") as [->|?].
  { intros [= <-]. apply Hflag; [done|]. refine (bool_decide_eq_true_1 (_ ∉ _) _); vm_compute; reflexivity. }
  destruct (find_key k kOptMap) as [key'|] eqn:Hk; intros [= <-]; destruct (Ascii.eqb_spec k c) as [->|Hkc]; try done; [| |by rewrite Hc in Hk].
  - rewrite Hc in Hk. injection Hk as ->. unfold assign. by rewrite decide_True.
  - unfold assign. rewrite decide_False; [done|]. intros ->. apply Hkc. by apply (find_key_inj k c kOptMap key' kOptMap_nodup).
Qed.

(** The two options without an argument. *)
Lemma flag_setting c key : c = "m"%char /\ key = MIGRATE_PASSWORDS \/ c = "r"%char /\ key = REMOTE_DB ->
  setting set_option (fun _ => Ok "1") c (fun opt => opt key).
Proof.
  intros Hc k arg opt opt'. unfold set_option.
  destruct (Ascii.eqb_spec k "h") as [->|?]; [done|]. destruct (Ascii.eqb_spec k "?") as [->|?]; [done|].
  destruct (Ascii.eqb_spec k "m") as [->|?]; [|destruct (Ascii.eqb_spec k "r") as [->|?]].
  { intros [= <-]; by destruct Hc as [[-> ->]|[-> ->]]. }
  { intros [= <-]; by destruct Hc as [[-> ->]|[-> ->]]. }
  rewrite (proj2 (Ascii.eqb_neq k c)) by (by destruct Hc as [[-> ->]|[-> ->]]).
  destruct (find_key k kOptMap) as [key'|] eqn:Hk; intros [= <-]; [|done]. unfold assign. rewrite decide_False; [done|].
  intros <-. apply find_key_in in Hk. revert Hk.
  destruct Hc as [[-> ->]|[-> ->]]; refine (bool_decide_eq_true_1 (_ ∉ _) _); vm_compute; reflexivity.
Qed.

Lemma u16_range z : 0 <= to_u16 z <= 65535.
Proof. unfold to_u16. pose proof (Z.mod_pos_bound z 65536). change (2 ^ 16) with 65536. lia. Qed.

Lemma db_mode_decided opt db :
  db_mode opt = Ok db ->
  match db with
  | Mtls p cert key ca => (cert, key, ca) = tunnel_tls opt /\ 0 <= p <= 65535 /\ cert <> "" /\ key <> "" /\ ca <> "" /\ opt AGENT_PORT <> ""
  | InnerTls cert key ca => (cert, key, ca) = tunnel_tls opt /\ cert <> "" /\ key <> "" /\ (ca = "" \/ opt AGENT_PORT = "")
  | Unencrypted => opt TLS_CERT = "" \/ opt TLS_KEY = ""
  end.
Proof.
  unfold db_mode, tunnel_tls.
  destruct (str_empty (opt TLS_CERT)) eqn:E1; [cbn; rewrite andb_false_r; intros [= <-]; left; by apply str_empty_true|].
  destruct (str_empty (opt TLS_KEY)) eqn:E2; [cbn; rewrite andb_false_r; intros [= <-]; right; by apply str_empty_true|].
  apply str_empty_false in E1, E2. cbn [negb]. rewrite !andb_true_r.
  destruct (str_empty (opt AGENT_PORT)) eqn:E3; [apply str_empty_true in E3; intros [= <-]; auto|].
  destruct (str_empty (opt TLS_CA)) eqn:E4; [apply str_empty_true in E4; intros [= <-]; rewrite E4; auto|].
  apply str_empty_false in E3, E4. cbn [negb andb]. destruct (stoi 10 (opt AGENT_PORT)) as [p|]; cbn; [|done]. intros [= <-].
  pose proof (u16_range p). auto 10.
Qed.

(** What the options decide.  The process that serves has the values given last; it serves
    the remote database exactly when that was asked for; the database agent's port has TLS
    of its own exactly when port, certificate, key and authority are given, and its traffic
    is in clear exactly when the certificate or the key is missing; the passwords are
    migrated only in a local database with an address. *)
Theorem run_decided args run :
  run_main args = Ok run ->
  let given c := default "" (last_given c args) in
  let asked c := bool_decide (is_Some (last_given c args)) in
  match run with
  | Exit _ => True
  | Migrate uri => uri = given "u"%char /\ uri <> "" /\ asked "m"%char = true /\ asked "r"%char = false
  | Remote ip port workers db =>
      ip = given "s"%char /\ 0 <= port <= 65535 /\ 0 <= workers < 2 ^ 32 /\ asked "r"%char = true /\ asked "m"%char = false
      /\ match db with
         | Mtls p cert key ca => (cert, key, ca) = (given "e"%char, given "k"%char, given "q"%char) /\ 0 <= p <= 65535
             /\ cert <> "" /\ key <> "" /\ ca <> "" /\ given "a"%char <> ""
         | InnerTls cert key ca => (cert, key, ca) = (given "e"%char, given "k"%char, given "q"%char)
             /\ cert <> "" /\ key <> "" /\ (ca = "" \/ given "a"%char = "")
         | Unencrypted => given "e"%char = "" \/ given "k"%char = ""
         end
  | Local ip port workers uri pool name =>
      (ip, uri, pool, name) = (given "s"%char, given "u"%char, given "c"%char, given "d"%char)
      /\ 0 <= port <= 65535 /\ 0 <= workers < 2 ^ 32 /\ asked "r"%char = false /\ asked "m"%char = false
  end.
Proof.
  unfold run_main. destruct (get_opts set_option args _) as [[code|opt]|] eqn:Hs; cbn; [by intros [= <-]| |done].
  assert (forall c key, find_key c kOptMap = Some key -> opt key = default "" (last_given c args)) as Hg.
  { intros c key Hc. by rewrite (text_given _ _ _ _ _ _ (key_setting c key Hc) Hs). }
  assert (forall c key, c = "m"%char /\ key = MIGRATE_PASSWORDS \/ c = "r"%char /\ key = REMOTE_DB ->
    str_empty (opt key) = negb (bool_decide (is_Some (last_given c args)))) as Hf.
  { intros c key Hc. pose proof (setting_given _ _ _ _ _ (flag_setting c key Hc) _ _ Hs) as Hx.
    destruct (last_given c args); [by injection Hx as <-|by rewrite Hx]. }
  pose proof (Hf "m"%char _ (or_introl (conj eq_refl eq_refl))) as Hm. pose proof (Hf "r"%char _ (or_intror (conj eq_refl eq_refl))) as Hr.
  unfold decide_run, local_uri. rewrite Hm, Hr, !negb_involutive.
  rewrite !(Hg "s"%char _ eq_refl), !(Hg "u"%char _ eq_refl), !(Hg "c"%char _ eq_refl), !(Hg "d"%char _ eq_refl).
  destruct (opt_int opt SERVER_PORT 8080) as [port|]; cbn; [|done]. destruct (opt_int opt SERVER_WORKER_NODE 10) as [workers|]; cbn; [|done].
  pose proof (u16_range port) as Hp. pose proof (u32_range workers) as Hw.
  destruct (bool_decide (is_Some (last_given "m" args))).
  - destruct (bool_decide (is_Some (last_given "r" args))); [by intros [= <-]|].
    destruct (str_empty (default "" (last_given "u" args))) eqn:Hu; intros [= <-]; [done|]. by apply str_empty_false in Hu.
  - destruct (bool_decide (is_Some (last_given "r" args))); [|by intros [= <-]].
    destruct (db_mode opt) as [db|] eqn:Hdb; [|done]. intros [= <-]. apply db_mode_decided in Hdb. unfold tunnel_tls in Hdb.
    rewrite !(Hg "a"%char _ eq_refl), !(Hg "e"%char _ eq_refl), !(Hg "k"%char _ eq_refl), !(Hg "q"%char _ eq_refl) in Hdb.
    unfold is_u32 in Hw. split_and!; try done; lia.
Qed.

(** The local database: the name is ignored, the pool only read. *)
Lemma local_name_ignored uri pool name name' : local_uri uri pool name = local_uri uri pool name'.
Proof. done. Qed.

Definition ex_args : list (ascii * string) :=
  [("p"%char, "443"); ("r"%char, ""); ("a"%char, "70001"); ("e"%char, "server.crt"); ("k"%char, "server.key")].
Lemma run_decided_witness :
  run_main ex_args = Ok (Remote "" 443 10 (InnerTls "server.crt" "server.key" "")) /\ "server.crt" <> "".
Proof.
  assert (run_main ex_args = Ok (Remote "" 443 10 (InnerTls "server.crt" "server.key" ""))) as E by (vm_compute; reflexivity).
  pose proof (run_decided ex_args _ E) as (_ & _ & _ & _ & _ & _ & Hc & _). exact (conj E Hc).
Defined.
End Options.

Section Witnesses.
Definition ex_report : json := register_state_payload "soc1" "alice" true.
Definition ex_hello : json := mk_obj [("societyId", JStr "soc1")].
Definition ex_doc : json := mk_obj [("sipRealm", JStr "pbx.example")].
#[local] Instance ex_json : JsonLib := table_json [ex_report; ex_hello; ex_doc].

(** A database with one society; the world is the time. *)
#[local] Instance ex_host : CloudHost Z := {|
  db_get_document coll filter projection d :=
    (Ok (if str_eqb filter (society_filter "soc1") then compact_dump ex_doc else ""), d);
  db_create_document coll doc d := (Throw DbError, d);
  push_notify sub payload d := (Ok tt, d);
|}.
#[local] Instance ex_io : CloudIO (Host Z) := {|
  agent_send _ _ h := (true, h);
  agent_close _ h := h;
  browser_send _ _ h := h;
  browser_close _ _ h := h;
  clock_now := outside;
|}.
Definition ex_wired : Cloud (Host Z) := on_agent_connected (Some 1%nat) (wire_cloud default_config true false 100).

Lemma presence_refines_witness :
  exists w', for_each (map report_frame ["garbage"; compact_dump ex_report]) dispatch_frame ex_wired = (Ok tt, w')
    /\ agrees (cache (io w')) (<[("soc1", "alice") := true]> ∅).
Proof.
  destruct (presence_refines ["garbage"; compact_dump ex_report] ex_wired ∅) as (w' & H1 & H2 & _).
  - done.
  - intros society user _. by vm_compute.
  - apply Forall_cons_2; [|apply Forall_cons_2; [|by apply Forall_nil_2]]; intros s u o; vm_compute; by intros [= <- _ _].
  - by exists w'.
Defined.

Lemma hello_acknowledged_witness :
  exists w', dispatch_frame (mkFrame AGENT_HELLO 0 (compact_dump ex_hello)) ex_wired = (Ok tt, w')
    /\ tunnel_stream w' = tunnel_stream ex_wired ++
         [encode SOCIETY_BOOTSTRAP 0 (compact_dump (mk_obj [("societyId", JStr "soc1"); ("sipRealm", JStr "pbx.example")]))].
Proof.
  refine (hello_acknowledged (compact_dump ex_hello) ex_hello "soc1" ex_wired _ _ _ _ _ _ _ _).
  - done.
  - split; [|done]. constructor; try done. split; [done|]. intros k [o Hk].
    assert (He : m_browsers (bridge ex_wired) = ∅) by (by vm_compute). by rewrite He, lookup_empty in Hk.
  - done.
  - done.
  - by vm_compute.
  - done.
  - by vm_compute.
Defined.
End Witnesses.
