(* ===== verification/HttpParser.v ===== *)
(** HTTP/1.1 requests: modules/module/http/src/http_parser.cpp, and the loop of
    [WebConnection::handle_input] (webservice.cpp) that cuts a byte stream into them.

    zlib is a parameter.  The loops run with fuel; the constructor gives
    [decode_chunked] one step per byte of the body, more than a loop that advances
    needs, and the inflate loop as many calls as zlib documents to need. *)

From S2P Require Import Prelude MessageParser.

#[local] Open Scope Z_scope.

(** [inflateInit2] on an input, [inflate] with its return code and the output of the
    call, and a bound on the calls an input needs. *)
Class Zlib := {
  zstream : Type;
  inflateInit2 : Z -> string -> option zstream;
  inflate : zstream -> Z * string * zstream;
  inflate_calls : string -> nat;
}.

Definition Z_OK : Z := 0.
Definition Z_STREAM_END : Z := 1.

Record Http := mkHttp {
  m_method : string;
  m_uriName : string;
  m_tokenMap : token_map;
  m_header : string;
  m_body : string;
}.

Definition size_of (s : string) : Z := Z.of_nat (String.length s).

(** [in.find(pat, pos)] and [out.append(in, pos, n)] at 64-bit positions. *)
Definition find_at (pat : string) (pos : Z) (s : string) : option Z :=
  Z.of_nat <$> find_str_from pat (Z.to_nat pos) s.
Definition sub_at (pos n : Z) (s : string) : string := substr (Z.to_nat pos) (Z.to_nat (Z.min n (size_of s))) s.

(** The size token of the chunk at [pos], and the position after its line. *)
Definition chunk_header (s : string) (pos : Z) : option (Z * Z) :=
  match find_at CRLF pos s with
  | None => None
  | Some crlf =>
      let size_str := sub_at pos (crlf - pos) s in
      let size_str := match find_char ";" size_str with
                      | Some ext => str_take ext size_str
                      | None => size_str
                      end in
      match stoul 16 size_str with
      | Ok n => Some (n, crlf + 2)
      | Throw _ => None
      end
  end.

Fixpoint decode_chunked_from (fuel : nat) (s : string) (pos : Z) (out : string) : result string :=
  match fuel with
  | O => Throw OutOfFuel
  | S fuel' =>
      if negb (pos <? size_of s) then Ok out else
      match chunk_header s pos with
      | None => Ok out
      | Some (chunk_size, pos) =>
          if chunk_size =? 0 then Ok out else
          if size_of s <? u64 (pos + chunk_size) then Ok out else
          decode_chunked_from fuel' s (u64 (pos + u64 (chunk_size + 2))) (out +:+ sub_at pos chunk_size s)
      end
  end.
Definition decode_chunked (s : string) : result string :=
  decode_chunked_from (S (String.length s)) s 0 "".

(** The trailing blanks dropped from a boundary. *)
Fixpoint trim_right (fuel : nat) (s : string) : string :=
  match fuel with
  | O => s
  | S fuel' =>
      match str_back s with
      | Some c => if Ascii.eqb c " " || Ascii.eqb c CR || Ascii.eqb c LF then trim_right fuel' (pop_back s) else s
      | None => s
      end
  end.

Definition multipart_boundary (ct : string) : string :=
  if negb (str_contains "multipart/form-data" ct) then "" else
  match find_str "boundary=" ct with
  | None => ""
  | Some pos =>
      let b := str_drop (pos + 9) ct in
      let b := match find_char ";" b with Some semi => str_take semi b | None => b end in
      trim_right (String.length b) b
  end.

(** The end of a multipart body that starts at [from]: after the closing boundary, and
    after the CRLF that follows it if there is one. *)
Definition multipart_end (boundary : string) (from : nat) (s : string) : option nat :=
  let terminal := "--" +:+ boundary +:+ "--" in
  match find_str_from terminal from s with
  | None => None
  | Some pos =>
      let fin := (pos + String.length terminal)%nat in
      Some (if str_eqb (substr fin 2 s) CRLF then (fin + 2)%nat else fin)
  end.

(** ** The request line *)

Fixpoint add_params (tokens : list string) (m : token_map) : result token_map :=
  match tokens with
  | [] => Ok m
  | token :: tokens' =>
      match find_char "=" token with
      | None => add_params tokens' m
      | Some eq =>
          v ← pct_decode (str_drop (eq + 1) token);
          k ← pct_decode (str_take eq token);
          add_params tokens' (add_element k v m)
      end
  end.

(** Method, path and query parameters. *)
Definition parse_uri (s : string) : result (string * string * token_map) :=
  let req := match find_str CRLF s with Some crlf => str_take crlf s | None => s end in
  match find_char " " req with
  | None => Ok ("", "", ∅)
  | Some first_sp =>
      let method := str_take first_sp req in
      let last_sp := default first_sp (rfind_char " " req) in
      let uri_part := if (first_sp <? last_sp)%nat
                      then substr (first_sp + 1) (last_sp - first_sp - 1) req
                      else str_drop (first_sp + 1) req in
      match find_char "?" uri_part with
      | None => path ← pct_decode uri_part; mret (method, path, ∅)
      | Some q =>
          path ← pct_decode (str_take q uri_part);
          m ← add_params (getlines "&" (str_drop (q + 1) uri_part)) ∅;
          mret (method, path, m)
      end
  end.

(** ** Framing *)

(** The last line with this exact key wins. *)
Definition last_field (key : string) (fields : list (string * string)) : string :=
  fold_left (fun acc kv => if str_eqb kv.1 key then kv.2 else acc) fields "".

Definition message_length (buf : string) : Z :=
  match find_str header_sep buf with
  | None => 0
  | Some sep_pos =>
      let header_len := (sep_pos + String.length header_sep)%nat in
      let fields := mime_fields (str_take header_len buf) in
      let cl := last_field "Content-Length" fields in
      if str_eqb (last_field "Transfer-Encoding" fields) "chunked" then
        let terminal := "0" +:+ header_sep in
        match find_str_from terminal header_len buf with
        | None => 0
        | Some end_pos => Z.of_nat (end_pos + String.length terminal)
        end
      else if negb (str_empty cl) then
        match stoul 10 cl with
        | Ok n => u64 (Z.of_nat header_len + n)
        | Throw _ => 0
        end
      else
        let boundary := multipart_boundary (last_field "Content-Type" fields) in
        if negb (str_empty boundary) then
          match multipart_end boundary header_len buf with
          | None => 0
          | Some fin => Z.of_nat fin
          end
        else Z.of_nat header_len
  end.

Section Http.
Context `{!Zlib}.

Fixpoint inflate_loop (fuel : nat) (zs : zstream) (out : string) : result string :=
  match fuel with
  | O => Throw OutOfFuel
  | S fuel' =>
      let '(ret, buf, zs) := inflate zs in
      if negb ((ret =? Z_OK) || (ret =? Z_STREAM_END)) then Ok "" else
      if ret =? Z_STREAM_END then Ok (out +:+ buf) else inflate_loop fuel' zs (out +:+ buf)
  end.

Definition decompress (s encoding : string) : result string :=
  let windowBits := if str_eqb encoding "gzip" then 15 + 16 else 15 + 32 in
  match inflateInit2 windowBits s with
  | None => Ok ""
  | Some zs => inflate_loop (S (inflate_calls s)) zs ""
  end.

Definition get_body (s header : string) (m : token_map) : result string :=
  let te := get_element "Transfer-Encoding" m in
  let ce := get_element "Content-Encoding" m in
  let cl := get_element "Content-Length" m in
  let ct := get_element "Content-Type" m in
  let offset := String.length header in
  raw ← (if str_eqb te "chunked" then decode_chunked (str_drop offset s)
         else if negb (str_empty cl) then
           if (0 <? offset)%nat then
             n ← stoul 10 cl; mret (sub_at (Z.of_nat offset) n s)
           else mret ""
         else
           let boundary := multipart_boundary ct in
           if str_empty boundary then mret "" else
           mret match multipart_end boundary offset s with
                | Some fin => substr offset (fin - offset) s
                | None => ""
                end);
  if negb (str_empty raw) && (str_eqb ce "gzip" || str_eqb ce "deflate")
  then decompress raw ce else mret raw.

(** The constructor. *)
Definition parse_http (s : string) : result Http :=
  let header := extract_header s in
  '(method, uri, params) ← (if str_empty header then mret ("", "", ∅) else parse_uri header);
  let m := if str_empty header then params else parse_mime_header header params in
  body ← get_body s header m;
  mret (mkHttp method uri m header body).
End Http.

Definition get (key : string) (h : Http) : string := get_element key (m_tokenMap h).

(** ** The receive loop *)

(** The complete requests at the head of the buffer, and what stays in it. *)
Fixpoint take_requests (fuel : nat) (buf : string) : option (list string * string) :=
  match fuel with
  | O => None
  | S fuel' =>
      if str_empty buf then Some ([], buf) else
      let len := message_length buf in
      if (len =? 0) || (size_of buf <? len) then Some ([], buf) else
      '(rs, rest) ← take_requests fuel' (str_drop (Z.to_nat len) buf);
      Some (str_take (Z.to_nat len) buf :: rs, rest)
  end.
Definition requests_of (buf : string) : option (list string * string) :=
  take_requests (S (String.length buf)) buf.

(** [handle_input]: the received bytes are appended and the complete requests served. *)
Definition handle_input (recv_buf bytes : string) : option (list string * string) :=
  requests_of (recv_buf +:+ bytes).
