(* ===== verification/HttpSpec.v ===== *)
(** What the HTTP parser guarantees, and where it does not: theorems about
    [MessageParser] and [HttpParser]. *)

From S2P Require Import Prelude MessageParser HttpParser.

#[local] Open Scope Z_scope.

(** ** Chunked bodies *)

Lemma chunk_header_at pre tok ext rest n :
  str_forallb (fun d => negb (Ascii.eqb d CR)) (tok +:+ ext) = true ->
  find_char ";" tok = None -> (ext = "" \/ exists e, ext = String ";" e) ->
  stoul 16 tok = Ok n ->
  chunk_header (pre +:+ tok +:+ ext +:+ CRLF +:+ rest) (size_of pre)
  = Some (n, size_of pre + size_of tok + size_of ext + 2).
Proof.
  intros Hcr Hsemi Hext Hn. unfold chunk_header, find_at, find_str_from, size_of. rewrite Nat2Z.id.
  rewrite str_drop_app_length, <- (str_app_assoc tok ext).
  unfold CRLF at 1. rewrite <- (str_app_nil_r (String LF "")) at 1.
  pose proof (find_str_skip CR (String LF "") (tok +:+ ext) rest Hcr) as Hf.
  change (String CR (String LF "")) with CRLF in Hf. rewrite str_app_nil_r.
  change (String CR (String LF "")) with CRLF. rewrite Hf. cbn [fmap option_fmap option_map].
  rewrite str_length_app.
  assert (Hsub : sub_at (Z.of_nat (String.length pre))
            (Z.of_nat (String.length pre + (String.length tok + String.length ext)) - Z.of_nat (String.length pre))
            (pre +:+ (tok +:+ ext) +:+ CRLF +:+ rest) = tok +:+ ext).
  { unfold sub_at, substr, size_of. rewrite Nat2Z.id, str_drop_app_length, !str_length_app.
    rewrite Z.min_l by lia.
    replace (Z.to_nat _) with (String.length (tok +:+ ext)) by (rewrite str_length_app; lia).
    apply str_take_app_length. }
  rewrite Hsub.
  assert (Htok : match find_char ";" (tok +:+ ext) with
                 | Some e => str_take e (tok +:+ ext) | None => tok +:+ ext end = tok).
  { destruct Hext as [->|[e ->]]; [by rewrite str_app_nil_r, Hsemi|].
    by rewrite (find_char_app _ _ _ Hsemi), str_take_app_length. }
  rewrite Htok, Hn. f_equal. f_equal. lia.
Qed.

(** A chunk: its size token, its extension and its data. *)
Record chunk := mkChunk { tok : string; ext : string; data : string }.

Definition chunk_ok (c : chunk) : Prop :=
  str_forallb (fun d => negb (Ascii.eqb d CR)) (tok c +:+ ext c) = true
  /\ find_char ";" (tok c) = None /\ (ext c = "" \/ exists e, ext c = String ";" e)
  /\ stoul 16 (tok c) = Ok (size_of (data c)) /\ data c <> "".

Definition chunk_bytes (c : chunk) : string := tok c +:+ ext c +:+ CRLF +:+ data c +:+ CRLF.
Definition concat_str (l : list string) : string := foldr String.append "" l.

Lemma size_of_app s t : size_of (s +:+ t) = size_of s + size_of t.
Proof. unfold size_of. rewrite str_length_app. lia. Qed.

Lemma chunked_step fuel pre c rest out :
  chunk_ok c -> size_of (pre +:+ chunk_bytes c +:+ rest) < 2 ^ 63 ->
  decode_chunked_from (S fuel) (pre +:+ chunk_bytes c +:+ rest) (size_of pre) out
  = decode_chunked_from fuel ((pre +:+ chunk_bytes c) +:+ rest) (size_of (pre +:+ chunk_bytes c)) (out +:+ data c).
Proof.
  intros (Hcr & Hsemi & Hext & Hn & Hne) Hsz. rewrite str_app_assoc. cbn [decode_chunked_from].
  assert (Hs : forall s, 0 <= size_of s) by (unfold size_of; lia).
  assert (Hd : 0 < size_of (data c)) by (unfold size_of; destruct (data c); [done|cbn; lia]).
  pose proof (Hs pre). pose proof (Hs (tok c)). pose proof (Hs (ext c)). pose proof (Hs rest).
  assert (Hshape : pre +:+ chunk_bytes c +:+ rest
            = pre +:+ tok c +:+ ext c +:+ CRLF +:+ (data c +:+ CRLF +:+ rest))
    by (unfold chunk_bytes; by rewrite !str_app_assoc).
  assert (Hlen : size_of (pre +:+ chunk_bytes c +:+ rest)
            = size_of pre + (size_of (tok c) + size_of (ext c) + 2 + size_of (data c) + 2) + size_of rest).
  { rewrite Hshape, !size_of_app. change (size_of CRLF) with 2. lia. }
  destruct (Z.ltb_spec (size_of pre) (size_of (pre +:+ chunk_bytes c +:+ rest))); [|lia]. cbn [negb].
  rewrite Hshape at 1. rewrite (chunk_header_at pre (tok c) (ext c) _ _ Hcr Hsemi Hext Hn).
  destruct (Z.eqb_spec (size_of (data c)) 0); [lia|].
  rewrite (u64_small (_ + size_of (data c))) by lia.
  destruct (Z.ltb_spec (size_of (pre +:+ chunk_bytes c +:+ rest))
              (size_of pre + size_of (tok c) + size_of (ext c) + 2 + size_of (data c))); [lia|].
  rewrite (u64_small (size_of (data c) + 2)) by lia. rewrite u64_small by lia. f_equal.
  - unfold chunk_bytes. rewrite !size_of_app. change (size_of CRLF) with 2. lia.
  - f_equal. rewrite Hshape. unfold sub_at, substr.
    replace (pre +:+ tok c +:+ ext c +:+ CRLF +:+ (data c +:+ CRLF +:+ rest))
      with ((pre +:+ tok c +:+ ext c +:+ CRLF) +:+ (data c +:+ CRLF +:+ rest)) by (by rewrite !str_app_assoc).
    replace (Z.to_nat (size_of pre + size_of (tok c) + size_of (ext c) + 2))
      with (String.length (pre +:+ tok c +:+ ext c +:+ CRLF))
      by (unfold size_of; rewrite !str_length_app; cbn; lia).
    rewrite str_drop_app_length, Z.min_l.
    + unfold size_of. by rewrite Nat2Z.id, str_take_app_length.
    + rewrite !size_of_app. change (size_of CRLF) with 2. lia.
Qed.

Lemma chunked_all fuel pre cs out :
  Forall chunk_ok cs ->
  let last := "0" +:+ CRLF +:+ CRLF in
  size_of (pre +:+ concat_str (map chunk_bytes cs) +:+ last) < 2 ^ 63 ->
  (List.length cs < fuel)%nat ->
  decode_chunked_from fuel (pre +:+ concat_str (map chunk_bytes cs) +:+ last) (size_of pre) out
  = Ok (out +:+ concat_str (map data cs)).
Proof.
  cbn zeta. intros Hcs. revert fuel pre out.
  induction Hcs as [|c cs Hc _ IH]; intros fuel pre out Hsz Hf; (destruct fuel as [|fuel]; [cbn in Hf; lia|]).
  - cbn [map concat_str foldr] in *. rewrite str_app_nil_l, str_app_nil_r in *. cbn [decode_chunked_from].
    destruct (Z.ltb_spec (size_of pre) (size_of (pre +:+ "0" +:+ CRLF +:+ CRLF))) as [_|Hle].
    2:{ rewrite size_of_app in Hle. change (size_of ("0" +:+ CRLF +:+ CRLF)) with 5 in Hle. lia. }
    cbn [negb].
    pose proof (chunk_header_at pre "0" "" CRLF 0) as Hh. rewrite str_app_nil_l in Hh.
    rewrite Hh; [done|done|done|by left|done].
  - cbn [map concat_str foldr] in *. fold (concat_str (map chunk_bytes cs)) (concat_str (map data cs)) in *.
    rewrite !str_app_assoc in *.
    rewrite chunked_step by done. rewrite IH; [by rewrite str_app_assoc| |cbn in Hf; lia].
    by rewrite str_app_assoc.
Qed.

(** ** Termination of the chunk loop *)

Lemma chunk_header_bounds s pos n p :
  0 <= pos -> chunk_header s pos = Some (n, p) -> pos + 2 <= p <= size_of s /\ 0 <= n < 2 ^ 64.
Proof.
  intros Hpos. unfold chunk_header, find_at, find_str_from.
  destruct (find_str CRLF (str_drop (Z.to_nat pos) s)) as [k|] eqn:Hf; [|done].
  apply find_str_bound in Hf. rewrite str_length_drop in Hf. change (String.length CRLF) with 2%nat in Hf.
  cbn [fmap option_fmap option_map].
  set (size_str := match find_char ";" _ with Some _ => _ | None => _ end).
  destruct (stoul 16 size_str) as [m|] eqn:Hm; [|done]. intros [= <- <-].
  apply stoul_range in Hm; [|done]. unfold size_of. lia.
Qed.

Lemma chunked_terminates fuel s pos out :
  (forall q n p, chunk_header s q = Some (n, p) -> n < 2 ^ 63) -> size_of s < 2 ^ 62 -> 0 <= pos ->
  size_of s - pos < Z.of_nat fuel -> (0 < fuel)%nat ->
  exists body, decode_chunked_from fuel s pos out = Ok body.
Proof.
  intros Hsmall Hsz. revert pos out. induction fuel as [|fuel IH]; intros pos out Hpos Hf H0; [lia|].
  cbn [decode_chunked_from]. destruct (Z.ltb_spec pos (size_of s)); cbn [negb]; [|by eexists].
  destruct (chunk_header s pos) as [[n p]|] eqn:Hh; [|by eexists].
  pose proof (Hsmall _ _ _ Hh). apply chunk_header_bounds in Hh as [Hp Hn]; [|done].
  destruct (Z.eqb_spec n 0); [by eexists|]. rewrite u64_small by lia.
  destruct (Z.ltb_spec (size_of s) (p + n)); [by eexists|].
  rewrite (u64_small (n + 2)) by lia. rewrite u64_small by lia. apply IH; lia.
Qed.

(** ** Stability of the framing *)

Lemma str_take_app_stable n s t : (n <= String.length s)%nat -> str_take n (s +:+ t) = str_take n s.
Proof. apply str_take_app_le. Qed.

Definition multipart_framed (buf : string) : bool :=
  match find_str header_sep buf with
  | None => false
  | Some sep_pos =>
      let fields := mime_fields (str_take (sep_pos + String.length header_sep) buf) in
      negb (str_eqb (last_field "Transfer-Encoding" fields) "chunked")
      && str_empty (last_field "Content-Length" fields)
      && negb (str_empty (multipart_boundary (last_field "Content-Type" fields)))
  end.

Lemma message_length_range buf : 0 <= message_length buf.
Proof.
  unfold message_length. repeat case_match; try lia; apply Z.mod_pos_bound; lia.
Qed.

Lemma message_length_stable buf t :
  multipart_framed buf = false -> message_length buf <> 0 -> message_length (buf +:+ t) = message_length buf.
Proof.
  unfold multipart_framed, message_length. destruct (find_str header_sep buf) as [p|] eqn:Hf; [|done].
  rewrite (find_str_app _ _ t _ Hf). pose proof (find_str_bound _ _ _ Hf) as Hb.
  rewrite str_take_app_stable by done. set (fields := mime_fields _).
  destruct (str_eqb _ "chunked"); cbn [negb andb].
  - intros _ Hne. destruct (find_str_from _ _ buf) as [e|] eqn:He; [|done].
    by rewrite (find_str_from_app _ _ _ t _ Hb He).
  - destruct (str_empty (last_field "Content-Length" fields)); cbn [negb andb]; [|done]. intros ->. done.
Qed.

Lemma multipart_framed_stable buf t :
  is_Some (find_str header_sep buf) -> multipart_framed (buf +:+ t) = multipart_framed buf.
Proof.
  intros [p Hf]. unfold multipart_framed. rewrite Hf, (find_str_app _ _ t _ Hf).
  by rewrite str_take_app_stable by (by apply find_str_bound in Hf).
Qed.

Lemma multipart_length buf :
  multipart_framed buf = true -> message_length buf <> 0 ->
  exists p, find_str header_sep buf = Some p
            /\ Z.of_nat (p + String.length header_sep) <= message_length buf.
Proof.
  unfold multipart_framed, message_length. destruct (find_str header_sep buf) as [p|] eqn:Hf; [|done].
  intros Hm Hne. exists p. split; [done|]. revert Hm Hne. set (fields := mime_fields _).
  destruct (str_eqb _ "chunked"), (str_empty (last_field "Content-Length" fields)); try done. cbn [negb andb].
  intros ->. unfold multipart_end, find_str_from.
  destruct (find_str _ (str_drop _ buf)) as [k|]; [|done]. cbn [fmap option_fmap option_map].
  intros _. case_match; lia.
Qed.

(** A pattern that lies in a prefix is found there. *)
Lemma find_str_take pat s n m :
  find_str pat s = Some n -> (n + String.length pat <= m)%nat -> find_str pat (str_take m s) = Some n.
Proof.
  revert n m. induction s as [|c s IH]; intros n m Hf Hm.
  - cbn [find_str] in Hf. destruct (String.prefix pat "") eqn:Hp; [|done]. injection Hf as <-.
    assert (str_take m "" = "") as -> by (by destruct m). cbn [find_str]. by rewrite Hp.
  - cbn [find_str] in Hf. destruct (String.prefix pat (String c s)) eqn:Hp.
    + injection Hf as <-. assert (Hpre : String.prefix pat (str_take m (String c s)) = true).
      { pose proof (prefix_length _ _ Hp) as Hl. rewrite <- (str_take_drop m (String c s)) in Hp.
        rewrite prefix_app in Hp; [done|]. rewrite str_length_take. lia. }
      destruct (str_take m (String c s)) eqn:Ht; cbn [find_str]; by rewrite Hpre.
    + destruct (find_str pat s) as [k|] eqn:Hk; [|done]. injection Hf as <-.
      destruct m as [|m]; [lia|]. cbn [str_take find_str].
      destruct (String.prefix pat (String c (str_take m s))) eqn:Hq.
      * pose proof (prefix_length _ _ Hq) as Hl.
        pose proof (prefix_app pat (String c (str_take m s)) (str_drop m s) Hl) as Hx.
        rewrite str_app_cons, str_take_drop in Hx. congruence.
      * by rewrite (IH k m eq_refl) by lia.
Qed.

(** ** Cutting the stream *)

Lemma take_requests_fuel f1 f2 buf :
  (String.length buf < f1)%nat -> (String.length buf < f2)%nat -> take_requests f1 buf = take_requests f2 buf.
Proof.
  revert f2 buf. induction f1 as [|f1 IH]; intros [|f2] buf H1 H2; try lia. cbn [take_requests].
  destruct (str_empty buf) eqn:He; [done|]. apply str_empty_false in He.
  destruct (Z.eqb_spec (message_length buf) 0); [done|].
  destruct (Z.ltb_spec (size_of buf) (message_length buf)); [done|]. cbn [orb].
  pose proof (message_length_range buf).
  rewrite (IH f2) by (rewrite str_length_drop; destruct buf; [done|cbn in *; lia]). done.
Qed.

Lemma requests_of_step buf :
  requests_of buf =
  if str_empty buf then Some ([], buf) else
  let len := message_length buf in
  if (len =? 0) || (size_of buf <? len) then Some ([], buf) else
  '(rs, rest) ← requests_of (str_drop (Z.to_nat len) buf);
  Some (str_take (Z.to_nat len) buf :: rs, rest).
Proof.
  unfold requests_of at 1. cbn [take_requests].
  destruct (str_empty buf) eqn:He; [done|]. apply str_empty_false in He. cbn zeta.
  destruct (Z.eqb_spec (message_length buf) 0); [done|].
  destruct (Z.ltb_spec (size_of buf) (message_length buf)); [done|]. cbn [orb].
  pose proof (message_length_range buf). unfold requests_of.
  erewrite take_requests_fuel; [done|..]; rewrite str_length_drop; destruct buf; try done; cbn; lia.
Qed.

Lemma requests_of_total buf : exists rs rest, requests_of buf = Some (rs, rest) /\ buf = concat_str rs +:+ rest.
Proof.
  remember (String.length buf) as n eqn:Hn. revert buf Hn. induction (Nat.lt_wf_0 n) as [n _ IH].
  intros buf ->. rewrite requests_of_step. destruct (str_empty buf) eqn:He; [by eexists _, _|].
  apply str_empty_false in He. cbn zeta.
  destruct (Z.eqb_spec (message_length buf) 0); [by eexists _, _|].
  destruct (Z.ltb_spec (size_of buf) (message_length buf)); [by eexists _, _|]. cbn [orb].
  pose proof (message_length_range buf).
  destruct (IH (String.length (str_drop (Z.to_nat (message_length buf)) buf))) with
    (buf := str_drop (Z.to_nat (message_length buf)) buf) as (rs & rest & Hr & Hc); [|done|].
  - rewrite str_length_drop. destruct buf; [done|]. cbn. lia.
  - rewrite Hr. eexists _, _. split; [done|]. cbn [concat_str foldr]. fold (concat_str rs).
    rewrite str_app_assoc, <- Hc. by rewrite str_take_drop.
Qed.

Definition plain (s : string) : Prop := multipart_framed s = false.
Definition all_plain (buf : string) : Prop :=
  forall rs rest, requests_of buf = Some (rs, rest) -> Forall plain rs /\ plain rest.

Lemma all_plain_head buf : all_plain buf -> plain buf.
Proof.
  intros Ha. unfold plain. destruct (multipart_framed buf) eqn:Hm; [|done].
  unfold all_plain in Ha. rewrite requests_of_step in Ha. cbn zeta in Ha.
  destruct (str_empty buf); [destruct (Ha _ _ eq_refl); congruence|].
  destruct (Z.eqb_spec (message_length buf) 0) as [Hz|Hz]; [destruct (Ha _ _ eq_refl); congruence|].
  destruct (Z.ltb_spec (size_of buf) (message_length buf)); [destruct (Ha _ _ eq_refl); congruence|].
  cbn [orb] in Ha. destruct (requests_of_total (str_drop (Z.to_nat (message_length buf)) buf)) as (rs & rest & Hr & _).
  rewrite Hr in Ha. destruct (Ha _ _ eq_refl) as [Hp _]. apply Forall_cons_1 in Hp as [Hp _].
  destruct (multipart_length buf Hm Hz) as (p & Hf & Hle).
  rewrite <- (str_take_drop (Z.to_nat (message_length buf)) buf) in Hm.
  rewrite multipart_framed_stable in Hm; [congruence|].
  exists p. apply find_str_take; [done|]. lia.
Qed.

Lemma requests_of_idle buf rs rest : requests_of buf = Some (rs, rest) -> requests_of rest = Some ([], rest).
Proof.
  remember (String.length buf) as n eqn:Hn. revert buf rs Hn. induction (Nat.lt_wf_0 n) as [n _ IH].
  intros buf rs -> Hr. pose proof Hr as Hr0. rewrite requests_of_step in Hr. cbn zeta in Hr.
  destruct (str_empty buf) eqn:He; [by injection Hr as <- <-|]. apply str_empty_false in He.
  destruct (Z.eqb_spec (message_length buf) 0); [by injection Hr as <- <-|].
  destruct (Z.ltb_spec (size_of buf) (message_length buf)); [by injection Hr as <- <-|]. cbn [orb] in Hr.
  pose proof (message_length_range buf).
  destruct (requests_of (str_drop _ buf)) as [[rs' rest']|] eqn:Hd; [|done]. injection Hr as <- <-.
  apply (IH (String.length (str_drop (Z.to_nat (message_length buf)) buf))) with (2 := eq_refl) (3 := Hd).
  rewrite str_length_drop. destruct buf; [done|]. cbn. lia.
Qed.

(** More bytes after what was cut already do not change it. *)
Lemma requests_of_app buf t rs rest :
  requests_of buf = Some (rs, rest) -> all_plain (buf +:+ t) ->
  exists rs' rest', requests_of (rest +:+ t) = Some (rs', rest')
                    /\ requests_of (buf +:+ t) = Some (rs ++ rs', rest').
Proof.
  remember (String.length buf) as n eqn:Hn. revert buf rs Hn. induction (Nat.lt_wf_0 n) as [n _ IH].
  intros buf rs -> Hr Ha.
  assert (Hidle : requests_of buf = Some ([], buf) -> exists rs' rest', requests_of (buf +:+ t) = Some (rs', rest')
            /\ requests_of (buf +:+ t) = Some ([] ++ rs', rest')).
  { intros _. destruct (requests_of_total (buf +:+ t)) as (rs' & rest' & H & _). by exists rs', rest'. }
  rewrite requests_of_step in Hr. cbn zeta in Hr.
  destruct (str_empty buf) eqn:He; [injection Hr as <- <-; apply Hidle; by rewrite requests_of_step, He|].
  apply str_empty_false in He as He'.
  destruct (Z.eqb_spec (message_length buf) 0) as [Hz|Hz].
  { injection Hr as <- <-. apply Hidle. rewrite requests_of_step, He. cbn zeta. by rewrite Hz. }
  destruct (Z.ltb_spec (size_of buf) (message_length buf)) as [Hlt|Hle].
  { injection Hr as <- <-. apply Hidle. rewrite requests_of_step, He. cbn zeta.
    apply Z.ltb_lt in Hlt. by rewrite Hlt, orb_true_r. }
  cbn [orb] in Hr. pose proof (message_length_range buf) as Hpos.
  destruct (requests_of (str_drop _ buf)) as [[rs0 rest0]|] eqn:Hd; [|done]. injection Hr as <- <-.
  assert (Hplain : multipart_framed buf = false).
  { pose proof (all_plain_head _ Ha) as Hp. unfold plain in Hp. destruct (multipart_framed buf) eqn:Hm; [|done].
    destruct (multipart_length buf Hm Hz) as (p & Hf & _). rewrite multipart_framed_stable in Hp by done. congruence. }
  pose proof (message_length_stable buf t Hplain Hz) as Hst.
  set (len := Z.to_nat (message_length buf)) in *.
  assert (Hll : (len <= String.length buf)%nat) by (unfold size_of in Hle; lia).
  assert (Hstep : forall q x, requests_of (str_drop len buf +:+ t) = Some (q, x) ->
            requests_of (buf +:+ t) = Some (str_take len buf :: q, x)).
  { intros q x Hq. rewrite requests_of_step.
    destruct (str_empty (buf +:+ t)) eqn:Het; [apply str_empty_true in Het; by destruct buf|]. cbn zeta.
    rewrite Hst. fold len. destruct (Z.eqb_spec (message_length buf) 0); [done|].
    destruct (Z.ltb_spec (size_of (buf +:+ t)) (message_length buf)).
    { rewrite size_of_app in *. assert (0 <= size_of t) by (unfold size_of; lia). lia. }
    cbn [orb]. rewrite str_drop_app_le by done. rewrite Hq. by rewrite str_take_app_le. }
  destruct (IH (String.length (str_drop len buf))) with (buf := str_drop len buf) (rs := rs0)
    as (rs' & rest' & H1 & H2); [rewrite str_length_drop; destruct buf; [done|cbn; lia]|done|done| |].
  - intros q x Hq. destruct (Ha _ _ (Hstep _ _ Hq)) as [Hf Hx]. by apply Forall_cons_1 in Hf as [_ Hf].
  - exists rs', rest'. split; [done|]. by rewrite (Hstep _ _ H2).
Qed.

Fixpoint receive (chunks : list string) (buf : string) : option (list string * string) :=
  match chunks with
  | [] => Some ([], buf)
  | c :: chunks' =>
      '(rs, rest) ← handle_input buf c;
      '(rs', rest') ← receive chunks' rest;
      Some (rs ++ rs', rest')
  end.

Lemma receive_concat chunks buf :
  requests_of buf = Some ([], buf) -> all_plain (buf +:+ concat_str chunks) ->
  receive chunks buf = requests_of (buf +:+ concat_str chunks).
Proof.
  revert buf. induction chunks as [|c cs IH]; intros buf Hidle Ha.
  - cbn [receive concat_str foldr]. by rewrite str_app_nil_r.
  - cbn [receive concat_str foldr] in *. fold (concat_str cs) in *. rewrite <- str_app_assoc in *.
    unfold handle_input. destruct (requests_of_total (buf +:+ c)) as (rs & rest & Hr & _). rewrite Hr. cbn [mbind option_bind].
    destruct (requests_of_app _ _ _ _ Hr Ha) as (rs' & rest' & H1 & H2). rewrite H2.
    rewrite IH; [by rewrite H1|by apply requests_of_idle in Hr|].
    intros q x Hq. rewrite H1 in Hq. injection Hq as <- <-.
    destruct (Ha _ _ H2) as [Hf Hx]. split; [|done]. by apply Forall_app in Hf as [_ Hf].
Qed.

(** * Properties *)

(** HTTP requests are cut out of the byte stream the same way however it is split
    into reads: [handle_input] on any chunks serves the requests, and keeps the
    incomplete rest, that cutting the whole stream at once gives, and every byte ends up
    in exactly one of them.  (Requests framed only by a multipart boundary are excluded:
    for those the end depends on whether the final CRLF has arrived.) *)
Theorem requests_reassemble chunks rs rest :
  requests_of (concat_str chunks) = Some (rs, rest) -> Forall plain rs -> plain rest ->
  receive chunks "" = Some (rs, rest) /\ concat_str chunks = concat_str rs +:+ rest.
Proof.
  intros Hr Hrs Hrest. split.
  - rewrite (receive_concat chunks "" eq_refl); [done|]. rewrite str_app_nil_l. intros q x Hq.
    rewrite Hr in Hq. by injection Hq as <- <-.
  - destruct (requests_of_total (concat_str chunks)) as (q & x & Hq & Hc). rewrite Hr in Hq. by injection Hq as <- <-.
Qed.

(** Chunked bodies decode to the concatenation of their chunks, with any spelling of
    the sizes [stoul] reads and any chunk extensions. *)
Theorem chunked_roundtrip cs :
  Forall chunk_ok cs ->
  let body := concat_str (map chunk_bytes cs) +:+ "0" +:+ CRLF +:+ CRLF in
  size_of body < 2 ^ 63 -> decode_chunked body = Ok (concat_str (map data cs)).
Proof.
  intros Hcs body Hsz. unfold decode_chunked.
  rewrite (chunked_all _ "" cs "" Hcs); [done|done|].
  assert (List.length cs <= String.length (concat_str (map chunk_bytes cs)))%nat.
  { clear. induction cs as [|c cs IH]; [done|]. cbn [map concat_str foldr List.length].
    fold (concat_str (map chunk_bytes cs)). unfold chunk_bytes at 1.
    rewrite !str_length_app. cbn [String.length CRLF]. lia. }
  unfold body. rewrite str_length_app. lia.
Qed.

(** A chunk size 20 short of 2^64, on a line of 22 bytes. *)
Definition wrap_body : string := "0000ffffffffffffffec" +:+ CRLF +:+ "0" +:+ CRLF +:+ CRLF.

(** When the chunk loop ends.  It returns on every body whose chunk sizes are below
    2^63; but the position is computed modulo 2^64, so a size just below 2^64 can send it
    back: on [wrap_body], a body [message_length] accepts as complete, no number of
    iterations is enough. *)
Theorem chunked_termination :
  (forall s, (forall q n p, chunk_header s q = Some (n, p) -> n < 2 ^ 63) -> size_of s < 2 ^ 62 ->
     exists body, decode_chunked s = Ok body)
  /\ (forall fuel, decode_chunked_from fuel wrap_body 0 "" = Throw OutOfFuel).
Proof.
  split.
  - intros s Hsmall Hsz. apply chunked_terminates; [done|done|lia|unfold size_of in *; lia|lia].
  - intros [|fuel]; [done|].
    assert (Hloop : forall fuel out, decode_chunked_from fuel wrap_body 4 out = Throw OutOfFuel).
    { clear. induction fuel as [|fuel IH]; intros out; [done|]. cbn [decode_chunked_from].
      change (chunk_header wrap_body 4) with (Some (2 ^ 64 - 20, 22)).
      change (negb (4 <? size_of wrap_body)) with false. cbv iota.
      change (2 ^ 64 - 20 =? 0) with false. change (size_of wrap_body <? u64 (22 + (2 ^ 64 - 20))) with false.
      cbv iota. change (u64 (22 + u64 (2 ^ 64 - 20 + 2))) with 4. apply IH. }
    cbn [decode_chunked_from].
    change (chunk_header wrap_body 0) with (Some (2 ^ 64 - 20, 22)).
    change (negb (0 <? size_of wrap_body)) with false. cbv iota.
    change (2 ^ 64 - 20 =? 0) with false. change (size_of wrap_body <? u64 (22 + (2 ^ 64 - 20))) with false.
    cbv iota. change (u64 (22 + u64 (2 ^ 64 - 20 + 2))) with 4. apply Hloop.
Qed.

Lemma add_element_keeps k v key value m : m !! k = Some v -> add_element key value m !! k = Some v.
Proof.
  intros Hk. unfold add_element. case_bool_decide as Hs; [done|].
  unfold token_map in *. rewrite lookup_insert_ne; [done|]. intros <-. apply Hs. by eexists.
Qed.

Lemma parse_mime_keeps s k v m : m !! k = Some v -> parse_mime_header s m !! k = Some v.
Proof.
  unfold parse_mime_header. revert m. induction (mime_fields s) as [|kv l IH]; intros m Hk; [done|].
  cbn [fold_left]. by apply IH, add_element_keeps.
Qed.

(** A query parameter shadows the header of the same name.  Parameters and headers
    share one map and the first entry stays, so whatever header the code asks a parsed
    request for, authorization and framing headers included, the URL's parameter answers
    when there is one. *)
Theorem query_shadows_header `{!Zlib} s h method uri params key v :
  parse_http s = Ok h -> extract_header s <> "" -> parse_uri (extract_header s) = Ok (method, uri, params) ->
  params !! to_lower key = Some v -> get key h = v.
Proof.
  intros Hp Hne Hu Hv. unfold parse_http in Hp. apply str_empty_false in Hne. rewrite Hne, Hu in Hp.
  cbn [mbind result_bind] in Hp. destruct (get_body _ _ _) as [body|]; [|done]. injection Hp as <-.
  unfold get, get_element. cbn [m_tokenMap]. by rewrite (parse_mime_keeps _ _ _ _ Hv).
Qed.

(** ** Percent encoding *)

Definition hex_digit (n : Z) : ascii := chr (if n <? 10 then 48 + n else 55 + n).
Definition unreserved (c : ascii) : bool :=
  is_digit c || ((97 <=? ord c) && (ord c <=? 122)) || ((65 <=? ord c) && (ord c <=? 90))
  || Ascii.eqb c "-" || Ascii.eqb c "." || Ascii.eqb c "_" || Ascii.eqb c "~".
Fixpoint pct_encode (s : string) : string :=
  match s with
  | EmptyString => ""
  | String c s' =>
      if unreserved c then String c (pct_encode s')
      else String "%" (String (hex_digit (ord c / 16)) (String (hex_digit (ord c mod 16)) (pct_encode s')))
  end.

Lemma hex_pair c : stoi 16 (String (hex_digit (ord c / 16)) (String (hex_digit (ord c mod 16)) "")) = Ok (ord c).
Proof. destruct c as [[] [] [] [] [] [] [] []]; by vm_compute. Qed.
Lemma unreserved_plain c : unreserved c = true -> Ascii.eqb c "+" = false /\ Ascii.eqb c "%" = false.
Proof. destruct c as [[] [] [] [] [] [] [] []]; by vm_compute. Qed.

Lemma pct_decode_percent a b s :
  pct_decode (String "%" (String a (String b s)))
  = (z ← stoi 16 (String a (String b "")); t ← pct_decode s; mret (String (chr z) t)).
Proof. done. Qed.

(** Percent decoding inverts the standard encoding of any bytes; where the two
    characters after a percent sign are no hexadecimal number it throws, and with it the
    request's constructor. *)
Theorem pct_roundtrip `{!Zlib} :
  (forall s, pct_decode (pct_encode s) = Ok s)
  /\ (forall a b s, stoi 16 (String a (String b "")) = Throw InvalidArgument ->
       pct_decode (String "%" (String a (String b s))) = Throw InvalidArgument)
  /\ parse_http ("GET /%zz HTTP/1.1" +:+ CRLF +:+ CRLF) = Throw InvalidArgument.
Proof.
  split; [|split; [|by vm_compute]].
  - induction s as [|c s IH]; [done|]. cbn [pct_encode]. destruct (unreserved c) eqn:Hu.
    + apply unreserved_plain in Hu as [H1 H2]. cbn [pct_decode]. by rewrite H1, H2, IH.
    + rewrite pct_decode_percent, hex_pair. cbn [mbind result_bind]. rewrite IH. cbn. by rewrite chr_ord.
  - intros a b s Hs. by rewrite pct_decode_percent, Hs.
Qed.

(** The framing of a request reads Content-Length by its exact spelling and computes
    modulo 2^64, the parser reads it in any case: a lower-case header is ignored by the
    framing but obeyed by the body; a negative length gives a frame shorter than the
    header. *)
Theorem content_length_framing :
  (forall buf p n, find_str header_sep buf = Some p ->
     let fields := mime_fields (str_take (p + 4) buf) in
     last_field "Transfer-Encoding" fields <> "chunked" ->
     last_field "Content-Length" fields <> "" ->
     stoul 10 (last_field "Content-Length" fields) = Ok n ->
     message_length buf = u64 (Z.of_nat (p + 4) + n))
  /\ (let lower := "POST /a HTTP/1.1" +:+ CRLF +:+ "content-length: 3" +:+ CRLF +:+ CRLF +:+ "abc" in
      message_length lower = size_of lower - 3)
  /\ (let negative := "POST /a HTTP/1.1" +:+ CRLF +:+ "Content-Length: -1" +:+ CRLF +:+ CRLF in
      message_length negative = size_of negative - 1).
Proof.
  split; [|split; by vm_compute].
  intros buf p n Hf fields Hte Hcl Hn. unfold message_length. rewrite Hf.
  change (String.length header_sep) with 4%nat. fold fields.
  apply str_eqb_neq in Hte. rewrite Hte. apply str_empty_false in Hcl. rewrite Hcl. cbn [negb]. by rewrite Hn.
Qed.

(** ** The theorems at work *)

Section Witnesses.
#[local] Instance no_zlib : Zlib :=
  {| zstream := unit; inflateInit2 _ _ := None; inflate z := (0, "", z); inflate_calls _ := O |}.

Definition ex_get : string := "GET /a?x=1 HTTP/1.1" +:+ CRLF +:+ "Host: h" +:+ CRLF +:+ CRLF.
Definition ex_post : string := "POST /b HTTP/1.1" +:+ CRLF +:+ "Content-Length: 2" +:+ CRLF +:+ CRLF +:+ "hi".

Lemma requests_reassemble_witness :
  receive [str_take 7 ex_get; str_drop 7 ex_get +:+ str_take 40 ex_post; str_drop 40 ex_post; "GE"] ""
  = Some ([ex_get; ex_post], "GE").
Proof. apply requests_reassemble; [by vm_compute|by repeat constructor|done]. Defined.

Lemma chunked_roundtrip_witness :
  decode_chunked ("5;a=b" +:+ CRLF +:+ "hello" +:+ CRLF +:+ "0a" +:+ CRLF +:+ "0123456789" +:+ CRLF
                  +:+ "0" +:+ CRLF +:+ CRLF) = Ok "hello0123456789".
Proof.
  apply (chunked_roundtrip [mkChunk "5" ";a=b" "hello"; mkChunk "0a" "" "0123456789"]); [|by vm_compute].
  constructor; [|constructor; [|done]].
  - unfold chunk_ok. split_and!; [by vm_compute..|right; by eexists|by vm_compute|done].
  - unfold chunk_ok. split_and!; [by vm_compute..|by left|by vm_compute|done].
Defined.

Definition ex_shadow : string :=
  "POST /b?content-length=2 HTTP/1.1" +:+ CRLF +:+ "Content-Length: 5" +:+ CRLF +:+ CRLF +:+ "abcde".

Lemma query_shadows_header_witness :
  exists h, parse_http ex_shadow = Ok h /\ get "Content-Length" h = "2" /\ m_body h = "ab".
Proof.
  destruct (parse_http ex_shadow) as [h|] eqn:Hp; [|by vm_compute in Hp]. exists h. split; [done|]. split.
  - refine (query_shadows_header ex_shadow h "POST" "/b" {["content-length" := "2"]} "Content-Length" "2" Hp _ _ _);
      by vm_compute.
  - vm_compute in Hp. by injection Hp as <-.
Defined.
End Witnesses.
