(* ===== verification/HttpHead.v ===== *)
(** The head of an HTTP message as the code prints it, line by line, and what the parsers
    read back from it.  Requests and answers that the code builds are [http_head]s. *)

From S2P Require Import Prelude SipFrame MessageParser HttpParser.

#[local] Open Scope Z_scope.

(** Lines, each with its CRLF, and the empty line. *)
Fixpoint http_head (lines : list string) : string :=
  match lines with
  | [] => CRLF
  | l :: ls => l +:+ CRLF +:+ http_head ls
  end.

Definition field (key value : string) : string := key +:+ ": " +:+ value.

(** A line of a head: not empty, and in one line. *)
Definition line_ok (l : string) : Prop := l <> "" /\ no_char CR l /\ no_char LF l.

Lemma no_char_forallb c s : no_char c s <-> str_forallb (fun d => negb (Ascii.eqb d c)) s = true.
Proof.
  unfold no_char. induction s as [|d s IH]; [done|]. cbn. destruct (Ascii.eqb d c); [done|]. cbn.
  rewrite <- IH. by destruct (find_char c s).
Qed.

Lemma line_ok_app s t : line_ok s -> no_char CR t -> no_char LF t -> line_ok (s +:+ t).
Proof.
  intros (Hs & H1 & H2) H3 H4. split; [|by split; apply no_char_app]. by destruct s.
Qed.

(** ** Finding the end of the head *)

Lemma find_str_over c pat s t :
  no_char c s -> find_str (String c pat) (s +:+ t) = Nat.add (String.length s) <$> find_str (String c pat) t.
Proof.
  unfold no_char. induction s as [|d s IH]; intros Hs; cbn in Hs.
  { rewrite str_app_nil_l. cbn. by destruct (find_str (String c pat) t). }
  destruct (Ascii.eqb d c) eqn:Hd; [done|]. apply Ascii.eqb_neq in Hd. destruct (find_char c s) eqn:Hf; [done|].
  rewrite str_app_cons. cbn [find_str String.prefix]. destruct (ascii_dec c d); [by subst|].
  rewrite IH by done. by destruct (find_str (String c pat) t).
Qed.

Lemma find_str_here pat t : find_str pat (pat +:+ t) = Some 0%nat.
Proof. pose proof (prefix_self pat t) as Hp. destruct (pat +:+ t); cbn [find_str]; by rewrite Hp. Qed.

Lemma find_sep_over s t :
  no_char CR s -> find_str header_sep (s +:+ t) = Nat.add (String.length s) <$> find_str header_sep t.
Proof. apply find_str_over. Qed.

Lemma http_head_length lines : (2 <= String.length (http_head lines))%nat.
Proof. destruct lines as [|l ls]; [done|]. cbn [http_head]. rewrite !str_length_app. cbn. lia. Qed.

Lemma find_sep_head l ls t :
  line_ok l -> Forall line_ok ls ->
  find_str header_sep (http_head (l :: ls) +:+ t) = Some (String.length (http_head (l :: ls)) - 4)%nat.
Proof.
  intros (_ & Hl & _) Hls. revert l Hl. induction Hls as [|l' ls Hl' Hls IH]; intros l Hl;
    cbn [http_head]; rewrite !str_app_assoc, find_sep_over by done.
  - cbn [http_head]. change (CRLF +:+ CRLF +:+ t) with (header_sep +:+ t).
    pose proof (find_str_here header_sep t) as Hp.
    rewrite Hp. cbn. f_equal. rewrite str_length_app. cbn. lia.
  - destruct Hl' as (Hne & Hcr & Hlf). specialize (IH l' Hcr). cbn [http_head] in IH.
    rewrite !str_app_assoc in IH. set (u := l' +:+ CRLF +:+ http_head ls +:+ t) in *.
    assert (Hu : find_str header_sep (CRLF +:+ u) = (fun n => S (S n)) <$> find_str header_sep u).
    { subst u. destruct l' as [|c l']; [done|]. cbn in Hcr. unfold no_char in Hcr. cbn in Hcr.
      destruct (Ascii.eqb c CR) eqn:Hc; [done|]. apply Ascii.eqb_neq in Hc. rewrite str_app_cons.
      set (v := l' +:+ _). change (CRLF +:+ String c v) with (String CR (String LF (String c v))).
      cbn [find_str header_sep CRLF String.append String.prefix].
      destruct (ascii_dec CR CR); [|done]. destruct (ascii_dec LF LF); [|done].
      destruct (ascii_dec CR c) as [<-|]; [done|]. destruct (ascii_dec CR LF); [done|].
      destruct (ascii_dec CR c); [done|]. by destruct (find_str _ v). }
    rewrite Hu, IH. cbn. f_equal. unfold CRLF. repeat (rewrite str_length_app; cbn [String.length String.append]).
    pose proof (http_head_length ls). lia.
Qed.

Lemma extract_head l ls t :
  line_ok l -> Forall line_ok ls -> extract_header (http_head (l :: ls) +:+ t) = http_head (l :: ls).
Proof.
  intros Hl Hls. unfold extract_header. rewrite find_sep_head by done.
  assert (H4 : (4 <= String.length (http_head (l :: ls)))%nat).
  { cbn [http_head]. rewrite !str_length_app. pose proof (http_head_length ls). cbn. lia. }
  change (String.length header_sep) with 4%nat. rewrite Nat.sub_add by done. apply str_take_app_length.
Qed.

(** ** The lines and the fields *)

Lemma getlines_aux_app d cur s t :
  no_char d s -> getlines_aux d cur (s +:+ String d t) = (cur +:+ s) :: getlines_aux d "" t.
Proof.
  unfold no_char. revert cur. induction s as [|c s IH]; intros cur Hs; cbn in *.
  - by rewrite str_app_nil_r, Ascii.eqb_refl.
  - destruct (Ascii.eqb c d) eqn:Hc; [done|]. destruct (find_char d s) eqn:Hf; [done|].
    rewrite IH by done. by rewrite str_app_assoc.
Qed.

Definition CR_line (l : string) : string := l +:+ String CR "".

Lemma getlines_head ls : Forall line_ok ls -> getlines LF (http_head ls) = map CR_line ls ++ [String CR ""].
Proof.
  unfold getlines. induction 1 as [|l ls (Hne & Hcr & Hlf) Hls IH]; [done|]. cbn [http_head map].
  replace (l +:+ CRLF +:+ http_head ls) with (CR_line l +:+ String LF (http_head ls))
    by (unfold CR_line; by rewrite str_app_assoc).
  rewrite getlines_aux_app; [by rewrite IH|]. unfold CR_line. by apply no_char_app.
Qed.

Lemma str_get_app_r s t n : String.get (String.length s + n) (s +:+ t) = String.get n t.
Proof. induction s as [|c s IH]; [done|]. cbn. exact IH. Qed.

Lemma strip_cr_line l : strip_cr (CR_line l) = l.
Proof.
  unfold strip_cr, str_back, pop_back, CR_line. rewrite str_length_app. cbn [String.length].
  replace (String.length l + 1 - 1)%nat with (String.length l + 0)%nat by lia. rewrite str_get_app_r. cbn.
  rewrite Nat.add_0_r. apply str_take_app_length.
Qed.

Lemma fields_of_head ls :
  Forall line_ok ls -> fields_of_lines (map CR_line ls ++ [String CR ""]) = omap field_of_line ls.
Proof.
  induction 1 as [|l ls (Hne & _) Hls IH]; [done|]. cbn [map app fields_of_lines]. rewrite strip_cr_line.
  apply str_empty_false in Hne. rewrite Hne, IH. cbn. by destruct (field_of_line l).
Qed.

Lemma mime_fields_head l ls :
  line_ok l -> Forall line_ok ls -> mime_fields (http_head (l :: ls)) = omap field_of_line ls.
Proof.
  intros Hl Hls. unfold mime_fields. rewrite getlines_head by by constructor. cbn [map app tail]. by apply fields_of_head.
Qed.

Lemma field_of_field key value : no_char ":" key -> field_of_line (field key value) = Some (key, value).
Proof.
  intros Hk. unfold field_of_line, field.
  change (key +:+ ": " +:+ value) with (key +:+ String ":" (String " " value)).
  rewrite find_char_app by done. rewrite str_take_app_length. do 2 f_equal.
  rewrite str_length_app. cbn [String.length]. destruct (Nat.leb_spec (String.length key + 2) (String.length key + S (S (String.length value)))); [|lia].
  rewrite <- str_drop_drop, str_drop_app_length. reflexivity.
Qed.

Lemma field_ok key value :
  key <> "" -> no_char CR key -> no_char LF key -> no_char CR value -> no_char LF value -> line_ok (field key value).
Proof.
  intros Hk H1 H2 H3 H4. unfold field. apply line_ok_app; [done|..]; by apply no_char_app.
Qed.

(** ** A request whose head has no body *)

Definition request_line (method path : string) : string := method +:+ " " +:+ path +:+ " HTTP/1.1".

Lemma rfind_char_none c s : no_char c s -> rfind_char c s = None.
Proof.
  unfold no_char. induction s as [|d s IH]; [done|]. cbn. destruct (Ascii.eqb d c); [done|].
  destruct (find_char c s); [done|]. intros _. by rewrite IH.
Qed.

Lemma rfind_char_app c s t : no_char c t -> rfind_char c (s +:+ String c t) = Some (String.length s).
Proof.
  intros Ht. induction s as [|d s IH]; [|by rewrite str_app_cons; cbn; rewrite IH].
  rewrite str_app_nil_l. cbn. by rewrite rfind_char_none, Ascii.eqb_refl.
Qed.

Lemma find_crlf_head l t : no_char CR l -> find_str CRLF (l +:+ CRLF +:+ t) = Some (String.length l).
Proof.
  intros Hl. change CRLF with (String CR (String LF "")) at 1. rewrite find_str_over by done.
  change (String CR (String LF "")) with CRLF. rewrite find_str_here. cbn. by rewrite Nat.add_0_r.
Qed.

Lemma parse_uri_line method path t :
  no_char " " method -> no_char "?" path -> pct_decode path = Ok path -> no_char CR (request_line method path) ->
  parse_uri (request_line method path +:+ CRLF +:+ t) = Ok (method, path, ∅).
Proof.
  intros Hm Hq Hp Hcr. unfold parse_uri. rewrite find_crlf_head by done. rewrite str_take_app_length.
  unfold request_line. change (method +:+ " " +:+ path +:+ " HTTP/1.1") with (method +:+ String " " (path +:+ " HTTP/1.1")).
  rewrite find_char_app, str_take_app_length by done.
  assert (Hr : rfind_char " " (method +:+ String " " (path +:+ " HTTP/1.1")) = Some (String.length method + S (String.length path))%nat).
  { replace (method +:+ String " " (path +:+ " HTTP/1.1")) with ((method +:+ String " " path) +:+ String " " "HTTP/1.1")
      by by rewrite str_app_assoc.
    rewrite rfind_char_app by done. by rewrite str_length_app. }
  rewrite Hr. cbn [default from_option id]. destruct (Nat.ltb_spec (String.length method) (String.length method + S (String.length path))); [|lia].
  unfold substr. rewrite str_drop_mid.
  replace (String.length method + S (String.length path) - String.length method - 1)%nat with (String.length path) by lia.
  rewrite str_take_app_length, Hq, Hp. done.
Qed.

Definition fields_map (ls : list string) : token_map :=
  fold_left (fun m kv => add_element kv.1 kv.2 m) (omap field_of_line ls) ∅.

(** No framing field: the body is empty and the head is the whole request. *)
Definition bodyless (ls : list string) : Prop :=
  Forall (fun k => get_element k (fields_map ls) = "") ["Transfer-Encoding"; "Content-Length"; "Content-Type"].

Lemma request_parsed `{!Zlib} method path ls rest :
  no_char " " method -> no_char "?" path -> pct_decode path = Ok path ->
  line_ok (request_line method path) -> Forall line_ok ls -> bodyless ls ->
  let head := http_head (request_line method path :: ls) in
  parse_http (head +:+ rest) = Ok (mkHttp method path (fields_map ls) head "").
Proof.
  intros Hm Hq Hp Hr Hls Hb head.
  assert (He : str_empty head = false) by (destruct Hr as (Hne & _); unfold head; cbn; by destruct (request_line method path)).
  assert (Hx : extract_header (head +:+ rest) = head) by by apply extract_head.
  assert (Hu : parse_uri head = Ok (method, path, ∅)) by (apply parse_uri_line; try done; apply Hr).
  assert (Hf : parse_mime_header head ∅ = fields_map ls) by (unfold parse_mime_header, head; by rewrite mime_fields_head).
  assert (Hbody : get_body (head +:+ rest) head (fields_map ls) = Ok "").
  { unfold bodyless in Hb. rewrite !list.Forall_cons in Hb. destruct Hb as (H1 & H2 & H3 & _).
    unfold get_body. by rewrite H1, H2, H3. }
  unfold parse_http. rewrite Hx, He, Hu. cbn [mbind result_bind]. by rewrite Hf, Hbody.
Qed.

Lemma bodyless_length l ls rest :
  line_ok l -> Forall line_ok ls ->
  Forall (fun k => last_field k (omap field_of_line ls) = "") ["Transfer-Encoding"; "Content-Length"; "Content-Type"] ->
  message_length (http_head (l :: ls) +:+ rest) = size_of (http_head (l :: ls)).
Proof.
  intros Hl Hls Hb. unfold message_length. rewrite find_sep_head by done.
  assert (H4 : (4 <= String.length (http_head (l :: ls)))%nat).
  { cbn [http_head]. rewrite !str_length_app. pose proof (http_head_length ls). cbn. lia. }
  change (String.length header_sep) with 4%nat. rewrite Nat.sub_add, str_take_app_length, mime_fields_head by done.
  rewrite !list.Forall_cons in Hb. destruct Hb as (H1 & H2 & H3 & _). rewrite H1, H2, H3. done.
Qed.

(** ** Looking a field up *)

(** The first field with this lower-case key. *)
Fixpoint first_field (k : string) (fields : list (string * string)) : option string :=
  match fields with
  | [] => None
  | kv :: fields' => if str_eqb (to_lower kv.1) k then Some kv.2 else first_field k fields'
  end.

Lemma add_element_lookup key value m k :
  add_element key value m !! k
  = match m !! k with Some v => Some v | None => if str_eqb (to_lower key) k then Some value else None end.
Proof.
  unfold add_element. cbv zeta. destruct (str_eqb (to_lower key) k) eqn:Hk.
  - apply str_eqb_eq in Hk. subst k. case_bool_decide as Hs; [by destruct Hs as [v ->]|].
    etransitivity; [apply lookup_insert_eq|]. destruct (m !! to_lower key) as [v|] eqn:Hm; [|done]. destruct Hs. by exists v.
  - apply str_eqb_neq in Hk. case_bool_decide; [by case_match|]. etransitivity; [by apply lookup_insert_ne|]. by case_match.
Qed.

Lemma fields_lookup fields m k :
  fold_left (fun m kv => add_element kv.1 kv.2 m) fields m !! k
  = match m !! k with Some v => Some v | None => first_field k fields end.
Proof.
  revert m. induction fields as [|kv fields IH]; intros m; cbn [fold_left first_field]; [by destruct (m !! k)|].
  rewrite IH, add_element_lookup. destruct (m !! k); [done|]. by destruct (str_eqb _ k).
Qed.

Lemma get_fields_map key ls :
  get_element key (fields_map ls) = default "" (first_field (to_lower key) (omap field_of_line ls)).
Proof. unfold get_element, fields_map. by rewrite fields_lookup. Qed.

(** ** Substrings *)

Lemma find_str_mid pat s t : is_Some (find_str pat (s +:+ pat +:+ t)).
Proof.
  induction s as [|c s IH]; [rewrite str_app_nil_l, find_str_here; by eexists|].
  rewrite str_app_cons. cbn [find_str]. destruct (String.prefix _ _); [by eexists|].
  destruct IH as [n ->]. by eexists.
Qed.

Lemma str_contains_mid pat s t : str_contains pat (s +:+ pat +:+ t) = true.
Proof. apply bool_decide_eq_true, find_str_mid. Qed.

(** ** Heads given by their fields *)

Definition field_lines (kvs : list (string * string)) : list string := map (fun kv => field kv.1 kv.2) kvs.
Definition field_pair_ok (kv : string * string) : Prop :=
  kv.1 <> "" /\ no_char ":" kv.1 /\ no_char CR kv.1 /\ no_char LF kv.1 /\ no_char CR kv.2 /\ no_char LF kv.2.

Lemma fields_of_lines_of kvs : Forall field_pair_ok kvs -> omap field_of_line (field_lines kvs) = kvs.
Proof.
  induction 1 as [|[k v] kvs (H1 & H2 & _) _ IH]; [done|]. cbn [fst] in H2.
  pose proof (field_of_field k v H2) as Hf. unfold field_lines in *. unfold field in Hf. cbn in *. by rewrite IH, Hf.
Qed.

Lemma field_lines_ok kvs : Forall field_pair_ok kvs -> Forall line_ok (field_lines kvs).
Proof.
  induction 1 as [|[k v] kvs (H1 & H2 & H3 & H4 & H5 & H6) _ IH]; [constructor|].
  unfold field_lines in *. cbn [map]. constructor; [by apply field_ok|exact IH].
Qed.

Definition framing_keys : list string := ["Transfer-Encoding"; "Content-Length"; "Content-Type"].

(** A request whose fields say nothing about a body: what the server's constructor makes
    of it, and the length it takes from the stream. *)
Lemma plain_request_parsed `{!Zlib} method path kvs rest :
  no_char " " method -> no_char "?" path -> pct_decode path = Ok path -> line_ok (request_line method path) ->
  Forall field_pair_ok kvs ->
  Forall (fun k => first_field (to_lower k) kvs = None) framing_keys ->
  Forall (fun k => last_field k kvs = "") framing_keys ->
  let head := http_head (request_line method path :: field_lines kvs) in
  (exists m, parse_http (head +:+ rest) = Ok (mkHttp method path m head "")
             /\ forall key, get_element key m = default "" (first_field (to_lower key) kvs))
  /\ message_length (head +:+ rest) = size_of head.
Proof.
  intros Hm Hq Hp Hr Hk Hf Hlast head. pose proof (field_lines_ok _ Hk) as Hl.
  assert (Hg : forall key, get_element key (fields_map (field_lines kvs)) = default "" (first_field (to_lower key) kvs)).
  { intros key. by rewrite get_fields_map, fields_of_lines_of. }
  split.
  - exists (fields_map (field_lines kvs)). split; [|exact Hg]. apply request_parsed; try done.
    unfold bodyless. eapply Forall_impl; [|exact Hf]. intros k Hnone. cbn beta. by rewrite Hg, Hnone.
  - apply bodyless_length; try done. by rewrite fields_of_lines_of.
Qed.
