(* ===== verification/Base64.v ===== *)
(** Base64 as the clients of the agent write it: [AriWsClient::base64_encode]
    (ari_ws_client.cpp) for the credentials, and [random_ws_key] (asterisk_ws_factory.cpp,
    ace_ssl_transport.cpp, ari_ws_client.cpp; the same code) for the WebSocket key.

    [base64_decode] is the reading of RFC 4648, the reference the two are compared with. *)

From S2P Require Import Prelude SipFrame.

#[local] Open Scope Z_scope.

Definition alpha : string := "ABCDEFGHIJKLMNOPQRSTUVWXYZabcdefghijklmnopqrstuvwxyz0123456789+/".
(** [alpha\[n & 0x3F\]]. *)
Definition letter (n : Z) : ascii := char_at (Z.to_nat (Z.land n 63)) alpha.

Fixpoint base64_encode (s : string) : string :=
  match s with
  | String c0 (String c1 (String c2 s')) =>
      let b0 := ord c0 in let b1 := ord c1 in let b2 := ord c2 in
      String (letter (Z.shiftr b0 2))
        (String (letter (Z.lor (Z.shiftl b0 4) (Z.shiftr b1 4)))
           (String (letter (Z.lor (Z.shiftl b1 2) (Z.shiftr b2 6)))
              (String (letter b2) (base64_encode s'))))
  | String c0 (String c1 "") =>
      let b0 := ord c0 in let b1 := ord c1 in
      String (letter (Z.shiftr b0 2))
        (String (letter (Z.lor (Z.shiftl b0 4) (Z.shiftr b1 4)))
           (String (letter (Z.shiftl b1 2)) "="))
  | String c0 "" =>
      let b0 := ord c0 in String (letter (Z.shiftr b0 2)) (String (letter (Z.shiftl b0 4)) "==")
  | "" => ""
  end.

(** One round of the loop of [random_ws_key] over the sixteen bytes. *)
Definition key_round (raw : string) (i : nat) : string :=
  let v := Z.shiftl (ord (char_at i raw)) 16 in
  let v := if (i + 1 <? 16)%nat then Z.lor v (Z.shiftl (ord (char_at (i + 1) raw)) 8) else v in
  let v := if (i + 2 <? 16)%nat then Z.lor v (ord (char_at (i + 2) raw)) else v in
  String (letter (Z.shiftr v 18))
    (String (letter (Z.shiftr v 12))
       (String (if (i + 1 <? 16)%nat then letter (Z.shiftr v 6) else "="%char)
          (String (if (i + 2 <? 16)%nat then letter v else "="%char) ""))).

(** The key from what [RAND_bytes] wrote; all zeros when it failed. *)
Definition random_ws_key (rand : option string) : string :=
  let raw := match rand with Some raw => raw | None => str_repeat "000" 16 end in
  fold_left (fun out i => out +:+ key_round raw i) [0; 3; 6; 9; 12; 15]%nat "".

(** ** The reference *)

Definition value_of (c : ascii) : option Z := Z.of_nat <$> find_char c alpha.

Fixpoint base64_decode (s : string) : option string :=
  match s with
  | "" => Some ""
  | String a (String b (String c (String d s'))) =>
      va ← value_of a; vb ← value_of b;
      let b0 := chr (va * 4 + vb / 16) in
      if Ascii.eqb c "=" then
        if Ascii.eqb d "=" && str_empty s' then Some (String b0 "") else None
      else
        vc ← value_of c;
        let b1 := chr (vb * 16 + vc / 4) in
        if Ascii.eqb d "=" then
          if str_empty s' then Some (String b0 (String b1 "")) else None
        else
          vd ← value_of d; t ← base64_decode s';
          Some (String b0 (String b1 (String (chr (vc * 64 + vd)) t)))
  | _ => None
  end.

(** ** Letters *)

Lemma letter_mod n : letter n = letter (n mod 64).
Proof. unfold letter. rewrite !(Z.land_ones _ 6) by lia. by rewrite Z.mod_mod. Qed.

(** What holds of the sixty-four values holds of every letter. *)
Lemma letters_forall (P : Z -> bool) n :
  forallb P (map Z.of_nat (seq 0 64)) = true -> 0 <= n < 64 -> P n = true.
Proof.
  rewrite forallb_forall. intros HP Hn. apply HP, in_map_iff. exists (Z.to_nat n).
  split; [lia|]. apply in_seq. lia.
Qed.

Lemma value_of_letter n : value_of (letter n) = Some (n mod 64).
Proof.
  rewrite letter_mod. set (m := n mod 64). assert (Hm : 0 <= m < 64) by (apply Z.mod_pos_bound; lia).
  pose proof (letters_forall (fun m => bool_decide (value_of (letter m) = Some m)) m eq_refl Hm) as Hb.
  by apply bool_decide_eq_true in Hb.
Qed.

Lemma letter_not_pad n : Ascii.eqb (letter n) "=" = false.
Proof.
  rewrite letter_mod. apply negb_true_iff.
  apply (letters_forall (fun m => negb (Ascii.eqb (letter m) "="))); [by vm_compute|].
  apply Z.mod_pos_bound. lia.
Qed.

(** The characters of an encoding: the alphabet and the padding. *)
Definition is_b64 (c : ascii) : bool := bool_decide (is_Some (find_char c alpha)) || Ascii.eqb c "=".
Lemma letter_is_b64 n : is_b64 (letter n) = true.
Proof.
  unfold is_b64. pose proof (value_of_letter n) as Hv. unfold value_of in Hv.
  by destruct (find_char (letter n) alpha).
Qed.

(** Three strings of bits side by side. *)
Lemma bits_join a b k : 0 <= k -> 0 <= b < 2 ^ k -> Z.lor (Z.shiftl a k) b = a * 2 ^ k + b.
Proof.
  intros Hk Hb. rewrite <- Z.shiftl_mul_pow2 by done.
  assert (Hz : Z.land (Z.shiftl a k) b = 0).
  { apply Z.bits_inj'. intros i Hi. rewrite Z.land_spec, Z.bits_0. destruct (Z.lt_ge_cases i k) as [Hlt|Hge].
    - by rewrite Z.shiftl_spec_low by lia.
    - rewrite <- (Z.mod_small b (2 ^ k)) by done. by rewrite Z.mod_pow2_bits_high, andb_false_r by lia. }
  rewrite <- Z.lxor_lor by done. symmetry. by apply Z.add_nocarry_lxor.
Qed.

Lemma join4 a c : Z.lor (Z.shiftl a 4) (Z.shiftr (ord c) 4) = a * 16 + ord c / 16.
Proof.
  rewrite Z.shiftr_div_pow2 by lia. pose proof (ord_range c). apply (bits_join a _ 4); [done|].
  split; [apply Z.div_pos; lia|apply Z.div_lt_upper_bound; lia].
Qed.
Lemma join2 a c : Z.lor (Z.shiftl a 2) (Z.shiftr (ord c) 6) = a * 4 + ord c / 64.
Proof.
  rewrite Z.shiftr_div_pow2 by lia. pose proof (ord_range c). apply (bits_join a _ 2); [done|].
  split; [apply Z.div_pos; lia|apply Z.div_lt_upper_bound; lia].
Qed.
Lemma shift_right2 a : Z.shiftr a 2 = a / 4.
Proof. by rewrite Z.shiftr_div_pow2. Qed.
Lemma shift_left4 a : Z.shiftl a 4 = a * 16.
Proof. by rewrite Z.shiftl_mul_pow2. Qed.
Lemma shift_left2 a : Z.shiftl a 2 = a * 4.
Proof. by rewrite Z.shiftl_mul_pow2. Qed.

Lemma chr_mod z c : z mod 256 = ord c -> chr z = c.
Proof. intros H. rewrite <- (chr_ord c), <- H. unfold chr. by rewrite Z.mod_mod. Qed.

(** The sextets of the letters give the bytes back. *)
Ltac sextets :=
  repeat f_equal; rewrite ?join4, ?join2, ?shift_right2, ?shift_left4, ?shift_left2;
  apply chr_mod; repeat match goal with |- context [ord ?c] => learn_range c end; Z.div_mod_to_equations; lia
with learn_range c :=
  lazymatch goal with
  | _ : (0 <= ord c < 256) |- _ => fail
  | _ => pose proof (ord_range c)
  end.

Lemma decode_one c0 : base64_decode (base64_encode (String c0 "")) = Some (String c0 "").
Proof.
  cbn [base64_encode base64_decode]. rewrite !value_of_letter. cbn [mbind option_bind].
  change (Ascii.eqb "=" "=") with true. cbn [str_empty andb]. sextets.
Qed.
Lemma decode_two c0 c1 : base64_decode (base64_encode (String c0 (String c1 ""))) = Some (String c0 (String c1 "")).
Proof.
  cbn [base64_encode base64_decode]. rewrite !value_of_letter, letter_not_pad. cbn [mbind option_bind].
  change (Ascii.eqb "=" "=") with true. cbn [str_empty]. sextets.
Qed.

(** Induction over a string three characters at a time. *)
Lemma three_ind (P : string -> Prop) :
  P "" -> (forall a, P (String a "")) -> (forall a b, P (String a (String b ""))) ->
  (forall a b c s, P s -> P (String a (String b (String c s)))) -> forall s, P s.
Proof.
  intros H0 H1 H2 H3. fix IH 1. intros [|a [|b [|c s]]]; [done|by apply H1|by apply H2|by apply H3, IH].
Qed.

Theorem base64_roundtrip s : base64_decode (base64_encode s) = Some s.
Proof.
  induction s as [|a|a b|a b c s IH] using three_ind; [done|apply decode_one|apply decode_two|].
  cbn [base64_encode base64_decode]. rewrite !value_of_letter, !letter_not_pad, IH. cbn [mbind option_bind].
  sextets.
Qed.

Lemma base64_chars s : str_forallb is_b64 (base64_encode s) = true.
Proof.
  induction s as [|a|a b|a b c s IH] using three_ind; [done|..]; cbn [base64_encode str_forallb];
    by rewrite !letter_is_b64, ?IH.
Qed.

Lemma base64_length s : String.length (base64_encode s) = (4 * ((String.length s + 2) / 3))%nat.
Proof.
  induction s as [|a|a b|a b c s IH] using three_ind; [done..|]. cbn [base64_encode String.length]. rewrite IH.
  replace (S (S (S (String.length s))) + 2)%nat with (String.length s + 2 + 1 * 3)%nat by lia.
  rewrite Nat.div_add by done. lia.
Qed.

(** ** The key *)

Lemma join3 a b c :
  Z.lor (Z.lor (Z.shiftl (ord a) 16) (Z.shiftl (ord b) 8)) (ord c) = ord a * 65536 + ord b * 256 + ord c.
Proof.
  pose proof (ord_range a). pose proof (ord_range b). pose proof (ord_range c).
  rewrite (bits_join (ord a) _ 16); [|lia|rewrite Z.shiftl_mul_pow2 by lia; lia].
  rewrite Z.shiftl_mul_pow2 by lia.
  replace (ord a * 2 ^ 16 + ord b * 2 ^ 8) with (Z.shiftl (ord a * 2 ^ 8 + ord b) 8)
    by (rewrite Z.shiftl_mul_pow2 by lia; lia).
  rewrite (bits_join _ _ 8) by lia. lia.
Qed.

Lemma spell m n s t : m mod 64 = n mod 64 -> s = t -> String (letter m) s = String (letter n) t.
Proof. intros H ->. by rewrite (letter_mod m), (letter_mod n), H. Qed.
Ltac spelling :=
  repeat (apply spell; [rewrite ?join4, ?join2, ?Z.shiftr_div_pow2, ?Z.shiftl_mul_pow2 by lia;
    repeat match goal with |- context [ord ?c] => learn_range c end; Z.div_mod_to_equations; lia|]); done.

Lemma key_round_three raw i :
  (i + 2 < 16)%nat ->
  key_round raw i
  = base64_encode (String (char_at i raw) (String (char_at (i + 1) raw) (String (char_at (i + 2) raw) ""))).
Proof.
  intros Hi. unfold key_round.
  destruct (Nat.ltb_spec (i + 1) 16); [|lia]. destruct (Nat.ltb_spec (i + 2) 16); [|lia].
  rewrite join3. cbn [base64_encode].
  spelling.
Qed.

Lemma key_round_last raw : key_round raw 15 = base64_encode (String (char_at 15 raw) "").
Proof.
  unfold key_round. cbn [Nat.add Nat.ltb Nat.leb base64_encode].
  spelling.
Qed.

(** The hand-written encoder of the key agrees with the encoder of the credentials. *)
Theorem ws_key_is_base64 raw :
  String.length raw = 16%nat -> random_ws_key (Some raw) = base64_encode raw.
Proof.
  intros Hl. do 16 (destruct raw as [|? raw]; [done|]). destruct raw as [|? raw]; [|done]. clear Hl.
  unfold random_ws_key. cbn [fold_left].
  rewrite key_round_last, !key_round_three by lia.
  reflexivity.
Qed.
