(* ===== verification/WsUpgrade.v ===== *)
(** The opening handshake of the WebSockets that the agents dial.

    The clients are [AsteriskStream] (asterisk_ws_factory.cpp), [AceSslTransport]
    (ace_ssl_transport.cpp), [AriWsClient] (ari_ws_client.cpp) and [WsDbAgent]
    (wsdbagent.cpp): they send a GET request with a fresh key, read the head of the answer
    byte by byte, at most 4096 of them, and check it.  The server's answer is in
    [WebConnection::handle_input] (webservice.cpp).

    OpenSSL's SHA-1 and Base64 filter are the class [Digest]. *)

From S2P Require Import Prelude SipFrame MessageParser HttpParser HttpHead Base64 WsConn WsHistory ClientSocket.

#[local] Open Scope Z_scope.

Class Digest := {
  sha1 : string -> string;
  bio_base64 : string -> string;
}.
(** What the documentation says of the two. *)
Class DigestLaws `{!Digest} : Prop := {
  sha1_length s : String.length (sha1 s) = 20%nat;
  bio_base64_rfc s : bio_base64 s = base64_encode s;
}.

Definition GUID : string := "258EAFA5-E914-47DA-95CA-C5AB0DC85B11".
Definition accept_key `{!Digest} (sec_websocket_key : string) : string := bio_base64 (sha1 (sec_websocket_key +:+ GUID)).

(** ** The requests: the bytes and the key *)

Definition upgrade_fields (host key : string) : list (string * string) :=
  [("Host", host); ("Upgrade", "websocket"); ("Connection", "Upgrade");
   ("Sec-WebSocket-Key", key); ("Sec-WebSocket-Version", "13")].
Definition get_request (path : string) (fields : list (string * string)) : string :=
  http_head (request_line "GET" path :: field_lines fields).

(** [AsteriskStream::build_upgrade_request], [AceSslTransport::build_upgrade_request],
    [AriWsClient::build_upgrade_request], and the request of [WsDbAgent], which takes its
    key from OpenSSL's Base64. *)
Definition asterisk_request (rand : option string) (host path : string) : string * string :=
  let key := random_ws_key rand in
  (get_request path (upgrade_fields host key ++ [("Sec-WebSocket-Protocol", "sip")]), key).

Definition transport_request (rand : option string) (host path : string) : string * string :=
  let key := random_ws_key rand in (get_request path (upgrade_fields host key), key).

Definition ari_request (rand : option string) (host app username password : string) : string * string :=
  let key := random_ws_key rand in
  let basic := base64_encode (username +:+ ":" +:+ password) in
  (get_request ("/ari/events?app=" +:+ app +:+ "&subscribeAll=true")
     (upgrade_fields host key ++ [("Authorization", "Basic " +:+ basic)]), key).

(** [RAND_bytes] that fails leaves sixteen bytes of the stack, [raw]. *)
Definition db_request `{!Digest} (raw host : string) : string * string :=
  let key := bio_base64 raw in (get_request "/ws/db" (upgrade_fields host key), key).

(** ** The answer *)

(** The server's head for an accepted upgrade. *)
Definition upgrade_answer `{!Digest} (key : string) : string :=
  http_head ["HTTP/1.1 101 Switching Protocols"; field "Upgrade" "websocket"; field "Connection" "Upgrade";
             field "Sec-WebSocket-Accept" (accept_key key)].

(** [headers.substr(headers.size() - 4) == CRLFCRLF], from four bytes on. *)
Definition ends_sep (headers : string) : bool :=
  (4 <=? String.length headers)%nat && str_eqb (str_drop (String.length headers - 4) headers) header_sep.

(** [validate_upgrade_response], the same code three times. *)
Definition validate_upgrade_response `{!Digest} (headers sec_websocket_key : string) : bool :=
  if negb (str_eqb (str_take 9 headers) "HTTP/1.1 ") && negb (str_eqb (str_take 9 headers) "HTTP/1.0 ") then false
  else if negb (str_contains " 101 " headers) && negb (str_eqb (substr 9 4 headers) "101 ") then false
  else str_contains (accept_key sec_websocket_key) headers.

(** What [WsDbAgent::connect_and_handshake] checks. *)
Definition validate_db_response `{!Digest} (headers key : string) : bool :=
  if negb (str_contains "101" headers) then false else str_contains (accept_key key) headers.

(** ** Dialling *)

(** The socket calls of the handshake that are not in [NetIO]. *)
Class NetDial (S : Type) := {
  net_connect : string -> Z -> S -> bool * S;
  net_recv1 : S -> option ascii * S;
}.

Section Dial.
Context {S : Type} `{!NetIO S} `{!NetDial S}.
Implicit Types (c : Conn S).

Definition on_net (s : S) c : Conn S := mkConn (m_handle c) (m_ping_timer c) s (log c).

(** An object that has not dialled: [m_handle] is [ACE_INVALID_HANDLE]. *)
Definition idle_conn (s : S) : Conn S := mkConn false None s [].

Definition recv1 c : option ascii * Conn S := let '(r, s) := net_recv1 (net c) in (r, on_net s c).

(** [while (headers.size() < 4096)]: the bytes that may still be read, and the head so
    far; [None] when the connection ended. *)
Fixpoint read_headers (left : nat) (headers : string) c : option string * Conn S :=
  match left with
  | O => (Some headers, c)
  | Datatypes.S left' =>
      match recv1 c with
      | (None, c) => (None, c)
      | (Some ch, c) =>
          let headers := headers +:+ String ch "" in
          if ends_sep headers then (Some headers, c) else read_headers left' headers c
      end
  end.
Definition max_headers : nat := 4096.

(** [connect_and_handshake] up to the answer's check, over the request and the check. *)
Definition dial (request : string * string) (validate : string -> string -> bool) (host : string) (port : Z) c :
    bool * Conn S :=
  let '(ok, s) := net_connect host port (net c) in
  if negb ok then (false, on_net s c) else
  let c := mkConn true (m_ping_timer c) s (log c) in
  let '(req, key) := request in
  let '(ok, c) := write req c in
  if negb ok then (false, shut c) else
  match read_headers max_headers "" c with
  | (None, c) => (false, shut c)
  | (Some headers, c) => if negb (validate headers key) then (false, shut c) else (true, c)
  end.
End Dial.

(** ** Reading the head *)

(** The bytes that will still arrive, in order, and that reading takes the first. *)
Class DialStream (S : Type) `{!NetIO S} `{!NetDial S} := {
  net_stream : S -> string;
  recv1_cons s c t : net_stream s = String c t -> (net_recv1 s).1 = Some c /\ net_stream (net_recv1 s).2 = t;
  recv1_nil s : net_stream s = "" -> (net_recv1 s).1 = None;
}.

Lemma find_str_at pat s n : find_str pat s = Some n -> String.prefix pat (str_drop n s) = true.
Proof.
  revert n. induction s as [|c s IH]; intros n; cbn [find_str]; destruct (String.prefix pat _) eqn:Hp; try done.
  - by intros [= <-].
  - by intros [= <-].
  - destruct (find_str pat s) as [m|]; [|done]. intros [= <-]. by apply IH.
Qed.

Lemma ends_sep_iff s : ends_sep s = true <-> exists t, s = t +:+ header_sep.
Proof.
  unfold ends_sep. rewrite andb_true_iff, str_eqb_eq. split.
  - intros [Hl He]. exists (str_take (String.length s - 4) s). rewrite <- He. by rewrite str_take_drop.
  - intros [t ->]. rewrite str_length_app. change (String.length header_sep) with 4%nat. split; [apply Nat.leb_le; lia|].
    rewrite Nat.add_sub. apply str_drop_app_length.
Qed.

(** The end of a head is seen exactly when its last byte arrives. *)
Lemma ends_sep_find h u n :
  find_str header_sep (h +:+ u) = Some n -> (String.length h <= n + 4)%nat ->
  ends_sep h = bool_decide (String.length h = n + 4)%nat.
Proof.
  intros Hn Hl. case_bool_decide as He.
  - apply ends_sep_iff. exists (str_take n h). pose proof (find_str_at _ _ _ Hn) as Hp. apply prefix_split in Hp.
    rewrite str_drop_app_le in Hp by lia. rewrite <- (str_take_drop n h) at 1. f_equal.
    change (String.length header_sep) with 4%nat in Hp.
    assert (Hd : String.length (str_drop n h) = 4%nat) by (rewrite str_length_drop; lia).
    apply (f_equal (str_take 4)) in Hp. rewrite <- Hd in Hp at 1. by rewrite str_take_app_length in Hp.
  - apply not_true_iff_false. rewrite ends_sep_iff. intros [t ->]. rewrite str_app_assoc in Hn.
    assert (Hle : (n <= String.length t)%nat).
    { clear -Hn. revert n Hn. induction t as [|c t IH]; intros n.
      - rewrite str_app_nil_l, find_str_here. by intros [= <-].
      - rewrite str_app_cons. cbn [find_str]. destruct (String.prefix _ _); [intros [= <-]; lia|].
        destruct (find_str header_sep _) as [m|]; [|done]. intros [= <-]. cbn. specialize (IH m eq_refl). lia. }
    rewrite str_length_app in *. change (String.length header_sep) with 4%nat in *. lia.
Qed.

Section Reading.
Context {S : Type} `{!NetIO S} `{!NetDial S} `{!DialStream S}.
Implicit Types (c : Conn S).

Lemma read_headers_upto left h c n :
  find_str header_sep (h +:+ net_stream (net c)) = Some n ->
  (String.length h < n + 4)%nat -> (n + 4 <= String.length h + left)%nat ->
  exists s, read_headers left h c = (Some (str_take (n + 4) (h +:+ net_stream (net c))), on_net s c)
            /\ net_stream s = str_drop (n + 4) (h +:+ net_stream (net c)).
Proof.
  revert h c. induction left as [|left IH]; intros h c Hn Hlo Hhi; [lia|]. cbn [read_headers]. unfold recv1.
  pose proof (find_str_bound _ _ _ Hn) as Hb. rewrite str_length_app in Hb. change (String.length header_sep) with 4%nat in Hb.
  destruct (net_stream (net c)) as [|ch t] eqn:Ht; [cbn in Hb; lia|].
  destruct (recv1_cons _ _ _ Ht) as [Hr Hs]. destruct (net_recv1 (net c)) as [r s]. cbn [fst snd] in Hr, Hs. subst r.
  set (h' := h +:+ String ch "").
  assert (Hw : h' +:+ t = h +:+ String ch t) by (unfold h'; by rewrite str_app_assoc).
  assert (Hl : String.length h' = (String.length h + 1)%nat) by (unfold h'; by rewrite str_length_app).
  rewrite <- Hw in Hn |- *. rewrite (ends_sep_find _ _ _ Hn) by lia. case_bool_decide as He.
  - exists s. rewrite <- He, str_take_app_length, str_drop_app_length. done.
  - destruct (IH h' (on_net s c)) as (s' & Hr' & Hs'); cbn [net on_net] in *; rewrite ?Hs in *; try lia; [done|].
    exists s'. by rewrite Hr'.
Qed.

(** The head of an answer is read whole, and no byte more. *)
Lemma read_headers_head c l ls rest :
  line_ok l -> Forall line_ok ls -> (String.length (http_head (l :: ls)) <= max_headers)%nat ->
  net_stream (net c) = http_head (l :: ls) +:+ rest ->
  exists s, read_headers max_headers "" c = (Some (http_head (l :: ls)), on_net s c) /\ net_stream s = rest.
Proof.
  intros Hl Hls Hm Hs. pose proof (find_sep_head l ls rest Hl Hls) as Hf.
  assert (H4 : (4 <= String.length (http_head (l :: ls)))%nat).
  { cbn [http_head]. rewrite !str_length_app. pose proof (http_head_length ls). cbn. lia. }
  destruct (read_headers_upto max_headers "" c (String.length (http_head (l :: ls)) - 4)) as (s & Hr & Hs').
  - by rewrite Hs.
  - cbn [String.length]. lia.
  - cbn [String.length]. lia.
  - exists s. rewrite Hr, Hs', Hs, str_app_nil_l, Nat.sub_add by done.
    by rewrite str_take_app_length, str_drop_app_length.
Qed.
End Reading.

(** ** The answer is accepted *)

Lemma b64_no_char c s : is_b64 c = false -> str_forallb is_b64 s = true -> no_char c s.
Proof.
  intros Hc Hs. apply no_char_forallb. revert Hs. apply str_forallb_impl. intros d Hd.
  destruct (Ascii.eqb_spec d c) as [->|]; [by rewrite Hd in Hc|done].
Qed.

Section Answer.
Context `{!Digest} `{!DigestLaws}.

Lemma accept_key_shape key :
  String.length (accept_key key) = 28%nat /\ no_char CR (accept_key key) /\ no_char LF (accept_key key).
Proof.
  unfold accept_key. rewrite bio_base64_rfc, base64_length, sha1_length.
  split_and!; [done|..]; by apply b64_no_char, base64_chars.
Qed.

Definition answer_fields (key : string) : list string :=
  [field "Upgrade" "websocket"; field "Connection" "Upgrade"; field "Sec-WebSocket-Accept" (accept_key key)].

Lemma answer_lines key : Forall line_ok (answer_fields key).
Proof. destruct (accept_key_shape key) as (_ & H1 & H2). repeat constructor; by apply field_ok. Qed.

Lemma answer_valid key :
  validate_upgrade_response (upgrade_answer key) key = true /\ validate_db_response (upgrade_answer key) key = true.
Proof.
  assert (Hc : str_contains (accept_key key) (upgrade_answer key) = true).
  { unfold upgrade_answer. cbn [http_head]. unfold field at 3.
    set (k := accept_key key). set (pre := "Sec-WebSocket-Accept" +:+ ": ").
    replace ("Sec-WebSocket-Accept" +:+ ": " +:+ k) with (pre +:+ k) by done.
    rewrite !str_app_assoc. rewrite <- !(str_app_assoc _ _ (k +:+ _)). apply str_contains_mid. }
  split.
  - unfold validate_upgrade_response. by rewrite Hc.
  - unfold validate_db_response. by rewrite Hc.
Qed.
End Answer.

(** ** The request is recognised *)

Definition rand_ok (rand : option string) : Prop :=
  match rand with Some raw => String.length raw = 16%nat | None => True end.

Lemma ws_key_shape rand :
  rand_ok rand -> let key := random_ws_key rand in key <> "" /\ no_char CR key /\ no_char LF key.
Proof.
  intros Hr key.
  assert (Hk : exists raw, String.length raw = 16%nat /\ key = base64_encode raw).
  { unfold key. destruct rand as [raw|]; [exists raw|exists (str_repeat "000" 16)]; by rewrite <- ws_key_is_base64. }
  destruct Hk as (raw & Hl & ->). split_and!; [|by apply b64_no_char, base64_chars..].
  intros He. pose proof (base64_length raw) as Hn. by rewrite He, Hl in Hn.
Qed.

Lemma upgrade_fields_ok host key :
  no_char CR host -> no_char LF host -> no_char CR key -> no_char LF key -> Forall field_pair_ok (upgrade_fields host key).
Proof. intros. repeat constructor; done. Qed.

(** The request of an agent as [WebConnection] reads it, and its length in the stream. *)
Lemma agent_request_parsed `{!Zlib} rand host path rest :
  rand_ok rand -> no_char CR host -> no_char LF host -> no_char "?" path -> pct_decode path = Ok path ->
  line_ok (request_line "GET" path) ->
  let '(req, key) := transport_request rand host path in
  (exists m, parse_http (req +:+ rest) = Ok (mkHttp "GET" path m req "") /\ get_element "sec-websocket-key" m = key)
  /\ key <> "" /\ message_length (req +:+ rest) = size_of req.
Proof.
  intros Hr H1 H2 Hq Hp Hl. unfold transport_request. destruct (ws_key_shape rand Hr) as (Hne & H3 & H4).
  set (key := random_ws_key rand) in *. clearbody key.
  destruct (plain_request_parsed "GET" path (upgrade_fields host key) rest) as [(m & Hm & Hg) Hlen]; try done.
  - by apply upgrade_fields_ok.
  - repeat constructor.
  - repeat constructor.
  - split_and!; [|done|exact Hlen]. exists m. split; [exact Hm|]. rewrite Hg. reflexivity.
Qed.

(** ** What dialling leaves behind *)

Section DialSpec.
Context {S : Type} `{!NetIO S} `{!NetDial S}.
Implicit Types (c : Conn S).

Lemma read_headers_conn left h c :
  m_handle (read_headers left h c).2 = m_handle c /\ log (read_headers left h c).2 = log c
  /\ m_ping_timer (read_headers left h c).2 = m_ping_timer c.
Proof.
  revert h c. induction left as [|left IH]; intros h c; [done|]. cbn [read_headers]. unfold recv1.
  destruct (net_recv1 (net c)) as [[ch|] s]; [|done]. destruct (ends_sep _); [done|]. apply (IH _ (on_net s c)).
Qed.

(** Whether dialling succeeded is whether the handle is valid; a socket that was opened
    for nothing was closed, once, and nothing was written to it but the request. *)
Lemma dial_outcome request validate host port c :
  m_handle c = false ->
  let '(ok, c') := dial request validate host port c in
  m_handle c' = ok /\ m_ping_timer c' = m_ping_timer c
  /\ exists ev, log c' = log c ++ ev
     /\ if ok then ev = [Sent request.1 true] else ev = [] \/ exists b, ev = [Sent request.1 b; SockClosed].
Proof.
  intros Hc. unfold dial. destruct (net_connect host port (net c)) as [[] s]; cbn [negb].
  2:{ cbn. split_and!; [done|done|]. exists []. rewrite app_nil_r. auto. }
  destruct request as [req key]. unfold write at 1. cbn [m_handle net log m_ping_timer fst].
  destruct (net_send req s) as [[] s']; cbn [negb].
  2:{ cbn. split_and!; [done|done|]. exists [Sent req false; SockClosed]. split; [by rewrite <- app_assoc|right; by eexists]. }
  set (c1 := mkConn true _ s' _). pose proof (read_headers_conn max_headers "" c1) as (H1 & H2 & H3).
  destruct (read_headers max_headers "" c1) as [[headers|] c2]; subst c1; cbn [snd m_handle log m_ping_timer] in *.
  2:{ unfold shut. rewrite H1. cbn. rewrite H2. split_and!; [done|done|].
      exists [Sent req true; SockClosed]. split; [by rewrite <- app_assoc|right; by eexists]. }
  destruct (validate headers key); cbn [negb].
  - split_and!; [done|done|]. exists [Sent req true]. by rewrite H2.
  - unfold shut. rewrite H1. cbn. rewrite H2. split_and!; [done|done|].
    exists [Sent req true; SockClosed]. split; [by rewrite <- app_assoc|right; by eexists].
Qed.

(** Against a peer that answers with a valid head, dialling succeeds and leaves in the
    socket what the peer sent after it. *)
Lemma dial_accepted `{!DialStream S} req key validate host port c l ls rest :
  (net_connect host port (net c)).1 = true ->
  (net_send req (net_connect host port (net c)).2).1 = true ->
  net_stream (net_send req (net_connect host port (net c)).2).2 = http_head (l :: ls) +:+ rest ->
  line_ok l -> Forall line_ok ls -> (String.length (http_head (l :: ls)) <= max_headers)%nat ->
  validate (http_head (l :: ls)) key = true ->
  exists c', dial (req, key) validate host port c = (true, c')
             /\ m_handle c' = true /\ net_stream (net c') = rest /\ log c' = log c ++ [Sent req true].
Proof.
  intros Hcon Hsend Hs Hl Hls Hm Hv. unfold dial. destruct (net_connect host port (net c)) as [ok s]. cbn [fst snd] in *.
  subst ok. cbn [negb]. unfold write at 1. cbn [m_handle net log m_ping_timer]. destruct (net_send req s) as [ok s'].
  cbn [fst snd] in *. subst ok. cbn [negb]. set (c1 := mkConn true _ s' _).
  destruct (read_headers_head c1 l ls rest) as (s2 & Hr & Hrest); try done.
  rewrite Hr, Hv. cbn [negb]. by exists (on_net s2 c1).
Qed.
End DialSpec.

(** ** What the check lets through *)

(** Any status passes when the answer names 101 somewhere and echoes the key. *)
Definition lax_answer `{!Digest} (key : string) : string :=
  http_head (["HTTP/1.1 403 Forbidden"; field "X-Ref" "a 101 b"; field "X-Echo" (accept_key key)]).

Lemma lax_answer_accepted `{!Digest} key : validate_upgrade_response (lax_answer key) key = true.
Proof.
  assert (Hc : str_contains (accept_key key) (lax_answer key) = true).
  { unfold lax_answer, field. cbn [http_head]. set (k := accept_key key).
    rewrite !str_app_assoc. rewrite <- !(str_app_assoc _ _ (k +:+ _)). apply str_contains_mid. }
  unfold validate_upgrade_response. by rewrite Hc.
Qed.

(** A socket that was dialled has a sound history, whether or not it was accepted. *)
Lemma conn_ok_dial {N} `{!NetIO N} `{!NetDial N} (req : string * string) validate host port (c : Conn N) :
  m_handle c = false -> log c = [] -> conn_ok (dial req validate host port c).2.
Proof.
  intros Hh Hl. pose proof (dial_outcome req validate host port c Hh) as Hd.
  destruct (dial req validate host port c) as [ok c']. destruct Hd as (Hh' & _ & ev & Hl' & He). rewrite Hl in Hl'. cbn [app] in Hl'.
  unfold conn_ok. cbn [snd]. rewrite Hh', Hl'. destruct ok.
  - left. rewrite He. cbn. by rewrite list_elem_of_singleton.
  - destruct He as [-> |[b ->]]; [by right|left]. exists [Sent req.1 b], []. rewrite list_elem_of_singleton.
    split_and!; try done. by apply not_elem_of_nil.
Qed.

(** A concrete network for examples: a server that accepts every connection with [head], and
    then delivers [script] read by read; [None] is the end of a connection. *)
Record Scripted := mkScripted { answer : string; head : string; script : list (option string); takes_handlers : bool }.
#[export] Instance scripted_net : NetIO Scripted := {|
  net_recv s := match script s with [] => (None, s) | r :: l => (r, mkScripted (answer s) (head s) l (takes_handlers s)) end;
  net_send _ s := (true, s); net_close s := s; net_register s := (takes_handlers s, s); net_unregister s := s;
  net_schedule _ s := (None, s); net_cancel _ s := s; net_mask_key s := (0, s); net_rand_bytes _ s := (None, s) |}.
#[export] Instance scripted_dial : NetDial Scripted := {|
  net_connect _ _ s := (true, mkScripted (head s) (head s) (script s) (takes_handlers s));
  net_recv1 s := match answer s with
                 | String c t => (Some c, mkScripted t (head s) (script s) (takes_handlers s))
                 | EmptyString => (None, s)
                 end |}.
