(* ===== verification/HttpExchange.v ===== *)
(** The exchange of the clients that make one request on a connection of its own: [do_request]
    of ari_rest_client.cpp and [post] of ace_https_client.cpp, which are the same code over
    another connection and another cap on the answer. *)

From S2P Require Import Prelude WsFrame WsStream SipFrame MessageParser HttpParser HttpSpec HttpHead Base64.
From S2P Require Import WsConn WsHistory ClientSocket WsUpgrade AgentEnv.

#[local] Open Scope Z_scope.

(** ** The answer *)

Definition no_response : Response := mkResponse 0 "".

Definition parse_response (raw : string) : Response :=
  match find_str CRLF raw with
  | None => no_response
  | Some eol =>
      let status_line := str_take eol raw in
      if negb (str_eqb (str_take 7 status_line) "HTTP/1.") then no_response else
      match find_char " " status_line with
      | None => no_response
      | Some sp1 =>
          let code := match find_char_from " " (sp1 + 1) status_line with
                      | None => str_drop (sp1 + 1) status_line
                      | Some sp2 => substr (sp1 + 1) (sp2 - sp1 - 1) status_line
                      end in
          match stoi 10 code with
          | Throw _ => no_response
          | Ok status =>
              match find_str header_sep raw with
              | None => mkResponse status ""
              | Some body_pos => mkResponse status (str_drop (body_pos + 4) raw)
              end
          end
      end
  end.

(** ** The connection *)

Section Exchange.
Context {N : Type} `{!NetIO N} `{!NetDial N}.
Implicit Types (c : Conn N).

(** The loop over [recv]: the answer, or [None] inside when it is too long; [None] outside
    when it is still running.  A read of no bytes is the end, like a failed one. *)
Fixpoint recv_all (cap : Z) (fuel : nat) (buf : string) c : option (option string * Conn N) :=
  match fuel with
  | O => None
  | S fuel' =>
      match read c with
      | (None, c) => Some (Some buf, c)
      | (Some chunk, c) =>
          if str_empty chunk then Some (Some buf, c)
          else if cap <? size_of buf + size_of chunk then Some (None, c)
          else recv_all cap fuel' (buf +:+ chunk) c
      end
  end.
(** Every round but the last adds a byte. *)
Definition recv_fuel (cap : Z) : nat := Z.to_nat (cap + 2).

Definition exchange (cap : Z) (host : string) (port : Z) (raw_request : string) (n : N) : option (Response * Conn N) :=
  let '(ok, s) := net_connect host port n in
  if negb ok then Some (no_response, on_net s (idle_conn n)) else
  let c := mkConn true None s [] in
  let '(ok, c) := write raw_request c in
  if negb ok then Some (no_response, shut c) else
  match recv_all cap (recv_fuel cap) "" c with
  | None => None
  | Some (None, c) => Some (no_response, shut c)
  | Some (Some buf, c) => Some (parse_response buf, shut c)
  end.
End Exchange.

(** ** A request is taken whole *)

Lemma framed_length l kvs b rest :
  line_ok l -> Forall field_pair_ok kvs ->
  last_field "Content-Length" kvs = to_string (size_of b) -> str_eqb (last_field "Transfer-Encoding" kvs) "chunked" = false ->
  size_of (http_head (l :: field_lines kvs) +:+ b) < 2 ^ 64 ->
  message_length ((http_head (l :: field_lines kvs) +:+ b) +:+ rest) = size_of (http_head (l :: field_lines kvs) +:+ b).
Proof.
  intros Hl Hf Hcl Hte Hsize. pose proof (field_lines_ok kvs Hf) as Hls. unfold message_length. rewrite str_app_assoc, find_sep_head by done.
  assert (Hl4 : (4 <= String.length (http_head (l :: field_lines kvs)))%nat)
    by (cbn [http_head]; rewrite !str_length_app; pose proof (http_head_length (field_lines kvs)); cbn; lia).
  change (String.length header_sep) with 4%nat. rewrite Nat.sub_add, str_take_app_length, mime_fields_head, fields_of_lines_of by done.
  rewrite size_of_app in *. rewrite Hcl, Hte. assert (He : str_empty (to_string (size_of b)) = false).
  { apply str_empty_false. intros E. pose proof (scan_to_string (size_of b) ltac:(unfold size_of; lia)) as Hs. by rewrite E in Hs. }
  rewrite He. cbn [negb]. unfold size_of in *. rewrite stoul_to_string by lia. rewrite u64_small by lia. done.
Qed.

(** ** The answer that was sent *)

Lemma no_char_one d c : Ascii.eqb c d = false -> no_char d (String c "").
Proof. intros Hc. unfold no_char. cbn [find_char]. by rewrite Hc. Qed.

Lemma find_char_from_none d s t : no_char d t -> find_char_from d (String.length s) (s +:+ t) = None.
Proof. intros Ht. unfold find_char_from. by rewrite str_drop_app_length, Ht. Qed.

Lemma to_string_no_blank st : 0 <= st -> no_char " " (to_string st).
Proof.
  intros Hs. pose proof (to_string_digits st Hs) as Hd. induction (to_string st) as [|c s IH]; [done|]. cbn in Hd.
  apply andb_prop in Hd as [Hc Hd]. unfold no_char in *. cbn. rewrite IH by done.
  destruct (Ascii.eqb_spec c " ") as [->|]; [by vm_compute in Hc|done].
Qed.

Lemma find_crlf_first l ls t : no_char CR l -> find_str CRLF (http_head (l :: ls) +:+ t) = Some (String.length l).
Proof. intros Hl. cbn [http_head]. rewrite !str_app_assoc. by apply find_crlf_head. Qed.

(** An answer: any HTTP/1 version, a status and a reason. *)
Definition status_line (minor : ascii) (status : Z) (reason : string) : string :=
  "HTTP/1." +:+ String minor (" " +:+ to_string status +:+ " " +:+ reason).

Lemma parse_answer minor st reason fields body :
  0 <= st < 2 ^ 31 -> minor <> " "%char -> line_ok (status_line minor st reason) -> Forall line_ok fields ->
  parse_response (http_head (status_line minor st reason :: fields) +:+ body) = mkResponse st body.
Proof.
  intros Hst Hmin Hl Hls. unfold parse_response. rewrite find_crlf_first by apply Hl.
  rewrite find_sep_head by done. set (h := http_head _).
  assert (Ht : str_take (String.length (status_line minor st reason)) (h +:+ body) = status_line minor st reason).
  { unfold h. cbn [http_head]. rewrite str_app_assoc. apply str_take_app_length. }
  rewrite Ht. set (pre := "HTTP/1." +:+ String minor "").
  assert (E : status_line minor st reason = pre +:+ String " " (to_string st +:+ String " " reason)) by done.
  assert (Hpre : no_char " " pre).
  { unfold pre. apply no_char_app; [done|]. apply no_char_one. by apply Ascii.eqb_neq. }
  assert (Hv : str_eqb (str_take 7 (status_line minor st reason)) "HTTP/1." = true) by done.
  rewrite Hv. cbn [negb]. rewrite E. rewrite find_char_app by done.
  assert (Hd : find_char_from " " (String.length pre + 1) (pre +:+ String " " (to_string st +:+ String " " reason))
               = Some (String.length pre + 1 + String.length (to_string st))%nat).
  { unfold find_char_from. rewrite str_drop_mid, find_char_app by (apply to_string_no_blank; lia). done. }
  rewrite Hd. unfold substr. rewrite str_drop_mid.
  replace (String.length pre + 1 + String.length (to_string st) - (String.length pre + 1))%nat with (String.length (to_string st)) by lia.
  replace (String.length pre + 1 + String.length (to_string st) - String.length pre - 1)%nat with (String.length (to_string st)) by lia.
  rewrite str_take_app_length, stoi_to_string by done. f_equal.
  assert (Hl4 : (4 <= String.length h)%nat)
    by (unfold h; cbn [http_head]; rewrite !str_length_app; pose proof (http_head_length fields); cbn; lia).
  fold (status_line minor st reason) in h.
  replace (String.length h - 4 + 4)%nat with (String.length h) by lia. apply str_drop_app_length.
Qed.

Section Delivery.
Context {N : Type} `{!NetIO N} `{!NetDial N}.
Implicit Types (c : Conn N).

(** The reads that the network will answer before it reports the end. *)
Inductive delivers : N -> list string -> N -> Prop :=
  | delivers_end s s' : net_recv s = (None, s') -> delivers s [] s'
  | delivers_chunk s chunk s1 chunks s' :
      net_recv s = (Some chunk, s1) -> chunk <> "" -> delivers s1 chunks s' -> delivers s (chunk :: chunks) s'.

Lemma size_of_nonempty s : s <> "" -> 1 <= size_of s.
Proof. unfold size_of. destruct s; [done|]. cbn. lia. Qed.

(** The loop ends: every round but the last adds a byte, and it stops at the cap. *)
Lemma recv_all_total cap fuel buf c :
  size_of buf <= cap -> cap - size_of buf + 1 < Z.of_nat fuel ->
  exists r c', recv_all cap fuel buf c = Some (r, c') /\ m_handle c' = m_handle c /\ log c' = log c.
Proof.
  revert buf c. induction fuel as [|fuel IH]; intros buf c Hb Hf; [lia|]. cbn [recv_all].
  assert (Hr : m_handle (read c).2 = m_handle c /\ log (read c).2 = log c).
  { unfold read. destruct (m_handle c) eqn:Hh; [|done]. by destruct (net_recv (net c)). }
  destruct (read c) as [[chunk|] c1]; cbn [snd] in Hr; destruct Hr as [Hr1 Hr2]; [|by do 2 eexists].
  destruct (str_empty chunk) eqn:He; [by do 2 eexists|]. apply str_empty_false, size_of_nonempty in He.
  destruct (Z.ltb_spec cap (size_of buf + size_of chunk)); [by do 2 eexists|].
  destruct (IH (buf +:+ chunk) c1) as (r & c' & -> & H1 & H2); [rewrite size_of_app; lia|rewrite size_of_app; lia|].
  exists r, c'. split; [done|]. split; congruence.
Qed.

Lemma recv_all_delivers cap fuel s chunks s' :
  delivers s chunks s' -> forall buf t l, size_of buf <= cap -> cap - size_of buf + 1 < Z.of_nat fuel ->
  exists s2, recv_all cap fuel buf (mkConn true t s l)
    = Some (if size_of buf + size_of (str_concat chunks) <=? cap then Some (buf +:+ str_concat chunks) else None, mkConn true t s2 l).
Proof.
  intros Hd. revert fuel. induction Hd as [s s' Hr|s chunk s1 chunks s' Hr Hne Hd IH]; intros fuel buf t l Hb Hf.
  - destruct fuel as [|fuel]; [lia|]. cbn [recv_all]. unfold read. cbn [m_handle net]. rewrite Hr. exists s'.
    cbn [str_concat fold_right]. rewrite str_app_nil_r. by destruct (Z.leb_spec (size_of buf + size_of "") cap); [|unfold size_of in *; cbn in *; lia].
  - destruct fuel as [|fuel]; [lia|]. cbn [recv_all]. unfold read. cbn [m_handle net]. rewrite Hr.
    pose proof (size_of_nonempty chunk Hne) as H1. apply str_empty_false in Hne. rewrite Hne.
    change (str_concat (chunk :: chunks)) with (chunk +:+ str_concat chunks). rewrite size_of_app.
    assert (H0 : 0 <= size_of (str_concat chunks)) by (unfold size_of; lia).
    destruct (Z.ltb_spec cap (size_of buf + size_of chunk)) as [Hlt|Hge].
    + exists s1. destruct (Z.leb_spec (size_of buf + (size_of chunk + size_of (str_concat chunks))) cap); [lia|done].
    + destruct (IH fuel (buf +:+ chunk) t l) as [s2 E]; [rewrite size_of_app; lia|rewrite size_of_app; lia|].
      exists s2. cbn [m_ping_timer log]. rewrite E, size_of_app, str_app_assoc, Z.add_assoc. done.
Qed.

Lemma exchange_spec cap host port raw n :
  0 <= cap ->
  let '(up, s) := net_connect host port n in
  (exists r c, exchange cap host port raw n = Some (r, c) /\ m_handle c = false
     /\ log c = if up then [Sent raw (net_send raw s).1; SockClosed] else [])
  /\ (up = true -> (net_send raw s).1 = true ->
      forall minor st reason fields body chunks s',
      0 <= st < 2 ^ 31 -> minor <> " "%char -> line_ok (status_line minor st reason) -> Forall line_ok fields ->
      delivers (net_send raw s).2 chunks s' ->
      str_concat chunks = http_head (status_line minor st reason :: fields) +:+ body ->
      fst <$> exchange cap host port raw n
      = Some (if size_of (str_concat chunks) <=? cap then mkResponse st body else no_response)).
Proof.
  intros H0. unfold exchange.
  destruct (net_connect host port n) as [[] s]; cbn [negb]; [|split; [by do 2 eexists|done]].
  unfold write. cbn [m_handle net log m_ping_timer]. destruct (net_send raw s) as [ok s1]. cbn [fst snd].
  assert (Hfuel : cap - size_of "" + 1 < Z.of_nat (recv_fuel cap)) by (unfold recv_fuel; rewrite Z2Nat.id; unfold size_of; cbn; lia).
  assert (Hcap : size_of "" <= cap) by done. generalize dependent (recv_fuel cap). intros fuel Hfuel. split.
  - destruct ok; cbn [negb]; [|by do 2 eexists].
    set (c1 := mkConn true None s1 _). destruct (recv_all_total cap fuel "" c1 Hcap Hfuel) as (r & c' & -> & Hh & Hl).
    assert (Hs : m_handle (shut c') = false /\ log (shut c') = [Sent raw true; SockClosed]).
    { unfold shut. rewrite Hh. cbn. rewrite Hl. by split. }
    destruct r as [buf|]; do 2 eexists; (split; [done|exact Hs]).
  - intros _ -> minor st reason fields body chunks s' Hst Hmin Hl Hls Hd Hc. cbn [negb].
    destruct (recv_all_delivers cap fuel _ _ _ Hd "" None [Sent raw true] Hcap Hfuel) as [s2 E].
    cbn [app] in *. rewrite E. rewrite str_app_nil_l. change (size_of "" + ?x) with x.
    destruct (size_of (str_concat chunks) <=? cap); [|done]. cbn. rewrite Hc. f_equal. by apply parse_answer.
Qed.
End Delivery.
