(* ===== verification/AriRest.v ===== *)
(** The agent's client of Asterisk's REST interface: ari_rest_client.cpp.

    Each method prints one HTTP request and sends it on a connection of its own
    ([HttpExchange] has the exchange).  [ari_call] (AgentEnv) has a constructor per method, so
    the client is a function on it. *)

From S2P Require Import Prelude SipFrame AgentEnv WsFrame WsStream WsConn WsHistory ClientSocket.
From S2P Require Import MessageParser HttpParser HttpSpec HttpHead Base64 WsUpgrade HttpExchange.

#[local] Open Scope Z_scope.

(** ** Percent encoding *)

(** [std::isalnum] in the C locale. *)
Definition is_unreserved (c : ascii) : bool :=
  is_digit c || ((97 <=? ord c) && (ord c <=? 122)) || ((65 <=? ord c) && (ord c <=? 90))
  || Ascii.eqb c "-" || Ascii.eqb c "_" || Ascii.eqb c "." || Ascii.eqb c "~".

(** A byte under [std::hex << std::uppercase]. *)
Definition hex_upper (n : Z) : string :=
  if n <? 16 then String (hex_digit n) "" else String (hex_digit (n / 16)) (String (hex_digit (n mod 16)) "").

Fixpoint url_encode (s : string) : string :=
  match s with
  | EmptyString => ""
  | String c s' =>
      if is_unreserved c then String c (url_encode s')
      else "%" +:+ (if ord c <? 16 then "0" else "") +:+ hex_upper (ord c) +:+ url_encode s'
  end.

(** ** The requests *)

Definition ari_fields (host basic_auth : string) : list (string * string) :=
  [("Host", host); ("Authorization", "Basic " +:+ basic_auth)].
(** A request without a body. *)
Definition ari_request_head (method target host basic_auth : string) : string :=
  http_head (request_line method target
             :: field_lines (ari_fields host basic_auth ++ [("Content-Length", "0"); ("Connection", "close")])).

Definition build_subscribe_request (app : string) (sources : list string) (host basic_auth : string) : string :=
  ari_request_head "POST"
    ("/ari/applications/" +:+ url_encode app +:+ "/subscription?"
     +:+ str_join "&" (map (fun s => "eventSource=" +:+ url_encode s) sources)) host basic_auth.

Definition build_continue_request (channel_id context extension : string) (priority : Z) (host basic_auth : string) : string :=
  ari_request_head "POST"
    ("/ari/channels/" +:+ url_encode channel_id +:+ "/continue" +:+ "?context=" +:+ url_encode context
     +:+ "&extension=" +:+ url_encode extension +:+ "&priority=" +:+ to_string priority) host basic_auth.

Definition build_originate_request (endpoint app app_args channel_id caller_id host basic_auth : string) : string :=
  ari_request_head "POST"
    ("/ari/channels" +:+ "?endpoint=" +:+ url_encode endpoint +:+ "&app=" +:+ url_encode app
     +:+ "&appArgs=" +:+ url_encode app_args +:+ "&channelId=" +:+ url_encode channel_id
     +:+ "&formats=" +:+ url_encode "opus,ulaw,alaw"
     +:+ (if negb (str_empty caller_id) then "&callerId=" +:+ url_encode caller_id else "")) host basic_auth.

Definition build_create_bridge_request (bridge_id type host basic_auth : string) : string :=
  ari_request_head "POST"
    ("/ari/bridges" +:+ "?type=" +:+ url_encode type +:+ "&bridgeId=" +:+ url_encode bridge_id) host basic_auth.

Definition build_add_channel_request (bridge_id channel_id host basic_auth : string) : string :=
  ari_request_head "POST"
    ("/ari/bridges/" +:+ url_encode bridge_id +:+ "/addChannel" +:+ "?channel=" +:+ url_encode channel_id) host basic_auth.

Definition build_hangup_request (channel_id reason host basic_auth : string) : string :=
  ari_request_head "DELETE" ("/ari/channels/" +:+ url_encode channel_id +:+ "?reason=" +:+ url_encode reason) host basic_auth.

Definition build_answer_request (channel_id host basic_auth : string) : string :=
  ari_request_head "POST" ("/ari/channels/" +:+ url_encode channel_id +:+ "/answer") host basic_auth.

Definition build_get_endpoint_request (tech resource host basic_auth : string) : string :=
  ari_request_head "GET" ("/ari/endpoints/" +:+ url_encode tech +:+ "/" +:+ url_encode resource) host basic_auth.

Definition build_list_endpoints_request (tech host basic_auth : string) : string :=
  ari_request_head "GET" ("/ari/endpoints/" +:+ url_encode tech) host basic_auth.

Definition config_target (cfg_class obj_type id : string) : string :=
  "/ari/asterisk/config/dynamic/" +:+ url_encode cfg_class +:+ "/" +:+ url_encode obj_type +:+ "/" +:+ url_encode id.

Definition build_create_dynamic_config_request (cfg_class obj_type id fields_json host basic_auth : string) : string :=
  http_head (request_line "PUT" (config_target cfg_class obj_type id)
             :: field_lines (ari_fields host basic_auth
                  ++ [("Content-Type", "application/json"); ("Content-Length", to_string (size_of fields_json)); ("Connection", "close")]))
  +:+ fields_json.

Definition build_delete_dynamic_config_request (cfg_class obj_type id host basic_auth : string) : string :=
  ari_request_head "DELETE" (config_target cfg_class obj_type id) host basic_auth.

(** The methods: the request of each. *)
Definition build (host basic_auth : string) (c : ari_call) : string :=
  match c with
  | Subscribe app sources => build_subscribe_request app sources host basic_auth
  | ContinueInDialplan channel context extension priority =>
      build_continue_request channel context extension priority host basic_auth
  | Originate endpoint app app_args channel caller_id =>
      build_originate_request endpoint app app_args channel caller_id host basic_auth
  | CreateBridge bridge type => build_create_bridge_request bridge type host basic_auth
  | AddChannel bridge channel => build_add_channel_request bridge channel host basic_auth
  | Hangup channel reason => build_hangup_request channel reason host basic_auth
  | Answer channel => build_answer_request channel host basic_auth
  | GetEndpoint tech resource => build_get_endpoint_request tech resource host basic_auth
  | ListEndpoints tech => build_list_endpoints_request tech host basic_auth
  | CreateDynamicConfig cls typ id fields => build_create_dynamic_config_request cls typ id fields host basic_auth
  | DeleteDynamicConfig cls typ id => build_delete_dynamic_config_request cls typ id host basic_auth
  end.

(** ** The connection *)

Record AriRestConfig := mkAriRestConfig { rest_host : string; rest_port : Z; rest_username : string; rest_password : string }.

Definition kMaxResponse : Z := 1024 * 1024.

Section Request.
Context {N : Type} `{!NetIO N} `{!NetDial N}.

Definition do_request (cfg : AriRestConfig) (raw_request : string) (n : N) : option (Response * Conn N) :=
  exchange kMaxResponse (rest_host cfg) (rest_port cfg) raw_request n.

(** A method of the client. *)
Definition perform (cfg : AriRestConfig) (call : ari_call) (n : N) : option (Response * Conn N) :=
  let basic := base64_encode (rest_username cfg +:+ ":" +:+ rest_password cfg) in
  do_request cfg (build (rest_host cfg) basic call) n.
End Request.

(** * What the client of Asterisk's REST interface guarantees: a request says which call it is
    and with which arguments, whatever bytes these hold; the server finds its end; and the
    answer is the one that was sent, however it was cut. *)

(** ** Percent encoding *)

(** The characters that an encoded string is made of. *)
Definition is_encoded (c : ascii) : bool := is_unreserved c || Ascii.eqb c "%".

Lemma hex_upper_encoded c : str_forallb is_encoded ((if ord c <? 16 then "0" else "") +:+ hex_upper (ord c)) = true.
Proof. destruct c as [[] [] [] [] [] [] [] []]; by vm_compute. Qed.
Lemma hex_upper_pair c :
  (if ord c <? 16 then "0" else "") +:+ hex_upper (ord c) = String (hex_digit (ord c / 16)) (String (hex_digit (ord c mod 16)) "").
Proof. destruct c as [[] [] [] [] [] [] [] []]; by vm_compute. Qed.

Lemma str_forallb_app p s t : str_forallb p (s +:+ t) = str_forallb p s && str_forallb p t.
Proof. induction s as [|c s IH]; [done|]. rewrite str_app_cons. cbn. by rewrite IH, andb_assoc. Qed.

Lemma url_encode_chars s : str_forallb is_encoded (url_encode s) = true.
Proof.
  induction s as [|c s IH]; [done|]. cbn [url_encode]. destruct (is_unreserved c) eqn:Hc.
  - cbn. unfold is_encoded at 1. by rewrite Hc, IH.
  - rewrite <- (str_app_assoc _ (hex_upper _)). rewrite str_forallb_app, str_forallb_app, hex_upper_encoded, IH. done.
Qed.

Lemma encoded_no_char d s : is_encoded d = false -> str_forallb is_encoded s = true -> no_char d s.
Proof.
  intros Hd Hs. apply no_char_forallb. eapply str_forallb_impl; [|exact Hs]. intros c Hc. cbn.
  destruct (Ascii.eqb_spec c d) as [->|]; [congruence|done].
Qed.
Lemma url_encode_no_char d s : is_encoded d = false -> no_char d (url_encode s).
Proof. intros Hd. apply encoded_no_char; [done|apply url_encode_chars]. Qed.

Lemma unreserved_decoded c : is_unreserved c = true -> Ascii.eqb c "+" = false /\ Ascii.eqb c "%" = false.
Proof. destruct c as [[] [] [] [] [] [] [] []]; by vm_compute. Qed.

(** What the server decodes is what was encoded. *)
Lemma url_encode_decode s : pct_decode (url_encode s) = Ok s.
Proof.
  induction s as [|c s IH]; [done|]. cbn [url_encode]. destruct (is_unreserved c) eqn:Hu.
  - apply unreserved_decoded in Hu as [H1 H2]. cbn [pct_decode]. by rewrite H1, H2, IH.
  - rewrite <- (str_app_assoc _ (hex_upper _)), hex_upper_pair.
    change ("%" +:+ String ?a (String ?b "") +:+ ?t) with (String "%" (String a (String b t))).
    rewrite pct_decode_percent, hex_pair. cbn [mbind result_bind]. rewrite IH. cbn. by rewrite chr_ord.
Qed.
Lemma url_encode_inj s t : url_encode s = url_encode t -> s = t.
Proof. intros He. pose proof (url_encode_decode s) as H1. rewrite He, url_encode_decode in H1. by injection H1. Qed.

Lemma url_encode_plain s : str_forallb is_unreserved s = true -> url_encode s = s.
Proof. induction s as [|c s IH]; [done|]. cbn. intros [Hc Hs]%andb_prop. by rewrite Hc, IH. Qed.

Lemma to_string_unreserved z : str_forallb is_unreserved (to_string z) = true.
Proof.
  assert (Hd : forall n, 0 <= n -> str_forallb is_unreserved (to_string n) = true).
  { intros n Hn. eapply str_forallb_impl; [|by apply to_string_digits]. intros c Hc. unfold is_unreserved. by rewrite Hc. }
  destruct (Z.le_gt_cases 0 z) as [Hz|Hz]; [by apply Hd|]. destruct z as [|p|p]; [lia|lia|].
  assert (E : to_string (Z.neg p) = "-" +:+ to_string (Z.pos p)) by done.
  rewrite E, str_forallb_app, Hd by lia. done.
Qed.

(** ** The structure of a request *)

Lemma first_split_inj d a b a' b' :
  no_char d a -> no_char d a' -> a +:+ String d b = a' +:+ String d b' -> a = a' /\ b = b'.
Proof.
  intros Ha Ha' He. pose proof (find_char_app d a b Ha) as Hf. rewrite He, find_char_app in Hf by done. injection Hf as Hl.
  assert (Ea : a = a').
  { rewrite <- (str_take_app_length a (String d b)), He, <- Hl. apply str_take_app_length. }
  split; [exact Ea|]. subst a'. apply str_app_inj_l in He. by injection He.
Qed.

Record shape := mkShape {
  sh_method : string;
  sh_segments : list string;
  sh_query : option (list (string * string));
  sh_body : option string;
}.

Definition print_param (kv : string * string) : string := url_encode kv.1 +:+ "=" +:+ url_encode kv.2.
Definition print_path (segs : list string) : string := "/" +:+ str_join "/" (map url_encode segs).
Definition print_query (q : option (list (string * string))) : string :=
  match q with None => "" | Some kvs => "?" +:+ str_join "&" (map print_param kvs) end.
Definition length_fields (b : option string) : list (string * string) :=
  match b with
  | None => [("Content-Length", "0"); ("Connection", "close")]
  | Some b => [("Content-Type", "application/json"); ("Content-Length", to_string (size_of b)); ("Connection", "close")]
  end.
Definition print_shape (host basic : string) (sh : shape) : string :=
  http_head (request_line (sh_method sh) (print_path (sh_segments sh) +:+ print_query (sh_query sh))
             :: field_lines (ari_fields host basic ++ length_fields (sh_body sh)))
  +:+ default "" (sh_body sh).

Definition shape_of (c : ari_call) : shape :=
  match c with
  | Subscribe app sources =>
      mkShape "POST" ["ari"; "applications"; app; "subscription"] (Some (map (pair "eventSource") sources)) None
  | ContinueInDialplan channel context extension priority =>
      mkShape "POST" ["ari"; "channels"; channel; "continue"]
        (Some [("context", context); ("extension", extension); ("priority", to_string priority)]) None
  | Originate endpoint app app_args channel caller_id =>
      mkShape "POST" ["ari"; "channels"]
        (Some ([("endpoint", endpoint); ("app", app); ("appArgs", app_args); ("channelId", channel); ("formats", "opus,ulaw,alaw")]
               ++ if str_empty caller_id then [] else [("callerId", caller_id)])) None
  | CreateBridge bridge type => mkShape "POST" ["ari"; "bridges"] (Some [("type", type); ("bridgeId", bridge)]) None
  | AddChannel bridge channel => mkShape "POST" ["ari"; "bridges"; bridge; "addChannel"] (Some [("channel", channel)]) None
  | Hangup channel reason => mkShape "DELETE" ["ari"; "channels"; channel] (Some [("reason", reason)]) None
  | Answer channel => mkShape "POST" ["ari"; "channels"; channel; "answer"] None None
  | GetEndpoint tech resource => mkShape "GET" ["ari"; "endpoints"; tech; resource] None None
  | ListEndpoints tech => mkShape "GET" ["ari"; "endpoints"; tech] None None
  | CreateDynamicConfig cls typ id fields => mkShape "PUT" ["ari"; "asterisk"; "config"; "dynamic"; cls; typ; id] None (Some fields)
  | DeleteDynamicConfig cls typ id => mkShape "DELETE" ["ari"; "asterisk"; "config"; "dynamic"; cls; typ; id] None None
  end.

Lemma build_shape host basic c : build host basic c = print_shape host basic (shape_of c).
Proof.
  assert (Hhead : forall m t, ari_request_head m t host basic
            = http_head (request_line m t :: field_lines (ari_fields host basic ++ length_fields None)) +:+ "") by (intros; by rewrite str_app_nil_r).
  destruct c as [app sources|ch ctx ext p|e a args ch id|b t|b ch|ch r|ch|t r|t|cls typ id f|cls typ id]; cbn [build];
    unfold print_shape; cbn [shape_of sh_method sh_segments sh_query sh_body from_option Datatypes.id];
    unfold build_subscribe_request, build_continue_request, build_originate_request, build_create_bridge_request,
      build_add_channel_request, build_hangup_request, build_answer_request, build_get_endpoint_request,
      build_list_endpoints_request, build_create_dynamic_config_request, build_delete_dynamic_config_request;
    rewrite ?Hhead; do 3 f_equal.
  all: unfold print_path, print_query, config_target; f_equal.
  - rewrite map_map. cbn [map str_join]. rewrite !str_app_assoc. reflexivity.
  - cbn [map str_join]. unfold print_param. cbn [fst snd]. rewrite (url_encode_plain (to_string p) (to_string_unreserved p)), !str_app_assoc. reflexivity.
  - destruct (str_empty id); cbn [map str_join app negb]; unfold print_param; cbn [fst snd]; rewrite !str_app_assoc, ?str_app_nil_r; reflexivity.
  - cbn [map str_join]. unfold print_param. cbn [fst snd]. rewrite !str_app_assoc. reflexivity.
  - cbn [map str_join]. rewrite !str_app_assoc. reflexivity.
  - cbn [map str_join]. rewrite !str_app_assoc, str_app_nil_r. reflexivity.
  - cbn [map str_join]. rewrite !str_app_assoc, str_app_nil_r. reflexivity.
  - cbn [map str_join]. rewrite !str_app_assoc, str_app_nil_r. reflexivity.
  - cbn [map str_join]. rewrite !str_app_assoc, str_app_nil_r. reflexivity.
Qed.

(** ** A printed request determines its structure *)

Lemma map_inj_list {A B} (f : A -> B) l l' : (forall x y, f x = f y -> x = y) -> map f l = map f l' -> l = l'.
Proof.
  intros Hf. revert l'. induction l as [|x l IH]; intros [|y l'] He; try done. cbn in He. injection He as Hx He.
  f_equal; [by apply Hf|by apply IH].
Qed.

Lemma print_path_inj l l' : l <> [] -> l' <> [] -> print_path l = print_path l' -> l = l'.
Proof.
  intros Hl Hl' He. unfold print_path in He. apply str_app_inj_l in He.
  assert (Hn : forall k : list string, Forall (no_char "/") (map url_encode k))
    by (intros k; apply list.Forall_forall; intros x (s & -> & _)%list_elem_of_fmap; by apply url_encode_no_char).
  assert (Hm : map url_encode l = map url_encode l').
  { rewrite <- (split_on_join "/" (map url_encode l)), <- (split_on_join "/" (map url_encode l')) by (done || by destruct l, l').
    by rewrite He. }
  by eapply map_inj_list, Hm; apply url_encode_inj.
Qed.

Lemma print_param_no_char d kv : is_encoded d = false -> Ascii.eqb "=" d = false -> no_char d (print_param kv).
Proof.
  intros Hd He. unfold print_param. apply no_char_app; [by apply url_encode_no_char|].
  apply (no_char_app _ "="); [by apply no_char_one|by apply url_encode_no_char].
Qed.
Lemma print_param_inj kv kv' : print_param kv = print_param kv' -> kv = kv'.
Proof.
  unfold print_param. intros He. apply (first_split_inj "=") in He as [H1 H2]; [|by apply url_encode_no_char..].
  apply url_encode_inj in H1, H2. destruct kv, kv'; cbn in *. by subst.
Qed.
Lemma params_inj l l' : str_join "&" (map print_param l) = str_join "&" (map print_param l') -> l = l'.
Proof.
  assert (Hn : forall k, Forall (no_char "&") (map print_param k))
    by (intros k; apply list.Forall_forall; intros x (s & -> & _)%list_elem_of_fmap; by apply print_param_no_char).
  assert (Hne : forall kv k, str_join "&" (map print_param (kv :: k)) <> "").
  { intros kv k He. apply (f_equal String.length) in He.
    destruct k; cbn [map str_join] in He; unfold print_param in He; rewrite !str_length_app in He; cbn in He; lia. }
  intros He. destruct l as [|kv l], l' as [|kv' l']; [done|by destruct (Hne kv' l')|by destruct (Hne kv l)|].
  eapply map_inj_list; [apply print_param_inj|].
  rewrite <- (split_on_join "&" (map print_param (kv :: l))), <- (split_on_join "&" (map print_param (kv' :: l'))) by done.
  by rewrite He.
Qed.

Lemma print_path_no_char d l : is_encoded d = false -> Ascii.eqb "/" d = false -> no_char d (print_path l).
Proof.
  intros Hd He. assert (Hs : no_char d "/") by (by apply no_char_one).
  unfold print_path. apply no_char_app; [done|]. induction l as [|s l IH]; [done|].
  destruct l as [|s' l]; [by apply url_encode_no_char|]. cbn [map] in *. rewrite str_join_cons2.
  apply no_char_app; [by apply url_encode_no_char|]. by apply no_char_app.
Qed.

Lemma target_inj l q l' q' :
  l <> [] -> l' <> [] -> print_path l +:+ print_query q = print_path l' +:+ print_query q' -> l = l' /\ q = q'.
Proof.
  intros Hl Hl' He. assert (Hp : forall k, no_char "?" (print_path k)) by (intros k; by apply print_path_no_char).
  assert (Hmark : forall k k' s, print_path k = print_path k' +:+ "?" +:+ s -> False).
  { intros k k' s E. pose proof (find_char_app "?" (print_path k') s (Hp k')) as Hf.
    change (String "?" s) with ("?" +:+ s) in Hf. rewrite <- E in Hf. specialize (Hp k). unfold no_char in Hp. congruence. }
  destruct q as [kvs|], q' as [kvs'|]; cbn [print_query] in He; rewrite ?str_app_nil_r in He.
  - apply (first_split_inj "?") in He as [H1 H2]; [|apply Hp..]. split; [by apply print_path_inj|]. f_equal. by apply params_inj.
  - by destruct (Hmark l' l (str_join "&" (map print_param kvs))).
  - by destruct (Hmark l l' (str_join "&" (map print_param kvs'))).
  - split; [by apply print_path_inj|done].
Qed.

Definition shape_ok (sh : shape) : Prop := no_char " " (sh_method sh) /\ sh_segments sh <> [].

Lemma print_query_no_char d q :
  is_encoded d = false -> Ascii.eqb "=" d = false -> Ascii.eqb "&" d = false -> Ascii.eqb "?" d = false -> no_char d (print_query q).
Proof.
  intros Hd H1 H2 H3. destruct q as [kvs|]; [|done]. cbn [print_query]. apply no_char_app; [by apply no_char_one|].
  induction kvs as [|kv l IH]; [done|]. destruct l as [|kv' l]; [by apply print_param_no_char|].
  cbn [map] in *. rewrite str_join_cons2. apply no_char_app; [by apply print_param_no_char|].
  apply no_char_app; [by apply no_char_one|exact IH].
Qed.

Lemma body_inj b b' (tail : option string -> string) :
  tail = (fun b => http_head (field_lines (length_fields b)) +:+ default "" b) -> tail b = tail b' -> b = b'.
Proof.
  intros -> He. destruct b as [b|], b' as [b'|]; [|discriminate He|discriminate He|done].
  cbn [length_fields field_lines map http_head from_option fst snd] in He. rewrite !str_app_assoc in He. unfold field in He.
  apply str_app_inj_l in He. apply str_app_inj_l in He. rewrite !str_app_assoc in He.
  apply str_app_inj_l in He. apply str_app_inj_l in He.
  assert (Hd : forall z : Z, no_char CR (to_string z)).
  { intros z. apply no_char_forallb. eapply str_forallb_impl; [|apply to_string_unreserved]. intros c Hc. cbn.
    destruct (Ascii.eqb_spec c CR) as [->|]; [by vm_compute in Hc|done]. }
  apply (first_split_inj CR) in He as [_ He]; [|apply Hd..]. do 5 f_equal.
  by repeat (first [apply str_app_inj_l in He|injection He as He]).
Qed.

Lemma print_shape_inj host basic sh sh' :
  shape_ok sh -> shape_ok sh' -> print_shape host basic sh = print_shape host basic sh' -> sh = sh'.
Proof.
  intros [Hm Hs] [Hm' Hs'] He. unfold print_shape in He. cbn [http_head] in He. unfold request_line in He.
  rewrite !str_app_assoc in He. apply (first_split_inj " ") in He as [H1 He]; [|done..].
  rewrite <- !(str_app_assoc (print_path _)) in He. apply (first_split_inj " ") in He as [H2 He];
    [|apply no_char_app; [by apply print_path_no_char|by apply print_query_no_char]..].
  apply target_inj in H2 as [H2 H3]; [|done..].
  apply (str_app_inj_l "HTTP/1.1") in He. apply str_app_inj_l in He.
  unfold field_lines in He. rewrite !map_app in He. cbn [ari_fields map app http_head] in He. rewrite !str_app_assoc in He.
  do 4 apply str_app_inj_l in He.
  destruct sh as [m s q b], sh' as [m' s' q' b']. cbn [sh_method sh_segments sh_query sh_body] in *. subst.
  f_equal. by apply (body_inj b b' _ eq_refl).
Qed.

Lemma shape_of_ok c : shape_ok (shape_of c).
Proof. by destruct c. Qed.

Lemma shape_of_inj c c' : shape_of c = shape_of c' -> c = c'.
Proof.
  destruct c as [app sources|ch ctx ext p|e a args ch id|b t|b ch|ch r|ch|t r|t|cls typ id f|cls typ id];
    destruct c' as [app' sources'|ch' ctx' ext' p'|e' a' args' ch' id'|b' t'|b' ch'|ch' r'|ch'|t' r'|t'|cls' typ' id' f'|cls' typ' id'];
    try discriminate; try (intros [=]; by subst).
  - intros [= -> Hs]. f_equal. apply (map_inj_list (pair "eventSource")); [by intros x y [=]|exact Hs].
  - intros [= -> -> -> Hp]. f_equal. by apply to_string_inj.
  - cbn [shape_of]. destruct (str_empty id) eqn:E, (str_empty id') eqn:E'; intros [=]; subst; try done.
    apply str_empty_true in E, E'. by subst.
Qed.

(** A request says which call it is and with which arguments: two calls print the same bytes
    only when they are the same call, whatever their arguments contain. *)
Theorem request_determines_call host basic c c' : build host basic c = build host basic c' <-> c = c'.
Proof.
  split; [|by intros ->]. rewrite !build_shape. intros He. apply shape_of_inj.
  by apply (print_shape_inj host basic); [apply shape_of_ok..|].
Qed.

(** ** The server finds the end of a request *)

Definition head_fields (host basic : string) (b : option string) : list (string * string) :=
  ari_fields host basic ++ length_fields b.

Lemma to_string_no_char d z : is_unreserved d = false -> no_char d (to_string z).
Proof.
  intros Hd. apply no_char_forallb. eapply str_forallb_impl; [|apply to_string_unreserved]. intros c Hc. cbn.
  destruct (Ascii.eqb_spec c d) as [->|]; [congruence|done].
Qed.

Lemma head_fields_ok host basic b :
  no_char CR host -> no_char LF host -> no_char CR basic -> no_char LF basic -> Forall field_pair_ok (head_fields host basic b).
Proof.
  intros H1 H2 H3 H4. unfold head_fields, ari_fields.
  assert (Hb : no_char CR ("Basic " +:+ basic) /\ no_char LF ("Basic " +:+ basic)) by (split; by apply no_char_app).
  destruct Hb as [Hb1 Hb2]. apply Forall_app.
  split; [|destruct b as [b|]; cbn [length_fields]]; repeat (apply Forall_cons_2; [split_and!; try done; by apply to_string_no_char|]);
    apply Forall_nil_2.
Qed.

Lemma target_line_ok m segs q :
  m = "GET" \/ m = "POST" \/ m = "PUT" \/ m = "DELETE" -> line_ok (request_line m (print_path segs +:+ print_query q)).
Proof.
  intros Hm. assert (Hn : forall d, is_encoded d = false -> Ascii.eqb "/" d = false -> Ascii.eqb "=" d = false -> Ascii.eqb "&" d = false ->
    Ascii.eqb "?" d = false -> no_char d (print_path segs +:+ print_query q))
    by (intros d ? ? ? ? ?; apply no_char_app; [by apply print_path_no_char|by apply print_query_no_char]).
  unfold request_line. assert (Hl : line_ok m) by (by destruct Hm as [->|[->|[->| ->]]]).
  apply line_ok_app; [exact Hl|..]; (apply (no_char_app _ " "); [done|]; apply no_char_app; [by apply Hn|done]).
Qed.

Lemma print_shape_length host basic sh rest :
  no_char CR host -> no_char LF host -> no_char CR basic -> no_char LF basic ->
  sh_method sh = "GET" \/ sh_method sh = "POST" \/ sh_method sh = "PUT" \/ sh_method sh = "DELETE" ->
  size_of (print_shape host basic sh) < 2 ^ 64 -> message_length (print_shape host basic sh +:+ rest) = size_of (print_shape host basic sh).
Proof.
  intros H1 H2 H3 H4 Hm. apply framed_length; [by apply target_line_ok|by apply head_fields_ok|..]; by destruct (sh_body sh).
Qed.

(** C40. Every request is well framed: with a host and credentials that contain no line break, and
    whatever the arguments contain, the reader of the repository's own server takes exactly
    the bytes of the request from the stream, whatever follows them, and its header is the
    one request line with the fields that the client meant. *)
Theorem requests_framed host basic c rest :
  no_char CR host -> no_char LF host -> no_char CR basic -> no_char LF basic -> size_of (build host basic c) < 2 ^ 64 ->
  message_length (build host basic c +:+ rest) = size_of (build host basic c)
  /\ extract_header (build host basic c +:+ rest)
     = http_head (request_line (sh_method (shape_of c)) (print_path (sh_segments (shape_of c)) +:+ print_query (sh_query (shape_of c)))
                  :: field_lines (head_fields host basic (sh_body (shape_of c)))).
Proof.
  intros H1 H2 H3 H4 Hs. assert (Hm : let m := sh_method (shape_of c) in m = "GET" \/ m = "POST" \/ m = "PUT" \/ m = "DELETE")
    by (destruct c; cbn; auto).
  rewrite build_shape in *. split; [by apply print_shape_length|]. unfold print_shape. rewrite str_app_assoc.
  apply extract_head; [by apply target_line_ok|]. apply field_lines_ok. by apply head_fields_ok.
Qed.

(** ** The exchange *)

Section Exchange.
Context {N : Type} `{!NetIO N} `{!NetDial N}.

(** C25. A call always returns, with its connection closed, and it wrote nothing on it but its
    request; a call that could not connect opened none.  When the server takes the request
    and answers, cut into reads at any place, the call returns the status and the body that
    were sent if the answer is within the cap of a mebibyte, and no response otherwise. *)
Theorem ari_exchange cfg call n :
  let raw := build (rest_host cfg) (base64_encode (rest_username cfg +:+ ":" +:+ rest_password cfg)) call in
  let '(up, s) := net_connect (rest_host cfg) (rest_port cfg) n in
  (exists r c, perform cfg call n = Some (r, c) /\ m_handle c = false
     /\ log c = if up then [Sent raw (net_send raw s).1; SockClosed] else [])
  /\ (up = true -> (net_send raw s).1 = true ->
      forall minor st reason fields body chunks s',
      0 <= st < 2 ^ 31 -> minor <> " "%char -> line_ok (status_line minor st reason) -> Forall line_ok fields ->
      delivers (net_send raw s).2 chunks s' ->
      str_concat chunks = http_head (status_line minor st reason :: fields) +:+ body ->
      fst <$> perform cfg call n
      = Some (if size_of (str_concat chunks) <=? kMaxResponse then mkResponse st body else no_response)).
Proof. intros raw. by apply exchange_spec. Qed.
End Exchange.

(** ** Examples *)

Section Witnesses.
Definition local_ari : AriRestConfig := mkAriRestConfig "127.0.0.1" 8088 "asterisk" "asterisk".
(** A server that answers in two reads and closes. *)
Definition ok_answer : string := http_head [status_line "1" 200 "OK"; field "Content-Type" "application/json"] +:+ "{}".
Definition ari_server : Scripted := mkScripted "" "" [Some (str_take 20 ok_answer); Some (str_drop 20 ok_answer); None] true.

Lemma requests_framed_witness :
  let raw := build "127.0.0.1" "YTpi" (Hangup ("x" +:+ CRLF +:+ "Host: evil") "busy") in
  message_length (raw +:+ "GET / HTTP/1.1") = size_of raw.
Proof. apply (requests_framed "127.0.0.1" "YTpi" (Hangup ("x" +:+ CRLF +:+ "Host: evil") "busy") "GET / HTTP/1.1"); by vm_compute. Defined.

Lemma ari_exchange_witness : fst <$> perform local_ari (Answer "1.2") ari_server = Some (mkResponse 200 "{}").
Proof.
  pose proof (ari_exchange local_ari (Answer "1.2") ari_server) as He.
  destruct (net_connect (rest_host local_ari) (rest_port local_ari) ari_server) as [up s] eqn:Hc. injection Hc as <- <-.
  destruct He as [_ He]. specialize (He eq_refl eq_refl "1"%char 200 "OK" [field "Content-Type" "application/json"] "{}"
    [str_take 20 ok_answer; str_drop 20 ok_answer] (mkScripted "" "" [] true) ltac:(lia) ltac:(done)).
  apply He; clear He.
  - by vm_compute.
  - by repeat constructor.
  - eapply delivers_chunk; [reflexivity|by vm_compute|]. eapply delivers_chunk; [reflexivity|by vm_compute|]. by apply delivers_end.
  - vm_compute; reflexivity.
Defined.
End Witnesses.
