(* ===== verification/AriSocket.v ===== *)
(** The agent's WebSocket to Asterisk's event stream: [AriWsClient] (ari_ws_client.cpp),
    with the supervisor that redials it (main.cpp, [ReconnectSupervisor]).

    The client is one object for the life of the process: the supervisor calls its
    [connect_and_handshake] again when it has no socket.  [handle_input] runs on the
    reactor while the client is registered; the callbacks are the class [EventHost]. *)

From S2P Require Import Prelude SipFrame WsFrame WsStream WsConn WsHistory ClientSocket Base64 WsUpgrade.

#[local] Open Scope Z_scope.

(** [m_on_event]: whether the callback called [close()] on the client; [m_on_disconnect]. *)
Class EventHost (W : Type) := {
  host_event : string -> W -> bool * W;
  host_lost : W -> W;
}.

Record AriConfig := mkAriConfig { host : string; port : Z; app_name : string; username : string; password : string }.

Section Ari.
Context {N W : Type} `{!NetIO N} `{!NetDial N} `{!Digest} `{!EventHost W}.

Record Client := mkClient { m_cfg : AriConfig; conn : Conn N; m_recv_buf : string; m_close_notified : bool }.

(** The client, the callbacks' state, whether the reactor has the handler, and the
    payloads and the ends that the callbacks were given. *)
Record World := mkWorld { client : Client; sink : W; registered : bool; events : list string; losses : nat }.
Implicit Types (x : World).

Definition put_client (a : Client) x : World := mkWorld a (sink x) (registered x) (events x) (losses x).
Definition on_conn (f : Conn N -> Conn N) x : World :=
  let a := client x in put_client (mkClient (m_cfg a) (f (conn a)) (m_recv_buf a) (m_close_notified a)) x.
Definition put_buf (buf : string) x : World :=
  let a := client x in put_client (mkClient (m_cfg a) (conn a) buf (m_close_notified a)) x.
Definition put_notified x : World :=
  let a := client x in put_client (mkClient (m_cfg a) (conn a) (m_recv_buf a) true) x.
Definition put_registered (r : bool) x : World := mkWorld (client x) (sink x) r (events x) (losses x).

(** The constructor. *)
Definition new_client (cfg : AriConfig) (s : N) (w : W) : World :=
  mkWorld (mkClient cfg (idle_conn s) "" false) w false [] 0.

Definition connected x : bool := m_handle (conn (client x)).

(** [connect_and_handshake]; [rand] are the bytes that [RAND_bytes] gave. *)
Definition connect_and_handshake (rand : option string) x : bool * World :=
  let cfg := m_cfg (client x) in
  let '(ok, c) := dial (ari_request rand (host cfg) (app_name cfg) (username cfg) (password cfg))
                       validate_upgrade_response (host cfg) (port cfg) (conn (client x)) in
  (ok, on_conn (fun _ => c) x).

Definition register_with_reactor x : bool * World :=
  let '(ok, c) := add_handler (conn (client x)) in
  (ok, let x := on_conn (fun _ => c) x in if ok : bool then put_registered true x else x).

Definition notify_disconnect_once x : World :=
  if m_close_notified (client x) then x else
  let x := put_notified x in mkWorld (client x) (host_lost (sink x)) (registered x) (events x) (S (losses x)).

Definition close x : World :=
  if negb (connected x) then x else put_notified (on_conn (fun c => shut (write close_frame c).2) x).

Definition tell_event (bytes : string) x : World :=
  let '(closes, w) := host_event bytes (sink x) in
  let x := mkWorld (client x) w (registered x) (events x ++ [bytes]) (losses x) in
  if closes : bool then close x else x.

Definition on_payload (bytes : string) x : verdict World :=
  let x := tell_event bytes x in if connected x then Continue x else Halt x.

Definition on_frame : Frame -> World -> verdict World := client_frame on_conn on_payload (fun _ => notify_disconnect_once).
Definition drain_frames (buf : string) x : drained World := drain on_frame buf x.

(** [handle_close], called by the reactor once it has dropped the handler. *)
Definition handle_close x : World := on_conn shut (notify_disconnect_once x).

(** The buffer stays in the object when the loop is left. *)
Definition handle_input x : drained World :=
  let '(chunk, c) := read (conn (client x)) in
  let x := on_conn (fun _ => c) x in
  match chunk with
  | None => Stopped (m_recv_buf (client x)) (notify_disconnect_once x)
  | Some bytes => drain_frames (m_recv_buf (client x) +:+ bytes) x
  end.

Definition destroy x : World := on_conn shut (notify_disconnect_once x).

(** ** The process *)

(** What the supervisor's timer does for the client. *)
Definition supervise (rand : option string) x : World :=
  if connected x then x else
  let '(ok, x) := connect_and_handshake rand x in
  if ok : bool then (register_with_reactor x).2 else x.

(** The reactor finds the socket readable; [None] is the decoder's undefined behaviour. *)
Definition readable x : option World :=
  if negb (registered x) then Some x else
  match handle_input x with
  | NeedBytes buf x => Some (put_buf buf x)
  | Stopped buf x => Some (handle_close (put_registered false (put_buf buf x)))
  | Undef | Spin => None
  end.

Inductive event := Tick (rand : option string) | Readable.
Definition step (e : event) x : option World :=
  match e with Tick rand => Some (supervise rand x) | Readable => readable x end.
Fixpoint steps (es : list event) x : option World :=
  match es with [] => Some x | e :: es' => x ← step e x; steps es' x end.
End Ari.
Arguments Client : clear implicits.
Arguments World : clear implicits.

(** * What the agent's event socket guarantees, and where it does not. *)

Section Spec.
Context {N W : Type} `{!NetIO N} `{!NetDial N} `{!Digest} `{!EventHost W}.
Implicit Types (x : World N W).

(** The callback that [main] installs queues the event and touches nothing else. *)
Definition quiet_host : Prop := forall bytes w, (host_event bytes w).1 = false.

Lemma tell_event_quiet bytes x :
  quiet_host ->
  tell_event bytes x = mkWorld (client x) (host_event bytes (sink x)).2 (registered x) (events x ++ [bytes]) (losses x).
Proof. intros Hq. unfold tell_event. specialize (Hq bytes (sink x)). by destruct (host_event bytes (sink x)) as [[] w]. Qed.

Lemma on_payload_quiet bytes x :
  quiet_host -> connected x = true ->
  exists x', on_payload bytes x = Continue x' /\ connected x' = true /\ events x' = events x ++ [bytes].
Proof.
  intros Hq Hx. unfold on_payload. rewrite tell_event_quiet by done. unfold connected in *. cbn. rewrite Hx. by eexists.
Qed.

Lemma events_lost x : events (notify_disconnect_once x) = events x.
Proof. unfold notify_disconnect_once. by destruct (m_close_notified (client x)). Qed.

(** The events of a connection reach the callback whole and in order however the network
    cuts the bytes, when the object's buffer was empty at its start. *)
Lemma events_delivered chunks ws tail x :
  quiet_host -> connected x = true -> Forall wire_ok ws -> partial tail -> str_concat chunks = wire_stream ws +:+ tail ->
  let fs := map w_frame ws in
  (Forall (fun f => keeps_going f = true) fs ->
   exists x', feed on_frame chunks "" x = NeedBytes tail x' /\ connected x' = true /\ events x' = events x ++ payloads fs)
  /\ forall fs1 f fs2, fs = fs1 ++ f :: fs2 -> Forall (fun f => keeps_going f = true) fs1 -> keeps_going f = false ->
     exists rest x', feed on_frame chunks "" x = Stopped rest x' /\ events x' = events x ++ payloads fs1.
Proof.
  intros Hq Hx Hws Ht Hc fs.
  destruct (client_delivers on_conn on_payload (fun _ => notify_disconnect_once) events id (fun x => connected x = true)
    (fun p y => on_payload_quiet p y Hq)) with (chunks := chunks) (ws := ws) (tail := tail) (buf := "") (x := x)
    as [Hall Hend]; [|done|done|apply partial_nil|done|done|].
  { intros mask p op y Hy. unfold connected in *. cbn. by rewrite (proj1 (write_frame_state _ _ _ _)). }
  fold fs in Hall, Hend. split.
  - intros Hk. destruct (Hall Hk) as (x' & Hf & Hl & He). exists x'. by rewrite He, list_fmap_id.
  - intros fs1 f fs2 Hfs Hk Hs. destruct (Hend fs1 f fs2 Hfs Hk Hs) as (rest & reason & x1 & Hf & _ & He).
    exists rest, (notify_disconnect_once x1). by rewrite events_lost, He, list_fmap_id.
Qed.

(** ** What survives a lost connection *)

Lemma losing_keeps_buffer x n :
  registered x = true -> connected x = true -> net_recv (net (conn (client x))) = (None, n) ->
  exists x1, readable x = Some x1 /\ m_recv_buf (client x1) = m_recv_buf (client x) /\ events x1 = events x
    /\ connected x1 = false /\ registered x1 = false.
Proof.
  intros Hr Hc Hn. unfold readable. rewrite Hr. cbn [negb]. unfold handle_input, read.
  unfold connected in Hc. rewrite Hc, Hn. cbn [on_conn]. eexists. split; [reflexivity|].
  unfold handle_close, notify_disconnect_once. cbn [client put_buf put_client on_conn put_registered put_notified m_close_notified].
  destruct (m_close_notified (client x)) eqn:Hm; cbn; unfold connected; cbn; by rewrite ?Hm.
Qed.

Lemma supervise_keeps_buffer rand x :
  m_recv_buf (client (supervise rand x)) = m_recv_buf (client x) /\ events (supervise rand x) = events x.
Proof.
  unfold supervise. destruct (connected x); [done|]. unfold connect_and_handshake.
  destruct (dial _ _ _ _ _) as [[] c]; [|done]. unfold register_with_reactor. cbn [client on_conn put_client conn].
  destruct (add_handler c) as [[] c']; done.
Qed.

Lemma encode_split p1 p2 s op rnd :
  String.length s = String.length p2 ->
  encode (p1 +:+ s) op false 0 rnd
  = str_take (String.length (encode (p1 +:+ p2) op false 0 rnd) - String.length p2) (encode (p1 +:+ p2) op false 0 rnd) +:+ s.
Proof.
  intros Hs. unfold encode. set (b := chr _).
  assert (Hl : length_bytes false (Z.of_nat (String.length (p1 +:+ s))) = length_bytes false (Z.of_nat (String.length (p1 +:+ p2))))
    by (by rewrite !str_length_app, Hs).
  rewrite Hl. set (l := length_bytes _ _). clearbody l b.
  rewrite <- !str_app_assoc. set (h := String b (l +:+ p1)).
  assert (Hh : String b ((l +:+ p1) +:+ p2) = h +:+ p2) by done. rewrite Hh.
  rewrite str_length_app, Nat.add_sub, str_take_app_length. done.
Qed.

(** The frame buffer outlives the connection.  When the connection breaks inside an
    event, the first bytes of the next connection are taken for the rest of that event: the
    callback gets a text that nobody sent, and the bytes it is made of are missing from the
    next event. *)
Theorem stale_frame_mixed x n p1 p2 s op rand rest n2 :
  quiet_host -> is_data op = true -> ws_ok (p1 +:+ s) op 0 0 -> String.length s = String.length p2 -> s <> "" ->
  m_recv_buf (client x)
    = str_take (String.length (encode (p1 +:+ p2) op false 0 0) - String.length p2) (encode (p1 +:+ p2) op false 0 0) ->
  registered x = true -> connected x = true -> net_recv (net (conn (client x))) = (None, n) ->
  exists x1, readable x = Some x1 /\ connected x1 = false /\
    (connected (supervise rand x1) = true -> registered (supervise rand x1) = true ->
     net_recv (net (conn (client (supervise rand x1)))) = (Some (s +:+ rest), n2) ->
     partial rest ->
     exists x3, steps [Readable; Tick rand; Readable] x = Some x3 /\ events x3 = events x ++ [p1 +:+ s]
       /\ m_recv_buf (client x3) = rest).
Proof.
  intros Hq Hop Hw Hlen Hne Hbuf Hr Hc Hn.
  destruct (losing_keeps_buffer x n Hr Hc Hn) as (x1 & H1 & Hb1 & He1 & Hc1 & _). exists x1. split; [done|]. split; [done|].
  intros Hc2 Hr2 Hn2 Hrest. destruct (supervise_keeps_buffer rand x1) as [Hb2 He2]. cbn [steps step]. rewrite H1. cbn.
  set (x2 := supervise rand x1) in *. clearbody x2.
  set (x2' := on_conn (fun _ => mkConn true (m_ping_timer (conn (client x2))) n2 (log (conn (client x2)))) x2).
  assert (Hc2' : connected x2' = true) by done.
  destruct (on_payload_quiet (p1 +:+ s) x2' Hq Hc2') as (x3 & Hp & _ & He).
  assert (Hdrain : drain_frames (m_recv_buf (client x2') +:+ (s +:+ rest)) x2' = NeedBytes rest x3).
  { change (m_recv_buf (client x2')) with (m_recv_buf (client x2)). rewrite Hb2, Hb1, Hbuf, <- str_app_assoc.
    rewrite <- (encode_split p1 p2 s op 0 Hlen).
    pose proof (drain_stream on_frame [mkWire (mkFrame op (p1 +:+ s)) false 0 0] rest x2') as Hd.
    cbn [map run_frames w_frame] in Hd. unfold on_frame at 1, client_frame in Hd. cbn [opcode payload] in Hd.
    rewrite Hop, Hp in Hd. unfold wire_stream, wire_bytes in Hd. cbn [map w_frame w_mask w_key w_random opcode payload str_concat fold_right] in Hd.
    rewrite str_app_nil_r in Hd. apply Hd; [|done]. by apply Forall_singleton. }
  exists (put_buf rest x3). split.
  - unfold readable. rewrite Hr2. cbn [negb]. unfold handle_input, read. unfold connected in Hc2. rewrite Hc2, Hn2.
    fold x2'. by rewrite Hdrain.
  - split; [|done]. cbn [events put_buf put_client]. rewrite He. cbn. by rewrite He2, He1.
Qed.

(** ** A client that could not be registered *)

(** When the reactor refuses the handler of a connection that was just dialled, the
    client stays as it is for ever: it counts as connected, so the supervisor never dials
    again, and nothing reads its events. *)
Theorem unregistered_for_ever rand x c n :
  connected x = false -> registered x = false ->
  dial (ari_request rand (host (m_cfg (client x))) (app_name (m_cfg (client x))) (username (m_cfg (client x))) (password (m_cfg (client x))))
    validate_upgrade_response (host (m_cfg (client x))) (port (m_cfg (client x))) (conn (client x)) = (true, c) ->
  net_register (net c) = (false, n) ->
  let x1 := supervise rand x in
  connected x1 = true /\ forall es, steps es x1 = Some x1.
Proof.
  intros Hc Hr Hd Hn x1.
  assert (Hh : m_handle c = true).
  { pose proof (dial_outcome (ari_request rand (host (m_cfg (client x))) (app_name (m_cfg (client x))) (username (m_cfg (client x))) (password (m_cfg (client x))))
      validate_upgrade_response (host (m_cfg (client x))) (port (m_cfg (client x))) (conn (client x)) Hc) as Ho.
    rewrite Hd in Ho. by destruct Ho. }
  assert (H1 : connected x1 = true /\ registered x1 = false).
  { unfold x1, supervise. rewrite Hc. unfold connect_and_handshake. rewrite Hd. unfold register_with_reactor, add_handler.
    cbn [client on_conn put_client conn]. rewrite Hh, Hn. cbn. by split. }
  destruct H1 as [H1 H2]. split; [done|]. clearbody x1. induction es as [|e es IH]; [done|]. cbn [steps].
  assert (He : step e x1 = Some x1).
  { destruct e as [r|]; cbn [step]; [unfold supervise; by rewrite H1|]. unfold readable. by rewrite H2. }
  by rewrite He.
Qed.

(** ** The end is told once in the life of the object *)

Definition told_ok x : Prop := (losses x <= if m_close_notified (client x) then 1 else 0)%nat.
Definition keeps_told x x' : Prop := told_ok x -> told_ok x' /\ (m_close_notified (client x) = true -> m_close_notified (client x') = true).

#[local] Instance keeps_told_preorder : PreOrder keeps_told.
Proof.
  split; [by intros x|]. intros x y z H1 H2 Hx. destruct (H1 Hx) as [Hy N1]. destruct (H2 Hy) as [Hz N2]. auto.
Qed.

Lemma keeps_told_conn f x : keeps_told x (on_conn f x).
Proof. done. Qed.
Lemma keeps_told_notify x : keeps_told x (notify_disconnect_once x).
Proof.
  unfold keeps_told, notify_disconnect_once, told_ok. destruct (m_close_notified (client x)) eqn:Hm; [by rewrite Hm|].
  cbn. intros Hl. split; [lia|done].
Qed.
Lemma keeps_told_close x : keeps_told x (close x).
Proof.
  unfold close. destruct (connected x); cbn [negb]; [|reflexivity]. unfold keeps_told, told_ok. cbn.
  intros Hl. split; [|done]. destruct (m_close_notified (client x)); lia.
Qed.
Lemma keeps_told_payload p x : match on_payload p x with Continue x' | Halt x' => keeps_told x x' | Hang => True end.
Proof.
  unfold on_payload. assert (Ht : keeps_told x (tell_event p x)).
  { unfold tell_event. destruct (host_event p (sink x)) as [[] w]; [|done].
    etransitivity; [|apply keeps_told_close]. done. }
  by destruct (connected (tell_event p x)).
Qed.

Lemma keeps_told_readable x x' : readable x = Some x' -> keeps_told x x'.
Proof.
  unfold readable. destruct (registered x); cbn [negb]; [|by intros [= <-]]. unfold handle_input.
  destruct (read (conn (client x))) as [[bytes|] c].
  - set (y := on_conn (fun _ => c) x). assert (Hy : keeps_told x y) by apply keeps_told_conn.
    pose proof (client_drain_keeps on_conn on_payload (fun _ => notify_disconnect_once) keeps_told
      (fun mask p op z => keeps_told_conn _ z) keeps_told_payload (fun _ => keeps_told_notify)
      (S (String.length (m_recv_buf (client y) +:+ bytes))) (m_recv_buf (client y) +:+ bytes) y) as Hd.
    unfold drain_frames, drain, on_frame. destruct (drain_loop _ _ _ _) as [buf z|buf z| |]; intros [= <-].
    + etransitivity; [exact Hy|]. etransitivity; [exact Hd|]. done.
    + etransitivity; [exact Hy|]. etransitivity; [exact Hd|]. unfold handle_close.
      etransitivity; [|apply keeps_told_conn].
      exact (keeps_told_notify (put_registered false (put_buf buf z))).
  - intros [= <-]. set (y := on_conn (fun _ => c) x). assert (Hy : keeps_told x (notify_disconnect_once y)).
    { etransitivity; [apply (keeps_told_conn (fun _ => c))|apply keeps_told_notify]. }
    etransitivity; [exact Hy|]. unfold handle_close. etransitivity; [|apply keeps_told_conn].
    exact (keeps_told_notify (put_registered false (put_buf (m_recv_buf (client y)) (notify_disconnect_once y)))).
Qed.

Lemma keeps_told_supervise rand x : keeps_told x (supervise rand x).
Proof.
  unfold supervise. destruct (connected x); [reflexivity|]. unfold connect_and_handshake.
  destruct (dial _ _ _ _ _) as [[] c]; [|done]. unfold register_with_reactor. by destruct (add_handler _) as [[] c'].
Qed.

(** The disconnect callback runs at most once in the life of the object: a second loss,
    after a reconnect, is not reported. *)
Theorem loss_told_once cfg s w es x :
  steps es (new_client cfg s w) = Some x -> (losses x <= 1)%nat.
Proof.
  intros Hs. assert (Hk : keeps_told (new_client cfg s w) x).
  { revert Hs. generalize (new_client cfg s w). induction es as [|e es IH]; intros y; cbn [steps]; [by intros [= <-]|].
    destruct (step e y) as [z|] eqn:E; [|done]. cbn. intros Hs.
    etransitivity; [|by apply IH]. destruct e as [rand|]; cbn [step] in E; [injection E as <-; apply keeps_told_supervise|].
    by apply keeps_told_readable. }
  destruct (Hk (le_n 0)) as [Hx _]. unfold told_ok in Hx. destruct (m_close_notified (client x)); lia.
Qed.
End Spec.

(** ** Examples *)

Section Witnesses.
#[local] Instance the_digest : Digest := {| sha1 _ := str_repeat "x" 20; bio_base64 := base64_encode |}.
#[local] Instance the_host : EventHost nat := {| host_event _ w := (false, S w); host_lost w := w |}.

Definition ari_key : string := (ari_request None "127.0.0.1" "pbx" "asterisk" "asterisk").2.
Definition server (script : list (option string)) (takes : bool) : Scripted :=
  mkScripted "" (upgrade_answer ari_key) script takes.

Definition the_cfg : AriConfig := mkAriConfig "127.0.0.1" 8088 "pbx" "asterisk" "asterisk".
Definition first_event : string := encode "{first: 1}" kOpcodeText false 0 0.
Definition dialled (script : list (option string)) : World Scripted nat :=
  supervise None (new_client the_cfg (server script true) 0%nat).

Lemma events_delivered_witness :
  exists x', feed on_frame [str_take 5 first_event; str_drop 5 first_event] "" (dialled []) = NeedBytes "" x'
    /\ events x' = ["{first: 1}"].
Proof.
  destruct (events_delivered [str_take 5 first_event; str_drop 5 first_event]
    [mkWire (mkFrame kOpcodeText "{first: 1}") false 0 0] "" (dialled [])) as [Hall _];
    [by intros|vm_compute; reflexivity| |apply partial_nil|vm_compute; reflexivity|].
  - apply Forall_singleton. by repeat split.
  - destruct Hall as (x' & Hf & _ & He); [by repeat constructor|]. exists x'. split; [exact Hf|]. rewrite He. by vm_compute.
Defined.

(** The connection breaks inside an event; the next one begins with other bytes. *)
Definition broken : World Scripted nat := put_buf (str_take 8 first_event) (dialled [None; Some "seco"]).
Lemma stale_frame_mixed_witness :
  exists x3, steps [Readable; Tick None; Readable] broken = Some x3 /\ events x3 = ["{firstseco"].
Proof.
  destruct (stale_frame_mixed broken (server [Some "seco"] true) "{first" ": 1}" "seco" kOpcodeText None ""
    (server [] true)) as (x1 & H1 & _ & Hrest);
    [by intros|done|by repeat split|done|done|vm_compute; reflexivity|vm_compute; reflexivity|vm_compute; reflexivity|vm_compute; reflexivity|].
  vm_compute in H1. injection H1 as <-.
  destruct Hrest as (x3 & Hs & He & _);
    [vm_compute; reflexivity|vm_compute; reflexivity|vm_compute; reflexivity|apply partial_nil|].
  exists x3. split; [exact Hs|exact He].
Defined.

Definition undialled : World Scripted nat := new_client the_cfg (server [] false) 0%nat.
Lemma unregistered_for_ever_witness :
  connected (supervise None undialled) = true
  /\ steps [Tick None; Readable; Tick None] (supervise None undialled) = Some (supervise None undialled).
Proof.
  destruct (dial (ari_request None "127.0.0.1" "pbx" "asterisk" "asterisk") validate_upgrade_response "127.0.0.1" 8088
    (conn (client undialled))) as [ok c] eqn:E.
  vm_compute in E. injection E as <- <-.
  destruct (unregistered_for_ever None undialled
    (mkConn true None (server [] false) [Sent (ari_request None "127.0.0.1" "pbx" "asterisk" "asterisk").1 true])
    (server [] false)) as [Hc Hs];
    [reflexivity|reflexivity|vm_compute; reflexivity|reflexivity|].
  split; [exact Hc|apply Hs].
Defined.
End Witnesses.
