(* ===== verification/AsteriskStream.v ===== *)
(** The agent's socket to Asterisk: [AsteriskStream] and the factory that opens it
    (asterisk_ws_factory.cpp).

    The demux owns an adapter that points back to the stream, and the stream points to the
    adapter; the reactor owns the stream, which deletes itself.  This file is the stream and
    what the adapter does; [AsteriskBridge] joins it with the demux. *)

From S2P Require Import Prelude AgentTunnel WsFrame WsStream WsConn WsHistory Base64 WsUpgrade ClientSocket.

#[local] Open Scope Z_scope.

Section Stream.
Context {N : Type} `{!NetIO N} `{!NetDial N} `{!Digest}.

(** [m_adapter]: whether the pointer to the adapter is set; [m_s]: whether the adapter still
    points back; [registered]: whether the reactor has the handler; [misused]: whether the
    adapter was called when the object it points to was gone. *)
Record Stream := mkStream {
  conn : Conn N;
  m_adapter : bool;
  m_s : bool;
  m_eof_notified : bool;
  m_recv_buf : string;
  object : lifetime;
  registered : bool;
  misused : bool;
}.
Implicit Types (s : Stream).

Definition put_conn (c : Conn N) s : Stream :=
  mkStream c (m_adapter s) (m_s s) (m_eof_notified s) (m_recv_buf s) (object s) (registered s) (misused s).
Definition put_adapter (a back : bool) s : Stream :=
  mkStream (conn s) a back (m_eof_notified s) (m_recv_buf s) (object s) (registered s) (misused s).
Definition put_notified s : Stream :=
  mkStream (conn s) (m_adapter s) (m_s s) true (m_recv_buf s) (object s) (registered s) (misused s).
Definition put_buf (buf : string) s : Stream :=
  mkStream (conn s) (m_adapter s) (m_s s) (m_eof_notified s) buf (object s) (registered s) (misused s).
Definition put_object (o : lifetime) s : Stream :=
  mkStream (conn s) (m_adapter s) (m_s s) (m_eof_notified s) (m_recv_buf s) o (registered s) (misused s).
Definition put_registered (r : bool) s : Stream :=
  mkStream (conn s) (m_adapter s) (m_s s) (m_eof_notified s) (m_recv_buf s) (object s) r (misused s).
Definition put_misused s : Stream :=
  mkStream (conn s) (m_adapter s) (m_s s) (m_eof_notified s) (m_recv_buf s) (object s) (registered s) true.
Definition on_conn (f : Conn N -> Conn N) s : Stream := put_conn (f (conn s)) s.

(** No object yet, before the factory is asked for it. *)
Definition unborn (n : N) : Stream := mkStream (idle_conn n) false false false "" Unborn false false.

(** The stream lets go of the adapter: [m_adapter->m_s = nullptr; m_adapter = nullptr]. *)
Definition detach s : Stream := if m_adapter s then put_adapter false false s else s.

(** [notify_eof_once] before it calls the demux; [None] when it does not. *)
Definition begin_eof s : option Stream := if m_eof_notified s then None else Some (detach (put_notified s)).

(** The destructor. *)
Definition destroy s : Stream := put_object Dead (on_conn shut (detach s)).

(** ** What the adapter does *)

(** [write_bytes]; the outcome [SendFailedEof] leaves the call of the demux to the caller. *)
Definition write_bytes (bytes : string) s : send_outcome * Stream :=
  if negb (m_handle (conn s)) then (SendFailed, s) else
  let '(ok, c) := write_frame true bytes kOpcodeText (conn s) in
  let s := put_conn c s in
  if ok : bool then (SendOk, s) else
  match begin_eof s with
  | Some s => (SendFailedEof "asterisk_write_failed", s)
  | None => (SendFailed, s)
  end.

Definition close_socket s : Stream :=
  let s := put_adapter false (m_s s) s in
  let s := if m_handle (conn s) then on_conn (fun c => shut (write close_frame c).2) s else s in
  put_notified s.

(** [DemuxAdapter::send_bytes] and [close]: they follow [m_s] whatever became of the
    object. *)
Definition adapter_send (bytes : string) s : send_outcome * Stream :=
  if negb (m_s s) then (SendFailed, s)
  else if decide (object s = Alive) then write_bytes bytes s else (SendFailed, put_misused s).
Definition adapter_close s : Stream :=
  if negb (m_s s) then s else if decide (object s = Alive) then close_socket s else put_misused s.

(** ** The factory *)

(** [AsteriskWsFactory::open]: whether it returned an adapter. *)
Definition open (host : string) (port : Z) (path : string) (rand : option string) s : bool * Stream :=
  let s := put_object Alive s in
  let '(ok, c) := dial (asterisk_request rand host path) validate_upgrade_response host port (conn s) in
  let s := put_conn c s in
  if negb ok then (false, destroy s) else
  let '(ok, c) := add_handler (conn s) in
  let s := put_conn c s in
  if negb ok then (false, destroy s) else
  (true, put_adapter true true (put_registered true s)).

(** ** Socket histories *)

Definition sound s : Prop := conn_ok (conn s).

Lemma detach_conn s : conn (detach s) = conn s.
Proof. unfold detach. by destruct (m_adapter s). Qed.

Lemma sound_destroy s : sound s -> sound (destroy s) /\ m_handle (conn (destroy s)) = false.
Proof. intros Hs. unfold destroy, sound. cbn. rewrite detach_conn. by apply conn_ok_shut. Qed.

Lemma close_socket_state s :
  m_adapter (close_socket s) = false /\ m_s (close_socket s) = m_s s /\ m_eof_notified (close_socket s) = true
  /\ object (close_socket s) = object s /\ registered (close_socket s) = registered s /\ misused (close_socket s) = misused s
  /\ m_handle (conn (close_socket s)) = false /\ (sound s -> sound (close_socket s)).
Proof.
  unfold close_socket. cbn [conn put_adapter]. destruct (m_handle (conn s)) eqn:Hh; cbn; rewrite ?(proj1 (shut_state _)), ?Hh;
    split_and!; try done. intros Hs. apply conn_ok_shut. exact (conn_ok_write_frame false "" 8 (conn s) Hs).
Qed.

Definition ready s : Prop :=
  object s = Alive /\ m_adapter s = true /\ m_s s = true /\ m_eof_notified s = false /\ m_handle (conn s) = true
  /\ registered s = true /\ misused s = false /\ sound s.
(** Nothing but the network of the slot has been used before the factory opens it. *)
Definition fresh s : Prop := exists n, s = unborn n.

(** The demux does not have the adapter; what the reactor still holds has told its end. *)
Record finished s : Prop := {
  fin_adapter : m_adapter s = false;
  fin_used : misused s = false;
  fin_sound : sound s;
  fin_registered : registered s = true -> m_eof_notified s = true /\ object s = Alive;
  fin_dead : object s = Dead -> m_handle (conn s) = false /\ registered s = false;
  fin_unborn : object s = Unborn -> fresh s;
}.

Lemma fresh_finished s : fresh s -> finished s.
Proof. intros [n ->]. split; try done; [by right|by exists n]. Qed.

Lemma close_finished s : ready s \/ (finished s /\ object s = Alive) -> finished (adapter_close s) /\ object (adapter_close s) = Alive.
Proof.
  intros Hs. assert (Ha : object s = Alive /\ misused s = false /\ sound s) by (destruct Hs as [(?&?&?&?&?&?&?&?)|[[] ?]]; by split_and!).
  destruct Ha as (Ho & Hm & Hsd). unfold adapter_close. destruct (m_s s) eqn:Hms; cbn [negb].
  - rewrite decide_True by done. destruct (close_socket_state s) as (E1 & E2 & E3 & E4 & E5 & E6 & E7 & E8).
    split; [|congruence]. split; rewrite ?E4, ?E6; try congruence; auto.
  - destruct Hs as [(?&?&?&?)|Hs]; [congruence|done].
Qed.

Lemma write_bytes_ready bytes s :
  ready s ->
  match write_bytes bytes s with
  | (SendOk, s') => ready s' /\ exists key, log (conn s') = log (conn s) ++ [Sent (encode bytes kOpcodeText true 0 key) true]
  | (SendFailed, _) => False
  | (SendFailedEof reason, s') => reason = "asterisk_write_failed" /\ finished s' /\ registered s' = true /\ m_handle (conn s') = true
      /\ exists key, log (conn s') = log (conn s) ++ [Sent (encode bytes kOpcodeText true 0 key) false]
  end.
Proof.
  intros (H1 & H2 & H3 & H4 & H5 & H6 & H7 & H8). unfold write_bytes. rewrite H5. cbn [negb].
  pose proof (conn_ok_write_frame true bytes kOpcodeText (conn s) H8) as Hs.
  destruct (write_masked_log bytes kOpcodeText (conn s) H5) as [key Hl].
  destruct (write_frame_state true bytes kOpcodeText (conn s)) as [Hh _].
  destruct (write_frame true bytes kOpcodeText (conn s)) as [[] c]; cbn [fst snd conn put_conn] in *.
  - split; [|by exists key]. unfold ready, sound. cbn. rewrite Hh. by split_and!.
  - unfold begin_eof. cbn [m_eof_notified put_conn]. rewrite H4. unfold detach. cbn [m_adapter put_notified put_conn]. rewrite H2.
    split_and!; [done| |done| |by exists key]; [|cbn; by rewrite Hh]. split; try done; cbn; by rewrite ?H1.
Qed.

(** A live stream that has not told its end yet tells it, and lets go of the adapter. *)
Lemma begin_eof_alive s :
  object s = Alive -> misused s = false -> sound s -> m_eof_notified s = false ->
  exists s', begin_eof s = Some s' /\ finished s' /\ object s' = Alive /\ registered s' = registered s /\ m_eof_notified s' = true
    /\ conn s' = conn s.
Proof.
  intros Ho Hm Hs Hn. unfold begin_eof. rewrite Hn. eexists. split; [done|].
  assert (Hf : forall b : bool, finished (if b then put_adapter false false (put_notified s) else put_adapter false (m_s s) (put_notified s))).
  { intros b. destruct b; split; try done; cbn; by rewrite Ho. }
  unfold detach. cbn [m_adapter put_notified]. destruct (m_adapter s) eqn:Ha.
  - split_and!; try done. exact (Hf true).
  - split_and!; try done. specialize (Hf false). unfold put_adapter in Hf. cbn in Hf. unfold put_notified. by rewrite Ha.
Qed.
Lemma ready_begin s : ready s -> object s = Alive /\ misused s = false /\ sound s /\ m_eof_notified s = false.
Proof. intros (?&?&?&?&?&?&?&?). by split_and!. Qed.

Lemma destroy_finished s :
  m_adapter s = false -> misused s = false -> sound s -> registered s = false ->
  finished (destroy (on_conn shut s)) /\ object (destroy (on_conn shut s)) = Dead.
Proof.
  intros Ha Hm Hs Hr. split; [|done]. pose proof (conn_ok_shut _ Hs) as [H1 H2].
  destruct (conn_ok_shut _ H1) as [H3 H4]. unfold destroy, detach. cbn. rewrite Ha. split; cbn; try done. by rewrite Hr.
Qed.

(** Writing on the socket of a stream, and reading from it. *)
Lemma ready_conn f s :
  m_handle (f (conn s)) = m_handle (conn s) -> (conn_ok (conn s) -> conn_ok (f (conn s))) -> ready s -> ready (on_conn f s).
Proof. intros E Hc (?&?&?&?&?&?&?&Hs). unfold ready. cbn. rewrite E. split_and!; try done. by apply Hc. Qed.
Lemma finished_conn f s :
  object s = Alive -> (conn_ok (conn s) -> conn_ok (f (conn s))) -> finished s -> finished (on_conn f s).
Proof. intros Ho Hc [Ha Hm Hs Hr Hd Hu]. split; cbn; try done; [by apply Hc|by rewrite Ho|by rewrite Ho]. Qed.

Lemma open_fresh host port path rand s :
  fresh s -> let '(ok, s') := open host port path rand s in
  if ok then ready s' /\ m_recv_buf s' = "" else finished s' /\ object s' = Dead.
Proof.
  intros [n ->]. unfold open. cbn [conn put_object unborn].
  set (req := asterisk_request rand host path).
  pose proof (dial_outcome req validate_upgrade_response host port (idle_conn n) eq_refl) as Hd.
  pose proof (conn_ok_dial req validate_upgrade_response host port (idle_conn n) eq_refl eq_refl) as Hc.
  assert (Hdead : forall s1 : Stream, sound s1 -> misused s1 = false -> registered s1 = false -> finished (destroy s1) /\ object (destroy s1) = Dead).
  { intros s1 Hs Hm Hr. destruct (sound_destroy s1 Hs) as [S1 S2]. split; [|done].
    assert (Hf : m_adapter (destroy s1) = false /\ misused (destroy s1) = false /\ registered (destroy s1) = false).
    { unfold destroy, detach. cbn. destruct (m_adapter s1) eqn:Ha; cbn; by rewrite ?Ha. }
    destruct Hf as (F1 & F2 & F3). split; try done. by rewrite F3. }
  destruct (dial _ _ _ _ _) as [ok c]. destruct Hd as (Hh & _). cbn [snd] in Hc.
  destruct ok; cbn [negb]; [|by apply Hdead].
  pose proof (conn_ok_add_handler c Hc) as Ha. destruct (add_handler_state c) as [E _]. cbn [conn put_conn].
  destruct (add_handler c) as [[] c']; cbn [negb fst snd] in *; [|by apply Hdead].
  split; [|done]. unfold ready. cbn. rewrite E, Hh. by split_and!.
Qed.
End Stream.
Arguments Stream : clear implicits.
