(* ===== verification/AsteriskBridge.v ===== *)
(** The stream to Asterisk together with the agent's end of the tunnel: [AsteriskStream]
    (asterisk_ws_factory.cpp) on one side, [SipFrameDemux] and [CloudConnector] on the other.

    The demux keeps the adapter as a number in its table; here one number, [me], is the
    adapter of the stream, and the agent's outside world holds the stream itself, so that a
    call through the table is a call of the stream.  The stream calls the demux back
    directly.  Other streams stay outside. *)

From S2P Require Import Prelude WsFrame WsStream WsConn WsHistory WsUpgrade ClientSocket AsteriskStream.
From S2P Require Import SipFrame FrameStream AgentTunnel AgentTunnelSpec.

#[local] Open Scope Z_scope.

(** The adapter's number, the tunnel's stream id, what the factory was built with and the
    random bytes it will draw. *)
Class Slot := {
  me : nat; my_sid : Z;
  m_host : string; m_port : Z; m_path : string; m_rand : option string;
}.

Section Join.
Context {N O : Type} `{!NetIO N} `{!NetDial N} `{!Digest} `{!AgentIO O} `{!Slot}.

#[global] Instance stream_io : AgentIO (Stream N * O) := {|
  asterisk_open sid meta h :=
    if (sid =? my_sid) && bool_decide (object h.1 = Unborn) then
      let '(ok, s) := open m_host m_port m_path m_rand h.1 in ((if ok : bool then Some me else None), (s, h.2))
    else let '(r, o) := asterisk_open sid meta h.2 in (r, (h.1, o));
  asterisk_send a bytes h :=
    if (a =? me)%nat then let '(r, s) := adapter_send bytes h.1 in (r, (s, h.2))
    else let '(r, o) := asterisk_send a bytes h.2 in (r, (h.1, o));
  asterisk_close a reason h :=
    if (a =? me)%nat then (adapter_close h.1, h.2) else (h.1, asterisk_close a reason h.2);
  create_connected h := let '(t, o) := create_connected h.2 in (t, (h.1, o));
  transport_send t bytes h := let '(ok, o) := transport_send t bytes h.2 in (ok, (h.1, o));
  transport_ping t h := let '(ok, o) := transport_ping t h.2 in (ok, (h.1, o));
  transport_close t h := (h.1, transport_close t h.2);
  now_unix h := now_unix h.2;
|}.

Abbreviation World := (Agent (Stream N * O)).
Implicit Types (w : World).

Definition st w : Stream N := (io w).1.
Definition on_stream (f : Stream N -> Stream N) w : World := with_io (f (st w), (io w).2) [] w.

(** ** The stream's callbacks *)

Definition notify_eof_once (reason : string) w : World :=
  match begin_eof (st w) with
  | None => w
  | Some s => on_asterisk_eof my_sid reason (on_stream (fun _ => s) w)
  end.

Definition on_payload (bytes : string) w : verdict World :=
  let w := on_asterisk_data my_sid bytes w in if m_adapter (st w) then Continue w else Halt w.

Definition on_socket (f : Conn N -> Conn N) : World -> World := on_stream (on_conn f).
Definition on_ws_frame : WsFrame.Frame -> World -> verdict World := client_frame on_socket on_payload notify_eof_once.
Definition drain_frames (buf : string) w : drained World := drain on_ws_frame buf w.

Definition handle_input w : drained World :=
  let '(chunk, c) := read (conn (st w)) in
  let w := on_socket (fun _ => c) w in
  match chunk with
  | None => Stopped (m_recv_buf (st w)) (notify_eof_once "peer_closed" w)
  | Some bytes => drain_frames (m_recv_buf (st w) +:+ bytes) w
  end.

(** [handle_close], which ends in [delete this]; the reactor has dropped the handler. *)
Definition handle_close w : World :=
  on_stream (fun s => destroy (on_conn shut s)) (notify_eof_once "handle_close" (on_stream (put_registered false) w)).

(** The reactor finds the socket readable; [None] is the decoder's undefined behaviour. *)
Definition readable w : option World :=
  if negb (registered (st w)) then Some w else
  match handle_input w with
  | NeedBytes buf w => Some (on_stream (put_buf buf) w)
  | Stopped buf w => Some (handle_close (on_stream (put_buf buf) w))
  | Undef | Spin => None
  end.

(** ** Everything that can happen *)

Inductive bridge_step : World -> World -> Prop :=
  | bs_bytes bytes w : bridge_step w (on_bytes_received bytes w).2
  | bs_tick w : bridge_step w (tick w).2
  | bs_lost w : bridge_step w (on_transport_lost w)
  | bs_send op sid p w : bridge_step w (send_frame op sid p w)
  | bs_ping w : bridge_step w (send_ws_ping w)
  | bs_other_data sid bytes w :
      m_streams (demux w) !! sid <> Some me -> bridge_step w (on_asterisk_data sid bytes w)
  | bs_other_eof sid reason w :
      m_streams (demux w) !! sid <> Some me -> bridge_step w (on_asterisk_eof sid reason w)
  | bs_environment o w : bridge_step w (with_io (st w, o) [] w)
  | bs_readable w w' : readable w = Some w' -> bridge_step w w'
  | bs_dropped w : registered (st w) = true -> bridge_step w (handle_close w).

(** ** The invariant *)

(** The demux has the adapter exactly under the stream's id and both point at each other;
    or it does not have it, and the stream knows. *)
Definition linked w : Prop :=
  ready (st w) /\ m_streams (demux w) !! my_sid = Some me /\ forall k, m_streams (demux w) !! k = Some me -> k = my_sid.
Definition unlinked w : Prop :=
  finished (st w) /\ forall k, m_streams (demux w) !! k <> Some me.

(** Handlers that others installed reach the stream only through the demux, and the other
    streams have numbers of their own. *)
Definition handler_quiet (h : option (handler (Stream N * O))) : Prop :=
  match h with None => True | Some h => forall payload o, (h payload o).2.1 = o.1 end.
Definition quiet w : Prop :=
  handler_quiet (m_revoked_handler (demux w)) /\ handler_quiet (m_society_bootstrap_handler (demux w))
  /\ match m_on_connected (connector w) with None => True | Some h => forall o, (h o).2.1 = o.1 end.
Class OtherStreams : Prop := other_number : forall sid meta (o : O), (asterisk_open sid meta o).1 <> Some me.

Definition whole w : Prop := quiet w /\ (linked w \/ unlinked w).
Definition kept w w' : Prop := whole w -> whole w'.
#[global] Instance kept_preorder : PreOrder kept.
Proof. split; [by intros w Hw|]. intros w1 w2 w3 H1 H2 Hw. auto. Qed.

(** Most steps touch neither the table nor the stream. *)
Definition same w w' : Prop :=
  m_streams (demux w') = m_streams (demux w) /\ st w' = st w
  /\ m_revoked_handler (demux w') = m_revoked_handler (demux w)
  /\ m_society_bootstrap_handler (demux w') = m_society_bootstrap_handler (demux w)
  /\ m_on_connected (connector w') = m_on_connected (connector w).
#[global] Instance same_preorder : PreOrder same.
Proof. split; [intros w; by split_and!|]. unfold same. intros w1 w2 w3 (?&?&?&?&?) (?&?&?&?&?). split_and!; congruence. Qed.
Lemma same_kept w w' : same w w' -> kept w w'.
Proof.
  intros (H1 & H2 & H3 & H4 & H5) (Hq & Hl). unfold whole, quiet, linked, unlinked in *. by rewrite H1, H2, H3, H4, H5.
Qed.

Lemma same_buffer_frame bytes w : same w (buffer_frame bytes w).
Proof. unfold buffer_frame. destruct (_ || _); by split_and!. Qed.
Lemma same_transport_send t bytes w : same w (call_transport_send t bytes w).2.
Proof. unfold call_transport_send. cbn. destruct (transport_send t bytes (io w).2); by split_and!. Qed.
Lemma same_send_frame op sid p w : same w (send_frame op sid p w).
Proof.
  unfold send_frame. destruct (m_transport _) as [t|]; [|apply same_buffer_frame].
  destruct (m_disconnect_pending _); [apply same_buffer_frame|]. pose proof (same_transport_send t (encode op sid p) w) as Hs.
  destruct (call_transport_send _ _ _) as [[] w1]; [exact Hs|]. etransitivity; [exact Hs|]. etransitivity; [|apply same_buffer_frame]. by split_and!.
Qed.
Lemma same_tunnel_send op sid p w : same w (tunnel_send op sid p w).
Proof. unfold tunnel_send. destruct (m_tunnel _); [apply same_send_frame|reflexivity]. Qed.
Lemma same_send_frames fs w : same w (send_frames fs w).
Proof.
  unfold send_frames. revert w. induction fs as [|f fs IH]; intros w; [reflexivity|]. cbn [fold_left].
  etransitivity; [apply same_send_frame|apply IH].
Qed.
Lemma same_on_asterisk_data sid bytes w : same w (on_asterisk_data sid bytes w).
Proof. unfold on_asterisk_data. destruct (_ !! sid); [apply same_tunnel_send|reflexivity]. Qed.

Lemma same_run_handler h p w : handler_quiet h -> same w (run_handler h p w).2.
Proof.
  destruct h as [h|]; [|reflexivity]. unfold run_handler, handler_quiet. intros Hh. specialize (Hh p (io w)).
  destruct (h p (io w)) as [[fs|e] h']; cbn [fst snd] in *; [etransitivity; [|apply same_send_frames]|]; by split_and!.
Qed.

(** ** Steps that change the table or the stream *)

Lemma kept_on_streams (m : gmap Z nat) w :
  (forall k, m !! k = Some me <-> m_streams (demux w) !! k = Some me) -> kept w (on_demux (put_streams m) w).
Proof.
  intros Hm (Hq & Hl). split; [exact Hq|]. unfold linked, unlinked, st in *. cbn.
  destruct Hl as [(Hr & He & Hu)|(Hf & Hn)]; [left|right].
  - split_and!; [done|by apply Hm|]. intros k. rewrite Hm. apply Hu.
  - split; [done|]. intros k. rewrite Hm. apply Hn.
Qed.

Lemma delete_other sid (m : gmap Z nat) k : m !! sid <> Some me -> delete sid m !! k = Some me <-> m !! k = Some me.
Proof.
  intros Hs. destruct (decide (k = sid)) as [->|Hk]; [by rewrite lookup_delete_eq|by rewrite lookup_delete_ne].
Qed.

Lemma insert_other sid (m : gmap Z nat) a k :
  m !! sid = None -> Some a <> Some me -> <[sid := a]> m !! k = Some me <-> m !! k = Some me.
Proof.
  intros Hm Ha. destruct (decide (k = sid)) as [->|Hk]; [by rewrite lookup_insert_eq, Hm|by rewrite lookup_insert_ne].
Qed.

Lemma kept_other_eof sid reason w : m_streams (demux w) !! sid <> Some me -> kept w (on_asterisk_eof sid reason w).
Proof.
  intros Hs. unfold on_asterisk_eof. destruct (m_streams (demux w) !! sid) as [a|] eqn:He; [|reflexivity].
  etransitivity; [|apply same_kept, same_tunnel_send]. apply (kept_on_streams (delete sid (m_streams (demux w)))).
  intros k. apply delete_other. congruence.
Qed.

(** The demux forgets the adapter of a stream that has let go of it. *)
Lemma forget_unlinks w :
  quiet w -> finished (st w) -> (forall k, m_streams (demux w) !! k = Some me -> k = my_sid) ->
  let w' := on_demux (fun d => put_streams (delete my_sid (m_streams d)) d) w in quiet w' /\ unlinked w'.
Proof.
  intros Hq Hf Hu. split; [exact Hq|]. split; [exact Hf|]. intros k. cbn.
  destruct (decide (k = my_sid)) as [->|Hk]; [by rewrite lookup_delete_eq|]. rewrite lookup_delete_ne by done.
  intros He. by destruct Hk; apply Hu.
Qed.
Lemma own_eof_unlinks reason w :
  quiet w -> finished (st w) -> m_streams (demux w) !! my_sid = Some me ->
  (forall k, m_streams (demux w) !! k = Some me -> k = my_sid) ->
  let w' := on_asterisk_eof my_sid reason w in quiet w' /\ unlinked w' /\ st w' = st w.
Proof.
  intros Hq Hf He Hu. unfold on_asterisk_eof. rewrite He. set (w1 := on_demux _ w).
  destruct (forget_unlinks w Hq Hf Hu) as [Hq1 Hn1].
  destruct (same_tunnel_send CLOSE my_sid reason w1) as (E1 & E2 & E3 & E4 & E5). unfold quiet, unlinked. rewrite E1, E2, E3, E4, E5.
  split_and!; [apply Hq1|apply Hq1|apply Hq1|apply Hn1|apply Hn1|done].
Qed.

Lemma kept_close_stream sid reason w : kept w (close_stream sid reason w).
Proof.
  unfold close_stream. destruct (m_streams (demux w) !! sid) as [a|] eqn:He; [|reflexivity].
  destruct (Nat.eqb_spec a me) as [->|Ha].
  - intros (Hq & [(Hr & _ & Hu)|(_ & Hn)]); [|by destruct (Hn sid)]. pose proof (Hu sid He) as ->.
    enough (Hf : finished (st (call_asterisk_close me reason w)))
      by (destruct (forget_unlinks (call_asterisk_close me reason w) Hq Hf Hu) as [Hq' Hn']; by split; [|right]).
    unfold st. cbn. rewrite Nat.eqb_refl. apply (close_finished (st w)). by left.
  - etransitivity; [|apply (kept_on_streams (delete sid (m_streams (demux w))))].
    + apply same_kept. unfold same, st. cbn. by rewrite (proj2 (Nat.eqb_neq _ _) Ha).
    + intros k. apply (delete_other sid (m_streams (demux w)) k). rewrite He. by intros [= ?].
Qed.

Lemma close_streams_stream l w :
  demux (close_streams l w) = demux w /\ connector (close_streams l w) = connector w
  /\ ((forall kv, kv ∈ l -> kv.2 <> me) -> st (close_streams l w) = st w)
  /\ (ready (st w) \/ (finished (st w) /\ object (st w) = Alive) -> (exists kv, kv ∈ l /\ kv.2 = me) ->
      finished (st (close_streams l w)) /\ object (st (close_streams l w)) = Alive).
Proof.
  revert w. induction l as [|[k a] l IH]; intros w.
  { split_and!; try done. intros _ (kv & Hkv & _). by apply not_elem_of_nil in Hkv. }
  set (w1 := call_asterisk_close a "tunnel_lost" w).
  change (close_streams ((k, a) :: l) w) with (close_streams l w1). destruct (IH w1) as (E1 & E2 & E3 & E4).
  assert (Hst : st w1 = if (a =? me)%nat then adapter_close (st w) else st w).
  { unfold st, w1. cbn. by destruct (a =? me)%nat. }
  split_and!; [done|done| |].
  - intros Hn. rewrite E3, Hst.
    + destruct (Nat.eqb_spec a me) as [->|]; [|done]. by destruct (Hn (k, me) ltac:(left)).
    + intros kv Hkv. apply Hn. by right.
  - intros Hs (kv & Hkv & Hme). destruct (Nat.eqb_spec a me) as [->|Ha].
    + pose proof (close_finished (st w) Hs) as Hc. rewrite <- Hst in Hc.
      destruct (decide (Exists (fun kv => kv.2 = me) l)) as [Hex|Hno].
      * apply E4; [by right|]. by apply list.Exists_exists.
      * rewrite E3; [done|]. intros kv' Hkv' Hm. apply Hno. apply list.Exists_exists. eauto.
    + apply E4; [by rewrite Hst|]. exists kv. split; [|done]. apply elem_of_cons in Hkv as [->|]; [by destruct Ha|done].
Qed.

Lemma kept_tunnel_disconnect w : kept w (on_tunnel_disconnect w).
Proof.
  unfold on_tunnel_disconnect. set (l := map_to_list (m_streams (demux w))).
  destruct (close_streams_stream l w) as (E1 & E2 & E3 & E4). intros (Hq & Hl). split.
  { unfold quiet in *. cbn. by rewrite E1, E2. }
  right. split; [|intros k; cbn; by rewrite lookup_empty]. change (finished (st (close_streams l w))).
  destruct Hl as [(Hr & He & Hu)|(Hf & Hn)].
  - apply E4; [by left|]. exists (my_sid, me). split; [|done]. by apply elem_of_map_to_list.
  - rewrite E3; [done|]. intros [k a] Hk Hm. cbn in Hm. subst a. apply elem_of_map_to_list in Hk. by apply (Hn k).
Qed.

Lemma same_mark_connector f w : m_on_connected (f (connector w)) = m_on_connected (connector w) -> same w (on_connector f w).
Proof. intros Hf. by split_and!. Qed.

Lemma kept_mark_disconnected w : kept w (mark_disconnected w).
Proof.
  unfold mark_disconnected. set (w1 := match m_transport (connector w) with Some _ => _ | None => _ end).
  assert (H1 : kept w w1) by (subst w1; destruct (m_transport (connector w)); [apply same_kept; by split_and!|reflexivity]).
  set (w2 := if m_demux (connector w1) then _ else _).
  assert (H2 : kept w1 w2) by (subst w2; destruct (m_demux (connector w1)); [apply kept_tunnel_disconnect|reflexivity]).
  etransitivity; [exact H1|]. etransitivity; [exact H2|]. apply same_kept. by apply same_mark_connector.
Qed.

(** ** The handlers *)

Context {other_streams : OtherStreams}.

Lemma kept_open sid meta w :
  m_streams (demux w) !! sid = None ->
  let '(r, w1) := call_asterisk_open sid meta w in
  match r with
  | Some a => kept w (on_demux (fun d => put_streams (<[sid := a]> (m_streams d)) d) w1)
  | None => kept w w1
  end.
Proof.
  intros He. unfold call_asterisk_open. cbn [asterisk_open stream_io].
  destruct (sid =? my_sid) eqn:Hs; [apply Z.eqb_eq in Hs as ->; case_bool_decide as Ho|]; cbn [andb].
  - destruct (open m_host m_port m_path m_rand (io w).1) as [ok s] eqn:Hopen.
    assert (Hw : whole w -> fresh (st w) /\ quiet w /\ forall k, m_streams (demux w) !! k <> Some me).
    { intros (Hq & [(_ & Hm & _)|(Hf & Hn)]); [congruence|]. split_and!; [by apply fin_unborn|done|done]. }
    destruct ok; intros Hwhole; destruct (Hw Hwhole) as (Hfr & Hq & Hn);
      pose proof (open_fresh m_host m_port m_path m_rand _ Hfr) as Hof; unfold st in Hof; rewrite Hopen in Hof.
    + split; [exact Hq|]. left. split_and!; [apply Hof|by cbn; rewrite lookup_insert_eq|].
      intros k. cbn. destruct (decide (k = my_sid)) as [->|Hk]; [done|]. rewrite lookup_insert_ne by done. intros Hk2. by destruct (Hn k).
    + split; [exact Hq|]. right. split; [apply Hof|exact Hn].
  - pose proof (other_number my_sid meta (io w).2) as Hne. destruct (asterisk_open my_sid meta (io w).2) as [[a|] o]; [|by apply same_kept; split_and!].
    etransitivity; [|apply (kept_on_streams (<[my_sid := a]> (m_streams (demux w))))]; [by apply same_kept; split_and!|].
    intros k. by apply insert_other.
  - pose proof (other_number sid meta (io w).2) as Hne. destruct (asterisk_open sid meta (io w).2) as [[a|] o]; [|by apply same_kept; split_and!].
    etransitivity; [|apply (kept_on_streams (<[sid := a]> (m_streams (demux w))))]; [by apply same_kept; split_and!|].
    intros k. by apply insert_other.
Qed.

Lemma kept_data sid bytes w : kept w (dispatch_frame (mkFrame DATA sid bytes) w).2.
Proof.
  unfold dispatch_frame. cbn [op stream_id payload]. destruct (m_streams (demux w) !! sid) as [a|] eqn:He; [|reflexivity].
  unfold call_asterisk_send. cbn [asterisk_send stream_io]. destruct (Nat.eqb_spec a me) as [->|Ha].
  - intros (Hq & [(Hr & Hm & Hu)|(_ & Hn)]); [|by destruct (Hn sid)]. pose proof (Hu sid He) as ->.
    unfold adapter_send. pose proof (write_bytes_ready bytes _ Hr) as Hw. destruct Hr as (Ho & _ & Hms & _).
    unfold st in *. rewrite Hms, decide_True by done. cbn [negb].
    destruct (write_bytes bytes (io w).1) as [[| |reason] s]; [|done|].
    + split; [exact Hq|]. left. split_and!; [apply Hw|exact Hm|exact Hu].
    + destruct Hw as (_ & Hf & _). apply kept_close_stream.
      set (w1 := with_io _ _ w). destruct (own_eof_unlinks reason w1 Hq Hf Hm Hu) as (Hq1 & Hn1 & _). by split; [|right].
  - destruct (asterisk_send a bytes (io w).2) as [r o]. set (w1 := with_io _ _ w).
    assert (Hs : same w w1) by (by split_and!). clearbody w1. etransitivity; [by apply same_kept|].
    assert (H1 : m_streams (demux w1) !! sid <> Some me) by (rewrite (proj1 Hs), He; by intros [= ?]).
    destruct r; cbn [asterisk_send_outcome snd]; [reflexivity|apply kept_close_stream|].
    etransitivity; [by apply kept_other_eof|apply kept_close_stream].
Qed.

Lemma kept_run_handler (h : World -> option (handler (Stream N * O))) p w :
  (quiet w -> handler_quiet (h w)) -> kept w (run_handler (h w) p w).2.
Proof. intros Hh Hw. apply (same_kept w); [|done]. apply same_run_handler, Hh, Hw. Qed.

Lemma kept_dispatch_frame f w : kept w (dispatch_frame f w).2.
Proof.
  destruct f as [o sid p]. destruct o; try reflexivity.
  - unfold dispatch_frame. cbn [op stream_id payload]. destruct (m_streams (demux w) !! sid) eqn:He; [reflexivity|].
    pose proof (kept_open sid p w He) as Ho. destruct (call_asterisk_open sid p w) as [[a|] w1]; [exact Ho|].
    etransitivity; [exact Ho|apply same_kept, same_tunnel_send].
  - apply kept_data.
  - apply kept_close_stream.
  - apply same_kept, same_tunnel_send.
  - apply (kept_run_handler (fun w => m_revoked_handler (demux w))). by intros [].
  - apply (kept_run_handler (fun w => m_society_bootstrap_handler (demux w))). by intros (_ & ? & _).
Qed.

Lemma kept_read_loop fuel w : kept w (read_loop fuel w).2.
Proof.
  revert w. induction fuel as [|fuel IH]; intros w; cbn [read_loop]; [reflexivity|].
  destruct (decode (recv_buffer w)) as [f n| |]; [|reflexivity|apply same_kept; by split_and!].
  pose proof (kept_dispatch_frame f w) as Hd. cbn [reader_dispatch demux_reader] in *.
  destruct (dispatch_frame f w) as [[[]|e] w1]; cbn [snd] in *; [|exact Hd].
  etransitivity; [exact Hd|]. etransitivity; [|apply IH]. apply same_kept. by split_and!.
Qed.

Lemma kept_bytes bytes w : kept w (on_bytes_received bytes w).2.
Proof.
  unfold on_bytes_received. set (w1 := on_connector (put_pings 0) w).
  assert (H1 : kept w w1) by (apply same_kept; by split_and!). destruct (negb _); [exact H1|].
  etransitivity; [exact H1|]. unfold on_tunnel_bytes, read_bytes.
  match goal with |- context [read_loop ?n ?v] => assert (H2 : kept w1 (read_loop n v).2)
    by (etransitivity; [|apply kept_read_loop]; apply same_kept; by split_and!);
    destruct (read_loop n v) as [[[]|e] w2] end; cbn [snd] in *; [exact H2| |exact H2].
  etransitivity; [exact H2|]. apply same_kept. by split_and!.
Qed.

Lemma kept_flush_loop q w : kept w (flush_loop q w).
Proof.
  revert w. induction q as [|b q IH]; intros w; cbn [flush_loop]; [reflexivity|].
  destruct (m_transport (connector w)) as [t|]; [|reflexivity]. pose proof (same_transport_send t b w) as Hs.
  destruct (call_transport_send t b w) as [[] w1]; (etransitivity; [by apply same_kept|]).
  - etransitivity; [|apply IH]. apply same_kept. by split_and!.
  - apply kept_mark_disconnected.
Qed.

Lemma same_run_agent_call c w : same w (run_agent_call c w).
Proof. destruct c; [by split_and!|apply same_send_frame]. Qed.

Lemma kept_run_on_connected w : kept w (run_on_connected w).2.
Proof.
  intros Hw. apply (same_kept w); [|exact Hw]. destruct Hw as ((_ & _ & Hq) & _). unfold run_on_connected.
  destruct (m_on_connected (connector w)) as [h|]; [|reflexivity]. specialize (Hq (io w)).
  destruct (h (io w)) as [[cs|e] h']; cbn [fst snd] in *; [|by split_and!].
  transitivity (with_io h' [] w); [by split_and!|]. generalize (with_io h' [] w).
  induction cs as [|c cs IH]; intros v; [reflexivity|]. etransitivity; [apply same_run_agent_call|apply IH].
Qed.

Lemma kept_attempt_connect w : kept w (attempt_connect w).2.
Proof.
  unfold attempt_connect, call_create_connected. cbn [create_connected stream_io].
  destruct (create_connected (io w).2) as [[t|] o]; cbn [snd]; [|apply same_kept; by split_and!].
  etransitivity; [|apply kept_run_on_connected]. etransitivity; [|apply kept_flush_loop]. apply same_kept. by split_and!.
Qed.

Lemma kept_maybe_heartbeat w : kept w (maybe_heartbeat w).
Proof.
  unfold maybe_heartbeat. destruct (_ <=? 0); [reflexivity|]. destruct (_ <? _); [reflexivity|].
  destruct (_ <=? _); [apply kept_mark_disconnected|].
  transitivity (send_frame PING 0 "" w); [apply same_kept, same_send_frame|].
  destruct (m_transport _); [|reflexivity]. apply same_kept. by split_and!.
Qed.

Lemma kept_tick w : kept w (tick w).2.
Proof.
  rewrite tick_settle. transitivity (settle w).
  - unfold settle. destruct (m_disconnect_pending _); [|reflexivity]. cbn [connector on_connector put_pending m_transport].
    destruct (m_transport (connector w)); [etransitivity; [|apply kept_mark_disconnected]|]; apply same_kept; by split_and!.
  - destruct (m_transport _); [apply kept_maybe_heartbeat|]. destruct (_ <? _); [reflexivity|apply kept_attempt_connect].
Qed.

Lemma kept_send_ws_ping w : kept w (send_ws_ping w).
Proof.
  apply same_kept. unfold send_ws_ping. destruct (m_transport _); [|reflexivity]. destruct (m_disconnect_pending _); [reflexivity|].
  unfold call_transport_ping. cbn [transport_ping stream_io]. destruct (transport_ping _ _) as [[] o]; by split_and!.
Qed.

(** ** The stream's own callbacks *)

(** The reactor holds the stream. *)
Definition running w : Prop := whole w /\ registered (st w) = true.
Definition kept_running w w' : Prop := running w -> running w'.
#[global] Instance kept_running_preorder : PreOrder kept_running.
Proof. split; [by intros w Hw|]. intros w1 w2 w3 H1 H2 Hw. auto. Qed.

Lemma same_running w w' : same w w' -> kept_running w w'.
Proof. intros Hs (Hw & Hr). split; [by eapply same_kept|]. by rewrite (proj1 (proj2 Hs)). Qed.

(** A stream that has not told its end, or that the demux does not have, tells it. *)
Lemma eof_unlinks reason w :
  quiet w -> object (st w) = Alive -> misused (st w) = false -> sound (st w) -> m_eof_notified (st w) = false ->
  m_streams (demux w) !! my_sid = Some me -> (forall k, m_streams (demux w) !! k = Some me -> k = my_sid) ->
  let w' := notify_eof_once reason w in
  quiet w' /\ unlinked w' /\ conn (st w') = conn (st w) /\ registered (st w') = registered (st w) /\ object (st w') = Alive.
Proof.
  intros Hq Ho Hmis Hs Hnot Hm Hu. unfold notify_eof_once.
  destruct (begin_eof_alive _ Ho Hmis Hs Hnot) as (s' & -> & Hf & Ho' & Hreg & _ & Hc).
  destruct (own_eof_unlinks reason (on_stream (fun _ => s') w) Hq Hf Hm Hu) as (Hq' & Hn & ->). by split_and!.
Qed.

Lemma running_eof reason w :
  running w ->
  let w' := notify_eof_once reason w in running w' /\ unlinked w' /\ conn (st w') = conn (st w).
Proof.
  intros ((Hq & [(Hr & Hm & Hu)|(Hf & Hn)]) & Hreg); cbn zeta.
  - destruct (ready_begin _ Hr) as (Ho & Hmis & Hs & Hnot).
    destruct (eof_unlinks reason w Hq Ho Hmis Hs Hnot Hm Hu) as (Hq' & Hn & Hc & Hreg' & _).
    split; [split; [split; [exact Hq'|by right]|congruence]|by split].
  - unfold notify_eof_once, begin_eof. rewrite (proj1 (fin_registered _ Hf Hreg)).
    split; [split; [split; [exact Hq|by right]|exact Hreg]|by split].
Qed.

Lemma running_socket (f : Conn N -> Conn N) w :
  m_handle (f (conn (st w))) = m_handle (conn (st w)) -> (conn_ok (conn (st w)) -> conn_ok (f (conn (st w)))) ->
  kept_running w (on_socket f w).
Proof.
  intros Hf Hc ((Hq & Hl) & Hreg). split; [split; [exact Hq|]|exact Hreg]. destruct Hl as [(Hr & Hm)|(Hfin & Hn)]; [left|right].
  - split; [|exact Hm]. exact (ready_conn f (st w) Hf Hc Hr).
  - split; [|exact Hn]. exact (finished_conn f (st w) (proj2 (fin_registered _ Hfin Hreg)) Hc Hfin).
Qed.

Lemma running_frames buf w :
  running w -> match drain_frames buf w with NeedBytes _ w' | Stopped _ w' => running w' | _ => True end.
Proof.
  intros Hw. unfold drain_frames, drain.
  pose proof (client_drain_keeps on_socket on_payload notify_eof_once kept_running) as Hk.
  match goal with |- context [drain_loop _ ?fuel _ _] => assert (Hd : match drain_loop on_ws_frame fuel buf w with
    NeedBytes _ w' | Stopped _ w' => kept_running w w' | _ => True end) end.
  { apply Hk; clear Hk.
    - intros mask p op w1. apply running_socket; [apply write_frame_state|apply conn_ok_write_frame].
    - intros p w1. unfold on_payload. pose proof (same_running _ _ (same_on_asterisk_data my_sid p w1)) as Hs.
      by destruct (m_adapter _).
    - intros reason w1 Hw1. by apply running_eof. }
  unfold on_ws_frame in Hd. destruct (drain_loop _ _ _ _); try done; by apply Hd.
Qed.

Lemma running_input w :
  running w -> match handle_input w with NeedBytes _ w' | Stopped _ w' => running w' | _ => True end.
Proof.
  intros Hw. unfold handle_input. pose proof (conn_ok_read (conn (st w))) as Hc. pose proof (proj1 (read_state (conn (st w)))) as Hh.
  destruct (read (conn (st w))) as [chunk c]; cbn [snd] in *.
  assert (H1 : running (on_socket (fun _ => c) w)) by (apply running_socket; done).
  destruct chunk as [bytes|]; [by apply running_frames|]. by apply running_eof.
Qed.

Lemma kept_put_buf buf w : kept_running w (on_stream (put_buf buf) w).
Proof.
  intros ((Hq & Hl) & Hreg). split; [split; [exact Hq|]|exact Hreg]. destruct Hl as [Hl|(Hf & Hn)]; [by left|right].
  split; [|exact Hn]. pose proof (proj2 (fin_registered _ Hf Hreg)) as Ho. destruct Hf as [F1 F2 F3 F4 F5 F6].
  split; try done; cbn; by rewrite Ho.
Qed.

Lemma close_whole w : running w -> whole (handle_close w).
Proof.
  intros ((Hq & Hl) & Hreg). set (w0 := on_stream (put_registered false) w). unfold handle_close. fold w0.
  assert (He : let w1 := notify_eof_once "handle_close" w0 in quiet w1 /\ registered (st w1) = false /\ m_adapter (st w1) = false
    /\ misused (st w1) = false /\ sound (st w1) /\ forall k, m_streams (demux w1) !! k <> Some me).
  { destruct Hl as [(Hr & Hm & Hu)|(Hf & Hn)]; cbn zeta.
    - destruct (ready_begin _ Hr) as (Ho & Hmis & Hs & Hnot).
      destruct (eof_unlinks "handle_close" w0 Hq Ho Hmis Hs Hnot Hm Hu) as (Hq' & (Hf & Hn) & _ & Hreg' & _).
      split_and!; [exact Hq'|exact Hreg'|by apply fin_adapter|by apply fin_used|by apply fin_sound|exact Hn].
    - assert (E : notify_eof_once "handle_close" w0 = w0).
      { unfold notify_eof_once, begin_eof. change (m_eof_notified (st w0)) with (m_eof_notified (st w)).
        by rewrite (proj1 (fin_registered _ Hf Hreg)). }
      rewrite E. destruct Hf as [F1 F2 F3 _ _ _]. split_and!; [exact Hq|done|exact F1|exact F2|exact F3|exact Hn]. }
  cbn zeta in He. destruct He as (Hq1 & Hr1 & Ha1 & Hm1 & Hs1 & Hn1). split; [exact Hq1|]. right. split; [|exact Hn1].
  exact (proj1 (destroy_finished _ Ha1 Hm1 Hs1 Hr1)).
Qed.

Lemma kept_readable w w' : readable w = Some w' -> kept w w'.
Proof.
  unfold readable. destruct (registered (st w)) eqn:Hreg; cbn [negb]; [|by intros [= ->]]. intros He Hw.
  pose proof (running_input w (conj Hw Hreg)) as Hi. destruct (handle_input w) as [buf w1|buf w1| |]; try done; injection He as <-.
  - by apply kept_put_buf.
  - apply close_whole. by apply kept_put_buf.
Qed.

(** Every step keeps the two sides consistent. *)
Lemma kept_step w w' : bridge_step w w' -> kept w w'.
Proof.
  destruct 1 as [bytes w|w|w|op sid p w|w|sid bytes w Hs|sid reason w Hs|o w|w w' Hr|w Hr].
  - apply kept_bytes.
  - apply kept_tick.
  - apply same_kept. unfold on_transport_lost. destruct (m_transport _); by split_and!.
  - apply same_kept, same_send_frame.
  - apply kept_send_ws_ping.
  - apply same_kept, same_on_asterisk_data.
  - by apply kept_other_eof.
  - apply same_kept. by split_and!.
  - by apply kept_readable.
  - intros Hw. by apply close_whole.
Qed.

Lemma kept_steps w w' : rtc bridge_step w w' -> kept w w'.
Proof. induction 1 as [|w w1 w2 H1 _ IH]; [reflexivity|]. etransitivity; [by apply kept_step|exact IH]. Qed.
End Join.
