(* ===== verification/AsteriskBridgeSpec.v ===== *)
(** What the agent guarantees of a stream to Asterisk: the two sides never hold a pointer to
    each other that dangles, and what one side of the stream says reaches the other. *)

From S2P Require Import Prelude WsFrame WsStream WsConn WsHistory Base64 WsUpgrade ClientSocket AsteriskStream.
From S2P Require Import SipFrame FrameStream AgentTunnel AgentTunnelSpec AsteriskBridge.

#[local] Open Scope Z_scope.

Section Spec.
Context {N O : Type} `{!NetIO N} `{!NetDial N} `{!Digest} `{!AgentIO O} `{!Slot}.

Abbreviation World := (Agent (Stream N * O)).
Implicit Types (w : World).

(** The stream has not been opened. *)
Definition before_open n w : Prop := quiet w /\ st w = unborn n /\ forall k, m_streams (demux w) !! k <> Some me.

(** Whatever happens, and in whatever order: as long as the demux has the adapter it has it
    under the stream's own id, the object it leads to is alive, its socket is open, and the
    two point at each other; the adapter is never used when the object is gone; an object
    that was deleted is in no table and its socket is closed; one that the reactor still
    holds and the demux does not has told its end; the socket was closed at most once and
    nothing was written to it after that. *)
Theorem adapter_never_dangles n w0 w :
  OtherStreams -> before_open n w0 -> rtc bridge_step w0 w ->
  misused (st w) = false
  /\ (forall sid, m_streams (demux w) !! sid = Some me ->
        sid = my_sid /\ object (st w) = Alive /\ m_adapter (st w) = true /\ m_s (st w) = true
        /\ m_handle (conn (st w)) = true /\ m_eof_notified (st w) = false)
  /\ (object (st w) = Dead -> m_handle (conn (st w)) = false /\ registered (st w) = false
        /\ forall sid, m_streams (demux w) !! sid <> Some me)
  /\ (registered (st w) = true -> m_streams (demux w) !! my_sid <> Some me -> m_eof_notified (st w) = true)
  /\ sound (st w).
Proof.
  intros Ho (Hq & Hu & Hn) Hr. assert (Hw : whole w).
  { apply (kept_steps _ _ Hr). split; [exact Hq|]. right. split; [|exact Hn]. rewrite Hu. apply fresh_finished. by exists n. }
  destruct Hw as (_ & [((H1 & H2 & H3 & H4 & H5 & H6 & H7 & H8) & Hm & Hun)|([F1 F2 F3 F4 F5 F6] & Hno)]).
  - split_and!; [done| | |done|done].
    + intros sid Hs. split_and!; try done. by apply Hun.
    + by rewrite H1.
  - split_and!; [done| | | |done].
    + intros sid Hs. by destruct (Hno sid).
    + intros Hd. destruct (F5 Hd). by split_and!.
    + intros Hreg _. by apply F4.
Qed.

(** ** From Asterisk to the cloud *)

(** The stream is open, the tunnel attached and nothing is dropped for want of room. *)
Definition flowing w : Prop :=
  linked w /\ quiet w /\ m_tunnel (demux w) = true /\ unbounded w /\ agent_inv w /\ config_ok (m_cfg (connector w)).


Lemma flowing_socket mask p op w :
  flowing w -> flowing (on_socket (fun c => (write_frame mask p op c).2) w).
Proof.
  intros ((Hr & Hm) & Hq & Ht & Hu & Hi & Hc). split; [split; [|exact Hm]|].
  - apply (ready_conn _ (st w)); [apply write_frame_state|apply conn_ok_write_frame|exact Hr].
  - split_and!; try done. apply (evolves_environment _ w Hi Hc).
Qed.

Lemma flowing_payload p w :
  flowing w ->
  exists w', on_payload p w = Continue w' /\ flowing w' /\ tunnel_stream w' = tunnel_stream w ++ [encode DATA my_sid p].
Proof.
  intros ((Hr & Hm & Hun) & Hq & Ht & Hu & Hi & Hc). unfold on_payload, on_asterisk_data. rewrite Hm. unfold tunnel_send. rewrite Ht.
  pose proof (same_send_frame DATA my_sid p w) as (E1 & E2 & E3 & E4 & E5).
  pose proof (agent_evolves_send_frame DATA my_sid p w Hi Hc) as (Hi' & Hc' & _).
  assert (Hd : m_tunnel (demux (send_frame DATA my_sid p w)) = m_tunnel (demux w)) by apply inert_tunnel, inert_send_frame.
  exists (send_frame DATA my_sid p w). cbn zeta. rewrite E2, (proj1 (proj2 Hr)). split; [reflexivity|].
  split; [|by apply agent_stream_send_frame].
  unfold flowing, linked, quiet, unbounded. rewrite E1, E2, E3, E4, E5, Hc', Hd. split_and!; try done; apply Hq.
Qed.

Lemma eof_tells reason w :
  m_streams (demux w) !! my_sid = Some me -> m_tunnel (demux w) = true -> unbounded w -> agent_inv w ->
  tunnel_stream (on_asterisk_eof my_sid reason w) = tunnel_stream w ++ [encode CLOSE my_sid reason].
Proof.
  intros Hm Ht Hu Hi. unfold on_asterisk_eof. rewrite Hm. set (w1 := on_demux _ w).
  unfold tunnel_send. change (m_tunnel (demux w1)) with (m_tunnel (demux w)). rewrite Ht.
  change (tunnel_stream w) with (tunnel_stream w1). apply agent_stream_send_frame; [|exact Hu]. by destruct Hi.
Qed.
Lemma environment_stream f w : tunnel_stream (on_stream f w) = tunnel_stream w.
Proof. unfold tunnel_stream. cbn. by rewrite app_nil_r. Qed.

Lemma flowing_eof reason w :
  flowing w ->
  let w' := notify_eof_once reason w in
  unlinked w' /\ registered (st w') = true /\ tunnel_stream w' = tunnel_stream w ++ [encode CLOSE my_sid reason].
Proof.
  intros ((Hr & Hm & Hun) & Hq & Ht & Hu & Hi & Hc). destruct (ready_begin _ Hr) as (Ho & Hmis & Hs & Hnot).
  destruct (eof_unlinks reason w Hq Ho Hmis Hs Hnot Hm Hun) as (_ & Hn & _ & Hreg & _).
  cbn zeta. split; [exact Hn|]. split; [rewrite Hreg; by apply Hr|].
  unfold notify_eof_once, begin_eof. rewrite Hnot. rewrite eof_tells; [by rewrite environment_stream|done|done|done|].
  by apply (evolves_environment _ w Hi Hc).
Qed.

(** What Asterisk sends on the socket of an open stream goes up the tunnel: each payload is
    one DATA frame of the stream, whole and in order however the network cuts the bytes, and
    after the first frame that ends the connection exactly one CLOSE follows, and the demux
    has forgotten the stream. *)
Theorem asterisk_to_cloud chunks ws tail w :
  flowing w -> Forall wire_ok ws -> partial tail -> str_concat chunks = wire_stream ws +:+ tail ->
  let fs := map w_frame ws in
  (Forall (fun f => keeps_going f = true) fs ->
   exists w', feed on_ws_frame chunks "" w = NeedBytes tail w' /\ linked w'
     /\ tunnel_stream w' = tunnel_stream w ++ map (encode DATA my_sid) (payloads fs))
  /\ forall fs1 f fs2, fs = fs1 ++ f :: fs2 -> Forall (fun f => keeps_going f = true) fs1 -> keeps_going f = false ->
     exists rest reason w', feed on_ws_frame chunks "" w = Stopped rest w' /\ unlinked w'
       /\ tunnel_stream w' = (tunnel_stream w ++ map (encode DATA my_sid) (payloads fs1)) ++ [encode CLOSE my_sid reason].
Proof.
  intros Hl Hws Ht Hc fs.
  destruct (client_delivers on_socket on_payload notify_eof_once tunnel_stream (encode DATA my_sid) flowing
    flowing_payload) with (chunks := chunks) (ws := ws) (tail := tail) (buf := "") (x := w)
    as [Hall Hend]; [|done|done|apply partial_nil|done|done|].
  { intros mask p op y Hy. split; [by apply flowing_socket|apply environment_stream]. }
  fold fs in Hall, Hend. split.
  - intros Hk. destruct (Hall Hk) as (w' & Hf & Hl' & He). exists w'. split; [exact Hf|]. split; [apply Hl'|exact He].
  - intros fs1 f fs2 Hfs Hk Hs. destruct (Hend fs1 f fs2 Hfs Hk Hs) as (rest & reason & w1 & Hf & Hl1 & He).
    destruct (flowing_eof reason w1 Hl1) as (Hn & _ & Ht').
    exists rest, reason, (notify_eof_once reason w1). split; [exact Hf|]. split; [exact Hn|]. by rewrite Ht', He.
Qed.

(** ** From the cloud to Asterisk *)

(** A DATA frame of an open stream is written to Asterisk as one masked text frame with the
    same payload and nothing goes up the tunnel; when the write fails exactly one CLOSE does,
    the demux forgets the stream, and the socket stays open and with the reactor. *)
Theorem cloud_to_asterisk p w :
  flowing w ->
  let w' := (dispatch_frame (mkFrame DATA my_sid p) w).2 in
  exists key ok, log (conn (st w')) = log (conn (st w)) ++ [Sent (WsFrame.encode p kOpcodeText true 0 key) ok]
    /\ m_handle (conn (st w')) = true /\ registered (st w') = true
    /\ if ok then linked w' /\ tunnel_stream w' = tunnel_stream w
       else unlinked w' /\ tunnel_stream w' = tunnel_stream w ++ [encode CLOSE my_sid "asterisk_write_failed"].
Proof.
  intros ((Hr & Hm & Hun) & Hq & Ht & Hu & Hi & Hc). cbn zeta. unfold dispatch_frame. cbn [op stream_id payload].
  rewrite Hm. unfold call_asterisk_send. cbn [asterisk_send stream_io]. rewrite Nat.eqb_refl. unfold adapter_send.
  pose proof (write_bytes_ready p _ Hr) as Hw. destruct Hr as (Ho & _ & Hms & _ & Hh & _). unfold st in Hw, Ho, Hms |- *.
  rewrite Hms, decide_True by done. cbn [negb]. destruct (write_bytes p (io w).1) as [[| |reason] s]; [|done|].
  - destruct Hw as (Hr' & key & Hl). exists key, true. cbn [snd asterisk_send_outcome].
    split; [exact Hl|]. split; [by apply Hr'|]. split; [by apply Hr'|]. split; [by split|].
    unfold tunnel_stream. cbn. by rewrite agent_accepted_app, app_nil_r.
  - destruct Hw as (-> & Hf & Hreg & Hh' & key & Hl). exists key, false. cbn [snd asterisk_send_outcome].
    set (w1 := with_io _ _ w). set (r := "asterisk_write_failed").
    destruct (own_eof_unlinks r w1 Hq Hf Hm Hun) as (_ & Hn & Hst).
    assert (Hgone : close_stream my_sid r (on_asterisk_eof my_sid r w1) = on_asterisk_eof my_sid r w1).
    { unfold close_stream. destruct (m_streams (demux (on_asterisk_eof my_sid r w1)) !! my_sid) as [a|] eqn:Ha; [|done]. unfold on_asterisk_eof in Ha.
      change (m_streams (demux w1)) with (m_streams (demux w)) in Ha. rewrite Hm in Ha. cbn zeta in Ha.
      rewrite (proj1 (same_tunnel_send _ _ _ _)) in Ha. cbn in Ha. by rewrite lookup_delete_eq in Ha. }
    rewrite Hgone. unfold st in Hst. rewrite Hst. split; [exact Hl|]. split; [exact Hh'|]. split; [exact Hreg|]. split; [exact Hn|].
    rewrite eof_tells; [|done|done|done|].
    + f_equal. unfold tunnel_stream. cbn. by rewrite agent_accepted_app, app_nil_r.
    + by apply (agent_evolves_io _ (AsteriskSent me p (SendFailedEof r)) w eq_refl Hi Hc).
Qed.

(** The reactor calls back [n] times. *)
Fixpoint reads (n : nat) w : option World :=
  match n with
  | Datatypes.O => Some w
  | Datatypes.S n' => match readable w with Some w' => reads n' w' | None => None end
  end.
Lemma reads_reached n w w' : reads n w = Some w' -> rtc bridge_step w w'.
Proof.
  revert w. induction n as [|n IH]; intros w; cbn [reads]; [intros E; apply (inj Some) in E as ->; reflexivity|].
  destruct (readable w) as [w1|] eqn:E; [|done]. intros H1. eapply rtc_l; [by apply bs_readable|by apply IH].
Qed.
End Spec.

(** ** Examples *)

Section Witnesses.
#[local] Instance the_digest : Digest := {| sha1 _ := str_repeat "x" 20; bio_base64 := base64_encode |}.
#[local] Instance the_slot : Slot :=
  {| me := 7; my_sid := 1; m_host := "127.0.0.1"; m_port := 8088; m_path := "/ws"; m_rand := None |}.
(** The rest of the world: no other stream, and a cloud that takes everything. *)
#[local] Instance rest_io : AgentIO Z := {|
  asterisk_open _ _ h := (None, h); asterisk_send _ _ h := (SendFailed, h); asterisk_close _ _ h := h;
  create_connected h := (Some 1%nat, h); transport_send _ _ h := (true, h); transport_ping _ h := (true, h);
  transport_close _ h := h; now_unix h := h |}.
#[local] Instance rest_streams : OtherStreams.
Proof. by intros sid meta o. Defined.

(** Asterisk answers the dial and delivers [script]. *)
Definition asterisk (script : list (option string)) : Scripted :=
  mkScripted "" (upgrade_answer (asterisk_request None "127.0.0.1" "/ws").2) script true.
Definition agent0 (script : list (option string)) : Agent (Stream Scripted * Z) :=
  mkAgent (new_demux true) (put_demux_ptr true (new_connector default_config)) (unborn (asterisk script), 0) [].

Definition ring : string := WsFrame.encode "ring" kOpcodeText false 0 0.
Definition connected0 : Agent (Stream Scripted * Z) := (tick (agent0 [Some ring; None])).2.
Definition opened : Agent (Stream Scripted * Z) := (on_bytes_received (encode OPEN 1 "{}" +:+ encode DATA 1 "dial") connected0).2.

Lemma agent0_before script : before_open (asterisk script) (agent0 script).
Proof. split; [by vm_compute|]. split; [reflexivity|]. intros k. cbn. by rewrite lookup_empty. Qed.
Lemma opened_reached : rtc bridge_step (agent0 [Some ring; None]) opened.
Proof. eapply rtc_l; [apply bs_tick|]. eapply rtc_once. apply bs_bytes. Qed.

Definition after_reads (n : nat) : option (Agent (Stream Scripted * Z)) := reads n opened.

(** Dialled, opened, one message each way, and the end of the connection. *)
Lemma adapter_never_dangles_witness :
  match after_reads 1, after_reads 2 with
  | Some w1, Some w2 => object (st w1) = Alive /\ m_handle (conn (st w2)) = false /\ misused (st w2) = false
  | _, _ => False
  end.
Proof.
  assert (D1 : match after_reads 1 with Some w1 => m_streams (demux w1) !! 1 = Some 7%nat | None => False end)
    by (vm_compute; reflexivity).
  assert (D2 : match after_reads 2 with Some w2 => object (st w2) = Dead | None => False end) by (vm_compute; reflexivity).
  assert (R1 : forall w, after_reads 1 = Some w -> rtc bridge_step (agent0 [Some ring; None]) w)
    by (intros w Hw; etransitivity; [apply opened_reached|exact (reads_reached 1 opened w Hw)]).
  assert (R2 : forall w, after_reads 2 = Some w -> rtc bridge_step (agent0 [Some ring; None]) w)
    by (intros w Hw; etransitivity; [apply opened_reached|exact (reads_reached 2 opened w Hw)]).
  destruct (after_reads 1) as [w1|]; [|destruct D1]. destruct (after_reads 2) as [w2|]; [|destruct D2].
  destruct (adapter_never_dangles _ _ _ rest_streams (agent0_before _) (R1 w1 eq_refl)) as (_ & P1 & _).
  destruct (adapter_never_dangles _ _ _ rest_streams (agent0_before _) (R2 w2 eq_refl)) as (P2 & _ & P3 & _).
  split; [apply (P1 1 D1)|]. split; [apply (P3 D2)|exact P2].
Defined.

Lemma opened_flows : flowing opened.
Proof.
  assert (Hw : whole opened).
  { destruct (agent0_before [Some ring; None]) as (Hq & Hu & Hn). apply (kept_steps _ _ opened_reached).
    split; [exact Hq|]. right. split; [|exact Hn]. rewrite Hu. apply fresh_finished. by eexists. }
  assert (Hm : m_streams (demux opened) !! my_sid = Some me) by (vm_compute; reflexivity).
  destruct Hw as (Hq & [Hl|(_ & Hn)]); [|by destruct (Hn my_sid)].
  split; [exact Hl|]. split; [exact Hq|]. split; [vm_compute; reflexivity|]. split; [vm_compute; reflexivity|]. split.
  - split; [intros _ _; vm_compute; reflexivity|intros _; vm_compute; lia|vm_compute; done].
  - vm_compute. by split.
Qed.

Lemma asterisk_to_cloud_witness :
  exists w', feed on_ws_frame [str_take 3 ring; str_drop 3 ring] "" opened = NeedBytes "" w'
    /\ tunnel_stream w' = tunnel_stream opened ++ [encode DATA 1 "ring"].
Proof.
  destruct (asterisk_to_cloud [str_take 3 ring; str_drop 3 ring] [mkWire (WsFrame.mkFrame kOpcodeText "ring") false 0 0] "" opened
    opened_flows) as [Hall _]; [| |vm_compute; reflexivity|].
  - apply Forall_singleton. by repeat split.
  - apply partial_nil.
  - destruct Hall as (w' & Hf & _ & He); [by repeat constructor|]. exists w'. split; [exact Hf|exact He].
Defined.

Lemma cloud_to_asterisk_witness :
  let w' := (dispatch_frame (mkFrame DATA 1 "bye") opened).2 in
  exists key ok, log (conn (st w')) = log (conn (st opened)) ++ [Sent (WsFrame.encode "bye" kOpcodeText true 0 key) ok].
Proof.
  destruct (cloud_to_asterisk "bye" opened opened_flows) as (key & ok & Hl & _). exists key, ok. exact Hl.
Defined.
End Witnesses.
