(* ===== verification/CloudTransport.v ===== *)
(** The agent's socket to the cloud: [AceSslTransport] and its factory
    (ace_ssl_transport.cpp).

    The connector owns the transport and drops it ([m_transport->close()],
    [m_transport.reset()]); the reactor has a pointer to it from its registration on.  What
    it reads goes to the dispatch task, which hands it to the connector on its own thread;
    [on_disconnect] is the connector's [on_transport_lost].  [AgentTunnel] has the
    connector's side of both calls. *)

From S2P Require Import Prelude WsFrame WsStream WsConn WsHistory ClientSocket InnerTls WsTlsBridge.
From S2P Require Import TlsLoop AgentStreamSpec Base64 WsUpgrade.

#[local] Open Scope Z_scope.

Record InnerTlsConfig := mkInnerTlsConfig { cert_path : string; key_path : string; ca_path : string; hostname : string }.

Section Transport.
Context {N T : Type} `{!NetIO N} `{!NetDial N} `{!Digest} `{!Tls T} `{!Fuel}.

(** [m_inner_tls] comes with the bridge it refers to; [registered]: whether the reactor has
    the handler; [told]: the plaintext given to the dispatch task, in order; [losses]: how
    often [on_disconnect] ran. *)
Record Transport := mkTransport {
  conn : Conn N;
  m_recv_buf : string;
  m_close_notified : bool;
  m_inner_tls : option (T * TlsBridge);
  object : lifetime;
  registered : bool;
  told : list string;
  losses : nat;
}.
Implicit Types (s : Transport).

Definition put_conn (c : Conn N) s : Transport :=
  mkTransport c (m_recv_buf s) (m_close_notified s) (m_inner_tls s) (object s) (registered s) (told s) (losses s).
Definition put_buf (buf : string) s : Transport :=
  mkTransport (conn s) buf (m_close_notified s) (m_inner_tls s) (object s) (registered s) (told s) (losses s).
Definition put_notified s : Transport :=
  mkTransport (conn s) (m_recv_buf s) true (m_inner_tls s) (object s) (registered s) (told s) (losses s).
Definition put_inner (i : option (T * TlsBridge)) s : Transport :=
  mkTransport (conn s) (m_recv_buf s) (m_close_notified s) i (object s) (registered s) (told s) (losses s).
Definition put_object (o : lifetime) s : Transport :=
  mkTransport (conn s) (m_recv_buf s) (m_close_notified s) (m_inner_tls s) o (registered s) (told s) (losses s).
Definition put_registered (r : bool) s : Transport :=
  mkTransport (conn s) (m_recv_buf s) (m_close_notified s) (m_inner_tls s) (object s) r (told s) (losses s).
Definition on_conn (f : Conn N -> Conn N) s : Transport := put_conn (f (conn s)) s.

(** The constructor. *)
Definition new_transport (n : N) : Transport := mkTransport (idle_conn n) "" false None Alive false [] 0.

Definition notify_disconnect_once s : Transport :=
  if m_close_notified s then s else
  let s := put_notified s in
  mkTransport (conn s) (m_recv_buf s) (m_close_notified s) (m_inner_tls s) (object s) (registered s) (told s) (S (losses s)).

(** The destructor. *)
Definition destroy s : Transport := put_object Dead (put_inner None (on_conn shut (notify_disconnect_once s))).

(** ** Dialling *)

Definition session_of (s : Inner T (TlsBridge * Conn N)) : Conn N := (transport s).2.

(** The part of [connect_and_handshake] after the upgrade; [None] while the handshake is
    still running. *)
Definition setup_inner_tls (cfg : InnerTlsConfig) s : option (bool * Transport) :=
  if str_empty (cert_path cfg) then Some (true, s) else
  let fail (c : Conn N) := Some (false, on_conn shut (put_conn c (put_inner None s))) in
  let t := if str_empty (ca_path cfg) then tls_client else tls_set_ca (ca_path cfg) tls_client in
  let '(ok, t) := tls_set_cert (cert_path cfg) (key_path cfg) t in
  if negb ok then fail (conn s) else
  match handshake (mkInner t (new_bridge true, conn s)) with
  | None => None
  | Some (false, i) => fail (session_of i)
  | Some (true, i) =>
      if negb (str_empty (hostname cfg)) && negb (tls_check_host (hostname cfg) (ssl i)) then fail (session_of i) else
      let '(leftover, b) := leftover_socket_bytes (switch_to_buffered (transport i).1) in
      Some (true, put_buf leftover (put_inner (Some (ssl i, b)) (put_conn (session_of i) s)))
  end.

Definition connect_and_handshake (host : string) (port : Z) (path : string) (cfg : InnerTlsConfig) (rand : option string) s
  : option (bool * Transport) :=
  let '(ok, c) := dial (transport_request rand host path) validate_upgrade_response host port (conn s) in
  let s := put_conn c s in
  if negb ok then Some (false, s) else setup_inner_tls cfg s.

(** [AceSslTransportFactory::create_connected]: whether it returned the transport. *)
Definition create_connected (host : string) (port : Z) (cfg : InnerTlsConfig) (rand : option string) (n : N)
  : option (bool * Transport) :=
  match connect_and_handshake host port "/agent" cfg rand (new_transport n) with
  | None => None
  | Some (false, s) => Some (false, destroy s)
  | Some (true, s) =>
      let '(ok, c) := add_handler (conn s) in
      let s := put_conn c s in
      Some (if ok : bool then (true, put_registered true s) else (false, destroy s))
  end.

(** ** ITransport *)

Definition send (bytes : string) s : bool * Transport :=
  if negb (m_handle (conn s)) then (false, s) else
  let '(ok, s) :=
    match m_inner_tls s with
    | Some (t, b) =>
        let '(ok, i) := InnerTls.send bytes (mkInner t (b, conn s)) in
        (ok, put_conn (session_of i) (put_inner (Some (ssl i, (transport i).1)) s))
    | None => let '(ok, c) := write_frame true bytes kOpcodeText (conn s) in (ok, put_conn c s)
    end in
  if ok : bool then (true, s) else (false, notify_disconnect_once s).

Definition send_ws_ping s : bool * Transport :=
  if negb (m_handle (conn s)) then (false, s) else
  let '(ok, c) := write_frame true "" kOpcodePing (conn s) in
  let s := put_conn c s in
  if ok : bool then (true, s) else (false, notify_disconnect_once s).

Definition close s : Transport :=
  if negb (m_handle (conn s)) then s else put_notified (on_conn (fun c => shut (write close_frame c).2) s).

(** ** ACE_Event_Handler *)

(** [m_on_bytes]: the factory's callback puts the bytes on the dispatch task's queue. *)
Definition tell_bytes (bytes : string) s : result unit * Transport :=
  (Ok tt, mkTransport (conn s) (m_recv_buf s) (m_close_notified s) (m_inner_tls s) (object s) (registered s) (told s ++ [bytes]) (losses s)).

(** The body of the [switch] of [drain_frames]: the control frames, and all. *)
Definition control_frame (f : Frame) s : verdict Transport :=
  client_frame on_conn (fun _ => Continue) (fun _ => notify_disconnect_once) f s.
Definition put_session (p : T * TlsBridge) s : Transport := put_inner (Some p) s.
Definition on_frame : Frame -> Transport -> verdict Transport :=
  tls_frame m_inner_tls conn put_session put_conn tell_bytes notify_disconnect_once control_frame.
Definition drain_frames (buf : string) s : drained Transport := drain on_frame buf s.

Definition handle_input s : drained Transport :=
  let '(chunk, c) := read (conn s) in
  let s := put_conn c s in
  match chunk with
  | None => Stopped (m_recv_buf s) (notify_disconnect_once s)
  | Some bytes => drain_frames (m_recv_buf s +:+ bytes) s
  end.

(** Called by the reactor, which has dropped the handler. *)
Definition handle_close s : Transport := on_conn shut (notify_disconnect_once s).

(** ** The life of a transport *)

(** What the connector does with it, and what the reactor does while it has it. *)
Inductive event := Send (bytes : string) | Ping | Drop | Readable | HandleClosed.

(** [None]: the decoder's undefined behaviour, a call that does not return, or a call of an
    object that is gone. *)
Definition react (e : event) s : option Transport :=
  match e, object s with
  | Send bytes, Alive => Some (send bytes s).2
  | Ping, Alive => Some (send_ws_ping s).2
  | Drop, Alive => Some (destroy (close s))
  | Readable, Alive =>
      if negb (registered s) then Some s else
      match handle_input s with
      | NeedBytes buf s => Some (put_buf buf s)
      | Stopped buf s => Some (handle_close (put_registered false (put_buf buf s)))
      | Undef | Spin => None
      end
  | HandleClosed, Alive => if registered s then Some (handle_close (put_registered false s)) else Some s
  | (Readable | HandleClosed), Dead => if registered s then None else Some s
  | _, _ => Some s
  end.
Fixpoint reacts (es : list event) s : option Transport :=
  match es with [] => Some s | e :: es' => s' ← react e s; reacts es' s' end.
End Transport.
Arguments Transport : clear implicits.

(** * What the agent's transport guarantees: the connector hears of its end at most once,
    nothing is written after its socket was closed, and a transport that is gone has no
    socket and no session left; and what the reactor is left with when the connector drops
    it. *)

Section Spec.
Context {N T : Type} `{!NetIO N} `{!NetDial N} `{!Digest} `{!Tls T} `{!Fuel}.
Implicit Types (s : Transport N T).

(** A transport whose socket was opened, still in memory. *)
Definition live (r : bool) s : Prop :=
  history_ok (m_handle (conn s)) (log (conn s)) /\ (losses s <= if m_close_notified s then 1 else 0)%nat
  /\ object s = Alive /\ registered s = r.
Definition keeps_live s s' : Prop := forall r, live r s -> live r s'.
#[global] Instance keeps_live_preorder : PreOrder keeps_live.
Proof. split; [by intros s r Hs|]. intros s1 s2 s3 H1 H2 r Hs. auto. Qed.

Lemma live_sock c s : sock_rel (conn s) c -> keeps_live s (put_conn c s).
Proof. intros (_ & _ & Hk) r (H1 & H2 & H3). split; [by apply Hk|done]. Qed.
Lemma live_shut s : keeps_live s (on_conn shut s).
Proof. intros r (H1 & H2 & H3). split; [cbn; rewrite (proj1 (shut_state _)); by apply shut_history|done]. Qed.
Lemma live_notify s : keeps_live s (notify_disconnect_once s).
Proof.
  intros r Hs. unfold notify_disconnect_once. destruct (m_close_notified s) eqn:Hn; [done|].
  destruct Hs as (H1 & H2 & H3). rewrite Hn in H2. split; [done|]. split; [cbn; lia|done].
Qed.
Lemma notify_notified s : m_close_notified (notify_disconnect_once s) = true.
Proof. unfold notify_disconnect_once. by destruct (m_close_notified s) eqn:Hn. Qed.

Lemma live_send bytes s : keeps_live s (send bytes s).2.
Proof.
  unfold send. destruct (m_handle (conn s)); cbn [negb]; [|reflexivity]. destruct (m_inner_tls s) as [[t b]|].
  - pose proof (sock_inner_send bytes (mkInner t (b, conn s))) as Hs. destruct (InnerTls.send _ _) as [ok i]. cbn [snd transport] in Hs.
    set (s1 := put_conn _ _). assert (H1 : keeps_live s s1) by exact (live_sock (session_of i) s Hs).
    destruct ok; [exact H1|]. etransitivity; [exact H1|apply live_notify].
  - pose proof (live_sock _ s (sock_write_frame true bytes kOpcodeText (conn s))) as Hs.
    destruct (write_frame _ _ _ _) as [[] c]; cbn [snd] in *; [exact Hs|]. etransitivity; [exact Hs|apply live_notify].
Qed.
Lemma live_ping s : keeps_live s (send_ws_ping s).2.
Proof.
  unfold send_ws_ping. destruct (m_handle (conn s)); cbn [negb]; [|reflexivity].
  pose proof (live_sock _ s (sock_write_frame true "" kOpcodePing (conn s))) as Hs.
  destruct (write_frame _ _ _ _) as [[] c]; cbn [snd] in *; [exact Hs|]. etransitivity; [exact Hs|apply live_notify].
Qed.
Lemma live_close s : keeps_live s (close s).
Proof.
  unfold close. destruct (m_handle (conn s)); cbn [negb]; [|reflexivity].
  etransitivity; [apply (live_sock _ s (sock_write close_frame (conn s)))|]. etransitivity; [apply live_shut|].
  intros r (H1 & H2 & H3). split; [done|]. split; [|done]. cbn in *. destruct (m_close_notified s); lia.
Qed.

Lemma live_control f s : match control_frame f s with Continue s' | Halt s' => keeps_live s s' | Hang => True end.
Proof.
  apply client_frame_keeps; [apply _| | |].
  - intros mask p op s1. apply live_sock, sock_write_frame.
  - intros p s1. reflexivity.
  - intros reason s1. apply live_notify.
Qed.
Lemma live_frames fuel buf s :
  match drain_loop on_frame fuel buf s with NeedBytes _ s' | Stopped _ s' => keeps_live s s' | _ => True end.
Proof.
  apply tls_drain_keeps; [apply _| | | |apply live_notify|apply live_control].
  - by intros p s1 r Hs.
  - intros t b s1 r i Hr. apply sock_inner_recv in Hr. exact (live_sock (transport i).2 s1 Hr).
  - by intros bytes s1 r Hs.
Qed.
Lemma live_input s : match handle_input s with NeedBytes _ s' | Stopped _ s' => keeps_live s s' | _ => True end.
Proof.
  unfold handle_input. pose proof (live_sock _ s (sock_read (conn s))) as Hr.
  destruct (read (conn s)) as [[bytes|] c]; cbn [snd] in Hr.
  - pose proof (live_frames (S (String.length (m_recv_buf s +:+ bytes))) (m_recv_buf s +:+ bytes) (put_conn c s)) as Hd.
    unfold drain_frames, drain. cbn [m_recv_buf put_conn]. destruct (drain_loop _ _ _ _); try done; by etransitivity.
  - etransitivity; [exact Hr|apply live_notify].
Qed.

(** ** A transport that is gone *)

Definition gone s : Prop :=
  object s = Dead /\ m_handle (conn s) = false /\ m_inner_tls s = None /\ m_close_notified s = true /\ (losses s <= 1)%nat
  /\ conn_ok (conn s).

Lemma destroy_gone s :
  conn_ok (conn s) -> (losses s <= if m_close_notified s then 1 else 0)%nat -> gone (destroy s).
Proof.
  intros Hc Hl. unfold gone, destroy. cbn. rewrite (proj1 (shut_state _)).
  assert (Hn : conn (notify_disconnect_once s) = conn s) by (unfold notify_disconnect_once; by destruct (m_close_notified s)).
  rewrite Hn. split_and!; [done|done|done|apply notify_notified| |by apply conn_ok_shut].
  unfold notify_disconnect_once. destruct (m_close_notified s); cbn; lia.
Qed.

Definition transport_ok s : Prop := (exists r, live r s) \/ gone s.

Lemma transport_react_ok e s s' : react e s = Some s' -> transport_ok s -> transport_ok s'.
Proof.
  intros He [[r Hl]|Hg].
  - assert (Ho : object s = Alive) by apply Hl. unfold react in He. rewrite Ho in He.
    assert (Hclose : forall s1, (exists r, live r s1) -> transport_ok (handle_close (put_registered false s1))).
    { intros s1 [r1 H1]. left. exists false. apply live_shut, live_notify. by destruct H1 as (? & ? & ? & ?). }
    destruct e as [bytes| | | |].
    + injection He as <-. left. exists r. by apply live_send.
    + injection He as <-. left. exists r. by apply live_ping.
    + injection He as <-. right. destruct (live_close s r Hl) as (H1 & H2 & _). apply destroy_gone; [by left|done].
    + destruct (registered s); cbn [negb] in He; [|injection He as <-; left; by exists r].
      pose proof (live_input s) as Hi. destruct (handle_input s) as [buf s1|buf s1| |]; try done; injection He as <-.
      * left. exists r. exact (Hi r Hl).
      * apply (Hclose (put_buf buf s1)). exists r. exact (Hi r Hl).
    + destruct (registered s); injection He as <-; [apply Hclose|left]; by exists r.
  - destruct Hg as (Ho & Hg). unfold react in He. rewrite Ho in He. right.
    destruct e; try (injection He as <-; by split); destruct (registered s); try done; injection He as <-; by split.
Qed.

(** ** From the dial on *)

Lemma setup_live cfg s ok s' :
  setup_inner_tls cfg s = Some (ok, s') -> live (registered s) s ->
  live (registered s) s' /\ m_handle (conn s') = (if ok then m_handle (conn s) else false) /\ told s' = told s
  /\ losses s' = losses s /\ m_close_notified s' = m_close_notified s.
Proof.
  unfold setup_inner_tls. intros He Hl. destruct (str_empty (cert_path cfg)); [by injection He as <- <-|].
  set (t := if str_empty (ca_path cfg) then tls_client else _) in He. clearbody t.
  destruct (tls_set_cert (cert_path cfg) (key_path cfg) t) as [okc t1].
  assert (Hfail : forall c, sock_rel (conn s) c -> let s1 := on_conn shut (put_conn c (put_inner None s)) in
    live (registered s) s1 /\ m_handle (conn s1) = false /\ told s1 = told s /\ losses s1 = losses s /\ m_close_notified s1 = m_close_notified s).
  { intros c Hc s1. split; [apply live_shut; by apply (live_sock c (put_inner None s))|]. split; [apply shut_state|done]. }
  destruct okc; cbn [negb] in He; [|injection He as <- <-; by apply (Hfail (conn s))].
  destruct (handshake _) as [[[] i]|] eqn:Hh; [| |done]; apply sock_handshake in Hh; cbn [transport snd] in Hh.
  - destruct (negb _ && negb _); [injection He as <- <-; by apply (Hfail (session_of i))|].
    destruct (leftover_socket_bytes _) as [left b]. injection He as <- <-.
    split; [exact (live_sock (session_of i) s Hh _ Hl)|]. split; [apply Hh|done].
  - injection He as <- <-. by apply (Hfail (session_of i)).
Qed.

(** What the factory returns: a registered transport with an open socket, or nothing, and
    then the transport it made is gone and the end was told once. *)
Lemma create_outcome host port cfg rand n ok s :
  create_connected host port cfg rand n = Some (ok, s) ->
  told s = [] /\ if ok then live true s /\ m_handle (conn s) = true /\ losses s = 0%nat else gone s /\ losses s = 1%nat.
Proof.
  unfold create_connected, connect_and_handshake. set (s0 := new_transport n).
  assert (Hd1 : forall s1 : Transport N T, m_close_notified s1 = false -> losses s1 = 0%nat -> losses (destroy s1) = 1%nat).
  { intros s1 H1 H2. unfold destroy, notify_disconnect_once. cbn. by rewrite H1; cbn; rewrite H2. }
  assert (Hgone : forall s1 : Transport N T, told s1 = [] -> conn_ok (conn s1) -> m_close_notified s1 = false -> losses s1 = 0%nat ->
    told (destroy s1) = [] /\ gone (destroy s1) /\ losses (destroy s1) = 1%nat).
  { intros s1 Ht1 H1 H2 H3. split_and!; [|apply destroy_gone; [done|rewrite H3; lia]|by apply Hd1].
    unfold destroy, notify_disconnect_once. cbn. by rewrite H2. }
  pose proof (dial_outcome (transport_request rand host "/agent") validate_upgrade_response host port (conn s0) eq_refl) as Hd.
  pose proof (conn_ok_dial (transport_request rand host "/agent") validate_upgrade_response host port (conn s0) eq_refl eq_refl) as Hc.
  destruct (dial _ _ _ _ _) as [okd c]. cbn [snd] in Hc. destruct Hd as (Hh & _ & ev & Hlog & Hev). set (s1 := put_conn c s0).
  destruct okd; cbn [negb]; [|intros [= <- <-]; by apply (Hgone s1)].
  assert (Hl : live false s1).
  { split; [|by split_and!]. destruct Hc as [Hc|[Hc _]]; [exact Hc|congruence]. }
  destruct (setup_inner_tls cfg s1) as [[oks s2]|] eqn:Hs; [|done].
  destruct (setup_live cfg s1 oks s2 Hs Hl) as (Hl2 & Hh2 & Ht2 & Hlo2 & Hn2).
  assert (Hc2 : conn_ok (conn s2)) by (left; apply Hl2). destruct oks; [|intros [= <- <-]; by apply Hgone].
  destruct (add_handler (conn s2)) as [oka c3] eqn:Ha. pose proof (add_handler_state (conn s2)) as [E _].
  pose proof (add_handler_history (conn s2)) as Hk. rewrite Ha in E, Hk. cbn [snd] in E, Hk.
  destruct Hl2 as (L1 & L2 & L3 & L4). specialize (Hk L1). destruct oka; intros [= <- <-].
  - split; [done|]. split; [|split; [cbn; rewrite E, Hh2; exact Hh|done]].
    split; [cbn; by rewrite E|]. split; [done|done].
  - apply Hgone; try done. left. cbn. by rewrite E.
Qed.

(** From the dial on, whatever the connector, the reactor and the cloud do and in whatever
    order: the connector hears of the end at most once, the socket is closed at most once
    and nothing is written after that, and a transport that is gone has neither a socket nor
    a session. *)
Theorem transport_told_once host port cfg rand n ok s es s' :
  create_connected host port cfg rand n = Some (ok, s) -> reacts es s = Some s' ->
  (losses s' <= 1)%nat /\ conn_ok (conn s')
  /\ (object s' = Dead -> m_handle (conn s') = false /\ m_inner_tls s' = None /\ m_close_notified s' = true).
Proof.
  intros Hc Hr. destruct (create_outcome _ _ _ _ _ _ _ Hc) as [_ Ho].
  assert (Hok : transport_ok s) by (destruct ok; [left; exists true|right]; apply Ho). clear Hc Ho.
  assert (Hok' : transport_ok s').
  { revert s Hr Hok. induction es as [|e es IH]; intros s; cbn [reacts]; [by intros [= <-]|].
    destruct (react e s) as [s1|] eqn:E; [|done]. cbn. intros Hr Hok. apply (IH s1 Hr). by eapply transport_react_ok. }
  destruct Hok' as [[r (H1 & H2 & H3 & _)]|(H1 & H2 & H3 & H4 & H5 & H6)].
  - split; [destruct (m_close_notified s'); lia|]. split; [by left|]. by rewrite H3.
  - by split_and!.
Qed.

(** ** Two things the code does not do *)

(** When the connector drops a transport that is still registered, nobody tells the reactor:
    it is left with a pointer to the deleted object, and its next callback is undefined. *)
Lemma dropped_handler_dangles host port cfg rand n s :
  create_connected host port cfg rand n = Some (true, s) ->
  exists s', react Drop s = Some s' /\ object s' = Dead /\ registered s' = true /\ react Readable s' = None.
Proof.
  intros Hc. destruct (create_outcome _ _ _ _ _ _ _ Hc) as (_ & (_ & _ & Ho & Hr) & _). unfold react. rewrite Ho.
  eexists. split; [done|].
  assert (E : registered (destroy (close s)) = true).
  { unfold destroy, close, notify_disconnect_once. destruct (m_handle (conn s)); cbn; [by rewrite Hr|].
    destruct (m_close_notified s); cbn; by rewrite Hr. }
  split; [done|]. split; [exact E|]. by rewrite E.
Qed.

(** What arrived together with the end of the handshake waits in the buffer, whole frames
    too, until the cloud sends more. *)
Lemma leftover_waits es s s' :
  Forall (fun e => e <> Readable) es -> reacts es s = Some s' -> told s' = told s.
Proof.
  intros Hes. revert s. induction Hes as [|e es He Hes IH]; intros s; cbn [reacts]; [by intros [= <-]|].
  destruct (react e s) as [s1|] eqn:E; [|done]. cbn. intros Hr. rewrite (IH s1 Hr). clear IH Hr.
  assert (Hn : forall s2 : Transport N T, told (notify_disconnect_once s2) = told s2)
    by (intros s2; unfold notify_disconnect_once; by destruct (m_close_notified s2)).
  unfold react in E. destruct (object s); destruct e as [bytes| | | |]; try done; try (injection E as <-; done).
  - injection E as <-. unfold send. destruct (negb _); [done|]. destruct (m_inner_tls s) as [[t b]|].
    + destruct (InnerTls.send _ _) as [[] i]; [done|cbn; by rewrite Hn].
    + destruct (write_frame _ _ _ _) as [[] c]; [done|cbn; by rewrite Hn].
  - injection E as <-. unfold send_ws_ping. destruct (negb _); [done|].
    destruct (write_frame _ _ _ _) as [[] c]; [done|cbn; by rewrite Hn].
  - injection E as <-. unfold destroy. cbn. rewrite Hn. unfold close. by destruct (negb _).
  - destruct (registered s); injection E as <-; [|done]. unfold handle_close. cbn. by rewrite Hn.
  - destruct (registered s); [done|]. by injection E as <-.
Qed.
End Spec.
