(* ===== verification/SecureTunnel.v ===== *)
(** The two ends of the tunnel's socket together: [AceSslTransport] of the agent
    ([CloudTransport]) and [AgentStream] of the cloud.  What one end's [send] accepts, the
    other end hands over: through the inner TLS, the bridge's WebSocket frames and the reads
    of the socket, in both directions. *)

From S2P Require Import Prelude WsFrame WsStream WsConn WsHistory Base64 WsUpgrade ClientSocket InnerTls WsTlsBridge TlsLoop.
From S2P Require Import AgentStream AgentStreamSpec AgentStack CloudTransport.

#[local] Open Scope Z_scope.

(** ** Sending: messages to frames *)

(** Masking keys have 32 bits ([std::uniform_int_distribution<std::uint32_t>]). *)
Class MaskLaws (N : Type) `{!NetIO N} : Prop := mask_key_range n : 0 <= (net_mask_key n).1 < 2 ^ 32.

(** The size of ciphertext (RFC 5246, 6.2): a record carries at most 2^14 bytes and is at
    most 2^14 + 2048 + 5 long; [BIO_read] returns at most what it was asked for. *)
Definition record_bound (n : Z) : Z := (n / 16384 + 1) * 18437.
Class TlsSizes (T : Type) `{!Tls T} `{!TlsChannel T} : Prop := {
  write_size p t t1 : tls_up t -> tls_write p t = (true, t1) ->
    Z.of_nat (tls_pending t1) <= record_bound (Z.of_nat (String.length p));
  read_size t c t1 : tls_bio_read (tls_pending t) t = (Some c, t1) -> (String.length c <= tls_pending t)%nat;
}.
Definition message_ok (p : string) : Prop := p <> "" /\ Z.of_nat (String.length p) < 2 ^ 62.

(** The bytes of the log that the peer's socket delivers. *)
Definition sent_bytes (l : list net_event) : string :=
  str_concat (omap (fun e => match e with Sent bytes _ => Some bytes | _ => None end) l).

Lemma sent_bytes_app l l' : sent_bytes (l ++ l') = sent_bytes l +:+ sent_bytes l'.
Proof. unfold sent_bytes. by rewrite omap_app, str_concat_app. Qed.

Section Sending.
Context {N T : Type} `{!NetIO N} `{!MaskLaws N} `{!Tls T} `{!TlsChannel T} `{!TlsSizes T} `{!Fuel}.
Implicit Types (t : T) (b : TlsBridge) (c : Conn N).

Lemma write_frame_log mask p op c :
  m_handle c = true ->
  exists key, 0 <= key < 2 ^ 32 /\ m_handle (write_frame mask p op c).2 = true
    /\ log (write_frame mask p op c).2 = log c ++ [Sent (encode p op mask 0 key) (write_frame mask p op c).1].
Proof.
  intros Hh. unfold write_frame. destruct mask.
  - pose proof (mask_key_range (net c)) as Hk. destruct (net_mask_key (net c)) as [key s]. exists key. split; [exact Hk|].
    unfold write. cbn [m_handle net log]. rewrite Hh. by destruct (net_send _ s).
  - exists 0. split; [lia|]. unfold write. rewrite Hh. by destruct (net_send _ (net c)).
Qed.

(** One message is one binary frame of ciphertext on the socket. *)
Lemma inner_send_wire p t b c :
  message_ok p -> tls_up t -> idle_bridge b -> m_handle c = true ->
  exists w t' c', InnerTls.send p (mkInner t (b, c)) = ((InnerTls.send p (mkInner t (b, c))).1, mkInner t' (b, c'))
    /\ wire_ok w /\ opcode (w_frame w) = kOpcodeBinary /\ m_handle c' = true
    /\ log c' = log c ++ [Sent (wire_bytes w) (InnerTls.send p (mkInner t (b, c))).1]
    /\ tls_up t' /\ sealed t' = sealed t +:+ p /\ emitted t' = emitted t +:+ payload (w_frame w) /\ same_input t t'.
Proof.
  intros [Hp Hlen] Hup [_ Hcl] Hh. unfold InnerTls.send, flush_wbio, send_pending.
  destruct (up_write p t Hup Hp) as (t1 & ct & t2 & Hw & Hn & Hb & U & S1 & E1 & F & D & P & G).
  assert (Hct : Z.of_nat (String.length ct) < 2 ^ 63).
  { pose proof (write_size p t t1 Hup Hw) as Hws. pose proof (read_size _ _ _ Hb) as Hrs. unfold record_bound in Hws.
    pose proof (Z.mul_div_le (Z.of_nat (String.length p)) 16384 ltac:(lia)) as Hd. lia. }
  cbn [ssl transport]. rewrite Hw. cbn [ssl transport]. rewrite (proj2 (Nat.eqb_neq _ _) Hn), Hb.
  cbn [tr_send bridge_transport WsTlsBridge.send]. rewrite Hcl.
  destruct (write_frame_log (m_client_mask b) ct kOpcodeBinary c Hh) as (key & Hkey & Hh' & Hlog).
  destruct (write_frame (m_client_mask b) ct kOpcodeBinary c) as [ok c']. cbn [fst snd] in *.
  exists (mkWire (mkFrame kOpcodeBinary ct) (m_client_mask b) 0 key), t2, c'.
  split; [done|]. split; [unfold wire_ok, ws_ok, kOpcodeBinary; cbn [w_frame payload opcode w_key w_random]; lia|].
  by split_and!.
Qed.

(** Messages in a row, until one is refused. *)
Fixpoint seal_all (ms : list string) (s : Inner T (TlsBridge * Conn N)) : bool * Inner T (TlsBridge * Conn N) :=
  match ms with
  | [] => (true, s)
  | m :: ms' => let '(ok, s) := InnerTls.send m s in if ok : bool then seal_all ms' s else (false, s)
  end.

Lemma seal_all_wires ms t b c :
  Forall message_ok ms -> tls_up t -> idle_bridge b -> m_handle c = true -> (seal_all ms (mkInner t (b, c))).1 = true ->
  exists ws t' c', (seal_all ms (mkInner t (b, c))).2 = mkInner t' (b, c') /\ Forall wire_ok ws
    /\ Forall (fun w => opcode (w_frame w) = kOpcodeBinary) ws /\ m_handle c' = true
    /\ (exists l, log c' = log c ++ l /\ sent_bytes l = wire_stream ws)
    /\ tls_up t' /\ sealed t' = sealed t +:+ str_concat ms /\ emitted t' = emitted t +:+ cipher (map w_frame ws) /\ same_input t t'.
Proof.
  intros Hms. revert t c. induction Hms as [|m ms Hm Hms IH]; intros t c Hup Hb Hh Hok.
  { exists [], t, c. split_and!; try done; [exists []; by rewrite app_nil_r|by rewrite str_app_nil_r|by cbn; rewrite str_app_nil_r]. }
  cbn [seal_all] in *. destruct (inner_send_wire m t b c Hm Hup Hb Hh) as (w & t1 & c1 & E & Hw & Hbin & Hh1 & Hl1 & U1 & S1 & M1 & I1).
  destruct (InnerTls.send m (mkInner t (b, c))) as [ok s1]. cbn [fst] in *. injection E as ->. destruct ok; [|done].
  destruct (IH t1 c1 U1 Hb Hh1 Hok) as (ws & t' & c' & E' & Hws & Hbins & Hh' & (l & Hl & Hs) & U' & S' & M' & I').
  exists (w :: ws), t', c'. split; [done|]. split; [by constructor|]. split; [by constructor|]. split; [done|]. split.
  - exists ([Sent (wire_bytes w) true] ++ l). split; [by rewrite Hl, Hl1, <- app_assoc|].
    rewrite sent_bytes_app, Hs. unfold sent_bytes. cbn. by rewrite str_app_nil_r.
  - split; [done|]. split; [by rewrite S', S1, str_app_assoc|]. split.
    + rewrite M', M1. cbn [map]. by rewrite cipher_cons, Hbin, str_app_assoc.
    + destruct I1 as (A1 & A2 & A3 & A4), I' as (B1 & B2 & B3 & B4). unfold same_input. split_and!; congruence.
Qed.
End Sending.

(** What was written to a socket between two moments. *)
Definition written {N} (c c' : Conn N) : string := sent_bytes (drop (List.length (log c)) (log c')).
Lemma written_app {N} (c c' : Conn N) l : log c' = log c ++ l -> written c c' = sent_bytes l.
Proof. intros Hl. unfold written. by rewrite Hl, drop_app_length. Qed.

(** ** The agent's sends and the cloud's sends *)

Section Agent.
Context {N T : Type} `{!NetIO N} `{!Tls T} `{!Fuel}.

Fixpoint send_all (ms : list string) (s : Transport N T) : bool * Transport N T :=
  match ms with
  | [] => (true, s)
  | m :: ms' => let '(ok, s) := CloudTransport.send m s in if ok : bool then send_all ms' s else (false, s)
  end.

Lemma send_all_seal ms s t b :
  m_inner_tls s = Some (t, b) -> m_handle (conn s) = true -> (send_all ms s).1 = true ->
  let i := seal_all ms (mkInner t (b, conn s)) in
  i.1 = true /\ conn (send_all ms s).2 = (transport i.2).2 /\ m_inner_tls (send_all ms s).2 = Some (ssl i.2, (transport i.2).1).
Proof.
  revert s t b. induction ms as [|m ms IH]; intros s t b Hi Hh Hok; [done|]. cbn [send_all seal_all] in *.
  unfold CloudTransport.send in *. rewrite Hh, Hi in *. cbn [negb] in *.
  pose proof (sock_inner_send m (mkInner t (b, conn s))) as Hs. destruct (InnerTls.send m (mkInner t (b, conn s))) as [[] [t1 [b1 c1]]];
    cbn [snd transport] in Hs; [|done].
  apply (IH (put_conn c1 (put_inner (Some (t1, b1)) s)) t1 b1); [done| |done]. cbn. destruct Hs as [Hs _]. by rewrite Hs.
Qed.
End Agent.

Section Cloud.
Context {N T : Type} `{!NetIO N} `{!Tls T} `{!Fuel}.

Fixpoint write_all (ms : list string) (a : AgentStream.Agent N T) : bool * AgentStream.Agent N T :=
  match ms with
  | [] => (true, a)
  | m :: ms' => let '(ok, a) := AgentStream.write_bytes m a in if ok : bool then write_all ms' a else (false, a)
  end.

Lemma write_all_seal ms a t b :
  AgentStream.m_inner_tls a = Some (t, b) -> m_handle (AgentStream.conn a) = true -> (write_all ms a).1 = true ->
  let i := seal_all ms (mkInner t (b, AgentStream.conn a)) in
  i.1 = true /\ AgentStream.conn (write_all ms a).2 = (transport i.2).2
  /\ AgentStream.m_inner_tls (write_all ms a).2 = Some (ssl i.2, (transport i.2).1).
Proof.
  revert a t b. induction ms as [|m ms IH]; intros a t b Hi Hh Hok; [done|]. cbn [write_all seal_all] in *.
  unfold AgentStream.write_bytes, inner_of in *. rewrite Hh, Hi in *. cbn [negb] in *.
  pose proof (sock_inner_send m (mkInner t (b, AgentStream.conn a))) as Hs.
  destruct (InnerTls.send m (mkInner t (b, AgentStream.conn a))) as [[] [t1 [b1 c1]]]; cbn [snd transport] in Hs; [|done].
  apply (IH (AgentStream.with_inner (mkInner t1 (b1, c1)) a) t1 b1); [done| |done]. cbn. destruct Hs as [Hs _]. by rewrite Hs.
Qed.
End Cloud.

(** ** End to end *)

Lemma binary_keeps_going (ws : list Wire) {X N} (sock : X -> Conn N) x :
  Forall (fun w => opcode (w_frame w) = kOpcodeBinary) ws -> stops sock (map w_frame ws) x -> m_handle (sock x) = false.
Proof.
  intros Hb [Hs|Hs]; [|exact Hs]. apply list.Exists_exists in Hs as (f & Hf & Hk).
  apply list_elem_of_fmap in Hf as (w & -> & Hw). rewrite list.Forall_forall in Hb. specialize (Hb w Hw).
  unfold keeps_going in Hk. by rewrite Hb in Hk.
Qed.

(** The receiving session has read all that the sending one emitted so far. *)
Definition in_step {T} `{!Tls T} `{!TlsChannel T} (t t' : T) : Prop := fed t' = emitted t /\ linked t t'.

Section Ends.
Context {N N' T W : Type} `{!NetIO N} `{!MaskLaws N} `{!NetIO N'} `{!MaskLaws N'}.
Context `{!Tls T} `{!TlsChannel T} `{!TlsSizes T} `{!Fuel} `{!EndpointHost N' T W}.
Context (host_sends : forall bytes a w,
  exists ops, (host_bytes (N := N') bytes a w).2.1 = run_adapter ops a /\ Forall op_nonempty ops).

(** C6. What the agent sends reaches the cloud's endpoint.  Let the agent's transport accept
    any messages, and let the bytes it wrote for them reach the cloud's socket cut at any
    place.  Then the cloud's stream has handed the endpoint exactly the messages, in order
    and each byte once, unless the endpoint closed the socket or threw. *)
Theorem agent_to_cloud ms (s : Transport N T) t b chunks (x : AgentStream.World N' T W) tc bc :
  Forall message_ok ms -> m_inner_tls s = Some (t, b) -> tls_up t -> idle_bridge b -> m_handle (conn s) = true ->
  between session tc bc x -> in_step t tc ->
  let s' := (send_all ms s).2 in
  (send_all ms s).1 = true -> (forall t', m_inner_tls s' = Some (t', b) -> linked t' tc) ->
  str_concat chunks = written (conn s) (conn s') ->
  match feed AgentStream.on_frame chunks "" x with
  | NeedBytes rest x' => rest = "" /\ bytes_told x' = bytes_told x +:+ str_concat ms
  | Stopped _ x' => m_handle (sock x') = false
  | Undef => False
  | Spin => throws
  end.
Proof.
  intros Hms Hi Hup Hb Hh Hx [Hfed [_ Hl0]] s' Hok Hlink Hc. destruct (send_all_seal ms s t b Hi Hh Hok) as (Hs & Hconn & Hin).
  destruct (seal_all_wires ms t b (conn s) Hms Hup Hb Hh Hs) as (ws & t' & c' & E & Hws & Hbin & Hh' & (l & Hlog & Hsent) & U & S1 & M & I).
  fold s' in Hconn, Hin. rewrite E in Hconn, Hin. cbn [transport ssl fst snd] in Hconn, Hin. rewrite Hconn in Hc.
  rewrite (written_app _ _ l Hlog), Hsent in Hc.
  pose proof (tls_delivers session sock AgentStream.put_session put_sock AgentStream.tell_bytes
    AgentStream.notify_disconnect_once AgentStream.control_frame
    (fun _ _ => eq_refl) (fun _ _ => eq_refl) (fun _ _ => eq_refl) (fun _ _ => eq_refl) bytes_told throws
    (fun _ _ => eq_refl) (fun _ _ => eq_refl) (tell_bytes_secure host_sends) tell_bytes_throws control_frame_told
    chunks ws "" tc bc t' x Hx (Hlink t' Hin) Hws partial_nil) as Hd.
  rewrite str_app_nil_r, Hfed in Hd. specialize (Hd Hc (eq_sym M)). unfold AgentStream.on_frame.
  destruct (feed _ _ _ _) as [rest x'|rest x'| |]; [| |done|done].
  - destruct Hd as [-> (p & Hp & Hd)]. split; [done|]. rewrite Hp. f_equal.
    destruct Hx as (_ & _ & Hdel & _). rewrite Hdel, Hfed, Hl0, S1 in Hd. by apply str_app_inj_l in Hd.
  - destruct Hd as [Hd _]. by apply (binary_keeps_going ws sock x').
Qed.
End Ends.

Section Back.
Context {N N' T : Type} `{!NetIO N} `{!MaskLaws N} `{!NetIO N'} `{!Tls T} `{!TlsChannel T} `{!TlsSizes T} `{!Fuel}.

Definition told_text (s : Transport N' T) : string := str_concat (told s).

Lemma told_text_tell bytes (s : Transport N' T) : told_text (CloudTransport.tell_bytes bytes s).2 = told_text s +:+ bytes.
Proof. unfold told_text. cbn. rewrite str_concat_app. cbn. by rewrite str_app_nil_r. Qed.
Lemma told_text_lost (s : Transport N' T) : told_text (CloudTransport.notify_disconnect_once s) = told_text s.
Proof. unfold CloudTransport.notify_disconnect_once. by destruct (m_close_notified s). Qed.

Lemma transport_control_told f (s : Transport N' T) :
  is_data (opcode f) = false ->
  match CloudTransport.control_frame f s with
  | Continue s' => m_inner_tls s' = m_inner_tls s /\ told_text s' = told_text s
  | Halt s' => keeps_going f = false /\ told_text s' = told_text s
  | Hang => False
  end.
Proof.
  intros Hd. unfold CloudTransport.control_frame, client_frame, keeps_going. rewrite Hd.
  destruct (opcode f =? kOpcodePing); [done|]. destruct (opcode f =? kOpcodePong); [done|].
  destruct (opcode f =? kOpcodeClose); by rewrite told_text_lost.
Qed.

(** The transport's own actions leave its socket open. *)
Definition keeps_handle (s s' : Transport N' T) : Prop := m_handle (conn s') = m_handle (conn s).
#[local] Instance keeps_handle_preorder : PreOrder keeps_handle.
Proof. split; [done|]. unfold keeps_handle. intros s1 s2 s3. congruence. Qed.
Lemma feed_keeps_handle chunks buf (s : Transport N' T) :
  match feed CloudTransport.on_frame chunks buf s with NeedBytes _ s' | Stopped _ s' => keeps_handle s s' | _ => True end.
Proof.
  assert (Hlost : forall s1 : Transport N' T, keeps_handle s1 (CloudTransport.notify_disconnect_once s1))
    by (intros s1; unfold CloudTransport.notify_disconnect_once; by destruct (m_close_notified s1)).
  apply tls_feed_keeps; [apply _|done| |done|exact Hlost|].
  - intros t b s1 r i Hr. apply sock_inner_recv in Hr. apply Hr.
  - intros f s1. apply client_frame_keeps; [apply _| |done|intros _; exact Hlost].
    intros mask p op s2. apply sock_write_frame.
Qed.

(** C7. What the cloud sends reaches the agent: the messages that the cloud's stream accepts
    are on the queue of the agent's dispatch task, in order and each byte once, wherever the
    network cut them; the transport never stops over them. *)
Theorem cloud_to_agent ms (a : AgentStream.Agent N T) t b chunks (s : Transport N' T) tc bc :
  Forall message_ok ms -> AgentStream.m_inner_tls a = Some (t, b) -> tls_up t -> idle_bridge b ->
  m_handle (AgentStream.conn a) = true -> m_handle (conn s) = true ->
  between m_inner_tls tc bc s -> in_step t tc ->
  let a' := (write_all ms a).2 in
  (write_all ms a).1 = true -> (forall t', AgentStream.m_inner_tls a' = Some (t', b) -> linked t' tc) ->
  str_concat chunks = written (AgentStream.conn a) (AgentStream.conn a') ->
  exists s', feed CloudTransport.on_frame chunks "" s = NeedBytes "" s' /\ told_text s' = told_text s +:+ str_concat ms.
Proof.
  intros Hms Hi Hup Hb Hh Hhs Hx [Hfed [_ Hl0]] a' Hok Hlink Hc. destruct (write_all_seal ms a t b Hi Hh Hok) as (Hs & Hconn & Hin).
  destruct (seal_all_wires ms t b (AgentStream.conn a) Hms Hup Hb Hh Hs) as (ws & t' & c' & E & Hws & Hbin & Hh' & (l & Hlog & Hsent) & U & S1 & M & I).
  fold a' in Hconn, Hin. rewrite E in Hconn, Hin. cbn [transport ssl fst snd] in Hconn, Hin. rewrite Hconn in Hc.
  rewrite (written_app _ _ l Hlog), Hsent in Hc.
  pose proof (tls_delivers m_inner_tls conn CloudTransport.put_session CloudTransport.put_conn CloudTransport.tell_bytes
    CloudTransport.notify_disconnect_once CloudTransport.control_frame
    (fun _ _ => eq_refl) (fun _ _ => eq_refl) (fun _ _ => eq_refl) (fun _ _ => eq_refl) told_text False
    (fun _ _ => eq_refl) (fun _ _ => eq_refl)) as Hd.
  specialize (Hd (fun bytes t b s1 _ Hs1 => conj (ex_intro _ t (conj Hs1 (conj eq_refl (conj eq_refl (conj eq_refl eq_refl))))) (told_text_tell bytes s1))).
  specialize (Hd ltac:(done) transport_control_told chunks ws "" tc bc t' s Hx (Hlink t' Hin) Hws partial_nil).
  rewrite str_app_nil_r, Hfed in Hd. specialize (Hd Hc (eq_sym M)).
  pose proof (feed_keeps_handle chunks "" s) as Hk. unfold CloudTransport.on_frame in *.
  destruct (feed _ _ _ _) as [rest s'|rest s'| |]; [| |done|done].
  - destruct Hd as [-> (p & Hp & Hd)]. exists s'. split; [done|]. rewrite Hp. f_equal.
    destruct Hx as (_ & _ & Hdel & _). rewrite Hdel, Hfed, Hl0, S1 in Hd. by apply str_app_inj_l in Hd.
  - destruct Hd as [Hd _]. apply binary_keeps_going in Hd; [|exact Hbin]. unfold keeps_handle in Hk. congruence.
Qed.
End Back.

(** ** Examples *)

Section Witnesses.
#[local] Instance ex_fuel : Fuel := 100%nat.
#[local] Instance scripted_masks : MaskLaws Scripted.
Proof. by intros n. Defined.
#[export] Instance plain_sizes : TlsSizes PlainTls.
Proof.
  split; [|by intros t c t1 [= <- _]]. intros p t t1 [Hw _]. cbn in *. destruct (str_empty p); [done|]. intros [= <-]. cbn.
  rewrite Hw. cbn. unfold record_bound. pose proof (Z.mod_pos_bound (Z.of_nat (String.length p)) 16384 ltac:(lia)).
  pose proof (Z.div_mod (Z.of_nat (String.length p)) 16384 ltac:(lia)).
  pose proof (Z.div_pos (Z.of_nat (String.length p)) 16384 ltac:(lia) ltac:(lia)). lia.
Defined.
(** An endpoint that answers every message with the same message. *)
#[local] Instance ex_host : EndpointHost Scripted PlainTls nat := {|
  host_connected a w := (a, w);
  host_bytes bytes a w := (Ok tt, (run_adapter (if str_empty bytes then [] else [AdapterSend bytes]) a, Datatypes.S w));
  host_disconnected a w := (a, w);
|}.
Lemma ex_host_sends bytes (a : AgentStream.Agent Scripted PlainTls) (w : nat) :
  exists ops, (host_bytes bytes a w).2.1 = run_adapter ops a /\ Forall op_nonempty ops.
Proof.
  cbn. destruct (str_empty bytes) eqn:E; [by exists []|]. exists [AdapterSend bytes]. split; [done|].
  constructor; [by apply str_empty_false|done].
Qed.

Definition open_conn : Conn Scripted := mkConn true None (mkScripted "" "" [] true) [].
Definition fresh_session : PlainTls := mkPlainTls "" "" "" "".
Definition fresh_bridge (mask : bool) : TlsBridge := switch_to_buffered (new_bridge mask).
(** Both ends after their handshakes. *)
Definition the_transport : Transport Scripted PlainTls :=
  mkTransport open_conn "" false (Some (fresh_session, fresh_bridge true)) Alive true [] 0.
Definition the_agent : AgentStream.Agent Scripted PlainTls :=
  mkAgent open_conn true true true false (Some (fresh_session, fresh_bridge false)) "agent".
Definition the_stream : AgentStream.World Scripted PlainTls nat := mkWorld the_agent 0%nat [].

Definition uplink : string := written open_conn (conn (send_all ["REGISTER "; "sip"] the_transport).2).
Definition downlink : string := written open_conn (AgentStream.conn (write_all ["200 "; "OK"] the_agent).2).

Lemma fresh_up : tls_up fresh_session.
Proof. by split. Qed.
Lemma fresh_idle mask : idle_bridge (fresh_bridge mask).
Proof. by split. Qed.
Lemma messages_ok : Forall message_ok ["REGISTER "; "sip"] /\ Forall message_ok ["200 "; "OK"].
Proof. split; by repeat constructor. Qed.

Lemma agent_to_cloud_witness :
  match feed AgentStream.on_frame [str_take 3 uplink; str_drop 3 uplink] "" the_stream with
  | NeedBytes rest x' => rest = "" /\ bytes_told x' = "REGISTER sip"
  | _ => False
  end.
Proof.
  assert (Hw : exists rest x', feed AgentStream.on_frame [str_take 3 uplink; str_drop 3 uplink] "" the_stream = NeedBytes rest x')
    by (vm_compute; by do 2 eexists).
  pose proof (agent_to_cloud ex_host_sends ["REGISTER "; "sip"] the_transport fresh_session (fresh_bridge true)
    [str_take 3 uplink; str_drop 3 uplink] the_stream fresh_session (fresh_bridge false) (proj1 messages_ok) eq_refl
    fresh_up (fresh_idle _) eq_refl) as Ht.
  destruct Hw as (rest & x' & Hw). rewrite Hw in *. apply Ht.
  - by repeat split.
  - by repeat split.
  - vm_compute; reflexivity.
  - intros t' _. exact (conj I eq_refl).
  - vm_compute; reflexivity.
Defined.

Lemma cloud_to_agent_witness :
  exists s', feed CloudTransport.on_frame [str_take 3 downlink; str_drop 3 downlink] "" the_transport = NeedBytes "" s'
    /\ told_text s' = "200 OK".
Proof.
  apply (cloud_to_agent ["200 "; "OK"] the_agent fresh_session (fresh_bridge false)
    [str_take 3 downlink; str_drop 3 downlink] the_transport fresh_session (fresh_bridge true) (proj2 messages_ok) eq_refl
    fresh_up (fresh_idle _) eq_refl eq_refl).
  - by repeat split.
  - by repeat split.
  - vm_compute; reflexivity.
  - intros t' _. exact (conj I eq_refl).
  - vm_compute; reflexivity.
Defined.

(** A cloud that accepts the upgrade and the session, pings once, and hangs up. *)
#[local] Instance ex_digest : Digest := {| sha1 _ := str_repeat "x" 20; bio_base64 := base64_encode |}.
Definition the_cloud : Scripted :=
  mkScripted "" (upgrade_answer (transport_request None "cloud" "/agent").2)
    [Some (WsFrame.encode "" kOpcodePing false 0 0); None] true.
Definition the_config : InnerTlsConfig := mkInnerTlsConfig "cert" "key" "ca" "cloud".
Definition the_events : list CloudTransport.event := [Readable; Send "x"; Readable; Send "y"; Drop; Readable].
Definition ending (n : Scripted) (es : list CloudTransport.event) (P : Transport Scripted PlainTls -> Prop) : Prop :=
  match create_connected "cloud" 443 the_config None n with
  | Some (ok, s) => match reacts es s with Some s' => P s' | None => False end
  | None => False
  end.
Lemma ending_all n es (P Q : Transport Scripted PlainTls -> Prop) :
  (forall ok s s', create_connected "cloud" 443 the_config None n = Some (ok, s) -> reacts es s = Some s' -> P s' -> Q s') ->
  ending n es P -> ending n es Q.
Proof.
  unfold ending. intros Hpq. destruct (create_connected _ _ _ _ _) as [[ok s]|]; [|done].
  specialize (Hpq ok s). destruct (reacts es s) as [s'|]; [|done]. by apply Hpq.
Qed.
Lemma transport_told_once_witness : ending the_cloud the_events (fun s' => (losses s' <= 1)%nat /\ m_handle (conn s') = false).
Proof.
  apply (ending_all _ _ (fun s' => object s' = Dead)); [|vm_compute; reflexivity]. intros ok s s' E Er Hd.
  destruct (transport_told_once _ _ _ _ _ _ _ _ _ E Er) as (H1 & _ & H3). split; [exact H1|exact (proj1 (H3 Hd))].
Defined.
End Witnesses.
