(* ===== verification/SipParser.v ===== *)
(** SIP/2.0 messages: modules/module/sip/src/sip_parser.cpp, the second subclass of the
    parser base, with the theorems about it. *)

From S2P Require Import Prelude MessageParser.

#[local] Open Scope Z_scope.

Definition compact_to_canonical : gmap string string :=
  list_to_map [("l", "content-length"); ("v", "via"); ("i", "call-id"); ("f", "from"); ("t", "to");
               ("m", "contact"); ("c", "content-type"); ("s", "subject"); ("k", "supported");
               ("e", "content-encoding"); ("o", "event")].

Definition is_multi_value (lc_key : string) : bool :=
  str_eqb lc_key "via" || str_eqb lc_key "record-route" || str_eqb lc_key "route"
  || str_eqb lc_key "contact" || str_eqb lc_key "proxy-authenticate" || str_eqb lc_key "www-authenticate".

Definition canonicalize (lc_key : string) : string := default lc_key (compact_to_canonical !! lc_key).
Definition canonical (key : string) : string := canonicalize (to_lower key).

Record Sip := mkSip {
  m_isRequest : bool;
  m_error : bool;
  m_method : string;
  m_uri : string;
  m_statusCode : Z;
  m_reasonPhrase : string;
  m_tokenMap : gmap string string;
  m_multiMap : gmap string (list string);
  m_header : string;
  m_body : string;
}.

Definition empty_sip : Sip := mkSip false false "" "" 0 "" ∅ ∅ "" "".

Definition set_error (s : Sip) : Sip :=
  mkSip (m_isRequest s) true (m_method s) (m_uri s) (m_statusCode s) (m_reasonPhrase s)
    (m_tokenMap s) (m_multiMap s) (m_header s) (m_body s).
Definition set_request (method uri : string) (s : Sip) : Sip :=
  mkSip true (m_error s) method uri (m_statusCode s) (m_reasonPhrase s)
    (m_tokenMap s) (m_multiMap s) (m_header s) (m_body s).
Definition set_status (code : Z) (reason : string) (s : Sip) : Sip :=
  mkSip false (m_error s) (m_method s) (m_uri s) code reason
    (m_tokenMap s) (m_multiMap s) (m_header s) (m_body s).
Definition set_maps (tokens : gmap string string) (multi : gmap string (list string)) (s : Sip) : Sip :=
  mkSip (m_isRequest s) (m_error s) (m_method s) (m_uri s) (m_statusCode s) (m_reasonPhrase s)
    tokens multi (m_header s) (m_body s).
Definition set_header (header : string) (s : Sip) : Sip :=
  mkSip (m_isRequest s) (m_error s) (m_method s) (m_uri s) (m_statusCode s) (m_reasonPhrase s)
    (m_tokenMap s) (m_multiMap s) header (m_body s).
Definition set_body (body : string) (s : Sip) : Sip :=
  mkSip (m_isRequest s) (m_error s) (m_method s) (m_uri s) (m_statusCode s) (m_reasonPhrase s)
    (m_tokenMap s) (m_multiMap s) (m_header s) body.

(** A malformed status line is an error, a bad escape in a request URI throws. *)
Definition parse_first_line (line : string) (s : Sip) : result Sip :=
  if String.prefix "SIP/2.0" line then
    let s := set_status (m_statusCode s) (m_reasonPhrase s) s in
    match find_char " " line with
    | None => Ok (set_error s)
    | Some sp1 =>
        match find_char_from " " (sp1 + 1) line with
        | None => Ok (set_error s)
        | Some sp2 =>
            match stoi 10 (substr (sp1 + 1) (sp2 - sp1 - 1) line) with
            | Throw _ => Ok (set_error s)
            | Ok code => Ok (set_status code (str_drop (sp2 + 1) line) s)
            end
        end
    end
  else
    let s := set_request (m_method s) (m_uri s) s in
    match find_char " " line, rfind_char " " line with
    | Some first_sp, Some last_sp =>
        if (last_sp =? first_sp)%nat then Ok (set_error s) else
        if negb (str_eqb (str_drop (last_sp + 1) line) "SIP/2.0") then Ok (set_error s) else
        let s := set_request (str_take first_sp line) (m_uri s) s in
        uri ← pct_decode (substr (first_sp + 1) (last_sp - first_sp - 1) line);
        mret (set_request (m_method s) uri s)
    | _, _ => Ok (set_error s)
    end.

Definition add_element (key value : string) (s : Sip) : Sip :=
  let k := canonical key in
  let multi := <[k := default [] (m_multiMap s !! k) ++ [value]]> (m_multiMap s) in
  let tokens := if is_multi_value k && bool_decide (is_Some (m_tokenMap s !! k))
                then m_tokenMap s else <[k := value]> (m_tokenMap s) in
  set_maps tokens multi s.

Definition get_element (key : string) (s : Sip) : string := default "" (m_tokenMap s !! canonical key).
Definition get_all (key : string) (s : Sip) : list string := default [] (m_multiMap s !! canonical key).

(** [MessageParser::parse_mime_header] with the overridden [add_element]. *)
Definition add_fields (fields : list (string * string)) (s : Sip) : Sip :=
  fold_left (fun s kv => add_element kv.1 kv.2 s) fields s.

Definition parse_sip (buf : string) : result Sip :=
  let header := extract_header buf in
  if str_empty header then Ok (set_error empty_sip) else
  let first_line := match find_str CRLF header with Some crlf => str_take crlf header | None => header end in
  s ← parse_first_line first_line (set_header header empty_sip);
  if m_error s then Ok s else
  let s := add_fields (mime_fields header) s in
  if negb (str_empty (get_element "transfer-encoding" s)) then Ok (set_error s) else
  let cl := get_element "content-length" s in
  let offset := String.length header in
  if str_empty cl then Ok s else
  match stoul 10 cl with
  | Throw _ => Ok (set_error s)
  | Ok n =>
      (* [body_offset + n] in 64 bits *)
      if u64 (Z.of_nat offset + n) <=? Z.of_nat (String.length buf)
      then Ok (set_body (substr offset (Z.to_nat (Z.min n (Z.of_nat (String.length buf)))) buf) s)
      else Ok s
  end.

(** The content length the framing reads: the last one wins. *)
Definition frame_fields (fields : list (string * string)) : string * bool :=
  fold_left (fun acc kv =>
    let k := to_lower kv.1 in
    if str_eqb k "content-length" || str_eqb k "l" then (kv.2, acc.2)
    else if str_eqb k "transfer-encoding" then (acc.1, true) else acc) fields ("", false).

Definition message_length (buf : string) : Z :=
  match find_str header_sep buf with
  | None => 0
  | Some sep_pos =>
      let header_len := (sep_pos + String.length header_sep)%nat in
      let '(cl, has_te) := frame_fields (mime_fields (str_take header_len buf)) in
      if has_te then 0 else
      if str_empty cl then Z.of_nat header_len else
      match stoul 10 cl with
      | Ok n => u64 (Z.of_nat header_len + n)
      | Throw _ => 0
      end
  end.

(** ** Lemmas *)

Lemma add_fields_all fields s key :
  get_all key (add_fields fields s)
  = get_all key s ++ map snd (filter (fun kv => canonical kv.1 = canonical key) fields).
Proof.
  unfold add_fields, get_all. revert s. induction fields as [|[k v] fields IH]; intros s; [by rewrite app_nil_r|].
  cbn [fold_left]. rewrite IH. cbn [add_element set_maps m_multiMap fst snd].
  destruct (decide (canonical k = canonical key)) as [He|Hne].
  - rewrite filter_cons_True by done. rewrite He, lookup_insert_eq. simpl.
    by rewrite <- app_assoc.
  - rewrite filter_cons_False by done. by rewrite lookup_insert_ne.
Qed.

Lemma canonical_length k :
  canonical k = "content-length" <-> (str_eqb (to_lower k) "content-length" || str_eqb (to_lower k) "l") = true.
Proof.
  unfold canonical, canonicalize. rewrite orb_true_iff, !str_eqb_eq.
  destruct (compact_to_canonical !! to_lower k) as [c|] eqn:Hc; cbn [default].
  - apply elem_of_list_to_map_2 in Hc. rewrite !elem_of_cons, elem_of_nil in Hc.
    repeat destruct Hc as [[= -> ->]|Hc]; try done; naive_solver.
  - split; [by left|]. intros [He|He]; [done|]. by rewrite He in Hc.
Qed.

Definition frame_step (acc : string * bool) (kv : string * string) : string * bool :=
  let k := to_lower kv.1 in
  if str_eqb k "content-length" || str_eqb k "l" then (kv.2, acc.2)
  else if str_eqb k "transfer-encoding" then (acc.1, true) else acc.

(** A single-value header holds the last value, as the framing takes it. *)
Lemma add_fields_length fields s acc :
  default "" (m_tokenMap s !! "content-length") = acc.1 ->
  default "" (m_tokenMap (add_fields fields s) !! "content-length") = (fold_left frame_step fields acc).1.
Proof.
  revert s acc. unfold add_fields. induction fields as [|[k v] fields IH]; intros s acc Ha; [done|].
  cbn [fold_left]. apply IH. unfold frame_step. cbn [add_element set_maps m_tokenMap fst snd].
  destruct (_ || _) eqn:Hb.
  - apply canonical_length in Hb as ->.
    change (is_multi_value "content-length") with false. cbn [andb]. by rewrite lookup_insert_eq.
  - assert (Hne : canonical k <> "content-length") by (rewrite canonical_length; congruence).
    rewrite <- Ha. destruct (_ && _); [by case_match|]. rewrite lookup_insert_ne by done. by case_match.
Qed.

Lemma add_fields_first fields s key :
  is_multi_value (canonical key) = true ->
  m_tokenMap (add_fields fields s) !! canonical key
  = match m_tokenMap s !! canonical key with
    | Some v => Some v
    | None => head (map snd (filter (fun kv => canonical kv.1 = canonical key) fields))
    end.
Proof.
  intros Hm. unfold add_fields. revert s. induction fields as [|[k v] fields IH]; intros s; [by case_match|].
  cbn [fold_left]. rewrite IH. cbn [add_element set_maps m_tokenMap fst snd].
  destruct (decide (canonical k = canonical key)) as [He|Hne].
  - rewrite filter_cons_True by done. rewrite He, Hm. cbn [andb].
    destruct (m_tokenMap s !! canonical key) as [w|] eqn:Hw.
    + rewrite bool_decide_eq_true_2 by done. by rewrite Hw.
    + rewrite bool_decide_eq_false_2 by (by intros []). by rewrite lookup_insert_eq.
  - rewrite filter_cons_False by done. destruct (_ && _); [done|]. by rewrite lookup_insert_ne.
Qed.

Lemma first_line_maps line s s' :
  parse_first_line line s = Ok s' -> m_tokenMap s' = m_tokenMap s /\ m_multiMap s' = m_multiMap s
  /\ m_header s' = m_header s /\ m_body s' = m_body s.
Proof.
  unfold parse_first_line. repeat case_match; try (by intros [= <-]).
  destruct (pct_decode _); [|done]. by intros [= <-].
Qed.

(** A parse without error, opened up. *)
Lemma parse_sip_ok buf s :
  parse_sip buf = Ok s -> m_error s = false ->
  exists s0, m_tokenMap s0 = ∅ /\ m_multiMap s0 = ∅ /\ m_header s0 = extract_header buf /\ m_body s0 = ""
  /\ let s1 := add_fields (mime_fields (extract_header buf)) s0 in
     let cl := get_element "content-length" s1 in
     let offset := String.length (extract_header buf) in
     get_element "transfer-encoding" s1 = ""
     /\ s = match stoul 10 cl with
            | Ok n => if negb (str_empty cl) && (u64 (Z.of_nat offset + n) <=? Z.of_nat (String.length buf))
                      then set_body (substr offset (Z.to_nat (Z.min n (Z.of_nat (String.length buf)))) buf) s1
                      else s1
            | Throw _ => s1
            end
     /\ (str_empty cl = false -> is_ok (stoul 10 cl)).
Proof.
  unfold parse_sip. destruct (str_empty (extract_header buf)); [by intros [= <-]|].
  destruct (parse_first_line _ _) as [s0|] eqn:Hl; [|done]. cbn [mbind result_bind].
  destruct (first_line_maps _ _ _ Hl) as (H1 & H2 & H3 & H4). cbn in H1, H2, H3, H4.
  destruct (m_error s0) eqn:He; [intros [= <-]; congruence|].
  intros Hs Herr. exists s0. do 4 (split; [done|]). cbn zeta. revert Hs.
  set (s1 := add_fields _ s0). set (cl := get_element "content-length" s1).
  destruct (str_empty (get_element "transfer-encoding" s1)) eqn:Hte; cbn [negb]; [|by intros [= <-]; cbn in Herr].
  apply str_empty_true in Hte. intros Hs. split; [done|]. revert Hs.
  destruct (str_empty cl) eqn:Hcl; [intros [= <-]; split; [by destruct (stoul 10 cl)|done]|].
  destruct (stoul 10 cl); cbn [negb andb]; [|by intros [= <-]; cbn in Herr]. by destruct (_ <=? _); intros [= Hx]; rewrite <- Hx.
Qed.

Lemma add_fields_frame fields s :
  m_header (add_fields fields s) = m_header s /\ m_body (add_fields fields s) = m_body s.
Proof. unfold add_fields. revert s. induction fields as [|kv l IH]; intros s; [done|]. cbn [fold_left]. apply (IH (add_element kv.1 kv.2 s)). Qed.

(** * Properties *)

(** SIP headers.  A message that parses without error answers every header lookup,
    in any case and in compact or full form alike, with all the values of that header in
    the order they arrived; the topmost one stands for a header that may repeat, the last
    Content-Length for the length. *)
Theorem sip_headers buf s key :
  parse_sip buf = Ok s -> m_error s = false ->
  let fields := mime_fields (extract_header buf) in
  let values := map snd (filter (fun kv => canonical kv.1 = canonical key) fields) in
  get_all key s = values
  /\ (is_multi_value (canonical key) = true -> get_element key s = default "" (head values))
  /\ get_element "content-length" s = (frame_fields fields).1
  /\ get_element "l" s = get_element "Content-Length" s.
Proof.
  intros Hp He. cbn zeta.
  destruct (parse_sip_ok buf s Hp He) as (s0 & H1 & H2 & _ & _ & _ & Hs & _). cbn zeta in Hs.
  set (s1 := add_fields _ s0) in Hs.
  assert (Hmaps : m_tokenMap s = m_tokenMap s1 /\ m_multiMap s = m_multiMap s1)
    by (rewrite Hs; repeat case_match; done).
  destruct Hmaps as [Ht Hm]. unfold get_all, get_element. rewrite Ht, Hm. split; [|split; [|split; [|done]]].
  - pose proof (add_fields_all (mime_fields (extract_header buf)) s0 key) as Ha. unfold get_all in Ha.
    unfold s1. rewrite Ha, H2, lookup_empty. done.
  - intros Hv. unfold s1. by rewrite (add_fields_first _ _ _ Hv), H1, lookup_empty.
  - change (canonical "content-length") with "content-length".
    apply (add_fields_length _ s0 ("", false)). by rewrite H1.
Qed.

(** Framing and parsing agree on SIP.  When the framing says a buffer is exactly one
    message and the message parses without error, its header section and its body
    together are the buffer: no byte is lost or read twice. *)
Theorem sip_frame_parsed buf s :
  message_length buf = Z.of_nat (String.length buf) -> Z.of_nat (String.length buf) < 2 ^ 63 ->
  parse_sip buf = Ok s -> m_error s = false -> m_header s +:+ m_body s = buf.
Proof.
  intros Hlen Hsz Hp He.
  destruct (parse_sip_ok buf s Hp He) as (s0 & H1 & _ & H3 & H4 & _ & Hs & Hok). cbn zeta in Hs, Hok.
  set (s1 := add_fields _ s0) in *. set (cl := get_element "content-length" s1) in *.
  destruct (add_fields_frame (mime_fields (extract_header buf)) s0) as [Hh Hb]. fold s1 in Hh, Hb.
  assert (Hcl : cl = (frame_fields (mime_fields (extract_header buf))).1).
  { unfold cl, get_element. change (canonical "content-length") with "content-length".
    apply (add_fields_length _ s0 ("", false)). by rewrite H1. }
  unfold message_length in Hlen. destruct (find_str header_sep buf) as [p|] eqn:Hf.
  2:{ destruct buf; [|done]. change (extract_header "") with "" in *.
      assert (s = s1) as -> by (rewrite Hs, Hcl; done). by rewrite Hh, Hb, H3, H4. }
  pose proof (find_str_bound _ _ _ Hf) as Hbound.
  assert (Hext : extract_header buf = str_take (p + String.length header_sep) buf)
    by (unfold extract_header; by rewrite Hf).
  rewrite Hext in *. set (hl := (p + String.length header_sep)%nat) in *.
  assert (Hoff : String.length (str_take hl buf) = hl) by (rewrite str_length_take; lia).
  destruct (frame_fields (mime_fields (str_take hl buf))) as [cl' te]. cbn [fst] in Hcl. subst cl'.
  destruct te; [assert (4 <= hl)%nat by (unfold hl; change (String.length header_sep) with 4%nat; lia); lia|].
  destruct (str_empty cl) eqn:Hce.
  - assert (s = s1) as -> by (rewrite Hs; by case_match). rewrite Hh, Hb, H3, H4, str_app_nil_r.
    apply str_take_all. lia.
  - destruct (stoul 10 cl) as [n|] eqn:Hn; [|by destruct (Hok eq_refl)]. rewrite Hoff in Hs. cbn [negb andb] in Hs.
    apply stoul_range in Hn; [|done].
    assert (Hsum : u64 (Z.of_nat hl + n) = Z.of_nat hl + n).
    { apply u64_small. split; [lia|]. destruct (Z.lt_ge_cases (Z.of_nat hl + n) (2 ^ 64)); [done|].
      unfold u64 in Hlen. rewrite <- (Z.mod_unique (Z.of_nat hl + n) (2 ^ 64) 1 (Z.of_nat hl + n - 2 ^ 64)) in Hlen by lia.
      lia. }
    rewrite Hsum in *. destruct (Z.leb_spec (Z.of_nat hl + n) (Z.of_nat (String.length buf))); [|lia].
    rewrite Hs. cbn [set_body m_header m_body]. rewrite Hh, H3. unfold substr.
    rewrite (str_take_all (Z.to_nat _) (str_drop hl buf)).
    + apply str_take_drop.
    + rewrite str_length_drop. lia.
Qed.

(** ** The theorems at work *)

Definition ex_sip : string :=
  "MESSAGE sip:a@b SIP/2.0" +:+ CRLF +:+ "v: SIP/2.0/TCP one" +:+ CRLF +:+ "Via: SIP/2.0/TCP two" +:+ CRLF
  +:+ "L: 2" +:+ CRLF +:+ CRLF +:+ "hi".
Definition ex_sip_parsed : Sip := match parse_sip ex_sip with Ok s => s | Throw _ => empty_sip end.

Lemma sip_headers_witness :
  get_all "VIA" ex_sip_parsed = ["SIP/2.0/TCP one"; "SIP/2.0/TCP two"]
  /\ get_element "v" ex_sip_parsed = "SIP/2.0/TCP one".
Proof.
  destruct (sip_headers ex_sip ex_sip_parsed "VIA") as [-> _]; [by vm_compute..|].
  destruct (sip_headers ex_sip ex_sip_parsed "v") as (_ & Hv & _); [by vm_compute..|].
  rewrite Hv; by vm_compute.
Defined.

Lemma sip_frame_parsed_witness : m_header ex_sip_parsed +:+ m_body ex_sip_parsed = ex_sip.
Proof. apply (sip_frame_parsed ex_sip ex_sip_parsed); by vm_compute. Defined.
