(* ===== verification/Provisioning.v ===== *)
(** Subscribers into Asterisk: [PjsipProvisioner] (pjsip_provisioner.hpp/.cpp), which
    writes a subscriber's PJSIP objects through ARI, and [SubscriberWatcher]
    (subscriber_watcher.hpp/.cpp), which drives it from the subscribers collection: a
    full scan, then one change-stream event per tick. *)

From S2P Require Import Prelude Json AgentEnv.

#[local] Open Scope Z_scope.

Definition kCfgClass : string := "res_pjsip".

Section Provisioner.
Context {W H : Type} `{!HasEnv W H} `{!AgentEnv H} `{!JsonLib}.

(** [make_fields_body]: [dump] throws on text that is not UTF-8. *)
Definition make_fields_body (fields : list (string * string)) : result string :=
  json_dump (mk_obj [("fields", JArr (map (fun kv =>
    mk_obj [("attribute", JStr kv.1); ("value", JStr kv.2)]) fields))]).

Definition aor_fields : list (string * string) :=
  [("type", "aor"); ("max_contacts", "5"); ("remove_existing", "yes")].

Definition endpoint_fields (aor_id : string) : list (string * string) :=
  [("type", "endpoint"); ("context", "pbx"); ("from_domain", "pbx.local"); ("disallow", "all");
   ("allow", "opus,ulaw,alaw"); ("direct_media", "no"); ("rtcp_mux", "yes"); ("ice_support", "yes");
   ("use_avpf", "yes"); ("force_avp", "yes"); ("media_use_received_transport", "yes");
   ("rewrite_contact", "yes"); ("rtp_symmetric", "yes"); ("transport", "transport-ws");
   ("webrtc", "yes"); ("media_encryption", "dtls"); ("dtls_verify", "fingerprint");
   ("dtls_setup", "actpass"); ("dtls_cert_file", "/etc/asterisk/keys/pbx.crt");
   ("dtls_private_key", "/etc/asterisk/keys/pbx.key"); ("dtls_rekey", "0"); ("aors", aor_id)].

Definition provision (sip_username : string) : M W unit :=
  if str_empty sip_username then mret tt else
  let auth_id := sip_username +:+ "-auth" in
  let aor_id := sip_username in
  _ ← rest (DeleteDynamicConfig kCfgClass "auth" auth_id);
  aor ← lift (make_fields_body aor_fields);
  _ ← rest (CreateDynamicConfig kCfgClass "aor" aor_id aor);
  endpoint ← lift (make_fields_body (endpoint_fields aor_id));
  _ ← rest (CreateDynamicConfig kCfgClass "endpoint" sip_username endpoint);
  mret tt.

Definition deprovision (sip_username : string) : M W unit :=
  if str_empty sip_username then mret tt else
  _ ← rest (DeleteDynamicConfig kCfgClass "endpoint" sip_username);
  _ ← rest (DeleteDynamicConfig kCfgClass "auth" (sip_username +:+ "-auth"));
  _ ← rest (DeleteDynamicConfig kCfgClass "aor" sip_username);
  _ ← rest (DeleteDynamicConfig kCfgClass "aor" (sip_username +:+ "-aor"));
  mret tt.
End Provisioner.

Record Watcher (H : Type) := mkWatcher {
  m_society_id : string;
  m_sip_realm : string;
  m_stream : option nat;
  m_id_to_sipuser : gmap string string;
  m_resume_token : string;
  m_reopen_skip_ticks : Z;
  watcher_env : Env H;
}.
Arguments mkWatcher {H} _ _ _ _ _ _ _.
Arguments m_society_id {H} _.
Arguments m_sip_realm {H} _.
Arguments m_stream {H} _.
Arguments m_id_to_sipuser {H} _.
Arguments m_resume_token {H} _.
Arguments m_reopen_skip_ticks {H} _.
Arguments watcher_env {H} _.

#[export] Instance watcher_has_env {H} : HasEnv (Watcher H) H := {|
  get_env := watcher_env;
  put_env e w := mkWatcher (m_society_id w) (m_sip_realm w) (m_stream w) (m_id_to_sipuser w)
                   (m_resume_token w) (m_reopen_skip_ticks w) e;
|}.

Section Watcher.
Context {H : Type} `{!AgentEnv H} `{!JsonLib}.

Definition new_watcher (society realm : string) (e : Env H) : Watcher H :=
  mkWatcher society realm None ∅ "" 0 e.

Definition put_stream (s : option nat) : M (Watcher H) unit :=
  modify (fun w => mkWatcher (m_society_id w) (m_sip_realm w) s (m_id_to_sipuser w)
                     (m_resume_token w) (m_reopen_skip_ticks w) (watcher_env w)).
Definition put_skip (n : Z) : M (Watcher H) unit :=
  modify (fun w => mkWatcher (m_society_id w) (m_sip_realm w) (m_stream w) (m_id_to_sipuser w)
                     (m_resume_token w) n (watcher_env w)).
Definition put_token (t : string) : M (Watcher H) unit :=
  modify (fun w => mkWatcher (m_society_id w) (m_sip_realm w) (m_stream w) (m_id_to_sipuser w)
                     t (m_reopen_skip_ticks w) (watcher_env w)).
Definition on_cache (f : gmap string string -> gmap string string) : M (Watcher H) unit :=
  modify (fun w => mkWatcher (m_society_id w) (m_sip_realm w) (m_stream w) (f (m_id_to_sipuser w))
                     (m_resume_token w) (m_reopen_skip_ticks w) (watcher_env w)).
Definition set_sip_realm (realm : string) : M (Watcher H) unit :=
  modify (fun w => mkWatcher (m_society_id w) realm (m_stream w) (m_id_to_sipuser w)
                     (m_resume_token w) (m_reopen_skip_ticks w) (watcher_env w)).

Definition oid_str (id_node : json) : result string :=
  match member_str "$oid" id_node with
  | Some s => Ok s
  | None => json_dump id_node
  end.

(** What a row and a full document have in common: remember the id, then provision or
    deprovision the user. *)
Definition remember (doc : json) (sip_user : string) : M (Watcher H) unit :=
  match member "_id" doc with
  | None => mret tt
  | Some id => key ← lift (oid_str id); on_cache (<[key := sip_user]>)
  end.
Definition apply_status (status sip_user : string) : M (Watcher H) unit :=
  if str_eqb status "active" then provision sip_user else deprovision sip_user.

(** The body of the row loop: a member of another type than string throws. *)
Definition scan_row (row : json) : M (Watcher H) unit :=
  if negb (is_object row) then mret tt else
  sip_user ← lift (value_str "sipUsername" "" row);
  _ ← lift (value_str "sipHa1" "" row);
  status ← lift (value_str "status" "active" row);
  if str_empty sip_user then mret tt else
  remember row sip_user ;;
  apply_status status sip_user.

(** The filter is concatenated, the society id unescaped. *)
Definition scan_filter (society : string) : string :=
  "{" +:+ quoted "societyId" +:+ ":" +:+ quoted society +:+ "}".

Definition run_full_scan : M (Watcher H) unit :=
  society ← asks m_society_id;
  raw ← try_catch (db (GetDocuments "subscribers" (scan_filter society) "{}")) (mret "");
  if str_empty raw then mret tt else
  match json_parse raw with
  | Ok (JArr arr) => for_each arr scan_row
  | _ => mret tt
  end.

Definition watch (coll token : string) : M (Watcher H) (option nat) := in_env (env_call_watch coll token).

Definition open_stream : M (Watcher H) unit :=
  token ← asks m_resume_token;
  s ← watch "subscribers" token;
  put_stream s.

Definition bootstrap : M (Watcher H) unit := run_full_scan ;; open_stream.
Definition resync : M (Watcher H) unit := run_full_scan.

(** The two shapes of an event, after its resume token was kept. *)
Definition apply_delete (e : json) : M (Watcher H) unit :=
  match member_obj "documentKey" e with
  | None => mret tt
  | Some key =>
      match member "_id" key with
      | None => mret tt
      | Some node =>
          id ← lift (oid_str node);
          cache ← asks m_id_to_sipuser;
          match cache !! id with
          | None => mret tt
          | Some user => deprovision user ;; on_cache (delete id)
          end
      end
  end.

Definition apply_document (e : json) : M (Watcher H) unit :=
  match member_obj "fullDocument" e with
  | None => mret tt
  | Some doc =>
      society ← lift (value_str "societyId" "" doc);
      own ← asks m_society_id;
      if negb (str_eqb society own) then mret tt else
      sip_user ← lift (value_str "sipUsername" "" doc);
      _ ← lift (value_str "sipHa1" "" doc);
      status ← lift (value_str "status" "active" doc);
      if str_empty sip_user then mret tt else
      remember doc sip_user ;;
      apply_status status sip_user
  end.

Definition handle_event (event_json : string) : M (Watcher H) unit :=
  match json_parse event_json with
  | Throw _ => mret tt
  | Ok e =>
      match member "_id" e with
      | None => mret tt
      | Some id => token ← lift (json_dump id); put_token token
      end ;;
      op ← lift (value_str "operationType" "" e);
      if str_eqb op "delete" then apply_delete e else apply_document e
  end.

(** The answer of [try_next] inside its [try]. *)
Definition next_event (cursor : nat) : M (Watcher H) (option string) :=
  try_catch (evt ← db (TryNext cursor); mret (Some evt)) (mret None).

Definition tick : M (Watcher H) unit :=
  stream ← asks m_stream;
  match stream with
  | None =>
      skip ← asks m_reopen_skip_ticks;
      if 0 <? skip then put_skip (skip - 1) else
      open_stream ;;
      s ← asks m_stream;
      match s with
      | None => put_skip 5
      | Some _ => mret tt
      end
  | Some cursor =>
      r ← next_event cursor;
      match r with
      | None => put_stream None ;; put_skip 0
      | Some evt => if str_empty evt then mret tt else handle_event evt
      end
  end.

(** The SOCIETY_BOOTSTRAP handler main installs: a realm given on the command line wins,
    an unusable payload is dropped, a new realm is adopted and everyone written again. *)
Definition on_society_bootstrap (sip_realm_from_cli : bool) (payload : string) : M (Watcher H) unit :=
  if sip_realm_from_cli then mret tt else
  match json_parse payload ≫= value_str "sipRealm" "" with
  | Throw _ => mret tt
  | Ok cloud_realm =>
      realm ← asks m_sip_realm;
      if str_empty cloud_realm || str_eqb cloud_realm realm then mret tt else
      set_sip_realm cloud_realm ;; resync
  end.

Definition cached_count (w : Watcher H) : nat := size (m_id_to_sipuser w).
End Watcher.
