(* ===== verification/ProvisioningSpec.v ===== *)
(** What the provisioning guarantees: theorems about [Provisioning].

    The specification is an abstract directory: the endpoints Asterisk holds and the id
    cache.  The scan and the event handler implement its updates: on the endpoints they
    ask for whatever Asterisk answers, and on those it holds for every user none of whose
    requests it refused (the provisioner reads the answers only to log them). *)

From S2P Require Import Prelude Json AgentEnv Provisioning.

#[local] Open Scope Z_scope.

(** ** The endpoints asked for *)

Definition endpoint_step (s : gset string) (x : call) : gset string :=
  match x with
  | Ari (CreateDynamicConfig _ ty id _) => if str_eqb ty "endpoint" then {[id]} ∪ s else s
  | Ari (DeleteDynamicConfig _ ty id) => if str_eqb ty "endpoint" then s ∖ {[id]} else s
  | _ => s
  end.
(** The endpoints after a sequence of requests, were each of them granted. *)
Definition wanted (l : list call) (s : gset string) : gset string := fold_left endpoint_step l s.

(** The abstract directory and its updates. *)
Record directory := mkDirectory { dir_endpoints : gset string; dir_cache : gmap string string }.

Inductive change :=
  | Upsert (key : option string) (user : string) (active : bool)
  | Remove (key : string)
  | Foreign.

Definition set_user (user : string) (active : bool) (s : gset string) : gset string :=
  if active then {[user]} ∪ s else s ∖ {[user]}.

Definition apply_change (ch : change) (d : directory) : directory :=
  match ch with
  | Upsert key user active =>
      mkDirectory (set_user user active (dir_endpoints d))
        (match key with Some k => <[k := user]> (dir_cache d) | None => dir_cache d end)
  | Remove key =>
      match dir_cache d !! key with
      | Some user => mkDirectory (dir_endpoints d ∖ {[user]}) (delete key (dir_cache d))
      | None => d
      end
  | Foreign => d
  end.
Definition apply_changes (l : list change) (d : directory) : directory :=
  fold_left (fun d ch => apply_change ch d) l d.

(** ** The endpoints held *)

Section World.
Context {H : Type} `{!AgentEnv H}.

(** The world after a sequence of calls. *)
Definition after_call (h : H) (x : call) : H :=
  match x with
  | Ari c => (env_ari c h).2
  | Db (WatchCollection coll token) => (env_watch coll token h).2
  | Db c => (env_query c h).2
  | RegisterState _ _ | AsteriskStatus _ => h
  end.
Definition after (l : list call) (h : H) : H := fold_left after_call l h.

(** The endpoint a request is about, and whether Asterisk granted it: a 2xx answer, or
    for a deletion also 404 (there is no such endpoint). *)
Definition endpoint_of (c : ari_call) : option string :=
  match c with
  | CreateDynamicConfig _ ty id _ | DeleteDynamicConfig _ ty id => if str_eqb ty "endpoint" then Some id else None
  | _ => None
  end.
Definition granted (c : ari_call) (r : Response) : bool :=
  match c with
  | DeleteDynamicConfig _ _ _ => http_ok r || (status r =? 404)
  | _ => http_ok r
  end.

Fixpoint refused (l : list call) (h : H) : gset string :=
  match l with
  | [] => ∅
  | x :: l' =>
      match x with
      | Ari c => match endpoint_of c with
                 | Some id => if granted c (env_ari c h).1 then ∅ else {[id]}
                 | None => ∅
                 end
      | _ => ∅
      end ∪ refused l' (after_call h x)
  end.
End World.

(** What ARI documents of the endpoints it configures, for an Asterisk no one else
    configures: a granted request does what it says; a request touches no other endpoint
    than its own (one that was refused, or whose answer was lost, may have been carried out
    or not); and no other call touches any. *)
Class AsteriskLaws (H : Type) `{!AgentEnv H} := {
  held : H -> gset string;
  held_granted : forall c h, is_Some (endpoint_of c) -> granted c (env_ari c h).1 = true ->
    held (env_ari c h).2 = endpoint_step (held h) (Ari c);
  held_other : forall c h u, endpoint_of c <> Some u -> u ∈ held (env_ari c h).2 <-> u ∈ held h;
  held_db : forall c h, held (after_call h (Db c)) = held h;
}.

Section Held.
Context {H : Type} `{!AgentEnv H} `{!AsteriskLaws H}.

Lemma endpoint_step_other c s u : endpoint_of c <> Some u -> u ∈ endpoint_step s (Ari c) <-> u ∈ s.
Proof. destruct c; cbn; try done; destruct (str_eqb _ _); set_solver. Qed.

Lemma held_step x h s u :
  u ∉ refused [x] h -> (u ∈ held h <-> u ∈ s) -> u ∈ held (after_call h x) <-> u ∈ endpoint_step s x.
Proof.
  intros Hr Hs. destruct x as [c|c| |]; try done; [|by rewrite held_db; destruct c].
  destruct (decide (endpoint_of c = Some u)) as [Hu|Hu].
  - cbn in *. rewrite Hu in Hr. destruct (granted c (env_ari c h).1) eqn:Hg; [|set_solver].
    rewrite held_granted by (by rewrite ?Hu). unfold endpoint_of, endpoint_step in *.
    destruct c; try done; destruct (str_eqb _ _); set_solver.
  - cbn [after_call]. by rewrite held_other, endpoint_step_other.
Qed.

(** A user whose requests were all granted is held exactly when last asked for. *)
Lemma held_wanted l h u : u ∉ refused l h -> u ∈ held (after l h) <-> u ∈ wanted l (held h).
Proof.
  assert (Hgen : forall s, u ∉ refused l h -> (u ∈ held h <-> u ∈ s) -> u ∈ held (after l h) <-> u ∈ wanted l s).
  { revert h. induction l as [|x l IH]; intros h s Hr Hs; [done|].
    cbn [refused] in Hr. apply not_elem_of_union in Hr as [Hx Hl].
    apply IH; [done|]. apply held_step; [|done]. cbn [refused]. set_solver. }
  by intros Hr; apply Hgen.
Qed.
End Held.

Section Proofs.
Context {H : Type} `{!AgentEnv H} `{!JsonLib} `{!JsonText}.
Implicit Types (w : Watcher H).

Definition trace w : list call := calls (watcher_env w).
Definition world w : H := host (watcher_env w).

(** [w'] is [w] after the calls [l], and perhaps more of the cache. *)
Record ran w w' (l : list call) : Prop := {
  ran_society : m_society_id w' = m_society_id w;
  ran_stream : m_stream w' = m_stream w;
  ran_token : m_resume_token w' = m_resume_token w;
  ran_skip : m_reopen_skip_ticks w' = m_reopen_skip_ticks w;
  ran_trace : trace w' = trace w ++ l;
  ran_world : world w' = after l (world w);
}.
Lemma ran_refl w : ran w w [].
Proof. split; try done. by rewrite app_nil_r. Qed.
Lemma ran_trans w1 w2 w3 l l' : ran w1 w2 l -> ran w2 w3 l' -> ran w1 w3 (l ++ l').
Proof.
  intros [] []. split; try by etrans.
  - rewrite app_assoc. congruence.
  - unfold after in *. rewrite fold_left_app. congruence.
Qed.
Lemma wanted_app l l' s : wanted (l ++ l') s = wanted l' (wanted l s).
Proof. apply fold_left_app. Qed.

(** The operation leaves [w'], having asked for the endpoints [f] gives. *)
Definition asks_for w w' (f : gset string -> gset string) : Prop :=
  exists l, ran w w' l /\ forall s, wanted l s = f s.

Lemma rest_run x w : exists r w', rest x w = (Ok r, w') /\ ran w w' [Ari x] /\ m_id_to_sipuser w' = m_id_to_sipuser w.
Proof.
  unfold rest, in_env, env_call_ari. cbn [get_env watcher_has_env put_env].
  destruct (env_ari x _) as [r h] eqn:Hx. eexists _, _. split; [done|]. split; [|done].
  split; try done. cbn. unfold world. by rewrite Hx.
Qed.

(** A call that only touches the trace, in a sequence. *)
Ltac run_rest :=
  match goal with
  | |- context [mbind _ (rest ?x) ?v] =>
      let r := fresh "r" in let v' := fresh "v" in let Hr := fresh "Hr" in
      let Hs := fresh "Hs" in let Hc := fresh "Hc" in
      destruct (rest_run x v) as (r & v' & Hr & Hs & Hc); rewrite (M_bind_ok _ _ _ _ _ Hr); clear Hr
  end.
Ltac chain := first [eassumption|eapply ran_trans; [eassumption|chain]].

Lemma fields_body_ok l :
  forallb (fun kv : string * string => utf8_ok kv.1 && utf8_ok kv.2) l = true -> exists s, make_fields_body l = Ok s.
Proof.
  intros Hl. unfold make_fields_body.
  match goal with |- context [json_dump ?j] => assert (Hd : is_ok (json_dump j)) end.
  - apply dump_utf8, mk_obj_utf8. cbn [json_utf8 forallb fst snd]. rewrite andb_true_r. apply andb_true_iff. split; [done|].
    induction l as [|[k v] l IH]; [done|]. cbn [forallb map fst snd] in Hl |- *.
    rewrite !andb_true_iff in Hl. destruct Hl as [[Hk Hv] Hl]. rewrite mk_obj_utf8, IH; [done|done|].
    cbn [json_utf8 forallb fst snd]. by rewrite Hk, Hv.
  - destruct (json_dump _); [by eexists|done].
Qed.
Lemma endpoint_fields_utf8 user :
  utf8_ok user = true -> forallb (fun kv => utf8_ok kv.1 && utf8_ok kv.2) (endpoint_fields user) = true.
Proof. intros Hu. cbn [endpoint_fields forallb fst snd]. rewrite Hu. by vm_compute. Qed.

Lemma provision_run user w :
  utf8_ok user = true -> user <> "" ->
  exists w', provision user w = (Ok tt, w') /\ asks_for w w' (fun s => {[user]} ∪ s)
  /\ m_id_to_sipuser w' = m_id_to_sipuser w.
Proof.
  intros Hd Hu. apply str_empty_false in Hu. unfold provision. rewrite Hu.
  destruct (fields_body_ok aor_fields) as [d1 ->]; [by vm_compute|].
  destruct (fields_body_ok (endpoint_fields user)) as [d2 ->]; [by apply endpoint_fields_utf8|].
  run_rest. rewrite bind_lift_ok. run_rest. rewrite bind_lift_ok. run_rest.
  eexists. split; [done|]. split; [|by rewrite Hc1, Hc0, Hc].
  eexists. split; [chain|done].
Qed.

Lemma deprovision_run user w :
  user <> "" ->
  exists w', deprovision user w = (Ok tt, w') /\ asks_for w w' (fun s => s ∖ {[user]})
  /\ m_id_to_sipuser w' = m_id_to_sipuser w.
Proof.
  intros Hu. apply str_empty_false in Hu. unfold deprovision. rewrite Hu. do 4 run_rest.
  eexists. split; [done|]. split; [|by rewrite Hc2, Hc1, Hc0, Hc].
  eexists. split; [chain|done].
Qed.

Lemma apply_status_run status user w :
  utf8_ok user = true -> user <> "" ->
  exists w', apply_status status user w = (Ok tt, w') /\ asks_for w w' (set_user user (str_eqb status "active"))
  /\ m_id_to_sipuser w' = m_id_to_sipuser w.
Proof.
  intros Hd Hu. unfold apply_status, set_user.
  destruct (str_eqb status "active"); [by apply provision_run|by apply deprovision_run].
Qed.

Lemma oid_ok node : json_utf8 node = true -> is_ok (oid_str node).
Proof. intros Hd. unfold oid_str. destruct (member_str "$oid" node); [done|by apply dump_utf8]. Qed.

(** ** What an event asks for *)

Definition key_of (doc : json) : option string :=
  match member "_id" doc with
  | Some node => match oid_str node with Ok k => Some k | Throw _ => None end
  | None => None
  end.

Lemma remember_run doc user w :
  json_utf8 doc = true ->
  exists w', remember doc user w = (Ok tt, w') /\ ran w w' []
  /\ m_id_to_sipuser w' = match key_of doc with Some k => <[k := user]> (m_id_to_sipuser w) | None => m_id_to_sipuser w end.
Proof.
  intros Hd. unfold remember, key_of. destruct (member "_id" doc) as [node|] eqn:Hm.
  - assert (Ho : is_ok (oid_str node)) by (by apply oid_ok, (member_utf8 "_id" doc)).
    destruct (oid_str node) as [k|]; [|done]. rewrite bind_lift_ok. eexists. split; [done|]. split; [|done].
    split; try done. cbn. by rewrite app_nil_r.
  - exists w. split; [done|]. split; [apply ran_refl|done].
Qed.

(** The change of an event, for a watcher of a society; [None] when a member has a type
    the handler does not expect, or the event asks for nothing. *)
Definition change_of (society : string) (e : json) : option change :=
  match value_str "operationType" "" e with
  | Throw _ => None
  | Ok op =>
      if str_eqb op "delete" then
        match member_obj "documentKey" e with
        | Some key => Remove <$> key_of key
        | None => None
        end
      else
        match member_obj "fullDocument" e with
        | None => None
        | Some doc =>
            match value_str "societyId" "" doc with
            | Throw _ => None
            | Ok s =>
                if negb (str_eqb s society) then Some Foreign else
                match value_str "sipUsername" "" doc, value_str "sipHa1" "" doc,
                      value_str "status" "active" doc with
                | Ok user, Ok _, Ok status =>
                    if str_empty user then None
                    else Some (Upsert (key_of doc) user (str_eqb status "active"))
                | _, _, _ => None
                end
            end
        end
  end.

(** The cache never maps an id to the empty name. *)
Definition cache_ok w : Prop := forall k u, m_id_to_sipuser w !! k = Some u -> u <> "".

(** The calls and the cache of [w'] are those the change asks for. *)
Definition does w w' (l : list change) : Prop :=
  exists calls, ran w w' calls
  /\ forall s, mkDirectory (wanted calls s) (m_id_to_sipuser w')
               = apply_changes l (mkDirectory s (m_id_to_sipuser w)).
Lemma did_nothing w : does w w [].
Proof. exists []. split; [apply ran_refl|done]. Qed.
Lemma does_foreign w : does w w [Foreign].
Proof. exists []. split; [apply ran_refl|done]. Qed.
Lemma does_app w1 w2 w3 l l' : does w1 w2 l -> does w2 w3 l' -> does w1 w3 (l ++ l').
Proof.
  intros (c & R & A) (c' & R' & A'). exists (c ++ c'). split; [by eapply ran_trans|]. intros s.
  rewrite wanted_app, A'. unfold apply_changes. rewrite fold_left_app. by f_equal.
Qed.

(** The last steps of a row and of a document. *)
Lemma upsert_run doc user status w :
  json_utf8 doc = true -> utf8_ok user = true -> user <> "" -> cache_ok w ->
  exists w', (remember doc user ;; apply_status status user) w = (Ok tt, w')
  /\ does w w' [Upsert (key_of doc) user (str_eqb status "active")] /\ cache_ok w'.
Proof.
  intros Hd Hu Hne Hok. destruct (remember_run doc user w Hd) as (w1 & R1 & S1 & C1). rewrite (M_bind_ok _ _ _ _ _ R1).
  destruct (apply_status_run status user w1 Hu Hne) as (w2 & R2 & (l & S2 & A2) & C2). exists w2. split; [done|].
  assert (Hc2 : m_id_to_sipuser w2 = match key_of doc with Some k => <[k := user]> (m_id_to_sipuser w)
                                     | None => m_id_to_sipuser w end) by congruence.
  split.
  - exists ([] ++ l). split; [by eapply ran_trans|]. intros s. cbn. by rewrite A2, Hc2.
  - unfold cache_ok. rewrite Hc2. destruct (key_of doc) as [k|]; [|done]. intros k' u'.
    rewrite lookup_insert_Some. intros [[_ <-]|[_ Hx]]; [done|by apply (Hok k')].
Qed.

Lemma apply_document_run e ch w :
  json_utf8 e = true -> change_of (m_society_id w) e = Some ch -> value_str "operationType" "" e <> Ok "delete" ->
  cache_ok w ->
  exists w', apply_document e w = (Ok tt, w') /\ does w w' [ch] /\ cache_ok w'.
Proof.
  intros Hd Hch Hop Hok. unfold change_of in Hch. destruct (value_str "operationType" "" e) as [op|]; [|done].
  destruct (str_eqb op "delete") eqn:Hdel; [apply str_eqb_eq in Hdel; congruence|].
  unfold apply_document. destruct (member_obj "fullDocument" e) as [doc|] eqn:Hdoc; [|done].
  apply (member_obj_utf8 _ _ _ Hd) in Hdoc.
  destruct (value_str "societyId" "" doc) as [s|]; [|done]. rewrite bind_lift_ok, bind_asks.
  destruct (str_eqb s (m_society_id w)); cbn [negb] in *.
  2:{ injection Hch as <-. exists w. split; [done|]. split; [apply does_foreign|done]. }
  destruct (value_str "sipUsername" "" doc) as [user|] eqn:Huser; [|done].
  destruct (value_str "sipHa1" "" doc) as [ha1|]; [|done].
  destruct (value_str "status" "active" doc) as [status|]; [|done]. rewrite !bind_lift_ok.
  destruct (str_empty user) eqn:Hu; [done|]. apply str_empty_false in Hu. injection Hch as <-.
  apply upsert_run; [done| |done|done]. by apply (value_str_utf8 "sipUsername" "" doc).
Qed.

Lemma apply_delete_run e ch w :
  change_of (m_society_id w) e = Some ch -> value_str "operationType" "" e = Ok "delete" -> cache_ok w ->
  exists w', apply_delete e w = (Ok tt, w') /\ does w w' [ch] /\ cache_ok w'.
Proof.
  intros Hch Hop Hok. unfold change_of in Hch. rewrite Hop in Hch.
  change (str_eqb "delete" "delete") with true in Hch. cbv iota in Hch. unfold apply_delete.
  destruct (member_obj "documentKey" e) as [key|]; [|done]. unfold key_of in Hch.
  destruct (member "_id" key) as [node|]; [|done]. destruct (oid_str node) as [k|]; [|done].
  injection Hch as <-. rewrite bind_lift_ok, bind_asks.
  destruct (m_id_to_sipuser w !! k) as [user|] eqn:Hk.
  2:{ exists w. split; [done|]. split; [|done]. exists []. split; [apply ran_refl|]. intros s. cbn. by rewrite Hk. }
  destruct (deprovision_run user w (Hok _ _ Hk)) as (w1 & Hd1 & (l & [] & A1) & C1). rewrite (M_bind_ok _ _ _ _ _ Hd1).
  eexists. split; [done|]. split.
  - exists l. split; [by split|]. intros s. cbn. by rewrite A1, Hk, C1.
  - unfold cache_ok. cbn [m_id_to_sipuser]. rewrite C1. intros k' u'. rewrite lookup_delete_Some. intros [_ Hx].
    by apply (Hok k').
Qed.

(** One event of the stream.  The token is the only other member it writes. *)
Definition tokened (token : string) w : Watcher H :=
  mkWatcher (m_society_id w) (m_sip_realm w) (m_stream w) (m_id_to_sipuser w) token
    (m_reopen_skip_ticks w) (watcher_env w).

Lemma handle_event_run ev e id ch w :
  json_parse ev = Ok e -> member "_id" e = Some id ->
  change_of (m_society_id w) e = Some ch -> cache_ok w ->
  exists token w', handle_event ev w = (Ok tt, w') /\ json_dump id = Ok token
  /\ does (tokened token w) w' [ch] /\ cache_ok w'.
Proof.
  intros Hp Hid Hch Hok. unfold handle_event. rewrite Hp, Hid. apply parse_utf8 in Hp as Hd.
  pose proof (dump_utf8 id (member_utf8 _ _ _ Hd Hid)) as Htok. destruct (json_dump id) as [token|]; [|done].
  set (w0 := tokened token w). rewrite (M_bind_ok _ _ w tt w0) by done.
  assert (Hch0 : change_of (m_society_id w0) e = Some ch) by done. exists token.
  destruct (value_str "operationType" "" e) as [op|] eqn:Hop; [|by unfold change_of in Hch; rewrite Hop in Hch].
  rewrite bind_lift_ok. destruct (str_eqb op "delete") eqn:Hdel.
  - apply str_eqb_eq in Hdel as ->. destruct (apply_delete_run e ch w0 Hch0 Hop Hok) as (w' & ? & ? & ?). by exists w'.
  - assert (Hne : value_str "operationType" "" e <> Ok "delete") by (rewrite Hop; by intros [= ->]).
    destruct (apply_document_run e ch w0 Hd Hch0 Hne Hok) as (w' & ? & ? & ?). by exists w'.
Qed.
End Proofs.

Section Scan.
Context {H : Type} `{!AgentEnv H} `{!JsonLib} `{!JsonText}.
Implicit Types (w : Watcher H).

(** What a row asks for. *)
Definition row_typed (row : json) : Prop :=
  is_object row = true -> is_ok (value_str "sipUsername" "" row) /\ is_ok (value_str "sipHa1" "" row)
                          /\ is_ok (value_str "status" "active" row).
Definition row_change (row : json) : option change :=
  match value_str "sipUsername" "" row, value_str "status" "active" row with
  | Ok user, Ok status =>
      if is_object row && negb (str_empty user)
      then Some (Upsert (key_of row) user (str_eqb status "active")) else None
  | _, _ => None
  end.

Lemma scan_row_run row w :
  json_utf8 row = true -> row_typed row -> cache_ok w ->
  exists w', scan_row row w = (Ok tt, w') /\ cache_ok w' /\ does w w' (option_list (row_change row)).
Proof.
  intros Hd Hty Hok. unfold scan_row, row_change. destruct (is_object row) eqn:Ho; cbn [negb].
  2:{ exists w. cbn [andb]. repeat case_match; (split; [done|]); (split; [done|]); apply did_nothing. }
  destruct (Hty Ho) as (T1 & T2 & T3).
  destruct (value_str "sipUsername" "" row) as [user|] eqn:Huser; [|done].
  destruct (value_str "sipHa1" "" row) as [ha1|]; [|done].
  destruct (value_str "status" "active" row) as [status|]; [|done]. rewrite !bind_lift_ok.
  destruct (str_empty user) eqn:Hu; cbn [negb andb].
  { exists w. split; [done|]. split; [done|apply did_nothing]. }
  apply str_empty_false in Hu.
  destruct (upsert_run row user status w Hd) as (w' & ? & ? & ?); [|done|done|by exists w'].
  by apply (value_str_utf8 "sipUsername" "" row).
Qed.

Lemma scan_rows_run rows w :
  forallb json_utf8 rows = true -> Forall row_typed rows -> cache_ok w ->
  exists w', for_each rows scan_row w = (Ok tt, w') /\ cache_ok w' /\ does w w' (omap row_change rows).
Proof.
  intros Hd Ht. revert w. induction Ht as [|row rows Hr _ IH]; intros w Hok.
  { exists w. split; [done|]. split; [done|apply did_nothing]. }
  cbn in Hd. apply andb_true_iff in Hd as [Hd Hds].
  destruct (scan_row_run row w Hd Hr Hok) as (w1 & R1 & O1 & A1).
  destruct (IH Hds w1 O1) as (w2 & R2 & O2 & A2).
  exists w2. split; [by rewrite (for_each_cons_ok _ _ _ _ _ R1)|]. split; [done|].
  replace (omap row_change (row :: rows)) with (option_list (row_change row) ++ omap row_change rows)
    by (cbn; by destruct (row_change row)).
  by eapply does_app.
Qed.

(** The last word on a user. *)
Definition verdict (user : string) (l : list change) : option bool :=
  fold_left (fun acc ch => match ch with
                           | Upsert _ u active => if str_eqb u user then Some active else acc
                           | _ => acc
                           end) l None.

Lemma upserts_verdict user l d (acc : option bool) :
  Forall (fun ch => exists k u b, ch = Upsert k u b) l ->
  (user ∈ dir_endpoints d <-> default (bool_decide (user ∈ dir_endpoints d)) acc = true) ->
  user ∈ dir_endpoints (apply_changes l d)
  <-> default (bool_decide (user ∈ dir_endpoints d))
        (fold_left (fun acc ch => match ch with
                           | Upsert _ u active => if str_eqb u user then Some active else acc
                           | _ => acc
                           end) l acc) = true.
Proof.
  intros Hl. set (b0 := bool_decide (user ∈ dir_endpoints d)). clearbody b0. revert d acc.
  induction Hl as [|ch l (k & u & b & ->) _ IH]; intros d acc Hacc; [done|].
  cbn [apply_changes fold_left] in *. fold (apply_changes l) in *. apply IH.
  cbn [apply_change dir_endpoints]. unfold set_user.
  destruct (str_eqb u user) eqn:Hu; [apply str_eqb_eq in Hu as ->|apply str_eqb_neq in Hu].
  - destruct b; cbn; set_solver.
  - rewrite <- Hacc. destruct b; set_solver.
Qed.
End Scan.

(** * Properties *)

Section Properties.
Context {H : Type} `{!AgentEnv H} `{!JsonLib} `{!JsonText}.
Implicit Types (w : Watcher H).

(** An event of a run, as the change it carries. *)
Definition event_change (society ev : string) (ch : change) : Prop :=
  exists e id, json_parse ev = Ok e /\ member "_id" e = Some id /\ change_of society e = Some ch.

(** The events of a run, one after the other. *)
Lemma events_run evs chs w :
  cache_ok w -> Forall2 (event_change (m_society_id w)) evs chs ->
  exists calls w', for_each evs handle_event w = (Ok tt, w')
  /\ trace w' = trace w ++ calls /\ world w' = after calls (world w)
  /\ (forall s, mkDirectory (wanted calls s) (m_id_to_sipuser w')
               = apply_changes chs (mkDirectory s (m_id_to_sipuser w)))
  /\ (forall evs' ev e id, evs = evs' ++ [ev] -> json_parse ev = Ok e -> member "_id" e = Some id ->
        json_dump id = Ok (m_resume_token w')).
Proof.
  intros Hok Hev. remember (m_society_id w) as society eqn:Hs. revert w Hs Hok.
  induction Hev as [|ev ch evs chs (e & id & Hp & Hid & Hch) Hrest IH]; intros w -> Hok.
  - exists [], w. split; [done|]. split; [by rewrite app_nil_r|]. split; [done|]. split; [done|]. by intros [].
  - destruct (handle_event_run ev e id ch w Hp Hid Hch Hok) as (token & w1 & R1 & T1 & (c & [S1 _ K1 _ X1 W1] & A1) & O1).
    destruct (IH w1) as (cs & w' & R2 & X2 & W2 & A2 & T2); [done|done|].
    exists (c ++ cs), w'. split; [by rewrite (for_each_cons_ok _ _ _ _ _ R1)|].
    split; [by rewrite X2, X1, <- app_assoc|]. split; [by rewrite W2, W1; unfold after; rewrite fold_left_app|].
    split; [by intros s; rewrite wanted_app, A2, A1|].
    intros evs' ev' e' id' Hlast Hp' Hid'. destruct evs' as [|ev2 evs'].
    + injection Hlast as <- ->. rewrite Hp in Hp'. injection Hp' as <-. rewrite Hid in Hid'. injection Hid' as <-.
      inversion Hrest; subst. injection R2 as <-. by rewrite K1.
    + injection Hlast as _ ->. by apply (T2 evs' ev' e').
Qed.

(** C14. The watcher implements the directory.  Over any sequence of well-typed
    change-stream events no event throws; the endpoints Asterisk holds afterwards and the
    id cache are those the abstract directory reaches by the events' changes from those
    held before - the cache always, and the endpoints for every user none of whose
    requests Asterisk refused on the way (the provisioner only logs a refusal); each
    deletion finds the user its id was last seen with; and the resume token is that of the
    last event. *)
Theorem watcher_refines_directory `{!AsteriskLaws H} evs chs w :
  cache_ok w -> Forall2 (event_change (m_society_id w)) evs chs ->
  exists requests w', for_each evs handle_event w = (Ok tt, w')
  /\ trace w' = trace w ++ requests
  /\ m_id_to_sipuser w'
     = dir_cache (apply_changes chs (mkDirectory (held (world w)) (m_id_to_sipuser w)))
  /\ (forall user, user ∉ refused requests (world w) ->
        user ∈ held (world w')
        <-> user ∈ dir_endpoints (apply_changes chs (mkDirectory (held (world w)) (m_id_to_sipuser w))))
  /\ (forall evs' ev e id, evs = evs' ++ [ev] -> json_parse ev = Ok e -> member "_id" e = Some id ->
        json_dump id = Ok (m_resume_token w')).
Proof.
  intros Hok Hev. destruct (events_run evs chs w Hok Hev) as (cs & w' & R & X & W & A & T).
  exists cs, w'. rewrite <- A. repeat (split; [done|]). split; [|done].
  intros user Hu. rewrite W. by apply held_wanted.
Qed.

(** The full scan converges.  From an answer with well-typed rows the scan leaves
    exactly these endpoints, for a user none of whose requests was refused: one some row
    names is held when the last such row is active (a row without a status is), and not
    held otherwise; every other user as before; and the cache knows the id of every row
    with a user.  The cursor is not touched. *)
Theorem full_scan_converges `{!AsteriskLaws H} rows_text rows w :
  cache_ok w -> rows_text <> "" ->
  (env_query (GetDocuments "subscribers" (scan_filter (m_society_id w)) "{}") (world w)).1 = Ok rows_text ->
  json_parse rows_text = Ok (JArr rows) -> Forall row_typed rows ->
  exists requests w', run_full_scan w = (Ok tt, w') /\ m_stream w' = m_stream w
  /\ trace w' = trace w ++ requests
  /\ m_id_to_sipuser w'
     = dir_cache (apply_changes (omap row_change rows) (mkDirectory (held (world w)) (m_id_to_sipuser w)))
  /\ (forall user, user ∉ refused requests (world w) ->
        user ∈ held (world w') <->
        default (bool_decide (user ∈ held (world w))) (verdict user (omap row_change rows)) = true).
Proof.
  intros Hok Hne Hq Hp Hty. unfold run_full_scan. rewrite bind_asks.
  set (q := GetDocuments "subscribers" (scan_filter (m_society_id w)) "{}") in *.
  set (w0 := put_env (mkEnv (env_query q (world w)).2 (trace w ++ [Db q])) w).
  assert (Hdb : try_catch (db q) (mret "") w = (Ok rows_text, w0)).
  { unfold try_catch, db, in_env, env_call_db. cbn [get_env watcher_has_env].
    unfold w0, world in *. destruct (env_query q _) as [r h]. cbn [fst snd] in *. by rewrite Hq. }
  assert (R0 : ran w w0 [Db q]) by by split.
  rewrite (M_bind_ok _ _ _ _ _ Hdb). apply str_empty_false in Hne. rewrite Hne, Hp. apply parse_utf8 in Hp as Hd.
  destruct (scan_rows_run rows w0 Hd Hty) as (w' & R & _ & l & R1 & A); [exact Hok|].
  destruct (ran_trans _ _ _ _ _ R0 R1) as [_ S' _ _ X W]. exists ([Db q] ++ l), w'.
  change (m_id_to_sipuser w0) with (m_id_to_sipuser w) in A. rewrite <- A.
  split; [done|]. split; [done|]. split; [done|]. split; [done|]. intros user Hu. rewrite W, held_wanted by done.
  change (wanted ([Db q] ++ l) (held (world w))) with (wanted l (held (world w))).
  change (wanted l (held (world w))) with
    (dir_endpoints (mkDirectory (wanted l (held (world w))) (m_id_to_sipuser w'))). rewrite A.
  apply upserts_verdict; [|cbn; by rewrite bool_decide_eq_true].
  apply Forall_forall. intros ch Hin. apply list_elem_of_In, list_elem_of_omap in Hin as (row & _ & Hrow).
  unfold row_change in Hrow. repeat case_match; try done. injection Hrow as <-. eauto.
Qed.

(** A renamed subscriber keeps the old account.  When an update gives a known id a
    new SIP user name, both endpoints are provisioned, and the later deletion of the
    subscriber removes only the new one: the old name stays registered in Asterisk, however
    willingly it takes the requests. *)
Theorem renamed_user_stays `{!AsteriskLaws H} ev1 ev2 ev3 key old new w :
  cache_ok w -> old <> new -> (forall requests, refused requests (world w) = ∅) ->
  event_change (m_society_id w) ev1 (Upsert (Some key) old true) ->
  event_change (m_society_id w) ev2 (Upsert (Some key) new true) ->
  event_change (m_society_id w) ev3 (Remove key) ->
  exists w', for_each [ev1; ev2; ev3] handle_event w = (Ok tt, w')
  /\ old ∈ held (world w') /\ new ∉ held (world w').
Proof.
  intros Hok Hne Hr E1 E2 E3.
  destruct (events_run [ev1; ev2; ev3] [Upsert (Some key) old true; Upsert (Some key) new true; Remove key] w)
    as (cs & w' & R & _ & W & A & _); [done|by repeat constructor|].
  exists w'. split; [done|]. rewrite W, !held_wanted by (by rewrite Hr).
  change (wanted cs (held (world w))) with
    (dir_endpoints (mkDirectory (wanted cs (held (world w))) (m_id_to_sipuser w'))). rewrite A. cbn.
  rewrite lookup_insert_eq. cbn. set_solver.
Qed.

(** ** The cursor *)

Definition watch_call w : call := Db (WatchCollection "subscribers" (m_resume_token w)).

Lemma open_stream_run w :
  let h := host (watcher_env w) in
  open_stream w = (Ok tt, mkWatcher (m_society_id w) (m_sip_realm w) (env_watch "subscribers" (m_resume_token w) h).1
    (m_id_to_sipuser w) (m_resume_token w) (m_reopen_skip_ticks w)
    (mkEnv (env_watch "subscribers" (m_resume_token w) h).2 (trace w ++ [watch_call w]))).
Proof.
  unfold open_stream, watch, in_env, env_call_watch, mbind, M_bind. cbn.
  by destruct (env_watch _ _ _) as [s h].
Qed.

Fixpoint ticks (n : nat) w : Watcher H :=
  match n with O => w | S n' => ticks n' (tick w).2 end.

Lemma ticks_add m n w : ticks (m + n) w = ticks n (ticks m w).
Proof. revert w. induction m as [|m IH]; intros w; [done|]. cbn. apply IH. Qed.

Lemma tick_waits w :
  m_stream w = None -> 0 < m_reopen_skip_ticks w ->
  tick w = put_skip (m_reopen_skip_ticks w - 1) w.
Proof.
  intros Hs Hk. unfold tick. rewrite bind_asks, Hs, bind_asks.
  by destruct (Z.ltb_spec 0 (m_reopen_skip_ticks w)); [|lia].
Qed.

(** A refused attempt and the five ticks it waits. *)
Lemma idle_period w :
  m_stream w = None -> m_reopen_skip_ticks w = 0 -> (forall t h, (env_watch "subscribers" t h).1 = None) ->
  m_stream (ticks 6 w) = None /\ m_reopen_skip_ticks (ticks 6 w) = 0
  /\ trace (ticks 6 w) = trace w ++ [watch_call w] /\ watch_call (ticks 6 w) = watch_call w.
Proof.
  intros Hs Hk Hno. cbn [ticks].
  assert (Hd1 : tick w = (Ok tt, mkWatcher (m_society_id w) (m_sip_realm w) None (m_id_to_sipuser w) (m_resume_token w) 5
    (mkEnv (env_watch "subscribers" (m_resume_token w) (host (watcher_env w))).2 (trace w ++ [watch_call w])))).
  { unfold tick. rewrite bind_asks, Hs, bind_asks, Hk. change (0 <? 0) with false. cbv iota.
    rewrite (M_bind_ok _ _ _ _ _ (open_stream_run w)), bind_asks. cbn [m_stream]. by rewrite Hno. }
  rewrite Hd1. cbn [snd]. do 5 (rewrite tick_waits by done; cbn [put_skip modify snd m_reopen_skip_ticks]). done.
Qed.

(** Reopening the stream is rate-limited and never given up.  While the database
    refuses, one attempt is made every six ticks, each with the same resume token, for as
    long as it takes; the first tick after it accepts has the new cursor; and a cursor
    that fails is dropped and reopened, with the token of the last event, at the very
    next tick. *)
Theorem stream_reopens w :
  (m_stream w = None -> m_reopen_skip_ticks w = 0 ->
   forall k, (forall t h, (env_watch "subscribers" t h).1 = None) ->
     m_stream (ticks (6 * k) w) = None /\ m_reopen_skip_ticks (ticks (6 * k) w) = 0
     /\ trace (ticks (6 * k) w) = trace w ++ replicate k (watch_call w))
  /\ (m_stream w = None -> m_reopen_skip_ticks w <= 0 ->
      m_stream (tick w).2 = (env_watch "subscribers" (m_resume_token w) (host (watcher_env w))).1)
  /\ (forall cursor e, m_stream w = Some cursor ->
      (env_query (TryNext cursor) (host (watcher_env w))).1 = Throw e -> e <> OutOfFuel ->
      m_stream (ticks 1 w) = None
      /\ trace (ticks 2 w) = trace w ++ [Db (TryNext cursor); watch_call w]).
Proof.
  split; [|split].
  - intros Hs Hk k Hno. revert w Hs Hk. induction k as [|k IH]; intros w Hs Hk.
    { rewrite Nat.mul_0_r. cbn. by rewrite app_nil_r. }
    destruct (idle_period w Hs Hk Hno) as (Hs' & Hk' & Ht & Hw).
    replace (6 * S k)%nat with (6 + 6 * k)%nat by lia. rewrite ticks_add.
    destruct (IH _ Hs' Hk') as (Hd1 & H2 & H3). split; [done|]. split; [done|].
    rewrite H3, Ht, Hw, <- app_assoc. done.
  - intros Hs Hk. unfold tick. rewrite bind_asks, Hs, bind_asks.
    destruct (Z.ltb_spec 0 (m_reopen_skip_ticks w)); [lia|].
    rewrite (M_bind_ok _ _ _ _ _ (open_stream_run w)), bind_asks. cbn [m_stream].
    by destruct (env_watch _ _ _) as [[c|] h].
  - intros cursor e Hs Hq He. cbn [ticks].
    assert (Ht : tick w = (Ok tt, mkWatcher (m_society_id w) (m_sip_realm w) None (m_id_to_sipuser w)
        (m_resume_token w) 0 (mkEnv (env_query (TryNext cursor) (host (watcher_env w))).2
                                    (trace w ++ [Db (TryNext cursor)])))).
    { unfold tick. rewrite bind_asks, Hs. unfold next_event, db, in_env, env_call_db, try_catch, mbind, M_bind.
      cbn [get_env watcher_has_env]. destruct (env_query _ _) as [r h]. cbn [fst snd] in *. subst r. by destruct e. }
    rewrite Ht. cbn [snd]. split; [done|].
    match goal with |- trace (tick ?v).2 = _ => set (w1 := v) end.
    unfold tick. rewrite bind_asks. cbn [m_stream w1]. rewrite bind_asks. cbn [m_reopen_skip_ticks w1].
    change (0 <? 0) with false. cbv iota. rewrite (M_bind_ok _ _ _ _ _ (open_stream_run w1)), bind_asks. cbn [m_stream].
    assert (Hx : trace w1 ++ [watch_call w1] = trace w ++ [Db (TryNext cursor); watch_call w])
      by (unfold w1, trace; cbn; by rewrite <- app_assoc).
    by destruct (env_watch _ _ _) as [[c|] h].
Qed.
End Properties.

(** ** The theorems at work *)

Section Witnesses.
Definition ex_doc (id user st : string) : json :=
  mk_obj [("_id", JStr id); ("societyId", JStr "soc1"); ("sipUsername", JStr user); ("status", JStr st)].
Definition ex_upsert (tok id user st : string) : json :=
  mk_obj [("_id", JStr tok); ("operationType", JStr "update"); ("fullDocument", ex_doc id user st)].
Definition ex_delete (tok id : string) : json :=
  mk_obj [("_id", JStr tok); ("operationType", JStr "delete"); ("documentKey", mk_obj [("_id", JStr id)])].
Definition ex_scan : json := JArr [ex_doc "1" "alice" "active"; ex_doc "2" "bob" "disabled"].
#[local] Instance ex_prov_json : JsonLib :=
  table_json [ex_upsert "t1" "1" "alice" "active"; ex_upsert "t2" "1" "alicia" "active"; ex_delete "t3" "1"; ex_scan].
#[local] Instance ex_prov_text : JsonText.
Proof. apply table_json_text. vm_compute. reflexivity. Defined.

(** An Asterisk that is the set of its endpoints and grants every request. *)
#[local] Instance ex_prov_env : AgentEnv (gset string) := {|
  env_ari c h := (mkResponse 200 "", endpoint_step h (Ari c));
  env_query _ h := (Ok (compact_dump ex_scan), h);
  env_watch _ _ h := (Some O, h);
  env_time _ := 0;
  env_db := "pabx";
|}.
#[local] Instance ex_prov_laws : AsteriskLaws (gset string).
Proof.
  refine {| held := fun h => h |}; [done|exact endpoint_step_other|by intros []].
Defined.
Lemma ex_grants requests (h : gset string) : refused requests h = ∅.
Proof.
  revert h. induction requests as [|x l IH]; intros h; [done|]. cbn [refused]. rewrite IH.
  destruct x as [c| | |]; try set_solver. destruct (endpoint_of c); [|set_solver]. destruct c; set_solver.
Qed.

Definition ex_watcher : Watcher (gset string) := new_watcher "soc1" "pbx" (mkEnv ∅ []).

Lemma ex_change tok id user st :
  (user, st) = ("alice", "active") /\ tok = "t1" /\ id = "1" \/ (user, st) = ("alicia", "active") /\ tok = "t2" /\ id = "1" ->
  event_change "soc1" (compact_dump (ex_upsert tok id user st))
    (Upsert (Some (compact_dump (JStr id))) user (str_eqb st "active")).
Proof.
  intros [([= -> ->] & -> & ->)|([= -> ->] & -> & ->)]; eexists _, _; (split; [by vm_compute|]); by vm_compute.
Qed.

Lemma ex_directory key :
  let d := apply_changes [Upsert (Some key) "alice" true; Upsert (Some key) "alicia" true; Remove key] (mkDirectory ∅ ∅) in
  "alice" ∈ dir_endpoints d /\ "alicia" ∉ dir_endpoints d /\ dir_cache d = ∅.
Proof.
  cbn. rewrite lookup_insert_eq. cbn. split; [set_solver|]. split; [set_solver|].
  by rewrite insert_insert_eq, delete_insert_id.
Qed.

Lemma watcher_refines_directory_witness :
  exists w', for_each [compact_dump (ex_upsert "t1" "1" "alice" "active"); compact_dump (ex_upsert "t2" "1" "alicia" "active");
                       compact_dump (ex_delete "t3" "1")] handle_event ex_watcher = (Ok tt, w')
  /\ "alice" ∈ held (world w') /\ "alicia" ∉ held (world w') /\ m_id_to_sipuser w' = ∅.
Proof.
  destruct (watcher_refines_directory
    [compact_dump (ex_upsert "t1" "1" "alice" "active"); compact_dump (ex_upsert "t2" "1" "alicia" "active");
     compact_dump (ex_delete "t3" "1")]
    [Upsert (Some (compact_dump (JStr "1"))) "alice" true; Upsert (Some (compact_dump (JStr "1"))) "alicia" true;
     Remove (compact_dump (JStr "1"))] ex_watcher)
    as (cs & w' & R & _ & C & A & _).
  - done.
  - constructor; [apply (ex_change "t1" "1" "alice" "active"); by left|].
    constructor; [apply (ex_change "t2" "1" "alicia" "active"); by right|]. constructor; [|constructor].
    eexists _, _. split; by vm_compute.
  - exists w'. split; [done|]. rewrite C, !A by (rewrite ex_grants; apply not_elem_of_empty). apply ex_directory.
Defined.

Lemma full_scan_converges_witness :
  exists w', run_full_scan ex_watcher = (Ok tt, w') /\ "alice" ∈ held (world w').
Proof.
  destruct (full_scan_converges (compact_dump ex_scan) [ex_doc "1" "alice" "active"; ex_doc "2" "bob" "disabled"] ex_watcher)
    as (cs & w' & R & _ & _ & _ & Hu); [done|done|done|by vm_compute|by repeat constructor|].
  exists w'. split; [done|]. apply Hu; [rewrite ex_grants; apply not_elem_of_empty|by vm_compute].
Defined.

Lemma renamed_user_stays_witness :
  exists w', for_each [compact_dump (ex_upsert "t1" "1" "alice" "active");
                       compact_dump (ex_upsert "t2" "1" "alicia" "active"); compact_dump (ex_delete "t3" "1")]
               handle_event ex_watcher = (Ok tt, w') /\ "alice" ∈ held (world w').
Proof.
  destruct (renamed_user_stays (compact_dump (ex_upsert "t1" "1" "alice" "active"))
    (compact_dump (ex_upsert "t2" "1" "alicia" "active")) (compact_dump (ex_delete "t3" "1"))
    (compact_dump (JStr "1")) "alice" "alicia" ex_watcher) as (w' & R & Ha & _).
  - done.
  - done.
  - intros requests. apply ex_grants.
  - apply (ex_change "t1" "1" "alice" "active"). by left.
  - apply (ex_change "t2" "1" "alicia" "active"). by right.
  - eexists _, _. split; by vm_compute.
  - by exists w'.
Defined.
End Witnesses.
