(* ===== verification/PasswordHash.v ===== *)
(** Portal passwords: [MongodbClient::hash_password] and [verify_password] of
    modules/module/mongodb/src/mongodbc.cpp.

    OpenSSL's PBKDF2 and Base64 filters are the class [PasswordCrypto].  Two of its fields
    are memory the code reads without having written it: the key buffer when the
    derivation fails, and the stack behind it when a stored hash is longer than a key. *)

From S2P Require Import Prelude MessageParser.

#[local] Open Scope Z_scope.

Class PasswordCrypto := {
  pbkdf2 : string -> string -> Z -> option string;
  b64_write : string -> string;
  b64_read : string -> option string;
  stale_key : string;
  stack_after : string;
}.

Definition kPbkdf2Iterations : Z := 600000.
Definition kPbkdf2KeyLen : nat := 32.

Section Password.
Context `{!PasswordCrypto}.

Definition base64_encode (data : string) : string := b64_write data.
Definition base64_decode (encoded : string) : string :=
  if str_empty encoded then "" else default "" (b64_read encoded).

(** What the key buffer holds after the derivation. *)
Definition derive (password salt : string) (iterations : Z) : string :=
  default stale_key (pbkdf2 password salt iterations).

(** [hash_password], the salt being what [RAND_bytes] left in its buffer. *)
Definition hash_with_salt (password salt : string) : string :=
  "$pbkdf2-sha256$i=" +:+ to_string kPbkdf2Iterations +:+ "$" +:+ base64_encode salt
  +:+ "$" +:+ base64_encode (derive password salt kPbkdf2Iterations).

(** The non-empty segments between dollar signs. *)
Definition hash_parts (stored_hash : string) : list string :=
  filter (fun part => part <> "") (split_on "$" stored_hash).

Definition iterations_of (part : string) : result Z :=
  if String.prefix "i=" part then stoi 10 (str_drop 2 part) else Ok kPbkdf2Iterations.

(** [CRYPTO_memcmp] over as many bytes as the stored hash has. *)
Definition same_bytes (key hash : string) : bool :=
  str_eqb (str_take (String.length hash) (key +:+ stack_after)) hash.

Definition verify_password (password stored_hash : string) : result bool :=
  if str_empty stored_hash then mret false else
  match hash_parts stored_hash with
  | scheme :: rounds :: salt_b64 :: hash_b64 :: _ =>
      if negb (str_eqb scheme "pbkdf2-sha256") then mret false else
      iterations ← iterations_of rounds;
      let salt_bytes := base64_decode salt_b64 in
      let hash_bytes := base64_decode hash_b64 in
      if str_empty salt_bytes || str_empty hash_bytes then mret false else
      mret (same_bytes (derive password salt_bytes iterations) hash_bytes)
  | _ => mret false
  end.

(** What OpenSSL documents. *)
Class PasswordLaws : Prop := {
  b64_round s : s <> "" -> b64_read (b64_write s) = Some s;
  b64_not_empty s : s <> "" -> b64_write s <> "";
  b64_no_dollar s : no_char "$" (b64_write s);
  pbkdf2_length p s n key : pbkdf2 p s n = Some key -> String.length key = kPbkdf2KeyLen;
  pbkdf2_works p s n : 0 < n -> pbkdf2 p s n <> None;
}.
Context `{!PasswordLaws}.

Lemma derive_length password salt : String.length (derive password salt kPbkdf2Iterations) = kPbkdf2KeyLen.
Proof.
  unfold derive. destruct (pbkdf2 password salt kPbkdf2Iterations) as [key|] eqn:Hk; [by eapply pbkdf2_length|].
  by apply pbkdf2_works in Hk.
Qed.

Lemma derive_not_empty password salt : derive password salt kPbkdf2Iterations <> "".
Proof. intros He. pose proof (derive_length password salt) as Hl. by rewrite He in Hl. Qed.

Lemma base64_round s : s <> "" -> base64_decode (base64_encode s) = s.
Proof.
  intros Hs. unfold base64_decode, base64_encode. pose proof (b64_not_empty s Hs) as Hne.
  apply str_empty_false in Hne. by rewrite Hne, b64_round.
Qed.

Lemma hash_parts_of password salt :
  salt <> "" ->
  hash_parts (hash_with_salt password salt)
  = ["pbkdf2-sha256"; "i=600000"; base64_encode salt; base64_encode (derive password salt kPbkdf2Iterations)].
Proof.
  intros Hs. unfold hash_parts, base64_encode.
  change (hash_with_salt password salt)
    with (str_join "$" [""; "pbkdf2-sha256"; "i=600000"; b64_write salt;
                        b64_write (derive password salt kPbkdf2Iterations)]).
  rewrite split_on_join; [|repeat constructor; apply b64_no_dollar|done].
  pose proof (b64_not_empty _ Hs). pose proof (b64_not_empty _ (derive_not_empty password salt)).
  repeat (rewrite filter_cons; case_decide; try done).
Qed.

(** A stored hash accepts exactly the passwords that derive the same key: checking a
    password against the hash of another compares the two derived keys in full, so the
    password itself is always accepted. *)
Theorem verify_hash_equiv password other salt :
  salt <> "" ->
  verify_password other (hash_with_salt password salt)
  = Ok (str_eqb (derive other salt kPbkdf2Iterations) (derive password salt kPbkdf2Iterations)).
Proof.
  intros Hs. unfold verify_password. change (str_empty (hash_with_salt _ _)) with false. cbn iota.
  rewrite (hash_parts_of password salt Hs). rewrite !base64_round by (try apply derive_not_empty; done).
  change (str_eqb "pbkdf2-sha256" "pbkdf2-sha256") with true.
  replace (iterations_of "i=600000") with (Ok kPbkdf2Iterations) by (by vm_compute).
  cbn [negb]. apply str_empty_false in Hs as Hs'. rewrite Hs'.
  pose proof (derive_not_empty password salt) as Hk. apply str_empty_false in Hk. rewrite Hk.
  cbn. unfold same_bytes. do 2 f_equal.
  rewrite derive_length, <- (derive_length other salt). apply str_take_app_length.
Qed.
End Password.

(** ** A concrete derivation and encoding, to evaluate the model on examples *)

Fixpoint toy_write (s : string) : string :=
  match s with
  | EmptyString => ""
  | String c s' => String (chr (65 + ord c / 16)) (String (chr (65 + ord c mod 16)) (toy_write s'))
  end.
Fixpoint toy_read (s : string) : string :=
  match s with
  | String a (String b s') => String (chr (16 * (ord a - 65) + (ord b - 65))) (toy_read s')
  | _ => ""
  end.
Definition toy_crypto : PasswordCrypto := {|
  pbkdf2 p s n := if 0 <? n then Some (str_take 32 (p +:+ s +:+ str_repeat "k" 32)) else None;
  b64_write := toy_write;
  b64_read s := Some (toy_read s);
  stale_key := str_repeat "u" 32;
  stack_after := "";
|}.

Lemma nibble_range c : 0 <= ord c / 16 < 16 /\ 0 <= ord c mod 16 < 16.
Proof.
  pose proof (ord_range c). split; [|apply Z.mod_pos_bound; lia].
  split; [apply Z.div_pos; lia|apply Z.div_lt_upper_bound; lia].
Qed.

Lemma toy_round s : toy_read (toy_write s) = s.
Proof.
  induction s as [|c s IH]; [done|]. cbn [toy_write toy_read]. rewrite IH. f_equal.
  pose proof (nibble_range c) as [Hd Hm]. rewrite !ord_chr, !Z.mod_small by lia.
  rewrite <- (chr_ord c) at 3. f_equal. pose proof (Z.div_mod (ord c) 16). lia.
Qed.

Lemma toy_no_dollar s : no_char "$" (toy_write s).
Proof.
  unfold no_char. induction s as [|c s IH]; [done|]. cbn [toy_write find_char].
  pose proof (nibble_range c) as [Hd Hm].
  assert (Hne : forall n, 0 <= n < 16 -> Ascii.eqb (chr (65 + n)) "$" = false).
  { intros n Hn. apply Ascii.eqb_neq. intros He. apply (f_equal ord) in He.
    rewrite ord_chr, Z.mod_small in He by lia. change (ord "$") with 36 in He. lia. }
  rewrite !Hne by done. by rewrite IH.
Qed.

#[local] Instance the_crypto : PasswordCrypto := toy_crypto.
Lemma toy_laws : PasswordLaws.
Proof.
  split.
  - intros s _. cbn. by rewrite toy_round.
  - by intros [|c s].
  - apply toy_no_dollar.
  - intros p s n key. unfold pbkdf2, the_crypto, toy_crypto. destruct (0 <? n); [|done]. intros Hk.
    assert (key = str_take 32 (p +:+ s +:+ str_repeat "k" 32)) as -> by congruence.
    rewrite str_length_take, !str_length_app, str_length_repeat. unfold kPbkdf2KeyLen. lia.
  - intros p s n Hn. unfold pbkdf2, the_crypto, toy_crypto. apply Z.ltb_lt in Hn. by rewrite Hn.
Qed.

Lemma verify_hash_equiv_witness :
  verify_password "pw" (hash_with_salt "pw" "salt") = Ok true
  /\ verify_password "guess" (hash_with_salt "pw" "salt") = Ok false.
Proof.
  pose proof toy_laws as Hlaws.
  split; (etransitivity; [by apply (@verify_hash_equiv toy_crypto Hlaws)|]); by vm_compute.
Defined.
