(* ===== verification/PortalEnv.v ===== *)
(** What the cloud's REST handlers use of the outside world, and their text helpers
    (the anonymous namespaces of microservice_pbx.cpp).

    The database client, the revocation sink, the clock, the environment variables,
    the digests and the file system are one interface, [PortalEnv]; the calls that read or
    change the database or revoke a subscriber are recorded in a trace. *)

From S2P Require Import Prelude Json MessageParser HttpParser PasswordHash.

#[local] Open Scope Z_scope.

Inductive portal_call :=
  | GetDocuments (coll filter projection : string)
  | GetDocumentsAll (coll projection : string)
  | GetDocument (coll filter projection : string)
  | CreateDocument (db coll doc : string)
  | CreateBulk (db coll docs : string)
  | UpdateCollection (coll filter update : string)
  | DeleteDocument (coll filter : string)
  | NextAwbno (prefix : string)
  | Revoke (society_id sip_username : string).

#[global] Instance portal_call_eq_dec : EqDecision portal_call.
Proof. solve_decision. Defined.

(** An answer of [p_query] is the client's string; a flag is an empty or a non-empty one, a
    count its decimal.  [p_salt] is the buffer [RAND_bytes] fills for a new password hash. *)
Class PortalEnv (H : Type) := {
  p_query : portal_call -> H -> result string * H;
  p_revoke : string -> string -> H -> H;
  p_remote_disconnected : H -> bool;
  p_database : string;
  p_getenv : string -> option string;
  p_time : H -> Z;
  p_time_ms : H -> Z;
  p_rand_bytes : nat -> H -> option string * H;
  p_random_device : nat -> H -> string * H;
  p_read_file : string -> option string;
  p_md5 : string -> string;
  p_hmac_sha1 : string -> string -> string;
  p_base64 : string -> string;
  p_salt : H -> string * H;
}.

Record Portal (H : Type) := mkPortal { host : H; pcalls : list portal_call }.
Arguments mkPortal {H} _ _.
Arguments host {H} _.
Arguments pcalls {H} _.

Section Calls.
Context {H : Type} `{!PortalEnv H} `{!PasswordCrypto}.

Definition query (c : portal_call) : M (Portal H) string := fun w =>
  let '(r, h) := p_query c (host w) in (r, mkPortal h (pcalls w ++ [c])).
Definition revoke_call (society user : string) : M (Portal H) unit := fun w =>
  (Ok tt, mkPortal (p_revoke society user (host w)) (pcalls w ++ [Revoke society user])).
Definition is_remote_disconnected : M (Portal H) bool := fun w => (Ok (p_remote_disconnected (host w)), w).
Definition time : M (Portal H) Z := fun w => (Ok (p_time (host w)), w).
Definition time_ms : M (Portal H) Z := fun w => (Ok (p_time_ms (host w)), w).
Definition rand_bytes (n : nat) : M (Portal H) (option string) := fun w =>
  let '(r, h) := p_rand_bytes n (host w) in (Ok r, mkPortal h (pcalls w)).
Definition random_device (n : nat) : M (Portal H) string := fun w =>
  let '(r, h) := p_random_device n (host w) in (Ok r, mkPortal h (pcalls w)).
Definition hash_password (p : string) : M (Portal H) string := fun w =>
  let '(salt, h) := p_salt (host w) in (Ok (hash_with_salt p salt), mkPortal h (pcalls w)).
End Calls.

(** ** Responses *)

Definition http_response_with (code : Z) (reason body content_type extra_headers : string) : string :=
  "HTTP/1.1 " +:+ to_string code +:+ " " +:+ reason +:+ CRLF
  +:+ "Connection: keep-alive" +:+ CRLF
  +:+ "Access-Control-Allow-Origin: *" +:+ CRLF
  +:+ "Content-Length: " +:+ to_string (Z.of_nat (String.length body)) +:+ CRLF
  +:+ "Content-Type: " +:+ content_type +:+ CRLF
  +:+ extra_headers +:+ CRLF +:+ body.
Definition http_response (code : Z) (reason body : string) : string :=
  http_response_with code reason body "application/json" "".

Definition error_body (code : Z) (cause : string) : string :=
  "{" +:+ quoted "status" +:+ ":" +:+ quoted "failure" +:+ "," +:+ quoted "error" +:+ ":" +:+ to_string code
  +:+ "," +:+ quoted "cause" +:+ ":" +:+ quoted cause +:+ "}".
Definition response_error (code : Z) (reason cause : string) : string :=
  http_response code reason (error_body code cause).

(** ** Text *)

(** The value of the first key=value segment with this key. *)
Fixpoint find_pair (key : string) (segments : list string) : string :=
  match segments with
  | [] => ""
  | seg :: segments' =>
      match find_char "=" seg with
      | Some eq => if str_eqb (str_take eq seg) key then str_drop (eq + 1) seg else find_pair key segments'
      | None => find_pair key segments'
      end
  end.

Definition query_param (uri_with_query key : string) : string :=
  match find_char "?" uri_with_query with
  | None => ""
  | Some q => find_pair key (split_on "&" (str_drop (q + 1) uri_with_query))
  end.

Definition raw_uri_with_query (req : string) : string :=
  match find_str CRLF req with
  | None => ""
  | Some fin =>
      let line := str_take fin req in
      match find_char " " line with
      | None => ""
      | Some sp1 =>
          match find_char_from " " (sp1 + 1) line with
          | None => ""
          | Some sp2 => substr (sp1 + 1) (sp2 - sp1 - 1) line
          end
      end
  end.

Definition path_suffix (req prefix : string) : string :=
  let uri := raw_uri_with_query req in
  let uri := match find_char "?" uri with Some q => str_take q uri | None => uri end in
  if (String.length uri <=? String.length prefix)%nat || negb (String.prefix prefix uri) then ""
  else str_drop (String.length prefix) uri.

Definition split_csv_row (line : string) : list string := split_on "," (strip_cr line).

Definition csv_special (c : ascii) : bool :=
  Ascii.eqb c "," || (ord c =? 34) || Ascii.eqb c CR || Ascii.eqb c LF.
Fixpoint csv_quote (s : string) : string :=
  match s with
  | EmptyString => ""
  | String c s' => if ord c =? 34 then dquote +:+ dquote +:+ csv_quote s' else String c (csv_quote s')
  end.
Definition csv_escape (field : string) : string :=
  if str_forallb (fun c => negb (csv_special c)) field then field else dquote +:+ csv_quote field +:+ dquote.

(** Leading blanks and tabs; a segment of nothing else is left alone. *)
Fixpoint drop_blanks (s : string) : string :=
  match s with
  | String c s' => if Ascii.eqb c " " || (ord c =? 9) then drop_blanks s' else s
  | EmptyString => ""
  end.
Definition trim_left (s : string) : string := if str_empty (drop_blanks s) then s else drop_blanks s.

Definition cookie_value (cookie_header key : string) : string :=
  find_pair key (map trim_left (split_on ";" cookie_header)).

Definition hex_digit_of (n : Z) : ascii := chr (if n <? 10 then 48 + n else 87 + n).
Fixpoint hex_encode (s : string) : string :=
  match s with
  | EmptyString => ""
  | String c s' => String (hex_digit_of (ord c / 16)) (String (hex_digit_of (ord c mod 16)) (hex_encode s'))
  end.

Section Helpers.
Context {H : Type} `{!PortalEnv H} `{!Zlib}.

Definition md5_hex (s : string) : string := hex_encode (p_md5 s).
Definition compute_sip_ha1 (username realm password : string) : string :=
  md5_hex (username +:+ ":" +:+ realm +:+ ":" +:+ password).

Definition alphabet : string := "ABCDEFGHIJKLMNOPQRSTUVWXYZabcdefghijklmnopqrstuvwxyz0123456789".
Definition alphabet_char (c : ascii) : ascii := default "A"%char (String.get (Z.to_nat (ord c mod 62)) alphabet).
Definition random_alnum (n : nat) : M (Portal H) string :=
  r ← rand_bytes n;
  match r with
  | Some buf => mret (str_map alphabet_char buf)
  | None => buf ← random_device n; mret (str_map alphabet_char buf)
  end.

Definition env_or (name fallback : string) : string :=
  match p_getenv name with
  | Some v => if str_empty v then fallback else v
  | None => fallback
  end.
Definition db_available : bool := negb (str_empty (env_or "DB_URI" "")) || negb (str_empty (env_or "REMOTE_DB" "")).

(** [Http parsed(req)]: the constructor may throw. *)
Definition parse_request (req : string) : M (Portal H) Http := lift (parse_http req).

Definition extract_session_token (req : string) : M (Portal H) string :=
  let tok := query_param (raw_uri_with_query req) "token" in
  if negb (str_empty tok) then mret tok else
  parsed ← parse_request req;
  mret (cookie_value (get "Cookie" parsed) "session").
End Helpers.
