(* ===== verification/Portal.v ===== *)
(** The REST handlers of the control plane: modules/module/pbx/src/microservice_pbx.cpp.
    A handler takes the raw request and returns the raw response; what it throws leaves
    it, as in the code. *)

From S2P Require Import Prelude Json MessageParser HttpParser PasswordHash PortalEnv.

#[local] Open Scope Z_scope.

Section Portal.
Context {H : Type} `{!PortalEnv H} `{!Zlib} `{!JsonLib} `{!PasswordCrypto}.

Definition handler : Type := string -> M (Portal H) string.

Definition bad_request (cause : string) : string := response_error 400 "Bad Request" cause.
Definition unauthorized (cause : string) : string := response_error 401 "Unauthorized" cause.
Definition ok_json (body : string) : string := http_response 200 "OK" body.

(** The first required field that is not a non-empty string. *)
Fixpoint missing_field (required : list string) (body : json) : option string :=
  match required with
  | [] => None
  | k :: required' =>
      match member_str k body with
      | Some v => if str_empty v then Some k else missing_field required' body
      | None => Some k
      end
  end.
Definition field (k : string) (body : json) : string := default "" (member_str k body).

(** [json::parse(parsed.body())] inside a [try] that answers 400, then the rest. *)
Definition with_json_body (req : string) (k : Http -> json -> M (Portal H) string) : M (Portal H) string :=
  parsed ← parse_request req;
  match json_parse (m_body parsed) with
  | Throw _ => mret (bad_request "Invalid JSON body")
  | Ok body => k parsed body
  end.

(** A filter built by concatenation, values unescaped. *)
Definition raw_filter (kvs : list (string * string)) : string :=
  "{" +:+ str_join "," (map (fun kv => quoted kv.1 +:+ ":" +:+ quoted kv.2) kvs) +:+ "}".

(** ** Societies *)

Definition handle_society_POST : handler := fun req =>
  with_json_body req (fun _ body =>
    match missing_field ["name"; "code"] body with
    | Some k => mret (bad_request ("Missing field: " +:+ k))
    | None =>
        let code := field "code" body in
        existing ← query (GetDocument "societies" (raw_filter [("code", code)]) "{}");
        if negb (str_empty existing) then mret (response_error 409 "Conflict" "Society code already exists") else
        secret ← random_alnum 32;
        let doc := set_key "ringTimeoutSec" (JInt 30) (set_key "maxConcurrentCalls" (JInt 5)
                     (set_key "turnSharedSecret" (JStr secret)
                       (set_key "sipRealm" (JStr (code +:+ ".pbx.local")) body))) in
        text ← lift (json_dump doc);
        inserted ← query (CreateDocument p_database "societies" text);
        mret (http_response 201 "Created" (if str_empty inserted then text else inserted))
    end).

(** The shape the list handlers share: the answer's array, or an empty list when the
    query throws, is empty or is no array. *)
Definition fetch_array (fetch : M (Portal H) string) : M (Portal H) (option (list json)) :=
  raw ← try_catch fetch (mret "");
  if str_empty raw then mret None else
  match json_parse raw with
  | Ok (JArr arr) => mret (Some arr)
  | _ => mret None
  end.

Definition strip_secret (row : json) : json := erase_key "turnSharedSecret" row.

Definition handle_societies_GET : handler := fun _ =>
  if negb db_available then mret (ok_json "[]") else
  rows ← fetch_array (query (GetDocumentsAll "societies" "{}"));
  match rows with
  | None => mret (ok_json "[]")
  | Some arr => text ← lift (json_dump (JArr (map strip_secret arr))); mret (ok_json text)
  end.

Definition handle_society_detail_GET : handler := fun req =>
  let id := path_suffix req "/api/v1/society/" in
  if str_empty id then mret (bad_request "Missing society id in path") else
  if negb db_available then mret (response_error 503 "Service Unavailable" "DB not configured") else
  filter ← lift (json_dump (mk_obj [("_id", JStr id)]));
  doc ← query (GetDocument "societies" filter "{}");
  if str_empty doc then mret (response_error 404 "Not Found" "Unknown society id") else
  mret (ok_json doc).

(** ** Admin views *)

Definition presence_cache : Type := option (string -> string -> bool).

(** The row loop of the admin list: secrets out, presence in. *)
Definition admin_row (society_id : string) (presence : presence_cache) (row : json) : result json :=
  if negb (is_object row) then Ok row else
  let row := erase_key "sipHa1" (erase_key "portalPasswordHash" row) in
  match presence with
  | None => Ok row
  | Some is_online =>
      sip_user ← value_str "sipUsername" "" row;
      mret (set_key "online" (JBool (negb (str_empty sip_user) && is_online society_id sip_user)) row)
  end.

Fixpoint map_result {A B} (f : A -> result B) (l : list A) : result (list B) :=
  match l with
  | [] => Ok []
  | a :: l' => b ← f a; bs ← map_result f l'; mret (b :: bs)
  end.

Definition handle_admin_subscribers_GET (presence : presence_cache) : handler := fun req =>
  let society_id := query_param (raw_uri_with_query req) "societyId" in
  if str_empty society_id then mret (bad_request "Missing required query param: societyId") else
  if negb db_available then mret (ok_json "[]") else
  rows ← fetch_array (filter ← lift (json_dump (mk_obj [("societyId", JStr society_id)]));
                      query (GetDocuments "subscribers" filter "{}"));
  match rows with
  | None => mret (ok_json "[]")
  | Some arr =>
      out ← lift (map_result (admin_row society_id presence) arr);
      text ← lift (json_dump (JArr out));
      mret (ok_json text)
  end.

Definition connected_obj (b : bool) : json := mk_obj [("connected", JBool b)].

Definition handle_admin_connectivity_GET (agent_connected asterisk_connected : bool) : handler := fun _ =>
  disconnected ← is_remote_disconnected;
  mongo ← (if disconnected : bool then mret false else
           try_catch (id ← query (NextAwbno "HEALTHCHK"); mret (negb (str_empty id))) (mret false));
  disconnected ← is_remote_disconnected;
  text ← lift (json_dump (mk_obj [("agent", connected_obj agent_connected);
                                  ("wsdbagent", connected_obj (negb disconnected));
                                  ("mongo", connected_obj mongo);
                                  ("asterisk", connected_obj asterisk_connected)]));
  mret (ok_json text).

(** ** Call records, push, TURN *)

Definition handle_cdr_GET : handler := fun req =>
  let society_id := query_param (raw_uri_with_query req) "societyId" in
  if str_empty society_id then mret (bad_request "Missing required query param: societyId") else
  if negb db_available then mret (ok_json "[]") else
  result ← try_catch (query (GetDocuments "cdr" (raw_filter [("societyId", society_id)]) "{}")) (mret "");
  mret (ok_json (if str_empty result then "[]" else result)).

Definition store_unavailable (cause : string) : string := response_error 503 "Service Unavailable" cause.

Definition handle_push_subscribe_POST : handler := fun req =>
  with_json_body req (fun _ body =>
    match missing_field ["subscriberId"; "endpoint"; "p256dh"; "auth"] body with
    | Some k => mret (bad_request ("Missing field: " +:+ k))
    | None =>
        if negb db_available then
          mret (store_unavailable "Push subscriptions store unavailable (no DB configured)") else
        stored ← try_catch (text ← lift (json_dump body);
                            _ ← query (CreateDocument p_database "push_subscriptions" text); mret true)
                           (mret false);
        if negb stored then mret (store_unavailable "Push subscriptions store unavailable") else
        text ← lift (json_dump body);
        mret (http_response 201 "Created" text)
    end).

Definition handle_push_vapid_key_GET : handler := fun _ =>
  text ← lift (json_dump (mk_obj [("key", JStr (env_or "VAPID_PUBLIC_KEY" ""))]));
  mret (ok_json text).

Definition kTurnTtl : Z := 300.

(** [turn_url.substr(5)] throws when the configured URL is shorter. *)
Definition handle_turn_credentials_GET : handler := fun req =>
  parsed ← parse_request req;
  let flat := get "X-PBX-Flat" parsed in
  let sip_user := if str_empty flat then "anon" else flat in
  let secret := env_or "TURN_SHARED_SECRET" "dev-only-shared-secret-override-in-prod" in
  let turn_url := env_or "TURN_URL" "turn:turn.pbx.local:3478?transport=udp" in
  now ← time;
  let username := to_string (now + kTurnTtl) +:+ ":" +:+ sip_user in
  let credential := p_base64 (p_hmac_sha1 secret username) in
  rest ← lift (if (String.length turn_url <? 5)%nat then Throw OutOfRange else Ok (str_drop 5 turn_url));
  text ← lift (json_dump (mk_obj [("urls", JArr [JStr turn_url; JStr ("stun:" +:+ rest)]);
                                  ("username", JStr username); ("credential", JStr credential);
                                  ("ttlSec", JInt kTurnTtl)]));
  mret (ok_json text).

(** ** Sessions *)

Definition kSessionTtlSec : Z := 24 * 60 * 60.
Definition kSessionTtlGuardSec : Z := 7 * 24 * 60 * 60.
Definition ttl_sec_for_role (role : string) : Z := if str_eqb role "guard" then kSessionTtlGuardSec else kSessionTtlSec.

(** [contains("expiresAt") && is_number() && get<long>() > now]. *)
Definition session_live (session : json) (now : Z) : bool :=
  match member "expiresAt" session with
  | Some v => is_number v && match get_long v with Ok z => now <? z | Throw _ => false end
  | None => false
  end.

Definition token_filter (token : string) : json := mk_obj [("token", JStr token)].
Definition expiry_update (expires : Z) : json := mk_obj [("$set", mk_obj [("expiresAt", JInt expires)])].

Definition refresh_session_expiry (token : string) : M (Portal H) unit :=
  if str_empty token then mret tt else
  record ← try_catch (filter ← lift (json_dump (token_filter token)); query (GetDocument "sessions" filter "{}"))
                     (mret "");
  if str_empty record then mret tt else
  match json_parse record with
  | Throw _ => mret tt
  | Ok session =>
      now ← time;
      if negb (session_live session now) then mret tt else
      role ← lift (value_str "role" "resident" session);
      try_catch (filter ← lift (json_dump (token_filter token));
                 update ← lift (json_dump (expiry_update (now + ttl_sec_for_role role)));
                 _ ← query (UpdateCollection "sessions" filter update); mret tt) (mret tt)
  end.

Definition mint_bearer_token : M (Portal H) string :=
  r ← rand_bytes 16;
  mret match r with Some bytes => hex_encode bytes | None => "" end.

Definition session_doc (token email society_id sip_username role : string) (now : Z) : json :=
  mk_obj [("token", JStr token); ("email", JStr email); ("societyId", JStr society_id);
          ("sipUsername", JStr sip_username); ("role", JStr role); ("createdAt", JInt now);
          ("expiresAt", JInt (now + ttl_sec_for_role role))].

Definition session_cookie (token : string) (ttl : Z) : string :=
  "Set-Cookie: session=" +:+ token +:+ "; HttpOnly; Secure; SameSite=Strict; Path=/; Max-Age="
  +:+ to_string ttl +:+ CRLF.

Definition finish_login (subscriber : json) (email society_id sip_username role : string) : M (Portal H) string :=
  token ← mint_bearer_token;
  if str_empty token then mret (response_error 500 "Internal Server Error" "RAND_bytes failed") else
  now ← time;
  text ← lift (json_dump (session_doc token email society_id sip_username role now));
  _ ← query (CreateDocument p_database "sessions" text);
  rsp ← lift (json_dump (mk_obj [("token", JStr token); ("subscriber", subscriber)]));
  mret (http_response_with 200 "OK" rsp "application/json" (session_cookie token (ttl_sec_for_role role))).

Definition profile_of (society_id flat name sip_user role : string) (auto_answer : bool) : json :=
  mk_obj [("societyId", JStr society_id); ("flatNumber", JStr flat); ("displayName", JStr name);
          ("sipUser", JStr sip_user); ("role", JStr role); ("autoAnswer", JBool auto_answer)].

Definition server_error (cause : string) : string := response_error 500 "Internal Server Error" cause.
Definition strict_mode : bool := str_eqb (env_or "PBX_AUTH_STRICT" "") "1".

(** The stored hash, when the password matches it; [verify_password] may throw. *)
Definition password_matches (password : string) (subscriber : json) : result bool :=
  match member_str "portalPasswordHash" subscriber with
  | Some hash => verify_password password hash
  | None => Ok false
  end.

Definition disabled (subscriber : json) : bool :=
  match member_str "status" subscriber with Some s => negb (str_eqb s "active") | None => false end.

Definition strict_login (society_code flat_number password : string) : M (Portal H) string :=
  soc_query ← lift (json_dump (mk_obj [("code", JStr society_code)]));
  society_doc ← query (GetDocument "societies" soc_query "{}");
  if str_empty society_doc then mret (unauthorized "Invalid credentials") else
  match json_parse society_doc ≫= value_str "_id" "" with
  | Throw _ => mret (server_error "society record is not valid JSON")
  | Ok society_id =>
      if str_empty society_id then mret (server_error "society record missing _id") else
      sub_query ← lift (json_dump (mk_obj [("societyId", JStr society_id); ("flatNumber", JStr flat_number)]));
      record ← query (GetDocument "subscribers" sub_query "{}");
      if str_empty record then mret (unauthorized "Invalid credentials") else
      match json_parse record with
      | Throw _ => mret (server_error "subscriber record is not valid JSON")
      | Ok subscriber =>
          matches ← lift (password_matches password subscriber);
          if negb matches then mret (unauthorized "Invalid credentials") else
          if disabled subscriber then mret (response_error 403 "Forbidden" "Account disabled") else
          sip_username ← lift (value_str "sipUsername" "" subscriber);
          role ← lift (value_str "role" "resident" subscriber);
          email ← lift (value_str "email" "" subscriber);
          flat ← lift (value_str "flatNumber" "" subscriber);
          name ← lift (value_str "name" "" subscriber);
          auto_answer ← lift (value_bool "autoAnswer" false subscriber);
          finish_login (profile_of society_id flat name sip_username role auto_answer)
            email society_id sip_username role
      end
  end.

Definition handle_subscriber_login_POST : handler := fun req =>
  with_json_body req (fun _ body =>
    match missing_field ["societyCode"; "flatNumber"; "password"] body with
    | Some k => mret (bad_request ("Missing field: " +:+ k))
    | None =>
        let society_code := field "societyCode" body in
        let flat_number := field "flatNumber" body in
        disconnected ← is_remote_disconnected;
        if disconnected : bool then
          mret (store_unavailable "On-prem agent not connected to cloud") else
        if strict_mode then strict_login society_code flat_number (field "password" body) else
        finish_login (profile_of society_code flat_number flat_number flat_number "resident" false)
          "" society_code flat_number "resident"
    end).

Definition handle_ping_GET : handler := fun req =>
  token ← extract_session_token req;
  refresh_session_expiry token ;;
  ts ← time_ms;
  text ← lift (json_dump (mk_obj [("ok", JBool true); ("ts", JInt ts)]));
  mret (ok_json text).

(** ** Directory *)

(** [std::equal] over [tolower]ed characters. *)
Definition matches_prefix (flat_prefix flat : string) : bool :=
  str_empty flat_prefix
  || ((String.length flat_prefix <=? String.length flat)%nat
      && str_eqb (to_lower flat_prefix) (to_lower (str_take (String.length flat_prefix) flat))).

Definition directory_entry (society_id flat_prefix : string) (presence : presence_cache) (row : json) :
    result (option json) :=
  match member_str "flatNumber" row with
  | None => Ok None
  | Some flat =>
      if negb (matches_prefix flat_prefix flat) then Ok None else
      sip_user ← value_str "sipUsername" "" row;
      name ← value_str "name" "" row;
      let online := match presence with
                    | Some is_online => negb (str_empty sip_user) && is_online society_id sip_user
                    | None => false
                    end in
      mret (Some (mk_obj [("flatNumber", JStr flat); ("displayName", JStr name);
                          ("sipUri", JStr ("sip:" +:+ flat +:+ "@pbx.local")); ("online", JBool online)]))
  end.

Definition handle_directory_GET (presence : presence_cache) : handler := fun req =>
  let uri := raw_uri_with_query req in
  let society_id := query_param uri "societyId" in
  let flat_prefix := query_param uri "flatPrefix" in
  if str_empty society_id then mret (bad_request "Missing required query param: societyId") else
  if negb db_available then mret (ok_json "[]") else
  result ← try_catch (query (GetDocuments "subscribers" (raw_filter [("societyId", society_id)]) "{}")) (mret "");
  if str_empty result then mret (ok_json "[]") else
  let arr := match json_parse result with Ok (JArr arr) => arr | _ => [] end in
  out ← lift (map_result (directory_entry society_id flat_prefix presence) arr);
  text ← lift (json_dump (JArr (omap id out)));
  mret (ok_json text).

(** ** Lifecycle *)

Inductive target :=
  | Target (sip_username society_id filter : string)
  | NoTarget (err : string).

Definition resolve_lifecycle_target (req : string) : M (Portal H) target :=
  let sip_username := path_suffix req "/api/v1/subscriber/" in
  if str_empty sip_username then mret (NoTarget (bad_request "Missing subscriber sipUsername in path")) else
  let society_id := query_param (raw_uri_with_query req) "societyId" in
  if str_empty society_id then mret (NoTarget (bad_request "Missing required query param: societyId")) else
  filter ← lift (json_dump (mk_obj [("societyId", JStr society_id); ("sipUsername", JStr sip_username)]));
  found ← query (GetDocument "subscribers" filter "{}");
  if str_empty found then mret (NoTarget (response_error 404 "Not Found" "Unknown subscriber")) else
  mret (Target sip_username society_id filter).

(** [revoke] says whether there is a revocation sink. *)
Definition handle_subscriber_status_PUT (revoke : bool) : handler := fun req =>
  t ← resolve_lifecycle_target req;
  match t with
  | NoTarget err => mret err
  | Target sip_username society_id filter =>
      with_json_body req (fun _ body =>
        match member_str "status" body with
        | None => mret (bad_request "Missing field: status")
        | Some status =>
            if negb (str_eqb status "active" || str_eqb status "disabled") then
              mret (bad_request ("status must be " +:+ quoted "active" +:+ " or " +:+ quoted "disabled")) else
            update ← lift (json_dump (mk_obj [("$set", mk_obj [("status", JStr status)])]));
            _ ← query (UpdateCollection "subscribers" filter update);
            (if str_eqb status "disabled" then
               _ ← query (DeleteDocument "sessions" filter);
               if revoke then revoke_call society_id sip_username else mret tt
             else mret tt) ;;
            text ← lift (json_dump (mk_obj [("status", JStr "success"); ("sipUsername", JStr sip_username);
                                            ("subscriberStatus", JStr status)]));
            mret (ok_json text)
        end)
  end.

Definition handle_subscriber_DELETE (revoke : bool) : handler := fun req =>
  t ← resolve_lifecycle_target req;
  match t with
  | NoTarget err => mret err
  | Target sip_username society_id filter =>
      _ ← query (DeleteDocument "subscribers" filter);
      _ ← query (DeleteDocument "sessions" filter);
      (if revoke then revoke_call society_id sip_username else mret tt) ;;
      text ← lift (json_dump (mk_obj [("status", JStr "success"); ("sipUsername", JStr sip_username);
                                      ("removed", JBool true)]));
      mret (ok_json text)
  end.

(** ** Bulk import *)

Definition skip_line (line : string) : bool := str_empty line || str_eqb line (String CR "").
Definition csv_rows (csv : string) : list (list string) :=
  map split_csv_row (filter (fun line => negb (skip_line line)) (split_on LF csv)).

Fixpoint index_of (col : string) (header : list string) : option nat :=
  match header with
  | [] => None
  | h :: header' => if str_eqb h col then Some O else S <$> index_of col header'
  end.
(** [get(idx)]: empty outside the row. *)
Definition cell (idx : option nat) (row : list string) : string := default "" (idx ≫= fun i => row !! i).

Record Columns := mkColumns {
  i_flat : option nat; i_name : option nat; i_email : option nat; i_phone : option nat; i_role : option nat }.
Definition columns (header : list string) : Columns :=
  mkColumns (index_of "flat_number" header) (index_of "name" header) (index_of "email" header)
            (index_of "phone" header) (index_of "role" header).
Definition has_required (c : Columns) : bool := bool_decide (is_Some (i_flat c)) && bool_decide (is_Some (i_name c)) && bool_decide (is_Some (i_email c)).

Definition doc_id (doc : string) : string :=
  match json_parse doc with Ok j => default "" (member_str "_id" j) | Throw _ => "" end.
Definition doc_realm (doc : string) : option string :=
  match json_parse doc with Ok j => member_str "sipRealm" j | Throw _ => None end.

Definition credentials_header : string :=
  "flat_number,name,email,sipUsername,sipPassword,portalPassword,status" +:+ CRLF.
Definition csv_line (fields : list string) : string := str_join "," fields +:+ CRLF.

Definition subscriber_doc (society_id flat_id flat_no name email phone role sip_username sip_ha1 portal_hash : string)
    : json :=
  mk_obj [("societyId", JStr society_id); ("flatId", JStr flat_id); ("flatNumber", JStr flat_no);
          ("name", JStr name); ("email", JStr email); ("phone", JStr phone); ("role", JStr role);
          ("status", JStr "active"); ("autoAnswer", JBool false); ("sipUsername", JStr sip_username);
          ("sipHa1", JStr sip_ha1); ("portalPasswordHash", JStr portal_hash)].

(** What became of one data row: the response that ends the import, or a line of the
    credentials file. *)
Inductive row_outcome :=
  | RowFails (error : string)
  | RowSkipped (line : string)
  | RowCreated (line : string).

(** The foreign key of a resident's flat; [None] when the flat is unknown. *)
Definition flat_id_of (society_id flat_no role : string) : M (Portal H) (option string) :=
  if str_eqb role "resident" then
    flat_doc ← query (GetDocument "flats" (raw_filter [("societyId", society_id); ("number", flat_no)]) "{}");
    mret (if str_empty flat_doc then None else Some (doc_id flat_doc))
  else mret (Some "").

Definition create_subscriber (society_id realm flat_id flat_no name email phone role : string) :
    M (Portal H) row_outcome :=
  user_suffix ← random_alnum 10;
  let sip_username := "u_" +:+ user_suffix in
  sip_password ← random_alnum 16;
  portal_password ← random_alnum 16;
  let sip_ha1 := compute_sip_ha1 sip_username realm sip_password in
  portal_hash ← hash_password portal_password;
  text ← lift (json_dump (subscriber_doc society_id flat_id flat_no name email phone role
                            sip_username sip_ha1 portal_hash));
  _ ← query (CreateDocument p_database "subscribers" text);
  mret (RowCreated (csv_line [csv_escape flat_no; csv_escape name; csv_escape email;
                              sip_username; sip_password; portal_password; "created"])).

Definition import_row (society_id realm : string) (c : Columns) (r : nat) (row : list string) :
    M (Portal H) row_outcome :=
  let flat_no := cell (i_flat c) row in
  let name := cell (i_name c) row in
  let email := cell (i_email c) row in
  let phone := cell (i_phone c) row in
  let role := if str_empty (cell (i_role c) row) then "resident" else cell (i_role c) row in
  let row_no := "Row " +:+ to_string (Z.of_nat r) in
  if str_empty flat_no || str_empty name || str_empty email then
    mret (RowFails (bad_request (row_no +:+ ": missing required field"))) else
  flat ← flat_id_of society_id flat_no role;
  match flat with
  | None => mret (RowFails (bad_request (row_no +:+ ": unknown flat_number '" +:+ flat_no +:+ "'")))
  | Some flat_id =>
      existing ← query (GetDocument "subscribers" (raw_filter [("societyId", society_id); ("email", email)]) "{}");
      if negb (str_empty existing) then
        mret (RowSkipped (csv_line [csv_escape flat_no; csv_escape name; csv_escape email; ""; ""; ""; "skipped"]))
      else create_subscriber society_id realm flat_id flat_no name email phone role
  end.

Definition import_response (created skipped : Z) (body : string) : string :=
  "HTTP/1.1 200 OK" +:+ CRLF
  +:+ "Connection: keep-alive" +:+ CRLF
  +:+ "Access-Control-Allow-Origin: *" +:+ CRLF
  +:+ "X-Import-Created: " +:+ to_string created +:+ CRLF
  +:+ "X-Import-Skipped: " +:+ to_string skipped +:+ CRLF
  +:+ "Content-Length: " +:+ to_string (Z.of_nat (String.length body)) +:+ CRLF
  +:+ "Content-Type: text/csv" +:+ CRLF
  +:+ "Content-Disposition: attachment; filename=" +:+ quoted "subscriber_credentials.csv" +:+ CRLF
  +:+ CRLF +:+ body.

(** The row loop; a failing row returns at once. *)
Fixpoint import_rows (society_id realm : string) (c : Columns) (r : nat) (rows : list (list string))
    (created skipped : Z) (out_csv : string) : M (Portal H) string :=
  match rows with
  | [] => mret (import_response created skipped out_csv)
  | row :: rows' =>
      outcome ← import_row society_id realm c r row;
      match outcome with
      | RowFails err => mret err
      | RowSkipped line => import_rows society_id realm c (S r) rows' created (skipped + 1) (out_csv +:+ line)
      | RowCreated line => import_rows society_id realm c (S r) rows' (created + 1) skipped (out_csv +:+ line)
      end
  end.

Definition handle_subscriber_import_POST : handler := fun req =>
  parsed ← parse_request req;
  let society_id := query_param (raw_uri_with_query req) "societyId" in
  if str_empty society_id then mret (bad_request "Missing required query param: societyId") else
  society_doc ← query (GetDocument "societies" (raw_filter [("_id", society_id)]) "{}");
  if str_empty society_doc then mret (response_error 404 "Not Found" "Unknown societyId") else
  match doc_realm society_doc with
  | None => mret (server_error "Society document missing sipRealm")
  | Some realm =>
      match csv_rows (m_body parsed) with
      | header :: row :: rows =>
          let c := columns header in
          if negb (has_required c) then mret (bad_request "CSV header must include flat_number, name, email")
          else import_rows society_id realm c 1 (row :: rows) 0 0 credentials_header
      | _ => mret (bad_request "CSV must contain a header row and at least one data row")
      end
  end.

Definition attachment (filename : string) : string :=
  "Content-Disposition: attachment; filename=" +:+ filename +:+ CRLF.

Definition handle_subscriber_import_template_GET : handler := fun _ =>
  mret (http_response_with 200 "OK" ("flat_number,name,email,phone,role" +:+ CRLF +:+ CRLF) "text/csv"
          (attachment "subscribers-template.csv")).

(** The first candidate that is readable and not empty. *)
Fixpoint first_file (paths : list string) : string :=
  match paths with
  | [] => ""
  | p :: paths' =>
      match p_read_file p with
      | Some body => if str_empty body then first_file paths' else body
      | None => first_file paths'
      end
  end.

Definition handle_subscriber_import_template_xlsx_GET : handler := fun _ =>
  let body := first_file ["../docs/subscribers-template.xlsx"; "docs/subscribers-template.xlsx"] in
  mret (if str_empty body then
          response_error 404 "Not Found"
            "XLSX template missing — rebuild the cloud image (scripts/generate-subscriber-template.py runs at build time)"
        else http_response_with 200 "OK" body "application/vnd.openxmlformats-officedocument.spreadsheetml.sheet"
               (attachment "subscribers-template.xlsx")).

(** ** The two session gates *)

(** [SipWsUpgrade]: the error response, or the OPEN frame's metadata. *)
Inductive upgrade := UpgradeError (error : string) | UpgradeOk (open_meta : string).

(** The strict-mode check that the subscriber still exists and is not disabled. *)
Definition lifecycle_gate (session : json) : M (Portal H) (option string) :=
  if negb strict_mode then mret None else
  society ← lift (value_str "societyId" "" session);
  user ← lift (value_str "sipUsername" "" session);
  filter ← lift (json_dump (mk_obj [("societyId", JStr society); ("sipUsername", JStr user)]));
  sub_record ← query (GetDocument "subscribers" filter "{}");
  if str_empty sub_record then
    mret (Some (response_error 403 "Forbidden" "subscriber no longer exists")) else
  let subscriber := match json_parse sub_record with Ok s => s | Throw _ => mk_obj [] end in
  if disabled subscriber then
    mret (Some (response_error 403 "Forbidden" "subscriber account is disabled")) else
  mret None.

Definition handle_sipws_upgrade (req : string) : M (Portal H) upgrade :=
  parsed ← parse_request req;
  let tok := query_param (raw_uri_with_query req) "token" in
  let token := if str_empty tok then cookie_value (get "Cookie" parsed) "session" else tok in
  if str_empty token then
    mret (UpgradeError (unauthorized
      "SIP-WS upgrade requires ?token=<bearer> or a session= cookie tied to a portal login")) else
  filter ← lift (json_dump (token_filter token));
  record ← query (GetDocument "sessions" filter "{}");
  if str_empty record then mret (UpgradeError (unauthorized "unknown or expired portal session")) else
  match json_parse record with
  | Throw _ => mret (UpgradeError (server_error "session record is not valid JSON"))
  | Ok session =>
      now ← time;
      if negb (session_live session now) then
        mret (UpgradeError (unauthorized "unknown or expired portal session")) else
      gate ← lifecycle_gate session;
      match gate with
      | Some err => mret (UpgradeError err)
      | None =>
          role ← lift (value_str "role" "resident" session);
          try_catch (upd_filter ← lift (json_dump (token_filter token));
                     upd_doc ← lift (json_dump (expiry_update (now + ttl_sec_for_role role)));
                     _ ← query (UpdateCollection "sessions" upd_filter upd_doc); mret tt) (mret tt) ;;
          society ← lift (value_str "societyId" "" session);
          user ← lift (value_str "sipUsername" "" session);
          meta ← lift (json_dump (mk_obj [("societyId", JStr society); ("sipUsername", JStr user);
                                          ("clientUA", JStr (get "User-Agent" parsed))]));
          mret (UpgradeOk meta)
      end
  end.

(** [AdminSession]: the error response, or the admin's identity. *)
Inductive admin_session := AdminError (error : string) | AdminOk (society_id sip_username role : string).

Definition resolve_admin_session (req : string) : M (Portal H) admin_session :=
  token ← extract_session_token req;
  if str_empty token then mret (AdminError (unauthorized "Missing or invalid session")) else
  filter ← lift (json_dump (token_filter token));
  record ← query (GetDocument "sessions" filter "{}");
  if str_empty record then mret (AdminError (unauthorized "Missing or invalid session")) else
  match json_parse record with
  | Throw _ => mret (AdminError (server_error "session record is not valid JSON"))
  | Ok session =>
      now ← time;
      if negb (session_live session now) then
        try_catch (filter ← lift (json_dump (token_filter token));
                   _ ← query (DeleteDocument "sessions" filter); mret tt) (mret tt) ;;
        mret (AdminError (unauthorized "Session expired"))
      else
      role ← lift (value_str "role" "" session);
      if negb (str_eqb role "admin") then
        mret (AdminError (response_error 403 "Forbidden" "Admin role required")) else
      society ← lift (value_str "societyId" "" session);
      user ← lift (value_str "sipUsername" "" session);
      mret (AdminOk society user role)
  end.
End Portal.
