(* ===== verification/PortalRoutes.v ===== *)
(** The routing of the control plane: [MicroService::dispatch_pbx_routes] and the small
    response helpers of modules/module/webservice/src/webservice.cpp. *)

From S2P Require Import Prelude Json MessageParser HttpParser PasswordHash PortalEnv Portal.

#[local] Open Scope Z_scope.

(** ** Log redaction *)

Definition kSecretKeys : list string :=
  ["password"; "accountPassword"; "newPassword"; "currentPassword"; "passwordHash"].
Definition is_secret (k : string) : bool := existsb (str_eqb k) kSecretKeys.

(** The recursive lambda [walk]. *)
Fixpoint walk (node : json) : json :=
  match node with
  | JObj kvs => JObj (map (fun kv => (kv.1, if is_secret kv.1 && is_string kv.2 then JStr "***" else walk kv.2)) kvs)
  | JArr elems => JArr (map walk elems)
  | _ => node
  end.

Definition redact_for_log `{!JsonLib} (content : string) : result string :=
  match json_parse content with
  | Throw _ => Ok content
  | Ok body => json_dump (walk body)
  end.

(** ** Static files *)

Definition assoc_default (table : list (string * string)) (d k : string) : string :=
  match list_find (fun kv => k = kv.1) table with Some (_, kv) => kv.2 | None => d end.

Definition get_contentType (ext : string) : string :=
  assoc_default
    [("woff", "font/woff"); ("woff2", "font/woff2"); ("ttf", "font/ttf"); ("otf", "font/otf"); ("css", "text/css");
     ("js", "text/javascript"); ("eot", "application/vnd.ms-fontobject"); ("html", "text/html");
     ("svg", "image/svg+xml"); ("gif", "image/gif"); ("png", "image/png"); ("ico", "image/vnd.microsoft.icon");
     ("jpg", "image/jpeg"); ("json", "application/json")] "text/html" ext.

Definition get_cache_control (fileName ext : string) : string :=
  if str_contains "index.html" fileName then "no-cache" else
  if str_eqb ext "js" || str_eqb ext "css" then "no-cache" else
  if existsb (str_eqb ext) ["woff"; "woff2"; "ttf"; "otf"; "eot"; "svg"; "png"; "jpg"; "gif"; "ico"]
  then "public, max-age=604800" else "public, max-age=86400".

(** ** Routes *)

(** What [webServer()] gives the handlers when the service has a parent: the presence
    cache, whether there is a SIP bridge (the revocation sink), whether the tunnel
    endpoint has an agent, and the bridge's cached state of Asterisk. *)
Record WebServer := mkWebServer {
  presenceCache : presence_cache;
  sipBridge : bool;
  tunnel_has_agent : bool;
  bridge_asterisk_connected : bool;
}.

Section Routes.
Context {H : Type} `{!PortalEnv H} `{!Zlib} `{!JsonLib} `{!PasswordCrypto}.
Variable m_parent : option WebServer.

(** The admin gate in front of a handler. *)
Definition admin_only (h : handler (H := H)) : handler := fun req =>
  check ← resolve_admin_session req;
  match check with
  | AdminError error => mret error
  | AdminOk _ _ _ => h req
  end.

Definition presence : presence_cache := m_parent ≫= presenceCache.
Definition revoke : bool := match m_parent with Some p => sipBridge p | None => false end.
Definition agent_connected : bool := match m_parent with Some p => tunnel_has_agent p | None => false end.
Definition asterisk_connected : bool :=
  match m_parent with Some p => sipBridge p && bridge_asterisk_connected p | None => false end.

(** The chain of [if]s: the handler that owns a method and URI, if any. *)
Definition route (method uri : string) : option (handler (H := H)) :=
  let GET := str_eqb method "GET" in
  let POST := str_eqb method "POST" in
  let PUT := str_eqb method "PUT" in
  let DELETE := str_eqb method "DELETE" in
  let uri_is := str_eqb uri in
  let under p := String.prefix p uri in
  if POST && uri_is "/api/v1/subscriber/login" then Some handle_subscriber_login_POST else
  if GET && uri_is "/api/v1/subscriber/import/template.xlsx" then Some handle_subscriber_import_template_xlsx_GET else
  if GET && uri_is "/api/v1/subscriber/import/template" then Some handle_subscriber_import_template_GET else
  if POST && under "/api/v1/subscriber/import" then Some (admin_only handle_subscriber_import_POST) else
  if (PUT || DELETE) && under "/api/v1/subscriber/" then
    Some (admin_only (if PUT then handle_subscriber_status_PUT revoke else handle_subscriber_DELETE revoke)) else
  if GET && under "/api/v1/subscriber" then Some (handle_directory_GET presence) else
  if POST && uri_is "/api/v1/society" then Some (admin_only handle_society_POST) else
  if GET && uri_is "/api/v1/societies" then Some (admin_only handle_societies_GET) else
  if GET && under "/api/v1/society/" then Some (admin_only handle_society_detail_GET) else
  if GET && uri_is "/api/v1/admin/subscribers" then Some (admin_only (handle_admin_subscribers_GET presence)) else
  if GET && uri_is "/api/v1/admin/connectivity" then
    Some (admin_only (handle_admin_connectivity_GET agent_connected asterisk_connected)) else
  if GET && under "/api/v1/cdr" then Some handle_cdr_GET else
  if GET && uri_is "/api/v1/push-vapid-key" then Some handle_push_vapid_key_GET else
  if POST && (uri_is "/api/v1/push-subscribe" || uri_is "/api/v1/push/subscribe") then Some handle_push_subscribe_POST else
  if GET && uri_is "/api/v1/turn-credentials" then Some handle_turn_credentials_GET else
  if GET && uri_is "/api/v1/ping" then Some handle_ping_GET else None.

(** The empty answer means that no route of this table owns the request. *)
Definition dispatch_pbx_routes : handler := fun req =>
  http ← parse_request req;
  match route (m_method http) (m_uriName http) with
  | Some h => h req
  | None => mret ""
  end.
End Routes.
