(* ===== verification/PortalDemo.v ===== *)
(** A concrete world for the control plane, to evaluate its handlers on examples: a clock,
    a store that answers from a table, a keyed checksum for the cryptographic functions. *)

From S2P Require Import Prelude Json MessageParser HttpParser PasswordHash PortalEnv Portal PortalRoutes.

#[local] Open Scope Z_scope.

(** The store of the example: what each query finds. *)
Definition answers : Type := list (portal_call * string).
Definition answer (table : answers) (c : portal_call) : string :=
  match list_find (fun row => c = row.1) table with Some (_, row) => row.2 | None => "" end.

(** The state is the time in seconds. *)
Definition demo_env (table : answers) (vars : list (string * string)) : PortalEnv Z := {|
  p_query c h := (Ok (answer table c), h);
  p_revoke _ _ h := h;
  p_remote_disconnected _ := false;
  p_database := "pbx";
  p_getenv name := snd <$> (snd <$> list_find (fun kv => name = kv.1) vars);
  p_time h := h;
  p_time_ms h := h * 1000;
  p_rand_bytes n h := (Some (str_repeat "q" n), h);
  p_random_device n h := (str_repeat "d" n, h);
  p_read_file _ := None;
  p_md5 s := s;
  p_hmac_sha1 k s := k +:+ s;
  p_base64 s := s;
  p_salt h := ("salt", h);
|}.

Definition demo_zlib : Zlib :=
  {| zstream := unit; inflateInit2 _ _ := None; inflate z := (Z_OK, "", z); inflate_calls _ := O |}.

Definition request (line : string) (body : string) : string :=
  line +:+ " HTTP/1.1" +:+ CRLF +:+ "Content-Length: " +:+ to_string (Z.of_nat (String.length body)) +:+ CRLF +:+ CRLF +:+ body.

(** A stored administrator session, and one of a resident, valid until time 1000. *)
Definition session_of (token role : string) : json :=
  mk_obj [("token", JStr token); ("societyId", JStr "soc-a"); ("sipUsername", JStr "u_1"); ("role", JStr role);
          ("expiresAt", JInt 1000)].
Definition a_subscriber (status : string) : json :=
  mk_obj [("flatNumber", JStr "A-204"); ("sipUsername", JStr "u_1"); ("name", JStr "Asha"); ("status", JStr status);
          ("sipHa1", JStr "secret"); ("portalPasswordHash", JStr (@hash_with_salt toy_crypto "pw" "salt")); ("role", JStr "resident")].
Definition demo_table : list json :=
  [session_of "adm" "admin"; session_of "res" "resident"; a_subscriber "active"; JArr [a_subscriber "active"];
   mk_obj [("_id", JStr "soc-a")]; mk_obj [("status", JStr "disabled")]].
Definition demo_json : JsonLib := table_json demo_table.
Definition demo_store : answers :=
  [(GetDocument "sessions" (compact_dump (token_filter "adm")) "{}", compact_dump (session_of "adm" "admin"));
   (GetDocument "sessions" (compact_dump (token_filter "res")) "{}", compact_dump (session_of "res" "resident"));
   (GetDocument "societies" (compact_dump (mk_obj [("code", JStr "SUN")])) "{}",
      compact_dump (mk_obj [("_id", JStr "soc-a")]));
   (GetDocument "subscribers" (compact_dump (mk_obj [("societyId", JStr "soc-a"); ("sipUsername", JStr "u_1")])) "{}",
      compact_dump (a_subscriber "active"));
   (GetDocument "subscribers" (compact_dump (mk_obj [("societyId", JStr "soc-a"); ("flatNumber", JStr "A-204")])) "{}",
      compact_dump (a_subscriber "active"));
   (GetDocuments "subscribers" (raw_filter [("societyId", "soc-a")]) "{}", compact_dump (JArr [a_subscriber "active"]));
   (GetDocuments "cdr" (raw_filter [("societyId", "soc-a")]) "{}", "[1]")].
Definition demo_vars : list (string * string) := [("PBX_AUTH_STRICT", "1"); ("DB_URI", "mongodb://demo")].
Definition demo_start : Portal Z := mkPortal 500 [].
