(* ===== verification/PortalSpec.v ===== *)
(** What the control plane guarantees: who gets past the two session gates and the
    login, what a request may do to the database before that, the order of the account
    life-cycle's steps, what the directory and the import disclose. *)

From S2P Require Import Prelude Json MessageParser HttpParser PasswordHash PortalEnv Portal PortalRoutes PortalDemo.

#[local] Open Scope Z_scope.

Section Calls.
Context {H : Type} `{!PortalEnv H} `{!Zlib} `{!JsonLib} `{!PasswordCrypto}.
Implicit Types (w : Portal H) (c : portal_call) (P : portal_call -> Prop).

(** ** Traces *)

(** Every call made between two states satisfies [P]. *)
Definition only_calls P w w' : Prop := exists new, pcalls w' = pcalls w ++ new /\ Forall P new.

#[global] Instance only_calls_preorder P : PreOrder (only_calls P).
Proof.
  split.
  - intros w. exists []. by rewrite app_nil_r.
  - intros w1 w2 w3 (n1 & E1 & F1) (n2 & E2 & F2). exists (n1 ++ n2).
    rewrite E2, E1, app_assoc. split; [done|]. by apply Forall_app.
Qed.

Lemma only_calls_mono P (Q : portal_call -> Prop) w w' :
  (forall c, P c -> Q c) -> only_calls P w w' -> only_calls Q w w'.
Proof. intros HPQ (new & E & F). exists new. split; [done|]. by eapply Forall_impl. Qed.

Lemma query_only P c : P c -> preserves (only_calls P) (query c).
Proof.
  intros Hc w. unfold query. destruct (p_query c (host w)) as [r h].
  exists [c]. split; [done|]. by apply Forall_singleton.
Qed.
Lemma revoke_only P s u : P (Revoke s u) -> preserves (only_calls P) (revoke_call s u).
Proof. intros Hc w. exists [Revoke s u]. split; [done|]. by apply Forall_singleton. Qed.
Lemma rand_only P n : preserves (only_calls P) (rand_bytes (H := H) n).
Proof.
  intros w. unfold rand_bytes. destruct (p_rand_bytes n (host w)). exists [].
  by rewrite app_nil_r.
Qed.
Lemma random_device_only P n : preserves (only_calls P) (random_device (H := H) n).
Proof.
  intros w. unfold random_device. destruct (p_random_device n (host w)). exists [].
  by rewrite app_nil_r.
Qed.
Lemma hash_only P p : preserves (only_calls P) (hash_password (H := H) p).
Proof.
  intros w. unfold hash_password. destruct (p_salt (host w)). exists [].
  by rewrite app_nil_r.
Qed.
Lemma pure_only P {A} (f : Portal H -> A) : preserves (only_calls P) (fun w => (Ok (f w), w)).
Proof. intros w. cbn. reflexivity. Qed.

(** ** Inversion of an operation that returned *)

Lemma query_inv c w r w' :
  query c w = (Ok r, w') -> exists h, p_query c (host w) = (Ok r, h) /\ w' = mkPortal h (pcalls w ++ [c]).
Proof.
  unfold query. destruct (p_query c (host w)) as [[r'|e] h]; intros [= -> <-]. by exists h.
Qed.
Lemma lift_inv {A} (r : result A) a w w' : lift r w = (Ok a, w') -> r = Ok a /\ w' = w.
Proof. intros [= -> ->]. done. Qed.
Lemma ret_inv {A} (a b : A) w w' : mret (M := M (Portal H)) a w = (Ok b, w') -> a = b /\ w' = w.
Proof. intros [= -> ->]. done. Qed.
Lemma time_inv n w w' : time w = (Ok n, w') -> n = p_time (host w) /\ w' = w.
Proof. intros [= <- <-]. done. Qed.
Lemma try_inv {A} (m h : M (Portal H) A) a w w' :
  try_catch m h w = (Ok a, w') ->
  m w = (Ok a, w') \/ exists e w1, m w = (Throw e, w1) /\ h w1 = (Ok a, w').
Proof.
  unfold try_catch. destruct (m w) as [[x|e] w1]; [by left|]. intros Hh. right. exists e, w1.
  split; [done|]. by destruct e.
Qed.
Lemma preserves_run {A} (R : Portal H -> Portal H -> Prop) (m : M (Portal H) A) w r w' :
  preserves R m -> m w = (r, w') -> R w w'.
Proof. intros Hm E. specialize (Hm w). by rewrite E in Hm. Qed.
End Calls.

#[export] Hint Resolve query_only revoke_only rand_only random_device_only hash_only pure_only : preserve.

(** [m_step E]: one step of the inversion of [E : m w = (Ok a, w')]. *)
Ltac m_step E :=
  first
    [ apply M_bind_inv in E; destruct E as (? & ? & ?E & E); m_step E
    | apply query_inv in E; destruct E as (? & E & ->)
    | apply lift_inv in E; destruct E as [E ->]
    | apply ret_inv in E; destruct E as [E ->]
    | apply time_inv in E; destruct E as [-> ->]
    | idtac ].
(** [m_inv]: all hypotheses that are runs of the monad, as far as no choice is needed. *)
Ltac m_inv :=
  repeat match goal with
  | E : (mbind _ _) _ = (Ok _, _) |- _ => apply M_bind_inv in E; destruct E as (? & ? & ? & E)
  | E : query _ _ = (Ok _, _) |- _ => apply query_inv in E; destruct E as (? & E & ->)
  | E : lift _ _ = (Ok _, _) |- _ => apply lift_inv in E; destruct E as [E ->]
  | E : mret _ _ = (Ok _, _) |- _ => apply ret_inv in E; destruct E as [E ->]
  | E : time _ = (Ok _, _) |- _ => apply time_inv in E; destruct E as [-> ->]
  end; simplify_eq; cbn [host pcalls] in *.

(** ** Stored sessions *)

Section Sessions.
Context {H : Type} `{!PortalEnv H} `{!JsonLib}.

(** The database, asked from state [w], has this session for the token, and is in state
    [h] after its answer. *)
Definition stored_session (token : string) (w : Portal H) (h : H) (session : json) : Prop :=
  token <> "" /\ exists filter record,
    json_dump (token_filter token) = Ok filter
    /\ p_query (GetDocument "sessions" filter "{}") (host w) = (Ok record, h)
    /\ record <> "" /\ json_parse record = Ok session.

(** The stored expiry is a number of seconds after [now]. *)
Definition unexpired (session : json) (now : Z) : Prop :=
  exists v expires, member "expiresAt" session = Some v /\ get_long v = Ok expires /\ now < expires.

Lemma session_live_inv session now : session_live session now = true -> unexpired session now.
Proof.
  unfold session_live. destruct (member "expiresAt" session) as [v|] eqn:Hm; [|done].
  rewrite andb_true_iff. intros [_ Hv]. destruct (get_long v) as [z|] eqn:Hz; [|done].
  exists v, z. split_and!; [done|done|lia].
Qed.
End Sessions.

(** ** The admin gate *)

Section Admin.
Context {H : Type} `{!PortalEnv H} `{!Zlib} `{!JsonLib} `{!PasswordCrypto}.
Variable m_parent : option WebServer.
Implicit Types (w : Portal H).

(** The routes webservice.cpp calls admin-only. *)
Definition needs_admin (method uri : string) : bool :=
  (str_eqb method "POST" && (String.prefix "/api/v1/subscriber/import" uri || str_eqb uri "/api/v1/society"))
  || ((str_eqb method "PUT" || str_eqb method "DELETE") && String.prefix "/api/v1/subscriber/" uri)
  || (str_eqb method "GET"
      && (str_eqb uri "/api/v1/societies" || String.prefix "/api/v1/society/" uri
          || str_eqb uri "/api/v1/admin/subscribers" || str_eqb uri "/api/v1/admin/connectivity")).

(** The request carries the token of a stored, unexpired session of an administrator. *)
Definition live_admin (req : string) w : Prop :=
  exists token h session,
    extract_session_token req w = (Ok token, w) /\ stored_session token w h session
    /\ unexpired session (p_time h) /\ value_str "role" "" session = Ok "admin".

(** What the gate itself may call. *)
Definition session_call (c : portal_call) : Prop :=
  match c with GetDocument "sessions" _ _ | DeleteDocument "sessions" _ => True | _ => False end.

Definition refused (r : result string) : Prop :=
  match r with
  | Ok rsp => exists code reason cause, rsp = response_error code reason cause /\ code ∈ [401; 403; 500]
  | Throw _ => True
  end.

Lemma extract_session_token_run req w r w' : extract_session_token req w = (r, w') -> w' = w.
Proof.
  unfold extract_session_token, parse_request, mbind, M_bind, lift, mret, M_ret.
  repeat case_match; by intros; simplify_eq.
Qed.

Lemma admin_session_sound req w society user role w' :
  resolve_admin_session req w = (Ok (AdminOk society user role), w') -> live_admin req w.
Proof.
  unfold resolve_admin_session. intros E. apply M_bind_inv in E as (token & w1 & Htok & E).
  pose proof (extract_session_token_run _ _ _ _ Htok) as ->.
  destruct (str_empty token) eqn:Hne; [m_inv|]. apply str_empty_false in Hne.
  m_inv. destruct (str_empty _) eqn:Hr; [m_inv|]. apply str_empty_false in Hr.
  destruct (json_parse _) as [session|] eqn:Hp; [|m_inv].
  m_inv. destruct (session_live session _) eqn:Hl; cbn [negb] in *; [|by m_inv].
  apply session_live_inv in Hl.
  m_inv. destruct (str_eqb _ "admin") eqn:Ha; cbn [negb] in *; m_inv.
  apply str_eqb_eq in Ha as ->.
  eexists token, _, session. split_and!; [exact Htok| |exact Hl|done].
  split; [done|]. eexists _, _. split_and!; eauto.
Qed.

Lemma admin_error_refused req w e w' :
  resolve_admin_session req w = (Ok (AdminError e), w') -> refused (Ok e).
Proof.
  unfold resolve_admin_session, unauthorized, server_error. intros E.
  assert (Hin : forall c reason cause, c ∈ [401; 403; 500] -> refused (Ok (response_error c reason cause)))
    by (intros; do 3 eexists; done).
  m_inv. case_match; m_inv; [apply Hin; set_solver|]. case_match; m_inv; [apply Hin; set_solver|].
  case_match; m_inv; [|apply Hin; set_solver]. case_match; m_inv; [apply Hin; set_solver|].
  case_match; m_inv; apply Hin; set_solver.
Qed.

Lemma admin_session_only req : preserves (only_calls session_call) (resolve_admin_session req).
Proof.
  unfold resolve_admin_session. apply preserves_bind; [exact _|..].
  { intros w. destruct (extract_session_token req w) as [r w'] eqn:E.
    by rewrite (extract_session_token_run _ _ _ _ E). }
  solve_preserves; by apply query_only.
Qed.

Lemma route_admin method uri :
  needs_admin method uri = true -> exists h, route m_parent method uri = Some (admin_only h).
Proof.
  unfold needs_admin. rewrite !orb_true_iff, !andb_true_iff, !orb_true_iff, !str_eqb_eq.
  intros [[[-> [Hp| ->]]|[[-> | ->] Hp]]|[-> [[[-> |Hp]| ->]| ->]]];
    unfold route; try (eexists; reflexivity).
  - destruct (str_eqb uri "/api/v1/subscriber/login") eqn:Hl.
    { by apply str_eqb_eq in Hl as ->. }
    rewrite Hp. eexists. reflexivity.
  - rewrite Hp. eexists. reflexivity.
  - rewrite Hp. eexists. reflexivity.
  - destruct (str_eqb uri "/api/v1/subscriber/import/template.xlsx") eqn:E1; [by apply str_eqb_eq in E1 as ->|].
    destruct (str_eqb uri "/api/v1/subscriber/import/template") eqn:E2; [by apply str_eqb_eq in E2 as ->|].
    destruct (str_eqb uri "/api/v1/societies") eqn:E3; [by apply str_eqb_eq in E3 as ->|].
    apply prefix_split in Hp as Hu. rewrite Hu. eexists. cbn.
    change (str_eqb "GET" "POST") with false. change (str_eqb "GET" "PUT") with false.
    change (str_eqb "GET" "DELETE") with false. change (str_eqb "GET" "GET") with true. cbn [andb orb].
    match goal with |- context [String.prefix "" ?x] => by destruct x end.
Qed.

(** C9. A request for an administrator's route carries the token of a stored session that
    has not expired and whose role is admin, and then the route's handler answers it from
    the state the gate left; otherwise the answer is an error (401, 403 or 500, or an
    exception) and the request has read and at most deleted a session, nothing else. *)
Theorem admin_gate req http w r w' :
  parse_http req = Ok http -> needs_admin (m_method http) (m_uriName http) = true ->
  dispatch_pbx_routes m_parent req w = (r, w') ->
  (live_admin req w
   /\ exists h w1, route m_parent (m_method http) (m_uriName http) = Some (admin_only h)
      /\ only_calls session_call w w1 /\ h req w1 = (r, w'))
  \/ (refused r /\ only_calls session_call w w').
Proof.
  intros Hp Hn. destruct (route_admin _ _ Hn) as [h Hr].
  unfold dispatch_pbx_routes, parse_request. rewrite Hp, bind_lift_ok, Hr.
  unfold admin_only, mbind at 1, M_bind at 1.
  destruct (resolve_admin_session req w) as [[[e|society user role]|e] w1] eqn:E; intros Hd.
  - right. injection Hd as <- <-. split; [by eapply admin_error_refused|].
    by eapply preserves_run; [apply admin_session_only|].
  - left. split; [by eapply admin_session_sound|]. exists h, w1. split_and!; try done.
    by eapply preserves_run; [apply admin_session_only|].
  - right. injection Hd as <- <-. split; [done|].
    by eapply preserves_run; [apply admin_session_only|].
Qed.
End Admin.

(** ** The softphone gate *)

Section SipWs.
Context {H : Type} `{!PortalEnv H} `{!Zlib} `{!JsonLib} `{!PasswordCrypto}.
Implicit Types (w : Portal H).

(** The subscriber of the session, looked up from [h], exists and is not disabled. *)
Definition active_subscriber (society user : string) (h h' : H) : Prop :=
  exists filter record,
    json_dump (mk_obj [("societyId", JStr society); ("sipUsername", JStr user)]) = Ok filter
    /\ p_query (GetDocument "subscribers" filter "{}") h = (Ok record, h') /\ record <> ""
    /\ forall subscriber status, json_parse record = Ok subscriber ->
         member_str "status" subscriber = Some status -> status = "active".

Lemma disabled_false subscriber status :
  disabled subscriber = false -> member_str "status" subscriber = Some status -> status = "active".
Proof.
  unfold disabled. intros Hd Hs. rewrite Hs in Hd. apply negb_false_iff in Hd. by apply str_eqb_eq in Hd.
Qed.

Lemma lifecycle_gate_passed session w w' :
  lifecycle_gate session w = (Ok None, w') -> strict_mode = true ->
  exists society user, value_str "societyId" "" session = Ok society
    /\ value_str "sipUsername" "" session = Ok user
    /\ active_subscriber society user (host w) (host w').
Proof.
  unfold lifecycle_gate. intros E Hs. rewrite Hs in E. cbn [negb] in E. m_inv.
  case_match; m_inv. case_match; m_inv. eexists _, _. split_and!; try done.
  eexists _, _. split_and!; eauto.
  - by apply str_empty_false.
  - intros subscriber status Hp. rewrite Hp in *. by apply disabled_false.
Qed.

(** The bearer of an upgrade: the query parameter, or else the cookie. *)
Definition bearer (req : string) (parsed : Http) : string :=
  let tok := query_param (raw_uri_with_query req) "token" in
  if str_empty tok then cookie_value (get "Cookie" parsed) "session" else tok.

(** What an upgrade may do to the store: look up the session and the subscriber, and
    move the session's expiry. *)
Definition upgrade_call (c : portal_call) : Prop :=
  match c with
  | GetDocument "sessions" _ _ | GetDocument "subscribers" _ _ | UpdateCollection "sessions" _ _ => True
  | _ => False
  end.

Lemma sipws_upgrade_only req : preserves (only_calls upgrade_call) (handle_sipws_upgrade req).
Proof.
  unfold handle_sipws_upgrade, lifecycle_gate, parse_request, time.
  solve_preserves; first [by apply query_only | apply pure_only].
Qed.

(** C15. A softphone connection is accepted only for the token of a stored session that
    has not expired and, in strict mode, whose subscriber still exists and is not
    disabled; the identity sent to the agent is the one stored in the session, whatever
    the request says; and the request only looks up sessions and subscribers and moves a
    session's expiry, also when it is refused. *)
Theorem sipws_gate req parsed w meta w' :
  parse_http req = Ok parsed -> handle_sipws_upgrade req w = (Ok (UpgradeOk meta), w') ->
  only_calls upgrade_call w w'
  /\ exists h session society user,
       stored_session (bearer req parsed) w h session /\ unexpired session (p_time h)
       /\ value_str "societyId" "" session = Ok society /\ value_str "sipUsername" "" session = Ok user
       /\ (strict_mode = true -> exists h', active_subscriber society user h h')
       /\ json_dump (mk_obj [("societyId", JStr society); ("sipUsername", JStr user);
                             ("clientUA", JStr (get "User-Agent" parsed))]) = Ok meta.
Proof.
  intros Hp E. split; [by eapply preserves_run; [apply sipws_upgrade_only|]|].
  unfold handle_sipws_upgrade, parse_request in E. rewrite Hp, bind_lift_ok in E.
  cbv zeta in E. fold (bearer req parsed) in E.
  destruct (str_empty (bearer req parsed)) eqn:Hb; [m_inv|]. apply str_empty_false in Hb.
  m_inv. case_match; [m_inv|]. destruct (json_parse _) as [session|] eqn:Hs; [|m_inv].
  m_inv. destruct (session_live session _) eqn:Hl; cbn [negb] in *; [|m_inv].
  apply session_live_inv in Hl. m_inv. case_match; m_inv.
  match goal with G : lifecycle_gate _ _ = _ |- _ => rename G into Hgate end.
  match goal with G : value_str "societyId" "" _ = Ok ?s |- _ => rename s into society, G into Hsoc end.
  match goal with G : value_str "sipUsername" "" _ = Ok ?u |- _ => rename u into user, G into Husr end.
  eexists _, session, society, user. split_and!; eauto.
  { split; [done|]. eexists _, _. split_and!; eauto. by apply str_empty_false. }
  intros Hstrict. apply lifecycle_gate_passed in Hgate as (soc' & usr' & E1 & E2 & Ha); [|done].
  rewrite Hsoc in E1. rewrite Husr in E2. simplify_eq. eauto.
Qed.

(** ** Moving a session's expiry *)

Definition token_call (token : string) (c : portal_call) : Prop :=
  exists filter, json_dump (token_filter token) = Ok filter /\ c = GetDocument "sessions" filter "{}".

Ltac refresh_stop E := injection E as <- <-; eexists; split; [done|]; right; left; by eexists.

(** The lookup that [refresh_session_expiry] starts with. *)
Definition lookup (token : string) : M (Portal H) string :=
  try_catch (filter ← lift (json_dump (token_filter token)); query (GetDocument "sessions" filter "{}")) (mret "").

Lemma lookup_run token w :
  (exists r, lookup token w = (r, w) /\ match r with Ok rec => rec = "" | Throw _ => True end)
  \/ exists filter h r, json_dump (token_filter token) = Ok filter
     /\ lookup token w = (r, mkPortal h (pcalls w ++ [GetDocument "sessions" filter "{}"]))
     /\ match r with
        | Ok rec => rec = "" \/ p_query (GetDocument "sessions" filter "{}") (host w) = (Ok rec, h)
        | Throw _ => True
        end.
Proof.
  unfold lookup, try_catch, lift, query, mbind, M_bind, mret, M_ret.
  destruct (json_dump (token_filter token)) as [filter|e] eqn:Hf; [|left; destruct e; eexists; split; done].
  destruct (p_query _ (host w)) as [[rec|e] h] eqn:Hq; right; exists filter, h; [|destruct e];
    (eexists; split_and!; [done|reflexivity|]; cbn; auto).
Qed.

(** A heartbeat or page load never brings an expired session back: the refresh makes
    one lookup of the token, and writes the session only when the stored record is still
    unexpired, moving its expiry by the lifetime of the stored role and changing nothing
    else; when there is no token it does nothing at all. *)
Theorem refresh_never_resurrects token w r w' :
  refresh_session_expiry token w = (r, w') ->
  (token = "" -> w' = w)
  /\ exists new, pcalls w' = pcalls w ++ new
     /\ (new = [] \/ (exists c, new = [c] /\ token_call token c)
        \/ exists h session role filter update,
             stored_session token w h session /\ unexpired session (p_time h)
             /\ value_str "role" "resident" session = Ok role
             /\ json_dump (token_filter token) = Ok filter
             /\ json_dump (expiry_update (p_time h + (if str_eqb role "guard" then 604800 else 86400))) = Ok update
             /\ new = [GetDocument "sessions" filter "{}"; UpdateCollection "sessions" filter update]).
Proof.
  unfold refresh_session_expiry. intros E. split.
  { intros ->. by injection E as <- <-. }
  destruct (str_empty token) eqn:Ht.
  { injection E as <- <-. exists []. rewrite app_nil_r. auto. }
  apply str_empty_false in Ht.
  fold (lookup token) in E. unfold mbind at 1, M_bind at 1 in E.
  destruct (lookup_run token w) as [(q & E1 & Hq)|(filter & h & q & Hf & E1 & Hq)]; rewrite E1 in E; clear E1.
  { exists []. rewrite app_nil_r. destruct q as [rec|e]; [subst rec|]; injection E as <- <-; auto. }
  assert (Hone : token_call token (GetDocument "sessions" filter "{}")) by (by exists filter).
  destruct q as [rec|e]; [|refresh_stop E].
  destruct (str_empty rec) eqn:Hr; [refresh_stop E|].
  destruct Hq as [-> |Hq]; [done|]. apply str_empty_false in Hr.
  destruct (json_parse rec) as [session|e] eqn:Hp; [|refresh_stop E].
  unfold time, mbind at 1, M_bind at 1 in E. cbn [host] in E.
  destruct (session_live session (p_time h)) eqn:Hl; cbn [negb] in E; [|refresh_stop E].
  apply session_live_inv in Hl. unfold lift at 1, mbind at 1, M_bind at 1 in E.
  destruct (value_str "role" "resident" session) as [role|e] eqn:Hrole; [|refresh_stop E].
  unfold try_catch, lift, query, mbind, M_bind in E. rewrite Hf in E.
  destruct (json_dump (expiry_update _)) as [update|e] eqn:Hu; [|destruct e; refresh_stop E].
  exists [GetDocument "sessions" filter "{}"; UpdateCollection "sessions" filter update]. split.
  { cbn [host pcalls] in E. destruct (p_query _ h) as [[x|[]] h2]; injection E as <- <-; cbn [pcalls];
      by rewrite <- app_assoc. }
  right; right. exists h, session, role, filter, update. split_and!; try done.
  split; [done|]. by exists filter, rec.
Qed.
End SipWs.

(** ** Login *)

Section Login.
Context {H : Type} `{!PortalEnv H} `{!Zlib} `{!JsonLib} `{!PasswordCrypto}.
Implicit Types (w : Portal H).

Definition read_call (c : portal_call) : Prop :=
  match c with GetDocument "societies" _ _ | GetDocument "subscribers" _ _ => True | _ => False end.

(** The subscriber record a login was checked against: the stored hash accepts the
    password and the account is not disabled. *)
Definition credentials_ok (password : string) (subscriber : json) : Prop :=
  (exists hash, member_str "portalPasswordHash" subscriber = Some hash
                /\ verify_password password hash = Ok true)
  /\ forall status, member_str "status" subscriber = Some status -> status = "active".

Lemma rand_bytes_run n w r w' :
  rand_bytes n w = (r, w') -> r = Ok (p_rand_bytes n (host w)).1 /\ w' = mkPortal (p_rand_bytes n (host w)).2 (pcalls w).
Proof. unfold rand_bytes. destruct (p_rand_bytes n (host w)). by intros [= <- <-]. Qed.

(** The account a login is for: the society with this code, and the subscriber of that
    society with this flat, as the store answers from state [w]. *)
Definition account_of (society_code flat : string) w w1 (society : string) (subscriber : json) : Prop :=
  exists q1 soc h1 q2 record h2,
    json_dump (mk_obj [("code", JStr society_code)]) = Ok q1
    /\ p_query (GetDocument "societies" q1 "{}") (host w) = (Ok soc, h1)
    /\ json_parse soc ≫= value_str "_id" "" = Ok society /\ society <> ""
    /\ json_dump (mk_obj [("societyId", JStr society); ("flatNumber", JStr flat)]) = Ok q2
    /\ p_query (GetDocument "subscribers" q2 "{}") h1 = (Ok record, h2)
    /\ json_parse record = Ok subscriber
    /\ w1 = mkPortal h2 (pcalls w ++ [GetDocument "societies" q1 "{}"; GetDocument "subscribers" q2 "{}"]).

Lemma refused_error code reason cause : code ∈ [401; 403; 500] -> refused (Ok (response_error code reason cause)).
Proof. intros Hc. by exists code, reason, cause. Qed.

(** The response that ends a login well, and the session document it stored. *)
Definition logged_in (subscriber : json) (email society user role rsp : string) w w' : Prop :=
  exists token now text body,
    token <> "" /\ json_dump (session_doc token email society user role now) = Ok text
    /\ json_dump (mk_obj [("token", JStr token); ("subscriber", subscriber)]) = Ok body
    /\ rsp = http_response_with 200 "OK" body "application/json" (session_cookie token (ttl_sec_for_role role))
    /\ pcalls w' = pcalls w ++ [CreateDocument p_database "sessions" text].

Lemma finish_login_run subscriber email society user role w rsp w' :
  finish_login subscriber email society user role w = (Ok rsp, w') ->
  logged_in subscriber email society user role rsp w w'
  \/ (rsp = server_error "RAND_bytes failed" /\ pcalls w' = pcalls w).
Proof.
  unfold finish_login, mint_bearer_token. intros E. m_inv.
  match goal with G : rand_bytes _ _ = _ |- _ => apply rand_bytes_run in G as [_ ->] end.
  cbn [host pcalls] in *. destruct (str_empty _) eqn:Ht; m_inv; [by right|left].
  apply str_empty_false in Ht. do 4 eexists. split_and!; eauto.
Qed.

Lemma password_matches_inv password subscriber :
  password_matches password subscriber = Ok true -> disabled subscriber = false ->
  credentials_ok password subscriber.
Proof.
  unfold password_matches. destruct (member_str "portalPasswordHash" subscriber) as [hash|] eqn:Hh; [|done].
  intros Hv Hd. split; [by exists hash|]. intros status. by apply disabled_false.
Qed.

(** [trace] shows which calls were made, [refuse] that the answer is an error as well. *)
Ltac trace :=
  unfold only_calls; eexists; split;
    [first [etransitivity; [eassumption|] | idtac]; cbn [pcalls]; rewrite <- ?app_assoc; reflexivity
    |repeat constructor].
Ltac refuse := right; m_inv; split; [apply refused_error; set_solver|trace].

(** In strict mode a login stores a session and answers 200 only when the society and
    the subscriber exist, the stored password hash accepts the password and the account
    is not disabled; the session carries the identity and role of the stored subscriber,
    and the cookie lives as long as the role's session; a record without a hash never
    logs in. Every other answer is an error and only read the two collections. *)
Theorem strict_login_sound society_code flat password w rsp w' :
  strict_login society_code flat password w = (Ok rsp, w') ->
  (exists subscriber society user role email profile w1,
     account_of society_code flat w w1 society subscriber /\ credentials_ok password subscriber
     /\ value_str "sipUsername" "" subscriber = Ok user /\ value_str "role" "resident" subscriber = Ok role
     /\ value_str "email" "" subscriber = Ok email
     /\ logged_in profile email society user role rsp w1 w')
  \/ (refused (Ok rsp) /\ only_calls read_call w w').
Proof.
  unfold strict_login. intros E. m_inv.
  destruct (str_empty _); [refuse|].
  destruct (json_parse _ ≫= _) as [society|] eqn:Hsoc; [|refuse].
  destruct (str_empty society) eqn:Hne; [refuse|]. apply str_empty_false in Hne. m_inv.
  destruct (str_empty _); [refuse|].
  match type of E with context [json_parse ?r] => destruct (json_parse r) as [subscriber|] eqn:Hsub end;
    [|refuse]. m_inv.
  match goal with G : password_matches _ _ = Ok ?b |- _ => destruct b eqn:Hb; rename G into Hpw end;
    cbn [negb] in *; [|refuse].
  destruct (disabled subscriber) eqn:Hd; [refuse|]. m_inv.
  apply finish_login_run in E as [E|[-> E]].
  - left. exists subscriber, society. do 5 eexists.
    split_and!; [|by apply password_matches_inv|eassumption..].
    do 6 eexists. cbn [pcalls]. rewrite <- app_assoc. by split_and!.
  - right. split; [by apply refused_error; set_solver|]. trace.
Qed.

(** A society whose document was inserted without an [_id] of its own has an ObjectId,
    which reads back as an object: every strict login to it is answered with 500. *)
Theorem strict_login_object_id society_code flat password w q doc h kvs oid :
  json_dump (mk_obj [("code", JStr society_code)]) = Ok q ->
  p_query (GetDocument "societies" q "{}") (host w) = (Ok doc, h) -> doc <> "" ->
  json_parse doc = Ok (JObj kvs) -> obj_find "_id" kvs = Some (JObj oid) ->
  strict_login society_code flat password w
  = (Ok (server_error "society record is not valid JSON"), mkPortal h (pcalls w ++ [GetDocument "societies" q "{}"])).
Proof.
  intros Hq Hs Hne Hp Hid. unfold strict_login. rewrite Hq, bind_lift_ok.
  unfold mbind at 1, M_bind at 1, query. rewrite Hs. apply str_empty_false in Hne. rewrite Hne, Hp.
  cbn. by rewrite Hid.
Qed.
End Login.

(** ** Account life-cycle *)

Section Runs.
Context {H : Type} `{!PortalEnv H}.
Implicit Types (w : Portal H) (steps : list portal_call).

(** The calls of a run are these, in this order, up to the one that threw. *)
Definition runs steps w (r : result string) w' : Prop :=
  exists new, pcalls w' = pcalls w ++ new /\ new `prefix_of` steps /\ (forall rsp, r = Ok rsp -> new = steps).

Lemma runs_ret rsp w r w' : mret (M := M (Portal H)) rsp w = (r, w') -> runs [] w r w'.
Proof. intros [= <- <-]. exists []. by rewrite app_nil_r. Qed.
Lemma runs_lift {A} (x : result A) (k : A -> M (Portal H) string) steps w r w' :
  (lift x ≫= k) w = (r, w') -> (forall a, k a w = (r, w') -> runs steps w r w') -> runs steps w r w'.
Proof.
  intros E Hk. destruct x as [a|e]; [by apply (Hk a)|]. injection E as <- <-. exists [].
  rewrite app_nil_r. split_and!; [done|apply prefix_nil|done].
Qed.
Lemma runs_cons c steps w w1 r w' :
  pcalls w1 = pcalls w ++ [c] -> (exists e, r = Throw e /\ w' = w1) \/ runs steps w1 r w' ->
  runs (c :: steps) w r w'.
Proof.
  intros Hc [(e & -> & ->)|(new & Hn & Hp & Hd)].
  - exists [c]. split_and!; [done|by apply prefix_cons, prefix_nil|done].
  - exists (c :: new). rewrite Hn, Hc, <- app_assoc. split_and!; [done|by apply prefix_cons|].
    intros rsp Hr. f_equal. by eapply Hd.
Qed.
Lemma runs_query c (k : string -> M (Portal H) string) steps w r w' :
  (query c ≫= k) w = (r, w') -> (forall x w1, k x w1 = (r, w') -> runs steps w1 r w') ->
  runs (c :: steps) w r w'.
Proof.
  unfold mbind, M_bind, query. destruct (p_query c (host w)) as [[x|e] h]; intros E Hk.
  - apply (runs_cons _ _ _ (mkPortal h (pcalls w ++ [c]))); [done|right]. by eapply Hk.
  - injection E as <- <-. eapply (runs_cons _ _ _ (mkPortal h _)); [done|left]. by exists e.
Qed.
Lemma runs_revoke s u (k : unit -> M (Portal H) string) steps w r w' :
  (revoke_call s u ≫= k) w = (r, w') -> (forall w1, k tt w1 = (r, w') -> runs steps w1 r w') ->
  runs (Revoke s u :: steps) w r w'.
Proof.
  intros E Hk. eapply (runs_cons _ _ _ (mkPortal _ _)); [reflexivity|right]. apply Hk. exact E.
Qed.
Lemma bind_assoc {A B C} (m : M (Portal H) A) (f : A -> M (Portal H) B) (g : B -> M (Portal H) C) w :
  ((m ≫= f) ≫= g) w = (m ≫= fun a => f a ≫= g) w.
Proof. unfold mbind, M_bind. by destruct (m w) as [[]]. Qed.
End Runs.

(** ** Account life-cycle *)

Section Lifecycle.
Context {H : Type} `{!PortalEnv H} `{!Zlib} `{!JsonLib} `{!PasswordCrypto}.
Implicit Types (w : Portal H).

(** The account a request names: the last path segment in the society of the query. *)
Definition names_account (req sip society filter : string) : Prop :=
  sip = path_suffix req "/api/v1/subscriber/" /\ sip <> ""
  /\ society = query_param (raw_uri_with_query req) "societyId" /\ society <> ""
  /\ json_dump (mk_obj [("societyId", JStr society); ("sipUsername", JStr sip)]) = Ok filter.

Lemma resolve_inv req w r w' :
  resolve_lifecycle_target req w = (r, w') ->
  only_calls read_call w w'
  /\ match r with
     | Ok (Target sip society filter) => names_account req sip society filter
     | Ok (NoTarget err) => exists code reason cause, err = response_error code reason cause
     | Throw _ => True
     end.
Proof.
  intros E. split.
  { eapply preserves_run; [|exact E]. unfold resolve_lifecycle_target. solve_preserves. by apply query_only. }
  destruct r as [t|e]; [|done]. unfold resolve_lifecycle_target, bad_request in E.
  destruct (str_empty (path_suffix _ _)) eqn:Hp; [m_inv; eauto|]. apply str_empty_false in Hp.
  destruct (str_empty (query_param _ _)) eqn:Hq; [m_inv; eauto|]. apply str_empty_false in Hq.
  m_inv. case_match; m_inv; eauto. by split_and!.
Qed.

(** The database steps of a status change, and of a removal. *)
Definition revoke_steps (revoke : bool) (society sip : string) : list portal_call :=
  if revoke then [Revoke society sip] else [].
Definition status_steps (revoke : bool) (status society sip filter update : string) : list portal_call :=
  UpdateCollection "subscribers" filter update
  :: (if str_eqb status "disabled" then DeleteDocument "sessions" filter :: revoke_steps revoke society sip else []).
Definition delete_steps (revoke : bool) (society sip filter : string) : list portal_call :=
  DeleteDocument "subscribers" filter :: DeleteDocument "sessions" filter :: revoke_steps revoke society sip.

(** What a change of an account may do: run these steps on the named account, after the
    look-up; or fail, having only looked up. *)
Definition account_change (steps : string -> string -> string -> list portal_call -> Prop)
    (req : string) w (r : result string) w' : Prop :=
  (exists sip society filter todo w1,
     names_account req sip society filter /\ only_calls read_call w w1
     /\ steps sip society filter todo /\ runs todo w1 r w')
  \/ (only_calls read_call w w'
      /\ match r with Ok rsp => exists code reason cause, rsp = response_error code reason cause | Throw _ => True end).

Lemma status_steps_run revoke status society sip filter update k w r w' :
  (_ ← query (UpdateCollection "subscribers" filter update);
   (if str_eqb status "disabled" then
      _ ← query (DeleteDocument "sessions" filter);
      if revoke : bool then revoke_call society sip else mret tt
    else mret tt) ;; k) w = (r, w') ->
  (forall w1, k w1 = (r, w') -> runs [] w1 r w') ->
  runs (status_steps revoke status society sip filter update) w r w'.
Proof.
  intros E Hk. unfold status_steps. apply (runs_query _ _ _ _ _ _ E). clear E. intros _ w1 E.
  destruct (str_eqb status "disabled"); [|by apply Hk].
  rewrite bind_assoc in E. apply (runs_query _ _ _ _ _ _ E). clear E. intros _ w2 E.
  destruct revoke; [|by apply Hk]. by apply (runs_revoke _ _ _ _ _ _ _ E).
Qed.

Lemma account_change_stop steps req w r w' :
  only_calls read_call w w' ->
  match r with Ok rsp => exists code reason cause, rsp = response_error code reason cause | Throw _ => True end ->
  account_change steps req w r w'.
Proof. by right. Qed.

Definition set_status_steps (revoke : bool) (sip society filter : string) (todo : list portal_call) : Prop :=
  exists status update, status ∈ ["active"; "disabled"]
    /\ json_dump (mk_obj [("$set", mk_obj [("status", JStr status)])]) = Ok update
    /\ todo = status_steps revoke status society sip filter update.

Lemma status_PUT_order revoke req w r w' :
  handle_subscriber_status_PUT revoke req w = (r, w') ->
  account_change (set_status_steps revoke) req w r w'.
Proof.
  unfold handle_subscriber_status_PUT, with_json_body. intros E.
  unfold mbind at 1, M_bind at 1 in E.
  destruct (resolve_lifecycle_target req w) as [t w1] eqn:Ht. apply resolve_inv in Ht as [Ho Ht].
  destruct t as [[sip society filter|err]|e]; [|injection E as <- <-; by apply account_change_stop..].
  unfold parse_request in E. destruct (parse_http req) as [parsed|e];
    [rewrite bind_lift_ok in E|injection E as <- <-; by apply account_change_stop].
  destruct (json_parse _) as [body|];
    [|injection E as <- <-; apply account_change_stop; [done|by do 3 eexists]].
  destruct (member_str "status" body) as [status|];
    [|injection E as <- <-; apply account_change_stop; [done|by do 3 eexists]].
  destruct (str_eqb status "active" || str_eqb status "disabled") eqn:Hs; cbn [negb] in E;
    [|injection E as <- <-; apply account_change_stop; [done|by do 3 eexists]].
  destruct (json_dump (mk_obj [("$set", _)])) as [update|] eqn:Hu;
    [rewrite bind_lift_ok in E|injection E as <- <-; by apply account_change_stop].
  left. exists sip, society, filter. eexists _, w1. split_and!; [done|done|exists status, update|].
  - split_and!; [|done|reflexivity].
    apply orb_true_iff in Hs as [Hs|Hs]; apply str_eqb_eq in Hs as ->; set_solver.
  - apply (status_steps_run _ _ _ _ _ _ _ _ _ _ E). clear E. intros w2 E.
    apply (runs_lift _ _ _ _ _ _ E). intros text. apply runs_ret.
Qed.

Lemma DELETE_order revoke req w r w' :
  handle_subscriber_DELETE revoke req w = (r, w') ->
  account_change (fun sip society filter todo => todo = delete_steps revoke society sip filter) req w r w'.
Proof.
  unfold handle_subscriber_DELETE. intros E. unfold mbind at 1, M_bind at 1 in E.
  destruct (resolve_lifecycle_target req w) as [t w1] eqn:Ht. apply resolve_inv in Ht as [Ho Ht].
  destruct t as [[sip society filter|err]|e]; [|injection E as <- <-; by apply account_change_stop..].
  left. exists sip, society, filter. eexists _, w1. split_and!; [done|done|reflexivity|].
  apply (runs_query _ _ _ _ _ _ E). clear E. intros _ w2 E.
  apply (runs_query _ _ _ _ _ _ E). clear E. intros _ w3 E.
  assert (Hlast : forall w4, (text ← lift (json_dump (mk_obj [("status", JStr "success"); ("sipUsername", JStr sip);
                                             ("removed", JBool true)])); mret (ok_json text)) w4 = (r, w') ->
                  runs [] w4 r w').
  { intros w4 E4. apply (runs_lift _ _ _ _ _ _ E4). intros text. apply runs_ret. }
  destruct revoke; [|by apply Hlast]. by apply (runs_revoke _ _ _ _ _ _ _ E).
Qed.

(** Disabling, re-enabling and removing an account: the named account is looked up
    first; then the subscriber document is changed, for a disable or removal every
    session of the account is deleted, and only then the softphones are cut off — in this
    order, stopping at the step that throws, and completely whenever the request is
    answered with success.  A request that fails earlier has only read the store. *)
Theorem lifecycle_order revoke req w r w' :
  (handle_subscriber_status_PUT revoke req w = (r, w') ->
   account_change (set_status_steps revoke) req w r w')
  /\ (handle_subscriber_DELETE revoke req w = (r, w') ->
      account_change (fun sip society filter todo => todo = delete_steps revoke society sip filter) req w r w').
Proof. split; [apply status_PUT_order|apply DELETE_order]. Qed.
End Lifecycle.

(** ** The theorems at work *)

Section Witnesses.
#[local] Instance the_env : PortalEnv Z := demo_env demo_store demo_vars.
#[local] Instance the_zlib : Zlib := demo_zlib.
#[local] Instance the_crypto : PasswordCrypto := toy_crypto.
#[local] Instance the_json : JsonLib := demo_json.

Definition result_option {A} (r : result A) : option A := match r with Ok a => Some a | Throw _ => None end.
Definition status_of (rsp : string) : string := str_take 12 rsp.
Definition delete_req (token : string) : string :=
  request ("DELETE /api/v1/subscriber/u_1?societyId=soc-a&token=" +:+ token) "".
Definition disable_req : string :=
  request "PUT /api/v1/subscriber/u_1?societyId=soc-a&token=adm" (compact_dump (mk_obj [("status", JStr "disabled")])).

(** A resident's token is refused with 403 and only the session was read. *)
Lemma admin_gate_witness :
  exists r w', dispatch_pbx_routes None (delete_req "res") demo_start = (r, w')
    /\ is_ok r = true /\ Datatypes.length (pcalls w') = 1%nat
    /\ ((live_admin (delete_req "res") demo_start
         /\ exists h w1, route None "DELETE" "/api/v1/subscriber/u_1" = Some (admin_only h)
            /\ only_calls session_call demo_start w1 /\ h (delete_req "res") w1 = (r, w'))
        \/ (refused r /\ only_calls session_call demo_start w')).
Proof.
  destruct (dispatch_pbx_routes None (delete_req "res") demo_start) as [r w'] eqn:E.
  exists r, w'. split; [done|]. split; [|split].
  - vm_compute in E. by injection E as <- <-.
  - vm_compute in E. by injection E as <- <-.
  - destruct (parse_http (delete_req "res")) as [http|] eqn:Hp; [|by vm_compute in Hp].
    assert (Hm : m_method http = "DELETE" /\ m_uriName http = "/api/v1/subscriber/u_1")
      by (vm_compute in Hp; by injection Hp as <-).
    destruct Hm as [Hm Hu]. rewrite <- Hm, <- Hu.
    refine (admin_gate None (delete_req "res") http demo_start r w' Hp _ E).
    rewrite Hm, Hu. reflexivity.
Defined.

(** A strict-mode upgrade with the resident's token is accepted. *)
Definition upgrade_req : string := request "GET /sip-ws?token=res" "".
Lemma sipws_gate_witness :
  exists meta w', handle_sipws_upgrade upgrade_req demo_start = (Ok (UpgradeOk meta), w')
    /\ only_calls upgrade_call demo_start w' /\ Datatypes.length (pcalls w') = 3%nat.
Proof.
  destruct (handle_sipws_upgrade upgrade_req demo_start) as [[[e|meta]|e] w'] eqn:E; [by vm_compute in E| |by vm_compute in E].
  exists meta, w'. split; [done|]. split.
  - destruct (parse_http upgrade_req) as [parsed|] eqn:Hp; [|by vm_compute in Hp].
    exact (proj1 (sipws_gate upgrade_req parsed demo_start meta w' Hp E)).
  - vm_compute in E. by injection E as <- <-.
Defined.

(** A live session is moved to a day from now, an expired one left alone. *)
Lemma refresh_never_resurrects_witness :
  (exists new w', refresh_session_expiry "res" demo_start = (Ok tt, w') /\ pcalls w' = pcalls demo_start ++ new
     /\ Datatypes.length new = 2%nat)
  /\ exists w', refresh_session_expiry "" (mkPortal 5000 []) = (Ok tt, w') /\ w' = mkPortal 5000 [].
Proof.
  split.
  - destruct (refresh_session_expiry "res" demo_start) as [r w'] eqn:E.
    destruct (refresh_never_resurrects "res" demo_start r w' E) as (_ & new & Hn & _).
    exists new, w'. vm_compute in E. injection E as <- <-. split; [done|]. split; [done|].
    cbn in Hn. by rewrite <- Hn.
  - eexists. split; [reflexivity|].
    by apply (refresh_never_resurrects "" (mkPortal 5000 []) (Ok tt)).
Defined.

Lemma strict_login_sound_witness :
  (exists rsp w', strict_login "SUN" "A-204" "pw" demo_start = (Ok rsp, w') /\ status_of rsp = "HTTP/1.1 200"
     /\ Datatypes.length (pcalls w') = 3%nat)
  /\ exists rsp w', strict_login "SUN" "A-204" "guess" demo_start = (Ok rsp, w') /\ refused (Ok rsp)
     /\ only_calls read_call demo_start w'.
Proof.
  split; [do 2 eexists; by vm_compute|].
  destruct (strict_login "SUN" "A-204" "guess" demo_start) as [[rsp|e] w'] eqn:E; [|by vm_compute in E].
  exists rsp, w'. split; [done|].
  destruct (strict_login_sound _ _ _ _ _ _ E) as [(sub & soc & usr & role & em & pr & w1 & _ & _ & _ & _ & _ & Hl)|Hr];
    [|done].
  exfalso. destruct Hl as (tok & now & text & body & _ & _ & _ & -> & _). vm_compute in E. done.
Defined.

Lemma lifecycle_order_witness :
  account_change (set_status_steps true) disable_req demo_start
    (handle_subscriber_status_PUT true disable_req demo_start).1
    (handle_subscriber_status_PUT true disable_req demo_start).2
  /\ status_of (default "" (result_option (handle_subscriber_status_PUT true disable_req demo_start).1)) = "HTTP/1.1 200"
  /\ Datatypes.length (pcalls (handle_subscriber_status_PUT true disable_req demo_start).2) = 4%nat.
Proof.
  split; [|by vm_compute]. apply (lifecycle_order true disable_req demo_start). by destruct (handle_subscriber_status_PUT _ _ _).
Defined.
End Witnesses.
