(* ===== verification/PortalViews.v ===== *)
(** What the control plane shows and takes in: query parameters, the log redaction, the
    directory, the call records, and the bulk import of subscribers. *)

From S2P Require Import Prelude Json MessageParser HttpParser PasswordHash PortalEnv Portal PortalRoutes PortalDemo.

#[local] Open Scope Z_scope.

(** ** Query parameters *)

Definition segment (kv : string * string) : string := kv.1 +:+ "=" +:+ kv.2.
Definition first_value (key : string) (kvs : list (string * string)) : string :=
  match list_find (fun kv => kv.1 = key) kvs with Some (_, kv) => kv.2 | None => "" end.

Lemma find_pair_segments key kvs :
  Forall (fun kv => no_char "=" kv.1) kvs -> find_pair key (map segment kvs) = first_value key kvs.
Proof.
  unfold first_value. induction 1 as [|[k v] kvs Hk Hkvs IH]; [done|].
  cbn [map find_pair fst snd] in *. unfold segment at 1 2 3. cbn [fst snd]. change (k +:+ "=" +:+ v) with (k +:+ String "=" v).
  rewrite find_char_app by done.
  rewrite str_take_app_length. cbn [list_find fst].
  case_decide as Hne; [subst k|].
  - rewrite str_eqb_refl. apply str_drop_mid.
  - apply str_eqb_neq in Hne as ->. rewrite IH. by destruct (list_find _ kvs) as [[]|].
Qed.

(** A query string, and a Cookie header, of these pairs. *)
Definition query_string (kvs : list (string * string)) : string := str_join "&" (map segment kvs).
Definition pair_ok (d : ascii) (kv : string * string) : Prop :=
  no_char d kv.1 /\ no_char "=" kv.1 /\ no_char d kv.2.

Lemma segments_no_char d kvs : d <> "="%char -> Forall (pair_ok d) kvs -> Forall (no_char d) (map segment kvs).
Proof.
  intros Hd. induction 1 as [|[k v] kvs (Hk & _ & Hv) Hkvs IH]; constructor; [|done]. cbn in *.
  apply no_char_app; [done|]. unfold no_char in *. cbn [find_char append]. destruct (Ascii.eqb "=" d) eqn:E.
  - by apply Ascii.eqb_eq in E as <-.
  - by rewrite Hv.
Qed.

(** A query parameter reads back as the value of the first pair with its key, and as
    the empty string when there is none, for every path and every list of pairs whose
    keys and values are free of the delimiters. *)
Theorem query_param_lookup path kvs key :
  no_char "?" path -> Forall (pair_ok "&") kvs ->
  query_param (path +:+ "?" +:+ query_string kvs) key = first_value key kvs.
Proof.
  intros Hp Hkvs. unfold query_param, query_string.
  change (path +:+ "?" +:+ ?q) with (path +:+ String "?" q). rewrite find_char_app by done.
  assert (Hkeys : Forall (fun kv => no_char "=" kv.1) kvs)
    by (revert Hkvs; apply Forall_impl; intros kv (_ & ? & _); done).
  rewrite <- (find_pair_segments key kvs) by done.
  rewrite str_drop_mid. destruct kvs as [|kv kvs]; [done|].
  by rewrite split_on_join by (try apply segments_no_char; done).
Qed.

(** ** Log redaction *)

Section JsonInd.
Variable P : json -> Prop.
Hypothesis Hnull : P JNull.
Hypothesis Hbool : forall b, P (JBool b).
Hypothesis Hint : forall z, P (JInt z).
Hypothesis Hreal : forall n d, P (JReal n d).
Hypothesis Hstr : forall s, P (JStr s).
Hypothesis Harr : forall l, Forall P l -> P (JArr l).
Hypothesis Hobj : forall kvs, Forall (fun kv => P kv.2) kvs -> P (JObj kvs).

Fixpoint json_nested_ind (j : json) : P j :=
  match j with
  | JNull => Hnull
  | JBool b => Hbool b
  | JInt z => Hint z
  | JReal n d => Hreal n d
  | JStr s => Hstr s
  | JArr l => Harr l ((fix go l := match l return Forall P l with
                                   | [] => Forall_nil _
                                   | j :: l' => Forall_cons _ _ _ (json_nested_ind j) (go l')
                                   end) l)
  | JObj kvs => Hobj kvs ((fix go kvs := match kvs return Forall (fun kv => P kv.2) kvs with
                                         | [] => Forall_nil _
                                         | kv :: kvs' => Forall_cons _ _ _ (json_nested_ind kv.2) (go kvs')
                                         end) kvs)
  end.
End JsonInd.

(** [secret_in k s j]: somewhere in [j], at any depth, the member [k] is the string [s]
    and [k] is a name of a secret. *)
Inductive secret_in (k s : string) : json -> Prop :=
  | secret_here kvs : (k, JStr s) ∈ kvs -> is_secret k = true -> secret_in k s (JObj kvs)
  | secret_member kvs k' v : (k', v) ∈ kvs -> secret_in k s v -> secret_in k s (JObj kvs)
  | secret_elem l v : v ∈ l -> secret_in k s v -> secret_in k s (JArr l).

Lemma walk_masks k s j : secret_in k s (walk j) -> s = "***".
Proof.
  induction j as [| | | | |l IH|kvs IH] using json_nested_ind; cbn [walk]; inversion 1; subst.
  - match goal with G : _ ∈ map walk _ |- _ => apply list_elem_of_fmap in G as (j & -> & Hj) end.
    rewrite Forall_forall in IH. by apply (IH j); [apply list_elem_of_In|].
  - match goal with G : _ ∈ map _ _ |- _ => apply list_elem_of_fmap in G as ([k' v] & Heq & Hj) end.
    cbn [fst snd] in Heq. injection Heq as -> Hv.
    destruct (is_secret k' && is_string v) eqn:Hb; [by injection Hv|].
    destruct v; try done. by rewrite andb_true_r in Hb; congruence.
  - match goal with G : _ ∈ map _ _ |- _ => apply list_elem_of_fmap in G as ([k2 v2] & Heq & Hj) end.
    cbn [fst snd] in Heq. injection Heq as -> ->. rewrite Forall_forall in IH.
    destruct (is_secret k2 && is_string v2) eqn:Hb.
    + match goal with G : secret_in _ _ (JStr _) |- _ => by inversion G end.
    + by apply (IH (k2, v2)); [apply list_elem_of_In|].
Qed.

Lemma walk_fixes j : (forall k s, secret_in k s j -> s = "***") -> walk j = j.
Proof.
  induction j as [| | | | |l IH|kvs IH] using json_nested_ind; cbn [walk]; intros Hj; try done.
  - f_equal. rewrite <- (map_id l) at 2. apply map_ext_in. intros v Hv. rewrite Forall_forall in IH.
    apply IH; [done|]. intros k s Hs. apply (Hj k). eapply secret_elem; [by apply list_elem_of_In|done].
  - f_equal. rewrite <- (map_id kvs) at 2. apply map_ext_in. intros [k v] Hv. cbn [fst snd].
    rewrite Forall_forall in IH. f_equal. destruct (is_secret k && is_string v) eqn:Hb.
    + apply andb_true_iff in Hb as [Hk Hs]. destruct v as [| | | |s| |]; try done.
      f_equal. symmetry. apply (Hj k). apply secret_here; [by apply list_elem_of_In|done].
    + apply (IH (k, v)); [done|]. intros k' s Hs. apply (Hj k').
      eapply secret_member; [by apply list_elem_of_In|done].
Qed.

(** What is logged of a request body: when the body is JSON, no member at any depth
    with the name of a secret keeps its string, and a body without such members is logged
    as it is; what is not JSON is logged unchanged. *)
Theorem redact_hides_secrets `{!JsonLib} content :
  match json_parse content with
  | Ok body => exists logged, redact_for_log content = json_dump logged
      /\ (forall k s, secret_in k s logged -> s = "***")
      /\ ((forall k s, ~ secret_in k s body) -> logged = body)
  | Throw _ => redact_for_log content = Ok content
  end.
Proof.
  unfold redact_for_log. destruct (json_parse content) as [body|]; [|done].
  exists (walk body). split_and!; [done|intros k s; apply walk_masks|]. intros Hno. apply walk_fixes.
  intros k s Hs. by destruct (Hno k s).
Qed.

(** ** The directory *)

Lemma str_map_take f n s : str_map f (str_take n s) = str_take n (str_map f s).
Proof. revert n. induction s as [|c s IH]; intros [|n]; try done. cbn. by rewrite IH. Qed.
Lemma str_map_length f s : String.length (str_map f s) = String.length s.
Proof. induction s as [|c s IH]; [done|]. cbn. by rewrite IH. Qed.

Lemma prefix_take p s : String.prefix p s = true <-> (String.length p <= String.length s)%nat /\ str_take (String.length p) s = p.
Proof.
  revert s. induction p as [|a p IH]; intros s; [by destruct s; cbn; split; auto with lia|].
  destruct s as [|b s]; cbn; [by split; [|intros [? ?]; lia]|].
  destruct (ascii_dec a b) as [->|Hab].
  - rewrite IH. split; intros [Hl Ht]; (split; [lia|]); congruence.
  - split; [done|]. intros [_ [= Hb _]]. by destruct Hab.
Qed.

(** The search is a case-insensitive prefix match. *)
Lemma matches_prefix_spec p flat : matches_prefix p flat = String.prefix (to_lower p) (to_lower flat).
Proof.
  apply eq_iff_eq_true. unfold matches_prefix, to_lower. rewrite prefix_take, !str_map_length, str_map_take.
  rewrite orb_true_iff, andb_true_iff, str_eqb_eq, Nat.leb_le, str_empty_true. split.
  - intros [->|[Hl He]]; [split; [cbn; lia|by rewrite str_take_0]|by rewrite He].
  - intros [Hl He]. by right.
Qed.

Section Views.
Context {H : Type} `{!PortalEnv H} `{!Zlib} `{!JsonLib} `{!PasswordCrypto}.
Implicit Types (w : Portal H) (presence : presence_cache).

(** The rows a search shows, and what it shows of one: the flat, the name, a SIP URI made
    of the flat, and whether the presence cache has the subscriber online. *)
Definition listed (flat_prefix : string) (row : json) : bool :=
  match member_str "flatNumber" row with
  | Some flat => String.prefix (to_lower flat_prefix) (to_lower flat)
  | None => false
  end.
Definition shown (society : string) presence (row entry : json) : Prop :=
  exists flat name user, member_str "flatNumber" row = Some flat /\ value_str "name" "" row = Ok name
    /\ value_str "sipUsername" "" row = Ok user
    /\ entry = JObj [("displayName", JStr name); ("flatNumber", JStr flat);
         ("online", JBool (match presence with Some on => negb (str_empty user) && on society user | None => false end));
         ("sipUri", JStr ("sip:" +:+ flat +:+ "@pbx.local"))].

Lemma directory_entry_spec society flat_prefix presence row e :
  directory_entry society flat_prefix presence row = Ok e ->
  match e with
  | Some entry => listed flat_prefix row = true /\ shown society presence row entry
  | None => listed flat_prefix row = false
  end.
Proof.
  unfold directory_entry, listed. destruct (member_str "flatNumber" row) as [flat|] eqn:Hf; [|by intros [= <-]].
  rewrite matches_prefix_spec. destruct (String.prefix _ _) eqn:Hp; cbn [negb]; [|by intros [= <-]].
  destruct (value_str "sipUsername" "" row) as [user|] eqn:Hu; [|done].
  destruct (value_str "name" "" row) as [name|] eqn:Hn; [|done].
  intros [= <-]. split; [done|]. by exists flat, name, user.
Qed.

Lemma map_result_entries society flat_prefix presence rows out :
  map_result (directory_entry society flat_prefix presence) rows = Ok out ->
  Forall2 (shown society presence) (filter (fun row => listed flat_prefix row = true) rows) (omap id out).
Proof.
  revert out. induction rows as [|row rows IH]; intros out Hm; cbn in Hm; [by injection Hm as <-|].
  destruct (directory_entry _ _ _ row) as [e|] eqn:He; [|done]. cbn in Hm.
  destruct (map_result _ rows) as [es|]; [|done]. injection Hm as <-.
  apply directory_entry_spec in He. specialize (IH es eq_refl). rewrite filter_cons. cbn.
  destruct e as [entry|].
  - destruct He as [-> He]. by constructor.
  - rewrite He. exact IH.
Qed.

(** The directory answers a search with one entry for each subscriber of the society
    whose flat number starts with the prefix, upper and lower case alike, in the stored
    order; an entry is the flat, the name, a URI made of the flat and the presence, and
    nothing else of the record: no SIP hash, no password hash, no SIP user name. *)
Theorem directory_projection presence req w h raw rows rsp w' :
  let society := query_param (raw_uri_with_query req) "societyId" in
  let flat_prefix := query_param (raw_uri_with_query req) "flatPrefix" in
  society <> "" -> db_available = true ->
  p_query (GetDocuments "subscribers" (raw_filter [("societyId", society)]) "{}") (host w) = (Ok raw, h) ->
  raw <> "" -> json_parse raw = Ok (JArr rows) ->
  handle_directory_GET presence req w = (Ok rsp, w') ->
  exists entries text, rsp = ok_json text /\ json_dump (JArr entries) = Ok text
    /\ Forall2 (shown society presence) (filter (fun row => listed flat_prefix row = true) rows) entries
    /\ pcalls w' = pcalls w ++ [GetDocuments "subscribers" (raw_filter [("societyId", society)]) "{}"].
Proof.
  intros society flat_prefix Hs Hdb Hq Hr Hp. unfold handle_directory_GET. fold society flat_prefix.
  apply str_empty_false in Hs, Hr. rewrite Hs, Hdb. cbn [negb].
  unfold try_catch, query, mbind at 1, M_bind at 1. rewrite Hq, Hr, Hp.
  intros E. apply M_bind_inv in E as (out & w1 & Hout & E). injection Hout as Hout <-.
  apply M_bind_inv in E as (text & w2 & Htext & E). injection Htext as Htext <-. injection E as <- <-.
  exists (omap id out), text. split_and!; [done|done|by apply map_result_entries|done].
Qed.

(** ** Call records *)

Lemma route_cdr m_parent rest :
  route (H := H) m_parent "GET" ("/api/v1/cdr" +:+ rest) = Some handle_cdr_GET.
Proof.
  unfold route. change (str_eqb "GET" "POST") with false. change (str_eqb "GET" "PUT") with false.
  change (str_eqb "GET" "DELETE") with false. change (str_eqb "GET" "GET") with true. cbn.
  by destruct rest.
Qed.

(** The call records of a society are answered to whoever asks for them: the request
    needs the society's id and nothing more, no session is looked up, and the answer is
    what the store returns. *)
Theorem cdr_open_to_all m_parent req http w h raw :
  let society := query_param (raw_uri_with_query req) "societyId" in
  parse_http req = Ok http -> m_method http = "GET" -> String.prefix "/api/v1/cdr" (m_uriName http) = true ->
  society <> "" -> db_available = true ->
  p_query (GetDocuments "cdr" (raw_filter [("societyId", society)]) "{}") (host w) = (Ok raw, h) -> raw <> "" ->
  dispatch_pbx_routes m_parent req w
  = (Ok (ok_json raw), mkPortal h (pcalls w ++ [GetDocuments "cdr" (raw_filter [("societyId", society)]) "{}"])).
Proof.
  intros society Hp Hm Hu Hs Hdb Hq Hr.
  assert (Hroute : route (H := H) m_parent (m_method http) (m_uriName http) = Some handle_cdr_GET).
  { rewrite Hm, (prefix_split _ _ Hu). apply route_cdr. }
  unfold dispatch_pbx_routes, parse_request. rewrite Hp, bind_lift_ok, Hroute. unfold handle_cdr_GET. fold society.
  apply str_empty_false in Hs, Hr. rewrite Hs, Hdb. cbn [negb].
  unfold try_catch, query, mbind, M_bind. by rewrite Hq, Hr.
Qed.
End Views.

(** ** The theorems at work *)

Section Witnesses.
#[local] Instance the_env : PortalEnv Z := demo_env demo_store demo_vars.
#[local] Instance the_zlib : Zlib := demo_zlib.
#[local] Instance the_crypto : PasswordCrypto := toy_crypto.
#[local] Instance the_json : JsonLib := demo_json.

Lemma query_param_lookup_witness :
  query_param "/api/v1/subscriber?societyId=soc-a&flatPrefix=a-2&societyId=soc-b" "societyId" = "soc-a".
Proof.
  apply (query_param_lookup "/api/v1/subscriber" [("societyId", "soc-a"); ("flatPrefix", "a-2"); ("societyId", "soc-b")]
           "societyId"); [by vm_compute|].
  repeat (apply Forall_cons_2; [by split_and!|]). by apply Forall_nil_2.
Defined.

Definition directory_req : string := request "GET /api/v1/subscriber?societyId=soc-a&flatPrefix=a-2" "".
Lemma directory_projection_witness :
  exists rsp w', handle_directory_GET (Some (fun _ _ => true)) directory_req demo_start = (Ok rsp, w')
    /\ pcalls w' = [GetDocuments "subscribers" (raw_filter [("societyId", "soc-a")]) "{}"]
    /\ str_contains "A-204" rsp = true /\ str_contains "secret" rsp = false.
Proof.
  destruct (handle_directory_GET (Some (fun _ _ => true)) directory_req demo_start) as [[rsp|e] w'] eqn:E;
    [|by vm_compute in E].
  exists rsp, w'. split; [done|].
  destruct (directory_projection (Some (fun _ _ => true)) directory_req demo_start 500
              (compact_dump (JArr [a_subscriber "active"])) [a_subscriber "active"] rsp w') as (es & text & _ & _ & _ & Hc);
    [by vm_compute..|done|].
  split; [exact Hc|]. vm_compute in E. injection E as <- <-. by vm_compute.
Defined.

(** Without any token, the records of a society. *)
Definition cdr_req : string := request "GET /api/v1/cdr?societyId=soc-a" "".
Lemma cdr_open_to_all_witness :
  dispatch_pbx_routes None cdr_req demo_start
  = (Ok (ok_json "[1]"), mkPortal 500 [GetDocuments "cdr" (raw_filter [("societyId", "soc-a")]) "{}"]).
Proof.
  destruct (parse_http cdr_req) as [http|] eqn:Hp; [|by vm_compute in Hp].
  assert (Hm : m_method http = "GET" /\ m_uriName http = "/api/v1/cdr")
    by (vm_compute in Hp; by injection Hp as <-).
  destruct Hm as [Hm Hu].
  apply (cdr_open_to_all None cdr_req http demo_start 500 "[1]"); [done|done|by rewrite Hu|by vm_compute..].
Defined.
End Witnesses.
