(* ===== verification/PortalImport.v ===== *)
(** The bulk import of subscribers: which accounts a file creates, that the credentials
    handed back are those of the accounts, and what is left behind when a row fails. *)

From S2P Require Import Prelude Json MessageParser HttpParser PasswordHash PortalEnv Portal PortalRoutes PortalDemo PortalSpec.

#[local] Open Scope Z_scope.

(** What became of a row that did not end the import: the e-mail was known, or an account
    was created, with its SIP user name, both passwords and the stored document. *)
Inductive account := Skipped | Created (user sip_password portal_password doc : string).

Section BulkImport.
Context {H : Type} `{!PortalEnv H} `{!Zlib} `{!JsonLib} `{!PasswordCrypto}.
Implicit Types (w : Portal H).

Definition role_cell (c : Columns) (row : list string) : string :=
  if str_empty (cell (i_role c) row) then "resident" else cell (i_role c) row.

(** The line of the credentials file. *)
Definition row_line (c : Columns) (row : list string) (a : account) : string :=
  csv_line (map csv_escape [cell (i_flat c) row; cell (i_name c) row; cell (i_email c) row]
            ++ match a with
               | Skipped => [""; ""; ""; "skipped"]
               | Created user sip_password portal_password _ => [user; sip_password; portal_password; "created"]
               end).

(** The stored document belongs to the credentials: the digest of the SIP user, the
    society's realm and the SIP password, and a salted hash of the portal password. *)
Definition row_account (society realm : string) (c : Columns) (row : list string) (a : account) : Prop :=
  match a with
  | Skipped => True
  | Created user sip_password portal_password doc =>
      exists flat_id salt,
        json_dump (subscriber_doc society flat_id (cell (i_flat c) row) (cell (i_name c) row) (cell (i_email c) row)
                        (cell (i_phone c) row) (role_cell c row) user
                        (md5_hex (user +:+ ":" +:+ realm +:+ ":" +:+ sip_password)) (hash_with_salt portal_password salt)) = Ok doc
  end.

Definition create_of (a : account) : option portal_call :=
  match a with Skipped => None | Created _ _ _ doc => Some (CreateDocument p_database "subscribers" doc) end.
Definition is_create (c : portal_call) : bool := match c with CreateDocument _ _ _ => true | _ => false end.
Definition creates (calls : list portal_call) : list portal_call := filter (fun c => is_create c = true) calls.
Definition is_created (a : account) : bool := match a with Skipped => false | _ => true end.
Definition count (f : account -> bool) (l : list account) : Z :=
  Z.of_nat (Datatypes.length (filter (fun a => f a = true) l)).

(** The answer to a row that ends the import names the row and its flat. *)
Definition row_refused (c : Columns) (r : nat) (row : list string) (rsp : string) : Prop :=
  exists cause, rsp = bad_request ("Row " +:+ to_string (Z.of_nat r) +:+ cause)
    /\ cause ∈ [": missing required field"; ": unknown flat_number '" +:+ cell (i_flat c) row +:+ "'"].

Lemma random_alnum_run n w s w' : random_alnum n w = (Ok s, w') -> pcalls w' = pcalls w.
Proof.
  unfold random_alnum, rand_bytes, random_device, mbind, M_bind, mret, M_ret.
  destruct (p_rand_bytes n (host w)) as [[buf|] h]; [by intros [= _ <-]|].
  destruct (p_random_device n _) as [buf h']. by intros [= _ <-].
Qed.

Lemma hash_run p w x w' :
  hash_password p w = (Ok x, w') -> exists salt h', x = hash_with_salt p salt /\ w' = mkPortal h' (pcalls w).
Proof. unfold hash_password. destruct (p_salt (host w)) as [salt h]. intros [= <- <-]. by exists salt, h. Qed.

Lemma creates_app l1 l2 : creates (l1 ++ l2) = creates l1 ++ creates l2.
Proof. apply list.filter_app. Qed.

(** What [import_row] did: its calls, and the outcome they belong to. *)
Definition row_result (society realm : string) (c : Columns) (r : nat) (row : list string)
    (o : row_outcome) (new : list portal_call) : Prop :=
  match o with
  | RowFails err => row_refused c r row err /\ creates new = []
  | RowSkipped line => line = row_line c row Skipped /\ creates new = []
  | RowCreated line => exists a, is_created a = true /\ row_account society realm c row a
      /\ line = row_line c row a /\ Some <$> creates new = [create_of a]
  end.

Lemma create_subscriber_run society realm flat_id c r row w o w' :
  create_subscriber society realm flat_id (cell (i_flat c) row) (cell (i_name c) row) (cell (i_email c) row)
    (cell (i_phone c) row) (role_cell c row) w = (Ok o, w') ->
  exists new, pcalls w' = pcalls w ++ new /\ row_result society realm c r row o new.
Proof.
  unfold create_subscriber. intros E. m_inv.
  repeat match goal with G : random_alnum _ _ = _ |- _ => apply random_alnum_run in G end.
  match goal with G : hash_password _ _ = _ |- _ => apply hash_run in G as (salt & h' & -> & ->) end.
  eexists [_]. cbn [pcalls] in *. split; [f_equal; congruence|].
  eexists (Created _ _ _ _). split_and!; [done| |reflexivity|reflexivity].
  do 2 eexists. eassumption.
Qed.

Lemma row_result_after society realm c r row o new1 new2 :
  creates new1 = [] -> row_result society realm c r row o new2 -> row_result society realm c r row o (new1 ++ new2).
Proof. intros Hc. unfold row_result. by rewrite creates_app, Hc. Qed.

Lemma import_row_run society realm c r row w o w' :
  import_row society realm c r row w = (Ok o, w') ->
  exists new, pcalls w' = pcalls w ++ new /\ row_result society realm c r row o new.
Proof.
  unfold import_row. intros E.
  assert (Hfail : forall cause, cause ∈ [": missing required field"; ": unknown flat_number '" +:+ cell (i_flat c) row +:+ "'"] ->
    row_refused c r row (bad_request ("Row " +:+ to_string (Z.of_nat r) +:+ cause))) by (intros cause; by exists cause).
  destruct (_ || _ || _).
  { m_inv. exists []. rewrite app_nil_r. split; [done|]. split; [|done].
    rewrite str_app_assoc. apply Hfail. set_solver. }
  apply M_bind_inv in E as (flat & w1 & Hflat & E).
  assert (Hw1 : exists new1, pcalls w1 = pcalls w ++ new1 /\ creates new1 = []).
  { unfold flat_id_of in Hflat. destruct (str_eqb _ "resident"); m_inv; [by eexists [_]|].
    exists []. by rewrite app_nil_r. }
  destruct Hw1 as (new1 & Hn1 & Hc1). destruct flat as [flat_id|].
  - apply M_bind_inv in E as (existing & w2 & Hq & E). apply query_inv in Hq as (h & _ & ->).
    destruct (str_empty existing); cbn [negb] in E.
    + fold (role_cell c row) in E. apply (create_subscriber_run _ _ _ _ r) in E as (new2 & Hn2 & Hres).
      exists (new1 ++ [GetDocument "subscribers" (raw_filter [("societyId", society);
                         ("email", cell (i_email c) row)]) "{}"] ++ new2).
      rewrite Hn2. cbn [pcalls]. rewrite Hn1. split; [by rewrite <- !app_assoc|].
      by apply row_result_after, row_result_after.
    + m_inv. eexists (new1 ++ [_]). rewrite Hn1. split; [by rewrite <- app_assoc|].
      by apply row_result_after.
  - m_inv. exists new1. split; [done|]. split; [|done]. rewrite str_app_assoc. apply Hfail. set_solver.
Qed.

(** The rows done, and what ended the loop. *)
Definition import_done (society realm : string) (c : Columns) (r : nat) (rows : list (list string))
    (created skipped : Z) (out rsp : string) (new : list portal_call) : Prop :=
  exists done rest accounts,
    rows = done ++ rest /\ Forall2 (row_account society realm c) done accounts
    /\ creates new = omap create_of accounts
    /\ match rest with
       | [] => rsp = import_response (created + count is_created accounts)
                       (skipped + count (fun a => negb (is_created a)) accounts)
                       (fold_left append (zip_with (row_line c) done accounts) out)
       | row :: _ => row_refused c (r + Datatypes.length done) row rsp
       end.

Lemma count_cons f a l : count f (a :: l) = (if f a then 1 else 0) + count f l.
Proof. unfold count. rewrite filter_cons. case_decide as Hf; cbn; [rewrite Hf|apply not_true_is_false in Hf; rewrite Hf]; lia. Qed.

Lemma import_done_cons society realm c r row rows created skipped out rsp new1 new2 a :
  row_account society realm c row a -> creates new1 = omap create_of [a] ->
  import_done society realm c (S r) rows (created + (if is_created a then 1 else 0))
    (skipped + (if is_created a then 0 else 1)) (out +:+ row_line c row a) rsp new2 ->
  import_done society realm c r (row :: rows) created skipped out rsp (new1 ++ new2).
Proof.
  intros Ha Hc (done & rest & accounts & -> & Hf & Hc2 & Hr).
  exists (row :: done), rest, (a :: accounts). split; [done|]. split; [by constructor|]. split.
  { rewrite creates_app, Hc, Hc2. cbn. by destruct (create_of a). }
  destruct rest as [|row2 rest].
  - rewrite Hr. cbn [zip_with fold_left]. rewrite !count_cons. f_equal; [lia|destruct (is_created a); cbn; lia].
  - cbn [Datatypes.length]. by rewrite Nat.add_succ_r.
Qed.

Lemma import_rows_run society realm c r rows created skipped out w rsp w' :
  import_rows society realm c r rows created skipped out w = (Ok rsp, w') ->
  exists new, pcalls w' = pcalls w ++ new /\ import_done society realm c r rows created skipped out rsp new.
Proof.
  revert r created skipped out w. induction rows as [|row rows IH]; intros r created skipped out w E.
  { cbn [import_rows] in E. m_inv. exists []. rewrite app_nil_r. split; [done|]. exists [], [], []. split_and!; try done.
    cbn. by rewrite !Z.add_0_r. }
  cbn [import_rows] in E. apply M_bind_inv in E as (o & w1 & Hrow & E).
  apply import_row_run in Hrow as (new1 & Hn1 & Hres). destruct o as [err|line|line]; cbn [row_result] in Hres.
  - m_inv. destruct Hres as [Href Hc]. exists new1. split; [done|]. exists [], (row :: rows), [].
    split_and!; try done. by rewrite Nat.add_0_r.
  - destruct Hres as [-> Hc]. apply IH in E as (new2 & Hn2 & Hd). exists (new1 ++ new2).
    split; [by rewrite Hn2, Hn1, app_assoc|]. apply (import_done_cons _ _ _ _ _ _ _ _ _ _ _ _ Skipped); [done|exact Hc|]. cbn [is_created].
    by rewrite Z.add_0_r.
  - destruct Hres as (a & Hcr & Ha & -> & Hc). apply IH in E as (new2 & Hn2 & Hd). exists (new1 ++ new2).
    split; [by rewrite Hn2, Hn1, app_assoc|]. apply (import_done_cons _ _ _ _ _ _ _ _ _ _ _ _ a); [done| |].
    + destruct a as [|user sp pp doc]; [done|].
      destruct (creates new1) as [|x [|]]; try done. by injection Hc as ->.
    + by rewrite Hcr, Z.add_0_r.
Qed.

Ltac only_error := m_inv; eexists [_]; (split; [done|left]); (split; [done|by do 3 eexists]).

(** The import creates exactly one account for each row it reports as created and none
    for the others, and every line of the credentials file belongs to its account: the
    stored SIP digest and password hash are those of the user name and the passwords on
    the line, and the counts are in the response headers.  A row that is refused ends the
    import, but the accounts of the rows before it stay, and the answer then is only the
    row's error: their generated passwords are in no answer. *)
Theorem import_accounts req parsed w rsp w' :
  parse_http req = Ok parsed -> handle_subscriber_import_POST req w = (Ok rsp, w') ->
  exists new, pcalls w' = pcalls w ++ new
  /\ ((creates new = [] /\ exists code reason cause, rsp = response_error code reason cause)
      \/ exists realm header rows, csv_rows (m_body parsed) = header :: rows
           /\ import_done (query_param (raw_uri_with_query req) "societyId") realm (columns header) 1 rows 0 0
                credentials_header rsp new).
Proof.
  intros Hp E. unfold handle_subscriber_import_POST, parse_request in E. rewrite Hp, bind_lift_ok in E.
  cbv zeta in E. destruct (str_empty _).
  { m_inv. exists []. rewrite app_nil_r. split; [done|left]. split; [done|by do 3 eexists]. }
  apply M_bind_inv in E as (society_doc & w1 & Hq & E). apply query_inv in Hq as (h & _ & ->).
  destruct (str_empty society_doc).
  { only_error. }
  destruct (doc_realm society_doc) as [realm|].
  2:{ only_error. }
  destruct (csv_rows (m_body parsed)) as [|header [|row rows]] eqn:Hrows.
  1,2: only_error.
  destruct (has_required (columns header)); cbn [negb] in E.
  2:{ only_error. }
  apply import_rows_run in E as (new & Hn & Hd). cbn [pcalls] in Hn.
  eexists (_ :: new). rewrite Hn, <- app_assoc. split; [reflexivity|right].
  exists realm, header, (row :: rows). split; [done|].
  destruct Hd as (done & rest & accounts & ? & ? & Hc & ?). by exists done, rest, accounts.
Qed.
End BulkImport.

(** ** The theorem at work *)

Section Witness.
Definition society_doc : json := mk_obj [("_id", JStr "soc-a"); ("sipRealm", JStr "sun.pbx.local")].
Definition import_store : answers :=
  [(GetDocument "societies" (raw_filter [("_id", "soc-a")]) "{}", compact_dump society_doc);
   (GetDocument "flats" (raw_filter [("societyId", "soc-a"); ("number", "A-204")]) "{}", compact_dump society_doc)].
#[local] Instance the_env : PortalEnv Z := demo_env import_store [].
#[local] Instance the_zlib : Zlib := demo_zlib.
#[local] Instance the_crypto : PasswordCrypto := toy_crypto.
#[local] Instance the_json : JsonLib := table_json [society_doc].

(** The second row names an unknown flat: the answer is an error, and the account of the
    first row exists all the same. *)
Definition import_req : string :=
  request "POST /api/v1/subscriber/import?societyId=soc-a"
    ("flat_number,name,email" +:+ CRLF +:+ "A-204,Asha,a@x" +:+ CRLF +:+ "Z-1,Zoe,z@x" +:+ CRLF).

Lemma import_accounts_witness :
  exists rsp w', handle_subscriber_import_POST import_req demo_start = (Ok rsp, w')
    /\ str_take 12 rsp = "HTTP/1.1 400" /\ Datatypes.length (creates (pcalls w')) = 1%nat
    /\ exists new, pcalls w' = pcalls demo_start ++ new.
Proof.
  destruct (handle_subscriber_import_POST import_req demo_start) as [[rsp|e] w'] eqn:E; [|by vm_compute in E].
  exists rsp, w'. split; [done|].
  destruct (parse_http import_req) as [parsed|] eqn:Hp; [|by vm_compute in Hp].
  destruct (import_accounts import_req parsed demo_start rsp w' Hp E) as (new & Hn & _).
  split; [vm_compute in E; by injection E as <- <-|]. split; [vm_compute in E; by injection E as <- <-|by exists new].
Defined.
End Witness.
