(* ===== verification/Legacy.v ===== *)
(** The handlers that the web service inherited: accounts, inventory, documents, e-mail and
    the static files of the user interface (modules/module/webservice/src/webservice.cpp).
    The shipment handlers are in [LegacyShipment].

    They are written against [MongodbClient], also where the service runs with the remote
    client: the cast in the code is then undefined, so the definitions speak of the local
    mode.  [bsoncxx::from_json] is the class [BsonText] of [Json]; sending an e-mail is [Mailer]. *)

From S2P Require Import Prelude Json MessageParser HttpParser PasswordHash PortalEnv Portal PortalRoutes.

#[local] Open Scope Z_scope.


Record mail := mkMail {
  to_email : list string; email_subject : string; email_body : string; from_email : string; from_password : string;
  attachment : option (list (string * string)) }.
Class Mailer (H : Type) := { send_mail : mail -> H -> H }.

(** ** Responses *)

Definition common_headers : string :=
  "Connection: keep-alive" +:+ CRLF +:+ "Keep-Alive: timeout=5, max=100" +:+ CRLF
  +:+ "Access-Control-Allow-Origin: *" +:+ CRLF.
Definition content_length (body : string) : string :=
  "Content-Length: " +:+ to_string (Z.of_nat (String.length body)) +:+ CRLF.

Definition http_build_created : string :=
  "HTTP/1.1 201 Created" +:+ CRLF +:+ common_headers +:+ "Content-Length: 0" +:+ CRLF +:+ CRLF.

Definition http_build_ok (body contentType cacheControl : string) : string :=
  "HTTP/1.1 200 OK" +:+ CRLF +:+ common_headers
  +:+ (if str_empty body then "Content-Length: 0" +:+ CRLF
       else content_length body +:+ "Content-Type: " +:+ contentType +:+ CRLF)
  +:+ (if str_empty cacheControl then "" else "Cache-Control: " +:+ cacheControl +:+ CRLF)
  +:+ CRLF +:+ body.

Definition http_build_error (body status : string) : string :=
  "HTTP/1.1 " +:+ status +:+ " " +:+ CRLF +:+ common_headers
  +:+ (if str_empty body then "Content-Length: 0" +:+ CRLF +:+ CRLF
       else content_length body +:+ "Content-Type: application/json" +:+ CRLF +:+ CRLF +:+ body).

Definition build_responseOK (body : string) : string := http_build_ok body "application/json" "".
Definition build_responseERROR (body error : string) : string := http_build_error body error.

(** ** MongodbClient::from_json *)

Inductive JsonExtract := Nothing | JsonText (s : string) | JsonStrVec (l : list string) | JsonDocList (l : list (string * string)).

(** [get_utf8().value.data()], read as a C string. *)
Definition utf8_of (k : string) (doc : json) : result string :=
  match member_str k doc with Some s => Ok (c_str s) | None => Throw DbError end.
Fixpoint doc_list (l : list json) : result (list (string * string)) :=
  match l with
  | [] => Ok []
  | JObj kvs :: l' =>
      name ← utf8_of "file-name" (JObj kvs);
      content ← utf8_of "file-content" (JObj kvs);
      rest ← doc_list l'; mret ((name, content) :: rest)
  | _ :: l' => doc_list l'
  end.

Definition from_json `{!BsonText} (json_obj key : string) : result JsonExtract :=
  doc ← bson_of_json json_obj;
  match member key doc with
  | Some (JStr s) => Ok (JsonText s)
  | Some (JArr []) => Ok (JsonStrVec [])
  | Some (JArr ((JStr _ :: _) as l)) => Ok (JsonStrVec (omap (fun v => match v with JStr s => Some s | _ => None end) l))
  | Some (JArr ((JObj _ :: _) as l)) => ds ← doc_list l; mret (JsonDocList ds)
  | _ => Ok Nothing
  end.
Definition text_of (e : JsonExtract) : option string := match e with JsonText s => Some s | _ => None end.

Section Legacy.
Context {H : Type} `{!PortalEnv H} `{!Zlib} `{!JsonLib} `{!PasswordCrypto} `{!BsonText} `{!Mailer H}.
Abbreviation handler := (Portal.handler (H := H)).

(** [build_responseERROR(err.dump(), status)] over the usual three members. *)
Definition failure (cause : string) (code : Z) (status : string) : M (Portal H) string :=
  text ← lift (json_dump (mk_obj [("status", JStr "failure"); ("cause", JStr cause); ("error", JInt code)]));
  mret (build_responseERROR text status).
Definition oid_response (oid : string) : string :=
  build_responseOK ("{" +:+ quoted "oid" +:+ " : " +:+ quoted oid +:+ "}").
Definition success : M (Portal H) string :=
  text ← lift (json_dump (mk_obj [("status", JStr "success")])); mret (build_responseOK text).

(** ** Accounts *)

(** The plain password of an account replaced by its hash; [None] when there is none. *)
Definition hash_login (body : json) : M (Portal H) (option json) :=
  match member "loginCredentials" body with
  | Some (JObj lc) =>
      match member_str "accountPassword" (JObj lc) with
      | Some plain =>
          hashed ← hash_password plain;
          mret (Some (set_key "loginCredentials"
            (erase_key "accountPassword" (set_key "passwordHash" (JStr hashed) (JObj lc))) body))
      | None => mret None
      end
  | _ => mret None
  end.

Definition handle_account_login_POST : handler := fun req =>
  http ← parse_request req;
  let content := m_body http in
  if str_empty content then failure "Missing credentials" 400 "400 Bad Request" else
  match json_parse content with
  | Throw _ => failure "Invalid JSON" 400 "400 Bad Request"
  | Ok body =>
      let userId := default "" (member_str "userId" body) in
      let password := default "" (member_str "password" body) in
      if str_empty userId || str_empty password then failure "Missing userId or password" 400 "400 Bad Request" else
      filter ← lift (json_dump (mk_obj [("loginCredentials.accountCode", JStr userId)]));
      projection ← lift (json_dump (mk_obj [("_id", JBool false)]));
      record ← query (GetDocument "account" filter projection);
      if str_empty record then failure "Invalid Credentials" 401 "401 Unauthorized" else
      let authenticated :=
        match json_parse record with
        | Ok account =>
            match member "loginCredentials" account with
            | Some (JObj lc) => match member_str "passwordHash" (JObj lc) with
                                | Some hash => catch_all (verify_password password hash) false
                                | None => false
                                end
            | _ => false
            end
        | Throw _ => false
        end in
      if negb authenticated then failure "Invalid Credentials" 401 "401 Unauthorized" else
      match (account ← json_parse record;
             json_dump (match member "loginCredentials" account with
                        | Some (JObj lc) =>
                            set_key "loginCredentials"
                              (erase_key "accountPassword" (erase_key "passwordHash" (JObj lc))) account
                        | _ => account
                        end)) with
      | Ok text => mret (build_responseOK text)
      | Throw _ => failure "Internal error" 500 "500 Internal Server Error"
      end
  end.

(** The body as it is stored: unchanged when it is not JSON or has no plain password. *)
Definition account_document (content : string) : M (Portal H) string :=
  try_catch (body ← lift (json_parse content);
             hashed ← hash_login body;
             match hashed with Some body => lift (json_dump body) | None => mret content end)
    (mret content).

Definition handle_account_POST : handler := fun req =>
  http ← parse_request req;
  if str_eqb (m_uriName http) "/api/v1/account/login" then handle_account_login_POST req else
  if str_eqb (m_uriName http) "/api/v1/account/account" then
    let content := m_body http in
    _ ← lift (redact_for_log content);
    if str_empty content then mret "" else
    content ← account_document content;
    oid ← query (CreateDocument p_database "account" content);
    mret (if str_empty oid then "" else oid_response oid)
  else mret "".

Definition handle_account_GET : handler := fun req =>
  http ← parse_request req;
  if negb (str_eqb (m_uriName http) "/api/v1/account/account") then mret "" else
  projection ← lift (json_dump (mk_obj [("_id", JBool false)]));
  let userId := get "userId" http in let pwd := get "password" http in let accCode := get "accountCode" http in
  let fetch_one doc cause code :=
    filter ← lift (json_dump doc);
    record ← query (GetDocument "account" filter projection);
    if str_empty record then failure cause code "400 Bad Request" else mret (build_responseOK record) in
  if negb (str_empty userId) && negb (str_empty pwd) then
    fetch_one (mk_obj [("loginCredentials.accountCode", JStr userId); ("loginCredentials.accountPassword", JStr pwd)])
      "Invalid Credentials" 404
  else if negb (str_empty accCode) then
    fetch_one (mk_obj [("loginCredentials.accountCode", JStr accCode)]) "Invalid Account Code" 400
  else
    record ← query (GetDocumentsAll "account" projection);
    if str_empty record then failure "There's no customer record" 404 "404 Not Found" else mret (build_responseOK record).

Definition handle_account_PUT : handler := fun req =>
  http ← parse_request req;
  if negb (str_eqb (m_uriName http) "/api/v1/account/account") then mret "" else
  let accCode := get "userId" http in
  body ← lift (json_parse (m_body http));
  hashed ← hash_login body;
  let body := default body hashed in
  let query_doc := if str_empty accCode then mk_obj [] else mk_obj [("loginCredentials.accountCode", JStr accCode)] in
  filter ← lift (json_dump query_doc);
  update ← lift (json_dump (mk_obj [("$set", body)]));
  r ← query (UpdateCollection "account" filter update);
  if str_empty r then failure "Account Update Failed" 400 "400 Bad Request" else success.

(** ** Inventory and documents *)

Definition handle_inventory_POST : handler := fun req =>
  http ← parse_request req;
  if negb (str_eqb (m_uriName http) "/api/v1/inventory") || str_empty (m_body http) then mret "" else
  record ← query (CreateDocument p_database "inventory" (m_body http));
  mret (if str_empty record then "" else oid_response record).

(** A filter from the parameters that are present. *)
Definition present (kvs : list (string * string)) : json :=
  mk_obj (omap (fun kv => if str_empty kv.2 then None else Some (kv.1, JStr kv.2)) kvs).

Definition handle_inventory_GET : handler := fun req =>
  http ← parse_request req;
  if negb (str_eqb (m_uriName http) "/api/v1/inventory") then mret "" else
  filter ← lift (json_dump (present [("accountCode", get "accountCode" http); ("sku", get "sku" http)]));
  projection ← lift (json_dump (mk_obj [("_id", JBool false)]));
  record ← query (GetDocuments "inventory" filter projection);
  if str_empty record then failure "There's no Inventory Record" 404 "404 Not Found" else mret (build_responseOK record).

(** The negation of [INT_MIN], which C++ leaves undefined, wraps as compiled. *)
Definition negate_int (z : Z) : Z := if z =? - 2 ^ 31 then z else - z.
Definition handle_inventory_PUT : handler := fun req =>
  http ← parse_request req;
  if negb (str_eqb (m_uriName http) "/api/v1/inventory") then mret "" else
  qty ← lift (stoi 10 (get "qty" http));
  let delta := if str_empty (get "isUpdate" http) then negate_int qty else qty in
  filter ← lift (json_dump (present [("sku", get "sku" http); ("accountCode", get "accountCode" http)]));
  update ← lift (json_dump (mk_obj [("$inc", mk_obj [("qty", JInt delta)])]));
  r ← query (UpdateCollection "inventory" filter update);
  if str_empty r then failure "Inventory Update Failed" 400 "400 Bad Request" else success.

Definition handle_document_POST : handler := fun req =>
  http ← parse_request req;
  if negb (str_eqb (m_uriName http) "/api/v1/document") || str_empty (m_body http) then mret "" else
  v ← lift (from_json (m_body http) "corporate");
  let coll := match text_of v with Some p => p +:+ "_attachment" | None => "attachment" end in
  record ← query (CreateDocument p_database coll (m_body http));
  mret (if str_empty record then
          build_responseERROR ("{" +:+ quoted "status" +:+ " : " +:+ quoted "faiure" +:+ ", " +:+ quoted "cause" +:+ " : "
            +:+ quoted "attachment upload failed" +:+ ", " +:+ quoted "errorCode" +:+ " : 400}") "400 Bad Request"
        else oid_response record).

Definition handle_document_GET : handler := fun req =>
  http ← parse_request req;
  if negb (str_eqb (m_uriName http) "/api/v1/document") then mret "" else
  projection ← lift (json_dump (mk_obj [("_id", JBool false)]));
  let collection := get "corporate" http in
  let userId := get "userId" http in
  filter ← lift (json_dump (mk_obj (("corporate", JStr collection) ::
    (if str_empty userId then [] else [("userId", JStr userId); ("file", JStr (get "file" http))]))));
  record ← query (GetDocuments collection filter projection);
  if str_empty record then failure "Document not found" 404 "404 Not Found" else mret (build_responseOK record).

(** ** Configuration and e-mail *)

Definition handle_config_POST : handler := fun req =>
  http ← parse_request req;
  if negb (str_eqb (m_uriName http) "/api/v1/config/db") || str_empty (m_body http) then mret "" else
  _ ← lift (from_json (m_body http) "ip_address");
  port ← lift (from_json (m_body http) "port");
  _ ← lift (stoul 10 (default "" (text_of port)));
  mret "".
Definition handle_config_GET : handler := fun _ => mret "".
Definition handle_email_GET : handler := fun _ => mret "".

Definition handle_email_POST : handler := fun req =>
  http ← parse_request req;
  if negb (str_eqb (m_uriName http) "/api/v1/email") then mret "" else
  let body := m_body http in
  to ← lift (from_json body "to");
  subject ← lift (from_json body "subject");
  text ← lift (from_json body "emailbody");
  files ← lift (from_json body "files");
  from ← lift (from_json body "from");
  passwd ← lift (from_json body "passwd");
  let m := mkMail (match to with JsonStrVec l => l | _ => [] end) (default "" (text_of subject)) (default "" (text_of text))
             (default "" (text_of from)) (default "" (text_of passwd))
             (match files with JsonDocList ((_ :: _) as l) => Some l | _ => None end) in
  modify (fun w => mkPortal (send_mail m (host w)) (pcalls w)) ;;
  mret (build_responseOK ("{" +:+ quoted "status" +:+ ": " +:+ quoted "success")).

(** ** Static files *)

Definition web_root : string := "../webgui/webui".
Definition index_page : M (Portal H) string :=
  let newFile := web_root +:+ "/index.html" in
  match p_read_file newFile with
  | None => failure newFile 400 "400 Bad Request"
  | Some text => mret (http_build_ok text "text/html" "no-cache")
  end.

Definition webui_file (uri : string) : M (Portal H) string :=
  match rfind_char "." uri with
  | Some found =>
      let ext := str_drop (found + 1) uri in
      let fileName := str_drop 6 uri in
      let newFile := web_root +:+ "/" +:+ fileName in
      match p_read_file newFile with
      | None => failure newFile 400 "400 Bad Request"
      | Some text => mret (http_build_ok text (get_contentType ext) (get_cache_control fileName ext))
      end
  | None => index_page
  end.

Definition asset_file (uri : string) : M (Portal H) string :=
  mret match rfind_char "." uri with
       | Some found =>
           let ext := str_drop (found + 1) uri in
           match p_read_file (web_root +:+ uri) with
           | Some text => http_build_ok text (get_contentType ext) (get_cache_control uri ext)
           | None => build_responseOK ""
           end
       | None => build_responseOK ""
       end.
End Legacy.
