(* ===== verification/LegacyShipment.v ===== *)
(** The shipment handlers that the web service inherited, the dispatch by method, and
    [MicroService::process_request] (modules/module/webservice/src/webservice.cpp).

    The HTTPS connection to the third-party courier is the class [Courier]. *)

From S2P Require Import Prelude Json MessageParser HttpParser PasswordHash PortalEnv Portal PortalRoutes Legacy.

#[local] Open Scope Z_scope.

(** [connect], [send_n] (whether it was not negative) and [recv] ([None] when it was). *)
Class Courier (H : Type) := {
  c_connect : H -> bool * H;
  c_send : string -> H -> bool * H;
  c_recv : H -> option string * H;
}.

Definition csv_to_array (csv : string) : json := JArr (map JStr (split_on "," csv)).

Section Shipment.
Context {H : Type} `{!PortalEnv H} `{!Zlib} `{!JsonLib} `{!PasswordCrypto} `{!BsonText} `{!Mailer H} `{!Courier H}.
Abbreviation handler := (Portal.handler (H := H)).

(** ** Creating shipments *)

(** The account's prefix for generated numbers. *)
Definition awb_prefix (shipment : json) : M (Portal H) string :=
  try_catch
    match member "senderInformation" shipment with
    | None => mret "AWB"
    | Some sender =>
        accNo ← lift (value_str "accountNo" "" sender);
        if str_empty accNo then mret "AWB" else
        af ← lift (json_dump (mk_obj [("loginCredentials.accountCode", JStr accNo)]));
        ap ← lift (json_dump (mk_obj [("_id", JBool false); ("awbPrefix", JBool true)]));
        ad ← query (GetDocument "account" af ap);
        if str_empty ad then mret "AWB" else
        ja ← lift (json_parse ad);
        let p := default "" (member_str "awbPrefix" ja) in
        mret (if str_empty p then "AWB" else p)
    end (mret "AWB").

(** The number of a shipment, and the shipment with it when it was generated. *)
Definition assign_awb (shipment : json) : M (Portal H) (string * option json) :=
  auto ← lift (value_bool "isAutoGenerate" false shipment);
  if auto : bool then
    prefix ← awb_prefix shipment;
    awbno ← query (NextAwbno prefix);
    mret (awbno, Some (set_key "awbno" (JStr awbno) shipment))
  else match member "awbno" shipment with
       | Some v => awbno ← lift (get_string v); mret (awbno, None)
       | None => mret ("", None)
       end.

(** What [catch (...)] leaves of a computation. *)
Definition caught {A} (m : M (Portal H) A) : M (Portal H) (option A) :=
  try_catch (a ← m; mret (Some a)) (mret None).

Definition shipment_document (content : string) : M (Portal H) (string * string) :=
  match json_parse content with
  | Throw _ => mret ("", content)
  | Ok doc =>
      match member "shipment" doc with
      | None => mret ("", content)
      | Some shipment =>
          r ← caught (assign_awb shipment);
          mret match r with
               | None => ("", content)
               | Some (awbno, None) => (awbno, content)
               | Some (awbno, Some shipment) =>
                   (awbno, match json_dump (set_key "shipment" shipment doc) with Ok t => t | Throw _ => content end)
               end
      end
  end.

Definition create_shipment (content : string) : M (Portal H) string :=
  '(awbno, content) ← shipment_document content;
  record ← query (CreateDocument p_database "shipping" content);
  if str_empty record then mret "" else
  text ← lift (json_dump (mk_obj [("oid", JStr record); ("awbno", JStr awbno)]));
  mret (build_responseOK text).

(** The loop over the items: the numbers so far, the items with theirs, whether one was
    changed, and whether it came to its end. *)
Fixpoint bulk_awbs (items : list json) : M (Portal H) (list json * list json * bool * bool) :=
  match items with
  | [] => mret ([], [], false, true)
  | doc :: items' =>
      match member "shipment" doc with
      | None => '(nos, docs, modified, fin) ← bulk_awbs items'; mret (nos, doc :: docs, modified, fin)
      | Some shipment =>
          r ← caught (assign_awb shipment);
          match r with
          | None => mret ([], [], false, false)
          | Some (awbno, changed) =>
              let doc' := match changed with Some s => set_key "shipment" s doc | None => doc end in
              '(nos, docs, modified, fin) ← bulk_awbs items';
              mret (JStr awbno :: nos, doc' :: docs, bool_decide (is_Some changed) || modified, fin)
          end
      end
  end.

(** [body.items()], and the body with the items replaced. *)
Definition items_of (body : json) : list json :=
  match body with JArr l => l | JObj kvs => map snd kvs | JNull => [] | _ => [body] end.
Definition with_items (body : json) (docs : list json) : json :=
  match body with JArr _ => JArr docs | JObj kvs => JObj (zip (map fst kvs) docs) | _ => body end.

Definition bulk_document (content : string) : M (Portal H) (list json * string) :=
  match json_parse content with
  | Throw _ => mret ([], content)
  | Ok body =>
      '(nos, docs, modified, fin) ← bulk_awbs (items_of body);
      mret (nos, if (modified && fin) : bool then
                   match json_dump (with_items body docs) with Ok t => t | Throw _ => content end
                 else content)
  end.

(** The count that [create_bulk_document] answers. *)
Definition count_of (s : string) : Z := match stoi 10 s with Ok n => n | Throw _ => 0 end.

Definition create_bulk (content : string) : M (Portal H) string :=
  '(nos, content) ← bulk_document content;
  r ← query (CreateBulk p_database "shipping" content);
  if count_of r =? 0 then failure "Bulk Shipment Creation Failed" 400 "400 Bad Request" else
  text ← lift (json_dump (mk_obj [("createdShipments", JInt (count_of r)); ("awbNumbers", JArr nos)]));
  mret (build_responseOK text).

(** ** The courier *)

Definition courier_error (what : string) : string :=
  build_responseERROR ("{" +:+ quoted "status" +:+ " : " +:+ quoted "faiure" +:+ ", " +:+ quoted "cause" +:+ " : "
    +:+ quoted ("https://ajoul.com is " +:+ what) +:+ ", " +:+ quoted "errorCode" +:+ " : 400}") "400 Bad Request".

Definition lines (l : list string) : string := str_join "" (map (fun s => s +:+ CRLF) l).
Definition ajoul_secret : string := "uCo9GJv4BATqU0C8491tTBooqY4CMttyg8kQyu1o".
Definition authorize_request : string :=
  lines ["POST /remote/api/v1/authorize?client_secret=" +:+ ajoul_secret +:+ "&client_id=34&username=AKjHYuCAco&password="
           +:+ ajoul_secret +:+ " HTTP/1.1";
         "Host: www.ajoul.com"; "Accept: application/json"; "User-Agent: Balaagh/1.0"; "Connection: keep-alive";
         "Cache-Control: no-cache"; "Content-Type: application/x-www-form-urlencoded";
         "Content-Type: multipart/form-data; boundary=----WebKitFormBoundary7MA4YWxkTrZu0gW"; "Content-Length: 0"; ""].

Definition jkv (sep : string) (kv : string * string) : string := quoted kv.1 +:+ sep +:+ quoted kv.2.
Definition shipment_text : string :=
  "{" +:+ quoted "receiver" +:+ ":{" +:+ jkv ":" ("name", "Alaa") +:+ ","
  +:+ str_join "," (map (jkv ": ") [("country_code", "SA"); ("city_code", "RUH"); ("address", "AL Malki, Damascuss");
        ("zip_code", "1234"); ("phone", "0941951819"); ("phone2", "09419518549"); ("email", "info@quadratechsoft.com")])
  +:+ "}," +:+ quoted "sender" +:+ ": {"
  +:+ str_join "," (map (jkv ": ") [("name", "Alaa"); ("country_code", "SA"); ("city_code", "RUH");
        ("address", "Al Haram street, Giza"); ("phone", "01063396459"); ("email", "admin@quadratechsoft.com")])
  +:+ "},"
  +:+ str_join "," (map (jkv ": ") [("reference", "AB100"); ("pick_date", "2018-08-06"); ("pickup_time", "12:49");
        ("product_type", "104"); ("payment_mode", "COD"); ("parcel_quantity", "2"); ("parcel_weight", "4");
        ("service_id", "2"); ("description", "Testing Create Shipment From API"); ("sku", "423423"); ("weight_total", "20")])
  +:+ "," +:+ quoted "total_cod_amount" +:+ ": 50.9}".
Definition create_request (access_token : string) : string :=
  lines ["POST /remote/api/v1/shipment/create HTTP/1.1"; "Host: www.ajoul.com"; "Accept: application/json";
         "User-Agent: Balaagh/1.0"; "Connection: keep-alive"; "Cache-Control: no-cache"; "Content-Type: application/json";
         "Authorization: Bearer " +:+ access_token;
         "Content-Length: " +:+ to_string (Z.of_nat (String.length shipment_text)); ""] +:+ shipment_text.

(** [MongodbClient::get_access_token_for_ajoul], [get_tracking_no_for_ajoul]. *)
Definition access_token_of (body : string) : result string :=
  doc ← bson_of_json body; mret (default "" (member_str "access_token" doc)).
Definition tracking_no_of (body : string) : result string :=
  doc ← bson_of_json body;
  match member "Shipment" doc with
  | None => mret ""
  | Some (JObj sh) =>
      match member "reference" (JObj sh) with
      | Some (JStr _) => mret (default "" (member_str "TrackingNumber" doc))
      | _ => Throw DbError
      end
  | Some _ => Throw DbError
  end.

Definition on_host {A} (f : H -> A * H) : M (Portal H) A := fun w =>
  let '(a, h) := f (host w) in (Ok a, mkPortal h (pcalls w)).

Definition ajoul_shipment : M (Portal H) string :=
  connected ← on_host c_connect;
  if negb connected then mret (courier_error "not rechable") else
  sent ← on_host (c_send authorize_request);
  if negb sent then mret (courier_error "not responding") else
  r ← on_host c_recv;
  match r with
  | None => mret (courier_error "not responding to Authorize req")
  | Some rsp =>
      http ← parse_request rsp;
      token ← lift (access_token_of (m_body http));
      sent ← on_host (c_send (create_request token));
      if negb sent then mret (courier_error "not responding") else
      r ← on_host c_recv;
      match r with
      | None => throw LengthError
      | Some rsp =>
          created ← parse_request rsp;
          _ ← lift (tracking_no_of (m_body created));
          mret (build_responseOK (m_body http))
      end
  end.

Definition handle_shipment_POST : handler := fun req =>
  http ← parse_request req;
  let uri := m_uriName http in
  let content := m_body http in
  if str_eqb uri "/api/v1/shipment/shipping" then if str_empty content then mret "" else create_shipment content
  else if str_eqb uri "/api/v1/shipment/bulk/shipping" then if str_empty content then mret "" else create_bulk content
  else if str_eqb uri "/api/v1/shipment/thirdparty/ajoul" then ajoul_shipment
  else mret "".

(** ** Reading and changing shipments *)

Definition no_id : json := mk_obj [("_id", JBool false)].
Definition with_account (account : string) (kvs : list (string * json)) : json :=
  mk_obj (kvs ++ (if str_empty account then [] else [("accountCode", JStr account)])).
Definition one_of (csv : string) : json := mk_obj [("$in", csv_to_array csv)].

Definition fetch_and_respond (doc : json) (cause : string) : M (Portal H) string :=
  filter ← lift (json_dump doc);
  projection ← lift (json_dump no_id);
  record ← query (GetDocuments "shipping" filter projection);
  if str_empty record then failure cause 400 "400 Bad Request" else mret (build_responseOK record).

Definition handle_shipment_GET : handler := fun req =>
  http ← parse_request req;
  if negb (str_eqb (m_uriName http) "/api/v1/shipment/shipping") then mret "" else
  let param k := get k http in
  let given k := negb (str_empty (param k)) in
  let account := param "accountCode" in
  if given "awbNo" then
    fetch_and_respond (with_account account [("shipment.awbno", one_of (param "awbNo"))]) "Invalid AWB Bill No."
  else if given "altRefNo" then
    fetch_and_respond (with_account account [("altRefNo", one_of (param "altRefNo"))]) "Invalid ALT REF No."
  else if given "senderRefNo" then
    fetch_and_respond (with_account account [("senderRefNo", one_of (param "senderRefNo"))]) "Invalid Sender REF No."
  else if given "fromDate" && given "toDate" then
    fetch_and_respond
      (mk_obj ([("shipment.shipmentInformation.createdOn",
                   mk_obj [("$gte", JStr (param "fromDate")); ("$lte", JStr (param "toDate"))])]
               ++ (if given "accountCode" then [("shipment.senderInformation.accountNo", one_of account)] else [])
               ++ (if given "country" then [("shipment.receiverInformation.country", JStr (param "country"))] else [])))
      "Invalid input for detailed report."
  else mret "".

Definition handle_shipment_PUT : handler := fun req =>
  http ← parse_request req;
  if negb (str_eqb (m_uriName http) "/api/v1/shipment/shipping") then mret "" else
  let awbNo := get "shipmentNo" http in
  let single := negb (str_empty (get "isSingleShipment" http)) in
  let not_pod := mk_obj [("$ne", JStr "Proof of Delivery")] in
  let query_doc :=
    with_account (get "accountCode" http)
      [("shipment.awbno", if single then JStr awbNo else one_of awbNo);
       ("shipment.shipmentInformation.activity.event", not_pod)] in
  content ← lift (json_parse (m_body http));
  let doc := if single then mk_obj [("$set", content)]
             else mk_obj [("$push", mk_obj [("shipment.shipmentInformation.activity", content)])] in
  filter ← lift (json_dump query_doc);
  update ← lift (json_dump doc);
  r ← query (UpdateCollection "shipping" filter update);
  if str_empty r then failure "Shipment Update Failed" 400 "400 Bad Request" else success.

(** ** Deleting *)

Definition delete_failure (cause : string) : string :=
  "{" +:+ quoted "status" +:+ " : " +:+ quoted "faiure" +:+ ", " +:+ quoted "cause" +:+ " : " +:+ quoted cause
  +:+ ", " +:+ quoted "error" +:+ " : 400}".
Definition invalid_awb : string := build_responseERROR (delete_failure "Invalid AWB Bill No.") "400 Bad Request".
Definition account_failure (cause : string) (code : Z) : string :=
  "{" +:+ quoted "status" +:+ ":" +:+ quoted "failure" +:+ "," +:+ quoted "cause" +:+ ":" +:+ quoted cause +:+ ","
  +:+ quoted "error" +:+ ":" +:+ to_string code +:+ "}".

Definition handle_DELETE : handler := fun req =>
  http ← parse_request req;
  let uri := m_uriName http in
  if str_eqb uri "/api/v1/shipment/awblist" then
    let awbNo := get "awbList" http in
    let startDate := get "startDate" http in
    let endDate := get "endDate" http in
    if str_empty awbNo && (str_empty startDate || str_empty endDate) then mret invalid_awb else
    let document :=
      if negb (str_empty awbNo) then
        "{" +:+ quoted "shipmentNo" +:+ ": {" +:+ quoted "$in" +:+ " : ["
        +:+ str_join "," (map quoted (split_on "," awbNo)) +:+ "]}}"
      else
        "{" +:+ quoted "createdOn" +:+ ": {" +:+ quoted "$gte" +:+ " : " +:+ quoted startDate +:+ ","
        +:+ quoted "$lte" +:+ " :" +:+ quoted endDate +:+ "}}" in
    r ← query (DeleteDocument "shipping" document);
    mret (if str_empty r then invalid_awb else build_responseOK ("{" +:+ quoted "status" +:+ ": " +:+ quoted "success" +:+ "}"))
  else if str_eqb uri "/api/v1/account/account" then
    let accCode := get "accountCode" http in
    if str_empty accCode then mret (build_responseERROR (account_failure "Missing accountCode" 400) "400 Bad Request") else
    r ← query (DeleteDocument "account"
                 ("{" +:+ quoted "loginCredentials.accountCode" +:+ ":" +:+ quoted accCode +:+ "}"));
    mret (if str_empty r then build_responseERROR (account_failure "Account not found or delete failed" 404) "404 Not Found"
          else build_responseOK ("{" +:+ quoted "status" +:+ ":" +:+ quoted "success" +:+ "}"))
  else mret invalid_awb.

(** ** Dispatch by method *)

Definition handle_POST : handler := fun req =>
  http ← parse_request req;
  let under p := String.prefix p (m_uriName http) in
  if under "/api/v1/shipment" then handle_shipment_POST req
  else if under "/api/v1/config" then handle_config_POST req
  else if under "/api/v1/account" then handle_account_POST req
  else if under "/api/v1/inventory" then handle_inventory_POST req
  else if under "/api/v1/document" then handle_document_POST req
  else if under "/api/v1/email" then handle_email_POST req
  else mret (build_responseOK "").

Definition handle_GET : handler := fun req =>
  http ← parse_request req;
  let uri := m_uriName http in
  let under p := String.prefix p uri in
  if under "/api/v1/shipment" then handle_shipment_GET req
  else if under "/api/v1/inventory" then handle_inventory_GET req
  else if under "/api/v1/document" then handle_document_GET req
  else if under "/api/v1/account" then handle_account_GET req
  else if under "/webui/" then webui_file uri
  else if under "/assets/" then asset_file uri
  else if under "/" then index_page
  else mret (build_responseOK "").

Definition handle_PUT : handler := fun req =>
  http ← parse_request req;
  let under p := String.prefix p (m_uriName http) in
  if under "/api/v1/shipment" then handle_shipment_PUT req
  else if under "/api/v1/inventory" then handle_inventory_PUT req
  else if under "/api/v1/account" then handle_account_PUT req
  else mret (build_responseERROR (delete_failure "Shipment Updated Failed") "400 Bad Request").

Definition handle_OPTIONS : string :=
  "HTTP/1.1 200 OK" +:+ CRLF +:+ "Access-Control-Allow-Methods: GET, POST, OPTIONS, PUT, DELETE" +:+ CRLF
  +:+ "Access-Control-Allow-Headers: DNT, User-Agent, X-Requested-With, If-Modified-Since, Cache-Control, Content-Type, Range"
  +:+ CRLF +:+ "Access-Control-Max-Age: 1728000" +:+ CRLF +:+ "Access-Control-Allow-Origin: *" +:+ CRLF
  +:+ "Content-Type: text/plain; charset=utf-8" +:+ CRLF +:+ "Content-Length: 0" +:+ CRLF +:+ CRLF +:+ CRLF.

(** What [process_request] sends; the empty text is not sent. *)
Definition response (m_parent : option WebServer) : handler := fun req =>
  http ← parse_request req;
  rsp ← dispatch_pbx_routes m_parent req;
  if negb (str_empty rsp) then mret rsp else
  let method m := str_eqb (m_method http) m in
  if method "OPTIONS" then mret handle_OPTIONS
  else if method "GET" then handle_GET req
  else if method "POST" then handle_POST req
  else if method "PUT" then handle_PUT req
  else if method "DELETE" then handle_DELETE req
  else mret "".
End Shipment.
