(* ===== verification/LegacySpec.v ===== *)
(** What the inherited handlers guarantee, and what they do not: theorems about [Legacy] and
    [LegacyShipment]. *)

From S2P Require Import Prelude SipFrame Json MessageParser HttpParser HttpHead PasswordHash PortalEnv Portal PortalRoutes.
From S2P Require Import PortalDemo PortalSpec Legacy LegacyShipment.

#[local] Open Scope Z_scope.

Section Spec.
Context {H : Type} `{!PortalEnv H} `{!Zlib} `{!JsonLib} `{!PasswordCrypto} `{!BsonText} `{!Mailer H} `{!Courier H}.
Implicit Types (w : Portal H).

(** ** Accounts *)

(** An answer with an error status that only read the account. *)
Definition error_answer (rsp : string) : Prop := str_take 10 rsp ∈ ["HTTP/1.1 4"; "HTTP/1.1 5"].
Definition account_read (c : portal_call) : Prop :=
  match c with GetDocument "account" _ _ => True | _ => False end.

Lemma failure_inv cause code status w rsp w' :
  failure cause code status w = (Ok rsp, w') -> (exists text, rsp = build_responseERROR text status) /\ w' = w.
Proof. unfold failure. intros E. m_inv. split; [by eexists|done]. Qed.

Lemma error_answer_of text status :
  String.prefix "4" status || String.prefix "5" status = true -> error_answer (build_responseERROR text status).
Proof.
  unfold error_answer, build_responseERROR, http_build_error. destruct status as [|c s]; [done|]. cbn [String.prefix].
  intros Hc. destruct (ascii_dec "4" c) as [<-|]; [by left|]. destruct (ascii_dec "5" c) as [<-|]; [by right; left|done].
Qed.

(** The account as it is answered to its owner. *)
Definition without_secrets (account : json) : json :=
  match member "loginCredentials" account with
  | Some (JObj lc) =>
      set_key "loginCredentials" (erase_key "accountPassword" (erase_key "passwordHash" (JObj lc))) account
  | _ => account
  end.

Lemma without_secrets_member account lc :
  member "loginCredentials" account = Some (JObj lc) ->
  exists lc', member "loginCredentials" (without_secrets account) = Some (JObj lc')
    /\ obj_find "passwordHash" lc' = None /\ obj_find "accountPassword" lc' = None
    /\ forall k, k <> "passwordHash" -> k <> "accountPassword" -> obj_find k lc' = obj_find k lc.
Proof.
  intros Hm. unfold without_secrets. rewrite Hm. destruct account as [| | | | | |kvs]; try done.
  cbn [erase_key set_key member]. rewrite obj_find_set. eexists. split; [done|]. split_and!.
  - rewrite obj_find_erase_ne by done. apply obj_find_erase.
  - apply obj_find_erase.
  - intros k Hk1 Hk2. by rewrite !obj_find_erase_ne.
Qed.

(** The stored account of a user, as the database answers from [w]. *)
Definition account_record (userId : string) w (record : string) (h : H) (c : portal_call) : Prop :=
  exists filter projection,
    c = GetDocument "account" filter projection
    /\ json_dump (mk_obj [("loginCredentials.accountCode", JStr userId)]) = Ok filter
    /\ p_query c (host w) = (Ok record, h).

(** C13. The account login answers 200 only to credentials whose password the stored hash
    accepts, and the answer is the stored account without the hash and without a plain
    password; every other answer is an error, and only the account was read. *)
Theorem account_login_sound req w rsp w' :
  handle_account_login_POST req w = (Ok rsp, w') ->
  (exists http body userId password record h c account lc hash text,
     parse_http req = Ok http /\ json_parse (m_body http) = Ok body
     /\ member_str "userId" body = Some userId /\ member_str "password" body = Some password
     /\ account_record userId w record h c /\ w' = mkPortal h (pcalls w ++ [c])
     /\ json_parse record = Ok account /\ member "loginCredentials" account = Some (JObj lc)
     /\ member_str "passwordHash" (JObj lc) = Some hash /\ verify_password password hash = Ok true
     /\ json_dump (without_secrets account) = Ok text /\ rsp = build_responseOK text
     /\ exists lc', member "loginCredentials" (without_secrets account) = Some (JObj lc')
          /\ obj_find "passwordHash" lc' = None /\ obj_find "accountPassword" lc' = None)
  \/ (error_answer rsp /\ only_calls account_read w w').
Proof.
  unfold handle_account_login_POST, parse_request. intros E. m_inv.
  assert (Hfail : forall cause code status w0, failure cause code status w0 = (Ok rsp, w') ->
            String.prefix "4" status || String.prefix "5" status = true -> only_calls account_read w w0 ->
            error_answer rsp /\ only_calls account_read w w').
  { intros cause code status w0 Hf Hs Ho. apply failure_inv in Hf as [[text ->] ->]. split; [by apply error_answer_of|done]. }
  assert (Hnone : only_calls account_read w w) by reflexivity.
  destruct (str_empty _); [right; eapply Hfail; [exact E|done|assumption]|].
  destruct (json_parse (m_body _)) as [body|] eqn:Hbody; [|right; eapply Hfail; [exact E|done|assumption]].
  destruct (str_empty _ || str_empty _) eqn:Hne; [right; eapply Hfail; [exact E|done|assumption]|]. apply orb_false_iff in Hne as [Hu Hp].
  destruct (member_str "userId" body) as [userId|] eqn:Huser; [|done].
  destruct (member_str "password" body) as [password|] eqn:Hpass; [|done]. cbn [default from_option id] in *. m_inv.
  match goal with G : p_query ?q _ = (Ok ?r, ?hh) |- _ =>
    assert (Hone : only_calls account_read w (mkPortal hh (pcalls w ++ [q])))
      by (eexists; split; [done|repeat constructor]); rename r into record; rename G into Hq end.
  destruct (str_empty record); [right; eapply Hfail; [exact E|done|assumption]|].
  destruct (json_parse record) as [account|] eqn:Hrec; [|right; eapply Hfail; [exact E|done|assumption]].
  destruct (member "loginCredentials" account) as [[| | | | | |lc]|] eqn:Hlc; try (right; eapply Hfail; [exact E|done|assumption]).
  destruct (member_str "passwordHash" (JObj lc)) as [hash|] eqn:Hhash; [|right; eapply Hfail; [exact E|done|assumption]].
  destruct (verify_password password hash) as [[]|] eqn:Hv; try (right; eapply Hfail; [exact E|done|assumption]).
  cbn [catch_all negb mbind result_bind] in E. rewrite Hlc in E.
  destruct (json_dump _) as [text|] eqn:Hd in E; [|right; eapply Hfail; [exact E|done|assumption]].
  m_inv. left. do 11 eexists. split_and!; try eassumption; try reflexivity.
  - do 2 eexists. by split_and!.
  - unfold without_secrets. by rewrite Hlc.
  - destruct (without_secrets_member account lc Hlc) as (lc' & Hl1 & Hl2 & Hl3 & _). by exists lc'.
Qed.

(** The document that an account with a plain password is stored as. *)
Definition hashed_account (body : json) (lc : list (string * json)) (plain salt : string) : json :=
  set_key "loginCredentials"
    (erase_key "accountPassword" (set_key "passwordHash" (JStr (hash_with_salt plain salt)) (JObj lc))) body.

Lemma hashed_account_member kvs lc plain salt :
  exists lc', member "loginCredentials" (hashed_account (JObj kvs) lc plain salt) = Some (JObj lc')
    /\ obj_find "accountPassword" lc' = None /\ obj_find "passwordHash" lc' = Some (JStr (hash_with_salt plain salt)).
Proof.
  unfold hashed_account. cbn [set_key erase_key member]. rewrite obj_find_set. eexists. split; [done|]. split.
  - apply obj_find_erase.
  - rewrite obj_find_erase_ne by done. apply obj_find_set.
Qed.

(** An account that is created with a plain password is stored with the password's hash
    under a fresh salt and without the password; the rest of the body is stored as it was
    sent. *)
Theorem account_stored_hashed req http w kvs lc plain text rsp w' :
  parse_http req = Ok http -> m_uriName http = "/api/v1/account/account" -> m_body http <> "" ->
  json_parse (m_body http) = Ok (JObj kvs) -> obj_find "loginCredentials" kvs = Some (JObj lc) ->
  obj_find "accountPassword" lc = Some (JStr plain) ->
  json_dump (hashed_account (JObj kvs) lc plain (p_salt (host w)).1) = Ok text ->
  handle_account_POST req w = (Ok rsp, w') ->
  pcalls w' = pcalls w ++ [CreateDocument p_database "account" text]
  /\ (exists lc', member "loginCredentials" (hashed_account (JObj kvs) lc plain (p_salt (host w)).1) = Some (JObj lc')
      /\ obj_find "accountPassword" lc' = None
      /\ obj_find "passwordHash" lc' = Some (JStr (hash_with_salt plain (p_salt (host w)).1)))
  /\ forall k, k <> "loginCredentials" ->
       member k (hashed_account (JObj kvs) lc plain (p_salt (host w)).1) = obj_find k kvs.
Proof.
  intros Hp Hu Hne Hj Hlc Hpw Hd. unfold handle_account_POST, parse_request. rewrite Hp, bind_lift_ok, Hu.
  apply str_empty_false in Hne. rewrite Hne. cbn [str_eqb]. intros E.
  split; [|split; [apply hashed_account_member|intros k Hk; cbn [hashed_account set_key member]; by apply obj_find_set_ne]].
  change (str_eqb "/api/v1/account/account" "/api/v1/account/login") with false in E.
  change (str_eqb "/api/v1/account/account" "/api/v1/account/account") with true in E. cbv iota in E. m_inv.
  match goal with G : account_document _ _ = (Ok ?c, ?v) |- _ =>
    assert (Hc : c = text /\ pcalls v = pcalls w) end.
  { match goal with G : account_document _ _ = _ |- _ => revert G end.
    unfold account_document, try_catch. rewrite Hj, bind_lift_ok. unfold hash_login. cbn [member]. rewrite Hlc.
    unfold member_str. cbn [member]. rewrite Hpw. unfold hash_password, mbind, M_bind.
    unfold hashed_account in Hd. destruct (p_salt (host w)) as [salt h]. cbn [fst] in *. cbn. cbn in Hd.
    unfold lift. rewrite Hd. by intros [= <- <-]. }
  destruct Hc as [-> Hc]. by rewrite Hc.
Qed.

(** ** What needs no session *)

Variable m_parent : option WebServer.

Lemma bare_get_parsed path :
  no_char "?" path -> pct_decode path = Ok path -> line_ok (request_line "GET" path) ->
  exists http, parse_http (http_head [request_line "GET" path]) = Ok http
    /\ m_method http = "GET" /\ m_uriName http = path /\ m_body http = "" /\ forall k, get k http = "".
Proof.
  intros Hq Hp Hl. destruct (plain_request_parsed "GET" path [] "") as [(m & Hm & Hg) _]; try done; try (repeat constructor).
  cbn [field_lines map] in Hm. rewrite str_app_nil_r in Hm. eexists. split_and!; [exact Hm|done..].
Qed.

Lemma dispatch_none req http w :
  parse_http req = Ok http -> route (H := H) m_parent (m_method http) (m_uriName http) = None ->
  dispatch_pbx_routes m_parent req w = (Ok "", w).
Proof. intros Hp Hr. unfold dispatch_pbx_routes, parse_request. by rewrite Hp, bind_lift_ok, Hr. Qed.

(** A request that no route of the control plane owns. *)
Lemma response_legacy req http w :
  parse_http req = Ok http -> route (H := H) m_parent (m_method http) (m_uriName http) = None ->
  response m_parent req w
  = (let method m := str_eqb (m_method http) m in
     if method "OPTIONS" then mret handle_OPTIONS
     else if method "GET" then handle_GET req
     else if method "POST" then handle_POST req
     else if method "PUT" then handle_PUT req
     else if method "DELETE" then handle_DELETE req
     else mret "") w.
Proof.
  intros Hp Hr. unfold response, parse_request. rewrite Hp, bind_lift_ok.
  by rewrite (M_bind_ok _ _ _ _ _ (dispatch_none _ _ _ Hp Hr)).
Qed.

(** Every file the process can read and whose name has a dot is served to anyone: the path
    of the request is put behind the directory of the user interface as it is, with its
    [..] steps. *)
Theorem static_traversal p text w :
  let path := "/webui/../" +:+ p in
  no_char "?" path -> pct_decode path = Ok path -> line_ok (request_line "GET" path) ->
  p_read_file (web_root +:+ "//../" +:+ p) = Some text ->
  exists content_type cache,
    response m_parent (http_head [request_line "GET" path]) w = (Ok (http_build_ok text content_type cache), w).
Proof.
  intros path Hq Hp Hl Hf. destruct (bare_get_parsed path Hq Hp Hl) as (http & Hh & Hm & Hu & _).
  rewrite (response_legacy _ _ _ Hh) by (rewrite Hm, Hu; reflexivity). rewrite Hm. cbv beta zeta.
  change (str_eqb "GET" "OPTIONS") with false. change (str_eqb "GET" "GET") with true. cbv iota.
  assert (Hg : handle_GET (http_head [request_line "GET" path]) w = webui_file path w).
  { unfold handle_GET, parse_request. rewrite Hh, bind_lift_ok, Hu. reflexivity. }
  rewrite Hg. unfold webui_file.
  assert (Hdot : exists n, rfind_char "." path = Some n).
  { unfold path. destruct (rfind_char "." p) as [n|] eqn:Hn; cbn; rewrite Hn; by eexists. }
  destruct Hdot as [n ->]. change (web_root +:+ "/" +:+ str_drop 6 path) with (web_root +:+ "//../" +:+ p). rewrite Hf.
  by do 2 eexists.
Qed.

(** The accounts, with their password hashes, are listed to anyone. *)
Lemma accounts_listed_to_anyone record projection h w :
  json_dump (mk_obj [("_id", JBool false)]) = Ok projection -> record <> "" ->
  p_query (GetDocumentsAll "account" projection) (host w) = (Ok record, h) ->
  response m_parent (http_head [request_line "GET" "/api/v1/account/account"]) w
  = (Ok (build_responseOK record), mkPortal h (pcalls w ++ [GetDocumentsAll "account" projection])).
Proof.
  intros Hd Hne Hq. destruct (bare_get_parsed "/api/v1/account/account") as (http & Hh & Hm & Hu & _ & Hk); [done..|by repeat split|].
  rewrite (response_legacy _ _ _ Hh) by (rewrite Hm, Hu; reflexivity). rewrite Hm. cbv beta zeta.
  change (str_eqb "GET" "OPTIONS") with false. change (str_eqb "GET" "GET") with true. cbv iota.
  assert (Hg : handle_GET (http_head [request_line "GET" "/api/v1/account/account"]) w
               = handle_account_GET (http_head [request_line "GET" "/api/v1/account/account"]) w).
  { unfold handle_GET, parse_request. rewrite Hh, bind_lift_ok, Hu. reflexivity. }
  rewrite Hg. unfold handle_account_GET, parse_request. rewrite Hh, bind_lift_ok, Hu, Hd.
  change (negb (str_eqb "/api/v1/account/account" "/api/v1/account/account")) with false. cbv iota.
  rewrite bind_lift_ok, !Hk. cbn [str_empty negb andb]. unfold query, mbind, M_bind. rewrite Hq.
  apply str_empty_false in Hne. by rewrite Hne.
Qed.

(** A body that is not JSON throws out of the handler of an account change, and nothing
    between it and the worker's thread function catches it. *)
Lemma account_put_throws req http e w :
  parse_http req = Ok http -> m_method http = "PUT" -> m_uriName http = "/api/v1/account/account" ->
  json_parse (m_body http) = Throw e -> response m_parent req w = (Throw e, w).
Proof.
  intros Hp Hm Hu Hj. rewrite (response_legacy _ _ _ Hp) by (rewrite Hm, Hu; reflexivity). rewrite Hm. cbv beta zeta.
  change (str_eqb "PUT" "OPTIONS") with false. change (str_eqb "PUT" "GET") with false.
  change (str_eqb "PUT" "POST") with false. change (str_eqb "PUT" "PUT") with true. cbv iota.
  assert (Hg : handle_PUT req w = handle_account_PUT req w).
  { unfold handle_PUT, parse_request. rewrite Hp, bind_lift_ok, Hu. reflexivity. }
  rewrite Hg. unfold handle_account_PUT, parse_request. rewrite Hp, bind_lift_ok, Hu, Hj.
  change (negb (str_eqb "/api/v1/account/account" "/api/v1/account/account")) with false. reflexivity.
Qed.
End Spec.

(** ** Examples *)

Section Witnesses.
#[local] Instance the_zlib : Zlib := demo_zlib.
#[local] Instance the_crypto : PasswordCrypto := toy_crypto.

Definition login_body : json := mk_obj [("userId", JStr "acc-1"); ("password", JStr "pw")].
Definition stored_account : json :=
  mk_obj [("name", JStr "Asha");
          ("loginCredentials", mk_obj [("accountCode", JStr "acc-1"); ("passwordHash", JStr (hash_with_salt "pw" "salt"))])].
Definition new_account : json :=
  mk_obj [("name", JStr "Asha"); ("loginCredentials", mk_obj [("accountCode", JStr "acc-1"); ("accountPassword", JStr "pw")])].
#[local] Instance the_json : JsonLib := table_json [login_body; stored_account; new_account].
#[local] Instance the_bson : BsonText := {| bson_of_json := json_parse |}.
#[local] Instance the_mailer : Mailer Z := {| send_mail _ h := h |}.
#[local] Instance the_courier : Courier Z := {| c_connect h := (false, h); c_send _ h := (false, h); c_recv h := (None, h) |}.

(** The world of the control plane's examples, with one account and one file. *)
Definition account_store : answers :=
  [(GetDocument "account" (compact_dump (mk_obj [("loginCredentials.accountCode", JStr "acc-1")]))
      (compact_dump (mk_obj [("_id", JBool false)])), compact_dump stored_account)].
Definition secret_file : string := "../webgui/webui//../agent.key".
#[local] Instance the_env : PortalEnv Z :=
  let e := demo_env account_store [] in {|
    p_query := p_query (PortalEnv := e);
    p_revoke := p_revoke (PortalEnv := e);
    p_remote_disconnected := p_remote_disconnected (PortalEnv := e);
    p_database := p_database (PortalEnv := e);
    p_getenv := p_getenv (PortalEnv := e);
    p_time := p_time (PortalEnv := e);
    p_time_ms := p_time_ms (PortalEnv := e);
    p_rand_bytes := p_rand_bytes (PortalEnv := e);
    p_random_device := p_random_device (PortalEnv := e);
    p_read_file name := if str_eqb name secret_file then Some "KEY" else None;
    p_md5 := p_md5 (PortalEnv := e);
    p_hmac_sha1 := p_hmac_sha1 (PortalEnv := e);
    p_base64 := p_base64 (PortalEnv := e);
    p_salt := p_salt (PortalEnv := e);
  |}.

Definition login_request : string := request "POST /api/v1/account/login" (compact_dump login_body).

(** The right password is answered with the account without its hash. *)
Lemma account_login_sound_witness :
  exists w', handle_account_login_POST login_request demo_start
    = (Ok (build_responseOK (compact_dump (without_secrets stored_account))), w')
    /\ Datatypes.length (pcalls w') = 1%nat.
Proof.
  destruct (handle_account_login_POST login_request demo_start) as [[rsp|e] w'] eqn:E; [|by vm_compute in E].
  destruct (account_login_sound _ _ _ _ E) as [Hok|[He _]].
  - exists w'. vm_compute in E. injection E as <- <-. split; [by vm_compute|done].
  - exfalso. vm_compute in E. injection E as <- <-. unfold error_answer in He. vm_compute in He.
    inversion He as [|? ? ? He']. inversion He' as [|? ? ? He'']. inversion He''.
Defined.

Definition create_account_request : string := request "POST /api/v1/account/account" (compact_dump new_account).
Definition stored_document : string :=
  compact_dump (hashed_account new_account [("accountCode", JStr "acc-1"); ("accountPassword", JStr "pw")] "pw" "salt").
Lemma account_stored_hashed_witness :
  pcalls (handle_account_POST create_account_request demo_start).2 = [CreateDocument "pbx" "account" stored_document].
Proof.
  destruct (parse_http create_account_request) as [http|] eqn:Hp; [|by vm_compute in Hp].
  destruct (handle_account_POST create_account_request demo_start) as [[rsp|e] w'] eqn:E; [|by vm_compute in E].
  cbn [snd]. refine (proj1 (account_stored_hashed create_account_request http demo_start
    [("loginCredentials", mk_obj [("accountCode", JStr "acc-1"); ("accountPassword", JStr "pw")]); ("name", JStr "Asha")]
    [("accountCode", JStr "acc-1"); ("accountPassword", JStr "pw")] "pw" stored_document rsp w' Hp _ _ _ _ _ _ E));
    first [reflexivity|vm_compute in Hp; injection Hp as <-; by vm_compute].
Defined.

(** A key outside the directory of the user interface is served without a session. *)
Lemma static_traversal_witness :
  exists content_type cache,
    response None (http_head [request_line "GET" "/webui/../agent.key"]) demo_start
    = (Ok (http_build_ok "KEY" content_type cache), demo_start).
Proof.
  apply (static_traversal None "agent.key" "KEY" demo_start); [by vm_compute|by vm_compute| |by vm_compute].
  repeat split; by vm_compute.
Defined.
End Witnesses.
