(* ===== verification/WebServer.v ===== *)
(** The web service's process: [WebServer], [WebConnection] and the worker side of
    [MicroService] (modules/module/webservice/src/webservice.cpp).

    One reactor thread accepts connections, cuts requests out of what they send, and either
    hands the socket over (the agent's tunnel, a softphone, the database agent) or queues
    the request on a worker; the workers answer on the socket's number.  The state is the
    process with the kernel's table of open sockets, which says who is at the other end of
    a number; a step is a call of the reactor or of a worker.  An exception that leaves a
    step ends the process. *)

From S2P Require Import Prelude SipFrame Json MessageParser HttpParser HttpHead PasswordHash PortalEnv Portal PortalRoutes.
From S2P Require Import Legacy LegacyShipment WsUpgrade.

#[local] Open Scope Z_scope.

(** [::send]: how many bytes were taken, negative on an error. *)
Class WebKernel (H : Type) := { k_send : Z -> string -> H -> Z * H }.

(** A message of a worker's queue: [MB_DATA] with its context, or [MB_PCSIG]. *)
Inductive work := Request (handle : Z) (request : string) | Pill.
Record Worker := mkWorker { m_continue : bool; queue : list work }.

Record WebConnection := mkWebConnection { m_recvBuf : string; m_handedOff : bool }.

(** To whom a socket was handed over. *)
Inductive owner := ToAgentStream | ToBrowserStream (open_meta : string) | ToWsDbServer.

Inductive web_event :=
  | Wrote (handle : Z) (client : nat) (bytes : string)
  | ClosedFd (handle : Z)
  | HandedOver (handle : Z) (to : owner)
  | Queued (worker : nat) (handle : Z) (request : string)
  | Dropped (handle : Z) (request : string).

(** Which of the optional parts the process has, apart from those in [WebServer]. *)
Record Parts := mkParts { cloudTunnelEndpoint : bool; wsDbServer : bool; mongodbcInst : bool }.

Section Web.
Context {H : Type} `{!PortalEnv H} `{!Zlib} `{!JsonLib} `{!PasswordCrypto} `{!BsonText} `{!Mailer H} `{!Courier H}
  `{!Digest} `{!WebKernel H}.
Variable parts : Parts.

(** [sockets] is the kernel's table, [registered] the reactor's; [handed] are the sockets
    that another object owns. *)
Record Web := mkWeb {
  sockets : gmap Z nat;
  registered : gset Z;
  m_connectionPool : gmap Z WebConnection;
  handed : gset Z;
  m_workerPool : list Worker;
  m_currentWorker : option nat;
  server : PortalRoutes.WebServer;
  portal : Portal H;
  m_stopMe : bool;
  events : list web_event;
}.
Implicit Types (w : Web) (fd : Z).

Definition put_sockets (s : gmap Z nat) w : Web :=
  mkWeb s (registered w) (m_connectionPool w) (handed w) (m_workerPool w) (m_currentWorker w) (server w) (portal w) (m_stopMe w) (events w).
Definition put_registered (r : gset Z) w : Web :=
  mkWeb (sockets w) r (m_connectionPool w) (handed w) (m_workerPool w) (m_currentWorker w) (server w) (portal w) (m_stopMe w) (events w).
Definition put_pool (p : gmap Z WebConnection) w : Web :=
  mkWeb (sockets w) (registered w) p (handed w) (m_workerPool w) (m_currentWorker w) (server w) (portal w) (m_stopMe w) (events w).
Definition put_handed (h : gset Z) w : Web :=
  mkWeb (sockets w) (registered w) (m_connectionPool w) h (m_workerPool w) (m_currentWorker w) (server w) (portal w) (m_stopMe w) (events w).
Definition put_workers (ws : list Worker) (cur : option nat) w : Web :=
  mkWeb (sockets w) (registered w) (m_connectionPool w) (handed w) ws cur (server w) (portal w) (m_stopMe w) (events w).
Definition put_server (s : PortalRoutes.WebServer) w : Web :=
  mkWeb (sockets w) (registered w) (m_connectionPool w) (handed w) (m_workerPool w) (m_currentWorker w) s (portal w) (m_stopMe w) (events w).
Definition put_portal (p : Portal H) w : Web :=
  mkWeb (sockets w) (registered w) (m_connectionPool w) (handed w) (m_workerPool w) (m_currentWorker w) (server w) p (m_stopMe w) (events w).
Definition put_stop w : Web :=
  mkWeb (sockets w) (registered w) (m_connectionPool w) (handed w) (m_workerPool w) (m_currentWorker w) (server w) (portal w) true (events w).
Definition note (e : web_event) w : Web :=
  mkWeb (sockets w) (registered w) (m_connectionPool w) (handed w) (m_workerPool w) (m_currentWorker w) (server w) (portal w) (m_stopMe w)
    (events w ++ [e]).

(** A handler of the control plane, run on the process's database. *)
Definition in_portal {A} (m : M (Portal H) A) : M Web A := fun w =>
  let '(r, p) := m (portal w) in (r, put_portal p w).

(** ** Sockets and the reactor *)

(** [m_stream.send_n], its result unused: the bytes go to whoever is at the other end. *)
Definition send_n fd (bytes : string) w : Web :=
  match sockets w !! fd with Some client => note (Wrote fd client bytes) w | None => w end.

Definition close_fd fd w : Web := note (ClosedFd fd) (put_sockets (delete fd (sockets w)) w).

(** [WebConnection::handle_close]. *)
Definition handle_close fd (c : WebConnection) w : Web := if m_handedOff c then w else close_fd fd w.

(** [remove_handler] without [DONT_CALL]: the reactor calls [handle_close] of a handler
    that is registered. *)
Definition remove_handler fd (c : WebConnection) w : Web :=
  if decide (fd ∈ registered w) then handle_close fd c (put_registered (registered w ∖ {[fd]}) w) else w.

(** [connectionPool().erase]: the connection's destructor. *)
Definition erase fd w : Web :=
  match m_connectionPool w !! fd with
  | None => w
  | Some c =>
      let w := put_pool (delete fd (m_connectionPool w)) w in
      if m_handedOff c then w else remove_handler fd c w
  end.

(** [WebServer::handle_input] with an accepted socket, and the connection's constructor. *)
Definition accepted fd w : Web :=
  let w := erase fd w in
  put_registered (registered w ∪ {[fd]})
    (put_pool (<[fd := mkWebConnection "" false]> (m_connectionPool w)) w).

(** ** Workers *)

(** [currentWorker()]: the next worker in turn, [None] for the end of the pool. *)
Definition currentWorker (n : nat) (cur : option nat) : option nat :=
  match cur with
  | None => if (n =? 0)%nat then None else Some 0%nat
  | Some i => if (S i =? n)%nat then Some 0%nat else Some (S i)
  end.

Definition putq (i : nat) (x : work) (ws : list Worker) : list Worker :=
  alter (fun k => mkWorker (m_continue k) (queue k ++ [x])) i ws.

Definition enqueue fd (request : string) w : Web :=
  let cur := currentWorker (List.length (m_workerPool w)) (m_currentWorker w) in
  match cur with
  | Some i => note (Queued i fd request) (put_workers (putq i (Request fd request) (m_workerPool w)) cur w)
  | None => note (Dropped fd request) (put_workers (m_workerPool w) cur w)
  end.

(** ** A complete request *)

Inductive disposition :=
  | HandOver (answer : string) (to : owner)
  | Refuse (answer : string)
  | ToWorker.

Definition is_upgrade (uri : string) (http : Http) : bool :=
  str_eqb (m_method http) "GET" && str_eqb (m_uriName http) uri && negb (str_empty (get "sec-websocket-key" http)).
Definition switching (http : Http) : string := upgrade_answer (get "sec-websocket-key" http).

Definition stub_503 (extra : list string) (hint : string) : string :=
  http_head (["HTTP/1.1 503 Service Unavailable"; "Content-Length: 0"; "Connection: close"] ++ extra ++ ["X-PBX-Hint: " +:+ hint]).

Definition sip_ws_upgrade (http : Http) (request : string) : M Web disposition :=
  if negb (mongodbcInst parts) then mret (Refuse (stub_503 [] "mongo client unavailable")) else
  upgrade ← in_portal (handle_sipws_upgrade request);
  match upgrade with
  | UpgradeError error => mret (Refuse error)
  | UpgradeOk open_meta =>
      srv ← asks server;
      let agent_up := cloudTunnelEndpoint parts && tunnel_has_agent srv in
      if negb (sipBridge srv) || negb agent_up then
        mret (Refuse (stub_503 ["X-PBX-AgentConnected: " +:+ (if agent_up : bool then "yes" else "no")]
                               (if agent_up : bool then "SipBridge not wired" else "no agent connected yet")))
      else mret (HandOver (switching http) (ToBrowserStream open_meta))
  end.

(** What the loop of [handle_input] does with a request: each block parses it again. *)
Definition classify (request : string) : M Web disposition :=
  first ← (if cloudTunnelEndpoint parts then
             http ← lift (parse_http request);
             mret (if is_upgrade "/agent" http then Some (HandOver (switching http) ToAgentStream) else None)
           else mret None);
  match first with
  | Some d => mret d
  | None =>
      http ← lift (parse_http request);
      if is_upgrade "/sip-ws" http then sip_ws_upgrade http request else
      if wsDbServer parts then
        http ← lift (parse_http request);
        mret (if is_upgrade "/ws/db" http then HandOver (switching http) ToWsDbServer else ToWorker)
      else mret ToWorker
  end.

(** The hand-off: the reactor forgets the socket without closing it, the new owner takes
    it, and the connection goes. *)
Definition hand_over fd (answer : string) (to : owner) w : Web :=
  let w := send_n fd answer w in
  let w := match m_connectionPool w !! fd with
           | Some c => put_pool (<[fd := mkWebConnection (m_recvBuf c) true]> (m_connectionPool w)) w
           | None => w
           end in
  let w := put_registered (registered w ∖ {[fd]}) w in
  erase fd (note (HandedOver fd to) (put_handed (handed w ∪ {[fd]}) w)).

(** The loop over the buffer; the result is the value that [handle_input] returns. *)
Definition put_recvBuf fd (buf : string) w : Web :=
  match m_connectionPool w !! fd with
  | Some c => put_pool (<[fd := mkWebConnection buf (m_handedOff c)]> (m_connectionPool w)) w
  | None => w
  end.
Definition recvBuf fd w : string := match m_connectionPool w !! fd with Some c => m_recvBuf c | None => "" end.

Fixpoint serve (fuel : nat) fd : M Web Z :=
  match fuel with
  | O => throw OutOfFuel
  | S fuel' =>
      buf ← asks (recvBuf fd);
      if str_empty buf then mret 0 else
      let msgLen := message_length buf in
      if (msgLen =? 0) || (size_of buf <? msgLen) then mret 0 else
      let request := str_take (Z.to_nat msgLen) buf in
      modify (put_recvBuf fd (str_drop (Z.to_nat msgLen) buf)) ;;
      d ← classify request;
      match d with
      | HandOver answer to => modify (hand_over fd answer to) ;; mret 0
      | Refuse answer => modify (send_n fd answer) ;; mret (-1)
      | ToWorker => modify (enqueue fd request) ;; serve fuel' fd
      end
  end.

(** [WebConnection::handle_input] after [recv] gave bytes, and what the reactor does when
    it returns -1. *)
Definition handle_input fd (bytes : string) : M Web unit :=
  modify (fun w => put_recvBuf fd (recvBuf fd w +:+ bytes) w) ;;
  buf ← asks (recvBuf fd);
  rc ← serve (S (String.length buf)) fd;
  if rc =? -1 then
    modify (fun w => match m_connectionPool w !! fd with Some c => remove_handler fd c w | None => w end)
  else mret tt.

(** ** The worker *)

(** [::send] on a number: an error when nothing is open under it. *)
Definition sys_send fd (bytes : string) w : Z * Web :=
  match sockets w !! fd with
  | None => (-1, w)
  | Some client =>
      let '(n, h) := k_send fd bytes (host (portal w)) in
      let w := put_portal (mkPortal h (pcalls (portal w))) w in
      (n, if 0 <? n then note (Wrote fd client (str_take (Z.to_nat n) bytes)) w else w)
  end.

Definition to_i32 (z : Z) : Z := (z + 2 ^ 31) mod 2 ^ 32 - 2 ^ 31.

Fixpoint send_loop (fuel : nat) fd (rsp : string) (offset total : Z) : M Web Z :=
  match fuel with
  | O => throw OutOfFuel
  | S fuel' =>
      if negb (offset <? total) then mret 0 else fun w =>
      let '(sent, w) := sys_send fd (sub_at offset (total - offset) rsp) w in
      if sent <? 0 then (Ok (-1), w) else send_loop fuel' fd rsp (offset + sent) total w
  end.
Definition http_send fd (rsp : string) : M Web Z :=
  if str_empty rsp then mret 0 else send_loop (S (String.length rsp)) fd rsp 0 (to_i32 (size_of rsp)).

Definition process_request fd (req : string) : M Web Z :=
  srv ← asks server;
  rsp ← in_portal (response (Some srv) req);
  http_send fd rsp.

(** One round of [svc] of worker [i] whose queue is not empty. *)
Definition svc (i : nat) : M Web unit :=
  ws ← asks m_workerPool;
  match ws !! i with
  | Some (mkWorker true (Request fd req :: q)) =>
      modify (fun w => put_workers (<[i := mkWorker true q]> ws) (m_currentWorker w) w) ;;
      _ ← process_request fd req; mret tt
  | Some (mkWorker true (Pill :: q)) =>
      modify (fun w => put_workers (<[i := mkWorker false q]> ws) (m_currentWorker w) w)
  | _ => mret tt
  end.

(** ** Shutdown *)

(** [handle_signal]: the connections are dropped without a call of their [handle_close],
    the acceptor is removed, which stops the loop, and every worker gets a pill. *)
Definition handle_signal w : Web :=
  let w := put_pool ∅ (put_registered (registered w ∖ dom (m_connectionPool w)) w) in
  let w := put_stop w in
  put_workers (map (fun k => mkWorker (m_continue k) (queue k ++ [Pill])) (m_workerPool w)) (m_currentWorker w) w.

(** ** Steps *)

Inductive step_event :=
  | Accepted (fd : Z) (client : nat)
  | Received (fd : Z) (bytes : string)
  | Ended (fd : Z)
  | OwnerClosed (fd : Z)
  | Worked (i : nat)
  | ServerChanged (s : PortalRoutes.WebServer)
  | Interrupted.

(** The kernel gives a new socket a number that is not open; the reactor calls the handlers
    that are registered; an owner closes its own socket. *)
Definition enabled (e : step_event) w : Prop :=
  match e with
  | Accepted fd _ => sockets w !! fd = None /\ m_stopMe w = false
  | Received fd _ | Ended fd => fd ∈ registered w /\ m_stopMe w = false
  | OwnerClosed fd => fd ∈ handed w
  | Worked _ | ServerChanged _ | Interrupted => True
  end.

Definition step (e : step_event) : M Web unit :=
  match e with
  | Accepted fd client => modify (fun w => accepted fd (put_sockets (<[fd := client]> (sockets w)) w))
  | Received fd bytes => handle_input fd bytes
  | Ended fd => modify (erase fd)
  | OwnerClosed fd => modify (fun w => put_handed (handed w ∖ {[fd]}) (close_fd fd w))
  | Worked i => svc i
  | ServerChanged s => modify (put_server s)
  | Interrupted => modify handle_signal
  end.

(** A run whose every step is enabled and returns. *)
Inductive run : Web -> list step_event -> Web -> Prop :=
  | run_nil w : run w [] w
  | run_cons w e w1 es w2 : enabled e w -> step e w = (Ok tt, w1) -> run w1 es w2 -> run w (e :: es) w2.

(** A server with [n] workers. *)
Definition new_server (n : nat) (s : PortalRoutes.WebServer) (p : Portal H) : Web :=
  mkWeb ∅ ∅ ∅ ∅ (replicate n (mkWorker true [])) None s p false [].
End Web.
Arguments Web : clear implicits.
