(* ===== verification/WebServerSpec.v ===== *)
(** What the web service's process guarantees about its sockets and its requests: theorems
    about [WebServer]. *)

From S2P Require Import Prelude SipFrame Json MessageParser HttpParser HttpHead PasswordHash PortalEnv Portal PortalRoutes.
From S2P Require Import PortalDemo HttpSpec Legacy LegacyShipment Base64 WsConn WsUpgrade WebServer.

#[local] Open Scope Z_scope.

Section Spec.
Context {H : Type} `{!PortalEnv H} `{!Zlib} `{!JsonLib} `{!PasswordCrypto} `{!BsonText} `{!Mailer H} `{!Courier H}
  `{!Digest} `{!WebKernel H}.
Variable parts : Parts.
Implicit Types (w : Web H) (fd : Z).

(** ** Who owns a socket *)

(** A registered handler is a connection of the pool with an open socket; a connection that
    is not registered has none; a socket that was handed over is neither's. *)
Record sockets_ok w : Prop := {
  so_registered fd : fd ∈ registered w ->
    exists c, m_connectionPool w !! fd = Some c /\ m_handedOff c = false /\ is_Some (sockets w !! fd);
  so_pool fd c : m_connectionPool w !! fd = Some c -> m_handedOff c = false /\ (fd ∈ registered w \/ sockets w !! fd = None);
  so_handed fd : fd ∈ handed w -> is_Some (sockets w !! fd) /\ m_connectionPool w !! fd = None;
  so_open fd : m_stopMe w = false -> is_Some (sockets w !! fd) -> fd ∈ registered w \/ fd ∈ handed w;
}.

(** What a step leaves alone that does not touch the sockets. *)
Definition same_net w w' : Prop :=
  sockets w' = sockets w /\ registered w' = registered w /\ m_connectionPool w' = m_connectionPool w
  /\ handed w' = handed w /\ m_stopMe w' = m_stopMe w.

#[local] Instance same_net_preorder : PreOrder same_net.
Proof.
  split; [by intros w; unfold same_net|]. unfold same_net. intros w1 w2 w3 (?&?&?&?&?) (?&?&?&?&?).
  split_and!; congruence.
Qed.

Lemma same_net_ok w w' : same_net w w' -> sockets_ok w -> sockets_ok w'.
Proof.
  intros (Hs & Hr & Hp & Hh & Hm) [I1 I2 I3 I4]. split; rewrite ?Hs, ?Hr, ?Hp, ?Hh, ?Hm; assumption.
Qed.

Lemma in_portal_net {A} (m : M (Portal H) A) : preserves same_net (in_portal m).
Proof. intros w. unfold in_portal. destruct (m (portal w)). done. Qed.

Lemma classify_net request : preserves same_net (classify parts request).
Proof. unfold classify, sip_ws_upgrade. solve_preserves; apply in_portal_net. Qed.

Lemma send_n_net fd bytes w : same_net w (send_n fd bytes w).
Proof. unfold send_n. by destruct (sockets w !! fd). Qed.

Lemma enqueue_net fd request w : same_net w (enqueue fd request w).
Proof. unfold enqueue. by destruct (currentWorker _ _). Qed.

(** The buffer of a connection is no part of the bookkeeping. *)
Lemma put_recvBuf_ok fd buf w : sockets_ok w -> sockets_ok (put_recvBuf fd buf w).
Proof.
  intros [I1 I2 I3 I4]. unfold put_recvBuf. destruct (m_connectionPool w !! fd) as [c|] eqn:Hc; [|by split].
  split; cbn [sockets registered m_connectionPool handed m_stopMe put_pool].
  - intros fd' Hr. destruct (I1 _ Hr) as (c' & Hc' & Ho & Hs). destruct (decide (fd' = fd)) as [->|Hne].
    + eexists. rewrite lookup_insert_eq. split_and!; [done| |done]. cbn. by simplify_eq.
    + exists c'. by rewrite lookup_insert_ne.
  - intros fd' c' [[<- <-]|[Hne Hc']]%lookup_insert_Some; [apply (I2 _ _ Hc)|by apply I2].
  - intros fd' Hh. destruct (I3 _ Hh) as [Hs Hp]. split; [done|]. rewrite lookup_insert_None. split; [done|]. intros ->. congruence.
  - exact I4.
Qed.

Lemma put_recvBuf_registered fd buf w : registered (put_recvBuf fd buf w) = registered w.
Proof. unfold put_recvBuf. by destruct (m_connectionPool w !! fd). Qed.

(** ** The three ways a connection ends *)

Lemma hand_over_ok fd answer to w : fd ∈ registered w -> sockets_ok w -> sockets_ok (hand_over fd answer to w).
Proof.
  intros Hr Hok. unfold hand_over. pose proof (send_n_net fd answer w) as Hn. apply (same_net_ok _ _ Hn) in Hok.
  destruct Hn as (_ & Hreg & _). rewrite <- Hreg in Hr. set (v := send_n fd answer w) in *. clearbody v. clear w Hreg.
  destruct Hok as [I1 I2 I3 I4]. destruct (I1 _ Hr) as (c & Hc & Ho & Hs). rewrite Hc.
  unfold erase. cbn [m_connectionPool note put_handed put_registered put_pool]. rewrite lookup_insert_eq. cbn [m_handedOff].
  split; cbn [sockets registered m_connectionPool handed m_stopMe put_pool note put_handed put_registered].
  - intros fd' Hr'. assert (fd' <> fd) by (intros ->; apply elem_of_difference in Hr' as [_ Hx]; by apply Hx, elem_of_singleton).
    destruct (I1 fd') as (c' & Hc' & Ho' & Hs'); [set_solver|].
    exists c'. by rewrite lookup_delete_ne, lookup_insert_ne.
  - intros fd' c'. rewrite lookup_delete_Some. intros [Hne Hc']. rewrite lookup_insert_ne in Hc' by done.
    destruct (I2 _ _ Hc') as [? [?|?]]; split; auto. left. set_solver.
  - intros fd' Hh'. destruct (decide (fd' = fd)) as [->|Hne]; [by rewrite lookup_delete_eq|].
    destruct (I3 fd') as [Hs' Hp']; [set_solver|]. split; [done|]. by rewrite lookup_delete_ne, lookup_insert_ne.
  - intros fd' Hst Hs'. destruct (I4 _ Hst Hs') as [?|?]; [|set_solver]. destruct (decide (fd' = fd)) as [->|]; set_solver.
Qed.

(** Unregistering a live connection closes its socket. *)
Lemma remove_handler_ok fd c w :
  fd ∈ registered w -> m_connectionPool w !! fd = Some c -> sockets_ok w -> sockets_ok (remove_handler fd c w).
Proof.
  intros Hr Hc [I1 I2 I3 I4]. unfold remove_handler. destruct (decide _) as [_|]; [|done].
  destruct (I2 _ _ Hc) as [Ho _]. unfold handle_close. rewrite Ho.
  split; cbn [sockets registered m_connectionPool handed m_stopMe close_fd note put_sockets put_registered].
  - intros fd' Hr'. assert (fd' <> fd) by set_solver. rewrite lookup_delete_ne by done. apply I1. set_solver.
  - intros fd' c' Hc'. destruct (I2 _ _ Hc') as [Ho' Hor]. split; [done|]. destruct (decide (fd' = fd)) as [->|Hne].
    + right. apply lookup_delete_eq.
    + rewrite lookup_delete_ne by done. destruct Hor; [left; set_solver|by right].
  - intros fd' Hh'. destruct (I3 _ Hh') as [Hs' Hp']. split; [|done]. rewrite lookup_delete_ne; [done|]. intros <-. congruence.
  - intros fd' Hst. destruct (decide (fd' = fd)) as [->|Hne]; [by rewrite lookup_delete_eq; intros [? ?]|].
    rewrite lookup_delete_ne by done. intros Hs'. destruct (I4 _ Hst Hs'); [left; set_solver|by right].
Qed.

Lemma erase_sockets fd w : sockets_ok w -> sockets_ok (erase fd w).
Proof.
  intros Hok. unfold erase. destruct (m_connectionPool w !! fd) as [c|] eqn:Hc; [|done].
  destruct Hok as [I1 I2 I3 I4]. destruct (I2 _ _ Hc) as [Ho Hor]. rewrite Ho. unfold remove_handler.
  cbn [registered put_pool]. destruct (decide (fd ∈ registered w)) as [Hr|Hr].
  - unfold handle_close. rewrite Ho.
    split; cbn [sockets registered m_connectionPool handed m_stopMe close_fd note put_sockets put_registered put_pool].
    + intros fd' Hr'. assert (fd' <> fd) by set_solver. rewrite !lookup_delete_ne by done. apply I1. set_solver.
    + intros fd' c'. rewrite lookup_delete_Some. intros [Hne Hc']. destruct (I2 _ _ Hc') as [? [?|?]]; split; auto;
        rewrite lookup_delete_ne by done; [left; set_solver|by right].
    + intros fd' Hh'. destruct (I3 _ Hh') as [Hs' Hp']. assert (fd' <> fd) by (intros ->; congruence).
      by rewrite !lookup_delete_ne.
    + intros fd' Hst. destruct (decide (fd' = fd)) as [->|Hne]; [by rewrite lookup_delete_eq; intros [? ?]|].
      rewrite lookup_delete_ne by done. intros Hs'. destruct (I4 _ Hst Hs'); [left; set_solver|by right].
  - split; cbn [sockets registered m_connectionPool handed m_stopMe put_pool].
    + intros fd' Hr'. assert (fd' <> fd) by set_solver. rewrite lookup_delete_ne by done. by apply I1.
    + intros fd' c'. rewrite lookup_delete_Some. intros [Hne Hc']. by apply I2.
    + intros fd' Hh'. destruct (I3 _ Hh') as [Hs' Hp']. split; [done|]. by rewrite lookup_delete_None; right.
    + exact I4.
Qed.

(** A number that the kernel hands out again may still have a dead connection in the pool;
    dropping it does not touch the new socket. *)
Lemma accepted_net fd client w :
  sockets_ok w -> sockets w !! fd = None ->
  accepted fd (put_sockets (<[fd := client]> (sockets w)) w)
  = put_registered (registered w ∪ {[fd]})
      (put_pool (<[fd := mkWebConnection "" false]> (m_connectionPool w)) (put_sockets (<[fd := client]> (sockets w)) w)).
Proof.
  intros [I1 I2 I3 I4] Hs. assert (Hr : fd ∉ registered w).
  { intros Hr. destruct (I1 _ Hr) as (c & _ & _ & [x Hx]). congruence. }
  unfold accepted, erase. cbn [m_connectionPool put_sockets].
  destruct (m_connectionPool w !! fd) as [c|] eqn:Hc; [|done]. destruct (I2 _ _ Hc) as [Ho _]. rewrite Ho.
  unfold remove_handler. cbn [registered put_pool put_sockets]. destruct (decide _); [done|].
  unfold put_registered, put_pool, put_sockets. cbn. by rewrite insert_delete_eq.
Qed.

Lemma accepted_ok fd client w :
  sockets w !! fd = None -> sockets_ok w -> sockets_ok (accepted fd (put_sockets (<[fd := client]> (sockets w)) w)).
Proof.
  intros Hs Hok. rewrite accepted_net by done. destruct Hok as [I1 I2 I3 I4].
  split; cbn [sockets registered m_connectionPool handed m_stopMe put_pool put_sockets put_registered].
  - intros fd' Hr'. destruct (decide (fd' = fd)) as [->|Hne].
    + eexists. rewrite !lookup_insert_eq. by split_and!.
    + rewrite !lookup_insert_ne by done. apply I1. set_solver.
  - intros fd' c' [[<- <-]|[Hne Hc']]%lookup_insert_Some; [split; [done|left; set_solver]|].
    destruct (I2 _ _ Hc') as [? [?|?]]; split; auto; [left; set_solver|right]. by rewrite lookup_insert_ne.
  - intros fd' Hh'. destruct (I3 _ Hh') as [Hs' Hp']. assert (fd' <> fd) by (intros ->; rewrite Hs in Hs'; by destruct Hs').
    by rewrite !lookup_insert_ne.
  - intros fd' Hst. destruct (decide (fd' = fd)) as [->|Hne]; [left; set_solver|]. rewrite lookup_insert_ne by done.
    intros Hs'. destruct (I4 _ Hst Hs'); [left; set_solver|by right].
Qed.

(** ** Every step keeps the bookkeeping *)

Lemma serve_ok fuel fd w rc w' :
  serve parts fuel fd w = (Ok rc, w') -> fd ∈ registered w -> sockets_ok w ->
  sockets_ok w' /\ (rc = -1 -> fd ∈ registered w').
Proof.
  revert w. induction fuel as [|fuel IH]; intros w; [done|]. cbn [serve]. rewrite bind_asks. intros E Hr Hok.
  destruct (str_empty _); [by injection E as <- <-|].
  destruct (_ || _); [by injection E as <- <-|]. rewrite bind_modify in E.
  set (v := put_recvBuf fd _ w) in E.
  assert (Hv : sockets_ok v) by by apply put_recvBuf_ok.
  assert (Hvr : fd ∈ registered v) by (unfold v; by rewrite put_recvBuf_registered).
  clearbody v. apply M_bind_inv in E as (d & v1 & Hd & E).
  pose proof (classify_net (str_take (Z.to_nat (message_length (recvBuf fd w))) (recvBuf fd w)) v) as Hn.
  rewrite Hd in Hn. cbn [snd] in Hn. pose proof (same_net_ok _ _ Hn Hv) as Hv1.
  assert (Hr1 : fd ∈ registered v1) by (destruct Hn as (_ & -> & _); done).
  destruct d as [answer to|answer|]; rewrite bind_modify in E.
  - injection E as <- <-. split; [by apply hand_over_ok|done].
  - injection E as <- <-. pose proof (send_n_net fd answer v1) as Hs. split; [by apply (same_net_ok _ _ Hs)|].
    by destruct Hs as (_ & -> & _).
  - pose proof (enqueue_net fd (str_take (Z.to_nat (message_length (recvBuf fd w))) (recvBuf fd w)) v1) as Hs.
    apply (IH _ E); [by destruct Hs as (_ & -> & _)|by apply (same_net_ok _ _ Hs)].
Qed.

Lemma handle_input_ok fd bytes w w' :
  handle_input parts fd bytes w = (Ok tt, w') -> fd ∈ registered w -> sockets_ok w -> sockets_ok w'.
Proof.
  unfold handle_input. rewrite bind_modify, bind_asks. intros E Hr Hok.
  apply M_bind_inv in E as (rc & v & Hs & E). apply serve_ok in Hs as [Hv Hrc];
    [|by rewrite put_recvBuf_registered|by apply put_recvBuf_ok].
  destruct (Z.eqb_spec rc (-1)) as [->|Hne]; [|by injection E as <-]. injection E as <-.
  destruct (m_connectionPool v !! fd) as [c|] eqn:Hc; [|done]. apply remove_handler_ok; auto.
Qed.

Lemma sys_send_net fd bytes w : same_net w (sys_send fd bytes w).2.
Proof.
  unfold sys_send. destruct (sockets w !! fd) as [client|]; [|reflexivity].
  destruct (k_send fd bytes (host (portal w))) as [n h]. cbn [snd]. by destruct (0 <? n).
Qed.

Lemma send_loop_net fuel fd rsp offset total : preserves same_net (send_loop fuel fd rsp offset total).
Proof.
  revert offset. induction fuel as [|fuel IH]; intros offset w; [done|]. cbn [send_loop].
  destruct (negb _); [done|]. pose proof (sys_send_net fd (sub_at offset (total - offset) rsp) w) as Hn.
  destruct (sys_send _ _ w) as [sent w1]. cbn [snd] in Hn. destruct (sent <? 0); [done|].
  etransitivity; [exact Hn|apply IH].
Qed.

Lemma svc_net i : preserves same_net (svc i).
Proof.
  unfold svc, process_request, http_send. apply preserves_bind; [exact _|apply preserves_asks; exact _|]. intros ws.
  destruct (ws !! i) as [[[] [|[fd req|] q]]|]; try (apply preserves_ret; exact _).
  - apply preserves_bind; [exact _|by apply preserves_modify|]. intros _.
    repeat (apply preserves_bind; [exact _| |intros ?]); try (apply preserves_ret; exact _); [apply preserves_asks; exact _|apply in_portal_net|].
    destruct (str_empty _); [apply preserves_ret; exact _|apply send_loop_net].
  - by apply preserves_modify.
Qed.

Lemma step_sockets e w w' : enabled e w -> step parts e w = (Ok tt, w') -> sockets_ok w -> sockets_ok w'.
Proof.
  destruct e as [fd client|fd bytes|fd|fd|i|s|]; cbn [enabled step].
  - intros [Hs _] [= <-]. by apply accepted_ok.
  - intros [Hr _] E. by eapply handle_input_ok.
  - intros _ [= <-]. by apply erase_sockets.
  - intros Hh [= <-] [I1 I2 I3 I4]. destruct (I3 _ Hh) as [_ Hp].
    split; cbn [sockets registered m_connectionPool handed m_stopMe close_fd note put_sockets put_handed].
    + intros fd' Hr'. destruct (I1 _ Hr') as (c & Hc & Ho & Hs). exists c. rewrite lookup_delete_ne; [done|]. intros <-. congruence.
    + intros fd' c Hc. assert (fd' <> fd) by (intros ->; congruence). rewrite lookup_delete_ne by done. by apply I2.
    + intros fd' Hh'. assert (fd' <> fd) by set_solver. rewrite lookup_delete_ne by done. apply I3. set_solver.
    + intros fd' Hst. destruct (decide (fd' = fd)) as [->|Hne]; [by rewrite lookup_delete_eq; intros [? ?]|].
      rewrite lookup_delete_ne by done. intros Hs'. destruct (I4 _ Hst Hs'); [by left|right; set_solver].
  - intros _ E. pose proof (svc_net i w) as Hn. rewrite E in Hn. by apply same_net_ok.
  - intros _ [= <-]. by apply same_net_ok.
  - intros _ [= <-] [I1 I2 I3 I4]. unfold handle_signal.
    split; cbn [sockets registered m_connectionPool handed m_stopMe put_pool put_registered put_stop put_workers].
    + intros fd Hr. destruct (I1 fd) as (c & Hc & _); [set_solver|]. apply elem_of_difference in Hr as [_ Hr].
      destruct Hr. by apply elem_of_dom_2 in Hc.
    + intros fd c. by rewrite lookup_empty.
    + intros fd Hh. split; [by apply I3|apply lookup_empty].
    + done.
Qed.

Lemma new_server_sockets n s p : sockets_ok (new_server n s p).
Proof. split; cbn; try set_solver. intros fd _ [? Hx]. by rewrite lookup_empty in Hx. Qed.

Lemma run_ok w es w' : run parts w es w' -> sockets_ok w -> sockets_ok w'.
Proof. induction 1 as [|w e w1 es w2 He Hs Hr IH]; [done|]. intros Hok. by apply IH, (step_sockets e w). Qed.

(** Runs can be executed. *)
#[global] Instance enabled_dec e w : Decision (enabled e w).
Proof. destruct e; cbn; apply _. Defined.
Fixpoint exec (es : list step_event) w : option (Web H) :=
  match es with
  | [] => Some w
  | e :: es' =>
      if decide (enabled e w) then match step parts e w with (Ok tt, w1) => exec es' w1 | _ => None end else None
  end.
Lemma exec_run es w w' : exec es w = Some w' -> run parts w es w'.
Proof.
  revert w. induction es as [|e es IH]; intros w; cbn [exec]; [intros [= <-]; constructor|].
  case_decide; [|done]. destruct (step parts e w) as [[[]|] w1] eqn:E; [|done]. intros Hr. by apply (run_cons _ _ _ w1); auto.
Qed.

(** C22. However accepts, requests, hand-overs, disconnections, the workers and the owners of
    handed-over sockets interleave: every handler that the reactor holds is a connection of
    the pool with an open socket, every open socket belongs to exactly one of the reactor's
    connections and the objects it was handed to, and a socket that was handed over stays
    open and out of the pool until its owner closes it. *)
Theorem sockets_owned n s p es w :
  run parts (new_server n s p) es w ->
  (forall fd, fd ∈ registered w ->
     exists c, m_connectionPool w !! fd = Some c /\ m_handedOff c = false /\ is_Some (sockets w !! fd))
  /\ (forall fd, m_stopMe w = false -> is_Some (sockets w !! fd) ->
        (fd ∈ registered w /\ ~ fd ∈ handed w) \/ (~ fd ∈ registered w /\ fd ∈ handed w))
  /\ (forall fd, fd ∈ handed w -> is_Some (sockets w !! fd) /\ m_connectionPool w !! fd = None)
  /\ (forall fd c, m_connectionPool w !! fd = Some c -> fd ∉ registered w -> sockets w !! fd = None).
Proof.
  intros Hr. destruct (run_ok _ _ _ Hr (new_server_sockets n s p)) as [I1 I2 I3 I4]. split_and!; [done| |done|].
  - intros fd Hst Hs.
    assert (Hx : ~ (fd ∈ registered w /\ fd ∈ handed w)).
    { intros [Hreg Hh]. destruct (I1 _ Hreg) as (c & Hc & _). destruct (I3 _ Hh) as [_ Hp]. congruence. }
    destruct (I4 _ Hst Hs); [left|right]; tauto.
  - intros fd c Hc Hreg. by destruct (I2 _ _ Hc) as [_ [?|?]].
Qed.

(** ** Requests reach the workers in order *)

(** A request that is no upgrade. *)
Definition plain_request (request : string) : Prop :=
  exists http, parse_http request = Ok http /\ get "sec-websocket-key" http = "".

Lemma classify_plain request w : plain_request request -> classify parts request w = (Ok ToWorker, w).
Proof.
  intros (http & Hp & Hk). unfold classify. rewrite Hp.
  assert (Hu : forall uri, is_upgrade uri http = false).
  { intros uri. unfold is_upgrade. by rewrite Hk, andb_false_r. }
  destruct (cloudTunnelEndpoint parts); [rewrite (M_bind_ok _ _ _ None w)|rewrite (M_bind_ok _ _ _ None w)]; try done;
    try (rewrite bind_lift_ok; by rewrite Hu); rewrite bind_lift_ok, !Hu; destruct (wsDbServer parts); [|done|..];
    try done; by rewrite bind_lift_ok, Hu.
Qed.

(** Round robin: the worker of each request in turn. *)
Fixpoint deal (n : nat) (cur : option nat) (rs : list string) : list (option nat * string) :=
  match rs with
  | [] => []
  | r :: rs' => let c := currentWorker n cur in (c, r) :: deal n c rs'
  end.
Definition dealt fd (d : option nat * string) : web_event :=
  match d.1 with Some i => Queued i fd d.2 | None => Dropped fd d.2 end.
Definition deal_to fd (ws : list Worker) (d : option nat * string) : list Worker :=
  match d.1 with Some i => putq i (Request fd d.2) ws | None => ws end.

Lemma putq_length i x ws : List.length (putq i x ws) = List.length ws.
Proof. apply length_alter. Qed.

Lemma enqueue_state fd r w :
  let c := currentWorker (List.length (m_workerPool w)) (m_currentWorker w) in
  events (enqueue fd r w) = events w ++ [dealt fd (c, r)] /\ m_workerPool (enqueue fd r w) = deal_to fd (m_workerPool w) (c, r)
  /\ m_currentWorker (enqueue fd r w) = c /\ List.length (m_workerPool (enqueue fd r w)) = List.length (m_workerPool w).
Proof.
  cbv zeta. unfold enqueue, dealt, deal_to. cbn [fst snd]. destruct (currentWorker _ _) as [i|]; cbn; split_and!; try done.
  apply putq_length.
Qed.

Lemma enqueue_pool fd request w : m_connectionPool (enqueue fd request w) = m_connectionPool w.
Proof. apply enqueue_net. Qed.

Lemma serve_plain fuel fd w c rs rest :
  m_connectionPool w !! fd = Some c -> take_requests fuel (m_recvBuf c) = Some (rs, rest) ->
  Forall plain_request rs ->
  exists w1, serve parts fuel fd w = (Ok 0, w1) /\ recvBuf fd w1 = rest
    /\ events w1 = events w ++ map (dealt fd) (deal (List.length (m_workerPool w)) (m_currentWorker w) rs)
    /\ m_workerPool w1 = fold_left (deal_to fd) (deal (List.length (m_workerPool w)) (m_currentWorker w) rs) (m_workerPool w).
Proof.
  revert w c rs. induction fuel as [|fuel IH]; intros w c rs Hc; [done|]. cbn [take_requests serve]. rewrite bind_asks.
  assert (Hb : recvBuf fd w = m_recvBuf c) by (unfold recvBuf; by rewrite Hc). rewrite !Hb.
  destruct (str_empty (m_recvBuf c)).
  { intros [= <- <-] _. exists w. split_and!; [done|done|by rewrite app_nil_r|done]. }
  destruct (_ || _).
  { intros [= <- <-] _. exists w. split_and!; [done|done|by rewrite app_nil_r|done]. }
  set (len := Z.to_nat (message_length (m_recvBuf c))).
  destruct (take_requests fuel (str_drop len (m_recvBuf c))) as [[rs' rest']|] eqn:Ht; [|done].
  intros [= <- <-] Hrs. inversion_clear Hrs as [|? ? Hr Hrs']. rewrite bind_modify.
  rewrite (M_bind_ok _ _ _ _ _ (classify_plain _ _ Hr)). rewrite bind_modify.
  set (v := put_recvBuf fd (str_drop len (m_recvBuf c)) w).
  assert (Hv : v = put_pool (<[fd := mkWebConnection (str_drop len (m_recvBuf c)) (m_handedOff c)]> (m_connectionPool w)) w)
    by (unfold v, put_recvBuf; by rewrite Hc).
  destruct (enqueue_state fd (str_take len (m_recvBuf c)) v) as (He & Hw & Hcur & Hlen).
  destruct (IH (enqueue fd (str_take len (m_recvBuf c)) v) (mkWebConnection (str_drop len (m_recvBuf c)) (m_handedOff c)) rs')
    as (w1 & Hs & Hbuf & He1 & Hw1); [rewrite enqueue_pool, Hv; apply lookup_insert_eq|exact Ht|done|].
  exists w1. rewrite Hs, Hcur, Hlen, He, Hw in *. rewrite Hv in *. cbn [events m_workerPool m_currentWorker put_pool] in *.
  split_and!; [done|done| |done]. cbn [deal map]. by rewrite He1, <- app_assoc.
Qed.

(** The requests that a connection's bytes complete, in any fragmentation, are queued in
    order, each on the worker whose turn it is, and the rest stays in the buffer: nothing
    is dropped while the pool has a worker. *)
Theorem requests_dealt fd bytes w c rs rest :
  m_connectionPool w !! fd = Some c -> requests_of (m_recvBuf c +:+ bytes) = Some (rs, rest) ->
  Forall plain_request rs ->
  let turns := deal (List.length (m_workerPool w)) (m_currentWorker w) rs in
  exists w1, handle_input parts fd bytes w = (Ok tt, w1) /\ recvBuf fd w1 = rest
    /\ events w1 = events w ++ map (dealt fd) turns
    /\ m_workerPool w1 = fold_left (deal_to fd) turns (m_workerPool w)
    /\ (m_workerPool w <> [] -> Forall (fun d => is_Some d.1) turns).
Proof.
  intros Hc Hrs Hp turns. unfold handle_input. rewrite bind_modify, bind_asks.
  assert (Hb : recvBuf fd w = m_recvBuf c) by (unfold recvBuf; by rewrite Hc).
  set (v := put_recvBuf fd _ w).
  assert (Hv : v = put_pool (<[fd := mkWebConnection (m_recvBuf c +:+ bytes) (m_handedOff c)]> (m_connectionPool w)) w)
    by (unfold v, put_recvBuf; by rewrite Hc, Hb).
  assert (Hl : m_connectionPool v !! fd = Some (mkWebConnection (m_recvBuf c +:+ bytes) (m_handedOff c)))
    by (rewrite Hv; apply lookup_insert_eq).
  destruct (serve_plain (S (String.length (recvBuf fd v))) fd v _ rs rest Hl) as (w1 & Hs & Hbuf & He & Hw);
    [unfold recvBuf; by rewrite Hl|done|].
  exists w1. rewrite (M_bind_ok _ _ _ _ _ Hs), He, Hw, Hv. cbn [events m_workerPool m_currentWorker put_pool].
  split_and!; try done. intros Hne.
  assert (Hn : List.length (m_workerPool w) <> 0%nat) by (by destruct (m_workerPool w)).
  unfold turns. clear -Hn. generalize (m_currentWorker w). induction rs as [|r rs IH]; intros cur; cbn [deal]; constructor; [|apply IH].
  cbn [fst]. unfold currentWorker. destruct cur as [i|]; [by destruct (_ =? _)%nat; eexists|].
  destruct (Nat.eqb_spec (List.length (m_workerPool w)) 0); [done|by eexists].
Qed.

(** The turns go round the pool. *)
Lemma deal_round_robin n i rs k r :
  (i < n)%nat -> rs !! k = Some r -> deal n (Some i) rs !! k = Some (Some ((i + S k) mod n)%nat, r).
Proof.
  revert i k. induction rs as [|r0 rs IH]; intros i k Hi Hk; [done|]. cbn [deal currentWorker].
  assert (Hc : (if (S i =? n)%nat then Some 0%nat else Some (S i)) = Some (S i mod n)%nat).
  { destruct (Nat.eqb_spec (S i) n) as [<-|]; [by rewrite Nat.Div0.mod_same|by rewrite Nat.mod_small by lia]. }
  rewrite Hc. destruct k as [|k]; cbn in *.
  - injection Hk as ->. by rewrite Nat.add_1_r.
  - rewrite (IH _ k); [|apply Nat.mod_upper_bound; lia|done]. do 3 f_equal.
    rewrite Nat.Div0.add_mod_idemp_l. f_equal. lia.
Qed.

(** ** Answers *)

(** [send] takes at least a byte of a text that is not empty, or fails. *)
Definition send_law : Prop :=
  forall fd bytes h, bytes <> "" -> (k_send fd bytes h).1 < 0 \/ 0 < (k_send fd bytes h).1 <= size_of bytes.

Lemma sub_at_rest offset s :
  0 <= offset -> sub_at offset (size_of s - offset) s = str_drop (Z.to_nat offset) s.
Proof.
  intros Ho. unfold sub_at, substr. apply str_take_all. rewrite str_length_drop. unfold size_of. lia.
Qed.

Lemma send_loop_sends fuel fd client rsp offset w :
  send_law -> sockets w !! fd = Some client -> 0 <= offset <= size_of rsp ->
  (Z.to_nat (size_of rsp - offset) < fuel)%nat ->
  exists rc w' chunks,
    send_loop fuel fd rsp offset (size_of rsp) w = (Ok rc, w')
    /\ events w' = events w ++ map (Wrote fd client) chunks
    /\ ((rc = 0 /\ concat_str chunks = str_drop (Z.to_nat offset) rsp)
        \/ (rc = -1 /\ exists t, t <> "" /\ concat_str chunks +:+ t = str_drop (Z.to_nat offset) rsp)).
Proof.
  intros Hlaw. revert offset w. induction fuel as [|fuel IH]; intros offset w Hs Ho Hf; [lia|]. cbn [send_loop].
  destruct (Z.ltb_spec offset (size_of rsp)) as [Hlt|Hge]; cbn [negb].
  2:{ exists 0, w, []. split_and!; [done|by rewrite app_nil_r|left]. split; [done|]. cbn. symmetry. apply str_drop_all.
      unfold size_of in *. lia. }
  rewrite sub_at_rest by lia. set (tail := str_drop (Z.to_nat offset) rsp).
  assert (Hne : tail <> "").
  { intros He. apply (f_equal String.length) in He. unfold tail in He. rewrite str_length_drop in He. unfold size_of in *. cbn in He. lia. }
  unfold sys_send. rewrite Hs. pose proof (Hlaw fd tail (host (portal w)) Hne) as Hn.
  destruct (k_send fd tail (host (portal w))) as [n h]. cbn [fst] in Hn.
  destruct (Z.ltb_spec n 0) as [Hneg|Hpos].
  - destruct (Z.ltb_spec 0 n); [lia|]. exists (-1), (put_portal (mkPortal h (pcalls (portal w))) w), [].
    split_and!; [done|by rewrite app_nil_r|right]. split; [done|]. exists tail. by split.
  - destruct Hn as [?|[Hn1 Hn2]]; [lia|]. destruct (Z.ltb_spec 0 n); [|lia].
    set (w1 := note _ _).
    assert (Hl : size_of tail = size_of rsp - offset).
    { unfold tail, size_of in *. rewrite str_length_drop. lia. }
    destruct (IH (offset + n) w1) as (rc & w' & chunks & Hrun & He & Hres); [done|lia|lia|].
    exists rc, w', (str_take (Z.to_nat n) tail :: chunks). rewrite Hrun. split; [done|]. split.
    { rewrite He. cbn. by rewrite <- app_assoc. }
    assert (Hd : str_drop (Z.to_nat (offset + n)) rsp = str_drop (Z.to_nat n) tail).
    { unfold tail. rewrite str_drop_drop. f_equal. lia. }
    rewrite Hd in Hres. cbn [concat_str foldr]. fold (concat_str chunks).
    destruct Hres as [[-> Hc]|[-> (t & Ht & Hc)]]; [left|right]; (split; [done|]).
    + rewrite Hc. apply str_take_drop.
    + exists t. split; [done|]. rewrite str_app_assoc, Hc. apply str_take_drop.
Qed.

(** C26. Sending an answer ends, and with 0 exactly when the client got all of it, in order;
    otherwise the client got a strict prefix. *)
Theorem answer_sent fd client rsp w :
  send_law -> sockets w !! fd = Some client -> size_of rsp < 2 ^ 31 ->
  exists rc w' chunks,
    http_send fd rsp w = (Ok rc, w') /\ events w' = events w ++ map (Wrote fd client) chunks
    /\ ((rc = 0 /\ concat_str chunks = rsp) \/ (rc = -1 /\ exists t, t <> "" /\ concat_str chunks +:+ t = rsp)).
Proof.
  intros Hlaw Hs Hl. unfold http_send. destruct (str_empty rsp) eqn:He.
  { apply str_empty_true in He as ->. exists 0, w, []. split_and!; [done|by rewrite app_nil_r|by left]. }
  assert (Ht : to_i32 (size_of rsp) = size_of rsp).
  { unfold to_i32. rewrite Z.mod_small; [lia|]. unfold size_of in *. lia. }
  rewrite Ht. destruct (send_loop_sends (S (String.length rsp)) fd client rsp 0 w) as (rc & w' & chunks & Hr & Hev & Hres);
    [done|done|unfold size_of; lia|unfold size_of; lia|]. exists rc, w', chunks. rewrite str_drop_0 in Hres. by split_and!.
Qed.

(** ** An answer that reaches another client *)

(** A whole request that is no upgrade, on a fresh connection. *)
Lemma handle_input_one fd req w handed_off :
  m_connectionPool w !! fd = Some (mkWebConnection "" handed_off) -> req <> "" -> message_length req = size_of req ->
  plain_request req ->
  handle_input parts fd req w
  = (Ok tt, enqueue fd req (put_pool (<[fd := mkWebConnection "" handed_off]> (m_connectionPool w)) w)).
Proof.
  intros Hc Hne Hm Hp. unfold handle_input. rewrite bind_modify, bind_asks.
  assert (Hb : recvBuf fd w = "") by (unfold recvBuf; by rewrite Hc). rewrite Hb, str_app_nil_l.
  set (v := put_recvBuf fd req w).
  assert (Hv : v = put_pool (<[fd := mkWebConnection req handed_off]> (m_connectionPool w)) w)
    by (unfold v, put_recvBuf; by rewrite Hc).
  assert (Hl : m_connectionPool v !! fd = Some (mkWebConnection req handed_off)) by (rewrite Hv; apply lookup_insert_eq).
  assert (Hbv : recvBuf fd v = req) by (unfold recvBuf; by rewrite Hl). rewrite Hbv.
  assert (Hlen : (0 < String.length req)%nat) by (destruct req; [done|cbn; lia]).
  set (w2 := enqueue fd req (put_pool (<[fd := mkWebConnection "" handed_off]> (m_connectionPool w)) w)).
  assert (Hend : recvBuf fd w2 = "").
  { unfold recvBuf, w2. rewrite enqueue_pool. cbn [m_connectionPool put_pool]. by rewrite lookup_insert_eq. }
  assert (Hserve : serve parts (S (String.length req)) fd v = (Ok 0, w2)); [|by rewrite (M_bind_ok _ _ _ _ _ Hserve)].
  destruct (String.length req) as [|n] eqn:Hn; [lia|]. cbn [serve]. rewrite bind_asks, Hbv. pose proof Hne as He.
  apply str_empty_false in He. rewrite He, Hm.
  assert (Hz : (size_of req =? 0) || (size_of req <? size_of req) = false).
  { unfold size_of. rewrite Hn, Z.ltb_irrefl, orb_false_r. apply Z.eqb_neq. lia. }
  rewrite Hz. unfold size_of. rewrite Nat2Z.id, str_take_all, str_drop_all by lia.
  rewrite bind_modify, (M_bind_ok _ _ _ _ _ (classify_plain _ _ Hp)), bind_modify.
  assert (Hv2 : put_recvBuf fd "" v = put_pool (<[fd := mkWebConnection "" handed_off]> (m_connectionPool w)) w).
  { unfold put_recvBuf. rewrite Hl, Hv. unfold put_pool. cbn. by rewrite insert_insert_eq. }
  rewrite Hv2. fold w2. by rewrite bind_asks, Hend.
Qed.

Lemma http_send_whole fd client rsp w h' :
  sockets w !! fd = Some client -> rsp <> "" -> size_of rsp < 2 ^ 31 ->
  k_send fd rsp (host (portal w)) = (size_of rsp, h') ->
  http_send fd rsp w = (Ok 0, note (Wrote fd client rsp) (put_portal (mkPortal h' (pcalls (portal w))) w)).
Proof.
  intros Hs Hne Hl Hk. unfold http_send. pose proof Hne as He. apply str_empty_false in He. rewrite He.
  assert (Ht : to_i32 (size_of rsp) = size_of rsp).
  { unfold to_i32. rewrite Z.mod_small; [lia|]. unfold size_of in *. lia. }
  assert (Hpos : 0 < size_of rsp) by (unfold size_of; destruct rsp; [done|cbn; lia]).
  rewrite Ht. destruct rsp as [|a rsp']; [done|]. set (rsp := String a rsp') in *.
  change (S (String.length rsp)) with (S (S (String.length rsp'))). cbn [send_loop].
  destruct (Z.ltb_spec 0 (size_of rsp)); [|lia]. cbn [negb]. rewrite sub_at_rest by lia. cbn [Z.to_nat]. rewrite str_drop_0.
  unfold sys_send. rewrite Hs, Hk. destruct (Z.ltb_spec (size_of rsp) 0); [lia|]. destruct (Z.ltb_spec 0 (size_of rsp)); [|lia].
  rewrite Z.add_0_l, Z.ltb_irrefl. cbn [negb]. unfold size_of at 1. by rewrite Nat2Z.id, str_take_all by lia.
Qed.

Lemma erase_open fd c w :
  m_connectionPool w !! fd = Some c -> m_handedOff c = false -> fd ∈ registered w ->
  erase fd w = close_fd fd (put_registered (registered w ∖ {[fd]}) (put_pool (delete fd (m_connectionPool w)) w)).
Proof.
  intros Hc Hh Hr. unfold erase, remove_handler, handle_close. rewrite Hc, Hh. cbn [registered put_pool].
  by rewrite decide_True.
Qed.

Lemma svc_request i fd client req q w rsp p' h' :
  m_workerPool w !! i = Some (mkWorker true (Request fd req :: q)) -> sockets w !! fd = Some client ->
  response (Some (server w)) req (portal w) = (Ok rsp, p') -> rsp <> "" -> size_of rsp < 2 ^ 31 ->
  k_send fd rsp (host p') = (size_of rsp, h') ->
  svc i w = (Ok tt, note (Wrote fd client rsp)
    (put_portal (mkPortal h' (pcalls p')) (put_workers (<[i := mkWorker true q]> (m_workerPool w)) (m_currentWorker w) w))).
Proof.
  intros Hi Hs Hrsp Hne Hl Hk. unfold svc. rewrite bind_asks, Hi, bind_modify. set (v := put_workers _ _ w).
  assert (Hrun : process_request fd req v = (Ok 0, note (Wrote fd client rsp) (put_portal (mkPortal h' (pcalls p')) v)));
    [|by rewrite (M_bind_ok _ _ _ _ _ Hrun)].
  unfold process_request. rewrite bind_asks.
  assert (Hin : in_portal (response (Some (server v)) req) v = (Ok rsp, put_portal p' v)).
  { unfold in_portal. change (server v) with (server w). change (portal v) with (portal w). by rewrite Hrsp. }
  rewrite (M_bind_ok _ _ _ _ _ Hin). by rewrite (http_send_whole fd client rsp (put_portal p' v) h').
Qed.

(** C39. A worker answers on the number of the socket that the request came from.  When its
    client leaves before the worker has answered and the kernel gives the number to the
    next client, the next client gets the answer. *)
Theorem response_misdelivered s p fd req rsp p' h' :
  plain_request req -> req <> "" -> message_length req = size_of req ->
  response (Some s) req p = (Ok rsp, p') -> rsp <> "" -> size_of rsp < 2 ^ 31 ->
  k_send fd rsp (host p') = (size_of rsp, h') ->
  exists w, run parts (new_server 1 s p) [Accepted fd 1; Received fd req; Ended fd; Accepted fd 2; Worked 0] w
    /\ events w = [Queued 0 fd req; ClosedFd fd; Wrote fd 2 rsp].
Proof.
  intros Hp Hr Hm Hrsp Hne Hl Hk.
  set (c := mkWebConnection "" false).
  set (w1 := mkWeb {[fd := 1%nat]} {[fd]} {[fd := c]} ∅ [mkWorker true []] None s p false []).
  set (q := [Queued 0 fd req]).
  set (w2 := mkWeb {[fd := 1%nat]} {[fd]} {[fd := c]} ∅ [mkWorker true [Request fd req]] (Some 0%nat) s p false q).
  set (w3 := mkWeb ∅ ∅ ∅ ∅ [mkWorker true [Request fd req]] (Some 0%nat) s p false (q ++ [ClosedFd fd])).
  set (w4 := mkWeb {[fd := 2%nat]} {[fd]} {[fd := c]} ∅ [mkWorker true [Request fd req]] (Some 0%nat) s p false (q ++ [ClosedFd fd])).
  set (w5 := mkWeb {[fd := 2%nat]} {[fd]} {[fd := c]} ∅ [mkWorker true []] (Some 0%nat) s (mkPortal h' (pcalls p')) false
               (q ++ [ClosedFd fd] ++ [Wrote fd 2 rsp])).
  assert (S1 : step parts (Accepted fd 1) (new_server 1 s p) = (Ok tt, w1)).
  { cbn [step]. unfold modify. rewrite accepted_net; [|apply new_server_sockets|apply lookup_empty].
    unfold w1, new_server, put_registered, put_pool, put_sockets. cbn [sockets registered m_connectionPool handed m_workerPool
      m_currentWorker server portal m_stopMe events replicate]. by rewrite (left_id_L ∅ (∪)). }
  assert (S2 : step parts (Received fd req) w1 = (Ok tt, w2)).
  { cbn [step]. rewrite (handle_input_one _ _ _ false); [|apply lookup_singleton_eq|done..].
    assert (Hpool : m_connectionPool w1 = {[fd := c]}) by done. rewrite Hpool. unfold c. rewrite insert_singleton_eq. done. }
  assert (S3 : step parts (Ended fd) w2 = (Ok tt, w3)).
  { cbn [step]. unfold modify. rewrite (erase_open fd c); [|apply lookup_singleton_eq|done|apply elem_of_singleton_2, eq_refl].
    unfold w2, w3, close_fd, note, put_sockets, put_registered, put_pool.
    cbn [sockets registered m_connectionPool handed m_workerPool m_currentWorker server portal m_stopMe events].
    by rewrite !delete_singleton_eq, difference_diag_L. }
  assert (S4 : step parts (Accepted fd 2) w3 = (Ok tt, w4)).
  { cbn [step]. unfold modify, accepted, erase, w3, put_sockets.
    cbn [sockets registered m_connectionPool handed m_workerPool m_currentWorker server portal m_stopMe events].
    rewrite lookup_empty. unfold w4, put_registered, put_pool.
    cbn [sockets registered m_connectionPool handed m_workerPool m_currentWorker server portal m_stopMe events].
    by rewrite (left_id_L ∅ (∪)). }
  assert (S5 : step parts (Worked 0) w4 = (Ok tt, w5)).
  { cbn [step]. rewrite (svc_request 0 fd 2 req [] w4 rsp p' h'); try done. apply lookup_singleton_eq. }
  exists w5. split; [|done].
  apply (run_cons _ _ _ w1); [split; [apply lookup_empty|done]|exact S1|].
  apply (run_cons _ _ _ w2); [split; [set_solver|done]|exact S2|].
  apply (run_cons _ _ _ w3); [split; [set_solver|done]|exact S3|].
  apply (run_cons _ _ _ w4); [split; [apply lookup_empty|done]|exact S4|].
  apply (run_cons _ _ _ w5); [done|exact S5|apply run_nil].
Qed.

(** ** The agent's handshake, both ends *)

Lemma serve_hand_over fd req c w answer to :
  m_connectionPool w !! fd = Some c -> m_recvBuf c = req -> req <> "" -> message_length req = size_of req ->
  classify parts req (put_recvBuf fd "" w) = (Ok (HandOver answer to), put_recvBuf fd "" w) ->
  serve parts (S (String.length req)) fd w = (Ok 0, hand_over fd answer to (put_recvBuf fd "" w)).
Proof.
  intros Hc Hb Hne Hm Hcl. cbn [serve]. rewrite bind_asks.
  assert (Hbv : recvBuf fd w = req) by (unfold recvBuf; by rewrite Hc). rewrite Hbv. pose proof Hne as He.
  apply str_empty_false in He. rewrite He, Hm.
  assert (Hz : (size_of req =? 0) || (size_of req <? size_of req) = false).
  { rewrite Z.ltb_irrefl, orb_false_r. apply Z.eqb_neq. unfold size_of. by destruct req. }
  rewrite Hz. unfold size_of. rewrite Nat2Z.id, str_take_all, str_drop_all by lia.
  by rewrite bind_modify, (M_bind_ok _ _ _ _ _ Hcl), bind_modify.
Qed.

Lemma hand_over_log fd answer to w client :
  sockets w !! fd = Some client ->
  events (hand_over fd answer to w) = events w ++ [Wrote fd client answer; HandedOver fd to]
  /\ sockets (hand_over fd answer to w) = sockets w /\ handed (hand_over fd answer to w) = handed w ∪ {[fd]}
  /\ registered (hand_over fd answer to w) = registered w ∖ {[fd]}.
Proof.
  intros Hs. unfold hand_over, send_n. rewrite Hs. cbn [m_connectionPool note]. unfold erase.
  destruct (m_connectionPool w !! fd) as [c|] eqn:Hc; cbn [m_connectionPool note put_handed put_registered put_pool].
  - rewrite lookup_insert_eq. cbn. by rewrite <- app_assoc.
  - rewrite Hc. cbn. by rewrite <- app_assoc.
Qed.

Lemma answer_short `{!DigestLaws} key : (String.length (upgrade_answer key) <= max_headers)%nat.
Proof.
  destruct (accept_key_shape key) as (Hl & _). unfold upgrade_answer. set (k := accept_key key) in *. clearbody k.
  unfold HttpHead.field. cbn [http_head]. rewrite !str_length_app, Hl. apply Nat.leb_le. by vm_compute.
Qed.

(** The handshake of the agent's transport with the web service: whatever key the agent
    draws, the server recognises the request, answers and hands the socket over to the
    tunnel's endpoint; and the client that reads this answer accepts it, having read not a
    byte of the frames that follow. *)
Theorem agent_handshake {S} `{!NetIO S} `{!NetDial S} `{!DialStream S} `{!DigestLaws} rand host fd client w (c : Conn S) port rest :
  let '(req, key) := transport_request rand host "/agent" in
  cloudTunnelEndpoint parts = true -> rand_ok rand -> no_char CR host -> no_char LF host ->
  m_connectionPool w !! fd = Some (mkWebConnection "" false) -> fd ∈ registered w -> sockets w !! fd = Some client ->
  (net_connect host port (net c)).1 = true ->
  (net_send req (net_connect host port (net c)).2).1 = true ->
  net_stream (net_send req (net_connect host port (net c)).2).2 = upgrade_answer key +:+ rest ->
  (exists w', handle_input parts fd req w = (Ok tt, w')
     /\ events w' = events w ++ [Wrote fd client (upgrade_answer key); HandedOver fd ToAgentStream]
     /\ fd ∈ handed w' /\ ~ fd ∈ registered w' /\ sockets w' !! fd = Some client)
  /\ (exists c', dial (req, key) validate_upgrade_response host port c = (true, c')
        /\ m_handle c' = true /\ net_stream (net c') = rest).
Proof.
  unfold transport_request. set (key := random_ws_key rand). set (req := get_request _ _).
  intros Hparts Hrand Hcr Hlf Hc Hreg Hs Hcon Hsend Hstream. split.
  - pose proof (agent_request_parsed rand host "/agent" "" Hrand Hcr Hlf) as Hreq. unfold transport_request in Hreq.
    fold key req in Hreq. rewrite str_app_nil_r in Hreq.
    destruct Hreq as ((m & Hp & Hk) & Hkey & Hm); [done|by vm_compute|done|].
    assert (Hne : req <> "") by (intros He; unfold req, get_request in He; by cbn in He).
    assert (Hb : recvBuf fd w = "") by (unfold recvBuf; by rewrite Hc).
    unfold handle_input. rewrite bind_modify, bind_asks, Hb, str_app_nil_l.
    set (v := put_recvBuf fd req w).
    assert (Hl : m_connectionPool v !! fd = Some (mkWebConnection req false)).
    { unfold v, put_recvBuf. rewrite Hc. apply lookup_insert_eq. }
    assert (Hbv : recvBuf fd v = req) by (unfold recvBuf; by rewrite Hl). rewrite Hbv.
    assert (Hcl : classify parts req (put_recvBuf fd "" v)
                  = (Ok (HandOver (upgrade_answer key) ToAgentStream), put_recvBuf fd "" v)).
    { unfold classify. rewrite Hparts, (M_bind_ok _ _ _ (Some (HandOver (upgrade_answer key) ToAgentStream))
        (put_recvBuf fd "" v)); [done|]. rewrite Hp, bind_lift_ok. unfold is_upgrade, switching, get. cbn [m_method m_uriName m_tokenMap].
      rewrite Hk. apply str_empty_false in Hkey. by rewrite Hkey. }
    rewrite (M_bind_ok _ _ _ _ _ (serve_hand_over _ _ _ _ _ _ Hl eq_refl Hne Hm Hcl)).
    set (u := put_recvBuf fd "" v).
    assert (Hu : sockets u = sockets w /\ events u = events w).
    { unfold u, v, put_recvBuf. rewrite Hc. cbn. by rewrite lookup_insert_eq. }
    destruct Hu as [Hu1 Hu2]. destruct (hand_over_log fd (upgrade_answer key) ToAgentStream u client) as (He & Hsk & Hh & Hr);
      [by rewrite Hu1|].
    eexists. split; [reflexivity|]. rewrite He, Hsk, Hh, Hr, Hu1, Hu2. split_and!; try done; set_solver.
  - destruct (dial_accepted req key validate_upgrade_response host port c "HTTP/1.1 101 Switching Protocols" (answer_fields key) rest)
      as (c' & Hd & Hh & Hst & _); try done.
    + apply answer_lines.
    + apply answer_short.
    + apply answer_valid.
    + by exists c'.
Qed.
End Spec.

(** ** Examples *)

Section Witnesses.
#[local] Instance the_zlib : Zlib := demo_zlib.
#[local] Instance the_crypto : PasswordCrypto := toy_crypto.
#[local] Instance the_json : JsonLib := demo_json.
#[local] Instance the_bson : BsonText := {| bson_of_json := json_parse |}.
#[local] Instance the_mailer : Mailer Z := {| send_mail _ h := h |}.
#[local] Instance the_courier : Courier Z := {| c_connect h := (false, h); c_send _ h := (false, h); c_recv h := (None, h) |}.
#[local] Instance the_env : PortalEnv Z := demo_env demo_store demo_vars.
#[local] Instance the_digest : Digest := {| sha1 _ := str_repeat "x" 20; bio_base64 := base64_encode |}.
#[local] Instance the_digest_laws : DigestLaws.
Proof. by split. Qed.
(** A kernel that takes the whole text. *)
#[local] Instance the_kernel : WebKernel Z := {| k_send _ bytes h := (size_of bytes, h) |}.
(** A network that delivers a text to whoever dials. *)
#[local] Instance text_net : NetIO string := {|
  net_recv s := (None, s); net_send _ s := (true, s); net_close s := s; net_register s := (true, s); net_unregister s := s;
  net_schedule _ s := (None, s); net_cancel _ s := s; net_mask_key s := (0, s); net_rand_bytes _ s := (None, s) |}.
#[local] Instance text_dial : NetDial string := {|
  net_connect _ _ s := (true, s);
  net_recv1 s := match s with String c t => (Some c, t) | EmptyString => (None, s) end |}.
#[local] Program Instance text_stream : DialStream string := {| net_stream s := s |}.
Next Obligation. by intros ? c t ->. Qed.
Next Obligation. by intros ? ->. Qed.

Definition all_parts : Parts := mkParts true true true.
Definition plain_server : PortalRoutes.WebServer := PortalRoutes.mkWebServer None true false false.
Definition a_request : string := request "OPTIONS /api/v1/account/login" "".
Definition agent_upgrade : string := (transport_request None "pbx.example" "/agent").1.

Lemma a_plain_request : plain_request a_request.
Proof. eexists. split; by vm_compute. Qed.

(** A pool of two: a browser's request and an agent that is handed over. *)
Definition two_clients : list step_event :=
  [Accepted 7 1; Accepted 8 2; Received 7 a_request; Received 8 agent_upgrade; Worked 0; Ended 7; Accepted 7 3].
Lemma sockets_owned_witness :
  exists w, run all_parts (new_server 2 plain_server demo_start) two_clients w
    /\ handed w = {[8]} /\ is_Some (sockets w !! 8) /\ m_connectionPool w !! 8 = None.
Proof.
  destruct (exec all_parts two_clients (new_server 2 plain_server demo_start)) as [w|] eqn:E; [|by vm_compute in E].
  exists w. apply exec_run in E as Hrun. split; [exact Hrun|].
  assert (Hh : handed w = {[8]}) by (vm_compute in E; injection E as <-; by vm_compute). split; [done|].
  destruct (sockets_owned all_parts 2 plain_server demo_start two_clients w Hrun) as (_ & _ & Hx & _).
  apply Hx. rewrite Hh. set_solver.
Defined.

(** Two requests in one read, and the beginning of a third. *)
Lemma requests_dealt_witness :
  let w := accepted 7 (new_server 2 plain_server demo_start) in
  exists w1, handle_input all_parts 7 (a_request +:+ a_request +:+ "GET /a") w = (Ok tt, w1) /\ recvBuf 7 w1 = "GET /a"
    /\ events w1 = [Queued 0 7 a_request; Queued 1 7 a_request].
Proof.
  intros w.
  destruct (requests_dealt all_parts 7 (a_request +:+ a_request +:+ "GET /a") w (mkWebConnection "" false)
    [a_request; a_request] "GET /a") as (w1 & Hr & Hb & He & _);
    [by vm_compute|by vm_compute|repeat constructor; apply a_plain_request|].
  exists w1. split; [exact Hr|]. split; [exact Hb|]. rewrite He. by vm_compute.
Defined.

(** A kernel that takes at most 8 bytes at a time. *)
Definition slow_kernel : WebKernel Z := {| k_send _ bytes h := (Z.min 8 (size_of bytes), h) |}.
Lemma answer_sent_witness :
  let w := put_sockets {[7 := 1%nat]} (new_server 1 plain_server demo_start) in
  exists w' chunks, @http_send Z slow_kernel 7 "HTTP/1.1 200 OK" w = (Ok 0, w')
    /\ events w' = map (Wrote 7 1) chunks /\ concat_str chunks = "HTTP/1.1 200 OK".
Proof.
  intros w.
  destruct (@answer_sent Z slow_kernel 7 1 "HTTP/1.1 200 OK" w) as (rc & w' & chunks & Hr & He & Hres);
    [|by vm_compute|by vm_compute|].
  - intros fd bytes h Hne. right. cbn. unfold size_of. assert (0 < String.length bytes)%nat by (destruct bytes; [done|cbn; lia]). lia.
  - exists w', chunks. destruct Hres as [[-> Hc]|[-> _]].
    + split_and!; [exact Hr|exact He|exact Hc].
    + exfalso. apply (f_equal fst) in Hr. by vm_compute in Hr.
Defined.

Lemma response_misdelivered_witness :
  exists rsp w, run all_parts (new_server 1 plain_server demo_start)
      [Accepted 7 1; Received 7 a_request; Ended 7; Accepted 7 2; Worked 0] w
    /\ events w = [Queued 0 7 a_request; ClosedFd 7; Wrote 7 2 rsp].
Proof.
  destruct (response (Some plain_server) a_request demo_start) as [[rsp|e] p'] eqn:E; [|by vm_compute in E].
  exists rsp. vm_compute in E. injection E as <- <-.
  eapply (response_misdelivered all_parts plain_server demo_start 7 a_request);
    [apply a_plain_request|done|by vm_compute|by vm_compute|done|by vm_compute|reflexivity].
Defined.

Definition fresh_server : Web Z := accepted 7 (put_sockets {[7 := 1%nat]} (new_server 1 plain_server demo_start)).
Definition agent_key : string := (transport_request None "pbx.example" "/agent").2.
Definition agent_socket : Conn string := idle_conn (upgrade_answer agent_key +:+ "frames").
Lemma agent_handshake_witness :
  (exists w', handle_input all_parts 7 agent_upgrade fresh_server = (Ok tt, w')
     /\ events w' = [Wrote 7 1 (upgrade_answer agent_key); HandedOver 7 ToAgentStream])
  /\ (exists c', dial (agent_upgrade, agent_key) validate_upgrade_response "pbx.example" 443 agent_socket = (true, c')
        /\ net c' = "frames").
Proof.
  pose proof (agent_handshake all_parts None "pbx.example" 7 1 fresh_server agent_socket 443 "frames") as Hh.
  destruct Hh as [(w' & Hr & He & _) (c' & Hd & _ & Hs)];
    [reflexivity|exact I|vm_compute; reflexivity|vm_compute; reflexivity|vm_compute; reflexivity|set_solver
    |vm_compute; reflexivity|reflexivity|reflexivity|reflexivity|].
  split; [exists w'; exact (conj Hr He)|exists c'; exact (conj Hd Hs)].
Defined.
End Witnesses.
