(* ===== verification/Smtp.v ===== *)
(** The mail client of the web service: modules/module/email/inc/emailservice.hpp and
    src/emailservice_fsm.cpp, the parser of the server's replies, the states of the
    conversation and the text of the mail.  [SmtpSession] has the connection under it.

    A response is what one read of the socket gave.  [std::unordered_map] promises no order of
    iteration: [bucket_order] is a parameter, of which only [Permutation] is ever used.  Its key
    compares reply codes and hashes the status as well, which breaks the container's contract; the
    model keeps an entry for each code and status, as the hash table does.  Dereferencing [begin()]
    of an empty map is undefined: [Undef].  [Blocked] is a wait on a semaphore that only the
    waiting thread would release. *)

From S2P Require Import Prelude MessageParser.

#[local] Open Scope Z_scope.

Inductive outcome (A : Type) :=
  | Done (a : A)
  | Raises (e : exn)
  | Blocked
  | Undef.
Arguments Done {A} _.
Arguments Raises {A} _.
Arguments Blocked {A}.
Arguments Undef {A}.

#[global] Instance outcome_ret : MRet outcome := fun A a => Done a.
#[global] Instance outcome_bind : MBind outcome := fun A B f m =>
  match m with Done a => f a | Raises e => Raises e | Blocked => Blocked | Undef => Undef end.

(** ACE's Base64 filter, the clock, the files of the server and the hash table. *)
Class MailEnv := {
  b64_encode : string -> string;
  b64_decode : string -> option string;
  now_text : string;
  mail_file : string -> option string;
  bucket_order : forall A : Type, list A -> list A }.
Arguments bucket_order {_ A} _.
Class MailEnvLaws `{MailEnv} : Prop := {
  bucket_permutes : forall A (l : list A), Permutation (bucket_order l) l }.

(** * Data *)

Record Response := mkResponse { m_reply : Z; m_statusCode : string }.
#[global] Instance Response_eq_dec : EqDecision Response.
Proof. solve_decision. Defined.

Definition REPLY_CODE_220_Service_ready : Z := 220.
Definition REPLY_CODE_221_Service_closing_transmission_channel : Z := 221.
Definition REPLY_CODE_235_2_7_0_Authentication_succeeded : Z := 235.
Definition REPLY_CODE_250_Request_mail_action_okay_completed : Z := 250.
Definition REPLY_CODE_334_Server_challenge : Z := 334.
Definition REPLY_CODE_530_5_7_0_Authentication_needed : Z := 530.
Definition REPLY_CODE_535_5_7_8_Authentication_credentials_invalid : Z := 535.
Definition REPLY_CODE_554_Transaction_has_failed : Z := 554.

Inductive status_code :=
  | OK | TLS_NOT_SUPPORTED | END_EMAIL_TRANSACTION | REMAIN_IN_SAME_STATE | GOTO_NEXT_STATE
  | CHALLENGE_FOR_USERNAME_FAILED | CHALLENGE_FOR_PASSWORD_FAILED | BASE64_DECODING_FAILED
  | INCORRECT_LOGIN_CREDENTIALS | ERROR_END.
#[global] Instance status_code_eq_dec : EqDecision status_code.
Proof. solve_decision. Defined.

Inductive AuthSteps := AUTH_INIT | AUTH_USRNAME | AUTH_PASSWORD | AUTH_SUCCESS | AUTH_FAILURE.

(** The variant; its default is the first alternative. *)
Inductive States :=
  | GREETING | HELO | MAIL (m_authStage : AuthSteps) | RCPT | DATA | QUIT | BODY | HELP | NOOP | VRFY | EXPN | RESET.

Record Account := mkAccount {
  m_from_name : string; m_from_email : string; m_from_password : string; m_to_email : list string;
  m_email_subject : string; m_email_body : string; m_attachment : list (string * string) }.
(** The one instance of the process, as constructed. *)
Definition Account_instance : Account := mkAccount "" "" "" [] "" "" [].

Definition from_name v (a : Account) : Account :=
  mkAccount v (m_from_email a) (m_from_password a) (m_to_email a) (m_email_subject a) (m_email_body a) (m_attachment a).
Definition from_email v (a : Account) : Account :=
  mkAccount (m_from_name a) v (m_from_password a) (m_to_email a) (m_email_subject a) (m_email_body a) (m_attachment a).
Definition from_password v (a : Account) : Account :=
  mkAccount (m_from_name a) (m_from_email a) v (m_to_email a) (m_email_subject a) (m_email_body a) (m_attachment a).
Definition to_email v (a : Account) : Account :=
  mkAccount (m_from_name a) (m_from_email a) (m_from_password a) v (m_email_subject a) (m_email_body a) (m_attachment a).
Definition email_body v (a : Account) : Account :=
  mkAccount (m_from_name a) (m_from_email a) (m_from_password a) (m_to_email a) (m_email_subject a) v (m_attachment a).
Definition email_subject v (a : Account) : Account :=
  mkAccount (m_from_name a) (m_from_email a) (m_from_password a) (m_to_email a) v (m_email_body a) (m_attachment a).
Definition attachment v (a : Account) : Account :=
  mkAccount (m_from_name a) (m_from_email a) (m_from_password a) (m_to_email a) (m_email_subject a) (m_email_body a) v.

(** What [handle_email_POST] makes of the account before it starts the mail; the files are set only
    when there are some. *)
Definition prepare (to : list string) (subject body from passwd : string) (files : list (string * string)) (a : Account) : Account :=
  let a := from_password passwd (from_email from (email_body body (email_subject subject (to_email to a)))) in
  match files with [] => a | _ => attachment files a end.

(** * The replies of the server *)

(** [input.get()]. *)
Definition get_char (s : string) : option ascii * string :=
  match s with String c r => (Some c, r) | EmptyString => (None, "") end.

(** The status: to a blank, a CR or the end.  The character that ended it is returned. *)
Fixpoint read_status (s : string) : string * option ascii * string :=
  match s with
  | EmptyString => ("", None, "")
  | String c r =>
      if Ascii.eqb c " " || Ascii.eqb c CR then ("", Some c, r)
      else let '(elm, cc, rest) := read_status r in (String c elm, cc, rest)
  end.

(** The text: to a CR, which is dropped, or the end. *)
Fixpoint read_text (s : string) : string * string :=
  match s with
  | EmptyString => ("", "")
  | String c r => if Ascii.eqb c CR then ("", r) else let '(elm, rest) := read_text r in (String c elm, rest)
  end.

Abbreviation entry := (Response * string)%type.

(** [out\[Response(std::stoi(code), status)\] = text]. *)
Fixpoint assign (k : Response) (v : string) (out : list entry) : list entry :=
  match out with
  | [] => [(k, v)]
  | (k', v') :: out' => if decide (k = k') then (k, v) :: out' else (k', v') :: assign k v out'
  end.
Definition record_line (code status text : string) (out : list entry) : result (list entry) :=
  n ← stoi 10 code; mret (assign (mkResponse (u32 n) status) text out).

(** One case of the switch at a separator: a line of the reply, after its code. *)
Definition reply_line_rest (code s : string) (out : list entry) : result (list entry * string) :=
  let '(status, cc, r1) := read_status s in
  match cc with
  | None => out' ← record_line code status "" out; mret (out', r1)
  | Some _ =>
      match get_char r1 with
      | (Some c, r2) =>
          if Ascii.eqb c LF then out' ← record_line code status "" out; mret (out', r2)
          else let '(text, r3) := read_text r2 in out' ← record_line code status text out; mret (out', str_drop 1 r3)
      | (None, _) => out' ← record_line code status "" out; mret (out', "")
      end
  end.

Fixpoint parse_replies (fuel : nat) (s elm : string) (out : list entry) : result (list entry) :=
  match fuel with
  | O => Throw OutOfFuel
  | S fuel =>
      match s with
      | EmptyString => Ok out
      | String c r =>
          if Ascii.eqb c " " || Ascii.eqb c "-" then
            '(out', rest) ← reply_line_rest elm r out; parse_replies fuel rest "" out'
          else parse_replies fuel r (elm +:+ String c "") out
      end
  end.
Definition parseSmtpCommand (s : string) : result (list entry) := parse_replies (S (String.length s)) s "" [].

Section Env.
Context `{ME : MailEnv}.

Definition smtp_entries (s : string) : outcome (list entry) :=
  match parseSmtpCommand s with Ok out => Done (bucket_order out) | Throw e => Raises e end.

Definition getSmtpStatusCode (s : string) : outcome Response :=
  out ← smtp_entries s;
  match out with [] => Undef | (k, _) :: _ => Done k end.

(** Whether [find] answers an iterator that differs from [end()].  The iterator points into a map
    that is gone when the caller compares it; the end of every map of the library is the null
    iterator, so that the comparison tells what it was meant to. *)
Definition find (s what : string) : outcome bool :=
  out ← smtp_entries s;
  mret (existsb (fun kv : entry => str_eqb what (m_statusCode kv.1)) out).

Definition getBase64 (s : string) : string := b64_encode s.
Definition decode_status (s : string) : option string := b64_decode (c_str s).

(** * The mail *)

Definition getContentType (ext : string) : string :=
  let ext_is e := str_eqb ext e in
  if ext_is "pdf" then "application/pdf"
  else if ext_is "docx" || ext_is "doc" then "application/msword"
  else if ext_is "zip" then "application/zip"
  else if ext_is "gzip" then "application/x-gzip"
  else if ext_is "xls" || ext_is "xlsx" then "application/vnd.ms-excel"
  else if ext_is "pps" || ext_is "ppt" || ext_is "pptx" then "application/vnd.ms-powerpoint"
  else if ext_is "jpeg" || ext_is "jpg" || ext_is "jpe" then "image/jpeg"
  else if ext_is "mpeg" || ext_is "mpg" || ext_is "mpe" then "video/mpeg"
  else if ext_is "gif" then "image/gif"
  else if ext_is "asc" || ext_is "diff" || ext_is "c" || ext_is "log" || ext_is "patch" || ext_is "pot" || ext_is "text" || ext_is "txt" then "text/plain"
  else "application/octet-stream".

Definition extension (fname : string) : string :=
  match find_char "." fname with Some dot => str_drop (dot + 1) fname | None => "" end.

Definition attachment_part (fname : string) (size : nat) (content : string) : string :=
  "--cordoba" +:+ CRLF +:+ "Content-Transfer-Encoding: base64" +:+ CRLF
  +:+ "Content-Type: " +:+ getContentType (extension fname) +:+ CRLF
  +:+ "Content-Disposition: attachment; filename=" +:+ fname
  +:+ " ;size-parm=" +:+ to_string (Z.of_nat size) +:+ CRLF +:+ CRLF +:+ content +:+ CRLF.

Definition mail_part (f : string * string) : string :=
  let '(fname, fcontent) := f in
  if str_empty fname then "" else
  match mail_file fname with
  | None => if str_empty fcontent then "" else attachment_part fname (String.length fcontent) fcontent
  | Some contents => attachment_part fname (String.length contents) (getBase64 contents)
  end.

Definition mail_headers (acc : Account) : string :=
  "MIME-Version: 1.0" +:+ CRLF
  +:+ "From: " +:+ m_from_name acc +:+ " <" +:+ m_from_email acc +:+ ">" +:+ CRLF
  +:+ "To: " +:+ str_concat (map (fun addr => addr +:+ ";") (m_to_email acc)) +:+ CRLF
  +:+ "Subject: " +:+ m_email_subject acc +:+ CRLF
  +:+ "Date: " +:+ now_text.

Definition text_part (acc : Account) : string :=
  "Content-type: text/plain; charset=us-ascii" +:+ CRLF +:+ CRLF +:+ m_email_body acc +:+ CRLF.

Definition build_mime_message (acc : Account) : string :=
  mail_headers acc
  +:+ (match m_attachment acc with
       | [] => text_part acc
       | list => "Content-Type: multipart/mixed; boundary=cordoba" +:+ CRLF +:+ "--cordoba" +:+ CRLF +:+ text_part acc
                 +:+ str_concat (map mail_part list) +:+ "--cordoba--" +:+ CRLF
       end)
  +:+ CRLF +:+ "." +:+ CRLF.

(** * The states

    [onResponse] gets the reply, a command to fill in and a state to fill in, both fresh: the
    command is empty and the state is the variant's default.  It may change the active state,
    which only [MAIL] does. *)

Record reaction := mkReaction { ret_status : status_code; out_cmd : string; new_state : States; active_st : States }.

Section Reactions.
Context (acc : Account).

Definition ignored (self : States) : reaction := mkReaction OK "" GREETING self.
Definition command (cmd : string) (next self : States) : reaction := mkReaction GOTO_NEXT_STATE cmd next self.

Definition EHLO_line : string := "EHLO gmail.com" +:+ CRLF.
Definition STARTTLS_line : string := "STARTTLS" +:+ CRLF.
Definition AUTH_LOGIN_line : string := "AUTH LOGIN" +:+ CRLF.
Definition RSET_line : string := "RSET" +:+ CRLF.
Definition DATA_line : string := "DATA" +:+ CRLF.
Definition QUIT_line : string := "QUIT" +:+ CRLF.
Definition MAIL_FROM_line : string := "MAIL FROM: <" +:+ m_from_email acc +:+ ">" +:+ CRLF.
Definition RCPT_TO_lines : string := str_concat (map (fun elm => "RCPT TO: <" +:+ elm +:+ ">" +:+ CRLF) (m_to_email acc)).

Definition GREETING_onCommand : reaction := command EHLO_line HELO GREETING.
Definition GREETING_onResponse (s : string) : outcome reaction :=
  ent ← getSmtpStatusCode s;
  mret (if m_reply ent =? REPLY_CODE_220_Service_ready then GREETING_onCommand else ignored GREETING).

Definition HELO_onCommand (s : string) : outcome reaction :=
  starttls ← find s "STARTTLS";
  mret (if starttls : bool then command STARTTLS_line (MAIL AUTH_INIT) HELO
        else mkReaction TLS_NOT_SUPPORTED "" GREETING HELO).
Definition HELO_onResponse (s : string) : outcome reaction :=
  ent ← getSmtpStatusCode s;
  if m_reply ent =? REPLY_CODE_250_Request_mail_action_okay_completed then HELO_onCommand s else mret (ignored HELO).

(** [onUsername] and [onPassword] are the same code over another prompt and another answer: the
    line to send, or why there is none. *)
Definition challenge (prompt answer : string) (refused : status_code) (s : string) : outcome (string + status_code) :=
  ent ← getSmtpStatusCode s;
  mret (if (m_reply ent =? REPLY_CODE_334_Server_challenge) && negb (str_empty (m_statusCode ent)) then
          match decode_status (m_statusCode ent) with
          | Some plain => if str_eqb plain prompt then inl (getBase64 answer) else inr refused
          | None => inr BASE64_DECODING_FAILED
          end
        else inr BASE64_DECODING_FAILED).
Definition onUsername := challenge "Username:" (m_from_email acc) CHALLENGE_FOR_USERNAME_FAILED.
Definition onPassword := challenge "Password:" (m_from_password acc) CHALLENGE_FOR_PASSWORD_FAILED.

Definition onLoginSuccess (s : string) : outcome (option string) :=
  ent ← getSmtpStatusCode s;
  mret (if (m_reply ent =? REPLY_CODE_235_2_7_0_Authentication_succeeded) && str_eqb (m_statusCode ent) "2.7.0"
        then Some MAIL_FROM_line else None).

Definition stay (cmd : string) (stage : AuthSteps) : reaction :=
  mkReaction REMAIN_IN_SAME_STATE cmd GREETING (MAIL stage).

Definition MAIL_onCommand (stage : AuthSteps) (s : string) : outcome reaction :=
  match stage with
  | AUTH_INIT => mret (stay AUTH_LOGIN_line AUTH_USRNAME)
  | AUTH_USRNAME =>
      r ← onUsername s;
      mret (match r with inl line => stay line AUTH_PASSWORD | inr _ => stay "" AUTH_USRNAME end)
  | AUTH_PASSWORD =>
      r ← onPassword s;
      mret (match r with inl line => stay line AUTH_SUCCESS | inr _ => stay "" AUTH_PASSWORD end)
  | AUTH_SUCCESS =>
      r ← onLoginSuccess s;
      mret (match r with
            | None => mkReaction INCORRECT_LOGIN_CREDENTIALS RSET_line RESET (MAIL AUTH_INIT)
            | Some line => command line RCPT (MAIL AUTH_SUCCESS)
            end)
  | AUTH_FAILURE => mret (mkReaction ERROR_END "" GREETING (MAIL AUTH_FAILURE))
  end.
Definition MAIL_onResponse (stage : AuthSteps) (s : string) : outcome reaction :=
  ent ← getSmtpStatusCode s;
  if m_reply ent =? REPLY_CODE_535_5_7_8_Authentication_credentials_invalid then mret (ignored (MAIL stage))
  else MAIL_onCommand stage s.

Definition RCPT_onCommand : reaction := command RCPT_TO_lines DATA RCPT.
Definition RCPT_onResponse (s : string) : outcome reaction :=
  ent ← getSmtpStatusCode s;
  mret (if m_reply ent =? REPLY_CODE_250_Request_mail_action_okay_completed then
          if str_eqb (m_statusCode ent) "2.1.0" then RCPT_onCommand else ignored RCPT
        else if m_reply ent =? REPLY_CODE_535_5_7_8_Authentication_credentials_invalid then ignored RCPT
        else RCPT_onCommand).

Definition DATA_onCommand : reaction := command DATA_line BODY DATA.
Definition DATA_onResponse (s : string) : outcome reaction :=
  ent ← getSmtpStatusCode s;
  mret (if m_reply ent =? REPLY_CODE_535_5_7_8_Authentication_credentials_invalid then ignored DATA else DATA_onCommand).

Definition BODY_onCommand : reaction := command (build_mime_message acc) QUIT BODY.
Definition BODY_onResponse (s : string) : outcome reaction :=
  ent ← getSmtpStatusCode s;
  mret (if m_reply ent =? REPLY_CODE_535_5_7_8_Authentication_credentials_invalid then ignored BODY else BODY_onCommand).

Definition QUIT_onCommand : reaction := mkReaction REMAIN_IN_SAME_STATE QUIT_line GREETING QUIT.
Definition QUIT_onResponse (s : string) : outcome reaction :=
  ent ← getSmtpStatusCode s;
  mret (if m_reply ent =? REPLY_CODE_250_Request_mail_action_okay_completed then
          if str_eqb (m_statusCode ent) "2.0.0" then QUIT_onCommand else ignored QUIT
        else if m_reply ent =? REPLY_CODE_221_Service_closing_transmission_channel then
          if str_eqb (m_statusCode ent) "2.0.0" then mkReaction REMAIN_IN_SAME_STATE "" GREETING QUIT else ignored QUIT
        else QUIT_onCommand).

(** No state leads to [HELP]; it looks at the reply and does nothing. *)
Definition HELP_onResponse (s : string) : outcome reaction := _ ← getSmtpStatusCode s; mret (ignored HELP).

(** [Transaction::onRx]: the variant is visited by reference. *)
Definition onRx (st : States) (s : string) : outcome reaction :=
  match st with
  | GREETING => GREETING_onResponse s
  | HELO => HELO_onResponse s
  | MAIL stage => MAIL_onResponse stage s
  | RCPT => RCPT_onResponse s
  | DATA => DATA_onResponse s
  | QUIT => QUIT_onResponse s
  | BODY => BODY_onResponse s
  | HELP => HELP_onResponse s
  | NOOP | VRFY | EXPN | RESET => mret (ignored st)
  end.
End Reactions.

End Env.

(** [Transaction::set_state] visits the variant by value, so that [onExit] and [onEntry] work on
    copies: what [MAIL::onEntry] assigns is lost, and the new state is the argument. *)
Definition onEntry (st : States) : States := match st with MAIL _ => MAIL AUTH_INIT | _ => st end.
Definition onExit (st : States) : States := st.
Definition set_state (next m_state : States) : States :=
  let '(_, m_state, _) := (onExit m_state, next, onEntry next) in m_state.
