(* ===== verification/SmtpSession.v ===== *)
(** The connection of the mail client: modules/module/email/src/emailservice.cpp, the TLS
    session, the client and the user, and the two threads and the reactor that share them.

    [H] is what the sockets keep; OpenSSL and the kernel are the class [SmtpNet].  [wire] is what
    was handed to them, in order, with whether it went through TLS.  A loop of [Tls::write] is
    followed for [spins] rounds. *)

From S2P Require Import Prelude MessageParser Smtp.

#[local] Open Scope Z_scope.

Class SmtpNet (H : Type) := {
  ssl_connect : H -> bool * H;
  ssl_write : string -> H -> Z * H;
  send_n : string -> H -> H }.

(** [SSL_write] on a live session writes a part of what it is given. *)
Class LiveNet (H : Type) `{SmtpNet H} : Prop := {
  write_progress : forall s h, s <> "" -> 1 <= (ssl_write s h).1 <= Z.of_nat (String.length s) }.

Inductive ssl_session := NoSession | Connected | Freed.
#[global] Instance ssl_session_eq_dec : EqDecision ssl_session.
Proof. solve_decision. Defined.

Section Session.
Context {H : Type} `{Net : SmtpNet H} `{ME : MailEnv} (acc : Account) (spins : nat).

(** [User] with its [Client] and its [Tls]. *)
Record User := mkUser {
  m_fsm : States; m_ssl : ssl_session; m_isTlsUP : bool; m_client : bool;
  m_mailServiceAvailable : bool; registered : bool; m_semaphore : nat;
  wire : list (bool * string); host : H }.

Definition upd_fsm st (u : User) : User :=
  mkUser st (m_ssl u) (m_isTlsUP u) (m_client u) (m_mailServiceAvailable u) (registered u) (m_semaphore u) (wire u) (host u).
Definition upd_tls ssl up h (u : User) : User :=
  mkUser (m_fsm u) ssl up (m_client u) (m_mailServiceAvailable u) (registered u) (m_semaphore u) (wire u) h.
Definition upd_available b (u : User) : User :=
  mkUser (m_fsm u) (m_ssl u) (m_isTlsUP u) (m_client u) b (registered u) (m_semaphore u) (wire u) (host u).
Definition upd_client b (u : User) : User :=
  mkUser (m_fsm u) (m_ssl u) (m_isTlsUP u) b (m_mailServiceAvailable u) (registered u) (m_semaphore u) (wire u) (host u).
Definition upd_registered b (u : User) : User :=
  mkUser (m_fsm u) (m_ssl u) (m_isTlsUP u) (m_client u) (m_mailServiceAvailable u) b (m_semaphore u) (wire u) (host u).
Definition upd_sem n (u : User) : User :=
  mkUser (m_fsm u) (m_ssl u) (m_isTlsUP u) (m_client u) (m_mailServiceAvailable u) (registered u) n (wire u) (host u).
Definition sent over s h (u : User) : User :=
  mkUser (m_fsm u) (m_ssl u) (m_isTlsUP u) (m_client u) (m_mailServiceAvailable u) (registered u) (m_semaphore u)
    (wire u ++ [(over, s)]) h.

(** [ACE_Semaphore] starts with one unit unless told otherwise. *)
Definition new_user (h : H) : User := mkUser GREETING NoSession false true false false 1 [] h.

Definition acquire (u : User) : outcome User :=
  match m_semaphore u with O => Blocked | S n => Done (upd_sem n u) end.
Definition release (u : User) : User := upd_sem (S (m_semaphore u)) u.

(** ** Tls *)

(** [start]: the flag is set after a failed handshake too, and the session was freed then. *)
Definition tls_start (u : User) : outcome User :=
  if m_client u then
    let '(ok, h) := ssl_connect (host u) in
    Done (upd_tls (if ok : bool then Connected else Freed) true h u)
  else Undef.

(** [do { ... } while(offset != len)]. *)
Fixpoint write_loop (fuel : nat) (rest : string) (h : H) : option H :=
  match fuel with
  | O => None
  | S fuel =>
      let '(rc, h) := ssl_write rest h in
      let rest := if rc <=? 0 then rest else str_drop (Z.to_nat rc) rest in
      if str_empty rest then Some h else write_loop fuel rest h
  end.
Definition tls_write (s : string) (u : User) : outcome User :=
  match m_ssl u with
  | Connected => match write_loop spins s (host u) with Some h => Done (sent true s h u) | None => Raises OutOfFuel end
  | _ => Undef
  end.

(** ** Client and User *)

Definition tx (s : string) (u : User) : User :=
  if m_mailServiceAvailable u then sent false s (send_n s (host u)) u else u.

Definition endEmailTransaction (u : User) : outcome User :=
  if m_client u then
    u ← acquire (upd_available false u);
    mret (upd_client false u)
  else Undef.

Definition send_command (cmd : string) (u : User) : outcome User :=
  if str_empty cmd then mret u
  else if m_isTlsUP u then tls_write cmd u
  else if m_client u then mret (tx cmd u) else Undef.

Definition dispatch (end_on_error : bool) (s : string) (u : User) : outcome User :=
  r ← onRx acc (m_fsm u) s;
  u ← send_command (out_cmd r) (upd_fsm (active_st r) u);
  match ret_status r with
  | GOTO_NEXT_STATE => mret (upd_fsm (set_state (new_state r) (m_fsm u)) u)
  | REMAIN_IN_SAME_STATE => mret u
  | _ => if end_on_error then endEmailTransaction u else mret u
  end.

Definition rx (s : string) (u : User) : outcome User :=
  ent ← getSmtpStatusCode s;
  if m_reply ent =? REPLY_CODE_220_Service_ready then
    u ← (if str_eqb (m_statusCode ent) "2.0.0" then tls_start u else mret u);
    dispatch true s u
  else dispatch false s u.

(** What a read of the socket, or of the TLS session, finds: the bytes that have arrived, the end of
    the connection, or an error. *)
Inductive readable := Bytes (s : string) | Closed | Failed.

(** [remove_handler] calls [handle_close]; the [close] that calls is the client's own, which only
    logs, so that the socket stays open. *)
Definition handle_close (u : User) : User := upd_available false u.
Definition remove_handler (u : User) : User := if registered u then handle_close (upd_registered false u) else u.
Definition handle_signal (u : User) : User := remove_handler u.
Definition stop (u : User) : User := upd_available false (remove_handler u).

(** What one [recv], or one [SSL_read], takes of what has arrived: the arrays [in] and [rd]
    have 2048 bytes.  The rest is there for the next read. *)
Definition kReadSize : nat := 2048.
Definition received (s : string) : string := str_take kReadSize s.

(** A failed [recv] answers -1, and a string of that length throws. *)
Definition handle_input (r : readable) (u : User) : outcome User :=
  if negb (m_isTlsUP u) then
    match r with
    | Bytes s => rx (received s) u
    | Closed => rx "" u
    | Failed => Raises LengthError
    end
  else
    match m_ssl u with
    | Connected =>
        match r with
        | Bytes s => rx (received s) u
        | Failed => rx "" u
        | Closed => u ← acquire (upd_available false u); mret (stop u)
        end
    | _ => Undef
    end.

Fixpoint run (l : list readable) (u : User) : outcome User :=
  match l with [] => mret u | r :: l' => u ← handle_input r u; run l' u end.

(** [Client::start] as far as [open]; [connect] answers 0 for success. *)
Definition client_start (connected : bool) (u : User) : User :=
  if connected then upd_available true (upd_registered true u) else upd_available false u.
Definition greet (u : User) : User := upd_fsm (set_state GREETING (m_fsm u)) u.

(** ** The threads

    [startEmailTransaction] runs on the thread of the request; [open] starts the thread of [svc];
    [handle_input] runs on whichever thread the reactor belongs to, while the client is
    registered.  When [startEmailTransaction] returns, its caller destroys the user; the client is
    leaked and stays registered unless [stop] or a signal removed it.  The assignments of [Client::start] are one
    step. *)
Inductive caller_pc := CStart | CAcquire | CGreet | CWait | CReturned.
Inductive svc_pc := SNone | SBoot | SMain | SLeft.
Record Sys := mkSys { user : User; caller : caller_pc; svc : svc_pc }.

(** [None] is a crash: undefined behaviour, or an exception that leaves a thread. *)
Definition after {A} (o : outcome A) (k : A -> Sys) (q : option Sys) : Prop :=
  match o with
  | Done a => q = Some (k a)
  | Undef => q = None
  | Raises e => e <> OutOfFuel /\ q = None
  | Blocked => False
  end.

Inductive step : Sys -> option Sys -> Prop :=
  | s_connected u w : step (mkSys u CStart w) (Some (mkSys (client_start true u) CAcquire SBoot))
  | s_unreachable u w : step (mkSys u CStart w) (Some (mkSys (client_start false u) CAcquire w))
  | s_acquire u w q : after (acquire u) (fun u => mkSys u CGreet w) q -> step (mkSys u CAcquire w) q
  | s_greet u w : step (mkSys u CGreet w) (Some (mkSys (greet u) CWait w))
  | s_no_client u w : m_client u = false -> step (mkSys u CWait w) None
  | s_return u w : m_client u = true -> m_mailServiceAvailable u = false ->
      step (mkSys u CWait w) (Some (mkSys u CReturned w))
  | s_boot u c : step (mkSys u c SBoot) (Some (mkSys (release u) c SMain))
  | s_leave u c : m_mailServiceAvailable u = false -> step (mkSys u c SMain) (Some (mkSys (release u) c SLeft))
  | s_signal u c w : w <> SNone -> step (mkSys u c w) (Some (mkSys (handle_signal u) c w))
  | s_input r u c w q : registered u = true -> c <> CReturned ->
      after (handle_input r u) (fun u => mkSys u c w) q -> step (mkSys u c w) q
  | s_input_after u w : registered u = true -> step (mkSys u CReturned w) None.

Inductive reaches : Sys -> option Sys -> Prop :=
  | r_here s : reaches s (Some s)
  | r_step s s' q : step s (Some s') -> reaches s' q -> reaches s q
  | r_crash s : step s None -> reaches s None.

Definition initial (h : H) : Sys := mkSys (new_user h) CStart SNone.

End Session.
Arguments received : simpl never.
