(* ===== verification/SmtpSpec.v ===== *)
(** What the mail client does with the replies of a server: how they are read, the order of the
    commands whatever the server answers, the conversation with a server that follows the
    protocol, and what happens with one that does not. *)

From S2P Require Import Prelude MessageParser Base64 Smtp SmtpSession.

#[local] Open Scope Z_scope.

(** * Reading a reply *)

(** A reply as RFC 5321 prints it: every line has the code, all but the last a hyphen after it. *)
Definition line_text (status text : string) : string :=
  status +:+ (if str_empty text then "" else " " +:+ text) +:+ CRLF.
Fixpoint print_reply (code : Z) (lines : list (string * string)) : string :=
  match lines with
  | [] => ""
  | [(status, text)] => to_string code +:+ " " +:+ line_text status text
  | (status, text) :: lines => to_string code +:+ "-" +:+ line_text status text +:+ print_reply code lines
  end.
Definition line_ok (l : string * string) : Prop :=
  no_char " " l.1 /\ no_char CR l.1 /\ no_char CR l.2 /\ no_char LF l.2.

Lemma no_char_cons c d s : no_char c (String d s) <-> d <> c /\ no_char c s.
Proof.
  unfold no_char. cbn. destruct (Ascii.eqb_spec d c) as [->|Hn]; [split; [done|by intros []]|].
  destruct (find_char c s); cbn; naive_solver.
Qed.

Lemma read_status_app s c r :
  no_char " " s -> no_char CR s -> c = " "%char \/ c = CR -> read_status (s +:+ String c r) = (s, Some c, r).
Proof.
  intros H1 H2 Hc. induction s as [|d s IH].
  - rewrite str_app_nil_l. destruct Hc as [-> | ->]; done.
  - apply no_char_cons in H1 as [Hd1 H1], H2 as [Hd2 H2]. rewrite str_app_cons. cbn [read_status].
    rewrite (proj2 (Ascii.eqb_neq _ _) Hd1), (proj2 (Ascii.eqb_neq _ _) Hd2). cbn [orb]. by rewrite IH.
Qed.
Lemma read_text_app s r : no_char CR s -> read_text (s +:+ String CR r) = (s, r).
Proof.
  intros Hs. induction s as [|d s IH]; [done|]. apply no_char_cons in Hs as [Hd Hs]. rewrite str_app_cons.
  cbn [read_text]. rewrite (proj2 (Ascii.eqb_neq _ _) Hd). by rewrite IH.
Qed.

(** Readers consume. *)
Lemma read_status_le s : (String.length (read_status s).2 <= String.length s)%nat.
Proof.
  induction s as [|c s IH]; [done|]. cbn [read_status]. destruct (_ || _); [cbn; lia|].
  destruct (read_status s) as [[e cc] rest]. cbn in *. lia.
Qed.
Lemma read_text_le s : (String.length (read_text s).2 <= String.length s)%nat.
Proof.
  induction s as [|c s IH]; [done|]. cbn [read_text]. destruct (Ascii.eqb c CR); [cbn; lia|].
  destruct (read_text s) as [e rest]. cbn in *. lia.
Qed.
Lemma rest_le code s out out' rest :
  reply_line_rest code s out = Ok (out', rest) -> (String.length rest <= String.length s)%nat.
Proof.
  unfold reply_line_rest. pose proof (read_status_le s) as Hs. destruct (read_status s) as [[st cc] r1]. cbn in Hs.
  assert (Hb : forall t r, (o ← record_line code st t out; mret (o, r)) = Ok (out', rest) -> rest = r).
  { intros t r. destruct (record_line code st t out) as [o|]; cbn; [by intros [= _ <-]|done]. }
  destruct cc; [|intros ->%Hb; done]. destruct r1 as [|c r2]; cbn [get_char]; [intros ->%Hb; cbn; lia|]. cbn in Hs.
  destruct (Ascii.eqb c LF); [intros ->%Hb; lia|]. pose proof (read_text_le r2) as Ht.
  destruct (read_text r2) as [t r3]. cbn in Ht. intros ->%Hb. rewrite str_length_drop. lia.
Qed.

(** The fuel of [parseSmtpCommand] is enough, and more makes no difference. *)
Lemma parse_fuel f f' s elm out :
  (String.length s < f)%nat -> (String.length s < f')%nat -> parse_replies f s elm out = parse_replies f' s elm out.
Proof.
  revert f' s elm out. induction f as [|f IH]; intros [|f'] s elm out Hf Hf'; [lia..|].
  destruct s as [|c r]; [done|]. cbn in Hf, Hf'. cbn [parse_replies]. destruct (_ || _); [|apply IH; lia].
  destruct (reply_line_rest elm r out) as [[out' rest]|e] eqn:E; [|done]. cbn. apply rest_le in E. apply IH; lia.
Qed.

Definition parse_from (s elm : string) (out : list entry) : result (list entry) :=
  parse_replies (S (String.length s)) s elm out.
Lemma parse_from_cons c r elm out :
  parse_from (String c r) elm out =
  if Ascii.eqb c " " || Ascii.eqb c "-" then '(out', rest) ← reply_line_rest elm r out; parse_from rest "" out'
  else parse_from r (elm +:+ String c "") out.
Proof.
  unfold parse_from at 1. cbn [parse_replies]. destruct (_ || _); [|done].
  destruct (reply_line_rest elm r out) as [[out' rest]|e] eqn:E; [|done]. apply rest_le in E.
  cbn [mbind result_bind]. unfold parse_from. apply parse_fuel; cbn; lia.
Qed.

(** A response of any bytes is read: entries, or the exception of [std::stoi]. *)
Lemma stoi_fuel s : stoi 10 s <> Throw OutOfFuel.
Proof. unfold stoi. destruct (scan_number 10 s) as [[neg v]|]; [|done]. by destruct (_ && _). Qed.
Lemma rest_fuel code s out : reply_line_rest code s out <> Throw OutOfFuel.
Proof.
  assert (Hr : forall st t (r : string), (o ← record_line code st t out; mret (o, r)) <> Throw OutOfFuel).
  { intros st t r. unfold record_line. pose proof (stoi_fuel code). by destruct (stoi 10 code); cbn; [|intros [= ->]]. }
  unfold reply_line_rest. destruct (read_status s) as [[st cc] r1]. destruct cc; [|done].
  destruct r1 as [|c r2]; cbn [get_char]; [done|]. destruct (Ascii.eqb c LF); [done|]. by destruct (read_text r2).
Qed.
Lemma parse_total s : parseSmtpCommand s <> Throw OutOfFuel.
Proof.
  unfold parseSmtpCommand. generalize (S (String.length s)) (Nat.lt_succ_diag_r (String.length s)).
  generalize ""%string as elm, (@nil entry) as out. intros elm out f. revert s elm out.
  induction f as [|f IH]; intros s elm out Hf; [lia|]. destruct s as [|c r]; [done|]. cbn in Hf. cbn [parse_replies].
  destruct (_ || _); [|apply IH; lia]. pose proof (rest_fuel elm r out) as Hr.
  destruct (reply_line_rest elm r out) as [[out' rest]|e] eqn:E; cbn; [|congruence].
  apply rest_le in E. apply IH; lia.
Qed.

(** ** What was printed is read *)

Definition lines_read (code : Z) (lines : list (string * string)) (out : list entry) : list entry :=
  fold_left (fun out l => assign (mkResponse code l.1) (str_drop 1 l.2) out) lines out.

Lemma parse_digits d sep r out :
  str_forallb is_digit d = true -> sep = " "%char \/ sep = "-"%char -> forall elm,
  parse_from (d +:+ String sep r) elm out = '(out', rest) ← reply_line_rest (elm +:+ d) r out; parse_from rest "" out'.
Proof.
  intros Hd Hs. induction d as [|c d IH]; intros elm.
  - rewrite str_app_nil_l, str_app_nil_r, parse_from_cons. by destruct Hs as [-> | ->].
  - cbn in Hd. apply andb_prop in Hd as [Hc Hd]. rewrite str_app_cons, parse_from_cons.
    assert (Hn : (Ascii.eqb c " " || Ascii.eqb c "-")%char = false) by (destruct c as [[] [] [] [] [] [] [] []]; done).
    rewrite Hn, IH by done. by rewrite str_app_assoc, str_app_cons, str_app_nil_l.
Qed.

Lemma line_rest code l r out :
  line_ok l -> 0 <= code < 2 ^ 31 ->
  reply_line_rest (to_string code) (line_text l.1 l.2 +:+ r) out
  = Ok (assign (mkResponse code l.1) (str_drop 1 l.2) out, r).
Proof.
  intros (H1 & H2 & H3 & H4) Hc. destruct l as [status text]. cbn [fst snd] in *. unfold line_text, reply_line_rest.
  assert (Hrec : forall t, record_line (to_string code) status t out = Ok (assign (mkResponse code status) t out)).
  { intros t. unfold record_line. rewrite stoi_to_string by done. cbn. by rewrite u32_small by (unfold is_u32; lia). }
  destruct text as [|c text]; cbn [str_empty].
  - rewrite str_app_nil_l, str_app_assoc. unfold CRLF. rewrite str_app_cons, read_status_app by auto. cbn [get_char str_app_cons].
    rewrite str_app_cons. cbn [get_char]. rewrite Ascii.eqb_refl, Hrec. done.
  - rewrite !str_app_assoc, str_app_cons, str_app_nil_l, read_status_app by auto. rewrite str_app_cons. cbn [get_char].
    apply no_char_cons in H3 as [_ H3], H4 as [Hl H4]. rewrite (proj2 (Ascii.eqb_neq _ _) Hl).
    unfold CRLF. rewrite str_app_cons, read_text_app by done. by rewrite Hrec.
Qed.

Lemma print_reply_read code lines out :
  0 <= code < 2 ^ 31 -> Forall line_ok lines ->
  parse_from (print_reply code lines) "" out = Ok (lines_read code lines out).
Proof.
  intros Hc Hl. revert out. induction Hl as [|l lines Hl Hls IH]; intros out; [done|].
  assert (Hd : str_forallb is_digit (to_string code) = true) by (apply to_string_digits; lia).
  assert (Hstep : forall sep r, sep = " "%char \/ sep = "-"%char ->
    parse_from (to_string code +:+ String sep "" +:+ line_text l.1 l.2 +:+ r) "" out
    = parse_from r "" (assign (mkResponse code l.1) (str_drop 1 l.2) out)).
  { intros sep r Hs. rewrite str_app_cons, str_app_nil_l, parse_digits by done. rewrite str_app_nil_l, line_rest by done. done. }
  destruct l as [status text], lines as [|l' lines].
  - cbn [print_reply]. rewrite <- (str_app_nil_r (line_text status text)). by rewrite (Hstep " "%char) by auto.
  - change (print_reply code ((status, text) :: l' :: lines))
      with (to_string code +:+ "-" +:+ line_text status text +:+ print_reply code (l' :: lines)).
    rewrite (Hstep "-"%char) by auto. by rewrite IH.
Qed.

(** What a server prints is what the client reads: every line of a reply gives an entry with the
    code and the status of the line, and with its text less the first character. *)
Theorem replies_read code lines :
  0 <= code < 2 ^ 31 -> Forall line_ok lines -> parseSmtpCommand (print_reply code lines) = Ok (lines_read code lines []).
Proof. intros Hc Hl. by apply print_reply_read. Qed.

Definition greeting_lines : list (string * string) :=
  [("smtp.gmail.com", "at your service"); ("SIZE", "35882577"); ("STARTTLS", ""); ("SMTPUTF8", "")].
Lemma greeting_lines_ok : Forall line_ok greeting_lines.
Proof. repeat constructor. Qed.
Lemma replies_read_witness :
  parseSmtpCommand (print_reply 250 greeting_lines) = Ok (lines_read 250 greeting_lines []).
Proof. apply replies_read; [lia|apply greeting_lines_ok]. Defined.

Lemma assign_keys k v out k' : k' ∈ (assign k v out).*1 <-> k' = k \/ k' ∈ out.*1.
Proof.
  induction out as [|[k0 v0] out IH]; cbn; [rewrite list_elem_of_singleton; set_solver|].
  destruct (decide (k = k0)) as [->|Hk]; cbn; rewrite !elem_of_cons; [naive_solver|]. rewrite IH. naive_solver.
Qed.
Lemma lines_read_keys code lines out k :
  k ∈ (lines_read code lines out).*1 <-> k ∈ out.*1 \/ exists l, l ∈ lines /\ k = mkResponse code l.1.
Proof.
  unfold lines_read. revert out. induction lines as [|l lines IH]; intros out; cbn.
  - split; [auto|]. intros [?|(l & Hl & _)]; [done|]. by apply elem_of_nil in Hl.
  - rewrite IH, assign_keys. split.
    + intros [[->|?]|(l' & Hl & ->)]; [right; exists l|by left|right; exists l']; split; by try constructor.
    + intros [?|(l' & [->|Hl]%elem_of_cons & ->)]; [by left; right|by left; left|right; by exists l'].
Qed.

Section Client.
Context `{ME : MailEnv} {MEL : MailEnvLaws}.

(** The code of a reply does not depend on the order of the table; the status is one of its lines'. *)
Lemma reply_status code lines :
  0 <= code < 2 ^ 31 -> Forall line_ok lines -> lines <> [] ->
  exists status, status ∈ lines.*1 /\ getSmtpStatusCode (print_reply code lines) = Done (mkResponse code status).
Proof.
  intros Hc Hl Hne. unfold getSmtpStatusCode, smtp_entries, parseSmtpCommand.
  change (parse_replies _ _ _ _) with (parse_from (print_reply code lines) "" []). rewrite print_reply_read by done.
  cbn [mbind outcome_bind]. pose proof (bucket_permutes _ (lines_read code lines [])) as Hp.
  pose proof (lines_read_keys code lines []) as Hk.
  destruct (bucket_order (lines_read code lines [])) as [|[k v] out].
  - apply Permutation_nil in Hp. destruct lines as [|l lines]; [done|]. specialize (Hk (mkResponse code l.1)).
    rewrite Hp in Hk. exfalso. apply (proj1 (elem_of_nil (A:=Response) (mkResponse code l.1))), Hk. right. exists l. split; [constructor|done].
  - assert (Hin : k ∈ (lines_read code lines []).*1).
    { apply list_elem_of_fmap. exists (k, v). split; [done|]. rewrite <- Hp. constructor. }
    apply Hk in Hin as [Hin|(l & Hin & ->)]; [by apply elem_of_nil in Hin|].
    exists l.1. split; [|done]. apply list_elem_of_fmap. by exists l.
Qed.

Lemma reply_offers code lines what :
  0 <= code < 2 ^ 31 -> Forall line_ok lines ->
  find (print_reply code lines) what = Done (bool_decide (what ∈ lines.*1)).
Proof.
  intros Hc Hl. unfold find, smtp_entries, parseSmtpCommand.
  change (parse_replies _ _ _ _) with (parse_from (print_reply code lines) "" []). rewrite print_reply_read by done.
  cbn. f_equal. apply eq_true_iff_eq. rewrite bool_decide_eq_true, existsb_exists. split.
  - intros ([k v] & Hin & Hk). apply str_eqb_eq in Hk. cbn in Hk. apply list_elem_of_In in Hin.
    rewrite bucket_permutes in Hin.
    destruct (proj1 (lines_read_keys code lines [] k)) as [Hn|(l & Hin' & ->)].
    + apply list_elem_of_fmap. by exists (k, v).
    + by apply elem_of_nil in Hn.
    + cbn in Hk. subst. apply list_elem_of_fmap. by exists l.
  - intros (l & -> & Hin)%list_elem_of_fmap.
    destruct (proj1 (list_elem_of_fmap fst (lines_read code lines []) (mkResponse code l.1))) as ([k v] & Hk & Hkv).
    + apply lines_read_keys. right. by exists l.
    + exists (k, v). cbn in Hk. subst. split; [|by apply str_eqb_eq]. apply list_elem_of_In. by rewrite bucket_permutes.
Qed.

(** No bytes, or bytes without a separator, are no reply. *)
Lemma unseparated_reply s :
  str_forallb (fun c => negb (Ascii.eqb c " " || Ascii.eqb c "-")%char) s = true -> getSmtpStatusCode s = Undef.
Proof.
  intros Hs. unfold getSmtpStatusCode, smtp_entries, parseSmtpCommand.
  change (parse_replies _ _ _ _) with (parse_from s "" []).
  assert (Hp : forall elm, parse_from s elm [] = Ok []).
  { induction s as [|c s IH]; intros elm; [done|]. cbn in Hs. apply andb_prop in Hs as [Hc Hs].
    rewrite parse_from_cons. destruct (_ || _); [done|]. by apply IH. }
  rewrite Hp. cbn. pose proof (bucket_permutes _ (@nil entry)) as Hb. apply Permutation_sym, Permutation_nil in Hb. by rewrite Hb.
Qed.

End Client.

(** * The order of the commands *)

Section Order.
Context {H : Type} `{Net : SmtpNet H} `{ME : MailEnv} {MEL : MailEnvLaws} (acc : Account) (spins : nat).
Local Abbreviation User := (@User H).

Definition say (s : string) : list string := if str_empty s then [] else [s].

(** What was sent since the last attempt to log in, and the attempts before. *)
Definition login (stage : AuthSteps) : list string :=
  let user := say (b64_encode (m_from_email acc)) in
  let password := say (b64_encode (m_from_password acc)) in
  match stage with
  | AUTH_INIT | AUTH_FAILURE => []
  | AUTH_USRNAME => [AUTH_LOGIN_line]
  | AUTH_PASSWORD => AUTH_LOGIN_line :: user
  | AUTH_SUCCESS => AUTH_LOGIN_line :: user ++ password
  end.
Definition attempts (k : nat) : list string := List.concat (replicate k (login AUTH_SUCCESS ++ [RSET_line])).

(** All that was sent when the conversation is in a state, after [k] failed attempts to log in and
    [n] commands to quit. *)
Definition opening (k : nat) (stage : AuthSteps) : list string := [EHLO_line; STARTTLS_line] ++ attempts k ++ login stage.
Definition script (k n : nat) (st : States) : list string :=
  match st with
  | GREETING => []
  | HELO => [EHLO_line]
  | MAIL stage => opening k stage
  | RCPT => opening k AUTH_SUCCESS ++ [MAIL_FROM_line acc]
  | DATA => opening k AUTH_SUCCESS ++ [MAIL_FROM_line acc] ++ say (RCPT_TO_lines acc)
  | BODY => opening k AUTH_SUCCESS ++ [MAIL_FROM_line acc] ++ say (RCPT_TO_lines acc) ++ [DATA_line]
  | QUIT => opening k AUTH_SUCCESS ++ [MAIL_FROM_line acc] ++ say (RCPT_TO_lines acc)
              ++ [DATA_line; build_mime_message acc] ++ replicate n QUIT_line
  | _ => []
  end.

Definition in_use (st : States) : Prop :=
  match st with GREETING | HELO | RCPT | DATA | BODY | QUIT => True | MAIL stage => stage <> AUTH_FAILURE | _ => False end.
Definition logged_in (st : States) : Prop := match st with RCPT | DATA | BODY | QUIT => True | _ => False end.
Definition accepted (s : string) : Prop := getSmtpStatusCode s = Done (mkResponse 235 "2.7.0").

Definition next_state (r : reaction) : States :=
  match ret_status r with GOTO_NEXT_STATE => new_state r | _ => active_st r end.

Lemma done_inj {A} (a b : A) : Done a = Done b -> a = b.
Proof. by intros [= ->]. Qed.

Ltac bind_simpl Hr := unfold mbind, outcome_bind, mret, outcome_ret in Hr; cbn beta iota in Hr.
Ltac reaction_step Hr :=
  repeat lazymatch type of Hr with
  | context [getSmtpStatusCode ?s] =>
      destruct (getSmtpStatusCode s) as [ent| | |] eqn:?; bind_simpl Hr; try discriminate Hr
  | context [find ?s ?w] => destruct (find s w) as [[]| | |] eqn:?; bind_simpl Hr; try discriminate Hr
  | context [if ?b then _ else _] => destruct b eqn:?; bind_simpl Hr; try discriminate Hr
  | context [match decode_status ?x with _ => _ end] => destruct (decode_status x) eqn:?; bind_simpl Hr
  | mret _ = Done _ => bind_simpl Hr
  end;
  try (apply done_inj in Hr; subst).

Lemma attempts_S k : attempts (S k) = attempts k ++ login AUTH_SUCCESS ++ [RSET_line].
Proof. unfold attempts. rewrite replicate_S_end, concat_app. cbn [List.concat]. by rewrite app_nil_r. Qed.

Lemma accepted_reply s ent :
  getSmtpStatusCode s = Done ent -> (m_reply ent =? 235) && str_eqb (m_statusCode ent) "2.7.0" = true -> accepted s.
Proof.
  intros He [Hr%Z.eqb_eq Hs%str_eqb_eq]%andb_prop. unfold accepted. rewrite He. destruct ent. cbn in *. by subst.
Qed.
Lemma challenge_line prompt answer refused s r :
  challenge prompt answer refused s = Done r -> r = inl (b64_encode answer) \/ exists e, r = inr e.
Proof. unfold challenge, getBase64. intros Hr. reaction_step Hr; eauto. Qed.

(** The command of a reaction continues the script. *)
Definition continues (st : States) (s : string) (k n : nat) (r : reaction) : Prop :=
  in_use (next_state r)
  /\ (exists k' n', script k n st ++ say (out_cmd r) = script k' n' (next_state r))
  /\ (logged_in (next_state r) -> logged_in st \/ accepted s).

Lemma continues_by st s k n r k' n' :
  in_use (next_state r) -> script k n st ++ say (out_cmd r) = script k' n' (next_state r) ->
  (logged_in (next_state r) -> logged_in st \/ accepted s) -> continues st s k n r.
Proof. intros H1 H2 H3. split_and!; [done|by exists k', n'|done]. Qed.

Ltac script_eq :=
  unfold script, opening; rewrite ?attempts_S; cbn [login app];
  repeat (rewrite ?app_nil_r, <- ?app_assoc; cbn [app]); done.

Lemma mail_continues stage s k n r :
  stage <> AUTH_FAILURE -> MAIL_onCommand acc stage s = Done r -> continues (MAIL stage) s k n r.
Proof.
  intros Hs Hr. destruct stage; cbn [MAIL_onCommand] in Hr; [..|done].
  - reaction_step Hr. apply (continues_by _ _ _ _ _ k n); cbn; [done|script_eq|done].
  - destruct (onUsername acc s) as [c| | |] eqn:E; bind_simpl Hr; try discriminate Hr.
    destruct (challenge_line _ _ _ _ _ E) as [-> | (e & ->)]; reaction_step Hr;
      apply (continues_by _ _ _ _ _ k n); cbn; try done; script_eq.
  - destruct (onPassword acc s) as [c| | |] eqn:E; bind_simpl Hr; try discriminate Hr.
    destruct (challenge_line _ _ _ _ _ E) as [-> | (e & ->)]; reaction_step Hr;
      apply (continues_by _ _ _ _ _ k n); cbn; try done; script_eq.
  - unfold onLoginSuccess in Hr. reaction_step Hr.
    + apply (continues_by _ _ _ _ _ k n); cbn; [done|script_eq|]. intros _. right. by eapply accepted_reply.
    + apply (continues_by _ _ _ _ _ (S k) n); [done| |done]. cbn [next_state ret_status active_st out_cmd]. script_eq.
Qed.

Lemma reaction_continues st s k n r : in_use st -> onRx acc st s = Done r -> continues st s k n r.
Proof.
  intros Hu Hr. destruct st as [| |stage| | | | | | | | |]; try done; cbn [onRx] in Hr.
  - unfold GREETING_onResponse in Hr. reaction_step Hr; by apply (continues_by _ _ _ _ _ k n).
  - unfold HELO_onResponse, HELO_onCommand in Hr. reaction_step Hr; by apply (continues_by _ _ _ _ _ O n).
  - unfold MAIL_onResponse in Hr. reaction_step Hr; [|by apply mail_continues].
    apply (continues_by _ _ _ _ _ k n); cbn; [done|script_eq|done].
  - unfold RCPT_onResponse in Hr. reaction_step Hr; apply (continues_by _ _ _ _ _ k n); cbn; try done; try script_eq; by left.
  - unfold DATA_onResponse in Hr. reaction_step Hr; apply (continues_by _ _ _ _ _ k n); cbn; try done; try script_eq; by left.
  - assert (Hq : script k n QUIT ++ say QUIT_line = script k (S n) QUIT).
    { unfold script. rewrite replicate_S_end. script_eq. }
    unfold QUIT_onResponse in Hr. reaction_step Hr.
    1,5: apply (continues_by _ _ _ _ _ k (S n)); [done|done|by left].
    all: apply (continues_by _ _ _ _ _ k n); [done|script_eq|by left].
  - unfold BODY_onResponse in Hr. reaction_step Hr; apply (continues_by _ _ _ _ _ k O); cbn; try done; try script_eq; by left.
Qed.

(** ** The session *)

(** The part of the wire before TLS was up, and the part after. *)
Definition tls_from_then_on (u : User) : Prop :=
  exists a b, map fst (wire u) = replicate a false ++ replicate b true /\ (m_isTlsUP u = false -> b = O).
Definition open_line (u : User) : Prop := m_isTlsUP u = false -> m_client u = true -> m_mailServiceAvailable u = true.

Record OrderedAt (st : States) (seen : list readable) (u : User) : Prop := {
  ord_script : exists k n, map snd (wire u) = script k n st;
  ord_state : in_use st;
  ord_tls : tls_from_then_on u;
  ord_line : open_line u;
  ord_login : logged_in st -> exists s, Bytes s ∈ seen /\ accepted (received s) }.
Definition Ordered seen (u : User) : Prop := OrderedAt (m_fsm u) seen u.

(** What a step keeps when it sends [cmd] and leaves the state alone. *)
Definition sends (cmd : string) (u u' : User) : Prop :=
  map snd (wire u') = map snd (wire u) ++ say cmd /\ m_fsm u' = m_fsm u
  /\ (tls_from_then_on u -> tls_from_then_on u') /\ (open_line u -> open_line u').

Lemma sends_nothing (u u' : User) :
  wire u' = wire u -> m_fsm u' = m_fsm u -> (m_isTlsUP u' = false -> m_isTlsUP u = false) ->
  (open_line u -> open_line u') -> sends "" u u'.
Proof.
  intros Hw Hf Ht Hl. split; [by rewrite Hw, app_nil_r|]. split; [done|]. split; [|done].
  intros (a & b & Hm & Hb). exists a, b. rewrite Hw. auto.
Qed.

Lemma sends_over cmd h (u : User) : cmd <> "" -> sends cmd u (sent (m_isTlsUP u) cmd h u).
Proof.
  intros Hc. unfold sends, say. destruct (str_empty cmd) eqn:He; [by apply str_empty_true in He|]. cbn.
  split; [by rewrite map_app|]. split; [done|]. split; [|done].
  intros (a & b & Hm & Hb). destruct (m_isTlsUP u) eqn:Ht.
  - exists a, (S b). split; [|cbn; congruence]. rewrite replicate_S_end. cbn. by rewrite map_app, Hm, <- app_assoc.
  - exists (S a), O. split; [|done]. rewrite replicate_S_end. cbn. rewrite Hb in Hm by done.
    rewrite map_app, Hm. cbn. by rewrite !app_nil_r.
Qed.

Lemma send_command_sends cmd u u' : open_line u -> send_command spins cmd u = Done u' -> sends cmd u u'.
Proof.
  intros Ho. unfold send_command. destruct (str_empty cmd) eqn:He.
  { apply str_empty_true in He as ->. intros Hr%done_inj. subst. by apply sends_nothing. }
  apply str_empty_false in He. destruct (m_isTlsUP u) eqn:Ht.
  - unfold tls_write. destruct (m_ssl u); try done. destruct (write_loop spins cmd (host u)) as [h|]; [|done].
    intros Hr%done_inj. subst. pose proof (sends_over cmd h u He) as Hs. by rewrite Ht in Hs.
  - destruct (m_client u) eqn:Hc; [|done]. intros Hr%done_inj. subst. unfold tx. rewrite Ho by done.
    pose proof (sends_over cmd (send_n cmd (host u)) u He) as Hs. by rewrite Ht in Hs.
Qed.

Lemma endEmailTransaction_sends u u' : endEmailTransaction u = Done u' -> sends "" u u'.
Proof.
  unfold endEmailTransaction, acquire. destruct (m_client u); [|done]. cbn. destruct (m_semaphore u); [done|].
  intros Hr%done_inj. subst. apply sends_nothing; done.
Qed.
Lemma tls_start_sends u u' : tls_start u = Done u' -> sends "" u u'.
Proof.
  unfold tls_start. destruct (m_client u); [|done]. destruct (ssl_connect (host u)) as [ok h].
  intros Hr%done_inj. subst. apply sends_nothing; done.
Qed.

Lemma ordered_sends st seen cmd u u' :
  OrderedAt st seen u -> sends cmd u u' -> cmd = "" -> OrderedAt st seen u'.
Proof.
  intros [Hs Hu Ht Ho Hl] (Hw & _ & Ht' & Ho') ->. split; auto.
  destruct Hs as (k & n & Hs). exists k, n. by rewrite Hw, app_nil_r.
Qed.
Lemma ordered_state st seen u st' : OrderedAt st seen u -> OrderedAt st seen (upd_fsm st' u).
Proof. by intros [Hs Hu Ht Ho Hl]; split. Qed.

Lemma dispatch_ordered b s seen u u' :
  Ordered seen u -> Bytes s ∈ seen -> dispatch acc spins b (received s) u = Done u' -> Ordered seen u'.
Proof.
  intros [(k & n & Hs) Hu Ht Ho Hl] Hin Hd. unfold dispatch in Hd.
  destruct (onRx acc (m_fsm u) (received s)) as [r| | |] eqn:Er; try discriminate Hd. cbn [mbind outcome_bind] in Hd.
  destruct (reaction_continues _ _ k n _ Hu Er) as (Hn & (k' & n' & Hk) & Hlog).
  destruct (send_command spins (out_cmd r) (upd_fsm (active_st r) u)) as [u1| | |] eqn:E1; try discriminate Hd.
  cbn [mbind outcome_bind] in Hd. apply send_command_sends in E1 as (Hw1 & Hf1 & Ht1 & Ho1); [|done].
  assert (H1 : OrderedAt (next_state r) seen u1).
  { split; [|done|by apply Ht1|by apply Ho1|].
    - exists k', n'. by rewrite Hw1, <- Hk, <- Hs.
    - intros Hlg. apply Hlog in Hlg as [Hlg|Ha]; [by apply Hl|by exists s]. }
  assert (Hend : (if b then endEmailTransaction u1 else mret u1) = Done u' -> next_state r = active_st r -> Ordered seen u').
  { intros He Hr. unfold Ordered. destruct b.
    - apply endEmailTransaction_sends in He. pose proof He as (_ & -> & _). rewrite Hf1, <- Hr in *. by eapply ordered_sends.
    - apply done_inj in He. subst u1. rewrite Hf1. cbn. by rewrite <- Hr. }
  unfold next_state in *. destruct (ret_status r); try (by apply Hend).
  - apply done_inj in Hd. subst u1. unfold Ordered. by rewrite Hf1.
  - apply done_inj in Hd. subst u'. by apply ordered_state.
Qed.

Lemma rx_ordered s seen u u' : Ordered seen u -> Bytes s ∈ seen -> rx acc spins (received s) u = Done u' -> Ordered seen u'.
Proof.
  intros Ho Hin. unfold rx. destruct (getSmtpStatusCode (received s)) as [ent| | |]; try done. cbn [mbind outcome_bind].
  destruct (_ =? _); [|by apply dispatch_ordered].
  destruct (if str_eqb _ _ then tls_start u else mret u) as [u1| | |] eqn:E; try done. cbn [mbind outcome_bind].
  apply dispatch_ordered; [|done]. destruct (str_eqb _ _).
  - apply tls_start_sends in E. pose proof E as (_ & Hf & _). unfold Ordered. rewrite Hf. by eapply ordered_sends.
  - apply done_inj in E. by subst.
Qed.

Lemma remove_handler_keeps (u : User) :
  wire (remove_handler u) = wire u /\ m_fsm (remove_handler u) = m_fsm u /\ m_isTlsUP (remove_handler u) = m_isTlsUP u.
Proof. unfold remove_handler. by destruct (registered u). Qed.

Lemma handle_input_ordered r seen u u' :
  Ordered seen u -> r ∈ seen -> handle_input acc spins r u = Done u' -> Ordered seen u'.
Proof.
  intros Ho Hin. unfold handle_input.
  assert (Hempty : rx acc spins "" u <> Done u') by (unfold rx; by rewrite unseparated_reply).
  destruct (m_isTlsUP u) eqn:Ht; cbn [negb].
  - destruct (m_ssl u); try done. destruct r as [s| |]; [by apply rx_ordered| |done].
    unfold acquire. destruct (m_semaphore _) as [|m]; [done|]. cbn. intros Hd%done_inj. subst. destruct Ho as [Hs Hu (a & b & Hm & Hb) Hl Hg].
    destruct (remove_handler_keeps (upd_sem m (upd_available false u))) as (Ew & Ef & Et).
    unfold Ordered. cbn [m_fsm stop upd_available]. rewrite Ef. split; cbn [wire m_fsm upd_sem upd_available stop] in *; try done.
    + by rewrite Ew.
    + exists a, b. cbn. rewrite Ew, Et. auto.
    + intros Hf. cbn in Hf. rewrite Et in Hf. cbn in Hf. congruence.
  - destruct r as [s| |]; [by apply rx_ordered|done|done].
Qed.

Lemma ordered_mono st seen seen' u : OrderedAt st seen u -> seen ⊆ seen' -> OrderedAt st seen' u.
Proof. intros [Hs Hu Ht Ho Hl] Hsub. split; try done. intros Hg. destruct (Hl Hg) as (s & Hin & Ha). exists s. auto. Qed.

Lemma run_ordered l seen u u' : Ordered seen u -> run acc spins l u = Done u' -> Ordered (seen ++ l) u'.
Proof.
  revert seen u. induction l as [|r l IH]; intros seen u Ho Hr.
  - apply done_inj in Hr. subst. by rewrite app_nil_r.
  - cbn [run] in Hr. destruct (handle_input acc spins r u) as [u1| | |] eqn:E; try discriminate Hr. cbn [mbind outcome_bind] in Hr.
    assert (H1 : Ordered (seen ++ [r]) u1).
    { apply (handle_input_ordered r _ u); [by apply (ordered_mono _ seen); [|set_solver]|set_solver|done]. }
    specialize (IH _ _ H1 Hr). by rewrite <- app_assoc in IH.
Qed.

(** The client when the connection is up and the caller has set the first state. *)
Definition connected (h : H) : User := greet (client_start true (new_user h)).

Lemma connected_ordered h : Ordered [] (connected h).
Proof. split; try done; [by exists O, O|by exists O, O]. Qed.

(** C27. Whatever a server answers and in whatever order, once the caller has set the first state:
    what the client has sent is the conversation up to the state it is in, so that nothing is skipped, repeated or swapped (an
    attempt to log in apart, which starts again after a refusal, and the command to quit).  The
    sender and all that follows is sent only after the password was accepted, the message at
    most once, and once TLS is up everything goes through it. *)
Theorem commands_in_order l h u :
  run acc spins l (connected h) = Done u ->
  (exists k n, map snd (wire u) = script k n (m_fsm u))
  /\ in_use (m_fsm u)
  /\ (logged_in (m_fsm u) -> exists s, Bytes s ∈ l /\ accepted (received s))
  /\ tls_from_then_on u.
Proof. intros Hr. destruct (run_ordered l [] _ _ (connected_ordered h) Hr) as [Hs Hu Ht _ Hl]. auto. Qed.
End Order.

(** * A server that follows the protocol *)

Section Dialogue.
Context {H : Type} `{Net : SmtpNet H} {Live : LiveNet H} `{ME : MailEnv} {MEL : MailEnvLaws} (acc : Account) (spins : nat).
Local Abbreviation User := (@User H).

(** A reply that one read takes whole. *)
Definition one_read (s : string) : Prop := (String.length s <= kReadSize)%nat.
Definition says (code : Z) (status s : string) : Prop :=
  one_read s /\ exists text, line_ok (status, text) /\ s = print_reply code [(status, text)].
Definition offers_tls (s : string) : Prop :=
  one_read s /\ exists lines, Forall line_ok lines /\ "STARTTLS" ∈ lines.*1 /\ s = print_reply 250 lines.
Definition asks_for (prompt s : string) : Prop :=
  exists status, status <> "" /\ b64_decode (c_str status) = Some prompt /\ says 334 status s.

(** The replies, each of at most 2048 bytes and found by a read of its own, to a mail with one
    recipient; the texts are the server's own. *)
Definition server_script (l : list string) : Prop :=
  exists greeting capabilities go_ahead user password welcome sender recipient start_input queued bye,
    l = [greeting; capabilities; go_ahead; user; password; welcome; sender; recipient; start_input; queued; bye]
    /\ (exists name, name <> "2.0.0" /\ says 220 name greeting)
    /\ offers_tls capabilities /\ says 220 "2.0.0" go_ahead
    /\ asks_for "Username:" user /\ asks_for "Password:" password
    /\ says 235 "2.7.0" welcome /\ says 250 "2.1.0" sender /\ says 250 "2.1.5" recipient
    /\ (exists status, says 354 status start_input) /\ says 250 "2.0.0" queued /\ says 221 "2.0.0" bye.

Lemma says_reads code status s :
  0 <= code < 2 ^ 31 -> says code status s -> getSmtpStatusCode s = Done (mkResponse code status).
Proof.
  intros Hc (_ & text & Hl & ->). destruct (reply_status code [(status, text)]) as (st & Hin & Hr); [done|by constructor|done|].
  cbn in Hin. apply list_elem_of_singleton in Hin. by subst.
Qed.

Lemma says_whole code status s : says code status s -> one_read s.
Proof. by intros []. Qed.
Lemma asks_whole prompt s : asks_for prompt s -> one_read s.
Proof. by intros (? & ? & ? & []). Qed.
Lemma one_read_whole s : one_read s -> received s = s.
Proof. intros Hs. unfold received. by apply str_take_all. Qed.

(** ** Sending *)

Lemma write_loop_ends s h fuel :
  s <> "" -> (String.length s <= fuel)%nat -> exists h', write_loop fuel s h = Some h'.
Proof.
  revert s h. induction fuel as [|fuel IH]; intros s h Hs Hf.
  - destruct s; [done|cbn in Hf; lia].
  - cbn [write_loop]. pose proof (write_progress s h Hs) as Hp. destruct (ssl_write s h) as [rc h']. cbn in Hp.
    destruct (Z.leb_spec rc 0); [lia|]. destruct (str_empty _) eqn:He; [by exists h'|]. apply str_empty_false in He.
    apply IH; [done|]. rewrite str_length_drop. lia.
Qed.

Definition plain_at st w (h : H) : User := mkUser st NoSession false true true true 1 w h.
Definition secure_at st w (h : H) : User := mkUser st Connected true true true true 1 w h.

Definition upgrades (ent : Response) : bool := (m_reply ent =? 220) && str_eqb (m_statusCode ent) "2.0.0".

Lemma plain_step s ent cmd st next w h :
  one_read s -> getSmtpStatusCode s = Done ent -> upgrades ent = false -> onRx acc st s = Done (command cmd next st) -> cmd <> "" ->
  handle_input acc spins (Bytes s) (plain_at st w h) = Done (plain_at next (w ++ [(false, cmd)]) (send_n cmd h)).
Proof.
  intros Hw He Hu Hr Hc%str_empty_false. unfold handle_input. cbn [m_isTlsUP plain_at negb]. rewrite one_read_whole by done.
  assert (Hd : forall b, dispatch acc spins b s (plain_at st w h) = Done (plain_at next (w ++ [(false, cmd)]) (send_n cmd h))).
  { intros b. unfold dispatch. cbn [m_fsm plain_at]. rewrite Hr. cbn [mbind outcome_bind out_cmd command].
    unfold send_command. by rewrite Hc. }
  unfold rx. rewrite He. cbn [mbind outcome_bind]. unfold upgrades in Hu. change REPLY_CODE_220_Service_ready with 220.
  destruct (_ =? 220); [|apply Hd]. cbn in Hu. rewrite Hu. apply Hd.
Qed.

(** Over TLS; also the step that starts it. *)
Lemma send_secure cmd st w h :
  (String.length cmd <= spins)%nat ->
  exists h', send_command spins cmd (secure_at st w h) = Done (secure_at st (w ++ map (pair true) (say cmd)) h').
Proof.
  intros Hl. unfold send_command, say. destruct (str_empty cmd) eqn:He.
  - exists h. cbn. by rewrite app_nil_r.
  - apply str_empty_false in He. cbn [m_isTlsUP secure_at]. unfold tls_write. cbn [m_ssl secure_at].
    destruct (write_loop_ends cmd h spins He Hl) as (h' & Hw). cbn [host secure_at]. rewrite Hw. by exists h'.
Qed.

Lemma secure_dispatch b s st r w h :
  onRx acc st s = Done r -> (String.length (out_cmd r) <= spins)%nat ->
  ret_status r = GOTO_NEXT_STATE \/ ret_status r = REMAIN_IN_SAME_STATE \/ b = false ->
  exists h', dispatch acc spins b s (secure_at st w h)
    = Done (secure_at (next_state r) (w ++ map (pair true) (say (out_cmd r))) h').
Proof.
  intros Hr Hl Hs. unfold dispatch. cbn [m_fsm secure_at]. rewrite Hr. cbn [mbind outcome_bind].
  destruct (send_secure (out_cmd r) (active_st r) w h Hl) as (h' & Hc). change (upd_fsm (active_st r) (secure_at st w h)) with (secure_at (active_st r) w h).
  rewrite Hc. exists h'. cbn [mbind outcome_bind]. unfold next_state.
  destruct (ret_status r); destruct b; try done; by destruct Hs as [?|[?|?]].
Qed.

Lemma secure_step s ent r st w h :
  one_read s -> getSmtpStatusCode s = Done ent -> upgrades ent = false -> onRx acc st s = Done r ->
  (String.length (out_cmd r) <= spins)%nat -> ret_status r = GOTO_NEXT_STATE \/ ret_status r = REMAIN_IN_SAME_STATE ->
  exists h', handle_input acc spins (Bytes s) (secure_at st w h)
    = Done (secure_at (next_state r) (w ++ map (pair true) (say (out_cmd r))) h').
Proof.
  intros Hw He Hu Hr Hl Hs. unfold handle_input. cbn [m_isTlsUP m_ssl secure_at negb]. rewrite one_read_whole by done. unfold rx. rewrite He.
  cbn [mbind outcome_bind]. unfold upgrades in Hu. change REPLY_CODE_220_Service_ready with 220.
  destruct (_ =? 220); [cbn in Hu; rewrite Hu; cbn [mret mbind outcome_ret outcome_bind]|]; apply secure_dispatch; naive_solver.
Qed.

Lemma upgrade_step s r w h h0 :
  one_read s -> getSmtpStatusCode s = Done (mkResponse 220 "2.0.0") -> ssl_connect h = (true, h0) ->
  onRx acc (MAIL AUTH_INIT) s = Done r -> (String.length (out_cmd r) <= spins)%nat ->
  ret_status r = GOTO_NEXT_STATE \/ ret_status r = REMAIN_IN_SAME_STATE ->
  exists h', handle_input acc spins (Bytes s) (plain_at (MAIL AUTH_INIT) w h)
    = Done (secure_at (next_state r) (w ++ map (pair true) (say (out_cmd r))) h').
Proof.
  intros Hw He Hc Hr Hl Hs. unfold handle_input. cbn [m_isTlsUP plain_at negb]. rewrite one_read_whole by done. unfold rx. rewrite He.
  cbn [mbind outcome_bind m_reply m_statusCode]. rewrite Z.eqb_refl, str_eqb_refl. unfold tls_start. cbn [m_client host plain_at].
  rewrite Hc. cbn [mbind outcome_bind].
  change (upd_tls Connected true h0 (plain_at (MAIL AUTH_INIT) w h)) with (secure_at (MAIL AUTH_INIT) w h0).
  apply secure_dispatch; naive_solver.
Qed.

(** ** The whole conversation *)

Lemma run_cons r l (u u1 : User) : handle_input acc spins r u = Done u1 -> run acc spins (r :: l) u = run acc spins l u1.
Proof. intros Hr. cbn [run]. by rewrite Hr. Qed.

(** A stretch over TLS: the replies, and the commands they are answered with. *)
Inductive stretch : States -> list string -> list string -> States -> Prop :=
  | stretch_nil st : stretch st [] [] st
  | stretch_cons st s ent r ss cs st' :
      one_read s -> getSmtpStatusCode s = Done ent -> upgrades ent = false -> onRx acc st s = Done r ->
      (String.length (out_cmd r) <= spins)%nat -> ret_status r = GOTO_NEXT_STATE \/ ret_status r = REMAIN_IN_SAME_STATE ->
      stretch (next_state r) ss cs st' -> stretch st (s :: ss) (say (out_cmd r) ++ cs) st'.

Lemma stretch_run st ss cs st' : stretch st ss cs st' -> forall w h l,
  exists h', run acc spins (map Bytes ss ++ l) (secure_at st w h)
    = run acc spins l (secure_at st' (w ++ map (pair true) cs) h').
Proof.
  induction 1 as [st|st s ent r ss cs st' Hw He Hu Hr Hl Hs _ IH]; intros w h l.
  - exists h. cbn. by rewrite app_nil_r.
  - destruct (secure_step s ent r st w h Hw He Hu Hr Hl Hs) as (h1 & Hi). cbn [map app]. rewrite (run_cons _ _ _ _ Hi).
    destruct (IH (w ++ map (pair true) (say (out_cmd r))) h1 l) as (h' & Hrun). exists h'. by rewrite Hrun, map_app, app_assoc.
Qed.

Lemma challenge_answered prompt answer refused s :
  asks_for prompt s ->
  exists ent, getSmtpStatusCode s = Done ent /\ m_reply ent = 334
    /\ challenge prompt answer refused s = Done (inl (b64_encode answer)).
Proof.
  intros (status & Hne & Hd & Hs). apply says_reads in Hs; [|lia]. eexists. split; [done|]. split; [done|].
  unfold challenge. rewrite Hs. cbn. apply str_empty_false in Hne. rewrite Hne. cbn. unfold decode_status.
  by rewrite Hd, str_eqb_refl.
Qed.

Definition commands_over_tls : list string :=
  login acc AUTH_SUCCESS ++ [MAIL_FROM_line acc] ++ say (RCPT_TO_lines acc)
    ++ [DATA_line; build_mime_message acc; QUIT_line].
Definition small : Prop := Forall (fun c => (String.length c <= spins)%nat) commands_over_tls.

Lemma say_fits s cs : Forall (fun c => (String.length c <= spins)%nat) cs -> (forall c, c ∈ say s -> c ∈ cs) -> (String.length s <= spins)%nat.
Proof.
  intros Hf Hs. destruct s as [|c s]; [cbn; lia|]. rewrite list.Forall_forall in Hf. apply Hf, Hs. by constructor.
Qed.

Lemma login_stretch user password welcome ss cs st :
  small -> asks_for "Username:" user -> asks_for "Password:" password -> says 235 "2.7.0" welcome ->
  stretch RCPT ss cs st ->
  stretch (MAIL AUTH_USRNAME) (user :: password :: welcome :: ss)
    (say (b64_encode (m_from_email acc)) ++ say (b64_encode (m_from_password acc)) ++ MAIL_FROM_line acc :: cs) st.
Proof.
  intros Hf Hu Hp Hw Hs.
  destruct (challenge_answered _ (m_from_email acc) CHALLENGE_FOR_USERNAME_FAILED _ Hu) as (eu & Heu & Hru & Hcu).
  destruct (challenge_answered _ (m_from_password acc) CHALLENGE_FOR_PASSWORD_FAILED _ Hp) as (ep & Hep & Hrp & Hcp).
  pose proof (says_whole _ _ _ Hw) as Hww. apply says_reads in Hw; [|lia].
  eapply (stretch_cons (MAIL AUTH_USRNAME) user eu (stay (b64_encode (m_from_email acc)) AUTH_PASSWORD)); [by eapply asks_whole|done| | | |by right|].
  { unfold upgrades. by rewrite Hru. }
  { cbn. unfold MAIL_onResponse. rewrite Heu. cbn. rewrite Hru. cbn. unfold onUsername. by rewrite Hcu. }
  { eapply say_fits; [apply Hf|]. unfold commands_over_tls. cbn. set_solver. }
  eapply (stretch_cons (MAIL AUTH_PASSWORD) password ep (stay (b64_encode (m_from_password acc)) AUTH_SUCCESS)); [by eapply asks_whole|done| | | |by right|].
  { unfold upgrades. by rewrite Hrp. }
  { cbn. unfold MAIL_onResponse. rewrite Hep. cbn. rewrite Hrp. cbn. unfold onPassword. by rewrite Hcp. }
  { eapply say_fits; [apply Hf|]. unfold commands_over_tls. cbn. set_solver. }
  eapply (stretch_cons (MAIL AUTH_SUCCESS) welcome _ (command (MAIL_FROM_line acc) RCPT (MAIL AUTH_SUCCESS)) ss cs); [done|done|done| | |by left|done].
  { cbn. unfold MAIL_onResponse, MAIL_onCommand, onLoginSuccess. by rewrite Hw. }
  eapply say_fits; [apply Hf|]. unfold commands_over_tls. cbn. set_solver.
Qed.

Lemma mail_stretch sender recipient start_input queued bye status :
  small -> says 250 "2.1.0" sender -> says 250 "2.1.5" recipient -> says 354 status start_input ->
  says 250 "2.0.0" queued -> says 221 "2.0.0" bye ->
  stretch RCPT [sender; recipient; start_input; queued; bye]
    (say (RCPT_TO_lines acc) ++ [DATA_line; build_mime_message acc; QUIT_line]) QUIT.
Proof.
  intros Hf Hs Hr Hi Hq Hb.
  pose proof (says_whole _ _ _ Hs) as Ws. pose proof (says_whole _ _ _ Hr) as Wr. pose proof (says_whole _ _ _ Hi) as Wi.
  pose proof (says_whole _ _ _ Hq) as Wq. pose proof (says_whole _ _ _ Hb) as Wb.
  apply says_reads in Hs, Hr, Hi, Hq, Hb; [|lia..].
  assert (Hfit : forall s, (forall c, c ∈ say s -> c ∈ commands_over_tls) -> (String.length s <= spins)%nat)
    by (intros s; by apply say_fits).
  assert (Hcut : forall cs, cs = say (RCPT_TO_lines acc) \/ cs = [DATA_line] \/ cs = [build_mime_message acc] \/ cs = [QUIT_line] ->
    forall c, c ∈ cs -> c ∈ commands_over_tls).
  { intros cs Hcs c Hc. unfold commands_over_tls. rewrite !elem_of_app.
    destruct Hcs as [->|[->|[->| ->]]]; [by do 2 right; left|do 3 right; set_solver..]. }
  apply (stretch_cons RCPT sender _ (RCPT_onCommand acc) _ [DATA_line; build_mime_message acc; QUIT_line] _ Ws Hs);
    [done|by cbn; unfold RCPT_onResponse; rewrite Hs|apply Hfit, Hcut; auto|by left|].
  apply (stretch_cons DATA recipient _ DATA_onCommand _ [build_mime_message acc; QUIT_line] _ Wr Hr);
    [done|by cbn; unfold DATA_onResponse; rewrite Hr|apply Hfit, Hcut; auto|by left|].
  apply (stretch_cons BODY start_input _ (BODY_onCommand acc) _ [QUIT_line] _ Wi Hi);
    [done|by cbn; unfold BODY_onResponse; rewrite Hi|apply Hfit, Hcut; auto|by left|].
  apply (stretch_cons QUIT queued _ QUIT_onCommand _ [] _ Wq Hq);
    [done|by cbn; unfold QUIT_onResponse; rewrite Hq|apply Hfit, Hcut; auto|by right|].
  apply (stretch_cons QUIT bye _ (mkReaction REMAIN_IN_SAME_STATE "" GREETING QUIT) _ [] _ Wb Hb);
    [done|by cbn; unfold QUIT_onResponse; rewrite Hb|cbn; lia|by right|constructor].
Qed.

(** The conversation on its own. *)
Lemma script_run l h :
  (forall h, (ssl_connect h).1 = true) -> small -> server_script l ->
  exists u, run acc spins (map Bytes l ++ [Closed]) (connected h) = Done u
    /\ wire u = map (pair false) [EHLO_line; STARTTLS_line] ++ map (pair true) commands_over_tls
    /\ m_mailServiceAvailable u = false /\ registered u = false /\ m_client u = true.
Proof.
  intros Hssl Hf (greeting & capabilities & go_ahead & user & password & welcome & sender & recipient & start_input & queued & bye
    & -> & (name & Hname & Hg) & (Wcap & lines & Hlines & Htls & Hcap) & Hgo & Hu & Hp & Hw & Hs & Hr & (status & Hi) & Hq & Hb).
  pose proof (says_whole _ _ _ Hg) as Wg. pose proof (says_whole _ _ _ Hgo) as Wgo. apply says_reads in Hg, Hgo; [|lia..].
  destruct (reply_status 250 lines) as (cap & _ & Hcs); [lia|done|by intros ->; apply elem_of_nil in Htls|].
  rewrite <- Hcap in Hcs. change (connected h) with (plain_at GREETING [] h). cbn [map app].
  erewrite run_cons; [|apply (plain_step greeting _ EHLO_line GREETING HELO [] h Wg Hg); [|by cbn; unfold GREETING_onResponse; rewrite Hg|done]].
  2: { unfold upgrades. cbn. by apply str_eqb_neq. }
  erewrite run_cons; [|apply (plain_step capabilities _ STARTTLS_line HELO (MAIL AUTH_INIT) _ _ Wcap Hcs); [done| |done]].
  2: { cbn. unfold HELO_onResponse, HELO_onCommand. rewrite Hcs. cbn. rewrite Hcap, reply_offers by (lia || done).
       by rewrite bool_decide_true. }
  match goal with |- context [plain_at (MAIL AUTH_INIT) ?w ?h1] => set (w0 := w); set (h0 := h1) end.
  pose proof (Hssl h0) as Hok. destruct (ssl_connect h0) as [ok h2] eqn:Hc. cbn in Hok. subst ok.
  destruct (upgrade_step go_ahead (stay AUTH_LOGIN_line AUTH_USRNAME) w0 h0 h2 Wgo Hgo Hc) as (h3 & Ho).
  { cbn. unfold MAIL_onResponse. by rewrite Hgo. }
  { eapply say_fits; [apply Hf|]. unfold commands_over_tls. cbn. set_solver. }
  { by right. }
  rewrite (run_cons _ _ _ _ Ho).
  destruct (stretch_run _ _ _ _ (login_stretch user password welcome _ _ _ Hf Hu Hp Hw
    (mail_stretch sender recipient start_input queued bye status Hf Hs Hr Hi Hq Hb)) (w0 ++ map (pair true) (say AUTH_LOGIN_line)) h3 [Closed])
    as (h4 & Hrun).
  cbn [map app] in Hrun. cbn [next_state ret_status stay active_st out_cmd]. rewrite Hrun.
  eexists. split; [reflexivity|]. split; [|done]. cbn [wire secure_at stop upd_available upd_registered upd_sem].
  subst w0. unfold commands_over_tls. cbn [login say]. rewrite !map_app. cbn. rewrite ?map_app, <- ?app_assoc. cbn. rewrite ?map_app, <- ?app_assoc. done.
Qed.

(** ** The conversation among the threads *)

Local Abbreviation Sys := (@Sys H).

(** A step of the caller, or of the thread that [open] starts, once the server is reached. *)
Inductive quiet : Sys -> Sys -> Prop :=
  | q_connected u w : quiet (mkSys u CStart w) (mkSys (client_start true u) CAcquire SBoot)
  | q_acquire u u' w : acquire u = Done u' -> quiet (mkSys u CAcquire w) (mkSys u' CGreet w)
  | q_greet u w : quiet (mkSys u CGreet w) (mkSys (greet u) CWait w)
  | q_return u w : m_client u = true -> m_mailServiceAvailable u = false -> quiet (mkSys u CWait w) (mkSys u CReturned w)
  | q_boot u c : quiet (mkSys u c SBoot) (mkSys (release u) c SMain)
  | q_leave u c : m_mailServiceAvailable u = false -> quiet (mkSys u c SMain) (mkSys (release u) c SLeft).

(** The threads run in any order, and the server's inputs are handled, each when the caller has
    set the first state and waits. *)
Inductive talks : Sys -> list readable -> Sys -> Prop :=
  | talks_nil s : talks s [] s
  | talks_quiet s s1 l s' : quiet s s1 -> talks s1 l s' -> talks s l s'
  | talks_input r u u' w l s' : registered u = true -> handle_input acc spins r u = Done u' ->
      talks (mkSys u' CWait w) l s' -> talks (mkSys u CWait w) (r :: l) s'.

Lemma talks_reaches s l s' : talks s l s' -> reaches acc spins s (Some s').
Proof.
  induction 1 as [s|s s1 l s' Hq _ IH|r u u' w l s' Hr Hi _ IH]; [constructor|..]; (eapply r_step; [|exact IH]).
  - destruct Hq as [u w|u u' w Ha|u w|u w|u c|u c]; try by constructor. apply s_acquire. by rewrite Ha.
  - apply (s_input acc spins r u CWait w); [done|done|]. by rewrite Hi.
Qed.
Lemma talks_trans s1 s2 s3 l l' : talks s1 l s2 -> talks s2 l' s3 -> talks s1 (l ++ l') s3.
Proof. induction 1; intros; [done|by eapply talks_quiet; eauto|by eapply talks_input; eauto]. Qed.

(** What the client is between two inputs. *)
Definition waiting (u : User) : Prop := exists st w h, u = plain_at st w h \/ u = secure_at st w h.

Lemma send_command_sem cmd n (u u' : User) :
  send_command spins cmd u = Done u' ->
  send_command spins cmd (upd_sem n u) = Done (upd_sem n u') /\ (waiting u -> waiting u') /\ m_client u' = m_client u.
Proof.
  unfold send_command. destruct (str_empty cmd); [by intros <-%done_inj|]. cbn [m_isTlsUP upd_sem m_client].
  destruct (m_isTlsUP u) eqn:Ht.
  - unfold tls_write. cbn [m_ssl upd_sem host]. destruct (m_ssl u); try done. destruct (write_loop _ _ _) as [h|]; [|done].
    intros <-%done_inj. split; [done|]. split; [|done]. intros (st & w & h0 & [-> | ->]); [done|]. do 3 eexists. right. done.
  - destruct (m_client u) eqn:Hc; [|done]. intros <-%done_inj. unfold tx. cbn [m_mailServiceAvailable upd_sem host].
    destruct (m_mailServiceAvailable u); [|done]. split; [done|]. split; [|done].
    intros (st & w & h0 & [-> | ->]); [|done]. do 3 eexists. left. done.
Qed.

Lemma waiting_state st (u : User) : waiting u -> waiting (upd_fsm st u).
Proof. intros (st0 & w & h & [-> | ->]); do 3 eexists; [left|right]; done. Qed.

Lemma dispatch_sem b s n (u u' : User) :
  dispatch acc spins b s u = Done u' -> m_client u' = true ->
  dispatch acc spins b s (upd_sem n u) = Done (upd_sem n u') /\ (waiting u -> waiting u') /\ m_client u = true.
Proof.
  unfold dispatch. change (m_fsm (upd_sem n u)) with (m_fsm u). destruct (onRx acc (m_fsm u) s) as [r| | |]; try done.
  cbn [mbind outcome_bind]. destruct (send_command _ _ (upd_fsm _ u)) as [u1| | |] eqn:E; try done. cbn [mbind outcome_bind].
  change (upd_fsm (active_st r) (upd_sem n u)) with (upd_sem n (upd_fsm (active_st r) u)).
  apply (send_command_sem _ n) in E as (-> & Hw & Hc). cbn [mbind outcome_bind]. change (m_client (upd_fsm _ u)) with (m_client u) in Hc.
  pose proof (waiting_state (active_st r) u) as Hwa.
  assert (Hend : (if b then endEmailTransaction u1 else mret u1) = Done u' -> m_client u' = true ->
    (if b then endEmailTransaction (upd_sem n u1) else mret (upd_sem n u1)) = Done (upd_sem n u') /\ (waiting u -> waiting u') /\ m_client u = true).
  { destruct b.
    - unfold endEmailTransaction, acquire. destruct (m_client u1); [|done]. cbn. destruct (m_semaphore u1); [done|]. by intros <-%done_inj.
    - intros <-%done_inj Hcl. split; [done|]. split; [auto|congruence]. }
  destruct (ret_status r); try (by apply Hend).
  - intros <-%done_inj Hcl. split; [done|]. split; [auto|congruence].
  - intros <-%done_inj Hcl. cbn in Hcl. split; [done|]. split; [intros Hu; apply waiting_state; auto|congruence].
Qed.

Section Run.
Context (ssl_connects : forall h : H, (ssl_connect h).1 = true).

(** Handling bytes has nothing to do with the semaphore, unless the client gives up. *)
Lemma input_sem s n (u u' : User) :
  handle_input acc spins (Bytes s) u = Done u' -> m_client u' = true ->
  handle_input acc spins (Bytes s) (upd_sem n u) = Done (upd_sem n u') /\ (waiting u -> waiting u') /\ m_client u = true.
Proof.
  assert (Hrx : rx acc spins (received s) u = Done u' -> m_client u' = true ->
    rx acc spins (received s) (upd_sem n u) = Done (upd_sem n u') /\ (waiting u -> waiting u') /\ m_client u = true).
  { unfold rx. destruct (getSmtpStatusCode _) as [ent| | |]; try done. cbn [mbind outcome_bind].
    destruct (_ =? _); [|apply dispatch_sem]. destruct (str_eqb _ _); [|apply dispatch_sem].
    unfold tls_start. cbn [m_client upd_sem host]. destruct (m_client u) eqn:Hc; [|done].
    pose proof (ssl_connects (host u)) as Hs. destruct (ssl_connect (host u)) as [ok h]. cbn in Hs. subst ok. cbn [mbind outcome_bind].
    intros Hd Hcl. destruct (dispatch_sem _ _ n _ _ Hd Hcl) as (H1 & H2 & _). split; [exact H1|]. split; [|done].
    intros (st & w & h0 & [-> | ->]); apply H2; exists st, w, h; by right. }
  unfold handle_input. cbn [m_isTlsUP upd_sem m_ssl]. destruct (negb (m_isTlsUP u)); [done|]. by destruct (m_ssl u).
Qed.

Lemma run_app p q (u : User) : run acc spins (p ++ q) u = (u' ← run acc spins p u; run acc spins q u').
Proof.
  revert u. induction p as [|r p IH]; intros u; [done|]. cbn [run app]. destruct (handle_input acc spins r u) as [u1| | |]; try done.
  cbn [mbind outcome_bind]. by rewrite IH.
Qed.

(** ** What the threads are at, and what the client is then *)

Variable (l : list string) (h : H) (final : User).
Context (final_run : run acc spins (map Bytes l ++ [Closed]) (connected h) = Done final) (final_client : m_client final = true).
Let script : list readable := map Bytes l ++ [Closed].

Definition units (w : svc_pc) : nat := match w with SMain => 1 | SLeft => 2 | _ => 0 end.

(** The client after some of the replies. *)
Lemma prefix_waiting p q u :
  map Bytes l = p ++ q -> run acc spins p (connected h) = Done u -> waiting u /\ m_client u = true.
Proof.
  intros Hl Hr. assert (Hcl : m_client u = true).
  { unfold script in final_run. pose proof final_run as Hf. rewrite Hl, <- app_assoc, run_app, Hr in Hf. cbn [mbind outcome_bind] in Hf.
    assert (Hb : Forall (fun r => exists s, r = Bytes s) q).
    { apply list.Forall_forall. intros r Hin. assert (Hr' : r ∈ map Bytes l) by (rewrite Hl; set_solver).
      apply list_elem_of_fmap in Hr' as (s & -> & _). by exists s. }
    clear Hl Hr p. revert u Hf. induction Hb as [|r q (s & ->) Hb IH]; intros u Hf.
    - cbn in Hf. destruct (handle_input acc spins Closed u) as [u1| | |] eqn:E; try done. cbn in Hf. apply done_inj in Hf. subst u1.
      revert E. unfold handle_input. destruct (negb _); [by unfold rx; rewrite unseparated_reply|]. destruct (m_ssl u); try done.
      unfold acquire. destruct (m_semaphore _); [done|]. cbn. intros <-%done_inj. revert final_client. unfold stop, remove_handler. by destruct (registered _).
    - cbn [run app] in Hf. destruct (handle_input acc spins (Bytes s) u) as [u1| | |] eqn:E; try done. cbn [mbind outcome_bind] in Hf.
      apply IH in Hf. by destruct (input_sem s O _ _ E Hf) as (_ & _ & Hc). }
  split; [|done]. revert q Hl u Hr Hcl. induction p as [|r p IH] using rev_ind; intros q Hl u Hr Hcl.
  - cbn in Hr. apply done_inj in Hr. subst u. exists GREETING, [], h. by left.
  - rewrite run_app in Hr. destruct (run acc spins p (connected h)) as [u1| | |] eqn:E1; try done. cbn [mbind outcome_bind run] in Hr.
    rewrite <- app_assoc in Hl. assert (Hin : r ∈ map Bytes l) by (rewrite Hl; set_solver).
    apply list_elem_of_fmap in Hin as (s & -> & _).
    destruct (handle_input acc spins (Bytes s) u1) as [u2| | |] eqn:E2; try done. cbn in Hr. apply done_inj in Hr. subst u2.
    destruct (input_sem s O _ _ E2 Hcl) as (_ & Hw & Hc1). apply Hw. by eapply IH.
Qed.

(** The threads when the client has handled [p] and is to handle [q]: the units of the semaphore
    are known, and else the client is what the run of [p] makes it. *)
Inductive phase : list readable -> list readable -> Sys -> Prop :=
  | ph_start : phase [] script (initial h)
  | ph_acquire w : w = SBoot \/ w = SMain -> phase [] script (mkSys (upd_sem (S (units w)) (client_start true (new_user h))) CAcquire w)
  | ph_greet w : w = SBoot \/ w = SMain -> phase [] script (mkSys (upd_sem (units w) (client_start true (new_user h))) CGreet w)
  | ph_wait p q u w : map Bytes l = p ++ q -> run acc spins p (connected h) = Done u -> w = SBoot \/ w = SMain ->
      phase p (q ++ [Closed]) (mkSys (upd_sem (units w) u) CWait w)
  | ph_closed n c w : w = SMain \/ w = SLeft -> c = CWait \/ c = CReturned -> phase script [] (mkSys (upd_sem n final) c w).

Lemma phase_quiet p q s s' : m_mailServiceAvailable final = false -> phase p q s -> quiet s s' -> phase p q s'.
Proof.
  intros Hfin Hp Hq. destruct Hp as [|w Hw|w Hw|p q u w Hl Hr Hw|n c w Hw Hc]; inversion Hq; subst; try (by destruct Hw); try done; try (by destruct Hc).
  - apply (ph_acquire SBoot). by left.
  - match goal with He : acquire _ = _ |- _ => cbn in He; injection He as <- end. by apply ph_greet.
  - apply (ph_acquire SMain). by right.
  - by apply (ph_wait [] (map Bytes l) (connected h) w).
  - apply (ph_greet SMain). by right.
  - destruct (prefix_waiting _ _ _ Hl Hr) as [(st & wi & h0 & [-> | ->]) _]; done.
  - apply (ph_wait p q u SMain); auto.
  - destruct (prefix_waiting _ _ _ Hl Hr) as [(st & wi & h0 & [-> | ->]) _]; done.
  - apply ph_closed; auto.
  - apply (ph_closed (S n)); auto.
Qed.

(** The next input, whatever the semaphore has. *)
Lemma next_bytes p s q u :
  map Bytes l = p ++ Bytes s :: q -> run acc spins p (connected h) = Done u ->
  exists u1, run acc spins (p ++ [Bytes s]) (connected h) = Done u1
  /\ forall n, handle_input acc spins (Bytes s) (upd_sem n u) = Done (upd_sem n u1).
Proof.
  intros Hl Hr. pose proof final_run as Hf. rewrite Hl, <- app_assoc, run_app, Hr in Hf. cbn [mbind outcome_bind run app] in Hf.
  destruct (handle_input acc spins (Bytes s) u) as [u1| | |] eqn:E; try done. exists u1.
  assert (Hr1 : run acc spins (p ++ [Bytes s]) (connected h) = Done u1).
  { rewrite run_app, Hr. cbn [mbind outcome_bind run]. by rewrite E. }
  split; [done|]. intros n. apply input_sem; [done|]. apply (prefix_waiting (p ++ [Bytes s]) q); [by rewrite <- app_assoc|done].
Qed.
Lemma last_input u :
  run acc spins (map Bytes l) (connected h) = Done u ->
  (forall n, handle_input acc spins Closed (upd_sem (S n) u) = Done (upd_sem n final))
  /\ forall u', handle_input acc spins Closed (upd_sem O u) <> Done u'.
Proof.
  intros Hr. pose proof final_run as Hf. rewrite run_app, Hr in Hf. cbn [mbind outcome_bind run] in Hf.
  destruct (handle_input acc spins Closed u) as [u1| | |] eqn:E; try done. cbn in Hf. apply done_inj in Hf. subst u1.
  revert E. unfold handle_input. cbn [m_isTlsUP upd_sem m_ssl]. destruct (negb _); [by unfold rx; rewrite unseparated_reply|].
  destruct (m_ssl u); try done. unfold acquire. cbn [m_semaphore upd_sem upd_available].
  destruct (m_semaphore u); [done|]. cbn. intros <-%done_inj. split; [|done]. intros k. unfold stop, remove_handler. cbn. by destruct (registered u).
Qed.

Lemma phase_input p r q u u' w :
  phase p (r :: q) (mkSys u CWait w) -> handle_input acc spins r u = Done u' -> phase (p ++ [r]) q (mkSys u' CWait w).
Proof.
  intros Hp Hi. inversion Hp as [| | |p0 q0 u0 w0 Hl Hr Hw E1 E2 E3|]; subst. destruct q0 as [|r0 q0].
  - cbn in E2. injection E2 as <- <-. rewrite app_nil_r in Hl. subst p. destruct (last_input _ Hr) as [H1 H0].
    destruct Hw as [-> | ->]; cbn [units] in Hi; [by apply H0 in Hi|]. rewrite H1 in Hi. apply done_inj in Hi. subst u'. apply ph_closed; auto.
  - cbn in E2. injection E2 as <- <-. assert (Hin : r0 ∈ map Bytes l) by (rewrite Hl; set_solver).
    apply list_elem_of_fmap in Hin as (s & -> & _). destruct (next_bytes _ _ _ _ Hl Hr) as (u1 & Hr1 & Hn).
    rewrite Hn in Hi. apply done_inj in Hi. subst u'. by apply ph_wait; [rewrite <- app_assoc| |].
Qed.

Lemma phase_talks p q q' s s' :
  m_mailServiceAvailable final = false -> talks s q s' -> phase p (q ++ q') s -> phase (p ++ q) q' s'.
Proof.
  intros Hfin Ht. revert p. induction Ht as [s|s s1 q s' Hq _ IH|r u u' w q s' Hr Hi _ IH]; intros p Hp.
  - by rewrite app_nil_r.
  - apply IH. by eapply phase_quiet.
  - replace (p ++ r :: q) with ((p ++ [r]) ++ q) by (by rewrite <- app_assoc). apply IH. by eapply phase_input.
Qed.

(** Wherever the threads are, they can go on to the end. *)
Lemma waits_to_end p q u :
  m_mailServiceAvailable final = false -> map Bytes l = p ++ q -> run acc spins p (connected h) = Done u ->
  exists s', talks (mkSys (upd_sem 1 u) CWait SMain) (q ++ [Closed]) s' /\ caller s' = CReturned.
Proof.
  intros Hfin. revert p u. induction q as [|r q IH]; intros p u Hl Hr; destruct (prefix_waiting _ _ _ Hl Hr) as [Hw _];
    (assert (Hreg : registered (upd_sem 1 u) = true) by (destruct Hw as (? & ? & ? & [-> | ->]); done)).
  - rewrite app_nil_r in Hl. subst p. destruct (last_input _ Hr) as [H1 _].
    eexists. split; [eapply talks_input; [exact Hreg|apply H1|]; eapply talks_quiet; [by apply q_return|apply talks_nil]|done].
  - assert (Hin : r ∈ map Bytes l) by (rewrite Hl; set_solver). apply list_elem_of_fmap in Hin as (s & -> & _).
    destruct (next_bytes _ _ _ _ Hl Hr) as (u1 & Hr1 & Hn). destruct (IH (p ++ [Bytes s]) u1) as (s' & Ht & Hc); [by rewrite <- app_assoc|done|].
    exists s'. split; [|done]. eapply talks_input; [exact Hreg|apply Hn|exact Ht].
Qed.
Lemma goes_on p q s :
  m_mailServiceAvailable final = false -> phase p q s -> exists s', talks s q s' /\ caller s' = CReturned.
Proof.
  intros Hfin Hp. destruct (waits_to_end [] (map Bytes l) (connected h) Hfin eq_refl eq_refl) as (s0 & Ht0 & Hc0).
  assert (Hgreet : talks (mkSys (upd_sem 1 (client_start true (new_user h))) CGreet SMain) script s0) by (eapply talks_quiet; [apply q_greet|exact Ht0]).
  assert (Hacq : talks (mkSys (upd_sem 2 (client_start true (new_user h))) CAcquire SMain) script s0) by (eapply talks_quiet; [by apply q_acquire|exact Hgreet]).
  assert (Hboot : talks (mkSys (upd_sem 1 (client_start true (new_user h))) CAcquire SBoot) script s0) by (eapply talks_quiet; [apply q_boot|exact Hacq]).
  destruct Hp as [|w [-> | ->]|w [-> | ->]|p q u w Hl Hr Hw|n c w Hw Hc].
  - exists s0. split; [|done]. eapply talks_quiet; [apply q_connected|exact Hboot].
  - by exists s0.
  - by exists s0.
  - exists s0. split; [|done]. eapply talks_quiet; [apply q_boot|exact Hgreet].
  - by exists s0.
  - destruct (waits_to_end _ _ _ Hfin Hl Hr) as (s' & Ht & Hc). exists s'. split; [|done].
    destruct Hw as [-> | ->]; [|done]. eapply talks_quiet; [apply q_boot|exact Ht].
  - destruct Hc as [-> | ->]; [|by eexists; split; [apply talks_nil|]].
    eexists. split; [eapply talks_quiet; [by apply q_return|apply talks_nil]|done].
Qed.
End Run.

End Dialogue.

(** * An example *)

#[global] Instance demo_mail_env : MailEnv := {|
  b64_encode := base64_encode; b64_decode := base64_decode; now_text := "Thu Jan  1 00:00:00 1970" +:+ String LF "";
  mail_file := fun _ => None; bucket_order := fun A => @reverse A |}.
#[global] Instance demo_mail_laws : MailEnvLaws.
Proof. split. intros A l. apply reverse_Permutation. Qed.
(** A connection that takes eight bytes at a time. *)
#[global] Instance demo_smtp_net : SmtpNet unit := {|
  ssl_connect := fun h => (true, h);
  ssl_write := fun s h => (Z.of_nat (Nat.min 8 (String.length s)), h);
  send_n := fun _ h => h |}.
#[global] Instance demo_live_net : LiveNet unit.
Proof. split. intros [|c s] [] Hs; [done|]. cbn [ssl_write demo_smtp_net fst String.length]. lia. Qed.

Definition demo_account : Account :=
  mkAccount "Society" "admin@example.org" "secret" ["resident@example.org"] "Your login" "Welcome." [].
Definition demo_replies : list string := [
  print_reply 220 [("smtp.gmail.com", "ESMTP ready")]; print_reply 250 greeting_lines;
  print_reply 220 [("2.0.0", "Ready to start TLS")]; print_reply 334 [("VXNlcm5hbWU6", "")];
  print_reply 334 [("UGFzc3dvcmQ6", "")]; print_reply 235 [("2.7.0", "Accepted")];
  print_reply 250 [("2.1.0", "OK")]; print_reply 250 [("2.1.5", "OK")]; print_reply 354 [("Go", "ahead")];
  print_reply 250 [("2.0.0", "OK queued")]; print_reply 221 [("2.0.0", "closing connection")] ].

Lemma demo_small : small demo_account 400.
Proof. unfold small. apply list.Forall_forall. intros c Hc. apply Nat.leb_le. revert c Hc. apply list.Forall_forall. repeat constructor. Qed.

Lemma demo_script : server_script demo_replies.
Proof.
  unfold server_script, demo_replies. do 11 eexists. split; [reflexivity|].
  assert (Hsays : forall code status text, (String.length (print_reply code [(status, text)]) <=? kReadSize)%nat = true ->
    line_ok (status, text) -> says code status (print_reply code [(status, text)]))
    by (intros code status text Hw%Nat.leb_le Hl; split; [exact Hw|by exists text]).
  split; [eexists; split; [|by apply Hsays]; done|].
  split; [split; [apply Nat.leb_le; by vm_compute|]; exists greeting_lines; split; [apply greeting_lines_ok|]; split; [set_solver|done]|].
  split; [by apply Hsays|]. split; [eexists; split; [|split; [|by apply Hsays]]; done|].
  split; [eexists; split; [|split; [|by apply Hsays]]; done|]. repeat (split; [by apply Hsays|]).
  split; [eexists; by apply Hsays|]. split; by apply Hsays.
Qed.


(** A refused password: the attempt is made again, with the answer of the server to the command
    that resets it. *)
Definition refusing_replies : list readable :=
  map Bytes (take 5 demo_replies ++ [print_reply 454 [("4.7.0", "try later")]; print_reply 250 [("2.1.0", "Flushed")]]).
Lemma commands_in_order_witness :
  exists u, run demo_account 400 refusing_replies (connected tt) = Done u
    /\ (exists k n, map snd (wire u) = script demo_account k n (m_fsm u)) /\ m_fsm u = MAIL AUTH_USRNAME.
Proof.
  destruct (run demo_account 400 refusing_replies (connected tt)) as [u| | |] eqn:E; [|exfalso; by vm_compute in E..].
  exists u. split; [done|]. split; [by apply (commands_in_order demo_account 400 refusing_replies tt)|].
  vm_compute in E. injection E as <-. reflexivity.
Defined.
