(* ===== verification/SmtpFaults.v ===== *)
(** The mail client with servers and mails that are not as it expects: what the receiver of the
    message makes of its text, refusals that are not looked at, the password without TLS, lost
    connections, and the race between the thread that starts a mail and the reactor. *)

From S2P Require Import Prelude MessageParser Base64 Smtp SmtpSession SmtpSpec.

#[local] Open Scope Z_scope.

(** * The text of the message

    RFC 5321, 4.5.2: the receiver of [DATA] reads to the first line that is a dot, and takes a dot
    away from the front of every other line that begins with one. *)

Definition end_of_data : string := CRLF +:+ "." +:+ CRLF.
Fixpoint unstuff (s : string) : string :=
  match s with
  | String a ((String b (String c r)) as t) =>
      if Ascii.eqb a CR && Ascii.eqb b LF && Ascii.eqb c "." then String a (String b (unstuff r)) else String a (unstuff t)
  | _ => s
  end.
(** The text of the mail, and what is left: the next commands. *)
Definition receive_data (s : string) : option (string * string) :=
  n ← find_str end_of_data s;
  Some (unstuff (str_take n s), str_drop (n + String.length end_of_data) s).

Definition line_dot : string := CRLF +:+ ".".

Lemma unstuff_step a b c r :
  unstuff (String a (String b (String c r)))
  = if Ascii.eqb a CR && Ascii.eqb b LF && Ascii.eqb c "." then String a (String b (unstuff r))
    else String a (unstuff (String b (String c r))).
Proof. done. Qed.

Lemma unstuff_nothing s : find_str line_dot s = None -> unstuff s = s.
Proof.
  induction s as [|a t IH]; [done|]. intros Hf. cbn [find_str] in Hf.
  destruct (String.prefix line_dot (String a t)) eqn:Hp; [done|].
  destruct (find_str line_dot t); [done|]. specialize (IH eq_refl).
  destruct t as [|b [|c r]]; [done..|]. rewrite unstuff_step.
  destruct (Ascii.eqb a CR && Ascii.eqb b LF && Ascii.eqb c ".") eqn:E; [|by rewrite IH].
  apply andb_prop in E as [[Ha%Ascii.eqb_eq Hb%Ascii.eqb_eq]%andb_prop Hc%Ascii.eqb_eq]. subst.
  change (String CR _) with (line_dot +:+ r) in Hp. by rewrite prefix_self in Hp.
Qed.
Lemma unstuff_length s : (String.length (unstuff s) <= String.length s)%nat.
Proof.
  induction s as [s IH] using (well_founded_induction (Wf_nat.well_founded_ltof _ String.length)). unfold Wf_nat.ltof in IH.
  destruct s as [|a [|b [|c r]]]; [cbn; lia..|]. rewrite unstuff_step. destruct (_ && _).
  - pose proof (IH r ltac:(cbn; lia)). cbn. lia.
  - pose proof (IH (String b (String c r)) ltac:(cbn; lia)) as Hl.
    cbn [String.length] in *. lia.
Qed.
Lemma unstuff_shorter s n : find_str line_dot s = Some n -> (String.length (unstuff s) < String.length s)%nat.
Proof.
  revert n. induction s as [|a t IH]; intros n Hf; [done|]. cbn [find_str] in Hf.
  destruct (String.prefix line_dot (String a t)) eqn:Hp.
  - destruct t as [|b [|c r]]; [apply prefix_length in Hp; cbn in Hp; lia..|].
    assert (Ht : a = CR /\ b = LF /\ c = "."%char) by (apply prefix_split in Hp; injection Hp; auto).
    destruct Ht as (-> & -> & ->). rewrite unstuff_step, !Ascii.eqb_refl. cbn [andb String.length]. pose proof (unstuff_length r). lia.
  - destruct (find_str line_dot t) as [m|] eqn:E; [|done]. specialize (IH m eq_refl).
    destruct t as [|b [|c r]]; [apply find_str_bound in E; cbn in E; lia..|]. rewrite unstuff_step.
    destruct (_ && _).
    + cbn [String.length]. pose proof (unstuff_length r). lia.
    + cbn [String.length] in *. lia.
Qed.

(** Where the end of the data is found, when the text does not hold it already. *)
Lemma prefix_short pat s t :
  (String.length pat <= String.length s)%nat -> String.prefix pat (s +:+ t) = String.prefix pat s.
Proof.
  revert s. induction pat as [|a pat IH]; intros s Hl; [by destruct s, t|].
  destruct s as [|b s]; cbn in Hl; [lia|]. rewrite str_app_cons. cbn. destruct (ascii_dec a b); [|done]. apply IH. lia.
Qed.
Lemma end_found text :
  find_str end_of_data (text +:+ CRLF) = None ->
  find_str end_of_data ((text +:+ CRLF) +:+ end_of_data) = Some (String.length (text +:+ CRLF)).
Proof.
  induction text as [|a text IH]; [done|]. intros Hf. rewrite !str_app_cons in *.
  cbn [find_str String.length] in *. destruct (String.prefix end_of_data (String a (text +:+ CRLF))) eqn:Hp; [done|].
  destruct (find_str end_of_data (text +:+ CRLF)); [done|]. rewrite IH by done.
  assert (Hq : String.prefix end_of_data (String a ((text +:+ CRLF) +:+ end_of_data)) = false).
  { destruct text as [|b [|c text]].
    - apply not_true_iff_false. intros Hq%prefix_split. discriminate Hq.
    - apply not_true_iff_false. intros Hq%prefix_split. discriminate Hq.
    - rewrite <- str_app_cons, prefix_short; [done|]. rewrite !str_app_cons. cbn [String.length]. rewrite str_length_app. cbn. lia. }
  by rewrite Hq.
Qed.

Section Text.
Context `{ME : MailEnv}.

(** The message up to the line that ends it. *)
Definition mail_text (acc : Account) : string :=
  mail_headers acc
  +:+ (match m_attachment acc with
       | [] => text_part acc
       | list => "Content-Type: multipart/mixed; boundary=cordoba" +:+ CRLF +:+ "--cordoba" +:+ CRLF +:+ text_part acc
                 +:+ str_concat (map mail_part list) +:+ "--cordoba--" +:+ CRLF
       end).
Lemma message_text acc : build_mime_message acc = mail_text acc +:+ end_of_data.
Proof. unfold build_mime_message, mail_text, end_of_data. by rewrite !str_app_assoc. Qed.
Definition ends_line (s : string) : Prop := exists t, s = t +:+ CRLF.
Lemma ends_line_crlf : ends_line CRLF.
Proof. by exists "". Qed.
Lemma ends_line_app s t : ends_line t -> ends_line (s +:+ t).
Proof. intros (u & ->). exists (s +:+ u). by rewrite str_app_assoc. Qed.
Lemma mail_text_crlf acc : ends_line (mail_text acc).
Proof.
  apply ends_line_app. unfold text_part.
  destruct (m_attachment acc); repeat (apply ends_line_crlf || apply ends_line_app).
Qed.

(** The receiver gets the text of a mail, whole and with nothing left over, exactly when no line
    of it begins with a dot: the client does not add the dot that the receiver takes away.  A body
    with a line that is a dot ends the message there, and what follows are commands. *)
Theorem message_received acc :
  receive_data (build_mime_message acc) = Some (mail_text acc, "") <-> find_str line_dot (mail_text acc) = None.
Proof.
  rewrite message_text. destruct (mail_text_crlf acc) as (t & ->). unfold receive_data. split.
  - intros Hr. destruct (find_str end_of_data (t +:+ CRLF)) as [n|] eqn:Hn.
    + rewrite (find_str_app _ _ _ _ Hn) in Hr. cbn in Hr. injection Hr as _ Hr. exfalso.
      apply find_str_bound in Hn. apply (f_equal String.length) in Hr. rewrite str_length_drop, str_length_app in Hr. cbn in *. lia.
    + rewrite end_found in Hr by done. cbn in Hr. injection Hr as Hr _. rewrite str_take_app_length in Hr.
      destruct (find_str line_dot (t +:+ CRLF)) as [m|] eqn:Hm; [|done]. apply unstuff_shorter in Hm. rewrite Hr in Hm. lia.
  - intros Hd. assert (He : find_str end_of_data (t +:+ CRLF) = None).
    { revert Hd. generalize (t +:+ CRLF). intros s. induction s as [|a s IH]; [done|]. cbn [find_str].
      destruct (String.prefix line_dot (String a s)) eqn:Hp; [done|].
      assert (Hpe : String.prefix end_of_data (String a s) = false).
      { apply not_true_iff_false. intros Hpe. apply not_true_iff_false in Hp. apply Hp.
        apply prefix_split in Hpe. rewrite Hpe. done. }
      rewrite Hpe. destruct (find_str line_dot s); [done|]. intros _. by rewrite IH. }
    rewrite end_found by done. cbn. f_equal. rewrite str_take_app_length, unstuff_nothing by done. f_equal.
    apply str_drop_all. rewrite str_length_app. cbn. lia.
Qed.
End Text.

(** A body that ends the message and sends another mail. *)
Definition injecting_account : Account :=
  mkAccount "Society" "admin@example.org" "secret" ["resident@example.org"] "Your login"
    ("Welcome." +:+ end_of_data +:+ "MAIL FROM: <admin@example.org>") [].
Lemma commands_injected :
  exists text, receive_data (build_mime_message injecting_account)
    = Some (text, "MAIL FROM: <admin@example.org>" +:+ CRLF +:+ end_of_data).
Proof. eexists. vm_compute. reflexivity. Qed.

(** * Servers that do not go along *)

Section Refusals.
Context {H : Type} `{Net : SmtpNet H} {Live : LiveNet H} `{ME : MailEnv} {MEL : MailEnvLaws} (acc : Account) (spins : nat).
Local Abbreviation User := (@User H).

(** In the envelope and after it only 535 is a refusal: with any other codes the client says the
    same as to a server that takes the mail. *)
Lemma refusals_ignored c1 c2 c3 c4 s1 s2 s3 s4 sender recipient start_input queued :
  small acc spins -> Forall (fun c => 0 <= c < 2 ^ 31 /\ c <> 535 /\ c <> 220 /\ c <> 250 /\ c <> 221) [c1; c2; c3; c4] ->
  says c1 s1 sender -> says c2 s2 recipient -> says c3 s3 start_input -> says c4 s4 queued ->
  stretch acc spins RCPT [sender; recipient; start_input; queued]
    (say (RCPT_TO_lines acc) ++ [DATA_line; build_mime_message acc; QUIT_line]) QUIT.
Proof.
  intros Hf Hc H1 H2 H3 H4. repeat (apply list.Forall_cons in Hc as [(? & ? & ? & ? & ?) Hc]).
  pose proof (says_whole _ _ _ H1) as W1. pose proof (says_whole _ _ _ H2) as W2. pose proof (says_whole _ _ _ H3) as W3.
  pose proof (says_whole _ _ _ H4) as W4. apply says_reads in H1, H2, H3, H4; [|done..].
  assert (Hfit : forall s, (forall c, c ∈ say s -> c ∈ commands_over_tls acc) -> (String.length s <= spins)%nat)
    by (intros s; by apply say_fits).
  assert (Hcut : forall cs, cs = say (RCPT_TO_lines acc) \/ cs = [DATA_line] \/ cs = [build_mime_message acc] \/ cs = [QUIT_line] ->
    forall c, c ∈ cs -> c ∈ commands_over_tls acc).
  { intros cs Hcs c Hin. unfold commands_over_tls. rewrite !elem_of_app.
    destruct Hcs as [->|[->|[->| ->]]]; [by do 2 right; left|do 3 right; set_solver..]. }
  assert (Hne : forall c d : Z, c <> d -> (c =? d) = false) by (intros; by apply Z.eqb_neq).
  assert (Hup : forall c s, c <> 220 -> upgrades (mkResponse c s) = false)
    by (intros c s Hx; unfold upgrades; cbn [m_reply]; by rewrite Hne).
  apply (stretch_cons _ _ RCPT sender _ (RCPT_onCommand acc) _ [DATA_line; build_mime_message acc; QUIT_line] _ W1 H1);
    [by apply Hup| |apply Hfit, Hcut; auto|by left|].
  { cbn. unfold RCPT_onResponse. rewrite H1. cbn [mbind outcome_bind m_reply]. by rewrite !Hne. }
  apply (stretch_cons _ _ DATA recipient _ DATA_onCommand _ [build_mime_message acc; QUIT_line] _ W2 H2);
    [by apply Hup| |apply Hfit, Hcut; auto|by left|].
  { cbn. unfold DATA_onResponse. rewrite H2. cbn [mbind outcome_bind m_reply]. by rewrite !Hne. }
  apply (stretch_cons _ _ BODY start_input _ (BODY_onCommand acc) _ [QUIT_line] _ W3 H3);
    [by apply Hup| |apply Hfit, Hcut; auto|by left|].
  { cbn. unfold BODY_onResponse. rewrite H3. cbn [mbind outcome_bind m_reply]. by rewrite !Hne. }
  apply (stretch_cons _ _ QUIT queued _ QUIT_onCommand _ [] _ W4 H4); [by apply Hup| |apply Hfit, Hcut; auto|by right|constructor].
  cbn. unfold QUIT_onResponse. rewrite H4. cbn [mbind outcome_bind m_reply]. by rewrite !Hne.
Qed.

(** With two recipients the second acceptance stands where the leave to send is expected: the
    message is sent before the server asked for it. *)
Lemma second_recipient sender first second :
  small acc spins -> says 250 "2.1.0" sender -> says 250 "2.1.5" first -> says 250 "2.1.5" second ->
  exists cs, stretch acc spins RCPT [sender; first; second] (cs ++ [build_mime_message acc]) QUIT.
Proof.
  intros Hf H1 H2 H3. pose proof (says_whole _ _ _ H1) as W1. pose proof (says_whole _ _ _ H2) as W2.
  pose proof (says_whole _ _ _ H3) as W3. apply says_reads in H1, H2, H3; [|lia..].
  assert (Hfit : forall s, (forall c, c ∈ say s -> c ∈ commands_over_tls acc) -> (String.length s <= spins)%nat)
    by (intros s; by apply say_fits).
  exists (say (RCPT_TO_lines acc) ++ [DATA_line]). rewrite <- app_assoc.
  apply (stretch_cons _ _ RCPT sender _ (RCPT_onCommand acc) _ [DATA_line; build_mime_message acc] _ W1 H1);
    [done|by cbn; unfold RCPT_onResponse; rewrite H1| |by left|].
  { apply Hfit. intros c Hc. unfold commands_over_tls. rewrite !elem_of_app. by do 2 right; left. }
  apply (stretch_cons _ _ DATA first _ DATA_onCommand _ [build_mime_message acc] _ W2 H2);
    [done|by cbn; unfold DATA_onResponse; rewrite H2| |by left|].
  { apply Hfit. intros c Hc. unfold commands_over_tls. rewrite !elem_of_app. do 3 right. set_solver. }
  apply (stretch_cons _ _ BODY second _ (BODY_onCommand acc) _ [] _ W3 H3);
    [done|by cbn; unfold BODY_onResponse; rewrite H3| |by left|constructor].
  apply Hfit. intros c Hc. unfold commands_over_tls. rewrite !elem_of_app. do 3 right. set_solver.
Qed.

(** A login the server refuses with 535 is answered with nothing and changes nothing: the caller of
    [startEmailTransaction] waits until the server gives up. *)
Lemma refused_login_waits stage w h refusal status :
  says 535 status refusal ->
  handle_input acc spins (Bytes refusal) (secure_at (MAIL stage) w h) = Done (secure_at (MAIL stage) w h).
Proof.
  intros Hs. unfold handle_input. cbn [m_isTlsUP m_ssl secure_at negb]. rewrite one_read_whole by by eapply says_whole.
  apply says_reads in Hs; [|lia]. unfold rx, dispatch.
  rewrite Hs. cbn [mbind outcome_bind m_reply onRx m_fsm secure_at]. unfold MAIL_onResponse. by rewrite Hs.
Qed.

(** A piece of a reply without a separator - the reply was cut by the network, or by the 2048 bytes
    of a read - crashes the client. *)
Lemma cut_reply_crashes s st w h :
  str_forallb (fun c => negb (Ascii.eqb c " " || Ascii.eqb c "-")%char) (received s) = true ->
  handle_input acc spins (Bytes s) (plain_at st w h) = Undef.
Proof. intros Hs. unfold handle_input, rx. cbn. by rewrite unseparated_reply. Qed.

(** The password goes out in the clear when the server answers [STARTTLS] with anything that is
    neither the go-ahead nor 535, and asks. *)
Lemma plain_any s ent r st w h :
  one_read s -> getSmtpStatusCode s = Done ent -> upgrades ent = false -> onRx acc st s = Done r ->
  ret_status r = GOTO_NEXT_STATE \/ ret_status r = REMAIN_IN_SAME_STATE ->
  exists h', handle_input acc spins (Bytes s) (plain_at st w h)
    = Done (plain_at (next_state r) (w ++ map (pair false) (say (out_cmd r))) h').
Proof.
  intros Hone He Hu Hr Hs. unfold handle_input. cbn [m_isTlsUP plain_at negb]. rewrite one_read_whole by done.
  assert (Hd : forall b, exists h', dispatch acc spins b s (plain_at st w h)
    = Done (plain_at (next_state r) (w ++ map (pair false) (say (out_cmd r))) h')).
  { intros b. unfold dispatch, next_state. cbn [m_fsm plain_at]. rewrite Hr. cbn [mbind outcome_bind].
    unfold send_command, say. destruct (str_empty (out_cmd r)); [exists h|exists (send_n (out_cmd r) h)];
      destruct Hs as [-> | ->]; cbn; by rewrite ?app_nil_r. }
  unfold rx. rewrite He. cbn [mbind outcome_bind]. unfold upgrades in Hu. change REPLY_CODE_220_Service_ready with 220.
  destruct (_ =? 220); [|apply Hd]. cbn in Hu. rewrite Hu. apply Hd.
Qed.

Lemma password_in_clear answer status code user password w h :
  0 <= code < 2 ^ 31 -> code <> 535 -> code <> 220 -> says code status answer ->
  asks_for "Username:" user -> asks_for "Password:" password -> b64_encode (m_from_password acc) <> "" ->
  exists u, run acc spins (map Bytes [answer; user; password]) (plain_at (MAIL AUTH_INIT) w h) = Done u
    /\ (false, b64_encode (m_from_password acc)) ∈ wire u.
Proof.
  intros Hc H535 H220 Ha Hu Hp Hne. pose proof (says_whole _ _ _ Ha) as Wa. apply says_reads in Ha; [|done].
  destruct (challenge_answered _ (m_from_email acc) CHALLENGE_FOR_USERNAME_FAILED _ Hu) as (eu & Heu & Hru & Hcu).
  destruct (challenge_answered _ (m_from_password acc) CHALLENGE_FOR_PASSWORD_FAILED _ Hp) as (ep & Hep & Hrp & Hcp).
  assert (Hup : forall e, m_reply e <> 220 -> upgrades e = false).
  { intros e He. unfold upgrades. by destruct (Z.eqb_spec (m_reply e) 220). }
  destruct (plain_any answer _ (stay AUTH_LOGIN_line AUTH_USRNAME) (MAIL AUTH_INIT) w h Wa Ha) as (h1 & E1); [by apply Hup| |by right|].
  { cbn. unfold MAIL_onResponse. rewrite Ha. cbn [mbind outcome_bind m_reply].
    change REPLY_CODE_535_5_7_8_Authentication_credentials_invalid with 535. by destruct (Z.eqb_spec code 535). }
  cbn [map run]. rewrite E1. cbn [mbind outcome_bind next_state stay ret_status active_st].
  match goal with |- context [plain_at _ ?w1 h1] => set (w1' := w1) end.
  destruct (plain_any user _ (stay (b64_encode (m_from_email acc)) AUTH_PASSWORD) (MAIL AUTH_USRNAME) w1' h1 (asks_whole _ _ Hu) Heu) as (h2 & E2);
    [by apply Hup; rewrite Hru| |by right|].
  { cbn. unfold MAIL_onResponse. rewrite Heu. cbn. rewrite Hru. cbn. unfold onUsername. by rewrite Hcu. }
  rewrite E2. cbn [mbind outcome_bind next_state stay ret_status active_st].
  match goal with |- context [plain_at _ ?w1 h2] => set (w2' := w1) end.
  destruct (plain_any password _ (stay (b64_encode (m_from_password acc)) AUTH_SUCCESS) (MAIL AUTH_PASSWORD) w2' h2 (asks_whole _ _ Hp) Hep) as (h3 & E3);
    [by apply Hup; rewrite Hrp| |by right|].
  { cbn. unfold MAIL_onResponse. rewrite Hep. cbn. rewrite Hrp. cbn. unfold onPassword. by rewrite Hcp. }
  rewrite E3. eexists. split; [reflexivity|]. cbn. unfold say. apply str_empty_false in Hne. rewrite Hne. set_solver.
Qed.

(** [Tls::write] never returns when the connection is lost. *)
Lemma write_never_ends s h fuel :
  s <> "" -> (forall t h, (ssl_write t h).1 <= 0) -> write_loop fuel s h = None.
Proof.
  intros Hs Hw. revert h. induction fuel as [|fuel IH]; intros h; [done|]. cbn [write_loop].
  pose proof (Hw s h) as Hr. destruct (ssl_write s h) as [rc h']. cbn in Hr. destruct (Z.leb_spec rc 0); [|lia].
  destruct (str_empty s) eqn:He; [by apply str_empty_true in He|]. apply IH.
Qed.
End Refusals.

(** * The threads *)

Section Threads.
Context {H : Type} `{Net : SmtpNet H} `{ME : MailEnv} {MEL : MailEnvLaws} (acc : Account) (spins : nat).
Local Abbreviation User := (@User H).
Local Abbreviation Sys := (@Sys H).

(** While the client is on the reactor the caller waits, unless the client was given up. *)
Definition held (u : User) : Prop := registered u = true -> m_mailServiceAvailable u = true \/ m_client u = false.

Lemma held_wire u u' :
  held u -> registered u' = registered u -> m_mailServiceAvailable u' = m_mailServiceAvailable u ->
  m_client u' = m_client u -> held u'.
Proof. unfold held. by intros Hh -> -> ->. Qed.

Lemma send_command_held cmd u u' : send_command spins cmd u = Done u' -> held u -> held u'.
Proof.
  unfold send_command. destruct (str_empty cmd); [by intros <-%done_inj|]. destruct (m_isTlsUP u).
  - unfold tls_write. destruct (m_ssl u); try done. destruct (write_loop spins cmd (host u)) as [h|]; [|done].
    intros <-%done_inj Hh. by apply (held_wire u).
  - destruct (m_client u) eqn:Hc; [|done]. intros <-%done_inj Hh. unfold tx.
    destruct (m_mailServiceAvailable u) eqn:Ha; [by apply (held_wire u)|done].
Qed.
Lemma dispatch_held b s u u' : dispatch acc spins b s u = Done u' -> held u -> held u'.
Proof.
  unfold dispatch. destruct (onRx acc (m_fsm u) s) as [r| | |]; try done. cbn [mbind outcome_bind].
  destruct (send_command _ _ _) as [u1| | |] eqn:E; try done. cbn [mbind outcome_bind]. intros Hd Hh.
  apply send_command_held in E; [|by apply (held_wire u)].
  assert (Hend : (if b then endEmailTransaction u1 else mret u1) = Done u' -> held u').
  { destruct b; [|by intros <-%done_inj]. unfold endEmailTransaction, acquire. destruct (m_client u1); [|done]. cbn.
    destruct (m_semaphore u1); [done|]. intros <-%done_inj _. by right. }
  destruct (ret_status r); try (by apply Hend); apply done_inj in Hd; subst; [done|by apply (held_wire u1)].
Qed.
Lemma rx_held s u u' : rx acc spins s u = Done u' -> held u -> held u'.
Proof.
  unfold rx. destruct (getSmtpStatusCode s) as [ent| | |]; try done. cbn [mbind outcome_bind].
  destruct (_ =? _); [|apply dispatch_held].
  destruct (if str_eqb _ _ then tls_start u else mret u) as [u1| | |] eqn:E; try done. cbn [mbind outcome_bind].
  intros Hd Hh. apply dispatch_held in Hd; [done|]. destruct (str_eqb _ _); [|apply done_inj in E; by subst].
  unfold tls_start in E. destruct (m_client u) eqn:Hc; [|done]. destruct (ssl_connect (host u)) as [ok h].
  apply done_inj in E. subst. by apply (held_wire u).
Qed.
Lemma removed (u : User) : registered (remove_handler u) = false.
Proof. unfold remove_handler. by destruct (registered u) eqn:Hr. Qed.
Lemma handle_input_held r u u' : handle_input acc spins r u = Done u' -> held u -> held u'.
Proof.
  unfold handle_input. destruct (m_isTlsUP u); cbn [negb].
  - destruct (m_ssl u); try done. destruct r; [apply rx_held| |apply rx_held].
    unfold acquire. destruct (m_semaphore _); [done|]. intros <-%done_inj _ Hx. cbn in Hx. by rewrite removed in Hx.
  - destruct r; [apply rx_held|apply rx_held|done].
Qed.

Definition returned_clean (s : Sys) : Prop :=
  held (user s)
  /\ (caller s = CStart -> registered (user s) = false)
  /\ (caller s = CReturned -> registered (user s) = false).

Lemma step_clean s s' : step acc spins s (Some s') -> returned_clean s -> returned_clean s'.
Proof.
  unfold returned_clean. inversion 1; subst; cbn [user caller]; intros (Hh & Hs & Hr).
  - split; [by left|done].
  - split; [intros Hx; cbn in Hx; by rewrite Hs in Hx|done].
  - unfold acquire in *. destruct (m_semaphore u); [done|]. match goal with He : after _ _ _ |- _ => cbn in He; injection He as -> end.
    cbn. split; [by apply (held_wire u)|done].
  - split; [by apply (held_wire u)|done].
  - split; [done|]. split; [done|]. intros _. apply not_true_iff_false. intros Hx. destruct (Hh Hx); congruence.
  - split; [by apply (held_wire u)|done].
  - split; [by apply (held_wire u)|done].
  - unfold handle_signal. split; [intros Hx; by rewrite removed in Hx|]. split; intros _; apply removed.
  - destruct (handle_input acc spins r u) as [u'| | |] eqn:E; cbn in *; try naive_solver.
    match goal with He : Some _ = Some _ |- _ => injection He as -> end. cbn. apply handle_input_held in E; [|done].
    split; [done|]. split; [intros Hc|done]. rewrite Hs in * by done. done.
Qed.

(** When [startEmailTransaction] has returned, and the user it worked on is destroyed, the
    client is off the reactor: nothing that happens later touches the user. *)
Theorem returned_is_safe h s :
  reaches acc spins (initial h) (Some s) -> caller s = CReturned ->
  registered (user s) = false /\ ~ step acc spins s None.
Proof.
  intros Hr Hc. assert (Hi : returned_clean s).
  { assert (Hgen : forall s0 q, reaches acc spins s0 q -> returned_clean s0 -> forall s, q = Some s -> returned_clean s).
    { induction 1 as [s0|s0 s1 q Hst _ IH|s0 Hst]; intros H0 s2 Hs2; [by injection Hs2 as ->| |done].
      apply IH; [|done]. by eapply step_clean. }
    apply (Hgen (initial h) (Some s) Hr); [|done]. by split. }
  destruct Hi as (_ & _ & Hreg). specialize (Hreg Hc). split; [done|].
  inversion 1; subst; cbn in *; try congruence.
Qed.

(** The first state is set after the connection is up and the client on the reactor: a greeting that
    is read before is answered, and its answer is then read in the wrong state, for ever. *)
Lemma start_race h name greeting :
  name <> "2.0.0" -> says 220 name greeting ->
  exists s, reaches acc spins (initial h) (Some s) /\ caller s = CWait
    /\ wire (user s) = [(false, EHLO_line)] /\ m_mailServiceAvailable (user s) = true
    /\ forall code lines, 0 <= code < 2 ^ 31 -> code <> 220 -> Forall line_ok lines -> lines <> [] ->
         one_read (print_reply code lines) ->
         handle_input acc spins (Bytes (print_reply code lines)) (user s) = Done (user s).
Proof.
  intros Hn Hg. pose proof (says_whole _ _ _ Hg) as Wg. apply says_reads in Hg; [|lia].
  set (u1 := client_start true (new_user h)).
  assert (Hin : handle_input acc spins (Bytes greeting) u1
    = Done (mkUser HELO NoSession false true true true 1 [(false, EHLO_line)] (send_n EHLO_line h))).
  { apply (plain_step acc spins greeting _ EHLO_line GREETING HELO [] h Wg Hg);
      [|by cbn; unfold GREETING_onResponse; rewrite Hg|done]. unfold upgrades. cbn. by apply str_eqb_neq. }
  eexists. split.
  { eapply r_step; [apply s_connected|]. eapply r_step; [eapply s_input; [done|done|]|].
    { fold u1. rewrite Hin. reflexivity. }
    eapply r_step; [apply s_acquire; reflexivity|]. eapply r_step; [apply s_greet|]. apply r_here. }
  split; [done|]. split; [done|]. split; [done|]. intros code lines Hc H220 Hl Hne Hone.
  destruct (reply_status code lines Hc Hl Hne) as (st & _ & Hr). unfold handle_input. cbn [user m_isTlsUP greet upd_fsm upd_sem negb].
  rewrite one_read_whole by done. unfold rx, dispatch. rewrite Hr. cbn [mbind outcome_bind m_reply]. change REPLY_CODE_220_Service_ready with 220.
  destruct (Z.eqb_spec code 220); [done|]. cbn [m_fsm set_state onRx upd_fsm greet upd_sem]. unfold GREETING_onResponse. rewrite Hr.
  cbn [mbind outcome_bind m_reply]. change REPLY_CODE_220_Service_ready with 220. by destruct (Z.eqb_spec code 220).
Qed.

(** The account is one for all mails: a mail without files carries those of the mail before. *)
Lemma attachments_linger to subject body from passwd files to' subject' body' from' passwd' a :
  files <> [] ->
  m_attachment (prepare to' subject' body' from' passwd' [] (prepare to subject body from passwd files a)) = files.
Proof. by destruct files. Qed.

(** A client that gives up deletes itself from the user, whose caller is still asking it. *)
Lemma giving_up_crashes u u' w :
  endEmailTransaction u = Done u' -> step acc spins (mkSys u' CWait w) None.
Proof.
  unfold endEmailTransaction, acquire. destruct (m_client u); [|done]. cbn. destruct (m_semaphore u); [done|].
  intros <-%done_inj. by apply s_no_client.
Qed.
End Threads.

(** The witness: the conversation of the example, and its caller's return. *)
Lemma returned_is_safe_witness :
  exists s, reaches demo_account 400 (initial tt) (Some s) /\ caller s = CReturned
    /\ registered (user s) = false /\ ~ step demo_account 400 s None.
Proof.
  assert (Hr : exists s, reaches demo_account 400 (initial tt) (Some s) /\ caller s = CReturned).
  { eexists. split; [eapply r_step; [apply s_unreachable|]; eapply r_step; [apply s_acquire; reflexivity|];
      eapply r_step; [apply s_greet|]; eapply r_step; [apply s_return; reflexivity|]; apply r_here|done]. }
  destruct Hr as (s & Hr & Hc). exists s. split; [done|]. split; [done|]. by apply (returned_is_safe demo_account 400 tt).
Defined.
