(* ===== verification/HttpsClient.v ===== *)
(** The HTTPS client of the push sender: modules/module/pbx/src/ace_https_client.cpp.  The
    exchange is [HttpExchange]'s; the TLS connection is the class [NetDial]. *)

From S2P Require Import Prelude SipFrame AgentEnv WsFrame WsStream WsConn WsHistory ClientSocket.
From S2P Require Import MessageParser HttpParser HttpSpec HttpHead WsUpgrade HttpExchange.

#[local] Open Scope Z_scope.

Definition kMaxPushResponse : Z := 4 * 1024 * 1024.

Record ParsedUrl := mkParsedUrl { host : string; port : Z; path_and_query : string }.

(** [None] is a result whose [ok] is false. *)
Definition parse_url (url : string) : option ParsedUrl :=
  if negb (str_eqb (str_take 8 url) "https://") then None else
  let remainder := str_drop 8 url in
  let path_pos := find_char "/" remainder in
  let authority := match path_pos with None => remainder | Some n => str_take n remainder end in
  if str_empty authority then None else
  let parsed := match find_char ":" authority with
                | None => Some (authority, 443)
                | Some colon =>
                    match stoi 10 (str_drop (colon + 1) authority) with
                    | Throw _ => None
                    | Ok p => if (p <=? 0) || (65535 <? p) then None else Some (str_take colon authority, p)
                    end
                end in
  match parsed with
  | None => None
  | Some (h, p) =>
      if str_empty h then None
      else Some (mkParsedUrl h p (match path_pos with None => "/" | Some n => str_drop n remainder end))
  end.

Definition own_header (name : string) : bool := str_eqb name "Host" || str_eqb name "Content-Length" || str_eqb name "Connection".

Definition build_request (h path : string) (headers : list (string * string)) (body : string) : string :=
  http_head (request_line "POST" path
             :: field_lines ([("Host", h)] ++ filter (fun kv => own_header kv.1 = false) headers
                  ++ [("Content-Length", to_string (size_of body)); ("Connection", "close")]))
  +:+ body.

Section Client.
Context {N : Type} `{!NetIO N} `{!NetDial N}.

(** [IPushHttpClient::post]. *)
Definition https_post (url : string) (headers : list (string * string)) (body : string) (n : N) : option (Response * Conn N) :=
  match parse_url url with
  | None => Some (no_response, idle_conn n)
  | Some u => exchange kMaxPushResponse (host u) (port u) (build_request (host u) (path_and_query u) headers body) n
  end.
End Client.

(** * What the HTTPS client of the push sender guarantees: an address is read as it is printed, a
    request is framed, and an exchange ends within its bounds; and what an endpoint with a line
    break in it does. *)

(** * Addresses *)

Definition print_url (h : string) (p : option Z) (path : string) : string :=
  "https://" +:+ h +:+ (match p with Some p => ":" +:+ to_string p | None => "" end) +:+ path.
Definition is_path (path : string) : Prop := path = "" \/ exists t, path = "/" +:+ t.

Lemma authority_read a path :
  no_char "/" a -> is_path path ->
  let r := a +:+ path in
  match find_char "/" r with None => r | Some n => str_take n r end = a
  /\ match find_char "/" r with None => "/" | Some n => str_drop n r end = (if str_empty path then "/" else path).
Proof.
  intros Ha [->|[t ->]] r; unfold r.
  - rewrite str_app_nil_r, Ha. done.
  - change ("/" +:+ t) with (String "/" t). rewrite find_char_app by done. rewrite str_take_app_length, str_drop_app_length. done.
Qed.
Lemma to_string_no c z : is_digit c = false -> 0 <= z -> no_char c (to_string z).
Proof.
  intros Hc Hz. apply no_char_forallb. eapply str_forallb_impl; [|by apply to_string_digits]. intros d Hd. cbn.
  destruct (Ascii.eqb_spec d c) as [->|]; [congruence|done].
Qed.

(** An address is read as it is printed, the port and the path being optional; and what is
    accepted has a host, a port between 1 and 65535 and a path. *)
Theorem url_read url :
  (forall h p path, h <> "" -> no_char "/" h -> no_char ":" h -> is_path path -> (forall q, p = Some q -> 0 < q <= 65535) ->
     parse_url (print_url h p path) = Some (mkParsedUrl h (default 443 p) (if str_empty path then "/" else path)))
  /\ (forall u, parse_url url = Some u -> host u <> "" /\ 0 < port u <= 65535 /\ exists t, path_and_query u = "/" +:+ t).
Proof.
  split.
  - intros h p path Hh H1 H2 Hp Hq. unfold parse_url, print_url. change (str_take 8 ("https://" +:+ ?x)) with "https://".
    change (str_drop 8 ("https://" +:+ ?x)) with x. rewrite str_eqb_refl. cbn [negb].
    set (a := h +:+ match p with Some p => ":" +:+ to_string p | None => "" end).
    assert (Ha : no_char "/" a).
    { apply no_char_app; [done|]. destruct p as [q|]; [|done]. specialize (Hq q eq_refl).
      apply (no_char_app _ ":"); [done|]. apply to_string_no; [done|lia]. }
    rewrite <- (str_app_assoc h). fold a. destruct (authority_read a path Ha Hp) as [-> ->].
    assert (Hne : str_empty a = false) by (apply str_empty_false; unfold a; by destruct h).
    rewrite Hne. apply str_empty_false in Hh. unfold a. destruct p as [q|].
    + specialize (Hq q eq_refl). change (":" +:+ to_string q) with (String ":" (to_string q)). rewrite find_char_app by done.
      rewrite str_drop_mid, stoi_to_string, str_take_app_length by lia.
      destruct (Z.leb_spec q 0); [lia|]. destruct (Z.ltb_spec 65535 q); [lia|]. cbn [orb]. by rewrite Hh.
    + rewrite str_app_nil_r, H2. by rewrite Hh.
  - intros u. unfold parse_url. destruct (negb _); [done|]. set (r := str_drop 8 url).
    set (path := match find_char "/" r with None => "/" | Some n => str_drop n r end).
    assert (Hpath : exists t, path = "/" +:+ t).
    { unfold path. destruct (find_char "/" r) as [n|] eqn:En; [|by exists ""].
      exists (str_drop (S n) r). apply (str_app_inj_l (str_take n r)). rewrite str_take_drop. by apply find_char_split. }
    match goal with |- context [if str_empty ?a then _ else _] => set (auth := a) end. destruct (str_empty auth); [done|].
    destruct (match find_char ":" auth with None => _ | Some _ => _ end) as [[h p]|] eqn:E; [|done].
    destruct (str_empty h) eqn:Eh; [done|]. intros [= <-]. cbn [host port path_and_query]. apply str_empty_false in Eh.
    split; [done|]. split; [|done]. destruct (find_char ":" auth) as [colon|]; [|injection E as <- <-; lia].
    destruct (stoi 10 _) as [q|]; [|done]. destruct (Z.leb_spec q 0); [done|]. destruct (Z.ltb_spec 65535 q); [done|].
    injection E as _ <-. lia.
Qed.

(** * Requests *)

Definition request_fields (h : string) (headers : list (string * string)) (body : string) : list (string * string) :=
  [("Host", h)] ++ filter (fun kv => own_header kv.1 = false) headers
    ++ [("Content-Length", to_string (size_of body)); ("Connection", "close")].
Definition headers_ok (headers : list (string * string)) : Prop :=
  Forall (fun kv => field_pair_ok kv /\ kv.1 <> "Transfer-Encoding") headers.
Definition one_line (s : string) : Prop := no_char CR s /\ no_char LF s.

Lemma last_field_app k l l' :
  last_field k (l ++ l') = fold_left (fun acc kv => if str_eqb kv.1 k then kv.2 else acc) l' (last_field k l).
Proof. unfold last_field. apply fold_left_app. Qed.
Lemma last_field_absent k l d :
  Forall (fun kv => kv.1 <> k) l -> fold_left (fun acc (kv : string * string) => if str_eqb kv.1 k then kv.2 else acc) l d = d.
Proof.
  intros Hl. revert d. induction Hl as [|kv l Hk Hl IH]; intros d; [done|]. cbn. apply str_eqb_neq in Hk. rewrite Hk. apply IH.
Qed.

Lemma request_fields_ok h headers body :
  one_line h -> headers_ok headers -> Forall field_pair_ok (request_fields h headers body).
Proof.
  intros [H1 H2] Hh. unfold request_fields. apply Forall_app. split; [by repeat constructor|]. apply Forall_app. split.
  - apply list.Forall_forall. intros kv [_ Hin]%list_elem_of_filter. unfold headers_ok in Hh. rewrite list.Forall_forall in Hh. by apply Hh.
  - assert (0 <= size_of body) by (unfold size_of; lia).
    apply Forall_cons_2; [split_and!; try done; by apply to_string_no|]. by repeat constructor.
Qed.

(** A request for an endpoint is framed: a server takes exactly its bytes off the connection, and
    its head is the request line, the host, the caller's headers but those the client writes itself,
    and the length, when neither the address nor a header holds a line break. *)
Theorem post_framed h path headers body rest :
  one_line h -> one_line path -> headers_ok headers -> size_of (build_request h path headers body) < 2 ^ 64 ->
  message_length (build_request h path headers body +:+ rest) = size_of (build_request h path headers body)
  /\ extract_header (build_request h path headers body +:+ rest)
     = http_head (request_line "POST" path :: field_lines (request_fields h headers body)).
Proof.
  intros Hh [P1 P2] Hok Hsize. assert (Hl : line_ok (request_line "POST" path)).
  { unfold request_line. apply line_ok_app; [done|..]; (apply (no_char_app _ " "); [done|]; by apply no_char_app). }
  pose proof (request_fields_ok h headers body Hh Hok) as Hf. unfold build_request. fold (request_fields h headers body). split.
  - apply framed_length; [done|done| | |done].
    + unfold request_fields. by rewrite app_assoc, last_field_app.
    + assert (Hte : last_field "Transfer-Encoding" (request_fields h headers body) = ""); [|by rewrite Hte].
      apply last_field_absent. unfold request_fields. apply Forall_app. split; [by repeat constructor|]. apply Forall_app.
      split; [|by repeat constructor]. apply list.Forall_forall. intros kv [_ Hin]%list_elem_of_filter.
      unfold headers_ok in Hok. rewrite list.Forall_forall in Hok. by apply Hok.
  - rewrite str_app_assoc. apply extract_head; [done|]. by apply field_lines_ok.
Qed.

(** An endpoint comes from the browser that subscribed: a line break in it adds a header. *)
Definition crlf_endpoint : string := "https://push.example/x HTTP/1.1" +:+ CRLF +:+ "X-Injected: yes" +:+ CRLF +:+ "X-Rest:".
Lemma endpoint_adds_header :
  exists u, parse_url crlf_endpoint = Some u
    /\ extract_header (build_request (host u) (path_and_query u) [] "") =
       http_head (["POST /x HTTP/1.1"; "X-Injected: yes"; "X-Rest: HTTP/1.1"] ++ field_lines (request_fields "push.example" [] "")).
Proof. eexists. split; [by vm_compute|by vm_compute]. Qed.

(** * The exchange *)

Section Exchange.
Context {N : Type} `{!NetIO N} `{!NetDial N}.

(** A post always returns, with its connection closed, after it wrote its request at most; an
    address it cannot read opens no connection.  An answer within four mebibytes, cut into reads at
    any place, is returned with its status and body. *)
Theorem post_exchange url headers body n :
  match parse_url url with
  | None => https_post url headers body n = Some (no_response, idle_conn n)
  | Some u =>
      let raw := build_request (host u) (path_and_query u) headers body in
      let '(up, s) := net_connect (host u) (port u) n in
      (exists r c, https_post url headers body n = Some (r, c) /\ m_handle c = false
         /\ log c = if up then [Sent raw (net_send raw s).1; SockClosed] else [])
      /\ (up = true -> (net_send raw s).1 = true ->
          forall minor st reason fields text chunks s',
          0 <= st < 2 ^ 31 -> minor <> " "%char -> line_ok (status_line minor st reason) -> Forall line_ok fields ->
          delivers (net_send raw s).2 chunks s' ->
          str_concat chunks = http_head (status_line minor st reason :: fields) +:+ text ->
          fst <$> https_post url headers body n
          = Some (if size_of (str_concat chunks) <=? kMaxPushResponse then mkResponse st text else no_response))
  end.
Proof. unfold https_post. destruct (parse_url url) as [u|]; [|done]. by apply exchange_spec. Qed.
End Exchange.

(** * Examples *)

Definition push_headers : list (string * string) :=
  [("Authorization", "vapid t=a.b.c, k=d"); ("Content-Encoding", "aes128gcm"); ("TTL", "60")].
Lemma push_headers_ok : headers_ok push_headers.
Proof. by repeat constructor. Qed.

Lemma post_framed_witness :
  message_length (build_request "push.example" "/x?id=1" push_headers "body" +:+ "next")
    = size_of (build_request "push.example" "/x?id=1" push_headers "body")
  /\ extract_header (build_request "push.example" "/x?id=1" push_headers "body" +:+ "next")
     = http_head (request_line "POST" "/x?id=1" :: field_lines (request_fields "push.example" push_headers "body")).
Proof. apply post_framed; [done|done|apply push_headers_ok|by vm_compute]. Defined.

(** A push service that accepts, its answer in two reads. *)
Definition created : string := http_head [status_line "1" 201 "Created"; field "Location" "/m/1"] +:+ "ok".
Definition push_service : Scripted := mkScripted "" "" [Some (str_take 20 created); Some (str_drop 20 created); None] true.
Lemma post_exchange_witness : fst <$> https_post "https://push.example/x" push_headers "body" push_service = Some (mkResponse 201 "ok").
Proof.
  pose proof (post_exchange "https://push.example/x" push_headers "body" push_service) as He.
  destruct (parse_url _) as [u|] eqn:Hu; [|by vm_compute in Hu].
  destruct (net_connect (host u) (port u) push_service) as [up s] eqn:Hc. injection Hc as <- <-.
  destruct He as [_ He]. specialize (He eq_refl eq_refl "1"%char 201 "Created" [field "Location" "/m/1"] "ok"
    [str_take 20 created; str_drop 20 created] (mkScripted "" "" [] true) ltac:(lia) ltac:(done)).
  apply He; clear He.
  - by vm_compute.
  - by repeat constructor.
  - eapply delivers_chunk; [reflexivity|by vm_compute|]. eapply delivers_chunk; [reflexivity|by vm_compute|]. by apply delivers_end.
  - vm_compute; reflexivity.
Defined.
