(* ===== verification/PushSender.v ===== *)
(** Web Push: modules/module/pbx/src/push_sender.cpp, its encodings and payload encryption
    (namespace push_crypto) and then the class [PushSender] with its retries.

    OpenSSL's key derivation, cipher, curve and signature are the class [WebCrypto]; an answer
    [None] is a failure, which the code turns into a [runtime_error]. *)

From S2P Require Import Prelude SipFrame Json.

#[local] Open Scope Z_scope.

Class WebCrypto := {
  hkdf : string -> string -> string -> nat -> option string;
  gcm_seal : string -> string -> string -> option (string * string);
  gcm_open : string -> string -> string -> string -> option string;
  ecdh : string -> string -> option string;
  pem_public : string -> option string;
  ecdsa : string -> string -> option (Z * Z);
  ecdsa_verify : string -> string -> Z * Z -> bool }.

Class WebCryptoLaws `{!WebCrypto} : Prop := {
  hkdf_total salt ikm info n : is_Some (hkdf salt ikm info n);
  seal_total key nonce plain : is_Some (gcm_seal key nonce plain);
  seal_open key nonce plain ct tag : gcm_seal key nonce plain = Some (ct, tag) ->
    gcm_open key nonce ct tag = Some plain /\ String.length tag = 16%nat /\ String.length ct = String.length plain;
  ecdh_agree a b pa pb : pem_public a = Some pa -> pem_public b = Some pb -> exists s, ecdh a pb = Some s /\ ecdh b pa = Some s;
  public_length a pa : pem_public a = Some pa -> String.length pa = 65%nat;
  sign_verify a pa data : pem_public a = Some pa ->
    exists r s, ecdsa a data = Some (r, s) /\ 0 <= r < 2 ^ 256 /\ 0 <= s < 2 ^ 256 /\ ecdsa_verify pa data (r, s) = true }.

Definition or_throw {A} (o : option A) : result A := match o with Some a => Ok a | None => Throw RuntimeError end.

(** * Base64url *)

Definition kB64Alphabet : string := "ABCDEFGHIJKLMNOPQRSTUVWXYZabcdefghijklmnopqrstuvwxyz0123456789-_".
Definition url_letter (n : Z) : ascii := char_at (Z.to_nat (Z.land n 63)) kB64Alphabet.

Definition b64_value (c : ascii) : Z :=
  let z := ord c in
  if (65 <=? z) && (z <=? 90) then z - 65
  else if (97 <=? z) && (z <=? 122) then z - 97 + 26
  else if (48 <=? z) && (z <=? 57) then z - 48 + 52
  else if Ascii.eqb c "-" || Ascii.eqb c "+" then 62
  else if Ascii.eqb c "_" || Ascii.eqb c "/" then 63
  else -1.

Fixpoint b64url_encode (raw : string) : string :=
  match raw with
  | String c0 (String c1 (String c2 raw')) =>
      let b0 := ord c0 in let b1 := ord c1 in let b2 := ord c2 in
      String (url_letter (Z.shiftr b0 2))
        (String (url_letter (Z.lor (Z.shiftl b0 4) (Z.shiftr b1 4)))
           (String (url_letter (Z.lor (Z.shiftl b1 2) (Z.shiftr b2 6)))
              (String (url_letter b2) (b64url_encode raw'))))
  | String c0 (String c1 "") =>
      let b0 := ord c0 in let b1 := ord c1 in
      String (url_letter (Z.shiftr b0 2))
        (String (url_letter (Z.lor (Z.shiftl b0 4) (Z.shiftr b1 4)))
           (String (url_letter (Z.shiftl b1 2)) ""))
  | String c0 "" =>
      let b0 := ord c0 in String (url_letter (Z.shiftr b0 2)) (String (url_letter (Z.shiftl b0 4)) "")
  | "" => ""
  end.

(** The loop over the characters; [acc] is a 32-bit number. *)
Fixpoint b64url_loop (acc bits : Z) (s : string) : result string :=
  match s with
  | "" => Ok ""
  | String c s' =>
      if Ascii.eqb c "=" then Ok "" else
      let v := b64_value c in
      if v <? 0 then Throw RuntimeError else
      let acc := Z.lor (u32 (Z.shiftl acc 6)) v in
      let bits := bits + 6 in
      if 8 <=? bits then
        let bits := bits - 8 in
        out ← b64url_loop acc bits s'; Ok (String (chr (Z.land (Z.shiftr acc bits) 255)) out)
      else b64url_loop acc bits s'
  end.
Definition b64url_decode (s : string) : result string := b64url_loop 0 0 s.

(** * The encrypted record *)

Section Crypto.
Context `{!WebCrypto}.

Definition hkdf_sha256 (salt ikm info : string) (length : nat) : result string := or_throw (hkdf salt ikm info length).
Definition aes128gcm_encrypt (key nonce plaintext : string) : result string :=
  '(ct, tag) ← or_throw (gcm_seal key nonce plaintext); Ok (ct +:+ tag).
Definition aes128gcm_decrypt (key nonce ct_with_tag : string) : result string :=
  let size := String.length ct_with_tag in
  if (size <? 16)%nat then Throw RuntimeError
  else or_throw (gcm_open key nonce (str_take (size - 16) ct_with_tag) (str_drop (size - 16) ct_with_tag)).
Definition ecdh_p256 (our_private_pem peer_pub : string) : result string := or_throw (ecdh our_private_pem peer_pub).
Definition p256_public_from_pem (private_pem : string) : result string := or_throw (pem_public private_pem).

Definition with_nul (s : string) : string := s +:+ String zero "".

Definition encrypt_payload_impl (payload p256dh auth server_priv_pem server_pub salt : string) : result string :=
  shared ← ecdh_p256 server_priv_pem p256dh;
  let key_info := with_nul "WebPush: info" +:+ p256dh +:+ server_pub in
  ikm ← hkdf_sha256 auth shared key_info 32;
  cek ← hkdf_sha256 salt ikm (with_nul "Content-Encoding: aes128gcm") 16;
  nonce ← hkdf_sha256 salt ikm (with_nul "Content-Encoding: nonce") 12;
  ct ← aes128gcm_encrypt cek nonce (payload +:+ String (chr 2) "");
  Ok (salt +:+ write_u32_be 4096 +:+ String (chr (Z.of_nat (String.length server_pub))) (server_pub +:+ ct)).

(** [while(!padded.empty() && padded.back() == 0x00) padded.pop_back()]. *)
Fixpoint strip_zeros (s : string) : string :=
  match s with
  | "" => ""
  | String c s' =>
      match strip_zeros s' with
      | "" => if Ascii.eqb c zero then "" else String c ""
      | t => String c t
      end
  end.

Definition decrypt_payload_for_testing (private_pem auth record : string) : result string :=
  if (String.length record <? 21)%nat then Throw RuntimeError else
  let salt := str_take 16 record in
  let idlen := Z.to_nat (ord (char_at 20 record)) in
  if (String.length record <? 21 + idlen)%nat then Throw RuntimeError else
  let server_pub := substr 21 idlen record in
  let ciphertext := str_drop (21 + idlen) record in
  subscriber_pub ← p256_public_from_pem private_pem;
  shared ← ecdh_p256 private_pem server_pub;
  let key_info := with_nul "WebPush: info" +:+ subscriber_pub +:+ server_pub in
  ikm ← hkdf_sha256 auth shared key_info 32;
  cek ← hkdf_sha256 salt ikm (with_nul "Content-Encoding: aes128gcm") 16;
  nonce ← hkdf_sha256 salt ikm (with_nul "Content-Encoding: nonce") 12;
  padded ← aes128gcm_decrypt cek nonce ciphertext;
  match str_back padded with
  | Some c => if Ascii.eqb c (chr 2) then Ok (strip_zeros (pop_back padded)) else Throw RuntimeError
  | None => Throw RuntimeError
  end.

(** * Signatures *)

(** A number as [n] bytes, the highest first. *)
Fixpoint be_pad (n : nat) (z : Z) : string :=
  match n with O => "" | S n => String (chr (Z.shiftr z (8 * Z.of_nat n))) (be_pad n z) end.
Definition ecdsa_der_to_jose (sig : Z * Z) : string := be_pad 32 sig.1 +:+ be_pad 32 sig.2.
Definition ecdsa_sign (private_pem data : string) : result string :=
  sig ← or_throw (ecdsa private_pem data); Ok (ecdsa_der_to_jose sig).
End Crypto.

(** * The push sender: class [PushSender].  The key pairs, the random bytes, the HTTP client,
    the database and the clock are the class [PushHost]; [done_so_far] is what was done with
    them, in order.  [p256_generate] is taken to succeed, as the code takes it. *)

Class PushHost (H : Type) := {
  p256_generate : H -> (string * string) * H;
  rand_source : nat -> H -> option string * H;
  http_post : string -> list (string * string) -> string -> H -> (Z * string) * H;
  get_subscriptions : string -> H -> result string * H;
  delete_subscription : string -> H -> result unit * H;
  now_unix : H -> Z }.

Record Config := mkConfig {
  vapid_private_pem : string; vapid_subject : string; jwt_exp_seconds : Z; max_retries : Z; initial_backoff_ms : Z }.
Definition default_config (pem subject : string) : Config := mkConfig pem subject (12 * 60 * 60) 3 100.

Inductive push_event := Posted (url : string) (status : Z) | Deleted (query : string) | Slept (ms : Z).
Record Push (H : Type) := mkPush { host : H; done_so_far : list push_event }.
Arguments mkPush {H} _ _.
Arguments host {H} _.
Arguments done_so_far {H} _.

Section Sender.
Context {H : Type} `{!PushHost H} `{!WebCrypto} `{!JsonLib}.
Implicit Types (w : Push H).

Record PushSender := mkPushSender { m_cfg : Config; m_vapid_pub_b64 : string }.

Definition new_sender (cfg : Config) : result PushSender :=
  if str_empty (vapid_private_pem cfg) then Throw RuntimeError else
  pub ← p256_public_from_pem (vapid_private_pem cfg);
  Ok (mkPushSender cfg (b64url_encode pub)).

Definition origin_of (url : string) : string :=
  match find_str "://" url with
  | None => url
  | Some scheme =>
      match find_char_from "/" (scheme + 3) url with
      | None => url
      | Some host_end => str_take host_end url
      end
  end.

Definition jwt_header : string :=
  "{" +:+ quoted "typ" +:+ ":" +:+ quoted "JWT" +:+ "," +:+ quoted "alg" +:+ ":" +:+ quoted "ES256" +:+ "}".

Definition jwt_claims (cfg : Config) (endpoint_origin : string) (now : Z) : json :=
  mk_obj [("aud", JStr endpoint_origin); ("exp", JInt (now + jwt_exp_seconds cfg)); ("sub", JStr (vapid_subject cfg))].

Definition sign_vapid_jwt (s : PushSender) (endpoint_origin : string) (now : Z) : result string :=
  claims_json ← json_dump (jwt_claims (m_cfg s) endpoint_origin now);
  let signing_input := b64url_encode jwt_header +:+ "." +:+ b64url_encode claims_json in
  sig ← ecdsa_sign (vapid_private_pem (m_cfg s)) signing_input;
  Ok (signing_input +:+ "." +:+ b64url_encode sig).

Definition build_vapid_auth (s : PushSender) (endpoint_origin : string) (now : Z) : result string :=
  jwt ← sign_vapid_jwt s endpoint_origin now;
  Ok ("vapid t=" +:+ jwt +:+ ", k=" +:+ m_vapid_pub_b64 s).

(** Calls on the host. *)
Definition on_host {A} (f : H -> A * H) : M (Push H) A := fun w =>
  let '(a, h) := f (host w) in (Ok a, mkPush h (done_so_far w)).
Definition note (e : push_event) : M (Push H) unit := modify (fun w => mkPush (host w) (done_so_far w ++ [e])).

Definition rand_bytes (n : nat) : M (Push H) string :=
  r ← on_host (rand_source n); lift (or_throw r).

Definition encrypt_payload (payload p256dh_b64url auth_b64url : string) : M (Push H) string :=
  p256dh ← lift (b64url_decode p256dh_b64url);
  auth ← lift (b64url_decode auth_b64url);
  '(pem, pub) ← on_host p256_generate;
  salt ← rand_bytes 16;
  lift (encrypt_payload_impl payload p256dh auth pem pub salt).

Definition push_headers (vapid_auth : string) : list (string * string) :=
  [("Authorization", vapid_auth); ("Content-Encoding", "aes128gcm"); ("Content-Type", "application/octet-stream"); ("TTL", "60")].

Definition post (url : string) (headers : list (string * string)) (body : string) : M (Push H) Z :=
  r ← on_host (http_post url headers body); note (Posted url r.1) ;; mret r.1.
Definition delete_document (query : string) : M (Push H) unit :=
  r ← on_host (delete_subscription query); lift r ;; note (Deleted query).
Definition id_query (sub_id : string) : string := "{" +:+ quoted "_id" +:+ ":" +:+ quoted sub_id +:+ "}".

(** The attempts at one endpoint: whether it was delivered.  [retries] attempts are left after this
    one; the doubling stays an [int] for any sensible configuration. *)
Fixpoint post_loop (retries : nat) (backoff_ms : Z) (endpoint : string) (headers : list (string * string)) (body sub_id : string)
  : M (Push H) bool :=
  status ← post endpoint headers body;
  if (200 <=? status) && (status <? 300) then mret true
  else if status =? 410 then
    (if str_empty sub_id then mret tt else delete_document (id_query sub_id)) ;; mret false
  else if status =? 503 then
    match retries with
    | O => mret false
    | S retries =>
        (if 0 <? backoff_ms then note (Slept backoff_ms) else mret tt) ;;
        post_loop retries (backoff_ms * 2) endpoint headers body sub_id
    end
  else mret false.

Definition has_fields (sub : json) : bool := contains "endpoint" sub && contains "p256dh" sub && contains "auth" sub.

(** One turn of the loop over the subscriptions. *)
Definition notify_one (s : PushSender) (payload : string) (sub : json) : M (Push H) bool :=
  if negb (has_fields sub) then mret false else
  endpoint ← lift (at_str "endpoint" sub);
  p256dh ← lift (at_str "p256dh" sub);
  auth_b64 ← lift (at_str "auth" sub);
  sub_id ← lift (value_str "_id" "" sub);
  body ← encrypt_payload payload p256dh auth_b64;
  now ← asks (fun w => now_unix (host w));
  vapid_auth ← lift (build_vapid_auth s (origin_of endpoint) now);
  if max_retries (m_cfg s) <? 0 then mret false
  else post_loop (Z.to_nat (max_retries (m_cfg s))) (initial_backoff_ms (m_cfg s)) endpoint (push_headers vapid_auth) body sub_id.

Fixpoint notify_each (s : PushSender) (payload : string) (subs : list json) (delivered : Z) : M (Push H) Z :=
  match subs with
  | [] => mret delivered
  | sub :: subs =>
      ok ← notify_one s payload sub;
      notify_each s payload subs (if ok : bool then delivered + 1 else delivered)
  end.

Definition notify (s : PushSender) (subscriber_id payload : string) : M (Push H) Z :=
  r ← on_host (get_subscriptions ("{" +:+ quoted "subscriberId" +:+ ":" +:+ quoted subscriber_id +:+ "}"));
  raw ← lift r;
  if str_empty raw then mret 0 else
  match json_parse raw with
  | Ok (JArr subs) => notify_each s payload subs 0
  | _ => mret 0
  end.
End Sender.
