(* ===== verification/PushSpec.v ===== *)
(** What the push sender guarantees: a browser that follows the RFCs reads what was encrypted for it, the push
    service accepts the signature, and the attempts follow the retry policy; and where the
    subscriptions of the database defeat it. *)

From S2P Require Import Prelude SipFrame Json HttpHead Base64 PushSender.

#[local] Open Scope Z_scope.

(** * Base64url *)

Lemma url_letter_mod n : url_letter n = url_letter (n mod 64).
Proof. unfold url_letter. rewrite !(Z.land_ones _ 6) by lia. by rewrite Z.mod_mod. Qed.
Lemma b64_value_letter n : b64_value (url_letter n) = n mod 64.
Proof.
  rewrite url_letter_mod. set (m := n mod 64). assert (Hm : 0 <= m < 64) by (apply Z.mod_pos_bound; lia).
  pose proof (letters_forall (fun m => b64_value (url_letter m) =? m) m eq_refl Hm) as Hb. by apply Z.eqb_eq in Hb.
Qed.
Lemma url_letter_forall (p : ascii -> bool) n :
  forallb (fun m => p (url_letter m)) (map Z.of_nat (seq 0 64)) = true -> p (url_letter n) = true.
Proof.
  intros Hp. rewrite url_letter_mod. apply (letters_forall (fun m => p (url_letter m))); [done|].
  apply Z.mod_pos_bound. lia.
Qed.

(** One letter of the loop. *)
Lemma loop_letter acc bits n s :
  b64url_loop acc bits (String (url_letter n) s)
  = let acc := u32 (acc * 64) + n mod 64 in
    if 8 <=? bits + 6 then out ← b64url_loop acc (bits - 2) s; Ok (String (chr (acc / 2 ^ (bits - 2))) out)
    else b64url_loop acc (bits + 6) s.
Proof.
  cbn [b64url_loop]. assert (He : Ascii.eqb (url_letter n) "=" = false).
  { apply negb_true_iff. by apply (url_letter_forall (fun c => negb (Ascii.eqb c "="))). }
  rewrite He, b64_value_letter. pose proof (Z.mod_pos_bound n 64 ltac:(lia)) as Hn.
  destruct (Z.ltb_spec (n mod 64) 0); [lia|].
  assert (Hl : Z.lor (u32 (Z.shiftl acc 6)) (n mod 64) = u32 (acc * 64) + n mod 64).
  { rewrite Z.shiftl_mul_pow2 by lia. unfold u32. change (2 ^ 6) with 64.
    assert (Hd : (acc * 64) mod 2 ^ 32 = (acc mod 2 ^ 26) * 2 ^ 6).
    { change (2 ^ 32) with (2 ^ 26 * 64). by rewrite Z.mul_mod_distr_r by lia. }
    rewrite Hd. change ((acc mod 2 ^ 26) * 2 ^ 6) with (Z.mul (acc mod 2 ^ 26) (2 ^ 6)).
    rewrite <- Z.shiftl_mul_pow2 at 1 by lia. apply bits_join; [lia|done]. }
  rewrite Hl. replace (bits + 6 - 8) with (bits - 2) by lia. destruct (8 <=? bits + 6) eqn:Hb; [|done].
  apply Z.leb_le in Hb. destruct (b64url_loop _ _ s) as [out|e]; cbn; [|done]. do 2 f_equal.
  rewrite Z.shiftr_div_pow2 by lia. unfold chr. rewrite (Z.land_ones _ 8) by lia.
  change (2 ^ 8) with 256. by rewrite Z.mod_mod.
Qed.

Definition push_bits (acc n : Z) : Z := u32 (acc * 64) + n mod 64.

Ltac bits_lia := unfold push_bits, u32; change (2 ^ 32) with 4294967296; Z.to_euclidean_division_equations; lia.
Lemma push_bits_64 acc n : push_bits acc n mod 64 = n mod 64.
Proof. bits_lia. Qed.
Lemma push_bits_16 acc n : push_bits acc n / 16 mod 256 = (acc mod 64) * 4 + (n mod 64) / 16.
Proof. bits_lia. Qed.
Lemma push_bits_4 acc n : push_bits acc n / 4 mod 256 = (acc mod 64 mod 16) * 16 + (n mod 64) / 4.
Proof. bits_lia. Qed.
Lemma push_bits_1 acc n : push_bits acc n / 1 mod 256 = (acc mod 64 mod 4) * 64 + n mod 64.
Proof. bits_lia. Qed.

Lemma loop_0 acc n s : b64url_loop acc 0 (String (url_letter n) s) = b64url_loop (push_bits acc n) 6 s.
Proof. by rewrite loop_letter. Qed.
Lemma loop_6 acc n s :
  b64url_loop acc 6 (String (url_letter n) s)
  = out ← b64url_loop (push_bits acc n) 4 s; Ok (String (chr (push_bits acc n / 16)) out).
Proof. by rewrite loop_letter. Qed.
Lemma loop_4 acc n s :
  b64url_loop acc 4 (String (url_letter n) s)
  = out ← b64url_loop (push_bits acc n) 2 s; Ok (String (chr (push_bits acc n / 4)) out).
Proof. by rewrite loop_letter. Qed.
Lemma loop_2 acc n s :
  b64url_loop acc 2 (String (url_letter n) s)
  = out ← b64url_loop (push_bits acc n) 0 s; Ok (String (chr (push_bits acc n / 1)) out).
Proof. by rewrite loop_letter. Qed.

(** The bytes that the letters give. *)
Ltac byte_of :=
  apply chr_mod; rewrite ?push_bits_16, ?push_bits_4, ?push_bits_1, ?push_bits_64;
  rewrite ?join4, ?join2, ?shift_right2, ?shift_left4, ?shift_left2;
  repeat match goal with |- context [ord ?c] => learn_range c end; Z.div_mod_to_equations; lia.

(** What was encoded is decoded, whatever bytes it holds. *)
Theorem b64url_roundtrip s : b64url_decode (b64url_encode s) = Ok s.
Proof.
  unfold b64url_decode. generalize 0 at 1 as acc.
  induction s as [|a|a b|a b c s IH] using three_ind; intros acc; cbn [b64url_encode]; [done|..].
  - rewrite loop_0, loop_6. cbn. do 2 f_equal. byte_of.
  - rewrite loop_0, loop_6, loop_4. cbn. do 2 f_equal; [byte_of|]. f_equal. byte_of.
  - rewrite loop_0, loop_6, loop_4, loop_2, IH. cbn. do 2 f_equal; [byte_of|]. f_equal; [byte_of|]. f_equal. byte_of.
Qed.

(** * What the browser reads *)

Class PushHostLaws (H : Type) `{!PushHost H} `{!WebCrypto} : Prop := {
  generated h : pem_public (p256_generate h).1.1 = Some (p256_generate h).1.2;
  random_length n h s : (rand_source n h).1 = Some s -> String.length s = n }.

(** The user agent of the standards, on the primitives of [WebCrypto] and nothing of the sender's. *)
Module Receiver.
Section Receiver.
Context `{!WebCrypto}.

(** RFC 8291, section 3.4, with the HKDF of RFC 5869: the secret of both keys and of the
    subscription, then (RFC 8188, sections 2.2 and 2.3) the key and the nonce of the first record. *)
Definition info (label : string) : string := label +:+ String "000" "".
Definition content_key (ecdh_secret auth_secret salt ua_public as_public : string) : option (string * string) :=
  ikm ← hkdf auth_secret ecdh_secret (info "WebPush: info" +:+ ua_public +:+ as_public) 32;
  cek ← hkdf salt ikm (info "Content-Encoding: aes128gcm") 16;
  nonce ← hkdf salt ikm (info "Content-Encoding: nonce") 12;
  Some (cek, nonce).

Fixpoint be_number (acc : Z) (s : string) : Z :=
  match s with "" => acc | String c s => be_number (acc * 256 + ord c) s end.

(** RFC 8188, section 2: after the plaintext a delimiter, 2 in the last record, and any number of
    zeros. *)
Fixpoint last_record (padded : list ascii) : option (list ascii) :=
  match padded with
  | [] => None
  | c :: rest => if ord c =? 0 then last_record rest else if ord c =? 2 then Some rest else None
  end.

(** The header (salt, record size, length and bytes of the sender's key), and the one record that a
    push message has (RFC 8291, section 4), of at most the record size. *)
Definition receive (ua_private auth_secret body : string) : option string :=
  let salt := str_take 16 body in
  let rs := be_number 0 (substr 16 4 body) in
  let idlen := Z.to_nat (ord (char_at 20 body)) in
  let as_public := substr 21 idlen body in
  let record := str_drop (21 + idlen) body in
  let size := String.length record in
  if (String.length body <? 21 + idlen + 17)%nat || (rs <? 18) || (rs <? Z.of_nat size) then None else
  ua_public ← pem_public ua_private;
  ecdh_secret ← ecdh ua_private as_public;
  '(cek, nonce) ← content_key ecdh_secret auth_secret salt ua_public as_public;
  padded ← gcm_open cek nonce (str_take (size - 16) record) (str_drop (size - 16) record);
  plain ← last_record (rev (list_ascii_of_string padded));
  Some (string_of_list_ascii (rev plain)).
End Receiver.
End Receiver.

Section Encryption.
Context {H : Type} `{!PushHost H} `{!WebCrypto} {HL : PushHostLaws H} {CL : WebCryptoLaws}.

(** What the sender derives is what the receiver of the standard derives. *)
Lemma derived (K : string -> string -> result string) shared auth salt p q :
  exists cek nonce, Receiver.content_key shared auth salt p q = Some (cek, nonce)
  /\ (ikm ← hkdf_sha256 auth shared (with_nul "WebPush: info" +:+ p +:+ q) 32;
      cek ← hkdf_sha256 salt ikm (with_nul "Content-Encoding: aes128gcm") 16;
      nonce ← hkdf_sha256 salt ikm (with_nul "Content-Encoding: nonce") 12; K cek nonce) = K cek nonce.
Proof.
  unfold Receiver.content_key, hkdf_sha256, Receiver.info, with_nul. change (String "000" "") with (String zero "").
  destruct (hkdf_total auth shared (("WebPush: info" +:+ String zero "") +:+ p +:+ q) 32) as [ikm ->]. cbn [mbind option_bind result_bind or_throw].
  destruct (hkdf_total salt ikm ("Content-Encoding: aes128gcm" +:+ String zero "") 16) as [cek ->]. cbn [mbind option_bind result_bind or_throw].
  destruct (hkdf_total salt ikm ("Content-Encoding: nonce" +:+ String zero "") 12) as [nonce ->]. by exists cek, nonce.
Qed.
Lemma gcm_round key nonce plain :
  exists ct tag, aes128gcm_encrypt key nonce plain = Ok (ct +:+ tag) /\ String.length ct = String.length plain
    /\ String.length tag = 16%nat /\ gcm_open key nonce ct tag = Some plain.
Proof.
  unfold aes128gcm_encrypt. destruct (seal_total key nonce plain) as [[ct tag] Hs]. rewrite Hs. cbn.
  apply seal_open in Hs as (Ho & Ht & Hc). by exists ct, tag.
Qed.
Lemma decrypts key nonce ct tag plain :
  String.length tag = 16%nat -> gcm_open key nonce ct tag = Some plain -> aes128gcm_decrypt key nonce (ct +:+ tag) = Ok plain.
Proof.
  intros Ht Ho. unfold aes128gcm_decrypt. rewrite str_length_app, Ht. destruct (Nat.ltb_spec (String.length ct + 16) 16); [lia|].
  replace (String.length ct + 16 - 16)%nat with (String.length ct) by lia. by rewrite str_take_app_length, str_drop_app_length, Ho.
Qed.

(** The fields of a record, at their places. *)
Lemma record_fields salt pub ct :
  String.length salt = 16%nat -> String.length pub = 65%nat ->
  let record := salt +:+ write_u32_be 4096 +:+ String (chr (Z.of_nat (String.length pub))) (pub +:+ ct) in
  String.length record = (86 + String.length ct)%nat /\ str_take 16 record = salt /\ substr 16 4 record = write_u32_be 4096
  /\ char_at 20 record = chr 65 /\ substr 21 65 record = pub /\ str_drop 86 record = ct.
Proof.
  intros Hs Hp record. unfold record. rewrite Hp. change (chr (Z.of_nat 65)) with (chr 65).
  set (hd := salt +:+ write_u32_be 4096).
  assert (Hh : String.length hd = 20%nat) by (unfold hd; rewrite str_length_app, Hs; done).
  rewrite <- str_app_assoc. fold hd. split_and!.
  - rewrite str_length_app, Hh. cbn [String.length]. rewrite str_length_app, Hp. lia.
  - unfold hd. rewrite str_app_assoc, <- Hs. apply str_take_app_length.
  - unfold substr, hd. rewrite str_app_assoc, <- Hs, str_drop_app_length. apply (str_take_app_length (write_u32_be 4096)).
  - rewrite <- Hh. clear. induction hd as [|c hd IH]; [done|]. rewrite str_app_cons. cbn [String.length char_at]. exact IH.
  - transitivity (str_take (String.length pub) (str_drop (String.length hd + 1) (hd +:+ String (chr 65) (pub +:+ ct)))).
    + by rewrite Hp, Hh.
    + rewrite str_drop_mid. apply str_take_app_length.
  - transitivity (str_drop (String.length pub) (str_drop (String.length hd + 1) (hd +:+ String (chr 65) (pub +:+ ct)))).
    + by rewrite Hp, Hh, str_drop_drop.
    + rewrite str_drop_mid. apply str_drop_app_length.
Qed.

Lemma last_record_read payload :
  (plain ← Receiver.last_record (rev (list_ascii_of_string (payload +:+ String (chr 2) ""))); Some (string_of_list_ascii (rev plain)))
  = Some payload.
Proof.
  assert (Hl : list_ascii_of_string (payload +:+ String (chr 2) "") = list_ascii_of_string payload ++ [chr 2]).
  { induction payload as [|c t IH]; [done|]. rewrite str_app_cons. cbn [list_ascii_of_string app]. by rewrite IH. }
  rewrite Hl, rev_app_distr. cbn [rev app Receiver.last_record]. change (ord (chr 2)) with 2. cbn [Z.eqb Pos.eqb mbind option_bind].
  by rewrite rev_involutive, string_of_list_ascii_of_string.
Qed.

(** The receiver of the standard, and the repository's own decryptor. *)
Lemma impl_round payload sub_pem sub_pub auth pem pub salt :
  pem_public sub_pem = Some sub_pub -> pem_public pem = Some pub -> String.length salt = 16%nat ->
  exists record, encrypt_payload_impl payload sub_pub auth pem pub salt = Ok record
    /\ String.length record = (String.length payload + 103)%nat
    /\ Receiver.receive sub_pem auth record = (if (String.length payload <=? 4079)%nat then Some payload else None)
    /\ decrypt_payload_for_testing sub_pem auth record = Ok (strip_zeros payload).
Proof.
  intros Hsub Hpub Hsalt. destruct (ecdh_agree _ _ _ _ Hpub Hsub) as (sh & E1 & E2).
  pose proof (public_length _ _ Hpub) as Hpl. unfold encrypt_payload_impl, ecdh_p256. rewrite E1. cbn [or_throw mbind result_bind].
  edestruct (derived (fun cek nonce => ct ← aes128gcm_encrypt cek nonce (payload +:+ String (chr 2) "");
    Ok (salt +:+ write_u32_be 4096 +:+ String (chr (Z.of_nat (String.length pub))) (pub +:+ ct))) sh auth salt sub_pub pub)
    as (cek & nonce & Hk & Hs). cbn beta in Hs. rewrite Hs.
  destruct (gcm_round cek nonce (payload +:+ String (chr 2) "")) as (ct & tag & Hct & Hlen & Htag & Hopen).
  rewrite Hct. eexists. split; [reflexivity|].
  destruct (record_fields salt pub (ct +:+ tag) Hsalt Hpl) as (F1 & F2 & F3 & F4 & F5 & F6).
  rewrite str_length_app in Hlen. cbn [String.length] in Hlen. set (record := salt +:+ _) in *.
  assert (Hn : String.length (ct +:+ tag) = (String.length payload + 17)%nat) by (rewrite str_length_app; lia).
  rewrite Hn in F1. split; [rewrite F1; lia|]. split.
  - unfold Receiver.receive. rewrite F2, F3, F4. change (Z.to_nat (ord (chr 65))) with 65%nat. change (21 + 65)%nat with 86%nat.
    rewrite F5, F6, F1, Hn. change (Receiver.be_number 0 (write_u32_be 4096)) with 4096.
    destruct (Nat.ltb_spec (86 + (String.length payload + 17)) (86 + 17)); [lia|]. change (4096 <? 18) with false. cbn [orb].
    destruct (Z.ltb_spec 4096 (Z.of_nat (String.length payload + 17))), (Nat.leb_spec (String.length payload) 4079); try lia; [done|].
    rewrite Hsub. cbn [mbind option_bind]. rewrite E2. cbn [mbind option_bind]. rewrite Hk. cbn [mbind option_bind].
    replace (String.length payload + 17 - 16)%nat with (String.length ct) by lia.
    rewrite str_take_app_length, str_drop_app_length, Hopen. apply last_record_read.
  - unfold decrypt_payload_for_testing. rewrite F1.
    destruct (Nat.ltb_spec (86 + (String.length payload + 17)) 21); [lia|]. rewrite F4. change (Z.to_nat (ord (chr 65))) with 65%nat.
    change (21 + 65)%nat with 86%nat. destruct (Nat.ltb_spec (86 + (String.length payload + 17)) 86); [lia|].
    rewrite F2, F5, F6. unfold p256_public_from_pem, ecdh_p256. rewrite Hsub. cbn [or_throw mbind result_bind]. rewrite E2.
    cbn [or_throw mbind result_bind].
    edestruct (derived (fun cek nonce => padded ← aes128gcm_decrypt cek nonce (ct +:+ tag);
      match str_back padded with
      | Some c => if Ascii.eqb c (chr 2) then Ok (strip_zeros (pop_back padded)) else Throw RuntimeError
      | None => Throw RuntimeError end) sh auth salt sub_pub pub) as (cek' & nonce' & Hk' & Hs'). cbn beta in Hs'. rewrite Hs'.
    rewrite Hk in Hk'. injection Hk' as <- <-. rewrite (decrypts _ _ _ _ _ Htag Hopen). cbn [mbind result_bind].
    rewrite str_back_snoc, pop_back_snoc. done.
Qed.

Lemma strip_zeros_id s c : c <> zero -> strip_zeros (s +:+ String c "") = s +:+ String c "".
Proof.
  intros Hc. induction s as [|d s IH].
  - cbn. destruct (Ascii.eqb_spec c zero); done.
  - rewrite str_app_cons. cbn [strip_zeros]. rewrite IH. by destruct s.
Qed.

(** C29. What the browser reads.  A payload of at most 4079 bytes that the sender encrypted for a
    browser's keys, under a fresh key pair and salt, is exactly what a user agent of RFC 8291
    and RFC 8188 decrypts with its own key; a longer one it rejects, since the record is then
    larger than the size of 4096 that its header declares.  The record is the payload and 103
    bytes.  The repository's own decryptor reads any of them, but for the zero bytes at the end
    of a payload, which it takes for padding. *)
Theorem browser_reads payload sub_pem sub_pub auth w :
  pem_public sub_pem = Some sub_pub -> (rand_source 16 (p256_generate (host w)).2).1 <> None ->
  exists record w', encrypt_payload payload (b64url_encode sub_pub) (b64url_encode auth) w = (Ok record, w')
    /\ done_so_far w' = done_so_far w
    /\ String.length record = (String.length payload + 103)%nat
    /\ Receiver.receive sub_pem auth record = (if (String.length payload <=? 4079)%nat then Some payload else None)
    /\ decrypt_payload_for_testing sub_pem auth record = Ok (strip_zeros payload).
Proof.
  intros Hsub Hr. unfold encrypt_payload. rewrite !b64url_roundtrip, !bind_lift_ok.
  pose proof (generated (host w)) as Hg. unfold on_host at 1. unfold mbind at 1, M_bind.
  destruct (p256_generate (host w)) as [[pem pub] h1] eqn:Eg. cbn [fst snd] in *.
  unfold rand_bytes, on_host, mbind, M_bind. cbn [host].
  pose proof (random_length 16 h1) as Hl. destruct (rand_source 16 h1) as [[salt|] h2] eqn:Er; [|done]. cbn [fst] in *.
  unfold lift at 1. cbn [or_throw]. destruct (impl_round payload _ _ auth _ _ salt Hsub Hg (Hl _ eq_refl)) as (record & Hi & Hlen & Hb & Hd).
  unfold lift. rewrite Hi. by exists record; eexists.
Qed.
End Encryption.

(** * What the push service accepts *)

Lemma b64url_chars s : str_forallb (fun c => 0 <=? b64_value c) (b64url_encode s) = true.
Proof.
  assert (Hl : forall n, (0 <=? b64_value (url_letter n)) = true).
  { intros n. rewrite b64_value_letter. apply Z.leb_le, Z.mod_pos_bound. lia. }
  induction s as [|a|a b|a b c s IH] using three_ind; [done|..]; cbn [b64url_encode str_forallb]; rewrite !Hl; [done|done|].
  by rewrite IH.
Qed.
Lemma b64url_no_char d s : (0 <=? b64_value d) = false -> no_char d (b64url_encode s).
Proof.
  intros Hd. pose proof (b64url_chars s) as Hs. induction (b64url_encode s) as [|c t IH]; [done|]. cbn [str_forallb] in Hs.
  apply andb_prop in Hs as [Hc Hs]. unfold no_char in *. cbn [find_char]. rewrite IH by done.
  destruct (Ascii.eqb_spec c d) as [->|]; [congruence|done].
Qed.

Fixpoint be_read (acc : Z) (s : string) : Z :=
  match s with "" => acc | String c s' => be_read (acc * 256 + ord c) s' end.
Lemma be_read_pad n z acc :
  be_read acc (be_pad n z) = acc * 2 ^ (8 * Z.of_nat n) + z mod 2 ^ (8 * Z.of_nat n).
Proof.
  revert acc. induction n as [|n IH]; intros acc.
  - change (2 ^ (8 * Z.of_nat 0)) with 1. cbn [be_read be_pad]. rewrite Z.mod_1_r. lia.
  - cbn [be_pad be_read]. rewrite IH. set (p := 2 ^ (8 * Z.of_nat n)). assert (Hp : 0 < p) by (apply Z.pow_pos_nonneg; lia).
    replace (8 * Z.of_nat (S n)) with (8 * Z.of_nat n + 8) by lia. rewrite Z.pow_add_r by lia. fold p. change (2 ^ 8) with 256.
    rewrite Z.rem_mul_r by lia. rewrite Z.shiftr_div_pow2 by lia. fold p. rewrite ord_chr. ring.
Qed.
Lemma be_pad_length n z : String.length (be_pad n z) = n.
Proof. induction n as [|n IH]; [done|]. cbn. by rewrite IH. Qed.

Section Vapid.
Context `{!WebCrypto} {CL : WebCryptoLaws} `{!JsonLib}.

(** RFC 8292: the header names a signed token and the key; the token is for this origin, and it
    expires within a day. *)
Definition split_vapid (header : string) : option (string * string) :=
  if String.prefix "vapid t=" header then
    let rest := str_drop 8 header in
    n ← find_str ", k=" rest; Some (str_take n rest, str_drop (n + 4) rest)
  else None.
Definition claims_hold (origin : string) (now : Z) (claims : json) : bool :=
  match member_str "aud" claims, member "exp" claims with
  | Some aud, Some (JInt exp) => str_eqb aud origin && (now <? exp) && (exp <=? now + 24 * 60 * 60)
  | _, _ => false
  end.
Definition vapid_accepts (origin : string) (now : Z) (header : string) : bool :=
  match split_vapid header with
  | None => false
  | Some (token, key) =>
      match split_on "." token, b64url_decode key with
      | [h; c; s], Ok pub =>
          match b64url_decode c, b64url_decode s with
          | Ok claims, Ok sig =>
              ecdsa_verify pub (h +:+ "." +:+ c) (be_read 0 (str_take 32 sig), be_read 0 (str_drop 32 sig))
              && match json_parse claims with Ok j => claims_hold origin now j | Throw _ => false end
          | _, _ => false
          end
      | _, _ => false
      end
  end.

Lemma jose_read r s :
  0 <= r < 2 ^ 256 -> 0 <= s < 2 ^ 256 ->
  (be_read 0 (str_take 32 (ecdsa_der_to_jose (r, s))), be_read 0 (str_drop 32 (ecdsa_der_to_jose (r, s)))) = (r, s).
Proof.
  intros Hr Hs. unfold ecdsa_der_to_jose. cbn [fst snd].
  assert (Ht : forall a b, str_take 32 (be_pad 32 a +:+ b) = be_pad 32 a).
  { intros a b. transitivity (str_take (String.length (be_pad 32 a)) (be_pad 32 a +:+ b)); [by rewrite be_pad_length|apply str_take_app_length]. }
  assert (Hd : forall a b, str_drop 32 (be_pad 32 a +:+ b) = b).
  { intros a b. transitivity (str_drop (String.length (be_pad 32 a)) (be_pad 32 a +:+ b)); [by rewrite be_pad_length|apply str_drop_app_length]. }
  rewrite Ht, Hd, !be_read_pad. change (8 * Z.of_nat 32) with 256. rewrite !Z.mod_small by done. done.
Qed.

(** The header that a request carries is accepted by the push service of its endpoint: the token is
    signed with the key that the header names, for that origin, and expires within a day. *)
Theorem vapid_accepted cfg sender origin now text :
  new_sender cfg = Ok sender -> 0 < jwt_exp_seconds cfg <= 24 * 60 * 60 ->
  json_dump (jwt_claims cfg origin now) = Ok text -> json_parse text = Ok (jwt_claims cfg origin now) ->
  exists header, build_vapid_auth sender origin now = Ok header /\ vapid_accepts origin now header = true.
Proof.
  intros Hn He Hd Hp. unfold new_sender in Hn. destruct (str_empty _); [done|]. unfold p256_public_from_pem in Hn.
  destruct (pem_public (vapid_private_pem cfg)) as [pub|] eqn:Hpub; [|done]. cbn in Hn. injection Hn as <-.
  set (input := b64url_encode jwt_header +:+ "." +:+ b64url_encode text).
  destruct (sign_verify _ _ input Hpub) as (r & s & Hs & Hr & Hs' & Hv).
  unfold build_vapid_auth, sign_vapid_jwt. cbn [m_cfg m_vapid_pub_b64]. rewrite Hd. cbn [mbind result_bind]. fold input.
  unfold ecdsa_sign. rewrite Hs. cbn [or_throw mbind result_bind]. eexists. split; [reflexivity|].
  set (token := input +:+ "." +:+ b64url_encode (ecdsa_der_to_jose (r, s))). set (key := b64url_encode pub).
  assert (Htoken : token = str_join "." [b64url_encode jwt_header; b64url_encode text; b64url_encode (ecdsa_der_to_jose (r, s))]).
  { unfold token, input. cbn [str_join]. by rewrite !str_app_assoc. }
  assert (Hsplit : split_vapid ("vapid t=" +:+ token +:+ ", k=" +:+ key) = Some (token, key)).
  { unfold split_vapid. rewrite prefix_self. change (str_drop 8 ("vapid t=" +:+ ?x)) with x.
    rewrite find_str_skip.
    - cbn [mbind option_bind]. rewrite str_take_app_length. replace (String.length token + 4)%nat with (String.length (token +:+ ", k="))%nat.
      2: { by rewrite str_length_app. }
      by rewrite <- str_app_assoc, str_drop_app_length.
    - apply no_char_forallb. rewrite Htoken. cbn [str_join].
      assert (Hc : forall x, no_char "," (b64url_encode x)) by (intros x; by apply b64url_no_char).
      repeat (apply no_char_app; [by apply Hc || done|]). apply Hc. }
  unfold vapid_accepts. rewrite Hsplit, Htoken, split_on_join.
  2: { repeat constructor; by apply b64url_no_char. }
  2: { done. }
  unfold key. rewrite !b64url_roundtrip. fold input. rewrite (jose_read r s Hr Hs'), Hv, Hp. cbn [andb].
  unfold claims_hold, jwt_claims. change (member_str "aud" _) with (Some origin).
  change (member "exp" _) with (Some (JInt (now + jwt_exp_seconds cfg))). cbn beta iota. rewrite str_eqb_refl. cbn [andb].
  destruct (Z.ltb_spec now (now + jwt_exp_seconds cfg)); [|lia].
  by destruct (Z.leb_spec (now + jwt_exp_seconds cfg) (now + 24 * 60 * 60)); [|lia].
Qed.
End Vapid.

(** * The retry policy *)

Section Policy.
Context {H : Type} `{!PushHost H} `{!WebCrypto} {HL : PushHostLaws H} {CL : WebCryptoLaws} `{!JsonLib}.
Implicit Types (w : Push H).

(** What may happen at one endpoint, and whether it counts as delivered: [retries] attempts after the
    first, each after a pause that doubles; an endpoint that is gone is removed. *)
Inductive attempts (id url : string) : nat -> Z -> list push_event -> bool -> Prop :=
  | at_delivered retries ms st : 200 <= st < 300 -> attempts id url retries ms [Posted url st] true
  | at_gone retries ms : attempts id url retries ms (Posted url 410 :: if str_empty id then [] else [Deleted (id_query id)]) false
  | at_busy retries ms evs ok :
      attempts id url retries (ms * 2) evs ok ->
      attempts id url (S retries) ms ([Posted url 503] ++ (if 0 <? ms then [Slept ms] else []) ++ evs) ok
  | at_exhausted ms : attempts id url 0 ms [Posted url 503] false
  | at_failed retries ms st : ~ 200 <= st < 300 -> st <> 410 -> st <> 503 -> attempts id url retries ms [Posted url st] false.

Hypothesis deletes : forall q h, (delete_subscription q h).1 = Ok tt.

Lemma post_run url headers body w :
  exists h st, post url headers body w = (Ok st, mkPush h (done_so_far w ++ [Posted url st])).
Proof.
  unfold post, on_host, note, modify, mbind, M_bind, mret, M_ret. destruct (http_post url headers body (host w)) as [[st rb] h].
  by exists h, st.
Qed.

Lemma gone_run id w :
  exists h, (if str_empty id then mret tt else delete_document (id_query id)) w
    = (Ok tt, mkPush h (done_so_far w ++ if str_empty id then [] else [Deleted (id_query id)])).
Proof.
  destruct (str_empty id); [exists (host w); by rewrite app_nil_r; destruct w|].
  unfold delete_document, on_host, lift, note, modify, mbind, M_bind, mret, M_ret.
  pose proof (deletes (id_query id) (host w)) as Hd. destruct (delete_subscription (id_query id) (host w)) as [r h].
  cbn in Hd. subst r. by exists h.
Qed.

Lemma post_loop_run retries ms url headers body id w :
  exists h evs ok, post_loop retries ms url headers body id w = (Ok ok, mkPush h (done_so_far w ++ evs))
    /\ attempts id url retries ms evs ok.
Proof.
  revert ms w. induction retries as [|retries IH]; intros ms w; cbn [post_loop];
    destruct (post_run url headers body w) as (h & st & Hp); unfold mbind at 1, M_bind; rewrite Hp;
    set (w1 := mkPush h (done_so_far w ++ [Posted url st])).
  all: destruct ((200 <=? st) && (st <? 300)) eqn:E2.
  1,3: exists h, [Posted url st], true; split; [done|]; apply andb_prop in E2 as [?%Z.leb_le ?%Z.ltb_lt]; by constructor.
  all: assert (Hn2 : ~ 200 <= st < 300) by (intros [Ha%Z.leb_le Hb%Z.ltb_lt]; by rewrite Ha, Hb in E2).
  all: destruct (Z.eqb_spec st 410) as [->|H410].
  1,3: destruct (gone_run id w1) as (h2 & Hg); unfold mbind, M_bind; rewrite Hg; eexists h2, _, false;
    (split; [subst w1; cbn; by rewrite <- app_assoc|]); apply at_gone.
  all: destruct (Z.eqb_spec st 503) as [->|H503].
  - exists h, [Posted url 503], false. split; [done|constructor].
  - exists h, [Posted url st], false. split; [done|by constructor].
  - set (w2 := if 0 <? ms then mkPush h (done_so_far w1 ++ [Slept ms]) else w1).
    assert (Hs : (if 0 <? ms then note (Slept ms) else mret tt) w1 = (Ok tt, w2)) by (subst w2; by destruct (0 <? ms)).
    unfold mbind, M_bind. rewrite Hs. destruct (IH (ms * 2) w2) as (h' & evs & ok & Hr & Ha).
    exists h', ([Posted url 503] ++ (if 0 <? ms then [Slept ms] else []) ++ evs), ok. rewrite Hr. split; [|by constructor].
    subst w2 w1. destruct (0 <? ms); cbn; by rewrite <- !app_assoc.
  - exists h, [Posted url st], false. split; [done|by constructor].
Qed.

(** The requests of a run, and the time it slept. *)
Definition posts (evs : list push_event) : nat := list_sum (map (fun e => match e with Posted _ _ => 1%nat | _ => O end) evs).
Definition slept (evs : list push_event) : Z := foldr Z.add 0 (map (fun e => match e with Slept ms => ms | _ => 0 end) evs).
Lemma posts_app l l' : posts (l ++ l') = (posts l + posts l')%nat.
Proof. unfold posts. by rewrite map_app, list_sum_app. Qed.
Lemma slept_app l l' : slept (l ++ l') = slept l + slept l'.
Proof. unfold slept. induction l as [|e l IH]; [done|]. cbn. rewrite IH. lia. Qed.

Lemma attempts_bounded id url retries ms evs ok :
  attempts id url retries ms evs ok -> 0 <= ms -> (posts evs <= S retries)%nat /\ slept evs <= ms * (2 ^ Z.of_nat retries - 1).
Proof.
  assert (Hp : forall r, 1 <= 2 ^ Z.of_nat r) by (intros r; pose proof (Z.pow_pos_nonneg 2 (Z.of_nat r)); lia).
  induction 1 as [r ms st|r ms|r ms evs ok Ha IH|ms|r ms st]; intros Hms; pose proof (Hp r) as H1 || clear Hp.
  - cbn. split; [lia|nia].
  - destruct (str_empty id); cbn; (split; [lia|nia]).
  - destruct (IH ltac:(lia)) as [I1 I2]. rewrite !posts_app, !slept_app. replace (Z.of_nat (S r)) with (Z.of_nat r + 1) by lia.
    rewrite Z.pow_add_r by lia. destruct (0 <? ms); cbn; (split; [lia|nia]).
  - cbn. split; lia.
  - cbn. split; [lia|nia].
Qed.

(** A subscription of a browser, in the form the sender reads it: the endpoint and its record. *)
Record readable_sub (cfg : Config) (sub : json) (url id : string) : Prop := {
  sub_url : at_str "endpoint" sub = Ok url;
  sub_key : exists k pem pub, at_str "p256dh" sub = Ok k /\ b64url_decode k = Ok pub /\ pem_public pem = Some pub;
  sub_auth : exists k auth, at_str "auth" sub = Ok k /\ b64url_decode k = Ok auth;
  sub_id : value_str "_id" "" sub = Ok id;
  sub_origin : forall now, exists text, json_dump (jwt_claims cfg (origin_of url) now) = Ok text }.

Lemma at_str_contains k j s : at_str k j = Ok s -> contains k j = true.
Proof.
  unfold at_str, contains, member. destruct j; try done. intros Hs. apply bool_decide_eq_true.
  by destruct (obj_find k kvs).
Qed.

Hypothesis random : forall n h, (rand_source n h).1 <> None.

Lemma auth_run sender cfg origin now :
  new_sender cfg = Ok sender -> (exists text, json_dump (jwt_claims cfg origin now) = Ok text) ->
  exists header, build_vapid_auth sender origin now = Ok header.
Proof.
  intros Hn (text & Hd). unfold new_sender in Hn. destruct (str_empty _); [done|]. unfold p256_public_from_pem in Hn.
  destruct (pem_public (vapid_private_pem cfg)) as [pub|] eqn:Hpub; [|done]. cbn in Hn. injection Hn as <-.
  unfold build_vapid_auth, sign_vapid_jwt. cbn [m_cfg m_vapid_pub_b64]. rewrite Hd. cbn [mbind result_bind].
  destruct (sign_verify _ _ (b64url_encode jwt_header +:+ "." +:+ b64url_encode text) Hpub) as (r & s & Hs & _).
  unfold ecdsa_sign. rewrite Hs. cbn. eauto.
Qed.

Lemma encrypt_run payload k auth_k pem pub auth w :
  b64url_decode k = Ok pub -> pem_public pem = Some pub -> b64url_decode auth_k = Ok auth ->
  exists record h, encrypt_payload payload k auth_k w = (Ok record, mkPush h (done_so_far w)).
Proof.
  intros Hk Hpub Ha. unfold encrypt_payload. rewrite Hk, Ha, !bind_lift_ok. pose proof (generated (host w)) as Hg.
  unfold on_host at 1. unfold mbind at 1, M_bind. destruct (p256_generate (host w)) as [[gpem gpub] h1]. cbn [fst snd] in Hg.
  unfold rand_bytes, on_host, mbind, M_bind. cbn [PushSender.host]. pose proof (random 16 h1) as Hr. pose proof (random_length 16 h1) as Hl.
  destruct (rand_source 16 h1) as [[salt|] h2]; [|done]. cbn in Hr, Hl. unfold lift at 1. cbn [or_throw].
  destruct (impl_round payload _ _ auth _ _ salt Hpub Hg (Hl _ eq_refl)) as (record & Hi & _). unfold lift. rewrite Hi.
  by exists record, h2.
Qed.

Lemma notify_one_run sender cfg payload sub url id w :
  new_sender cfg = Ok sender -> 0 <= max_retries cfg -> readable_sub cfg sub url id ->
  exists h evs ok, notify_one sender payload sub w = (Ok ok, mkPush h (done_so_far w ++ evs))
    /\ attempts id url (Z.to_nat (max_retries cfg)) (initial_backoff_ms cfg) evs ok.
Proof.
  intros Hn Hm [Hu (k & pem & pub & Hk & Hdk & Hpub) (ak & auth & Hak & Hda) Hid Ho]. unfold notify_one, has_fields.
  rewrite (at_str_contains _ _ _ Hu), (at_str_contains _ _ _ Hk), (at_str_contains _ _ _ Hak). cbn [andb negb].
  rewrite Hu, Hk, Hak, Hid, !bind_lift_ok.
  destruct (encrypt_run payload k ak pem pub auth w Hdk Hpub Hda) as (record & h & He).
  rewrite (M_bind_ok _ _ _ _ _ He), bind_asks.
  destruct (auth_run sender cfg (origin_of url) (now_unix h) Hn (Ho _)) as (header & Ha). cbn [PushSender.host].
  rewrite Ha, bind_lift_ok. assert (Hc : m_cfg sender = cfg).
  { unfold new_sender in Hn. destruct (str_empty _); [done|]. destruct (p256_public_from_pem _); cbn in Hn; [|done]. by injection Hn as <-. }
  rewrite Hc. destruct (Z.ltb_spec (max_retries cfg) 0); [lia|].
  apply (post_loop_run _ _ url (push_headers header) record id (mkPush h (done_so_far w))).
Qed.

Definition delivered_of (reports : list (list push_event * bool)) : Z := Z.of_nat (List.length (List.filter snd reports)).

Lemma notify_each_run sender cfg payload subs targets n w :
  new_sender cfg = Ok sender -> 0 <= max_retries cfg -> Forall2 (fun sub t => readable_sub cfg sub t.1 t.2) subs targets ->
  exists h reports, notify_each sender payload subs n w
      = (Ok (n + delivered_of reports), mkPush h (done_so_far w ++ List.concat (map fst reports)))
    /\ Forall2 (fun t r => attempts t.2 t.1 (Z.to_nat (max_retries cfg)) (initial_backoff_ms cfg) r.1 r.2) targets reports.
Proof.
  intros Hn Hm Hs. revert n w. induction Hs as [|sub [url id] subs targets Hsub Hs IH]; intros n w.
  - exists (host w), []. cbn. rewrite app_nil_r. destruct w. split; [|constructor]. unfold delivered_of. cbn. by rewrite Z.add_0_r.
  - cbn [notify_each]. destruct (notify_one_run sender cfg payload sub url id w Hn Hm Hsub) as (h & evs & ok & Hr & Ha).
    rewrite (M_bind_ok _ _ _ _ _ Hr). destruct (IH (if ok then n + 1 else n) (mkPush h (done_so_far w ++ evs))) as (h' & reports & Hr' & Hf).
    exists h', ((evs, ok) :: reports). rewrite Hr'. cbn [done_so_far]. split; [|by constructor].
    unfold delivered_of. cbn [List.filter snd map fst List.concat]. rewrite <- app_assoc. do 2 f_equal. destruct ok; cbn [List.length]; lia.
Qed.

(** When the subscriptions of a subscriber are in the form the sender reads, every one of them is
    served in turn, whatever the push services answer: the number returned is the number delivered,
    an endpoint gets at most one request and the retries, a pause doubles, an endpoint that is gone
    is removed, and any other answer ends the attempts at this endpoint only. *)
Theorem subscriptions_served sender cfg subscriber_id payload raw subs targets w h0 :
  new_sender cfg = Ok sender -> 0 <= max_retries cfg -> 0 <= initial_backoff_ms cfg ->
  get_subscriptions ("{" +:+ quoted "subscriberId" +:+ ":" +:+ quoted subscriber_id +:+ "}") (host w) = (Ok raw, h0) ->
  raw <> "" -> json_parse raw = Ok (JArr subs) -> Forall2 (fun sub t => readable_sub cfg sub t.1 t.2) subs targets ->
  exists w' reports, notify sender subscriber_id payload w = (Ok (delivered_of reports), w')
    /\ done_so_far w' = done_so_far w ++ List.concat (map fst reports)
    /\ Forall2 (fun t r => attempts t.2 t.1 (Z.to_nat (max_retries cfg)) (initial_backoff_ms cfg) r.1 r.2
         /\ (posts r.1 <= S (Z.to_nat (max_retries cfg)))%nat
         /\ slept r.1 <= initial_backoff_ms cfg * (2 ^ max_retries cfg - 1)) targets reports.
Proof.
  intros Hn Hm Hb Hg Hr%str_empty_false Hp Hs. unfold notify.
  rewrite (M_bind_ok (on_host _) _ w (Ok raw) (mkPush h0 (done_so_far w))) by (unfold on_host; by rewrite Hg).
  rewrite bind_lift_ok, Hr, Hp.
  destruct (notify_each_run sender cfg payload subs targets 0 (mkPush h0 (done_so_far w)) Hn Hm Hs) as (h & reports & -> & Hf).
  do 2 eexists. split; [reflexivity|]. split; [done|]. eapply Forall2_impl; [|exact Hf]. intros t r Ha. cbn in Ha. split; [done|].
  apply attempts_bounded in Ha; [|done]. by rewrite Z2Nat.id in Ha by done.
Qed.
End Policy.

(** A document as the database stores it: its [_id] is not a string, and the sender throws before it
    has posted anything to anyone. *)
Lemma stored_subscription_throws {H} `{!PushHost H} `{!WebCrypto} `{!JsonLib} sender payload url key auth oid others n (w : Push H) :
  notify_each sender payload
    (mk_obj [("_id", mk_obj [("$oid", JStr oid)]); ("endpoint", JStr url); ("p256dh", JStr key); ("auth", JStr auth)] :: others) n w
  = (Throw JsonTypeError, w).
Proof. reflexivity. Qed.

(** And a key that is not Base64url ends the run for the subscriptions after it. *)
Lemma bad_key_stops_the_others {H} `{!PushHost H} `{!WebCrypto} `{!JsonLib} sender payload url auth others n (w : Push H) :
  notify_each sender payload
    (mk_obj [("endpoint", JStr url); ("p256dh", JStr "!"); ("auth", JStr auth)] :: others) n w
  = (Throw RuntimeError, w).
Proof. reflexivity. Qed.

(** * An example *)

Definition to_length (n : nat) (s : string) : string := str_take n (s +:+ str_repeat "." n).
Lemma to_length_length n s : String.length (to_length n s) = n.
Proof. unfold to_length. rewrite str_length_take, str_length_app, str_length_repeat. lia. Qed.

#[global] Instance toy_web_crypto : WebCrypto := {|
  hkdf := fun salt ikm info n => Some (to_length n (salt +:+ ikm +:+ info));
  gcm_seal := fun key nonce plain => Some (plain, to_length 16 (key +:+ nonce));
  gcm_open := fun key nonce ct tag => if str_eqb tag (to_length 16 (key +:+ nonce)) then Some ct else None;
  ecdh := fun _ _ => Some "shared secret";
  pem_public := fun pem => Some (to_length 65 pem);
  ecdsa := fun pem data => Some (Z.of_nat (String.length data) mod 2 ^ 256, 1);
  ecdsa_verify := fun pub data sig => (sig.1 =? Z.of_nat (String.length data) mod 2 ^ 256) && (sig.2 =? 1) |}.
#[global] Instance toy_web_crypto_laws : WebCryptoLaws.
Proof.
  split.
  - by eexists.
  - by eexists.
  - intros key nonce plain ct tag [= <- <-]. cbn [gcm_open toy_web_crypto]. rewrite str_eqb_refl, to_length_length. done.
  - intros. by exists "shared secret".
  - intros a pa [= <-]. apply to_length_length.
  - intros a pa data _. eexists _, _. split; [reflexivity|]. split; [apply Z.mod_pos_bound; lia|]. split; [lia|].
    cbn [ecdsa_verify toy_web_crypto fst snd]. by rewrite Z.eqb_refl.
Qed.

(** Push services that answer from a list, and a database with some documents. *)
Record ToyHost := mkToyHost { answers : list Z; stored : string }.
#[global] Instance toy_push_host : PushHost ToyHost := {|
  p256_generate := fun h => (("server key", to_length 65 "server key"), h);
  rand_source := fun n h => (Some (to_length n "salt"), h);
  http_post := fun _ _ _ h => match answers h with [] => ((0, ""), h) | st :: l => ((st, ""), mkToyHost l (stored h)) end;
  get_subscriptions := fun _ h => (Ok (stored h), h);
  delete_subscription := fun _ h => (Ok tt, h);
  now_unix := fun _ => 1700000000 |}.
#[global] Instance toy_push_laws : PushHostLaws ToyHost.
Proof. split; [done|]. intros n h s [= <-]. apply to_length_length. Qed.

Definition browser_key : string := b64url_encode (to_length 65 "browser key").
Definition a_subscription (url id : string) : json :=
  mk_obj [("_id", JStr id); ("endpoint", JStr url); ("p256dh", JStr browser_key); ("auth", JStr (b64url_encode "auth"))].
Definition two_subscriptions : list json := [a_subscription "https://push.example/a" "1"; a_subscription "https://push.example/b" "2"].
Definition push_cfg : Config := default_config "vapid key" "mailto:admin@example.org".
Definition push_claims : json := jwt_claims push_cfg "https://push.example" 1700000000.
#[local] Instance push_json : JsonLib := table_json [JArr two_subscriptions; push_claims].
Definition push_world : Push ToyHost := mkPush (mkToyHost [503; 201; 410] (compact_dump (JArr two_subscriptions))) [].
Definition push_sender : PushSender := mkPushSender push_cfg (b64url_encode (to_length 65 "vapid key")).

Lemma push_sender_new : new_sender push_cfg = Ok push_sender.
Proof. by vm_compute. Qed.
Lemma a_subscription_readable url id : readable_sub push_cfg (a_subscription url id) url id.
Proof.
  split; [done| | |done|by eexists].
  - exists browser_key, "browser key", (to_length 65 "browser key"). split; [done|]. split; [apply b64url_roundtrip|done].
  - exists (b64url_encode "auth"), "auth". split; [done|]. apply b64url_roundtrip.
Qed.

Lemma browser_reads_witness :
  exists record w', encrypt_payload "call" (b64url_encode (to_length 65 "browser key")) (b64url_encode "auth") push_world = (Ok record, w')
    /\ done_so_far w' = [] /\ String.length record = 107%nat
    /\ Receiver.receive "browser key" "auth" record = Some "call"
    /\ decrypt_payload_for_testing "browser key" "auth" record = Ok "call".
Proof. by apply (browser_reads "call" "browser key" (to_length 65 "browser key") "auth" push_world). Defined.

Lemma vapid_accepted_witness :
  exists header, build_vapid_auth push_sender "https://push.example" 1700000000 = Ok header
    /\ vapid_accepts "https://push.example" 1700000000 header = true.
Proof.
  apply (vapid_accepted push_cfg push_sender "https://push.example" 1700000000 (compact_dump push_claims));
    [apply push_sender_new|cbn; lia|reflexivity|vm_compute; reflexivity].
Defined.

(** The first endpoint is busy once; the second is gone. *)
Lemma subscriptions_served_witness :
  (exists w' reports, notify push_sender "u1" "call" push_world = (Ok (delivered_of reports), w')
    /\ done_so_far w' = List.concat (map fst reports)
    /\ Forall2 (fun t r => attempts t.2 t.1 3 100 r.1 r.2 /\ (posts r.1 <= 4)%nat /\ slept r.1 <= 700)
         [("https://push.example/a", "1"); ("https://push.example/b", "2")] reports)
  /\ notify push_sender "u1" "call" push_world
     = (Ok 1, mkPush (mkToyHost [] (compact_dump (JArr two_subscriptions)))
        [Posted "https://push.example/a" 503; Slept 100; Posted "https://push.example/a" 201;
         Posted "https://push.example/b" 410; Deleted (id_query "2")]).
Proof.
  split; [|vm_compute; reflexivity].
  assert (Hd : forall q (h : ToyHost), (delete_subscription q h).1 = Ok tt) by done.
  assert (Hr : forall n (h : ToyHost), (rand_source n h).1 <> None) by done.
  apply (subscriptions_served Hd Hr push_sender push_cfg "u1" "call"
    (compact_dump (JArr two_subscriptions)) two_subscriptions _ push_world (host push_world) push_sender_new);
    [cbn; lia|cbn; lia|reflexivity|discriminate|vm_compute; reflexivity|].
  constructor; [apply a_subscription_readable|]. constructor; [apply a_subscription_readable|constructor].
Defined.
