(* ===== verification/Mongo.v ===== *)
(** The database server under mongodbc.cpp: the driver's calls (mongocxx, bsoncxx) as the class
    [MongoDriver], and what the manual documents of them as [DriverLaws], for the queries and
    updates that the code makes. *)

From S2P Require Import Prelude Json.

#[local] Open Scope Z_scope.

(** * Queries and updates *)

(** The values at a dotted path; an array on the way stands for its elements. *)
Fixpoint values_at (path : list string) (j : json) : list json :=
  match path with
  | [] => [j]
  | k :: path' =>
      let inside kvs := match obj_find k kvs with Some v => values_at path' v | None => [] end in
      match j with
      | JObj kvs => inside kvs
      | JArr l => flat_map (fun v => match v with JObj kvs => inside kvs | _ => [] end) l
      | _ => []
      end
  end.

(** Equality with a string: the value itself or an element of it. *)
Definition holds (s : string) (v : json) : bool :=
  let same v := match v with JStr t => str_eqb t s | _ => false end in
  match v with JArr l => existsb same l | _ => same v end.

(** A filter that asks for strings at dotted paths. *)
Definition query : Type := list (string * string).
Definition query_doc (q : query) : json := mk_obj (map (fun kv => (kv.1, JStr kv.2)) q).
Definition matches (q : query) (doc : json) : bool :=
  forallb (fun kv => existsb (holds kv.2) (values_at (split_on "." kv.1) doc)) q.

(** [$set] and [$unset] at a dotted path; [None] where the server refuses. *)
Fixpoint set_path (path : list string) (v j : json) : option json :=
  match path with
  | [] => Some v
  | k :: path' =>
      match j with
      | JObj kvs => sub ← set_path path' v (default (JObj []) (obj_find k kvs)); Some (JObj (obj_set k sub kvs))
      | _ => None
      end
  end.
Fixpoint unset_path (path : list string) (j : json) : option json :=
  match path with
  | [] => None
  | [k] => match j with JObj kvs => Some (JObj (obj_erase k kvs)) | _ => Some j end
  | k :: path' =>
      match j with
      | JObj kvs =>
          match obj_find k kvs with
          | Some sub => sub ← unset_path path' sub; Some (JObj (obj_set k sub kvs))
          | None => Some j
          end
      | _ => Some j
      end
  end.

(** One path that is set and at most one that is removed. *)
Record update := mkUpdate { to_set : string * json; to_unset : option string }.
Definition update_doc (u : update) : json :=
  mk_obj (("$set", mk_obj [to_set u])
    :: match to_unset u with Some k => [("$unset", mk_obj [(k, JStr "")])] | None => [] end).
Definition apply_update (u : update) (doc : json) : option json :=
  doc ← set_path (split_on "." (to_set u).1) (to_set u).2 doc;
  match to_unset u with Some k => unset_path (split_on "." k) doc | None => Some doc end.

(** The documents that match, and every one of them updated. *)
Definition matching (q : query) (docs : list json) : list json := List.filter (matches q) docs.
Definition update_matching (q : query) (u : update) (docs : list json) : option (list json) :=
  mapM (fun doc => if matches q doc then apply_update u doc else Some doc) docs.

(** The counter that [find_one_and_update] with [$inc] keeps: the first document with this [_id]. *)
Definition has_id (id : string) (doc : json) : bool := match member "_id" doc with Some (JStr s) => str_eqb s id | _ => false end.
Definition counter_of (id field : string) (docs : list json) : option Z :=
  match List.find (has_id id) docs with
  | None => Some 0
  | Some doc => match member field doc with None => Some 0 | Some (JInt z) => Some z | _ => None end
  end.

(** * The driver *)

Definition oid_json (oid : string) : json := mk_obj [("$oid", JStr oid)].
(** [get_oid]: throws on an identifier of another type. *)
Definition get_oid (id : json) : result string :=
  match id with JObj [("$oid", JStr oid)] => Ok oid | _ => Throw DbError end.

(** [None] is an empty optional.  A change stream is a number; the files are GridFS's. *)
Class MongoDriver (D : Type) := {
  to_text : json -> string;
  acquire : D -> result bool * D;
  find_docs : string -> string -> json -> json -> D -> result (list json) * D;
  insert_one : string -> string -> json -> D -> result (option json) * D;
  insert_many : string -> string -> list json -> D -> result (option Z) * D;
  update_many : string -> string -> json -> json -> D -> result (option Z) * D;
  update_ones : string -> string -> list (json * json) -> D -> result (option Z) * D;
  delete_many : string -> string -> json -> D -> result (option Z) * D;
  find_one_and_update : string -> string -> json -> json -> D -> result (option json) * D;
  new_oid : D -> string * D;
  parse_oid : string -> result string;
  upload_file : string -> string -> string -> string -> string -> D -> result unit * D;
  files_named : string -> string -> D -> result (list json) * D;
  download_file : string -> json -> D -> result string * D;
  remove_file : string -> json -> D -> result unit * D;
  open_stream : string -> string -> option json -> D -> result Z * D;
  stream_begin : Z -> D -> result (option json) * D }.

(** The documents of a collection and the files of a database, in the order of a scan. *)
Class MongoView (D : Type) := {
  docs : string -> string -> D -> list json;
  files : string -> D -> list (string * (string * string)) }.

Definition no_projection : json := JObj [].

(** ** The cases that the laws speak of

    The manual gives other names a meaning of their own: an empty component, one that starts with
    a dollar sign, and one of digits, which can be the index of an array. *)

Definition plain_key (k : string) : bool :=
  negb (str_forallb is_digit k) && str_forallb (fun c => negb (Ascii.eqb c ".") && negb (Ascii.eqb c "000")) k
    && negb (String.prefix "$" k).
Definition plain_path (p : string) : bool := forallb plain_key (split_on "." p).
Definition plain_query (q : query) : Prop := NoDup q.*1 /\ Forall (fun k => plain_path k = true) q.*1.

(** Every field of every object in it has a plain name, once. *)
Fixpoint plain_json (j : json) : bool :=
  match j with
  | JObj kvs => bool_decide (NoDup kvs.*1) && forallb (fun kv => plain_key kv.1 && plain_json kv.2) kvs
  | JArr l => forallb plain_json l
  | _ => true
  end.
(** A document that leaves its identifier to the driver. *)
Definition unnamed_doc (j : json) : Prop := is_object j = true /\ plain_json j = true /\ member "_id" j = None.

(** One path is the other or goes through it: the server refuses an update of both. *)
Definition conflict (p p' : list string) : Prop := p `prefix_of` p' \/ p' `prefix_of` p.
Definition keeps_id (p : list string) : Prop := head p <> Some "_id".
Definition plain_update (u : update) : Prop :=
  let p := split_on "." (to_set u).1 in
  plain_path (to_set u).1 = true /\ keeps_id p /\ plain_json (to_set u).2 = true
  /\ match to_unset u with
     | Some k => plain_path k = true /\ keeps_id (split_on "." k) /\ ~ conflict p (split_on "." k)
     | None => True
     end.

(** Identifiers that no document has, and the documents that get them. *)
Definition fresh_oids (oids : list string) (ds : list json) : Prop :=
  NoDup oids /\ Forall (fun oid => oid <> "" /\ Forall (fun doc => member "_id" doc <> Some (oid_json oid)) ds) oids.
Definition with_oid (oid : string) (j : json) : json := set_key "_id" (oid_json oid) j.

(** ** What the manual documents

    A server that answers, collections without validation rules or unique indexes of their own,
    and documents below the server's limits.  Without a sort the results come in any order. *)
Class CollectionLaws (D : Type) `{!MongoDriver D} `{!MongoView D} : Prop := {
  acquire_law d : acquire d = (Ok true, d);
  find_law db coll q d : plain_query q -> exists ds,
    find_docs db coll (query_doc q) no_projection d = (Ok ds, d) /\ ds ≡ₚ matching q (docs db coll d);
  insert_law db coll j d : unnamed_doc j -> exists oid d',
    insert_one db coll j d = (Ok (Some (oid_json oid)), d')
    /\ fresh_oids [oid] (docs db coll d) /\ docs db coll d' ≡ₚ docs db coll d ++ [with_oid oid j];
  insert_many_law db coll l d : l <> [] -> Forall unnamed_doc l -> exists oids d',
    insert_many db coll l d = (Ok (Some (Z.of_nat (List.length l))), d') /\ List.length oids = List.length l
    /\ fresh_oids oids (docs db coll d) /\ docs db coll d' ≡ₚ docs db coll d ++ zip_with with_oid oids l;
  update_law db coll q u d ds : plain_query q -> plain_update u -> update_matching q u (docs db coll d) = Some ds -> exists d',
    update_many db coll (query_doc q) (update_doc u) d = (Ok (Some (Z.of_nat (List.length (matching q (docs db coll d))))), d')
    /\ docs db coll d' ≡ₚ ds;
  delete_law db coll q d : plain_query q -> exists d',
    delete_many db coll (query_doc q) d = (Ok (Some (Z.of_nat (List.length (matching q (docs db coll d))))), d')
    /\ docs db coll d' ≡ₚ List.filter (fun doc => negb (matches q doc)) (docs db coll d) }.

(** The order of a scan: the natural order, which a find of everything follows and in which an
    updated document keeps its place. *)
Class ScanLaws (D : Type) `{!MongoDriver D} `{!MongoView D} : Prop := {
  scan_law db coll d : find_docs db coll (query_doc []) no_projection d = (Ok (docs db coll d), d);
  in_place_law db coll q u d ds : plain_query q -> plain_update u -> update_matching q u (docs db coll d) = Some ds -> exists d',
    update_many db coll (query_doc q) (update_doc u) d = (Ok (Some (Z.of_nat (List.length (matching q (docs db coll d))))), d')
    /\ docs db coll d' = ds }.

(** [$inc] is atomic: no other client's update comes between the read and the write. *)
Class CounterLaws (D : Type) `{!MongoDriver D} `{!MongoView D} : Prop := {
  inc_law db coll id field z d : plain_key field = true -> field <> "_id" -> counter_of id field (docs db coll d) = Some z -> z + 1 < 2 ^ 63 -> exists doc d',
    find_one_and_update db coll (mk_obj [("_id", JStr id)]) (mk_obj [("$inc", mk_obj [(field, JInt 1)])]) d = (Ok (Some doc), d')
    /\ member field doc = Some (JInt (z + 1)) /\ counter_of id field (docs db coll d') = Some (z + 1) }.

Definition file_doc (f : string * (string * string)) : json := mk_obj [("_id", oid_json f.1); ("filename", JStr f.2.1)].
Class FileLaws (D : Type) `{!MongoDriver D} `{!MongoView D} : Prop := {
  oid_law d : (new_oid d).1 <> "" /\ parse_oid (new_oid d).1 = Ok (new_oid d).1
    /\ forall db, files db (new_oid d).2 = files db d /\ (new_oid d).1 ∉ (files db d).*1;
  upload_law db oid name ty data d : oid ∉ (files db d).*1 -> exists d',
    upload_file db oid name ty data d = (Ok tt, d') /\ files db d' = files db d ++ [(oid, (name, data))];
  named_law db name d :
    files_named db name d = (Ok (map file_doc (List.filter (fun f => str_eqb f.2.1 name) (files db d))), d);
  download_law db oid d :
    download_file db (oid_json oid) d
    = (match List.find (fun f => str_eqb f.1 oid) (files db d) with Some f => Ok f.2.2 | None => Throw DbError end, d);
  remove_law db oid d : oid ∈ (files db d).*1 -> exists d',
    remove_file db (oid_json oid) d = (Ok tt, d') /\ files db d' = List.filter (fun f => negb (str_eqb f.1 oid)) (files db d);
  remove_missing db oid d : oid ∉ (files db d).*1 -> remove_file db (oid_json oid) d = (Throw DbError, d) }.
