(* ===== verification/MongoStore.v ===== *)
(** A database server to evaluate the client on: collections and files in maps, with the
    behaviour that [Mongo] states, and the proofs that it has it. *)

From S2P Require Import Prelude Json Mongo.

#[local] Open Scope Z_scope.

(** * The store *)

Record Store := mkStore {
  collections : gmap (string * string) (list json);
  stored : gmap string (list (string * (string * string))) }.
Definition empty_store : Store := mkStore ∅ ∅.

#[export] Instance store_view : MongoView Store := {|
  docs db coll s := default [] (collections s !! (db, coll));
  files db s := default [] (stored s !! db) |}.
Definition put_docs (db coll : string) (ds : list json) (s : Store) : Store :=
  mkStore (<[(db, coll) := ds]> (collections s)) (stored s).
Definition put_files (db : string) (fs : list (string * (string * string))) (s : Store) : Store :=
  mkStore (collections s) (<[db := fs]> (stored s)).

(** A text that is longer than every one of a list. *)
Definition longer (l : list string) : string := str_repeat "f" (S (list_sum (map String.length l))).
Definition all_oids (s : Store) : list string := (List.concat (map snd (map_to_list (stored s)))).*1.

Definition id_text (doc : json) : string :=
  match member "_id" doc with Some (JObj [("$oid", JStr oid)]) => oid | _ => "" end.
(** A document with its identifier, made up when it has none. *)
Definition named_doc (ds : list json) (j : json) : json :=
  match member "_id" j with Some _ => j | None => with_oid (longer (map id_text ds)) j end.
Fixpoint insert_each (ds l : list json) : list json :=
  match l with [] => ds | j :: l => insert_each (ds ++ [named_doc ds j]) l end.

(** ** The driver's arguments read back *)

Definition string_field (kv : string * json) : option (string * string) :=
  match kv.2 with JStr s => Some (kv.1, s) | _ => None end.
Definition query_of (filter : json) : option query :=
  match filter with JObj kvs => mapM string_field kvs | _ => None end.
Definition update_of (u : json) : option update :=
  match u with
  | JObj [("$set", JObj [kv])] => Some (mkUpdate kv None)
  | JObj [("$set", JObj [kv]); ("$unset", JObj [(k, _)])] => Some (mkUpdate kv (Some k))
  | _ => None
  end.
Definition inc_of (filter u : json) : option (string * string) :=
  match filter, u with
  | JObj [("_id", JStr id)], JObj [("$inc", JObj [(field, JInt 1)])] => Some (id, field)
  | _, _ => None
  end.
Definition oid_of (id : json) : string := match id with JObj [("$oid", JStr oid)] => oid | _ => "" end.

Definition refused {A} (s : Store) : result A * Store := (Throw DbError, s).
Definition with_query {A} (filter : json) (s : Store) (f : query -> result A * Store) : result A * Store :=
  match query_of filter with Some q => f q | None => refused s end.

(** The counter's document written again, or added. *)
Fixpoint write_counter (id field : string) (z : Z) (ds : list json) : json * list json :=
  match ds with
  | [] => let doc := mk_obj [("_id", JStr id); (field, JInt z)] in (doc, [doc])
  | doc :: ds' =>
      if has_id id doc then let doc := set_key field (JInt z) doc in (doc, doc :: ds')
      else let '(written, ds'') := write_counter id field z ds' in (written, doc :: ds'')
  end.

#[export] Instance store_driver : MongoDriver Store := {|
  to_text := compact_dump;
  acquire s := (Ok true, s);
  find_docs db coll filter _ s := with_query filter s (fun q => (Ok (matching q (docs db coll s)), s));
  insert_one db coll j s :=
    let doc := named_doc (docs db coll s) j in
    match member "_id" doc with
    | Some id => (Ok (Some id), put_docs db coll (docs db coll s ++ [doc]) s)
    | None => refused s
    end;
  insert_many db coll l s :=
    (Ok (Some (Z.of_nat (List.length l))), put_docs db coll (insert_each (docs db coll s) l) s);
  update_many db coll filter u s :=
    with_query filter s (fun q =>
      match update_of u ≫= fun u => update_matching q u (docs db coll s) with
      | Some ds => (Ok (Some (Z.of_nat (List.length (matching q (docs db coll s))))), put_docs db coll ds s)
      | None => refused s
      end);
  update_ones _ _ _ s := refused s;
  delete_many db coll filter s :=
    with_query filter s (fun q =>
      (Ok (Some (Z.of_nat (List.length (matching q (docs db coll s))))),
       put_docs db coll (List.filter (fun doc => negb (matches q doc)) (docs db coll s)) s));
  find_one_and_update db coll filter u s :=
    match inc_of filter u with
    | Some (id, field) =>
        match counter_of id field (docs db coll s) with
        | Some z =>
            let '(doc, ds) := write_counter id field (z + 1) (docs db coll s) in (Ok (Some doc), put_docs db coll ds s)
        | None => refused s
        end
    | None => refused s
    end;
  new_oid s := (longer (all_oids s), s);
  parse_oid oid := if str_empty oid then Throw DbError else Ok oid;
  upload_file db oid name _ data s := (Ok tt, put_files db (files db s ++ [(oid, (name, data))]) s);
  files_named db name s := (Ok (map file_doc (List.filter (fun f => str_eqb f.2.1 name) (files db s))), s);
  download_file db id s :=
    (match List.find (fun f => str_eqb f.1 (oid_of id)) (files db s) with Some f => Ok f.2.2 | None => Throw DbError end, s);
  remove_file db id s :=
    if bool_decide (oid_of id ∈ (files db s).*1)
    then (Ok tt, put_files db (List.filter (fun f => negb (str_eqb f.1 (oid_of id))) (files db s)) s) else refused s;
  open_stream _ _ _ s := refused s;
  stream_begin _ s := (Ok None, s) |}.

(** * It behaves as documented *)

Lemma put_docs_same db coll ds s : docs db coll (put_docs db coll ds s) = ds.
Proof. cbn. by rewrite lookup_insert_eq. Qed.
Lemma put_files_same db fs s : files db (put_files db fs s) = fs.
Proof. cbn. by rewrite lookup_insert_eq. Qed.

Lemma obj_set_new k v kvs : k ∉ kvs.*1 -> obj_set k v kvs ≡ₚ (k, v) :: kvs.
Proof.
  induction kvs as [|[k' v'] kvs IH]; intros Hk; [done|]. cbn in Hk. apply not_elem_of_cons in Hk as [Hne Hk]. cbn [obj_set].
  destruct (String.compare k k') eqn:Hc; [by apply String.compare_eq_iff in Hc|done|]. rewrite IH by done. apply perm_swap.
Qed.
Lemma mk_obj_perm l : NoDup l.*1 -> exists kvs, mk_obj l = JObj kvs /\ kvs ≡ₚ l.
Proof.
  intros Hl. unfold mk_obj. eexists. split; [reflexivity|]. rewrite <- (app_nil_l l) at 2.
  assert (Hacc : NoDup (([] : list (string * json)) ++ l).*1) by done. revert Hacc. clear Hl. generalize (@nil (string * json)) as acc.
  induction l as [|[k v] l IH]; intros acc Ha; cbn [fold_left]; [by rewrite app_nil_r|].
  assert (Hk : k ∉ acc.*1).
  { rewrite fmap_app in Ha. apply list.NoDup_app in Ha as (_ & Hd & _). intros Hin. by apply (Hd k); [|left]. }
  pose proof (obj_set_new k v acc Hk) as Hp. cbn [fst snd]. rewrite IH, Hp; [by rewrite <- Permutation_middle|].
  rewrite Hp. cbn [app]. by rewrite Permutation_middle.
Qed.

Lemma query_back q : NoDup q.*1 -> exists q', query_of (query_doc q) = Some q' /\ q' ≡ₚ q.
Proof.
  intros Hq. destruct (mk_obj_perm (map (fun kv => (kv.1, JStr kv.2)) q)) as (kvs & Hm & Hp).
  { by rewrite <- list_fmap_compose. }
  unfold query_doc. rewrite Hm. cbn [query_of].
  exists (map (fun kv => (kv.1, match kv.2 with JStr s => s | _ => "" end)) kvs). split.
  - assert (Hs : Forall (fun kv : string * json => exists s, kv.2 = JStr s) kvs).
    { rewrite Hp. apply Forall_fmap, list.Forall_forall. intros [k s] _. by exists s. }
    clear -Hs. induction Hs as [|[k v] kvs [s Hv] Hs IH]; [done|]. cbn in *. subst v. by rewrite IH.
  - rewrite Hp, map_map. cbn. rewrite <- (map_id q) at 2. apply Permutation_refl'. apply map_ext. by intros [].
Qed.
Lemma matches_perm q q' doc : q ≡ₚ q' -> matches q doc = matches q' doc.
Proof.
  intros Hp. unfold matches. induction Hp as [|x l l' _ IH|x y l|l l' l'' _ IH1 _ IH2]; [done|by cbn; rewrite IH| |by rewrite IH1].
  cbn. by destruct (existsb _ _), (existsb _ _).
Qed.
Lemma with_query_doc {A} q s (f : query -> result A * Store) :
  NoDup q.*1 -> (forall q', q' ≡ₚ q -> f q' = f q) -> with_query (query_doc q) s f = f q.
Proof. intros Hq Hf. unfold with_query. destruct (query_back q Hq) as (q' & -> & Hp). by apply Hf. Qed.
Lemma matching_perm q q' ds : q ≡ₚ q' -> matching q ds = matching q' ds.
Proof. intros Hp. unfold matching. apply List.filter_ext. intros doc. by apply matches_perm. Qed.
Lemma update_matching_perm q q' u ds : q ≡ₚ q' -> update_matching q u ds = update_matching q' u ds.
Proof.
  intros Hp. unfold update_matching. induction ds as [|doc ds IH]; [done|]. cbn. by rewrite (matches_perm q q' doc Hp), IH.
Qed.
Lemma update_back u : update_of (update_doc u) = Some u.
Proof. destruct u as [[k v] [un|]]; reflexivity. Qed.

Lemma longer_not_in l : longer l ∉ l.
Proof.
  intros Hin. assert (Hb : forall x, x ∈ l -> (String.length x <= list_sum (map String.length l))%nat).
  { clear. induction l as [|y l IH]; intros x Hx; [by apply not_elem_of_nil in Hx|]. cbn.
    apply elem_of_cons in Hx as [->|Hx]; [lia|]. specialize (IH x Hx). unfold list_sum in IH. lia. }
  specialize (Hb _ Hin). unfold longer in Hb. rewrite str_length_repeat in Hb. lia.
Qed.
Lemma fresh_longer ds : fresh_oids [longer (map id_text ds)] ds.
Proof.
  split; [apply NoDup_singleton|]. constructor; [|constructor]. split; [done|]. apply list.Forall_forall. intros doc Hd Hm.
  apply (longer_not_in (map id_text ds)). apply list_elem_of_fmap. exists doc. split; [|done]. unfold id_text. by rewrite Hm.
Qed.
Lemma with_oid_member oid j : is_object j = true -> member "_id" (with_oid oid j) = Some (oid_json oid).
Proof. destruct j; try done. intros _. apply obj_find_set. Qed.
Lemma insert_each_fresh l : forall ds, Forall unnamed_doc l ->
  exists oids, insert_each ds l = ds ++ zip_with with_oid oids l /\ List.length oids = List.length l /\ fresh_oids oids ds.
Proof.
  induction l as [|j l IH]; intros ds Hl.
  { exists []. cbn. rewrite app_nil_r. split_and!; [done|done|split; constructor]. }
  apply Forall_cons_1 in Hl as [(Ho & _ & Hj) Hl]. cbn [insert_each]. unfold named_doc. rewrite Hj. set (oid := longer (map id_text ds)).
  destruct (IH (ds ++ [with_oid oid j]) Hl) as (oids & He & Hlen & Hn & Hf). exists (oid :: oids).
  split; [by rewrite He, <- app_assoc|]. split; [cbn; by rewrite Hlen|].
  destruct (fresh_longer ds) as [_ Hfo]. apply Forall_cons_1 in Hfo as [Hfo _]. split.
  - apply list.NoDup_cons. split; [|done]. intros Hin. rewrite list.Forall_forall in Hf. destruct (Hf _ Hin) as [_ Ha].
    apply Forall_app in Ha as [_ Ha]. apply Forall_cons_1 in Ha as [Ha _]. by apply Ha, with_oid_member.
  - constructor; [done|]. eapply list.Forall_impl; [exact Hf|]. intros o [Hne Ha]. split; [done|]. by apply Forall_app in Ha as [Ha _].
Qed.

#[export] Instance store_scans : ScanLaws Store.
Proof.
  split.
  { intros db coll s. cbn [find_docs store_driver]. rewrite (with_query_doc [] s); [|constructor|].
    - unfold matching. by rewrite List.filter_true.
    - intros q' Hq. by apply Permutation_nil_r in Hq as ->. }
  intros db coll q u s ds [Hq _] _ Hu. cbn [update_many store_driver]. eexists. split; [|apply (put_docs_same db coll ds s)].
  rewrite (with_query_doc q s _ Hq).
  - rewrite update_back. cbn [mbind option_bind]. by rewrite Hu.
  - intros q' Hp. rewrite update_back. cbn [mbind option_bind].
    by rewrite (update_matching_perm q' q u _ Hp), (matching_perm q' q _ Hp).
Qed.
#[export] Instance store_collections : CollectionLaws Store.
Proof.
  split.
  - done.
  - intros db coll q s [Hq _]. cbn [find_docs store_driver]. rewrite (with_query_doc q s _ Hq); [by eexists|].
    intros q' Hp. by rewrite (matching_perm q' q _ Hp).
  - intros db coll j s (Ho & _ & Hj). cbn [insert_one store_driver]. unfold named_doc. rewrite Hj, with_oid_member by done.
    eexists _, _. split; [reflexivity|]. split; [apply fresh_longer|by rewrite put_docs_same].
  - intros db coll l s _ Hl. destruct (insert_each_fresh l (docs db coll s) Hl) as (oids & He & Hlen & Hf).
    exists oids. eexists. split; [reflexivity|]. rewrite put_docs_same, He. by split_and!.
  - intros db coll q u s ds Hq Hu Hm. destruct (in_place_law db coll q u s ds Hq Hu Hm) as (d' & Hr & <-). by exists d'.
  - intros db coll q s [Hq _]. cbn [delete_many store_driver]. exists (put_docs db coll (List.filter (fun doc => negb (matches q doc)) (docs db coll s)) s).
    split; [|by rewrite put_docs_same].
    rewrite (with_query_doc q s _ Hq); [reflexivity|]. intros q' Hp. rewrite (matching_perm q' q _ Hp). do 2 f_equal.
    apply List.filter_ext. intros doc. by rewrite (matches_perm q' q doc Hp).
Qed.

Lemma write_counter_spec id field z ds :
  field <> "_id" ->
  member field (write_counter id field z ds).1 = Some (JInt z) /\ counter_of id field (write_counter id field z ds).2 = Some z.
Proof.
  intros Hf. unfold counter_of. induction ds as [|doc ds [IH1 IH2]]; cbn [write_counter].
  - set (doc := mk_obj _). assert (Hm : member field doc = Some (JInt z)) by apply obj_find_set. split; [exact Hm|].
    cbn [fst snd List.find]. assert (Hid : has_id id doc = true).
    { unfold has_id, doc, mk_obj. cbn [member fold_left fst snd]. rewrite obj_find_set_ne by done. rewrite obj_find_set. apply str_eqb_refl. }
    by rewrite Hid, Hm.
  - destruct (has_id id doc) eqn:Hid.
    + assert (Hm : member field (set_key field (JInt z) doc) = Some (JInt z)).
      { destruct doc; try done. apply obj_find_set. }
      assert (Hi : has_id id (set_key field (JInt z) doc) = true).
      { rewrite <- Hid. destruct doc as [| | | | | |kvs]; try done. unfold has_id. cbn [member set_key]. by rewrite obj_find_set_ne. }
      cbn [fst snd List.find]. by rewrite Hi, Hm.
    + destruct (write_counter id field z ds) as [w ds']. cbn [fst snd List.find] in *. by rewrite Hid.
Qed.
#[export] Instance store_counters : CounterLaws Store.
Proof.
  split. intros db coll id field z s _ Hf Hc _. cbn [find_one_and_update store_driver].
  change (inc_of (mk_obj [("_id", JStr id)]) (mk_obj [("$inc", mk_obj [(field, JInt 1)])])) with (Some (id, field)). cbn iota beta.
  rewrite Hc. destruct (write_counter_spec id field (z + 1) (docs db coll s) Hf) as [H1 H2].
  destruct (write_counter id field (z + 1) (docs db coll s)) as [doc ds]. cbn [fst snd] in *.
  exists doc. eexists. split; [reflexivity|]. split; [done|]. by rewrite put_docs_same.
Qed.

Lemma files_oids db s f : f ∈ (files db s).*1 -> f ∈ all_oids s.
Proof.
  unfold all_oids. cbn [files store_view]. destruct (stored s !! db) as [fs|] eqn:Hl; cbn [default]; [|intros Hf; by apply not_elem_of_nil in Hf].
  intros Hf. apply list_elem_of_fmap in Hf as (p & -> & Hp). apply list_elem_of_fmap. exists p. split; [done|].
  apply list_elem_of_In, in_concat. exists fs. split; [|by apply list_elem_of_In].
  apply list_elem_of_In, list_elem_of_fmap. exists (db, fs). split; [done|]. by apply elem_of_map_to_list.
Qed.
#[export] Instance store_files : FileLaws Store.
Proof.
  split.
  - intros s. split; [done|]. split; [done|]. intros db. split; [done|]. intros Hin%files_oids. by apply longer_not_in in Hin.
  - intros db oid name ty data s _. eexists. split; [reflexivity|apply put_files_same].
  - done.
  - done.
  - intros db oid s Hin. cbn [remove_file store_driver]. eexists. split; [|apply (put_files_same db)].
    change (oid_of (oid_json oid)) with oid. by rewrite bool_decide_true.
  - intros db oid s Hin. cbn [remove_file store_driver]. change (oid_of (oid_json oid)) with oid. by rewrite bool_decide_false.
Qed.
