(* ===== verification/Mongodbc.v ===== *)
(** The database client: [MongodbClient] and [migrate_account_passwords] of
    modules/module/mongodb/src/mongodbc.cpp, over the driver of [Mongo].

    [MongodbClient] implements the interface [MongoClient], so the agent serves it and the proxy
    reaches it ([DbAgent], [DbProxy]).  The client is built from a URI, so it has a pool. *)

From S2P Require Import Prelude Json DbProto DbAgent PasswordHash Mongo.

#[local] Open Scope Z_scope.

Record Mongodb (D : Type) := mkMongodb { m_dbName : string; server : D }.
Arguments mkMongodb {D} _ _.
Arguments m_dbName {D} _.
Arguments server {D} _.

(** [std::setw] and [std::setfill] on a number. *)
Definition setw (w : nat) (fill : ascii) (s : string) : string := str_repeat fill (w - String.length s) +:+ s.

Section Client.
Context {D : Type} `{!MongoDriver D} `{!BsonText} `{!JsonLib}.
Implicit Types (m : Mongodb D).

Definition on_server {A} (f : D -> result A * D) : M (Mongodb D) A := fun m =>
  let '(r, d) := f (server m) in (r, mkMongodb (m_dbName m) d).
Definition from_text (s : string) : M (Mongodb D) json := lift (bson_of_json (c_str s)).

(** [m_pool->acquire()] and the answer without a connection. *)
Definition with_conn {A} (none : A) (body : string -> M (Mongodb D) A) : M (Mongodb D) A :=
  conn ← on_server acquire;
  db ← asks m_dbName;
  if conn : bool then body db else mret none.

Definition cursor_to_json_array (cursor : list json) : string :=
  match cursor with
  | [] => ""
  | _ => pop_back (fold_left (fun out doc => out +:+ to_text doc +:+ ",") cursor "[") +:+ "]"
  end.

Definition mongo_update_collection (coll matching document : string) : M (Mongodb D) bool :=
  toUpdate ← from_text document;
  filter ← from_text matching;
  with_conn false (fun db =>
    result ← on_server (update_many (c_str db) (c_str coll) filter toUpdate);
    mret (match result with Some matched_count => 0 <? matched_count | None => false end)).

Definition mongo_delete_document (coll doc : string) : M (Mongodb D) bool :=
  filter ← from_text doc;
  with_conn false (fun db =>
    result ← on_server (delete_many (c_str db) (c_str coll) filter);
    mret (bool_decide (is_Some result))).

(** The find that both readers make: the projection is read first. *)
Definition find (coll query fieldProjection : string) (db : string) : M (Mongodb D) (list json) :=
  projection ← from_text fieldProjection;
  filter ← from_text query;
  on_server (find_docs (c_str db) (c_str coll) filter projection).

Definition mongo_get_document (coll query fieldProjection : string) : M (Mongodb D) string :=
  with_conn "" (fun db =>
    cursor ← find coll query fieldProjection db;
    mret (match cursor with [] => "" | doc :: _ => to_text doc end)).

Definition mongo_get_documents (coll query fieldProjection : string) : M (Mongodb D) string :=
  with_conn "" (fun db =>
    cursor ← find coll query fieldProjection db;
    mret (cursor_to_json_array cursor)).
Definition mongo_get_documents_all (coll projection : string) : M (Mongodb D) string :=
  mongo_get_documents coll "{}" projection.

Definition mongo_create_document (dbName coll doc : string) : M (Mongodb D) string :=
  document ← from_text doc;
  with_conn "" (fun _ =>
    result ← on_server (insert_one (c_str dbName) (c_str coll) document);
    match result with
    | Some inserted_id => lift (get_oid inserted_id)
    | None => mret ""
    end).

(** What a range-for over a value goes through. *)
Definition elements (j : json) : list json :=
  match j with JArr l => l | JObj kvs => map snd kvs | JNull => [] | _ => [j] end.
Definition bulk_docs (doc : string) : result (list json) :=
  arr ← json_parse doc;
  mapM (fun elem => text ← json_dump elem; bson_of_json text) (List.filter is_object (elements arr)).

Definition mongo_create_bulk_document (dbName coll doc : string) : M (Mongodb D) Z :=
  with_conn 0 (fun _ =>
    match bulk_docs doc with
    | Throw _ => mret 0
    | Ok [] => mret 0
    | Ok views =>
        result ← on_server (insert_many (c_str dbName) (c_str coll) views);
        mret (match result with Some inserted_count => i32 inserted_count | None => 0 end)
    end).

(** The pairs of the loop; a [value] shorter than [filter] is read past its end, which is
    undefined: the definition throws there. *)
Fixpoint bulk_updates (filter value : list string) : result (list (json * json)) :=
  match filter, value with
  | [], _ => Ok []
  | f :: filter, v :: value =>
      filter_doc ← bson_of_json (c_str f);
      value_doc ← bson_of_json (c_str v);
      rest ← bulk_updates filter value;
      Ok ((filter_doc, value_doc) :: rest)
  | _ :: _, [] => Throw OutOfRange
  end.
Definition mongo_update_bulk_document (coll : string) (filter value : list string) : M (Mongodb D) Z :=
  with_conn 0 (fun db =>
    updates ← lift (bulk_updates filter value);
    result ← on_server (update_ones (c_str db) (c_str coll) updates);
    mret (match result with Some modified_count => i32 modified_count | None => 0 end)).

Definition seq_of (doc : json) : result Z :=
  match member "seq" doc with Some (JInt seq) => Ok seq | _ => Throw DbError end.
Definition awbno_filter : json := mk_obj [("_id", JStr "awbno")].
Definition awbno_update : json := mk_obj [("$inc", mk_obj [("seq", JInt 1)])].
Definition mongo_next_awbno (prefix : string) : M (Mongodb D) string :=
  with_conn "" (fun db =>
    try_catch (
      result ← on_server (find_one_and_update (c_str db) "counters" awbno_filter awbno_update);
      match result with
      | Some doc => seq ← lift (seq_of doc); mret (prefix +:+ setw 9 "0" (to_string seq))
      | None => mret ""
      end)
    (mret "")).

Definition mongo_store_file (filename content_type data : string) : M (Mongodb D) string :=
  with_conn "" (fun db =>
    id ← on_server (fun d => let '(id, d) := new_oid d in (Ok id, d));
    try_catch (on_server (upload_file (c_str db) id filename content_type data) ;; mret id) (mret "")).

Definition mongo_fetch_file (filename : string) : M (Mongodb D) string :=
  with_conn "" (fun db =>
    try_catch (
      cursor ← on_server (files_named (c_str db) filename);
      match cursor with
      | [] => throw RuntimeError
      | doc :: _ =>
          id ← lift (match member "_id" doc with Some id => Ok id | None => Throw DbError end);
          on_server (download_file (c_str db) id)
      end)
    (mret "")).

Definition mongo_fetch_file_by_id (oid_str : string) : M (Mongodb D) string :=
  with_conn "" (fun db =>
    try_catch (id ← lift (parse_oid oid_str); on_server (download_file (c_str db) (oid_json id))) (mret "")).

Definition mongo_delete_file (oid_str : string) : M (Mongodb D) bool :=
  with_conn false (fun db =>
    try_catch (id ← lift (parse_oid oid_str); on_server (remove_file (c_str db) (oid_json id)) ;; mret true) (mret false)).

(** A cursor is its change stream. *)
Definition watch_collection (coll resume_token_json : string) : M (Mongodb D) (option Z) :=
  with_conn None (fun db =>
    try_catch (
      token ← (if str_empty resume_token_json then mret None else token ← lift (bson_of_json resume_token_json); mret (Some token));
      stream ← on_server (open_stream db coll token);
      mret (Some stream))
    (mret None)).
Definition try_next (m_stream : Z) : M (Mongodb D) string :=
  it ← on_server (stream_begin m_stream);
  mret (match it with None => "" | Some event => to_text event end).
End Client.

#[export] Instance mongodb_client {D} `{!MongoDriver D} `{!BsonText} `{!JsonLib} : MongoClient (Mongodb D) := {|
  create_document := mongo_create_document;
  create_bulk_document := mongo_create_bulk_document;
  update_collection := mongo_update_collection;
  update_bulk_document := mongo_update_bulk_document;
  delete_document := mongo_delete_document;
  get_document := mongo_get_document;
  get_documents := mongo_get_documents;
  get_documents_all := mongo_get_documents_all;
  next_awbno := mongo_next_awbno;
  store_file := mongo_store_file;
  fetch_file := mongo_fetch_file;
  fetch_file_by_id := mongo_fetch_file_by_id;
  delete_file := mongo_delete_file;
|}.

(** * The migration of passwords *)

(** The bytes that [RAND_bytes] gives for a salt. *)
Class SaltSource (D : Type) := rand_salt : D -> string * D.
#[export] Instance mongodb_salt {D} `{!SaltSource D} : SaltSource (Mongodb D) := fun m =>
  let '(s, d) := rand_salt (server m) in (s, mkMongodb (m_dbName m) d).

Section Migration.
Context {D : Type} `{!MongoClient D} `{!SaltSource D} `{!JsonLib} `{!PasswordCrypto}.

Definition hash_password (password : string) : M D string := fun d =>
  let '(salt, d) := rand_salt d in (Ok (hash_with_salt password salt), d).

(** The password of a record that is to be migrated, and the record's credentials. *)
Definition pending (doc : json) : option (json * string) :=
  lc ← member_obj "loginCredentials" doc;
  if contains "passwordHash" lc then None else
  plain ← member_str "accountPassword" lc;
  if str_empty plain then None else Some (lc, plain).
Definition account_filter (lc : json) : json :=
  match member_str "accountCode" lc with
  | Some code => mk_obj [("loginCredentials.accountCode", JStr code)]
  | None => JObj []
  end.
Definition password_update (hash : string) : json :=
  mk_obj [("$set", mk_obj [("loginCredentials.passwordHash", JStr hash)]);
          ("$unset", mk_obj [("loginCredentials.accountPassword", JStr "")])].

Definition migrate_one (doc : json) : M D bool :=
  match pending doc with
  | None => mret false
  | Some (lc, plain) =>
      hash ← hash_password plain;
      filter ← lift (json_dump (account_filter lc));
      update ← lift (json_dump (password_update hash));
      update_collection "account" filter update
  end.
Fixpoint migrate_each (docs : list json) (count : Z) : M D Z :=
  match docs with
  | [] => mret count
  | doc :: docs => updated ← migrate_one doc; migrate_each docs (if updated : bool then count + 1 else count)
  end.
Definition migrate_account_passwords : M D Z :=
  result ← get_documents_all "account" "{}";
  if str_empty result then mret 0 else
  match json_parse result with
  | Ok (JArr docs) => migrate_each docs 0
  | _ => mret 0
  end.
End Migration.
