(* ===== verification/MongodbcSpec.v ===== *)
(** What the database client guarantees: its calls are the operations on the collection, a number
    is handed out once, a file comes back as it was stored, and the migration leaves every
    password hashed; and what an account without a code does to the others. *)

From S2P Require Import Prelude Json DbProto DbAgent DbProxy MessageParser PasswordHash Mongo MongoStore Mongodbc.

#[local] Open Scope Z_scope.

(** [text] is read as [j]. *)
Definition reads `{!BsonText} (text : string) (j : json) : Prop := bson_of_json (c_str text) = Ok j.
(** A name without a zero byte. *)
Definition nul_free (s : string) : Prop := c_str s = s.

(** * The client and the collection *)

Section Collection.
Context {D : Type} `{!MongoDriver D} `{!MongoView D} {CL : CollectionLaws D} `{!BsonText} `{!JsonLib}.
Implicit Types (m : Mongodb D).

Definition contents (coll : string) m : list json := docs (m_dbName m) coll (server m).

Lemma with_conn_up {A} (none : A) body m : with_conn none body m = body (m_dbName m) m.
Proof. unfold with_conn, on_server, asks, mbind, M_bind. rewrite acquire_law. by destruct m. Qed.
Lemma on_server_run {A} (f : D -> result A * D) m r d : f (server m) = (r, d) -> on_server f m = (r, mkMongodb (m_dbName m) d).
Proof. unfold on_server. by intros ->. Qed.
Lemma bind_from_text {A} text j (k : json -> M (Mongodb D) A) m : reads text j -> (from_text text ≫= k) m = k j m.
Proof. unfold reads, from_text. intros ->. done. Qed.
Lemma bind_on_server {A B} (f : D -> result A * D) (k : A -> M (Mongodb D) B) m a d :
  f (server m) = (Ok a, d) -> (on_server f ≫= k) m = k a (mkMongodb (m_dbName m) d).
Proof. intros Hf. by rewrite (M_bind_ok _ _ _ _ _ (on_server_run f m _ _ Hf)). Qed.

Lemma bind_find {A} coll query projection q m ds (k : list json -> M (Mongodb D) A) :
  nul_free (m_dbName m) -> nul_free coll -> reads projection no_projection -> reads query (query_doc q) ->
  find_docs (m_dbName m) coll (query_doc q) no_projection (server m) = (Ok ds, server m) ->
  (find coll query projection (m_dbName m) ≫= k) m = k ds m.
Proof.
  intros Hd Hc Hp Hq Hf. apply M_bind_ok. unfold find.
  rewrite (bind_from_text _ _ _ _ Hp), (bind_from_text _ _ _ _ Hq), Hd, Hc, (on_server_run _ _ _ _ Hf). by destruct m.
Qed.

(** An update that the server has made. *)
Lemma update_made coll filter document q u m d' :
  nul_free (m_dbName m) -> nul_free coll -> reads filter (query_doc q) -> reads document (update_doc u) ->
  update_many (m_dbName m) coll (query_doc q) (update_doc u) (server m)
  = (Ok (Some (Z.of_nat (List.length (matching q (contents coll m))))), d') ->
  mongo_update_collection coll filter document m = (Ok (existsb (matches q) (contents coll m)), mkMongodb (m_dbName m) d').
Proof.
  intros Hd Hc Hf Hu Hr. unfold mongo_update_collection.
  rewrite (bind_from_text _ _ _ _ Hu), (bind_from_text _ _ _ _ Hf), with_conn_up, Hd, Hc, (bind_on_server _ _ _ _ _ Hr).
  unfold mret, M_ret. do 2 f_equal. unfold matching. clear.
  induction (contents coll m) as [|doc l IH]; [done|]. cbn. destruct (matches q doc); [|exact IH]. by apply Z.ltb_lt; cbn; lia.
Qed.
Lemma update_run coll filter document q u m ds :
  nul_free (m_dbName m) -> nul_free coll -> reads filter (query_doc q) -> reads document (update_doc u) ->
  plain_query q -> plain_update u -> update_matching q u (contents coll m) = Some ds ->
  exists m', mongo_update_collection coll filter document m = (Ok (existsb (matches q) (contents coll m)), m')
    /\ m_dbName m' = m_dbName m /\ contents coll m' ≡ₚ ds.
Proof.
  intros Hd Hc Hf Hu Hq Hp Hm. destruct (update_law _ _ q u _ _ Hq Hp Hm) as (d' & Hr & Hds).
  exists (mkMongodb (m_dbName m) d'). split; [by eapply update_made|by split].
Qed.

(** The documents of a text of several, and the texts of the answers. *)
Definition array_text (texts : list string) : string := "[" +:+ str_join "," texts +:+ "]".
Lemma fold_texts l s :
  l <> [] -> fold_left (fun out doc => out +:+ to_text doc +:+ ",") l s = s +:+ str_join "," (map to_text l) +:+ ",".
Proof.
  revert s. induction l as [|j l IH]; intros s Hl; [done|]. cbn [fold_left map]. destruct l as [|j' l]; [done|].
  rewrite IH by done. cbn [map]. rewrite str_join_cons2. by rewrite !str_app_assoc.
Qed.
Lemma cursor_text l : cursor_to_json_array l = match l with [] => "" | _ => array_text (map to_text l) end.
Proof.
  unfold cursor_to_json_array, array_text. destruct l as [|j l]; [done|].
  rewrite fold_texts, <- str_app_assoc, pop_back_snoc by done. by rewrite str_app_assoc.
Qed.

Lemma create_run coll document j m :
  nul_free (m_dbName m) -> nul_free coll -> reads document j -> unnamed_doc j ->
  exists oid m', mongo_create_document (m_dbName m) coll document m = (Ok oid, m') /\ fresh_oids [oid] (contents coll m)
    /\ m_dbName m' = m_dbName m /\ contents coll m' ≡ₚ contents coll m ++ [with_oid oid j].
Proof.
  intros Hd Hc Hr Hj. destruct (insert_law (m_dbName m) coll j (server m) Hj) as (oid & d' & Hi & Hf & Hds).
  exists oid, (mkMongodb (m_dbName m) d'). split; [|by split_and!].
  unfold mongo_create_document. rewrite (bind_from_text _ _ _ _ Hr), with_conn_up, Hd, Hc. by rewrite (bind_on_server _ _ _ _ _ Hi).
Qed.

Lemma bulk_run coll text l m :
  nul_free (m_dbName m) -> nul_free coll -> bulk_docs text = Ok l -> Forall unnamed_doc l ->
  exists oids m', mongo_create_bulk_document (m_dbName m) coll text m = (Ok (i32 (Z.of_nat (List.length l))), m')
    /\ m_dbName m' = m_dbName m /\ List.length oids = List.length l /\ fresh_oids oids (contents coll m)
    /\ contents coll m' ≡ₚ contents coll m ++ zip_with with_oid oids l.
Proof.
  intros Hd Hc Hb Ho. unfold mongo_create_bulk_document. rewrite with_conn_up, Hb. destruct l as [|j l].
  - exists [], m. cbn [zip_with]. rewrite app_nil_r. split_and!; [done|done|done|split; constructor|done].
  - destruct (insert_many_law (m_dbName m) coll (j :: l) (server m)) as (oids & d' & Hi & Hlen & Hf & Hds); [done|done|].
    exists oids, (mkMongodb (m_dbName m) d'). rewrite Hd, Hc, (bind_on_server _ _ _ _ _ Hi). by split_and!.
Qed.

Lemma delete_run coll filter q m :
  nul_free (m_dbName m) -> nul_free coll -> reads filter (query_doc q) -> plain_query q ->
  exists m', mongo_delete_document coll filter m = (Ok true, m') /\ m_dbName m' = m_dbName m
    /\ contents coll m' ≡ₚ List.filter (fun doc => negb (matches q doc)) (contents coll m).
Proof.
  intros Hd Hc Hr Hn. destruct (delete_law (m_dbName m) coll q (server m) Hn) as (d' & Hi & Hds).
  exists (mkMongodb (m_dbName m) d'). split; [|by split].
  unfold mongo_delete_document. rewrite (bind_from_text _ _ _ _ Hr), with_conn_up, Hd, Hc. by rewrite (bind_on_server _ _ _ _ _ Hi).
Qed.

Lemma read_run coll query projection q m :
  nul_free (m_dbName m) -> nul_free coll -> reads query (query_doc q) -> reads projection no_projection -> plain_query q ->
  exists ds, ds ≡ₚ matching q (contents coll m)
    /\ mongo_get_document coll query projection m = (Ok (match ds with [] => "" | doc :: _ => to_text doc end), m)
    /\ mongo_get_documents coll query projection m = (Ok (match ds with [] => "" | _ => array_text (map to_text ds) end), m).
Proof.
  intros Hd Hc Hq Hp Hn. destruct (find_law (m_dbName m) coll q (server m) Hn) as (ds & Hf & Hds). exists ds. split; [exact Hds|].
  unfold mongo_get_document, mongo_get_documents. rewrite !with_conn_up, !(bind_find _ _ _ q m ds _ Hd Hc Hp Hq Hf).
  split; [done|]. unfold mret, M_ret. by rewrite cursor_text.
Qed.

(** C32. The client's calls are the operations on the collection.  On a server that is up, for
    filters that ask for strings at plain dotted paths, updates that set one such path and remove
    at most another, and documents without an identifier of their own: a created document is added
    with a new identifier, which is returned; a bulk insert adds every object of the text, each
    with a new identifier of its own, and returns their number; one read gives the text of a match
    and the other the texts of all of them, in some order, and both nothing when there is none; an
    update changes exactly the documents that match, and says whether there was one; a delete
    removes exactly those. *)
Theorem client_refines_collection coll m :
  nul_free (m_dbName m) -> nul_free coll ->
  (forall document j, reads document j -> unnamed_doc j ->
     exists oid m', create_document (m_dbName m) coll document m = (Ok oid, m') /\ fresh_oids [oid] (contents coll m)
       /\ m_dbName m' = m_dbName m /\ contents coll m' ≡ₚ contents coll m ++ [with_oid oid j])
  /\ (forall text l, bulk_docs text = Ok l -> Forall unnamed_doc l ->
     exists oids m', create_bulk_document (m_dbName m) coll text m = (Ok (i32 (Z.of_nat (List.length l))), m')
       /\ m_dbName m' = m_dbName m /\ List.length oids = List.length l /\ fresh_oids oids (contents coll m)
       /\ contents coll m' ≡ₚ contents coll m ++ zip_with with_oid oids l)
  /\ (forall query projection q, reads query (query_doc q) -> reads projection no_projection -> plain_query q ->
     exists ds, ds ≡ₚ matching q (contents coll m)
       /\ get_document coll query projection m = (Ok (match ds with [] => "" | doc :: _ => to_text doc end), m)
       /\ get_documents coll query projection m = (Ok (match ds with [] => "" | _ => array_text (map to_text ds) end), m))
  /\ (forall filter document q u ds, reads filter (query_doc q) -> reads document (update_doc u) -> plain_query q ->
     plain_update u -> update_matching q u (contents coll m) = Some ds ->
     exists m', update_collection coll filter document m = (Ok (existsb (matches q) (contents coll m)), m')
       /\ m_dbName m' = m_dbName m /\ contents coll m' ≡ₚ ds)
  /\ (forall filter q, reads filter (query_doc q) -> plain_query q ->
     exists m', delete_document coll filter m = (Ok true, m') /\ m_dbName m' = m_dbName m
       /\ contents coll m' ≡ₚ List.filter (fun doc => negb (matches q doc)) (contents coll m)).
Proof.
  intros Hd Hc. split_and!; intros.
  - by apply create_run.
  - by apply bulk_run.
  - by apply read_run.
  - by eapply update_run.
  - by apply delete_run.
Qed.
End Collection.

(** * The collection over the wire *)

Section Remote.
Context {D : Type} `{!MongoDriver D} `{!MongoView D} {CL : CollectionLaws D} `{!BsonText} `{!JsonLib}.
Context `{!Bson} {BL : BsonLaws} `{!What}.
Context (m_db_name : string) (lost : string -> string).

#[export] Instance mongodb_laws : MongoLaws (Mongodb D).
Proof.
  assert (Hb : forall (r : option Z), is_i32 (match r with Some n => i32 n | None => 0 end)) by (intros []; [apply i32_range|done]).
  split.
  - intros db coll doc d n d'. cbn [create_bulk_document mongodb_client]. unfold mongo_create_bulk_document. rewrite with_conn_up.
    destruct (bulk_docs doc) as [[|j l]|]; [by intros [= <- _]| |by intros [= <- _]].
    intros (a & w & _ & Hr)%M_bind_inv. injection Hr as <- _. apply Hb.
  - intros coll f v d n d'. cbn [update_bulk_document mongodb_client]. unfold mongo_update_bulk_document. rewrite with_conn_up.
    intros (a & w & _ & (b & w' & _ & Hr)%M_bind_inv)%M_bind_inv. injection Hr as <- _. apply Hb.
Qed.

#[local] Instance the_agent : Dispatcher (Mongodb D) := wired m_db_name lost.
Implicit Types (p : Proxy (Mongodb D)).

(** The collection behind a proxy, and a proxy after a call. *)
Definition remote_contents (coll : string) p : list json := contents coll (m_dispatcher p).
Definition arrives_as (text : string) (j : json) : Prop := reads (arrives text) j.
Lemma remote_ok {A B} (f : A -> B) failed (call : Mongodb D -> result A * Mongodb D) a m' p :
  call (m_dispatcher p) = (Ok a, m') -> remote f failed call p = (Ok (f a), mkProxy (i32 (s_reqid p + 1)) m').
Proof. unfold remote. by intros ->. Qed.

(** C31. The cloud writes and reads the collection on the agent's side.  A call of the proxy that
    creates, reads all, updates or deletes, through the request, the agent's handler, its client
    and the response, does to the remote list of documents what the call says, and returns its
    value, when the texts arrive as the documents that they are, whatever identifier the requests
    have got to; the filters, updates and documents are plain as in the client's theorem. *)
Theorem remote_refines_collection coll p :
  is_i32 (s_reqid p) -> m_dbName (m_dispatcher p) = m_db_name -> nul_free m_db_name -> nul_free coll ->
  (forall dbName document j, arrives_as document j -> unnamed_doc j ->
     exists oid p', proxy_create_document dbName coll document p = (Ok oid, p') /\ fresh_oids [oid] (remote_contents coll p)
       /\ remote_contents coll p' ≡ₚ remote_contents coll p ++ [with_oid oid j])
  /\ (forall query projection q, arrives_as query (query_doc q) -> arrives_as projection no_projection -> plain_query q ->
     exists ds p', ds ≡ₚ matching q (remote_contents coll p)
       /\ proxy_get_documents coll query projection p = (Ok (match ds with [] => "" | _ => array_text (map to_text ds) end), p')
       /\ remote_contents coll p' = remote_contents coll p)
  /\ (forall filter document q u ds, arrives_as filter (query_doc q) -> arrives_as document (update_doc u) -> plain_query q ->
     plain_update u -> update_matching q u (remote_contents coll p) = Some ds ->
     exists p', proxy_update_collection coll filter document p = (Ok (existsb (matches q) (remote_contents coll p)), p')
       /\ remote_contents coll p' ≡ₚ ds)
  /\ (forall filter q, arrives_as filter (query_doc q) -> plain_query q ->
     exists p', proxy_delete_document coll filter p = (Ok true, p')
       /\ remote_contents coll p' ≡ₚ List.filter (fun doc => negb (matches q doc)) (remote_contents coll p)).
Proof.
  intros Hid Hdb Hd Hc. rewrite <- Hdb in Hd. set (m := m_dispatcher p) in *. split_and!.
  - intros dbName document j Hr Hj. destruct (create_run coll (arrives document) j m Hd Hc Hr Hj) as (oid & m' & Hm & Hf & _ & Hds).
    rewrite Hdb in Hm. exists oid. eexists. split; [etransitivity; [apply (remote_create m_db_name lost dbName coll document p Hid)|exact (remote_ok id _ _ _ _ p Hm)]|].
    split; [exact Hf|exact Hds].
  - intros query projection q Hq Hp Hn. destruct (read_run coll _ _ q m Hd Hc Hq Hp Hn) as (ds & Hds & _ & Hr). exists ds. eexists.
    split; [exact Hds|]. split; [etransitivity; [apply (remote_get_documents m_db_name lost coll query projection p Hid)|exact (remote_ok id _ _ _ _ p Hr)]|done].
  - intros filter document q u ds Hf Hu Hn Hp Hm. destruct (update_run coll _ _ q u m ds Hd Hc Hf Hu Hn Hp Hm) as (m' & Hr & _ & Hds).
    eexists. split; [etransitivity; [apply (remote_update m_db_name lost coll filter document p Hid)|exact (remote_ok id _ _ _ _ p Hr)]|exact Hds].
  - intros filter q Hf Hn. destruct (delete_run coll _ q m Hd Hc Hf Hn) as (m' & Hr & _ & Hds).
    eexists. split; [etransitivity; [apply (remote_delete m_db_name lost coll filter p Hid)|exact (remote_ok id _ _ _ _ p Hr)]|exact Hds].
Qed.
End Remote.

(** * Numbers *)

Section Numbers.
Context {D : Type} `{!MongoDriver D} `{!MongoView D} {CL : CollectionLaws D} {NL : CounterLaws D} `{!BsonText} `{!JsonLib}.
Implicit Types (m : Mongodb D).

(** The number that was given last. *)
Definition awb_counter m : option Z := counter_of "awbno" "seq" (contents "counters" m).
Definition awb_text (prefix : string) (n : Z) : string := prefix +:+ setw 9 "0" (to_string n).

Lemma next_run prefix n m :
  nul_free (m_dbName m) -> awb_counter m = Some n -> n + 1 < 2 ^ 63 ->
  exists m', mongo_next_awbno prefix m = (Ok (awb_text prefix (n + 1)), m') /\ m_dbName m' = m_dbName m /\ awb_counter m' = Some (n + 1).
Proof.
  intros Hd Hn Hb. destruct (inc_law (m_dbName m) "counters" "awbno" "seq" n (server m)) as (doc & d' & Hi & Hs & Hc); [done|done|done|done|].
  exists (mkMongodb (m_dbName m) d'). split; [|by split]. unfold mongo_next_awbno. rewrite with_conn_up, Hd.
  unfold try_catch. rewrite (bind_on_server _ _ _ _ _ Hi). unfold seq_of. by rewrite Hs.
Qed.

(** ** The text of a number *)

Lemma pretty_length k x s : (x < 10 ^ N.of_nat k)%N -> (String.length (pretty_N_go x s) <= k + String.length s)%nat.
Proof.
  revert x s. induction k as [|k IH]; intros x s Hx.
  - assert (x = 0%N) as -> by (cbn in Hx; lia). by rewrite pretty_N_go_0.
  - destruct (decide (x = 0)%N) as [->|Hz]; [rewrite pretty_N_go_0; lia|]. rewrite pretty_N_go_step by lia.
    assert (Hd : (x / 10 < 10 ^ N.of_nat k)%N).
    { apply N.Div0.div_lt_upper_bound. replace (N.of_nat (S k)) with (N.succ (N.of_nat k)) in Hx by lia. by rewrite N.pow_succ_r' in Hx. }
    specialize (IH _ (String (pretty_N_char (x mod 10)) s) Hd). cbn [String.length] in IH. lia.
Qed.
Lemma to_string_go n : 0 < n -> to_string n = pretty_N_go (Z.to_N n) "".
Proof.
  intros Hn. unfold to_string, pretty, pretty_Z, pretty, pretty_positive, pretty, pretty_N.
  destruct n as [|p|p]; [done| |lia]. by case_decide.
Qed.
Lemma to_string_length n : 0 < n < 10 ^ 9 -> (String.length (to_string n) <= 9)%nat.
Proof.
  intros Hn. rewrite to_string_go by lia. pose proof (pretty_length 9 (Z.to_N n) "") as Hl. cbn in Hl. rewrite Nat.add_0_r in Hl || idtac.
  apply Hl. lia.
Qed.
Lemma digits_setw w n : 0 < n -> digits_from 10 0 (setw w "0" (to_string n)) = n.
Proof.
  intros Hn. unfold setw. generalize (w - String.length (to_string n))%nat as k. intros k.
  induction k as [|k IH]; [|exact IH]. cbn [str_repeat append]. rewrite to_string_go by done.
  destruct (digits_pretty (Z.to_N n) "") as (e & _ & ->). cbn. lia.
Qed.
Lemma setw_length n : 0 < n < 10 ^ 9 -> String.length (setw 9 "0" (to_string n)) = 9%nat.
Proof. intros Hn. pose proof (to_string_length n Hn). unfold setw. rewrite str_length_app, str_length_repeat. lia. Qed.
Lemma awb_text_inj prefix prefix' n n' :
  0 < n < 10 ^ 9 -> 0 < n' < 10 ^ 9 -> awb_text prefix n = awb_text prefix' n' -> n = n'.
Proof.
  intros Hn Hn' He. assert (Hl : String.length prefix = String.length prefix').
  { apply (f_equal String.length) in He. unfold awb_text in He. rewrite !str_length_app, !setw_length in He by done. lia. }
  apply (f_equal (str_drop (String.length prefix))) in He. unfold awb_text in He.
  rewrite str_drop_app_length, Hl, str_drop_app_length in He.
  apply (f_equal (digits_from 10 0)) in He. by rewrite !digits_setw in He by lia.
Qed.

(** The calls of any number of workers, in the order in which the server serves them. *)
Fixpoint next_awbnos (prefixes : list string) : M (Mongodb D) (list string) :=
  match prefixes with
  | [] => mret []
  | prefix :: prefixes => awb ← next_awbno prefix; rest ← next_awbnos prefixes; mret (awb :: rest)
  end.

Lemma awbnos_run prefixes n m :
  nul_free (m_dbName m) -> awb_counter m = Some n -> 0 <= n -> n + Z.of_nat (List.length prefixes) < 10 ^ 9 ->
  exists m' awbs, next_awbnos prefixes m = (Ok awbs, m') /\ awb_counter m' = Some (n + Z.of_nat (List.length prefixes))
    /\ awbs = zip_with awb_text prefixes (seqZ (n + 1) (Z.of_nat (List.length prefixes))) /\ NoDup awbs
    /\ Forall (fun awb => exists prefix k, n < k < 10 ^ 9 /\ awb = awb_text prefix k) awbs.
Proof.
  revert n m. induction prefixes as [|prefix prefixes IH]; intros n m Hd Hn Hz0 Hb.
  - exists m, []. cbn. rewrite Z.add_0_r. split_and!; try done; constructor.
  - cbn [List.length] in Hb. destruct (next_run prefix n m Hd Hn ltac:(lia)) as (m1 & Hr1 & Hd1 & Hn1).
    rewrite <- Hd1 in Hd. destruct (IH (n + 1) m1 Hd Hn1 ltac:(lia) ltac:(lia)) as (m' & awbs & Hr & Hc & Hz & Hnd & Hf).
    exists m', (awb_text prefix (n + 1) :: awbs). cbn [next_awbnos List.length].
    change (next_awbno prefix) with (mongo_next_awbno prefix). rewrite (M_bind_ok _ _ _ _ _ Hr1), (M_bind_ok _ _ _ _ _ Hr).
    split; [done|]. split; [rewrite Hc; f_equal; lia|]. split.
    + rewrite Hz. replace (Z.of_nat (S (List.length prefixes))) with (Z.succ (Z.of_nat (List.length prefixes))) by lia.
      rewrite (seqZ_cons (n + 1) (Z.succ _)) by lia. cbn [zip_with]. do 2 f_equal.
      replace (Z.pred (Z.succ (Z.of_nat (List.length prefixes)))) with (Z.of_nat (List.length prefixes)) by lia. done.
    + split.
      * apply list.NoDup_cons. split; [|done]. intros Hin. rewrite list.Forall_forall in Hf.
        destruct (Hf _ Hin) as (prefix' & k & Hk & He). apply awb_text_inj in He; lia.
      * apply Forall_cons_2; [exists prefix, (n + 1); split; [lia|done]|].
        eapply list.Forall_impl; [exact Hf|]. intros awb (prefix' & k & Hk & ->). exists prefix', k. split; [lia|done].
Qed.

(** A number is given once.  Whatever the workers ask for and in whichever order the server serves
    them, the numbers follow each other from the stored counter, no two texts are the same, also
    under different prefixes, and none of the calls fails, up to the number 999999999. *)
Theorem awbnos_distinct prefixes n m :
  nul_free (m_dbName m) -> awb_counter m = Some n -> 0 <= n -> n + Z.of_nat (List.length prefixes) < 10 ^ 9 ->
  exists m' awbs, next_awbnos prefixes m = (Ok awbs, m') /\ awb_counter m' = Some (n + Z.of_nat (List.length prefixes))
    /\ awbs = zip_with awb_text prefixes (seqZ (n + 1) (Z.of_nat (List.length prefixes)))
    /\ NoDup awbs /\ Forall (fun awb => awb <> "") awbs.
Proof.
  intros Hd Hn Hz0 Hb. destruct (awbnos_run prefixes n m Hd Hn Hz0 Hb) as (m' & awbs & R1 & R2 & R3 & R4 & R5).
  exists m', awbs. split_and!; [done..|]. eapply list.Forall_impl; [exact R5|]. intros awb (prefix & k & Hk & ->) He.
  apply (f_equal String.length) in He. unfold awb_text in He. rewrite str_length_app, setw_length in He by lia. cbn in He. lia.
Qed.
End Numbers.

(** * Files *)

Section Files.
Context {D : Type} `{!MongoDriver D} `{!MongoView D} {CL : CollectionLaws D} {FL : FileLaws D} `{!BsonText} `{!JsonLib}.
Implicit Types (m : Mongodb D).

Definition stored_files m : list (string * (string * string)) := files (m_dbName m) (server m).

Lemma find_last oid f fs : oid ∉ fs.*1 -> List.find (fun f => str_eqb f.1 oid) (fs ++ [(oid, f)]) = Some (oid, f : string * string).
Proof.
  induction fs as [|[o g] fs IH]; cbn; intros Ho; [by rewrite str_eqb_refl|]. apply not_elem_of_cons in Ho as [Hne Ho].
  destruct (str_eqb o oid) eqn:He; [by apply str_eqb_eq in He|]. by apply IH.
Qed.
Lemma find_absent oid (fs : list (string * (string * string))) : oid ∉ fs.*1 -> List.find (fun f => str_eqb f.1 oid) fs = None.
Proof.
  induction fs as [|[o g] fs IH]; cbn; intros Ho; [done|]. apply not_elem_of_cons in Ho as [Hne Ho].
  destruct (str_eqb o oid) eqn:He; [by apply str_eqb_eq in He|]. by apply IH.
Qed.
Lemma remove_last oid f (fs : list (string * (string * string))) :
  oid ∉ fs.*1 -> List.filter (fun f => negb (str_eqb f.1 oid)) (fs ++ [(oid, f)]) = fs.
Proof.
  induction fs as [|[o g] fs IH]; cbn; intros Ho; [by rewrite str_eqb_refl|]. apply not_elem_of_cons in Ho as [Hne Ho].
  destruct (str_eqb o oid) eqn:He; [by apply str_eqb_eq in He|]. cbn. by rewrite IH.
Qed.
Lemma find_own oid f (fs : list (string * (string * string))) :
  NoDup fs.*1 -> (oid, f) ∈ fs -> List.find (fun f => str_eqb f.1 oid) fs = Some (oid, f).
Proof.
  intros Hn Hin. induction fs as [|[o g] fs IH]; [by apply not_elem_of_nil in Hin|]. cbn in *.
  apply list.NoDup_cons in Hn as [Ho Hn]. apply elem_of_cons in Hin as [[= -> ->]|Hin]; [by rewrite str_eqb_refl|].
  destruct (str_eqb o oid) eqn:He; [|by apply IH]. apply str_eqb_eq in He as ->. exfalso. apply Ho.
  apply list_elem_of_fmap. by exists (oid, f).
Qed.

Lemma fetch_by_id_run oid m :
  nul_free (m_dbName m) -> parse_oid oid = Ok oid ->
  mongo_fetch_file_by_id oid m = (Ok (match List.find (fun f => str_eqb f.1 oid) (stored_files m) with Some f => f.2.2 | None => "" end), m).
Proof.
  intros Hd Ho. unfold mongo_fetch_file_by_id. rewrite with_conn_up, Ho, Hd. unfold try_catch. rewrite bind_lift_ok.
  rewrite (on_server_run _ _ _ _ (download_law _ oid _)). unfold stored_files. destruct m. by destruct (List.find _ _).
Qed.
Lemma fetch_run name m :
  nul_free (m_dbName m) -> NoDup (stored_files m).*1 ->
  mongo_fetch_file name m = (Ok (match List.find (fun f => str_eqb f.2.1 name) (stored_files m) with Some f => f.2.2 | None => "" end), m).
Proof.
  intros Hd Hn. unfold mongo_fetch_file. rewrite with_conn_up, Hd. unfold try_catch.
  rewrite (bind_on_server _ _ _ _ _ (named_law _ name _)). destruct m as [db d]. unfold stored_files in *. cbn [m_dbName server] in *.
  assert (Hh : List.hd_error (List.filter (fun f => str_eqb f.2.1 name) (files db d)) = List.find (fun f => str_eqb f.2.1 name) (files db d)).
  { clear. induction (files db d) as [|f fs IH]; [done|]. cbn. by destruct (str_eqb _ _). }
  destruct (List.filter _ _) as [|[oid f] l] eqn:Hl; cbn [List.hd_error] in Hh; rewrite <- Hh; [done|].
  cbn [map]. change (member "_id" (file_doc (oid, f))) with (Some (oid_json oid)).
  cbn match. rewrite bind_lift_ok, (on_server_run _ _ _ _ (download_law _ oid _)). cbn [m_dbName server].
  red in Hd. rewrite ?Hd, (find_own oid f); [done|done|]. apply list_elem_of_In. eapply proj1, filter_In. rewrite Hl. by left.
Qed.

(** A file comes back as it was stored: by the identifier that is returned always, by its name
    unless an older file has that name, which is then the one that is served.  Deleting it by the
    identifier leaves the files that were there before, and says so once. *)
Theorem files_come_back name ty data m :
  nul_free (m_dbName m) -> NoDup (stored_files m).*1 ->
  exists oid m1 m2, store_file name ty data m = (Ok oid, m1) /\ oid <> ""
    /\ fetch_file_by_id oid m1 = (Ok data, m1)
    /\ fetch_file name m1
       = (Ok (match List.find (fun f => str_eqb f.2.1 name) (stored_files m) with Some f => f.2.2 | None => data end), m1)
    /\ delete_file oid m1 = (Ok true, m2) /\ stored_files m2 = stored_files m
    /\ fetch_file_by_id oid m2 = (Ok "", m2) /\ delete_file oid m2 = (Ok false, m2).
Proof.
  intros Hd Hn. destruct m as [db d]. unfold stored_files in *. cbn [m_dbName server] in *.
  destruct (oid_law d) as (Hne & Hp & Hfr). destruct (Hfr db) as [Hsame Hnew].
  destruct (new_oid d) as [oid d1] eqn:Eo. cbn [fst snd] in *. rewrite <- Hsame in Hnew.
  destruct (upload_law db oid name ty data d1 Hnew) as (d2 & Hu & Hf). rewrite Hsame in Hf, Hnew.
  assert (Hin : oid ∈ (files db d2).*1) by (rewrite Hf, fmap_app; apply elem_of_app; right; by left).
  destruct (remove_law db oid d2 Hin) as (d3 & Hr & Hf3). rewrite Hf, remove_last in Hf3 by done.
  assert (Hn2 : NoDup (files db d2).*1).
  { rewrite Hf, fmap_app. apply list.NoDup_app. split_and!; [done| |apply NoDup_singleton].
    intros x Hx Hx'. apply list_elem_of_singleton in Hx' as ->. done. }
  exists oid, (mkMongodb db d2), (mkMongodb db d3). cbn [store_file fetch_file fetch_file_by_id delete_file mongodb_client].
  split_and!; try done.
  - unfold mongo_store_file. rewrite with_conn_up. cbn [m_dbName]. rewrite Hd.
    rewrite (bind_on_server _ _ (mkMongodb db d) oid d1) by (cbn [server]; by rewrite Eo).
    unfold try_catch. by rewrite (bind_on_server _ _ (mkMongodb db d1) _ _ Hu).
  - rewrite fetch_by_id_run by done. unfold stored_files. cbn [m_dbName server]. by rewrite Hf, find_last.
  - rewrite fetch_run by done. unfold stored_files. cbn [m_dbName server]. rewrite Hf. clear. do 2 f_equal.
    induction (files db d) as [|[o g] fs IH]; cbn; [by rewrite str_eqb_refl|]. by destruct (str_eqb _ _).
  - unfold mongo_delete_file. rewrite with_conn_up, Hp. cbn [m_dbName]. rewrite Hd. unfold try_catch. rewrite bind_lift_ok.
    by rewrite (bind_on_server _ _ (mkMongodb db d2) _ _ Hr).
  - rewrite fetch_by_id_run by done. unfold stored_files. cbn [m_dbName server]. by rewrite Hf3, find_absent.
  - unfold mongo_delete_file. rewrite with_conn_up, Hp. cbn [m_dbName]. rewrite Hd. unfold try_catch. rewrite bind_lift_ok.
    rewrite <- Hf3 in Hnew. unfold mbind, M_bind. by rewrite (on_server_run _ (mkMongodb db d3) _ _ (remove_missing db oid d3 Hnew)).
Qed.
End Files.

(** * The migration *)

Class SaltLaws (D : Type) `{!SaltSource D} `{!MongoView D} : Prop :=
  salt_law : forall d : D, (rand_salt d).1 <> "" /\ forall db coll, docs db coll (rand_salt d).2 = docs db coll d.

Section Accounts.
Context {D : Type} `{!MongoDriver D} `{!MongoView D} {CL : CollectionLaws D} {SC : ScanLaws D} `{!BsonText} `{!JsonLib}.
Context `{!SaltSource D} {SL : SaltLaws D} `{!PasswordCrypto} `{!PasswordLaws}.
Implicit Types (m : Mongodb D).

Definition code_query (code : string) : query := [("loginCredentials.accountCode", code)].
Definition hash_update (h : string) : update := mkUpdate ("loginCredentials.passwordHash", JStr h) (Some "loginCredentials.accountPassword").

Lemma code_plain code : plain_query (code_query code).
Proof. split; [apply NoDup_singleton|]. by constructor. Qed.
Lemma hash_plain h : plain_update (hash_update h).
Proof. split_and!; [done..|]. split_and!; [done..|]. by intros [[l [=]]|[l [=]]]. Qed.

(** What becomes of a record: one that is to be migrated has the hash of its password, which is gone. *)
Definition secured (doc doc' : json) : Prop :=
  match pending doc with
  | None => doc' = doc
  | Some (_, plain) => exists h lc', apply_update (hash_update h) doc = Some doc'
      /\ member_obj "loginCredentials" doc' = Some lc' /\ member_str "passwordHash" lc' = Some h
      /\ verify_password plain h = Ok true /\ contains "accountPassword" lc' = false
  end.

Lemma member_obj_inv k doc lc : member_obj k doc = Some lc -> exists kvs l, doc = JObj kvs /\ obj_find k kvs = Some (JObj l) /\ lc = JObj l.
Proof.
  unfold member_obj, member. destruct doc as [| | | | | |kvs]; try done. destruct (obj_find k kvs) as [[]|] eqn:Hf; try done.
  intros [= <-]. by repeat eexists.
Qed.
Lemma pending_inv doc lc plain :
  pending doc = Some (lc, plain) -> member_obj "loginCredentials" doc = Some lc /\ contains "passwordHash" lc = false.
Proof.
  unfold pending. destruct (member_obj _ doc) as [lc'|]; [|done]. cbn. destruct (contains _ lc') eqn:Hc; [done|].
  destruct (member_str _ lc') as [p|]; [|done]. cbn. destruct (str_empty p); [done|]. by intros [= -> ->].
Qed.

Definition with_hash (h : string) (l : list (string * json)) : list (string * json) := obj_set "passwordHash" (JStr h) l.
Lemma apply_hash h kvs l :
  obj_find "loginCredentials" kvs = Some (JObj l) ->
  apply_update (hash_update h) (JObj kvs)
  = Some (JObj (obj_set "loginCredentials" (JObj (obj_erase "accountPassword" (with_hash h l)))
                  (obj_set "loginCredentials" (JObj (with_hash h l)) kvs))).
Proof.
  intros Hf. unfold apply_update, hash_update. cbn [to_set to_unset fst snd].
  change (split_on "." "loginCredentials.passwordHash") with ["loginCredentials"; "passwordHash"].
  change (split_on "." "loginCredentials.accountPassword") with ["loginCredentials"; "accountPassword"].
  cbn [set_path]. rewrite Hf. cbn [default mbind option_bind set_path]. cbn [unset_path id mbind option_bind]. by rewrite obj_find_set.
Qed.
Lemma secure_run h kvs l plain :
  pending (JObj kvs) = Some (JObj l, plain) -> verify_password plain h = Ok true ->
  exists doc', apply_update (hash_update h) (JObj kvs) = Some doc' /\ secured (JObj kvs) doc' /\ pending doc' = None.
Proof.
  intros Hp Hv. destruct (pending_inv _ _ _ Hp) as [Hm _]. apply member_obj_inv in Hm as (kvs' & l' & [= <-] & Hf & [= <-]).
  eexists. split; [by apply apply_hash|]. set (doc' := JObj (obj_set _ _ _)).
  assert (Hm' : member_obj "loginCredentials" doc' = Some (JObj (obj_erase "accountPassword" (with_hash h l)))).
  { unfold member_obj, doc'. cbn [member]. by rewrite obj_find_set. }
  assert (Hh : obj_find "passwordHash" (obj_erase "accountPassword" (with_hash h l)) = Some (JStr h)).
  { rewrite obj_find_erase_ne by done. apply obj_find_set. }
  split.
  - unfold secured. rewrite Hp. eexists h, _. split; [by apply apply_hash|]. split; [exact Hm'|]. unfold member_str, contains. cbn [member].
    rewrite Hh, obj_find_erase. done.
  - unfold pending. rewrite Hm'. cbn [mbind option_bind]. unfold contains. cbn [member]. by rewrite Hh.
Qed.

Lemma code_matches code kvs l :
  obj_find "loginCredentials" kvs = Some (JObj l) ->
  matches (code_query code) (JObj kvs) = match obj_find "accountCode" l with Some v => holds code v | None => false end.
Proof.
  intros Hf. unfold matches, code_query. cbn [forallb fst snd].
  change (split_on "." "loginCredentials.accountCode") with ["loginCredentials"; "accountCode"]. cbn [values_at].
  rewrite Hf. destruct (obj_find "accountCode" l) as [v|]; [|done]. cbn [existsb]. by rewrite orb_false_r, andb_true_r.
Qed.
Lemma secured_matches code doc doc' : secured doc doc' -> matches (code_query code) doc' = matches (code_query code) doc.
Proof.
  unfold secured. destruct (pending doc) as [[lc plain]|] eqn:Hp; [|by intros ->]. intros (h & lc' & Ha & _).
  apply pending_inv in Hp as [(kvs & l & -> & Hf & ->)%member_obj_inv _]. rewrite (apply_hash h kvs l Hf) in Ha. injection Ha as <-.
  rewrite (code_matches code kvs l Hf). erewrite code_matches by apply obj_find_set.
  unfold with_hash. by rewrite obj_find_erase_ne, obj_find_set_ne by done.
Qed.

Lemma update_none q u l : Forall (fun doc => matches q doc = false) l -> update_matching q u l = Some l.
Proof. intros Hl. unfold update_matching. induction Hl as [|doc l Hd Hl IH]; [done|]. cbn. by rewrite Hd, IH. Qed.
Lemma update_one q u l1 doc l2 doc' :
  Forall (fun doc => matches q doc = false) (l1 ++ l2) -> matches q doc = true -> apply_update u doc = Some doc' ->
  update_matching q u (l1 ++ doc :: l2) = Some (l1 ++ doc' :: l2).
Proof.
  intros [L1 L2]%Forall_app Hm Ha. unfold update_matching in *.
  induction L1 as [|d l1 Hd _ IH]; cbn; [|by rewrite Hd, IH].
  rewrite Hm, Ha. cbn. change (mapM _ l2) with (update_matching q u l2). by rewrite update_none.
Qed.

Lemma verify_own plain salt : salt <> "" -> verify_password plain (hash_with_salt plain salt) = Ok true.
Proof. intros Hs. by rewrite verify_hash_equiv, str_eqb_refl. Qed.

Definition dumps (j : json) : Prop := exists t, json_dump j = Ok t /\ reads t j.

(** One record, in its place among the others. *)
Lemma migrate_one_run l1 doc l2 lc plain code m :
  nul_free (m_dbName m) -> contents "account" m = l1 ++ doc :: l2 -> pending doc = Some (lc, plain) ->
  member_str "accountCode" lc = Some code -> Forall (fun d => matches (code_query code) d = false) (l1 ++ l2) ->
  dumps (account_filter lc) -> (forall d : D, dumps (password_update (hash_with_salt plain (rand_salt d).1))) ->
  exists doc' m', migrate_one doc m = (Ok true, m') /\ m_dbName m' = m_dbName m /\ contents "account" m' = l1 ++ doc' :: l2
    /\ secured doc doc' /\ pending doc' = None.
Proof.
  intros Hd Hc Hp Hcode Hother (ft & Hft & Hfr) Hu. pose proof (pending_inv _ _ _ Hp) as [(kvs & l & -> & Hf & ->)%member_obj_inv _].
  destruct m as [db d]. destruct (salt_law d) as [Hne Hsame]. destruct (rand_salt d) as [salt d1] eqn:Es. cbn [fst snd] in *.
  specialize (Hu d) as (ut & Hut & Hur). rewrite Es in Hut, Hur. cbn [fst] in Hut, Hur. set (h := hash_with_salt plain salt) in *.
  destruct (secure_run h kvs l plain Hp (verify_own plain salt Hne)) as (doc' & Ha & Hsec & Hnp).
  unfold contents in Hc. cbn [m_dbName server] in *. rewrite <- Hsame in Hc.
  assert (Hm : matches (code_query code) (JObj kvs) = true).
  { rewrite (code_matches code kvs l Hf). unfold member_str, member in Hcode. destruct (obj_find "accountCode" l) as [[]|]; try done.
    injection Hcode as ->. apply str_eqb_refl. }
  unfold account_filter in Hft, Hfr. rewrite Hcode in Hft, Hfr.
  destruct (in_place_law db "account" (code_query code) (hash_update h) d1 (l1 ++ doc' :: l2)) as (d2 & Hmade & Hcont);
    [apply code_plain|apply hash_plain|rewrite Hc; by apply update_one|].
  pose proof (update_made "account" ft ut (code_query code) (hash_update h) (mkMongodb db d1) d2 Hd eq_refl Hfr Hur Hmade) as Hr.
  exists doc', (mkMongodb db d2). split; [|by split_and!]. unfold migrate_one. rewrite Hp. unfold account_filter. rewrite Hcode.
  rewrite (M_bind_ok _ _ (mkMongodb db d) h (mkMongodb db d1)) by (unfold hash_password, rand_salt, mongodb_salt; cbn [server]; by rewrite Es).
  rewrite Hft, Hut, !bind_lift_ok. change (update_collection "account" ft ut) with (mongo_update_collection "account" ft ut). rewrite Hr.
  do 2 f_equal. unfold contents. cbn [m_dbName server]. rewrite Hc, existsb_app. cbn [existsb]. by rewrite Hm, orb_true_r.
Qed.

(** Every record to be migrated has a code that no other record has. *)
Definition own_codes (ds : list json) : Prop :=
  forall l1 doc l2 lc plain, ds = l1 ++ doc :: l2 -> pending doc = Some (lc, plain) ->
    exists code, member_str "accountCode" lc = Some code /\ Forall (fun d => matches (code_query code) d = false) (l1 ++ l2).
(** The texts of the updates can be printed and are read back. *)
Definition updates_readable (ds : list json) : Prop :=
  Forall (fun doc => forall lc plain, pending doc = Some (lc, plain) ->
    dumps (account_filter lc) /\ forall d : D, dumps (password_update (hash_with_salt plain (rand_salt d).1))) ds.
Definition is_pending (doc : json) : bool := bool_decide (is_Some (pending doc)).
Definition pending_count (ds : list json) : Z := Z.of_nat (List.length (List.filter is_pending ds)).

Lemma migrate_each_run rest : forall l1 l1' n m,
  own_codes (l1 ++ rest) -> updates_readable rest -> nul_free (m_dbName m) ->
  Forall2 secured l1 l1' -> contents "account" m = l1' ++ rest ->
  exists rest' m', migrate_each rest n m = (Ok (n + pending_count rest), m') /\ contents "account" m' = l1' ++ rest'
    /\ Forall2 secured rest rest' /\ Forall (fun doc => pending doc = None) rest'.
Proof.
  induction rest as [|doc rest IH]; intros l1 l1' n m Ho Hu Hd Hs Hc.
  { exists [], m. cbn. split_and!; [|done|constructor|constructor]. unfold pending_count. cbn. by rewrite Z.add_0_r. }
  apply Forall_cons_1 in Hu as [Hdoc Hu]. cbn [migrate_each]. unfold pending_count. cbn [List.filter].
  assert (Hstep : forall doc' m1, migrate_one doc m = (Ok (is_pending doc), m1) -> m_dbName m1 = m_dbName m ->
    contents "account" m1 = l1' ++ doc' :: rest -> secured doc doc' -> pending doc' = None ->
    exists rest' m', (updated ← migrate_one doc; migrate_each rest (if updated : bool then n + 1 else n)) m
        = (Ok (n + Z.of_nat (List.length (if is_pending doc then doc :: List.filter is_pending rest else List.filter is_pending rest))), m')
      /\ contents "account" m' = l1' ++ rest' /\ Forall2 secured (doc :: rest) rest' /\ Forall (fun doc => pending doc = None) rest').
  { intros doc' m1 Hr Hdb Hc1 Hsec Hnp. rewrite (M_bind_ok _ _ _ _ _ Hr). rewrite <- Hdb in Hd.
    destruct (IH (l1 ++ [doc]) (l1' ++ [doc']) (if is_pending doc then n + 1 else n) m1) as (rest' & m' & Hr' & Hc' & Hs' & Hn');
      [by rewrite <- app_assoc|done|done|by apply Forall2_app; [|constructor]|by rewrite <- app_assoc|].
    exists (doc' :: rest'), m'. rewrite Hr'. split_and!; [|by rewrite Hc', <- app_assoc|by constructor|by constructor].
    unfold pending_count. do 2 f_equal. destruct (is_pending doc); cbn [List.length]; lia. }
  destruct (pending doc) as [[lc plain]|] eqn:Hp.
  - destruct (Ho l1 doc rest lc plain eq_refl Hp) as (code & Hcode & Hother). specialize (Hdoc lc plain eq_refl) as [Hf Hh].
    assert (Hother' : Forall (fun d => matches (code_query code) d = false) (l1' ++ rest)).
    { apply Forall_app in Hother as [Ha Hb]. apply Forall_app. split; [|done]. clear -Ha Hs. induction Hs; [constructor|].
      apply Forall_cons_1 in Ha as [Hx Ha]. constructor; [|by apply IHHs]. by erewrite secured_matches. }
    destruct (migrate_one_run l1' doc rest lc plain code m Hd Hc Hp Hcode Hother' Hf Hh) as (doc' & m1 & Hr & Hdb & Hc1 & Hsec & Hnp).
    apply (Hstep doc' m1); try done. unfold is_pending. by rewrite Hp.
  - apply (Hstep doc m); try done; [|by unfold secured; rewrite Hp]. unfold migrate_one, is_pending. by rewrite Hp.
Qed.

(** C30. The migration leaves every password hashed.  When the records to be migrated have codes of
    their own, each of them gets a hash that accepts its password and loses the password; every
    other record is left as it is, no password is left to migrate, and the number returned is
    the number of records that were migrated. *)
Theorem migration_secures m :
  let ds := contents "account" m in
  nul_free (m_dbName m) -> reads "{}" no_projection -> json_parse (array_text (map to_text ds)) = Ok (JArr ds) ->
  own_codes ds -> updates_readable ds ->
  exists m', migrate_account_passwords m = (Ok (pending_count ds), m')
    /\ Forall2 secured ds (contents "account" m') /\ Forall (fun doc => pending doc = None) (contents "account" m').
Proof.
  intros ds Hd He Hparse Ho Hu. unfold migrate_account_passwords.
  change (get_documents_all "account" "{}") with (mongo_get_documents "account" "{}" "{}").
  assert (Hg : mongo_get_documents "account" "{}" "{}" m = (Ok (match ds with [] => "" | _ => array_text (map to_text ds) end), m)).
  { unfold mongo_get_documents. rewrite with_conn_up.
    rewrite (bind_find "account" "{}" "{}" [] m _ _ Hd eq_refl He He (scan_law _ _ _)). unfold mret, M_ret.
    by rewrite cursor_text. }
  rewrite (M_bind_ok _ _ _ _ _ Hg). destruct ds as [|doc l] eqn:Eds.
  { exists m. unfold ds in Eds. rewrite Eds. split_and!; [done|constructor|constructor]. }
  rewrite <- Eds in *. change (str_empty (array_text (map to_text ds))) with false. cbn iota. rewrite Hparse.
  destruct (migrate_each_run ds [] [] 0 m Ho Hu Hd ltac:(constructor) eq_refl) as (ds' & m' & Hr & Hc & Hs & Hn).
  exists m'. rewrite Hr, Hc. by split_and!.
Qed.
End Accounts.

(** * Examples *)

#[local] Existing Instance toy_crypto.
#[local] Existing Instance toy_laws.
#[local] Instance store_salts : SaltSource Store := fun s => ("salt", s).
#[local] Instance store_salt_laws : SaltLaws Store.
Proof. by split. Qed.

Definition alice : json := mk_obj [("name", JStr "alice"); ("loginCredentials", mk_obj [("accountCode", JStr "A1"); ("accountPassword", JStr "secret")])].
Definition bob_hash : string := hash_with_salt "hidden" "salt".
Definition bob : json := mk_obj [("name", JStr "bob"); ("loginCredentials", mk_obj [("accountCode", JStr "B2"); ("passwordHash", JStr bob_hash)])].
(** A record without a code. *)
Definition mallory : json := mk_obj [("name", JStr "mallory"); ("loginCredentials", mk_obj [("accountPassword", JStr "mine")])].

Definition secret_update : json := password_update (hash_with_salt "secret" "salt").
Definition mine_update : json := password_update (hash_with_salt "mine" "salt").
Definition new_society : json := mk_obj [("code", JStr "sun")].
#[local] Instance demo_json : JsonLib :=
  table_json [JArr [alice; bob]; JArr [bob; mallory]; JObj []; query_doc (code_query "A1"); secret_update; mine_update; new_society].
#[local] Instance demo_bson : BsonText := {| bson_of_json := json_parse |}.
Definition with_accounts (ds : list json) : Mongodb Store := mkMongodb "pbx" (put_docs "pbx" "account" ds empty_store).

Lemma accounts_of ds : contents "account" (with_accounts ds) = ds.
Proof. apply (put_docs_same "pbx" "account"). Qed.
Lemma alice_pending : pending alice = Some (mk_obj [("accountCode", JStr "A1"); ("accountPassword", JStr "secret")], "secret").
Proof. done. Qed.
Lemma alice_own : own_codes [alice; bob].
Proof.
  intros l1 doc l2 lc plain He Hp. destruct l1 as [|d1 [|d2 l1]]; [| |by destruct l1].
  - assert (doc = alice /\ l2 = [bob]) as [-> ->] by (by injection He). rewrite alice_pending in Hp. injection Hp as <- <-. exists "A1". split; [done|].
    constructor; [by vm_compute|constructor].
  - assert (doc = bob) as -> by (by injection He). done.
Qed.
Lemma alice_readable : updates_readable (D := Store) [alice; bob].
Proof.
  constructor; [|constructor; [|constructor]]; intros lc plain Hp; [|done].
  rewrite alice_pending in Hp. injection Hp as <- <-. split; [by eexists|]. intros d. by eexists.
Qed.
Lemma migration_secures_witness :
  exists m', migrate_account_passwords (with_accounts [alice; bob]) = (Ok 1, m')
    /\ Forall2 secured [alice; bob] (contents "account" m') /\ Forall (fun doc => pending doc = None) (contents "account" m').
Proof.
  pose proof (migration_secures (with_accounts [alice; bob])) as Hm. cbv zeta in Hm. rewrite accounts_of in Hm.
  change 1 with (pending_count [alice; bob]).
  apply Hm; [done|by vm_compute|by vm_compute|apply alice_own|apply alice_readable].
Defined.

(** The password of a record without a code becomes everyone's. *)
Lemma migration_takes_over :
  exists m' bob', migrate_account_passwords (with_accounts [bob; mallory]) = (Ok 1, m')
    /\ head (contents "account" m') = Some bob'
    /\ verify_password "hidden" bob_hash = Ok true
    /\ (lc ← member_obj "loginCredentials" bob'; member_str "passwordHash" lc) = Some (hash_with_salt "mine" "salt").
Proof. eexists _, _. split; [vm_compute; reflexivity|]. by split_and!. Qed.

Definition one_society : Mongodb Store := mkMongodb "pbx" (put_docs "pbx" "societies" [mk_obj [("code", JStr "moon")]] empty_store).
Lemma client_refines_collection_witness :
  let by_code := compact_dump (query_doc (code_query "A1")) in let ds := with_accounts [alice; bob] in
  (exists oid m', create_document "pbx" "account" (compact_dump new_society) ds = (Ok oid, m') /\ oid <> ""
    /\ m_dbName m' = "pbx" /\ List.length (contents "account" m') = 3%nat)
  /\ get_documents "account" by_code "{}" ds = (Ok (array_text [compact_dump alice]), ds)
  /\ (exists m', update_collection "account" by_code (compact_dump secret_update) ds = (Ok true, m')
    /\ Forall (fun doc => pending doc = None) (contents "account" m'))
  /\ (exists m', delete_document "account" by_code ds = (Ok true, m') /\ contents "account" m' ≡ₚ [bob]).
Proof.
  intros by_code ds. destruct (client_refines_collection "account" ds eq_refl eq_refl) as (Hc & _ & Hg & Hu & Hd).
  unfold ds in Hc, Hg, Hu, Hd. rewrite accounts_of in Hc, Hg, Hu, Hd. fold ds in Hc, Hg, Hu, Hd.
  assert (Hq : reads by_code (query_doc (code_query "A1"))) by (by vm_compute). split_and!.
  - destruct (Hc (compact_dump new_society) new_society) as (oid & m' & Hr & [_ Hf] & Hn & Hds); [by vm_compute|done|].
    exists oid, m'. split; [exact Hr|]. apply Forall_cons_1 in Hf as [[Hne _] _]. split; [done|]. split; [done|]. by rewrite Hds.
  - destruct (Hg by_code "{}" (code_query "A1")) as (l & Hl & _ & Hr); [done|by vm_compute|apply code_plain|].
    change (matching (code_query "A1") [alice; bob]) with [alice] in Hl. apply Permutation_singleton_r in Hl as ->. exact Hr.
  - destruct (Hu by_code (compact_dump secret_update) (code_query "A1") (hash_update (hash_with_salt "secret" "salt"))
      (default [] (update_matching (code_query "A1") (hash_update (hash_with_salt "secret" "salt")) [alice; bob])))
      as (m' & Hr & _ & Hds); [done|by vm_compute|apply code_plain|apply hash_plain|by vm_compute|].
    exists m'. split; [exact Hr|]. rewrite Hds. by repeat constructor.
  - destruct (Hd by_code (code_query "A1")) as (m' & Hr & _ & Hds); [done|apply code_plain|]. by exists m'.
Defined.

Lemma awbnos_distinct_witness :
  exists m' awbs, next_awbnos ["AWB"; "DHL"; "AWB"] one_society = (Ok awbs, m') /\ NoDup awbs
    /\ awbs = ["AWB000000001"; "DHL000000002"; "AWB000000003"].
Proof.
  destruct (awbnos_distinct ["AWB"; "DHL"; "AWB"] 0 one_society) as (m' & awbs & Hr & _ & Hz & Hn & _); [done|by vm_compute|lia|cbn; lia|].
  exists m', awbs. split; [exact Hr|]. split; [done|]. rewrite Hz. by vm_compute.
Defined.
(** The number after the last of nine digits has ten: nothing wraps around. *)
Lemma no_wrap_around prefix n m :
  nul_free (m_dbName m) -> awb_counter m = Some n -> n = 999999999 -> (next_awbno prefix m : result string * Mongodb Store).1 = Ok (prefix +:+ "1000000000").
Proof. intros Hd Hn ->. destruct (next_run prefix 999999999 m Hd Hn ltac:(lia)) as (m' & Hr & _). cbn [next_awbno mongodb_client]. by rewrite Hr. Qed.

Lemma files_come_back_witness :
  exists oid m1, store_file "awb.pdf" "application/pdf" "bytes" one_society = (Ok oid, m1) /\ fetch_file_by_id oid m1 = (Ok "bytes", m1).
Proof.
  assert (Hn : NoDup (stored_files one_society).*1) by (replace (stored_files one_society) with (@nil (string * (string * string))) by (by vm_compute); constructor).
  destruct (files_come_back "awb.pdf" "application/pdf" "bytes" one_society eq_refl Hn) as (oid & m1 & m2 & Hs & _ & Hf & _).
  by exists oid, m1.
Defined.

#[local] Existing Instance toy_bson.
#[local] Existing Instance toy_bson_laws.
#[local] Instance demo_what : What := fun _ => "error".
Definition remote_society : Proxy (Mongodb Store) := mkProxy 7 one_society.
Lemma remote_refines_collection_witness :
  let lost := fun _ : string => "" in
  exists oid p', @proxy_create_document _ _ (wired "pbx" lost) "" "societies" (compact_dump new_society) remote_society = (Ok oid, p')
    /\ oid <> "" /\ List.length (remote_contents "societies" p') = 2%nat.
Proof.
  intros lost. assert (Hid : is_i32 (s_reqid remote_society)) by done.
  destruct (remote_refines_collection "pbx" lost "societies" remote_society Hid eq_refl eq_refl eq_refl) as (Hc & _).
  destruct (Hc "" (compact_dump new_society) new_society) as (oid & p' & Hr & [_ Hf] & Hds); [by vm_compute|done|].
  exists oid, p'. split; [exact Hr|]. apply Forall_cons_1 in Hf as [[Hne _] _]. split; [done|]. rewrite Hds. by vm_compute.
Defined.
