(* ===== verification/DbLink.v ===== *)
(** The connection under the database messages: how [WsDbAgent] (wsdbagent.cpp) reaches
    [WsDbServer] (wsdbproxy.cpp), the inner TLS over WebSocket frames (wstransport.hpp), and
    the sessions of both ends.

    The first part is one thread at each end, over the socket class.  The second part is what
    the server's threads share of the connection, as a transition system. *)

From S2P Require Import Prelude WsFrame WsStream WsConn WsHistory MessageParser Base64 HttpHead ClientSocket WsUpgrade InnerTls WsRecv.
From S2P Require Import TlsLoop AgentStack SecureTunnel Json DbProto DbAgent.

#[local] Open Scope Z_scope.

(** * The two ends *)

(** The calls of the blocking sockets: [recv_n], [poll] for that many seconds (whether
    there are bytes, an error or the end), and the flag that other threads may set
    ([m_stop], or [m_connected] cleared). *)
Class NetBlocking (N : Type) := {
  net_recv_n : nat -> N -> option string * N;
  net_poll : Z -> N -> bool * N;
  net_told_to_stop : N -> bool;
}.

#[export] Instance conn_recv_n {N} `{!NetIO N} `{!NetDial N} `{!NetBlocking N} : RecvN (Conn N) := fun n c =>
  if m_handle c then let '(r, s) := net_recv_n n (net c) in (r, on_net s c) else (None, c).

(** ** WebSocketTransport *)

Section Transport.
Context {N : Type} `{!NetIO N} `{!NetDial N} `{!NetBlocking N}.

(** [m_sendFrame] masks at the agent and does not at the server; both write whole frames. *)
Record WsTransport := mkWsTransport { masks : bool; sock : Conn N }.
Implicit Types (x : WsTransport).

Definition send_frame (payload : string) (op : Z) x : bool * WsTransport :=
  let '(ok, c) := write_frame (masks x) payload op (sock x) in (ok, mkWsTransport (masks x) c).

(** A length that no vector can have is an exception, which leaves the thread's function. *)
Definition transport_read x : option (option string * WsTransport) :=
  match ws_recv_frame (sock x) with
  | RecvFrame f c =>
      let '(r, pong) := transport_recv f in
      let x := mkWsTransport (masks x) c in
      Some (r, match pong with Some (payload, op) => (send_frame payload op x).2 | None => x end)
  | RecvEnd c => Some (None, mkWsTransport (masks x) c)
  | RecvUndefined | RecvThrow => None
  end.
#[export] Instance ws_transport : TlsTransport WsTransport := {| tr_send bytes := send_frame bytes 2; tr_recv := transport_read |}.
End Transport.
Arguments WsTransport : clear implicits.

(** ** WsDbAgent *)

Section Agent.
Context {N T D : Type} `{!NetIO N} `{!NetDial N} `{!NetBlocking N} `{!Digest} `{!Tls T} `{!Fuel}.
Context `{!Bson} `{!JsonLib} `{!MongoClient D} `{!What}.

(** What the constructor keeps; TLS is not optional. *)
Record AgentConfig := mkAgentConfig {
  m_host : string; m_port : Z; m_db_name : string;
  m_tls_ca : string; m_tls_cert : string; m_tls_key : string; m_tls_hostname : string }.
Record DbAgent := mkDbAgent { m_innerTls : option T; link : Conn N; m_db : D }.
Implicit Types (a : DbAgent) (cfg : AgentConfig).

Definition on_link (f : Conn N -> Conn N) a : DbAgent := mkDbAgent (m_innerTls a) (f (link a)) (m_db a).
Definition disconnect a : DbAgent := mkDbAgent None (shut (link a)) (m_db a).

Definition connect_and_handshake cfg (raw : string) a : bool * DbAgent :=
  let '(ok, c) := dial (db_request raw (m_host cfg)) validate_db_response (m_host cfg) (m_port cfg) (link a) in
  (ok, mkDbAgent (m_innerTls a) c (m_db a)).

(** [None] while the handshake is still running. *)
Definition setup_inner_tls cfg a : option (bool * DbAgent) :=
  let t := if str_empty (m_tls_ca cfg) then tls_client else tls_set_ca (m_tls_ca cfg) tls_client in
  let '(ok, t) := if str_empty (m_tls_cert cfg) then (true, t) else tls_set_cert (m_tls_cert cfg) (m_tls_key cfg) t in
  if negb ok then Some (false, mkDbAgent None (link a) (m_db a)) else
  match handshake (mkInner t (mkWsTransport true (link a))) with
  | None => None
  | Some (false, i) => Some (false, mkDbAgent None (sock (transport i)) (m_db a))
  | Some (true, i) => Some (true, mkDbAgent (Some (ssl i)) (sock (transport i)) (m_db a))
  end.

Definition PING_INTERVAL_S : Z := 30.

(** One round of [run_session]'s loop: whether the loop goes on; [None] when the round does
    not return. *)
Definition session_round cfg a : option (bool * DbAgent) :=
  let '(ready, s) := net_poll PING_INTERVAL_S (net (link a)) in
  let a := on_link (on_net s) a in
  if negb ready then
    let '(ok, c) := write_frame true "" 9 (link a) in Some (ok, mkDbAgent (m_innerTls a) c (m_db a))
  else
    match m_innerTls a with
    | None => None
    | Some t =>
        match recv (mkInner t (mkWsTransport true (link a))) with
        | None => None
        | Some (None, i) => Some (false, mkDbAgent (Some (ssl i)) (sock (transport i)) (m_db a))
        | Some (Some plaintext, i) =>
            if str_empty plaintext then Some (true, mkDbAgent (Some (ssl i)) (sock (transport i)) (m_db a)) else
            let '(rsp, d) := serve (m_db_name cfg) plaintext (m_db a) in
            match rsp with
            | None => Some (true, mkDbAgent (Some (ssl i)) (sock (transport i)) d)
            | Some rsp => let '(ok, i) := InnerTls.send rsp i in Some (ok, mkDbAgent (Some (ssl i)) (sock (transport i)) d)
            end
        end
    end.
Fixpoint run_session (rounds : nat) cfg a : option DbAgent :=
  match rounds with
  | O => None
  | S rounds' =>
      if net_told_to_stop (net (link a)) then Some (disconnect a) else
      match session_round cfg a with
      | None => None
      | Some (false, a) => Some (disconnect a)
      | Some (true, a) => run_session rounds' cfg a
      end
  end.

(** The body of [run]'s loop, but for the pause. *)
Definition run_once cfg (raw : string) a : option (attempt * DbAgent) :=
  let '(ok, a) := connect_and_handshake cfg raw a in
  if negb ok then Some (ConnectFailed, a) else
  match setup_inner_tls cfg a with
  | None => None
  | Some (false, a) => Some (TlsFailed, disconnect a)
  | Some (true, a) =>
      let named := match m_innerTls a with Some t => tls_check_host (m_tls_hostname cfg) t | None => false end in
      if negb (str_empty (m_tls_hostname cfg)) && negb named then Some (TlsFailed, disconnect a)
      else a ← run_session fuel cfg a; Some (SessionRan, a)
  end.
End Agent.
Arguments DbAgent : clear implicits.

(** ** The options of wsdbagent_main.cpp *)

Record AgentOptions := mkAgentOptions {
  server_host : string; server_port : Z; db_uri : string; db_pool : string; db_name : string; backoff : Z;
  tls_ca : string; tls_cert : string; tls_key : string; tls_hostname : string }.
Definition default_agent_options : AgentOptions := mkAgentOptions "" 0 "" "10" "" 5 "" "" "" "".

Definition set_agent_option (c : ascii) (arg : string) (o : AgentOptions) : result (Z + AgentOptions) :=
  let 'mkAgentOptions h p u pl d b a e k n := o in
  if Ascii.eqb c "H" then Ok (inr (mkAgentOptions arg p u pl d b a e k n))
  else if Ascii.eqb c "p" then p ← stoi 10 arg; Ok (inr (mkAgentOptions h p u pl d b a e k n))
  else if Ascii.eqb c "U" then Ok (inr (mkAgentOptions h p arg pl d b a e k n))
  else if Ascii.eqb c "C" then Ok (inr (mkAgentOptions h p u arg d b a e k n))
  else if Ascii.eqb c "D" then Ok (inr (mkAgentOptions h p u pl arg b a e k n))
  else if Ascii.eqb c "b" then b ← stoi 10 arg; Ok (inr (mkAgentOptions h p u pl d b a e k n))
  else if Ascii.eqb c "A" then Ok (inr (mkAgentOptions h p u pl d b arg e k n))
  else if Ascii.eqb c "E" then Ok (inr (mkAgentOptions h p u pl d b a arg k n))
  else if Ascii.eqb c "K" then Ok (inr (mkAgentOptions h p u pl d b a e arg n))
  else if Ascii.eqb c "N" then Ok (inr (mkAgentOptions h p u pl d b a e k arg))
  else if Ascii.eqb c "n" then Ok (inl (-1))
  else if Ascii.eqb c "h" then Ok (inl 0)
  else if Ascii.eqb c "?" then Ok (inl (-1))
  else Ok (inr o).

(** The agent that [main] makes, the address of its database, and the pause it runs with;
    the size of the pool is not used. *)
Definition agent_main (args : list (ascii * string)) : result (Z + AgentConfig * string * Z) :=
  r ← get_opts set_agent_option args default_agent_options;
  Ok match r with
     | inl code => inl code
     | inr o =>
         if str_empty (server_host o) || str_empty (db_uri o) || str_empty (db_name o) then inl (-1) else
         let port := if server_port o =? 0 then 443 else server_port o in
         inr (mkAgentConfig (server_host o) (port mod 2 ^ 16) (db_name o) (tls_ca o) (tls_cert o) (tls_key o) (tls_hostname o),
              db_uri o, backoff o)
     end.

(** ** WsDbServer *)

Section Server.
Context {N T : Type} `{!NetIO N} `{!NetDial N} `{!NetBlocking N} `{!Digest} `{!Tls T} `{!Fuel} `{!Bson}.

Definition skip_spaces : string -> string := fix skip s :=
  match s with String " " s' => skip s' | _ => s end.

(** On the mTLS port the server reads the upgrade request itself. *)
Definition ws_upgrade_server (c : Conn N) : bool * Conn N :=
  match read_headers (Z.to_nat 8192) "" c with
  | (None, c) => (false, c)
  | (Some headers, c) =>
      match find_str "Sec-WebSocket-Key:" headers with
      | None => (false, c)
      | Some pos =>
          let rest := skip_spaces (str_drop (pos + 18) headers) in
          match find_str CRLF rest with
          | None => (false, c)
          | Some end_ => write (upgrade_answer (str_take end_ rest)) c
          end
      end
  end.

(** The configuration of [m_innerCert], [m_innerKey], [m_innerCa], and what the thread of
    the session has: [routed] are the responses that it looked up ([DbServer.session_step]). *)
Record InnerConfig := mkInnerConfig { m_innerCert : string; m_innerKey : string; m_innerCa : string }.
Record Session := mkSession { inner : option T; agentStream : Conn N; routed : list string }.
Implicit Types (s : Session) (cfg : InnerConfig).

Definition server_inner_tls cfg s : option (bool * Session) :=
  if str_empty (m_innerCert cfg) || str_empty (m_innerKey cfg) then Some (true, s) else
  let t := tls_server (m_innerCert cfg) (m_innerKey cfg) (m_innerCa cfg) in
  match handshake (mkInner t (mkWsTransport false (agentStream s))) with
  | None => None
  | Some (false, i) => Some (false, mkSession None (sock (transport i)) (routed s))
  | Some (true, i) => Some (true, mkSession (Some (ssl i)) (sock (transport i)) (routed s))
  end.

(** A message for the agent: [dispatch]'s part that sends. *)
Definition send_request (bson : string) s : bool * Session :=
  match inner s with
  | Some t =>
      let '(ok, i) := InnerTls.send bson (mkInner t (mkWsTransport false (agentStream s))) in
      (ok, mkSession (Some (ssl i)) (sock (transport i)) (routed s))
  | None => let '(ok, c) := write_frame false bson 2 (agentStream s) in (ok, mkSession None c (routed s))
  end.

(** One round of [run_session]: [Continue] with a message or without, or the end. *)
Definition route (plaintext : string) s : Session :=
  if (parse_response plaintext default_response).1
  then mkSession (inner s) (agentStream s) (routed s ++ [plaintext]) else s.
Definition read_round s : option (bool * Session) :=
  match inner s with
  | Some t =>
      match recv (mkInner t (mkWsTransport false (agentStream s))) with
      | None => None
      | Some (r, i) =>
          let s := mkSession (Some (ssl i)) (sock (transport i)) (routed s) in
          Some (match r with
                | None => (false, s)
                | Some plaintext => (true, if str_empty plaintext then s else route plaintext s)
                end)
      end
  | None =>
      match ws_recv_frame (agentStream s) with
      | RecvUndefined | RecvThrow => None
      | RecvEnd c => Some (false, mkSession None c (routed s))
      | RecvFrame f c =>
          let s := mkSession None c (routed s) in
          Some (if opcode f =? 9 then (true, mkSession None (write_frame false "" 10 c).2 (routed s))
                else if opcode f =? 10 then (true, s)
                else if opcode f =? 8 then (false, s)
                else (true, route (payload f) s))
      end
  end.
Definition end_session s : Session := mkSession None (shut (agentStream s)) (routed s).
Fixpoint server_session (rounds : nat) s : option Session :=
  match rounds with
  | O => None
  | S rounds' =>
      if net_told_to_stop (net (agentStream s)) then Some (end_session s) else
      match read_round s with
      | None => None
      | Some (false, s) => Some (end_session s)
      | Some (true, s) => server_session rounds' s
      end
  end.
End Server.
Arguments Session : clear implicits.

(** * What the server's threads share of the connection *)

(** [svc]'s thread, the callers of [dispatch], the web service's thread that hands a socket
    over ([on_agent_connected], which holds [m_connectMu]) and the one that calls [close]. *)
Module Shared.

(** Where [svc] is: waiting for an agent (or in [accept] on the mTLS port), at the test of
    the inner TLS's configuration, in [accept] of the inner TLS, at the three assignments
    after its failure, in [run_session]'s loop, past it; returned. *)
Inductive svc_pc := Idle | SettingUp | Accepting | Failed | FailedCleared | FailedClosed | InSession | Ending | Stopped.

Inductive sent := Clear (bson : string) | Sealed (bson : string).

(** A call of [dispatch] past the test of [m_connected], and what it has read without a lock:
    that [m_innerTls] is unset, that it is set, and that [m_innerTlsReady] is. *)
Inductive caller := Checked (bson : string) | SawNull (bson : string) | SawSet (bson : string) | SawReady (bson : string).

(** Sockets are numbered as they are made: [opened] are those that were not closed, [down]
    those that were shut down.  [m_innerTls] tells whether the pointer is set; [stream] is
    the socket of [m_agentStream] or, with [m_tls_mode], of [m_ssl_agentStream], and [wire]
    what was sent on which. *)
Record Link := mkLink {
  m_running : bool; m_connected : bool; m_innerTls : bool; m_innerTlsReady : bool;
  m_agentHandle : option nat; stream : option nat; opened : gset nat; down : gset nat; next : nat;
  svc : svc_pc; callers : list caller; wire : list (nat * sent) }.

Section Link.
(** [m_tls_mode], and whether certificate and key of the inner TLS are set. *)
Context (m_tls_mode configured : bool).
Implicit Types (l : Link).

Definition opened_link : Link := mkLink true false false false None None ∅ ∅ 0 Idle [] [].

Definition at_pc (pc : svc_pc) l : Link :=
  mkLink (m_running l) (m_connected l) (m_innerTls l) (m_innerTlsReady l) (m_agentHandle l) (stream l) (opened l) (down l) (next l) pc (callers l) (wire l).
Definition put_connected (b : bool) l : Link :=
  mkLink (m_running l) b (m_innerTls l) (m_innerTlsReady l) (m_agentHandle l) (stream l) (opened l) (down l) (next l) (svc l) (callers l) (wire l).
Definition put_inner (i ready : bool) l : Link :=
  mkLink (m_running l) (m_connected l) i ready (m_agentHandle l) (stream l) (opened l) (down l) (next l) (svc l) (callers l) (wire l).
Definition put_running (b : bool) l : Link :=
  mkLink b (m_connected l) (m_innerTls l) (m_innerTlsReady l) (m_agentHandle l) (stream l) (opened l) (down l) (next l) (svc l) (callers l) (wire l).
Definition put_handle (h : option nat) l : Link :=
  mkLink (m_running l) (m_connected l) (m_innerTls l) (m_innerTlsReady l) h (stream l) (opened l) (down l) (next l) (svc l) (callers l) (wire l).
Definition put_stream (s : option nat) l : Link :=
  mkLink (m_running l) (m_connected l) (m_innerTls l) (m_innerTlsReady l) (m_agentHandle l) s (opened l) (down l) (next l) (svc l) (callers l) (wire l).
Definition put_sockets (o d : gset nat) (n : nat) l : Link :=
  mkLink (m_running l) (m_connected l) (m_innerTls l) (m_innerTlsReady l) (m_agentHandle l) (stream l) o d n (svc l) (callers l) (wire l).
Definition put_callers (cs : list caller) (w : list (nat * sent)) l : Link :=
  mkLink (m_running l) (m_connected l) (m_innerTls l) (m_innerTlsReady l) (m_agentHandle l) (stream l) (opened l) (down l) (next l) (svc l) cs w.

(** A new connection: its socket is [next l]. *)
Definition arrive l : Link := put_sockets (opened l ∪ {[next l]}) (down l) (S (next l)) l.
Definition close_socket (h : nat) l : Link := put_sockets (opened l ∖ {[h]}) (down l) (next l) l.
(** [m_agentStream.close()]. *)
Definition close_stream l : Link :=
  match stream l with Some h => put_stream None (close_socket h l) | None => l end.
(** [::shutdown(handle, SHUT_RDWR)]. *)
Definition shutdown (handle : option nat) l : Link :=
  match handle with Some h => put_sockets (opened l) (down l ∪ {[h]}) (next l) l | None => l end.

Definition on_agent_connected l : Link :=
  let h := next l in
  let l := arrive l in
  if m_connected l then close_socket h (put_handle None (put_connected false (shutdown (m_agentHandle l) l)))
  else
    let l := put_handle (Some h) l in
    put_connected true (if m_tls_mode then l else put_stream (Some h) l).

(** The branch that a call takes by its read of [m_innerTls], and what a send adds to the wire. *)
Definition branch (bson : string) l : caller := if m_innerTls l then SawSet bson else SawNull bson.
Definition sent_on (m : sent) l : list (nat * sent) := match stream l with Some h => wire l ++ [(h, m)] | None => wire l end.

Inductive step : Link -> Link -> Prop :=
  (** svc, on the agent's HTTP connection *)
  | svc_wake l : m_tls_mode = false -> svc l = Idle -> m_connected l = true -> m_running l = true -> step l (at_pc SettingUp l)
  | svc_stop l : svc l = Idle -> m_running l = false -> step l (at_pc Stopped l)
  (** svc, on the mTLS port: another agent, a failed upgrade, an agent *)
  | svc_reject l : m_tls_mode = true -> svc l = Idle -> m_running l = true -> m_connected l = true ->
      step l (put_stream None (close_socket (next l) (arrive l)))
  | svc_refuse l : m_tls_mode = true -> svc l = Idle -> m_running l = true -> m_connected l = false ->
      step l (put_stream None (close_socket (next l) (arrive l)))
  | svc_accept l : m_tls_mode = true -> svc l = Idle -> m_running l = true -> m_connected l = false ->
      step l (at_pc SettingUp (put_connected true (put_handle (Some (next l)) (put_stream (Some (next l)) (arrive l)))))
  (** setup_inner_tls *)
  | svc_skip l : svc l = SettingUp -> configured = false -> step l (at_pc InSession l)
  | svc_begin l : svc l = SettingUp -> configured = true -> step l (at_pc Accepting (put_inner true (m_innerTlsReady l) l))
  | svc_ready l : svc l = Accepting -> m_innerTls l = true -> step l (at_pc InSession (put_inner true true l))
  | svc_fail l : svc l = Accepting -> step l (at_pc Failed (put_inner false (m_innerTlsReady l) l))
  | svc_clear l : svc l = Failed -> step l (at_pc FailedCleared (put_connected false l))
  | svc_close l : svc l = FailedCleared -> step l (at_pc FailedClosed (close_stream l))
  | svc_forget l : svc l = FailedClosed -> step l (at_pc Idle (put_handle None l))
  (** run_session: the end of its loop, and the block that holds [m_connectMu] *)
  | svc_leave l : svc l = InSession -> step l (at_pc Ending l)
  | svc_end l : svc l = Ending -> step l (at_pc Idle (put_handle None (close_stream (put_inner false false (put_connected false l)))))
  (** the web service hands a socket over *)
  | web_connect l : step l (on_agent_connected l)
  (** dispatch; the call through [m_innerTls] has no step when the pointer was reset in between *)
  | call_check bson l : m_connected l = true -> step l (put_callers (callers l ++ [Checked bson]) (wire l) l)
  | call_branch c1 bson c2 l : callers l = c1 ++ Checked bson :: c2 -> step l (put_callers (c1 ++ branch bson l :: c2) (wire l) l)
  | call_clear c1 bson c2 l : callers l = c1 ++ SawNull bson :: c2 -> step l (put_callers (c1 ++ c2) (sent_on (Clear bson) l) l)
  | call_ready c1 bson c2 l : callers l = c1 ++ SawSet bson :: c2 -> m_innerTlsReady l = true ->
      step l (put_callers (c1 ++ SawReady bson :: c2) (wire l) l)
  | call_fail c1 bson c2 l : callers l = c1 ++ SawSet bson :: c2 -> m_innerTlsReady l = false -> step l (put_callers (c1 ++ c2) (wire l) l)
  | call_seal c1 bson c2 l : callers l = c1 ++ SawReady bson :: c2 -> m_innerTls l = true ->
      step l (put_callers (c1 ++ c2) (sent_on (Sealed bson) l) l)
  (** close *)
  | close_begin l : step l (put_running false (put_inner false false l))
  | close_shutdown l : m_running l = false -> step l (shutdown (if m_tls_mode then stream l else m_agentHandle l) l).

Definition reachable : Link -> Prop := rtc step opened_link.
End Link.
End Shared.
