(* ===== verification/DbLinkSpec.v ===== *)
(** What the database connection guarantees, and what it does not: the bytes carry the
    messages that [DbServer] has in its two queues; the handshakes agree; requests are
    encrypted while a session runs, but not before it; and neither client checks its
    server's certificate. *)

From S2P Require Import Prelude WsFrame WsStream WsConn WsHistory MessageParser Base64 HttpHead ClientSocket WsUpgrade InnerTls WsRecv.
From S2P Require Import TlsLoop AgentStack SecureTunnel Json DbProto DbAgent DbLink.

#[local] Open Scope Z_scope.

(** * What the bytes carry *)

(** What the manual says of the blocking calls: the bytes that will arrive come in order and
    then the end, sending takes none of them, and [poll] gives up only finitely often. *)
Class BlockingLaws (N : Type) `{!NetIO N} `{!NetDial N} `{!DialStream N} `{!NetBlocking N} := {
  quiet : N -> nat;
  recv_n_stream n s : recv_n n (net_stream s) = ((net_recv_n n s).1, net_stream (net_recv_n n s).2);
  send_stream b s : net_stream (net_send b s).2 = net_stream s;
  key_stream s : net_stream (net_mask_key s).2 = net_stream s;
  poll_stream n s : net_stream (net_poll n s).2 = net_stream s;
  recv_n_quiet n s : (quiet (net_recv_n n s).2 <= quiet s)%nat;
  send_quiet b s : (quiet (net_send b s).2 <= quiet s)%nat;
  key_quiet s : (quiet (net_mask_key s).2 <= quiet s)%nat;
  poll_quiet n s : if (net_poll n s).1 then (quiet (net_poll n s).2 <= quiet s)%nat else (quiet (net_poll n s).2 < quiet s)%nat;
}.

(** A frame on the wire with the plaintext that it opens to. *)
Definition items : Type := list (Wire * string).
Definition record_of (w : Wire) : string := if opcode (w_frame w) =? 2 then payload (w_frame w) else "".
Definition text (l : items) : string := str_concat (map snd l).
Definition cipher_of (l : items) : string := str_concat (map (fun i => record_of i.1) l).
Definition item_ok (i : Wire * string) : Prop :=
  wire_ok i.1 /\ (opcode (w_frame i.1) = 2 \/ (opcode (w_frame i.1) = 9 \/ opcode (w_frame i.1) = 10) /\ i.2 = "").
Definition on_wire (l : items) : string := wire_stream (map fst l).
(** The messages: what is not a control frame or a record without data. *)
Definition messages (l : items) : list string := filter (fun m => m <> "") (map snd l).

Lemma text_cons w m l : text ((w, m) :: l) = m +:+ text l.
Proof. done. Qed.
Lemma cipher_of_cons w m l : cipher_of ((w, m) :: l) = record_of w +:+ cipher_of l.
Proof. done. Qed.
Lemma on_wire_cons w m l : on_wire ((w, m) :: l) = wire_bytes w +:+ on_wire l.
Proof. done. Qed.
Lemma messages_cons w m l : messages ((w, m) :: l) = if str_empty m then messages l else m :: messages l.
Proof.
  unfold messages. cbn [map snd]. destruct (str_empty m) eqn:E.
  - apply str_empty_true in E as ->. rewrite filter_cons_False; [done|naive_solver].
  - apply str_empty_false in E. by rewrite filter_cons_True by done.
Qed.

Section Session.
Context {T : Type} `{!Tls T} `{!TlsChannel T}.

(** The calls that the layer makes on a session. *)
Inductive tls_step : T -> T -> Prop :=
  | step_write p t : tls_step t (tls_write p t).2
  | step_take n t : tls_step t (tls_bio_read n t).2
  | step_feed c t : tls_step t (tls_bio_write c t)
  | step_read t : tls_step t (tls_read t).2.
Definition evolves : T -> T -> Prop := rtc tls_step.

(** The frames carry what was written to the session, and open to their messages. *)
Definition aligned (t : T) (l : items) : Prop := forall k, exists t',
  evolves t t' /\ sealed t' = sealed t +:+ text (take k l) /\ emitted t' = emitted t +:+ cipher_of (take k l).
Definition opens (t : T) (l : items) : Prop :=
  genuine t (fed t +:+ cipher_of l) /\ forall k, plain t (fed t +:+ cipher_of (take k l)) = plain t (fed t) +:+ text (take k l).

Lemma aligned_nil t : aligned t [].
Proof. intros k. exists t. rewrite take_nil. cbn. rewrite !str_app_nil_r. split_and!; [apply rtc_refl|done|done]. Qed.
Lemma aligned_cons t t1 w m l :
  evolves t t1 -> sealed t1 = sealed t +:+ m -> emitted t1 = emitted t +:+ record_of w -> aligned t1 l -> aligned t ((w, m) :: l).
Proof.
  intros He Hs Hm Hl [|k].
  - exists t. cbn. rewrite !str_app_nil_r. split_and!; [apply rtc_refl|done|done].
  - destruct (Hl k) as (t' & He' & Hs' & Hm'). exists t'. cbn [take]. rewrite text_cons, cipher_of_cons.
    rewrite Hs', Hs, Hm', Hm, !str_app_assoc. split_and!; [by etransitivity|done|done].
Qed.
(** Steps that neither write nor take change nothing of this. *)
Lemma aligned_evolves t t1 l :
  evolves t t1 -> sealed t1 = sealed t -> emitted t1 = emitted t -> aligned t1 l -> aligned t l.
Proof.
  intros He Hs Hm Hl k. destruct (Hl k) as (t' & He' & Hs' & Hm'). exists t'. rewrite Hs', Hs, Hm', Hm. split_and!; [by etransitivity|done|done].
Qed.

Lemma aligned_opens t tc l :
  aligned t l -> fed tc = emitted t -> (forall t', evolves t t' -> linked t' tc) -> opens tc l.
Proof.
  intros Ha Hf Hl. assert (H0 : plain tc (fed tc) = sealed t) by (rewrite Hf; by apply Hl, rtc_refl). split.
  - destruct (Ha (List.length l)) as (t' & He & _ & Hm). rewrite firstn_all in Hm. rewrite Hf, <- Hm. by apply Hl.
  - intros k. destruct (Ha k) as (t' & He & Hs & Hm). rewrite H0, Hf, <- Hm, <- Hs. by apply Hl.
Qed.

Lemma opens_cons t w m l :
  opens t ((w, m) :: l) ->
  genuine t (fed t +:+ record_of w) /\ plain t (fed t +:+ record_of w) = plain t (fed t) +:+ m
  /\ forall t', fed t' = fed t +:+ record_of w -> plain t' = plain t -> genuine t' = genuine t -> opens t' l.
Proof.
  intros [Hg Hp]. rewrite cipher_of_cons, <- str_app_assoc in Hg.
  pose proof (Hp 1%nat) as H1. cbn [take] in H1. rewrite take_0, cipher_of_cons, text_cons in H1. cbn in H1.
  rewrite !str_app_nil_r in H1. split_and!; [by eapply genuine_prefix|done|].
  intros t' Hf HP HG. split; [by rewrite HG, Hf|]. intros k. specialize (Hp (S k)). cbn [take] in Hp.
  rewrite cipher_of_cons, text_cons in Hp. by rewrite HP, Hf, H1, !str_app_assoc, Hp.
Qed.
End Session.

Section Evolving.
Context {T X : Type} `{!Tls T} `{!TlsTransport X}.
Implicit Types (t : T) (i : Inner T X).

Lemma evolves_one t t' : tls_step t t' -> evolves t t'.
Proof. apply rtc_once. Qed.
Lemma send_evolves p i : evolves (ssl i) (ssl (InnerTls.send p i).2).
Proof.
  unfold InnerTls.send, flush_wbio, send_pending. pose proof (step_write p (ssl i)) as Hw.
  destruct (tls_write p (ssl i)) as [[] t]; cbn [snd ssl transport] in *; [|by apply evolves_one].
  destruct (_ =? 0)%nat; [by apply evolves_one|]. pose proof (step_take (tls_pending t) t) as Ht.
  destruct (tls_bio_read _ t) as [[b|] t2]; cbn [snd] in *; [destruct (tr_send b (transport i))|]; cbn; by eapply rtc_l, rtc_once.
Qed.
Lemma read_loop_evolves n acc t r t' : read_loop n acc t = Some (r, t') -> evolves t t'.
Proof.
  revert acc t. induction n as [|n IH]; intros acc t; [done|]. cbn [read_loop]. pose proof (step_read t) as Hs.
  destruct (tls_read t) as [[b| |] t1]; cbn [snd] in Hs; [intros Hr; eapply rtc_l; [exact Hs|by eapply IH]|..]; intros [= <- <-]; by apply evolves_one.
Qed.
Lemma recv_evolves i r i' : recv i = Some (r, i') -> evolves (ssl i) (ssl i').
Proof.
  unfold recv. destruct (tr_recv (transport i)) as [[[wire|] x]|]; [|intros [= <- <-]; apply rtc_refl|done].
  set (t := if str_empty wire then _ else _).
  assert (Ht : evolves (ssl i) t) by (unfold t; destruct (str_empty wire); [apply rtc_refl|apply evolves_one, step_feed]).
  destruct (read_loop _ "" t) as [[r1 t1]|] eqn:E; [|done]. intros [= <- <-]. etransitivity; [exact Ht|by eapply read_loop_evolves].
Qed.
End Evolving.

Section Frames.
Context {N : Type} `{!NetIO N} `{!MaskLaws N} `{!NetDial N} `{!DialStream N} `{!NetBlocking N} `{!BlockingLaws N}.
Implicit Types (c : Conn N) (x : WsTransport N).

(** [out] is what was written between two moments, and nothing was taken from the peer's
    bytes. *)
Definition wrote (c c' : Conn N) (out : items) : Prop :=
  (exists lg, log c' = log c ++ lg /\ sent_bytes lg = on_wire out) /\ m_handle c' = m_handle c
  /\ (quiet (net c') <= quiet (net c))%nat.
Definition same_stream (c c' : Conn N) : Prop := net_stream (net c') = net_stream (net c).

Lemma wrote_refl c : wrote c c [].
Proof. split_and!; [exists []; by rewrite app_nil_r|done|done]. Qed.
Lemma wrote_trans c c1 c2 o1 o2 : wrote c c1 o1 -> wrote c1 c2 o2 -> wrote c c2 (o1 ++ o2).
Proof.
  intros ((l1 & E1 & S1) & H1 & Q1) ((l2 & E2 & S2) & H2 & Q2). split_and!; [|congruence|lia].
  exists (l1 ++ l2). rewrite E2, E1, <- app_assoc, sent_bytes_app, S1, S2. split; [done|].
  unfold on_wire, wire_stream. by rewrite !map_app, str_concat_app.
Qed.

Lemma write_frame_wrote mask p op c :
  0 <= op < 16 -> Z.of_nat (String.length p) < 2 ^ 63 -> m_handle c = true ->
  exists w, wire_ok w /\ w_frame w = mkFrame op p
    /\ wrote c (write_frame mask p op c).2 [(w, "")] /\ same_stream c (write_frame mask p op c).2
    /\ ((forall b s, (net_send b s).1 = true) -> (write_frame mask p op c).1 = true).
Proof.
  intros Hop Hp Hh. destruct (write_frame_log mask p op c Hh) as (key & Hk & Hh' & Hl).
  exists (mkWire (mkFrame op p) mask 0 key). split; [unfold wire_ok, ws_ok; cbn; lia|]. split; [done|].
  assert (Hs : same_stream c (write_frame mask p op c).2 /\ (quiet (net (write_frame mask p op c).2) <= quiet (net c))%nat
    /\ ((forall b s, (net_send b s).1 = true) -> (write_frame mask p op c).1 = true)).
  { unfold same_stream, write_frame, write. destruct mask.
    - pose proof (key_stream (net c)) as K. pose proof (key_quiet (net c)) as Q. destruct (net_mask_key (net c)) as [k s]. cbn [m_handle net snd] in *.
      rewrite Hh. pose proof (send_stream (encode p op true 0 k) s) as E. pose proof (send_quiet (encode p op true 0 k) s) as Q2.
      destruct (net_send _ s) as [ok s'] eqn:Es. cbn [fst snd net] in *. split_and!; [congruence|lia|]. intros Hf. by rewrite <- (Hf (encode p op true 0 k) s), Es.
    - rewrite Hh. pose proof (send_stream (encode p op false 0 0) (net c)) as E. pose proof (send_quiet (encode p op false 0 0) (net c)) as Q2.
      destruct (net_send _ (net c)) as [ok s'] eqn:Es. cbn [fst snd net] in *. split_and!; [congruence|lia|]. intros Hf. by rewrite <- (Hf (encode p op false 0 0) (net c)), Es. }
  destruct Hs as (Hs & Hq & Hok). split_and!; [|exact Hs|exact Hok]. split_and!; [|congruence|exact Hq].
  eexists. split; [exact Hl|]. reflexivity.
Qed.

(** ** Reading a frame *)

(** A socket whose reads take the first bytes of what will arrive. *)
Definition reads_as c c' : Prop := m_handle c' = m_handle c /\ log c' = log c /\ (quiet (net c') <= quiet (net c))%nat.
Lemma read_n_conn n buf c :
  m_handle c = true ->
  read_n n buf (net_stream (net c)) = ((read_n n buf c).1, net_stream (net (read_n n buf c).2)) /\ reads_as c (read_n n buf c).2.
Proof.
  intros Hh. unfold read_n. rewrite recv_n_stream. unfold recv_n, conn_recv_n. rewrite Hh. unfold reads_as.
  pose proof (recv_n_quiet n (net c)) as Q. destruct (net_recv_n n (net c)) as [[b|] s]; cbn; (split; [done|]); split_and!; done.
Qed.
Lemma reads_as_trans c c1 c2 : reads_as c c1 -> reads_as c1 c2 -> reads_as c c2.
Proof. unfold reads_as. intros (A1 & A2 & A3) (B1 & B2 & B3). split_and!; [congruence|congruence|lia]. Qed.

(** The reader does on a socket what it does on the bytes of its stream. *)
Definition mirrors c (r : received (Conn N)) (r' : received string) : Prop :=
  match r with
  | RecvFrame f c' => r' = RecvFrame f (net_stream (net c')) /\ reads_as c c'
  | RecvEnd c' => r' = RecvEnd (net_stream (net c')) /\ reads_as c c'
  | RecvUndefined => r' = RecvUndefined
  | RecvThrow => r' = RecvThrow
  end.
Ltac read_step :=
  match goal with
  | |- context [read_n ?n ?b (net_stream (net ?k))] =>
      let E := fresh "E" in let R := fresh "R" in
      destruct (read_n_conn n b k) as [E R]; [unfold reads_as in *; naive_solver|];
      rewrite E; clear E; let b1 := fresh "b" in let k1 := fresh "k" in destruct (read_n n b k) as [[b1|] k1]; cbn [fst snd] in *
  end.
Lemma ws_recv_mirrors c : m_handle c = true -> mirrors c (ws_recv_frame c) (ws_recv_frame (net_stream (net c))).
Proof.
  intros Hh. unfold ws_recv_frame. read_step; [|by split].
  read_step; [|split; [done|by eapply reads_as_trans]].
  read_step; [|split; [done|by do 2 (eapply reads_as_trans; [eassumption|])]].
  destruct (decode _) as [|f r|]; [|split; [done|by do 2 (eapply reads_as_trans; [eassumption|])]|done].
  destruct (max_size <? _); [done|]. read_step; [|split; [done|by do 3 (eapply reads_as_trans; [eassumption|])]].
  destruct (decode _); (try done); (split; [done|]); by do 3 (eapply reads_as_trans; [eassumption|]).
Qed.

(** Frames that carry no data: pings and pongs. *)
Definition control (i : Wire * string) : Prop := item_ok i /\ i.2 = "" /\ record_of i.1 = "".
Lemma control_frame w op p : wire_ok w -> w_frame w = mkFrame op p -> op = 9 \/ op = 10 -> control (w, "").
Proof.
  intros Hw Hf Ho. unfold control, item_ok, record_of. cbn [fst snd]. rewrite Hf. cbn [opcode]. split_and!; [done|right; tauto|done|].
  by destruct Ho as [-> | ->].
Qed.

Lemma transport_read_item w m x rest :
  item_ok (w, m) -> m_handle (sock x) = true -> net_stream (net (sock x)) = wire_bytes w +:+ rest ->
  Z.of_nat (String.length (wire_bytes w +:+ rest)) <= max_size ->
  exists x' out, transport_read x = Some (Some (record_of w), x') /\ masks x' = masks x
    /\ wrote (sock x) (sock x') out /\ net_stream (net (sock x')) = rest /\ Forall control out.
Proof.
  intros (Hw & Hop) Hh Hs Hmax. cbn [fst snd] in *. pose proof (ws_recv_mirrors (sock x) Hh) as Hm. rewrite Hs in Hm.
  destruct (recv_frame_decodes _ Hmax) as [Hd _]. rewrite (Hd _ _ (decode_wire w rest Hw)) in Hm. unfold transport_read.
  destruct (ws_recv_frame (sock x)) as [f c|c| |]; [|by destruct Hm|done|done]. destruct Hm as [[= <- Hr] (Hh' & Hl & Hq)].
  assert (Hw0 : wrote (sock x) c []) by (split_and!; [exists []; by rewrite Hl, app_nil_r|done|done]).
  unfold transport_recv, record_of. destruct Hop as [Ho|[[Ho|Ho] _]]; rewrite Ho; cbn [Z.eqb Pos.eqb].
  - exists (mkWsTransport (masks x) c), []. by split_and!.
  - destruct (write_frame_wrote (masks x) (payload (w_frame w)) 10 c) as (w' & Hw' & Hf & Hwr & Hst & _).
    { lia. } { destruct Hw as (_ & _ & _ & H4). exact H4. } { congruence. }
    unfold send_frame. cbn [sock masks]. destruct (write_frame _ _ _ c) as [ok c']. cbn [snd] in *.
    exists (mkWsTransport (masks x) c'), [(w', "")]. split; [done|]. split; [done|]. split; [exact (wrote_trans _ _ _ _ _ Hw0 Hwr)|].
    split; [cbn; congruence|]. apply Forall_cons_2; [exact (control_frame _ _ _ Hw' Hf (or_intror eq_refl))|apply Forall_nil_2].
  - exists (mkWsTransport (masks x) c), []. by split_and!.
Qed.

Lemma transport_read_end x :
  m_handle (sock x) = true -> net_stream (net (sock x)) = "" ->
  exists x', transport_read x = Some (None, x') /\ masks x' = masks x /\ wrote (sock x) (sock x') [].
Proof.
  intros Hh Hs. pose proof (ws_recv_mirrors (sock x) Hh) as Hm. rewrite Hs in Hm. unfold transport_read.
  change (ws_recv_frame "") with (RecvEnd (S := string) "") in Hm.
  destruct (ws_recv_frame (sock x)) as [f c|c| |]; [by destruct Hm| |done|done]. destruct Hm as [_ (Hh' & Hl & Hq)].
  eexists. split; [done|]. split; [done|]. cbn [sock]. split_and!; [exists []; by rewrite Hl, app_nil_r|done|done].
Qed.

Context {T : Type} `{!Tls T} `{!TlsChannel T}.
Implicit Types (t : T).

(** The session between two messages: everything that was fed was read. *)
Definition settled t : Prop := tls_up t /\ delivered t = plain t (fed t).

(** A call of [recv] takes one frame and returns the message that it carries. *)
Lemma recv_item w m l t x rest :
  item_ok (w, m) -> m_handle (sock x) = true -> net_stream (net (sock x)) = wire_bytes w +:+ rest ->
  Z.of_nat (String.length (wire_bytes w +:+ rest)) <= max_size -> settled t -> opens t ((w, m) :: l) ->
  exists t' x' out, recv (mkInner t x) = Some (Some m, mkInner t' x') /\ masks x' = masks x
    /\ wrote (sock x) (sock x') out /\ net_stream (net (sock x')) = rest /\ Forall control out
    /\ settled t' /\ opens t' l /\ evolves t t' /\ sealed t' = sealed t /\ emitted t' = emitted t.
Proof.
  intros Hi Hh Hs Hmax [Hup Hdel] Ho. destruct (opens_cons _ _ _ _ Ho) as (Hg & Hp & Hl).
  destruct (transport_read_item w m x rest Hi Hh Hs Hmax) as (x' & out & Hr & Hmk & Hw & Hst & Hc).
  destruct (recv_drains (TlsTransport0 := ws_transport) (mkInner t x) (record_of w) x' Hup Hg Hr) as (p & t' & Hrecv & Hup' & Hf & Hd & Hd2 & S1 & S2 & S3 & S4).
  cbn [ssl] in *. rewrite Hd, Hdel, Hp in Hd2. apply str_app_inj_l in Hd2 as ->.
  exists t', x', out. split; [done|]. split; [done|]. split; [done|]. split; [done|]. split; [done|]. split; [|split; [by apply Hl|]].
  - split; [done|]. by rewrite Hd, Hdel, S1, Hf, Hp.
  - split; [|by split]. exact (recv_evolves _ _ _ Hrecv).
Qed.
Lemma recv_at_end t x :
  m_handle (sock x) = true -> net_stream (net (sock x)) = "" ->
  exists x', recv (mkInner t x) = Some (None, mkInner t x') /\ masks x' = masks x /\ wrote (sock x) (sock x') [].
Proof.
  intros Hh Hs. destruct (transport_read_end x Hh Hs) as (x' & Hr & H2). exists x'. split; [|done].
  unfold recv. cbn [tr_recv ws_transport transport ssl]. by rewrite Hr.
Qed.

Context `{!TlsSizes T}.
(** A call of [send] writes one frame, which carries its message. *)
Lemma send_item m t x :
  message_ok m -> tls_up t -> m_handle (sock x) = true ->
  exists w t' x' ok, InnerTls.send m (mkInner t x) = (ok, mkInner t' x') /\ masks x' = masks x /\ item_ok (w, m)
    /\ wrote (sock x) (sock x') [(w, m)] /\ same_stream (sock x) (sock x')
    /\ ((forall b s, (net_send b s).1 = true) -> ok = true)
    /\ tls_up t' /\ same_input t t' /\ evolves t t' /\ sealed t' = sealed t +:+ m /\ emitted t' = emitted t +:+ record_of w.
Proof.
  intros [Hm Hlen] Hup Hh. pose proof (send_evolves m (mkInner t x)) as Hev. unfold InnerTls.send, flush_wbio, send_pending in *.
  destruct (up_write m t Hup Hm) as (t1 & ct & t2 & Hw & Hn & Hb & U & S1 & E1 & F & D & P & G).
  assert (Hct : Z.of_nat (String.length ct) < 2 ^ 63).
  { pose proof (write_size m t t1 Hup Hw) as Hws. pose proof (read_size _ _ _ Hb) as Hrs. unfold record_bound in Hws.
    pose proof (Z.mul_div_le (Z.of_nat (String.length m)) 16384 ltac:(lia)) as Hd. lia. }
  cbn [ssl transport] in *. rewrite Hw in *. cbn [ssl transport] in *. rewrite (proj2 (Nat.eqb_neq _ _) Hn), Hb in *.
  cbn [tr_send ws_transport] in *. unfold send_frame in *.
  destruct (write_frame_wrote (masks x) ct 2 (sock x)) as (w & Hw' & Hf & Hwr & Hst & Hok); [lia|done|done|].
  destruct (write_frame _ _ _ (sock x)) as [ok c']. cbn [fst snd] in *.
  exists w, t2, (mkWsTransport (masks x) c'), ok. unfold item_ok, record_of, same_input. cbn [fst snd]. rewrite Hf. cbn [opcode payload Z.eqb Pos.eqb].
  split_and!; try done. by left.
Qed.
End Frames.

(** ** The sessions *)

(** What the agent's database answers to messages in a row. *)
Section Exec.
Context {D : Type} `{!Bson} `{!JsonLib} `{!MongoClient D} `{!What}.
Fixpoint serve_all (m_db_name : string) (ms : list string) (d : D) : list string * D :=
  match ms with
  | [] => ([], d)
  | m :: ms' =>
      let '(rsp, d) := serve m_db_name m d in
      let '(rsps, d) := serve_all m_db_name ms' d in (match rsp with Some r => r :: rsps | None => rsps end, d)
  end.
End Exec.

Section Loops.
Context {N : Type} `{!NetIO N} `{!MaskLaws N} `{!NetDial N} `{!DialStream N} `{!NetBlocking N} `{!BlockingLaws N}.
Context {T : Type} `{!Tls T} `{!TlsChannel T} `{!TlsSizes T}.
Context (sends_ok : forall b (s : N), (net_send b s).1 = true) (no_stop : forall s : N, net_told_to_stop s = false).
Implicit Types (t : T) (c : Conn N).

Lemma aligned_control t l out : aligned t l -> Forall control out -> aligned t (out ++ l).
Proof.
  intros Ha Hc. induction Hc as [|[w m] out (Hi & Hm & Hr) Hc IH]; [done|]. cbn [app fst snd] in *. subst m.
  eapply aligned_cons; [apply rtc_refl| | |exact IH]; by rewrite ?Hr, str_app_nil_r.
Qed.
Lemma messages_app l l' : messages (l ++ l') = messages l ++ messages l'.
Proof. induction l as [|[w m] l IH]; [done|]. cbn [app]. rewrite !messages_cons. destruct (str_empty m); [done|]. by rewrite IH. Qed.
Lemma messages_control out : Forall control out -> messages out = [].
Proof. induction 1 as [|[w m] out (Hi & Hm & Hr) Hc IH]; [done|]. cbn [fst snd] in *. subst m. by rewrite messages_cons. Qed.
Lemma control_items out : Forall control out -> Forall item_ok out.
Proof. apply Forall_impl. by intros i []. Qed.

Lemma on_wire_length its : (List.length its <= String.length (on_wire its))%nat.
Proof.
  induction its as [|[w m] its IH]; [cbn; lia|]. rewrite on_wire_cons, str_length_app. pose proof (wire_bytes_not_empty w). cbn. lia.
Qed.
Lemma on_wire_tail w m its n : Z.of_nat (String.length (on_wire ((w, m) :: its))) <= n -> Z.of_nat (String.length (on_wire its)) <= n.
Proof. rewrite on_wire_cons, str_length_app. lia. Qed.

Section AgentLoop.
Context {D : Type} `{!Bson} `{!JsonLib} `{!MongoClient D} `{!What}.
Implicit Types (a : DbAgent N T D).

Definition answered cfg its a a' : Prop := exists c out,
  link a' = shut c /\ wrote (link a) c out /\ Forall item_ok out
  /\ messages out = (serve_all (m_db_name cfg) (messages its) (m_db a)).1
  /\ m_db a' = (serve_all (m_db_name cfg) (messages its) (m_db a)).2
  /\ (forall t, m_innerTls a = Some t -> aligned t out).

(** A round that writes [out] and leaves the session otherwise alone is put in front. *)
Lemma answered_round cfg its its' a a1 a' out t t1 :
  m_innerTls a = Some t -> m_innerTls a1 = Some t1 -> wrote (link a) (link a1) out -> Forall item_ok out ->
  (forall l, aligned t1 l -> aligned t (out ++ l)) ->
  (serve_all (m_db_name cfg) (messages its) (m_db a)).1 = messages out ++ (serve_all (m_db_name cfg) (messages its') (m_db a1)).1 ->
  (serve_all (m_db_name cfg) (messages its) (m_db a)).2 = (serve_all (m_db_name cfg) (messages its') (m_db a1)).2 ->
  answered cfg its' a1 a' -> answered cfg its a a'.
Proof.
  intros Ht Ht1 Hw Hi Hal E1 E2 (c & out' & Hl & Hw' & Hi' & Hm & Hd & Ha). exists c, (out ++ out').
  split_and!; [done|by eapply wrote_trans|by apply Forall_app_2| | |].
  - by rewrite messages_app, E1, Hm.
  - by rewrite E2.
  - intros t' Ht'. rewrite Ht in Ht'. injection Ht' as <-. apply Hal, Ha, Ht1.
Qed.

(** What the agent has before a round. *)
Record ready_for its t a : Prop := {
  rf_inner : m_innerTls a = Some t;
  rf_settled : settled t;
  rf_opens : opens t its;
  rf_items : Forall item_ok its;
  rf_handle : m_handle (link a) = true;
  rf_stream : net_stream (net (link a)) = on_wire its;
  rf_size : Z.of_nat (String.length (on_wire its)) <= max_size }.

(** A round that goes on: what it read and wrote, and that it is one of finitely many. *)
Definition goes_on cfg its a (r : option (bool * DbAgent N T D)) : Prop := exists its' a1 t1,
  r = Some (true, a1) /\ ready_for its' t1 a1
  /\ (List.length its' + quiet (net (link a1)) < List.length its + quiet (net (link a)))%nat
  /\ (forall a', answered cfg its' a1 a' -> answered cfg its a a')
  /\ exists rs, (serve_all (m_db_name cfg) (messages its) (m_db a)).1 = rs ++ (serve_all (m_db_name cfg) (messages its') (m_db a1)).1.

Lemma polled a : let s := (net_poll PING_INTERVAL_S (net (link a))).2 in
  wrote (link a) (on_net s (link a)) [] /\ net_stream s = net_stream (net (link a)).
Proof.
  pose proof (poll_quiet PING_INTERVAL_S (net (link a))) as Q. pose proof (poll_stream PING_INTERVAL_S (net (link a))) as S1.
  split; [|done]. split_and!; [exists []; by rewrite app_nil_r|done|]. cbn. by destruct (net_poll _ _) as [[] s]; cbn [fst snd] in *; [|lia].
Qed.

Lemma quiet_round cfg its a t :
  ready_for its t a -> (net_poll PING_INTERVAL_S (net (link a))).1 = false -> goes_on cfg its a (session_round cfg a).
Proof.
  intros [Hi Hst Ho Hok Hh Hs Hz] Hp. unfold session_round. destruct (polled a) as [Hw Hns].
  pose proof (poll_quiet PING_INTERVAL_S (net (link a))) as Q. rewrite Hp in Q.
  destruct (net_poll PING_INTERVAL_S (net (link a))) as [rdy s]. cbn [fst snd] in *. subst rdy. cbn [negb on_link link].
  destruct (write_frame_wrote true "" 9 (on_net s (link a))) as (w & Hwk & Hf & Hwr & Hsame & Hsend); [lia|done|exact Hh|].
  specialize (Hsend sends_ok). destruct (write_frame true "" 9 (on_net s (link a))) as [ok c]. cbn [fst snd] in *. subst ok.
  pose proof (wrote_trans _ _ _ _ _ Hw Hwr) as Hall. cbn [app] in Hall.
  assert (Hc : Forall control [(w, "")]) by (apply Forall_cons_2; [exact (control_frame _ _ _ Hwk Hf (or_introl eq_refl))|apply Forall_nil_2]).
  exists its, (mkDbAgent (m_innerTls a) c (m_db a)), t. split; [done|]. split.
  { split; cbn [m_innerTls link]; try done; [destruct Hwr as (_ & E & _); by rewrite E|]. rewrite <- Hs, <- Hns. exact Hsame. }
  split; [destruct Hwr as (_ & _ & Q2); cbn [link net on_net] in *; lia|]. split.
  - intros a'. apply (answered_round _ _ _ _ _ _ [(w, "")] t t); try done.
    + by apply control_items.
    + intros l Hl. by apply aligned_control.
  - by exists [].
Qed.

Lemma last_round cfg a t :
  ready_for [] t a -> (net_poll PING_INTERVAL_S (net (link a))).1 = true ->
  exists a', session_round cfg a = Some (false, a') /\ wrote (link a) (link a') [] /\ m_db a' = m_db a.
Proof.
  intros [Hi Hst Ho Hok Hh Hs Hz] Hp. unfold session_round. destruct (polled a) as [Hw Hns].
  destruct (net_poll PING_INTERVAL_S (net (link a))) as [rdy s]. cbn [fst snd] in *. subst rdy. cbn [negb on_link link m_innerTls]. rewrite Hi.
  destruct (recv_at_end t (mkWsTransport true (on_net s (link a)))) as (x' & -> & _ & Hw2); [exact Hh|by cbn; rewrite Hns, Hs|].
  eexists. split; [done|]. split; [|done]. exact (wrote_trans _ _ _ _ _ Hw Hw2).
Qed.
(** What [recv] leaves of a frame, its answer to a ping included. *)
Definition took its t c t1 c1 out : Prop :=
  wrote c c1 out /\ Forall control out /\ net_stream (net c1) = on_wire its /\ settled t1 /\ opens t1 its
  /\ (forall l, aligned t1 l -> aligned t (out ++ l)).

Lemma recv_took w m its t x :
  item_ok (w, m) -> m_handle (sock x) = true -> net_stream (net (sock x)) = on_wire ((w, m) :: its) ->
  Z.of_nat (String.length (on_wire ((w, m) :: its))) <= max_size -> settled t -> opens t ((w, m) :: its) ->
  exists t1 x1 out, recv (mkInner t x) = Some (Some m, mkInner t1 x1) /\ took its t (sock x) t1 (sock x1) out
    /\ (forall t0, evolves t0 t -> evolves t0 t1) /\ sealed t1 = sealed t /\ emitted t1 = emitted t.
Proof.
  rewrite on_wire_cons. intros Hi Hh Hs Hz Hst Ho.
  destruct (recv_item w m its t x (on_wire its) Hi Hh Hs Hz Hst Ho) as (t1 & x1 & out & Hr & _ & Hw & Hs1 & Hc & Hst1 & Ho1 & Hev & Hsl & Hem).
  exists t1, x1, out. split; [done|]. split; [|split; [intros t0 Ht; by etransitivity|by split]].
  split_and!; try done. intros l Hl. apply aligned_control; [|done]. by eapply aligned_evolves.
Qed.

Lemma silent_round cfg w m its a t c t1 c1 out d :
  m_innerTls a = Some t -> wrote (link a) c [] -> m_handle c = true -> took its t c t1 c1 out ->
  Forall item_ok its -> Z.of_nat (String.length (on_wire its)) <= max_size ->
  serve_all (m_db_name cfg) (messages ((w, m) :: its)) (m_db a) = serve_all (m_db_name cfg) (messages its) d ->
  goes_on cfg ((w, m) :: its) a (Some (true, mkDbAgent (Some t1) c1 d)).
Proof.
  intros Hi Hw0 Hh (Hw & Hc & Hs & Hst & Ho & Hal) Hits Hz E. pose proof (wrote_trans _ _ _ _ _ Hw0 Hw) as Hall. cbn [app] in Hall.
  exists its, (mkDbAgent (Some t1) c1 d), t1. split; [done|].
  split; [split; try done; cbn; destruct Hw as (_ & -> & _); done|].
  split; [destruct Hall as (_ & _ & Q); cbn in *; lia|]. split; [|by exists []; rewrite E].
  intros a'. apply (answered_round _ _ _ _ _ _ out t t1); try done; [by apply control_items|..]; rewrite E; [|done].
  by rewrite (messages_control out).
Qed.

Lemma answering_round cfg w m its a t c t1 x1 out rsp d :
  m_innerTls a = Some t -> wrote (link a) c [] -> m_handle c = true -> took its t c t1 (sock x1) out ->
  Forall item_ok its -> Z.of_nat (String.length (on_wire its)) <= max_size -> message_ok rsp ->
  serve_all (m_db_name cfg) (messages ((w, m) :: its)) (m_db a)
    = (rsp :: (serve_all (m_db_name cfg) (messages its) d).1, (serve_all (m_db_name cfg) (messages its) d).2) ->
  goes_on cfg ((w, m) :: its) a
    (let '(ok, i) := InnerTls.send rsp (mkInner t1 x1) in Some (ok, mkDbAgent (Some (ssl i)) (sock (transport i)) d)).
Proof.
  intros Hi Hw0 Hh (Hw & Hc & Hs & Hst & Ho & Hal) Hits Hz Hrsp E.
  destruct (send_item rsp t1 x1 Hrsp (proj1 Hst)) as (w2 & t2 & x2 & ok & -> & _ & Hw2 & Hwr2 & Hsame & Hsend & Hup2 & Hin & Hev2 & Hsl2 & Hem2).
  { destruct Hw as (_ & E1 & _). by rewrite E1. }
  specialize (Hsend sends_ok). subst ok. cbn [ssl transport]. destruct Hin as (I1 & I2 & I3 & I4).
  pose proof (wrote_trans _ _ _ _ _ (wrote_trans _ _ _ _ _ Hw0 Hw) Hwr2) as Hall. cbn [app] in Hall.
  exists its, (mkDbAgent (Some t2) (sock x2) d), t2. split; [done|]. split.
  { split; try done; cbn.
    - split; [done|]. rewrite I1, I2, I3. by destruct Hst.
    - destruct Ho as [G P]. split; [by rewrite I4, I1|]. intros k. by rewrite I3, I1.
    - destruct Hw as (_ & E1 & _), Hwr2 as (_ & E2 & _). by rewrite E2, E1.
    - by rewrite Hsame. }
  split; [destruct Hall as (_ & _ & Q); cbn in *; lia|]. split; [|by exists [rsp]; rewrite E].
  intros a'. apply (answered_round _ _ _ _ _ _ (out ++ [(w2, rsp)]) t t2); try done.
  - apply Forall_app_2; [by apply control_items|]. apply Forall_cons_2; [exact Hw2|apply Forall_nil_2].
  - intros l Hl. rewrite <- app_assoc. apply Hal. by eapply aligned_cons.
  - rewrite E, messages_app, (messages_control out), messages_cons by done.
    destruct Hrsp as [Hne _]. apply str_empty_false in Hne. by rewrite Hne.
  - by rewrite E.
Qed.

Lemma item_round cfg w m its a t :
  ready_for ((w, m) :: its) t a -> (net_poll PING_INTERVAL_S (net (link a))).1 = true ->
  Forall message_ok (serve_all (m_db_name cfg) (messages ((w, m) :: its)) (m_db a)).1 ->
  goes_on cfg ((w, m) :: its) a (session_round cfg a).
Proof.
  intros [Hi Hst Ho Hok Hh Hs Hz] Hp Hmsg. unfold session_round. destruct (polled a) as [Hw Hns].
  destruct (net_poll PING_INTERVAL_S (net (link a))) as [rdy s]. cbn [fst snd] in *. subst rdy. cbn [negb on_link link m_innerTls m_db]. rewrite Hi.
  apply Forall_cons_1 in Hok as [Hit Hits]. pose proof (on_wire_tail w m its max_size Hz) as Hz'.
  destruct (recv_took w m its t (mkWsTransport true (on_net s (link a)))) as (t1 & x & out & -> & Htook & _); try done; [by cbn; rewrite Hns, Hs|].
  cbn [ssl transport sock] in *. rewrite messages_cons in Hmsg. destruct (str_empty m) eqn:Em.
  { eapply silent_round; try done. by rewrite messages_cons, Em. }
  cbn [serve_all] in Hmsg. destruct (serve (m_db_name cfg) m (m_db a)) as [[rsp|] d] eqn:Es.
  - eapply answering_round; try done.
    + destruct (serve_all _ _ d) in Hmsg. by apply Forall_cons_1 in Hmsg as [Hm0 _].
    + rewrite messages_cons, Em. cbn [serve_all]. rewrite Es. by destruct (serve_all _ _ d).
  - eapply silent_round; try done. rewrite messages_cons, Em. cbn [serve_all]. rewrite Es. by destruct (serve_all _ _ d).
Qed.

(** The session serves what arrives, in order, and ends when the connection does. *)
Lemma agent_session cfg rounds its a t :
  ready_for its t a -> (List.length its + quiet (net (link a)) < rounds)%nat ->
  Forall message_ok (serve_all (m_db_name cfg) (messages its) (m_db a)).1 ->
  exists a', run_session rounds cfg a = Some a' /\ answered cfg its a a'.
Proof.
  revert its a t. induction rounds as [|rounds IH]; intros its a t Hr Hn Hm; [lia|]. cbn [run_session]. rewrite no_stop.
  assert (Hgo : goes_on cfg its a (session_round cfg a) -> exists a',
    match session_round cfg a with None => None | Some (false, a) => Some (disconnect a) | Some (true, a) => run_session rounds cfg a end = Some a'
    /\ answered cfg its a a').
  { intros (its' & a1 & t1 & -> & Hr1 & Hlt & Hans & (rs & Hrs)).
    destruct (IH its' a1 t1 Hr1) as (a' & Ha' & Hans'); [lia| |by exists a'; split; [|apply Hans]].
    rewrite Hrs in Hm. by apply Forall_app in Hm as [_ Hm]. }
  destruct (net_poll PING_INTERVAL_S (net (link a))) as [rdy s] eqn:Ep. destruct rdy.
  2:{ apply Hgo, (quiet_round cfg its a t Hr). by rewrite Ep. }
  destruct its as [|[w m] its].
  2:{ apply Hgo, (item_round cfg w m its a t Hr); [by rewrite Ep|done]. }
  destruct (last_round cfg a t Hr) as (a' & -> & Hw & Hd); [by rewrite Ep|]. exists (disconnect a'). split; [done|].
  exists (link a'), []. split_and!; try done. intros t' _. apply aligned_nil.
Qed.
End AgentLoop.

Section ServerLoop.
Context `{!Bson}.
Implicit Types (s : Session N T).

Definition well_formed (rsp : string) : bool := (parse_response rsp default_response).1.
Definition responses (l : list string) : list string := List.filter well_formed l.

Lemma server_session_reads rounds its s t :
  inner s = Some t -> settled t -> opens t its -> Forall item_ok its -> m_handle (agentStream s) = true ->
  net_stream (net (agentStream s)) = on_wire its -> Z.of_nat (String.length (on_wire its)) <= max_size ->
  (List.length its < rounds)%nat ->
  exists s', server_session rounds s = Some s' /\ routed s' = routed s ++ responses (messages its) /\ m_handle (agentStream s') = false.
Proof.
  revert its s t. induction rounds as [|rounds IH]; intros its s t Hi Hst Ho Hok Hh Hs Hz Hn; [lia|]. cbn [server_session]. rewrite no_stop.
  unfold read_round. rewrite Hi. destruct its as [|[w m] its].
  - destruct (recv_at_end t (mkWsTransport false (agentStream s))) as (x & -> & _ & Hw); [exact Hh|exact Hs|].
    exists (end_session (mkSession (Some t) (sock x) (routed s))). split; [done|]. split; [cbn; by rewrite app_nil_r|]. apply shut_state.
  - apply Forall_cons_1 in Hok as [Hit Hits]. pose proof (on_wire_tail w m its max_size Hz) as Hz'.
    destruct (recv_took w m its t (mkWsTransport false (agentStream s))) as (t1 & x & out & -> & (Hw & Hc & Hs1 & Hst1 & Ho1 & _) & _); try done.
    assert (Hh1 : m_handle (sock x) = true) by (destruct Hw as (_ & E & _); by rewrite E).
    rewrite messages_cons. cbn [ssl transport List.length] in *. set (s1 := mkSession (Some t1) (sock x) (routed s)).
    destruct (str_empty m); [apply (IH its s1 t1); try done; lia|].
    assert (Hrt : inner (route m s1) = Some t1 /\ agentStream (route m s1) = sock x) by (unfold route; by destruct (parse_response _ _).1).
    destruct Hrt as [Hi1 Hs2]. destruct (IH its (route m s1) t1) as (s' & Hr & Hro & Hh'); try done; [by rewrite Hs2..|lia|].
    exists s'. split; [exact Hr|]. split; [|exact Hh']. rewrite Hro. unfold route, responses, well_formed. cbn [List.filter].
    destruct (parse_response m default_response).1; [|done]. cbn. by rewrite <- app_assoc.
Qed.

Fixpoint send_requests (ms : list string) s : bool * Session N T :=
  match ms with
  | [] => (true, s)
  | m :: ms' => let '(ok, s) := send_request m s in if ok : bool then send_requests ms' s else (false, s)
  end.
Lemma send_requests_items ms s t :
  Forall message_ok ms -> inner s = Some t -> tls_up t -> m_handle (agentStream s) = true -> (send_requests ms s).1 = true ->
  let s' := (send_requests ms s).2 in
  exists t' its, inner s' = Some t' /\ routed s' = routed s /\ wrote (agentStream s) (agentStream s') its
    /\ Forall item_ok its /\ messages its = ms /\ aligned t its /\ tls_up t' /\ same_input t t'.
Proof.
  intros Hms. revert s t. induction Hms as [|m ms Hm Hms IH]; intros s t Hi Hup Hh Hok s'.
  { exists t, []. do 2 (split; [done|]). split; [apply wrote_refl|]. do 2 (split; [done|]). split; [apply aligned_nil|done]. }
  subst s'. cbn [send_requests] in *. unfold send_request in *. rewrite Hi in *.
  destruct (send_item m t (mkWsTransport false (agentStream s)) Hm Hup Hh) as
    (w & t1 & x1 & ok & E & _ & Hw & Hwr & _ & _ & Hup1 & Hin & Hev & Hsl & Hem).
  rewrite E in *. destruct ok; [|done]. cbn [ssl transport] in *. set (s1 := mkSession (Some t1) (sock x1) (routed s)) in *.
  destruct (IH s1 t1 eq_refl Hup1) as (t' & its & Hi' & Hro & Hwr' & Hits & Hmsg & Hal & Hup' & Hin'); [|done|].
  { cbn. destruct Hwr as (_ & E1 & _). by rewrite E1. }
  exists t', ((w, m) :: its). split; [done|]. split; [done|]. split; [exact (wrote_trans _ _ _ _ _ Hwr Hwr')|].
  split; [by apply Forall_cons_2|]. split; [|split; [by eapply aligned_cons|split; [done|]]].
  - rewrite messages_cons, Hmsg. destruct Hm as [Hne _]. apply str_empty_false in Hne. by rewrite Hne.
  - destruct Hin as (A1 & A2 & A3 & A4), Hin' as (B1 & B2 & B3 & B4). unfold same_input. split_and!; congruence.
Qed.
End ServerLoop.
End Loops.

(** ** Both ends *)

Lemma written_wrote {N} `{!NetIO N} `{!NetDial N} `{!DialStream N} `{!NetBlocking N} `{!BlockingLaws N} (c c' : Conn N) its :
  wrote c c' its -> written c c' = on_wire its.
Proof. intros ((l & Hl & Hs) & _). by rewrite (written_app _ _ _ Hl). Qed.
Lemma written_shut {N} `{!NetIO N} `{!NetDial N} `{!DialStream N} `{!NetBlocking N} `{!BlockingLaws N} (c c' : Conn N) its :
  wrote c c' its -> written c (shut c') = on_wire its.
Proof.
  intros Hw. rewrite <- (written_wrote c c' its Hw). destruct Hw as ((l & Hl & _) & _). unfold shut. destruct (m_handle c'); [|done].
  rewrite (written_app c c' l Hl). rewrite (written_app c _ (l ++ [SockClosed])); [|cbn; by rewrite Hl, app_assoc].
  rewrite sent_bytes_app. by rewrite str_app_nil_r.
Qed.

Section Carries.
Context {N N' T D : Type} `{!NetIO N} `{!MaskLaws N} `{!NetDial N} `{!DialStream N} `{!NetBlocking N} `{!BlockingLaws N}.
Context `{!NetIO N'} `{!MaskLaws N'} `{!NetDial N'} `{!DialStream N'} `{!NetBlocking N'} `{!BlockingLaws N'}.
Context `{!Tls T} `{!TlsChannel T} `{!TlsSizes T} `{!Bson} `{!JsonLib} `{!MongoClient D} `{!What}.

(** C18. What the server's callers send is what the agent's database executes, and what it
    answers comes back.  Let the server's thread send any requests over an established
    session, and let the bytes it wrote reach the agent, cut at any place.  Then the agent's
    session executes exactly these requests on its database, in order and each once, ends
    with the connection and closes its socket; and when the bytes it wrote (its keep-alive
    pings among them) reach the server, the server's session looks up exactly the answers of
    the database, in order, and ends likewise. *)
Theorem db_link_carries cfg ms (s : Session N T) (a : DbAgent N' T D) ts ta rounds :
  (forall b (n : N'), (net_send b n).1 = true) -> (forall n : N', net_told_to_stop n = false) -> (forall n : N, net_told_to_stop n = false) ->
  inner s = Some ts -> m_innerTls a = Some ta -> settled ts -> settled ta -> fed ta = emitted ts -> fed ts = emitted ta ->
  (forall t, evolves ts t -> linked t ta) -> (forall t, evolves ta t -> linked t ts) ->
  m_handle (agentStream s) = true -> m_handle (link a) = true ->
  Forall message_ok ms -> Forall message_ok (serve_all (m_db_name cfg) ms (m_db a)).1 ->
  let s1 := (send_requests ms s).2 in
  (send_requests ms s).1 = true ->
  let bytes := written (agentStream s) (agentStream s1) in
  net_stream (net (link a)) = bytes -> Z.of_nat (String.length bytes) <= max_size ->
  (String.length bytes + quiet (net (link a)) < rounds)%nat ->
  exists a', run_session rounds cfg a = Some a' /\ m_handle (link a') = false
    /\ m_db a' = (serve_all (m_db_name cfg) ms (m_db a)).2
    /\ let answer := written (link a) (link a') in
       forall (c2 : Conn N) rounds', m_handle c2 = true -> net_stream (net c2) = answer -> Z.of_nat (String.length answer) <= max_size ->
         (String.length answer < rounds')%nat ->
         exists s2, server_session rounds' (mkSession (inner s1) c2 (routed s1)) = Some s2 /\ m_handle (agentStream s2) = false
           /\ routed s2 = routed s ++ responses (serve_all (m_db_name cfg) ms (m_db a)).1.
Proof.
  intros Hsend Hgo Hgo' Hi Ha Hst Hsa Hf Hf' Hl Hl' Hh Hha Hms Hrs s1 Hok bytes Hstr Hz Hn.
  destruct (send_requests_items ms s ts Hms Hi (proj1 Hst) Hh Hok) as (ts' & its & Hi1 & Hro & Hwr & Hits & Hmsg & Hal & Hup & Hin).
  fold s1 in Hi1, Hro, Hwr. assert (Hb : bytes = on_wire its) by exact (written_wrote _ _ _ Hwr). pose proof (on_wire_length its) as Hlen.
  rewrite Hb in Hstr, Hz, Hn. rewrite <- Hmsg in Hrs |- *.
  destruct (agent_session Hsend Hgo cfg rounds its a ta) as (a' & Hr & c & out & Hlk & Hwr' & Hout & Hm & Hd & Hal'); [|lia|done|].
  { split; try done. by apply (aligned_opens ts). }
  exists a'. split; [done|]. split; [rewrite Hlk; apply shut_state|]. split; [done|]. cbn zeta. rewrite Hlk, (written_shut _ _ _ Hwr').
  intros c2 rounds' Hh2 Hs2 Hz2 Hn2. rewrite Hi1, Hro, <- Hm. pose proof (on_wire_length out).
  destruct Hin as (I1 & I2 & I3 & I4).
  destruct (server_session_reads Hgo' rounds' out (mkSession (Some ts') c2 (routed s)) ts') as (s2 & Hr2 & Hro2 & Hc2); try done; [..|lia|by exists s2].
  - split; [done|]. rewrite I2, I3, I1. by destruct Hst.
  - apply (aligned_opens ta); [by apply Hal'|by rewrite I1|]. intros t Ht. destruct (Hl' t Ht) as [G P]. split; [by rewrite I4|by rewrite I3].
Qed.
End Carries.

(** ** The opening handshake on the mTLS port *)

Section Handshake.
Context {N N' : Type} `{!NetIO N} `{!NetDial N} `{!DialStream N} `{!NetBlocking N} `{!BlockingLaws N}.
Context `{!NetIO N'} `{!NetDial N'} `{!DialStream N'} `{!Digest} `{!DigestLaws}.

Lemma db_key_shape raw :
  String.length raw = 16%nat ->
  let key := bio_base64 raw in String.length key = 24%nat /\ str_forallb is_b64 key = true /\ no_char CR key /\ no_char LF key.
Proof.
  intros Hl key. subst key. rewrite bio_base64_rfc, base64_length, Hl.
  split_and!; [done|apply base64_chars|..]; by apply b64_no_char, base64_chars.
Qed.

Definition before_key (host : string) : string := "GET /ws/db HTTP/1.1" +:+ CRLF +:+ "Host: " +:+ host +:+ CRLF
  +:+ "Upgrade: websocket" +:+ CRLF +:+ "Connection: Upgrade" +:+ CRLF.
Definition after_key : string := CRLF +:+ "Sec-WebSocket-Version: 13" +:+ CRLF +:+ CRLF.

Lemma db_request_shape raw host :
  (db_request raw host).1 = before_key host +:+ "Sec-WebSocket-Key: " +:+ bio_base64 raw +:+ after_key.
Proof.
  unfold db_request, get_request, before_key, after_key. cbn [fst]. set (k := bio_base64 raw). clearbody k.
  unfold upgrade_fields, field_lines, request_line, HttpHead.field. cbn [map http_head fst snd]. rewrite !str_app_assoc. reflexivity.
Qed.

(** The key's header is found where it is, and the key is read whole. *)
Lemma key_found raw host :
  String.length raw = 16%nat -> no_char "S" host ->
  let head := (db_request raw host).1 in
  exists pos end_, find_str "Sec-WebSocket-Key:" head = Some pos
    /\ find_str CRLF (skip_spaces (str_drop (pos + 18) head)) = Some end_
    /\ str_take end_ (skip_spaces (str_drop (pos + 18) head)) = bio_base64 raw.
Proof.
  intros Hr Hs head. destruct (db_key_shape raw Hr) as (Hl & Hb & Hcr & _). set (key := bio_base64 raw) in *.
  assert (Hh : head = before_key host +:+ "Sec-WebSocket-Key:" +:+ " " +:+ key +:+ after_key) by exact (db_request_shape raw host).
  assert (Hn : no_char "S" (before_key host)) by (unfold before_key; repeat (apply no_char_app; [done|]); by repeat apply no_char_app).
  exists (String.length (before_key host)), (String.length key).
  assert (Hd : str_drop (String.length (before_key host) + 18) head = " " +:+ key +:+ after_key).
  { rewrite Hh, <- str_drop_drop, str_drop_app_length. exact (str_drop_app_length "Sec-WebSocket-Key:" _). }
  assert (Hk : skip_spaces (" " +:+ key +:+ after_key) = key +:+ after_key).
  { destruct key as [|c k]; [done|]. cbn [str_forallb] in Hb. apply andb_prop in Hb as [Hc _]. rewrite str_app_cons.
    cbn [String.append]. change (skip_spaces (String " " (String c (k +:+ after_key)))) with (skip_spaces (String c (k +:+ after_key))).
    destruct c as [[] [] [] [] [] [] [] []]; try done; by vm_compute in Hc. }
  rewrite Hd, Hk. split; [|split].
  - rewrite Hh. rewrite (find_str_over "S" "ec-WebSocket-Key:" (before_key host)) by done.
    change ("Sec-WebSocket-Key:" +:+ " " +:+ key +:+ after_key) with (String "S" "ec-WebSocket-Key:" +:+ (" " +:+ key +:+ after_key)).
    rewrite find_str_here. cbn. by rewrite Nat.add_0_r.
  - unfold CRLF at 1. cbn [String.append]. rewrite (find_str_over CR (String LF "") key) by done.
    unfold after_key. rewrite (find_str_here CRLF). cbn. by rewrite Nat.add_0_r.
  - apply str_take_app_length.
Qed.

(** C36. The opening handshake of the database agent with the server's mTLS port: for a host text
    of at most 4096 bytes without a line break and without the letter that starts the name of the
    key's header, whatever key the agent draws, the server finds it in the request, takes not a byte more and
    answers; and the agent accepts this answer, having read nothing of what follows. *)
Theorem db_handshake raw host port (cs : Conn N) (c : Conn N') rest rest' :
  let '(req, key) := db_request raw host in
  String.length raw = 16%nat -> no_char CR host -> no_char LF host -> no_char "S" host -> (String.length host <= 4096)%nat ->
  m_handle cs = true -> net_stream (net cs) = req +:+ rest' ->
  (net_connect host port (net c)).1 = true -> (net_send req (net_connect host port (net c)).2).1 = true ->
  net_stream (net_send req (net_connect host port (net c)).2).2 = upgrade_answer key +:+ rest ->
  (exists ok cs', ws_upgrade_server cs = (ok, cs') /\ log cs' = log cs ++ [Sent (upgrade_answer key) ok]
     /\ m_handle cs' = true /\ net_stream (net cs') = rest')
  /\ (exists c', dial (req, key) validate_db_response host port c = (true, c') /\ m_handle c' = true /\ net_stream (net c') = rest).
Proof.
  destruct (db_request raw host) as [req key] eqn:Er. intros Hraw Hcr Hlf Hs Hlen Hh Hst Hcon Hsend Hstr.
  assert (Hkey : key = bio_base64 raw) by (by unfold db_request in Er; injection Er as _ <-).
  assert (Hreq : req = (db_request raw host).1) by (by rewrite Er). split.
  - destruct (key_found raw host Hraw Hs) as (pos & end_ & Hf & He & Hk). rewrite <- Hreq in Hf, He, Hk.
    assert (Hlr : (4 <= String.length req <= Z.to_nat 8192)%nat).
    { rewrite Hreq, db_request_shape. destruct (db_key_shape raw Hraw) as (Hl & _). unfold before_key, after_key.
      rewrite !str_length_app, Hl. cbn. lia. }
    assert (Hsep : find_str header_sep (req +:+ rest') = Some (String.length req - 4)%nat).
    { rewrite Hreq. unfold db_request, get_request. cbn [fst]. destruct (db_key_shape raw Hraw) as (_ & _ & K1 & K2).
      apply find_sep_head; [by vm_compute|]. unfold upgrade_fields, field_lines. cbn [map fst snd]. repeat constructor; by apply field_ok. }
    unfold ws_upgrade_server.
    destruct (read_headers_upto (Z.to_nat 8192) "" cs (String.length req - 4)) as (n & Hr & Hn); [by rewrite Hst|cbn; lia|cbn [String.length]; lia|].
    rewrite Hst, str_app_nil_l, Nat.sub_add in Hr, Hn by lia. rewrite str_take_app_length in Hr. rewrite str_drop_app_length in Hn.
    rewrite Hr, Hf, He, Hk, <- Hkey. unfold write. cbn [on_net m_handle net log]. rewrite Hh.
    pose proof (send_stream (upgrade_answer key) n) as Hss. destruct (net_send (upgrade_answer key) n) as [ok n'].
    eexists ok, _. split; [reflexivity|]. cbn in *. by rewrite Hss.
  - destruct (dial_accepted req key validate_db_response host port c "HTTP/1.1 101 Switching Protocols" (answer_fields key) rest)
      as (c' & Hd & Hh' & Hst' & _); try done; [apply answer_lines| |apply answer_valid|by exists c'].
    destruct (accept_key_shape key) as (Hl & _). unfold answer_fields. set (k := accept_key key) in *. clearbody k.
    unfold HttpHead.field. cbn [http_head]. rewrite !str_length_app, Hl. apply Nat.leb_le. by vm_compute.
Qed.
End Handshake.

(** * The connection as the threads share it *)

Module Race.
Import Shared.

Section Link.
Context (m_tls_mode configured : bool).
Implicit Types (l : Link).
#[local] Abbreviation step := (step m_tls_mode configured).
#[local] Abbreviation reachable := (reachable m_tls_mode configured).

(** ** In clear or encrypted *)

Definition inner_inv l : Prop :=
  (svc l = Accepting -> m_running l = true -> m_innerTls l = true)
  /\ (svc l = InSession -> m_running l = true -> configured = true -> m_innerTls l = true /\ m_innerTlsReady l = true).
Lemma step_inner_inv l l' : inner_inv l -> step l l' -> inner_inv l'.
Proof.
  unfold inner_inv. intros [I1 I2] Hs. destruct Hs; cbn; try naive_solver congruence; try (unfold close_stream; destruct (stream l); cbn; naive_solver congruence).
  - unfold on_agent_connected. cbn. destruct (m_connected l); cbn; [unfold shutdown; cbn; destruct (m_agentHandle l); by split|].
    by destruct m_tls_mode.
  - unfold shutdown. destruct (if m_tls_mode then _ else _); by split.
Qed.
Lemma reachable_inner_inv l : reachable l -> inner_inv l.
Proof.
  intros Hr. unfold reachable in Hr. remember opened_link as l0 eqn:E. assert (H0 : inner_inv l0) by (rewrite E; by split).
  clear E. induction Hr as [l|l l1 l2 Hs Hr IH]; [done|]. apply IH. by eapply step_inner_inv.
Qed.

(** The steps of one session, until [close] is called. *)
Definition in_session l : Prop := svc l = InSession /\ m_running l = true.
Definition session_step l l' : Prop := step l l' /\ in_session l /\ in_session l'.

(** The requests on the wire in clear, and those of callers that will send theirs so. *)
Definition in_clear (w : list (nat * sent)) : list string := omap (fun e => match e.2 with Clear bson => Some bson | _ => None end) w.
Definition null_of (c : caller) : option string := match c with SawNull bson => Some bson | _ => None end.
Definition saw_null l : list string := omap null_of (callers l).
(** What a run adds to the wire; the clear requests in it are of callers that had seen no session. *)
Definition adds (w : list (nat * sent)) l l' : Prop := wire l' = wire l ++ w /\ in_clear w ++ saw_null l' ⊆+ saw_null l.

Lemma adds_nothing l l' : wire l' = wire l -> callers l' = callers l -> adds [] l l'.
Proof. intros Hw Hc. unfold adds, saw_null. by rewrite Hw, Hc, app_nil_r. Qed.
Lemma adds_trans w w' l l1 l2 : adds w l l1 -> adds w' l1 l2 -> adds (w ++ w') l l2.
Proof.
  intros [W1 C1] [W2 C2]. split; [by rewrite W2, W1, app_assoc|]. unfold in_clear in *. rewrite omap_app, <- app_assoc.
  etransitivity; [|exact C1]. by apply submseteq_app.
Qed.
Lemma sent_adds m l : exists w, sent_on m l = wire l ++ w /\ in_clear w ⊆+ in_clear [(0%nat, m)].
Proof.
  unfold sent_on. destruct (stream l) as [h|]; [by exists [(h, m)]|]. exists []. rewrite app_nil_r. split; [done|apply submseteq_nil_l].
Qed.
(** A call that sends and is gone, and one that goes on. *)
Lemma sent_step m l c1 c c2 :
  callers l = c1 ++ c :: c2 -> in_clear [(0%nat, m)] = omap null_of [c] ->
  exists w, adds w l (put_callers (c1 ++ c2) (sent_on m l) l).
Proof.
  intros Hc Hm. destruct (sent_adds m l) as (w & Hw & Hs). exists w. split; [exact Hw|]. unfold saw_null. cbn [callers put_callers].
  rewrite Hc, (cons_middle c), !omap_app, <- Hm. rewrite Permutation_app_swap_app. apply submseteq_app; [done|]. by apply submseteq_app.
Qed.
Lemma caller_step l c1 c cs c2 :
  callers l = c1 ++ c :: c2 ->
  omap null_of cs = [] ->
  adds [] l (put_callers (c1 ++ cs ++ c2) (wire l) l).
Proof.
  intros Hc Hn. split; [cbn; by rewrite app_nil_r|]. change (in_clear []) with (@nil string). rewrite app_nil_l. unfold saw_null.
  cbn [callers put_callers]. rewrite Hc, (cons_middle c), !omap_app, Hn. apply submseteq_app; [done|]. by apply submseteq_inserts_l.
Qed.

Lemma session_step_adds l l' : configured = true -> inner_inv l -> session_step l l' -> exists w, adds w l l'.
Proof.
  intros Hconf [_ I2] (Hs & [Hp Hrun] & Hp' & Hrun'). destruct (I2 Hp Hrun Hconf) as [Hi _].
  destruct Hs as [| | | | | | | | | | | | | | |bson l ?|c1 bson c2 l Hc|c1 bson c2 l Hc|c1 bson c2 l Hc ?|c1 bson c2 l Hc ?|c1 bson c2 l Hc ?| |]; try congruence; try done.
  - exists []. unfold on_agent_connected. apply adds_nothing; cbn; destruct (m_connected l), (m_agentHandle l), m_tls_mode; reflexivity.
  - exists []. split; [cbn; by rewrite app_nil_r|]. unfold saw_null. cbn. by rewrite omap_app, app_nil_r.
  - exists []. unfold branch. rewrite Hi. by apply (caller_step l c1 (Checked bson) [SawSet bson] c2).
  - by apply (sent_step (Clear bson) l c1 (SawNull bson) c2).
  - exists []. by apply (caller_step l c1 (SawSet bson) [SawReady bson] c2).
  - exists []. by apply (caller_step l c1 (SawSet bson) [] c2).
  - by apply (sent_step (Sealed bson) l c1 (SawReady bson) c2).
Qed.

(** C33. A session is sealed but for the calls that began before it.  With a certificate and a
    key configured, a call of [dispatch] that reads [m_innerTls] while the session with the agent
    runs takes the way through the inner TLS and finds it ready; and what a run of the session's
    steps, in any interleaving, puts on the wire in clear are requests, each at most once, of the
    calls that had read the unset pointer before: when there is none, everything is sealed. *)
Theorem session_is_sealed l l' :
  configured = true -> reachable l -> in_session l -> rtc session_step l l' ->
  (forall bson, branch bson l' = SawSet bson) /\ m_innerTlsReady l' = true
  /\ (exists w, adds w l l')
  /\ (saw_null l = [] -> exists w, wire l' = wire l ++ w /\ Forall (fun e => exists bson, e.2 = Sealed bson) w).
Proof.
  intros Hc Hr Hin Hrun.
  assert (Hall : inner_inv l' /\ in_session l' /\ exists w, adds w l l').
  { pose proof (reachable_inner_inv l Hr) as Hi. clear Hr. induction Hrun as [l|l l1 l2 Hs Hrun IH].
    - split_and!; [done|done|]. exists []. by apply adds_nothing.
    - destruct (session_step_adds _ _ Hc Hi Hs) as (w & Hw). destruct Hs as (Hs & _ & Hin1).
      destruct (IH Hin1 (step_inner_inv _ _ Hi Hs)) as (Hi' & Hin' & w' & Hw'). split_and!; [done|done|].
      exists (w ++ w'). by eapply adds_trans. }
  destruct Hall as ([_ I2] & [Hp Hrn] & w & Hw). destruct (I2 Hp Hrn Hc) as [Hi Hready].
  split; [by intros bson; unfold branch; rewrite Hi|]. split; [done|]. split; [by exists w|]. intros Hnone. exists w.
  destruct Hw as [Hwire Hsub]. split; [done|]. rewrite Hnone in Hsub. apply submseteq_nil_r, app_eq_nil in Hsub as [Hsub _].
  clear -Hsub. induction w as [|[h [bson|bson]] w IH]; [constructor|done|]. constructor; [by exists bson|by apply IH].
Qed.
End Link.

(** A request can go out in clear although the inner TLS is configured: [dispatch] takes an unset
    [m_innerTls] for an unconfigured one, and between [on_agent_connected] and the inner TLS's
    set-up the agent counts as connected.  Any request that is tested then is written to the
    agent's socket unencrypted, also when the write comes after the set-up, in the session. *)
Definition accepted_link (m_tls_mode : bool) : Link :=
  if m_tls_mode then at_pc SettingUp (put_connected true (put_handle (Some 0%nat) (put_stream (Some 0%nat) (arrive opened_link))))
  else at_pc SettingUp (on_agent_connected false opened_link).
Lemma accepted_reachable m_tls_mode : reachable m_tls_mode true (accepted_link m_tls_mode).
Proof.
  destruct m_tls_mode; [by apply rtc_once, (svc_accept true true opened_link)|].
  eapply rtc_l; [apply web_connect|]. by apply rtc_once, svc_wake.
Qed.
Theorem request_in_clear m_tls_mode bson :
  exists l, reachable m_tls_mode true l /\ m_running l = true /\ svc l = InSession /\ wire l = [(0%nat, Clear bson)].
Proof.
  set (l0 := accepted_link m_tls_mode). set (l1 := put_callers [SawNull bson] [] l0). set (l2 := at_pc InSession (put_inner true true l1)).
  exists (put_callers [] [(0%nat, Clear bson)] l2). split; [|by destruct m_tls_mode].
  unfold reachable. etransitivity; [exact (accepted_reachable m_tls_mode)|]. fold l0.
  eapply rtc_l; [apply (call_check _ _ bson); by destruct m_tls_mode|].
  eapply rtc_l; [apply (call_branch _ _ [] bson []); by destruct m_tls_mode|].
  eapply rtc_l; [apply svc_begin; by destruct m_tls_mode|]. eapply rtc_l; [apply svc_ready; by destruct m_tls_mode|].
  replace (put_callers [] _ l2) with (put_callers ([] ++ []) (sent_on (Clear bson) l2) l2) by (by destruct m_tls_mode).
  replace (at_pc InSession _) with l2 by (by destruct m_tls_mode). apply rtc_once, call_clear. by destruct m_tls_mode.
Qed.

(** The session of a call can be gone when it is used: the end of the session resets the pointer
    between the test of a call and its send, which then goes through a null pointer. *)
Lemma null_session_used bson :
  exists l, reachable false true l /\ m_running l = true /\ callers l = [SawReady bson] /\ m_innerTls l = false.
Proof.
  set (l0 := put_connected true (at_pc InSession (put_inner true true (accepted_link false)))).
  set (ending := fun l => at_pc Idle (put_handle None (close_stream (put_inner false false (put_connected false (at_pc Ending l)))))).
  exists (ending (put_callers [SawReady bson] [] l0)). split; [|by split_and!].
  unfold reachable. etransitivity; [exact (accepted_reachable false)|].
  eapply rtc_l; [by apply svc_begin|]. eapply rtc_l; [by apply svc_ready|]. eapply rtc_l; [by apply (call_check _ _ bson)|].
  eapply rtc_l; [by apply (call_branch _ _ [] bson [])|]. eapply rtc_l; [by apply (call_ready _ _ [] bson [])|].
  eapply rtc_l; [by apply svc_leave|]. by apply rtc_once, svc_end.
Qed.

(** ** The mTLS port *)

(** What happens but for the web service's thread and [close]. *)
Definition others configured (l l' : Link) : Prop :=
  step true configured l l' /\ l' <> on_agent_connected true l /\ l' <> put_running false (put_inner false false l).

(** C35. With its own mTLS port, the server can be kept from its agent by anyone who reaches
    the web service's port: a request for [/ws/db] there, which nothing authenticates, makes
    it connected, and from then on every agent that the mTLS port accepts is turned away,
    until that request is repeated or the server is closed. *)
Theorem mtls_agent_locked_out configured l l' :
  svc l = Idle -> m_running l = true -> m_connected l = false -> rtc (others configured) (on_agent_connected true l) l' ->
  svc l' = Idle /\ m_connected l' = true.
Proof.
  intros Hs Hrun Hc Hr.
  assert (H0 : svc (on_agent_connected true l) = Idle /\ m_connected (on_agent_connected true l) = true /\ m_running (on_agent_connected true l) = true).
  { unfold on_agent_connected. cbn. by rewrite Hc. }
  revert H0. induction Hr as [l1|l1 l2 l3 (Hst & Hw & Hcl) Hr IH]; intros (H1 & H2 & H3); [done|]. apply IH.
  destruct Hst; cbn in *; try congruence; done.
Qed.

(** ** The sockets of the agents *)

(** The steps in which an agent is handed over only when there is a session or the last one
    was cleaned up. *)
Definition orderly configured (l l' : Link) : Prop :=
  step false configured l l' /\ (l' = on_agent_connected false l -> m_connected l = false -> stream l = None).
Definition one_socket (l : Link) : Prop :=
  opened l = match stream l with Some h => {[h]} | None => ∅ end /\ (forall h, h ∈ opened l -> (h < next l)%nat).

Lemma close_stream_one l : one_socket l -> one_socket (close_stream l) /\ stream (close_stream l) = None /\ opened (close_stream l) = ∅.
Proof.
  unfold one_socket, close_stream. destruct (stream l) as [h|] eqn:E; cbn; intros [-> Hn]; [|rewrite E; set_solver].
  replace ({[h]} ∖ {[h]}) with (∅ : gset nat) by set_solver. set_solver.
Qed.
Lemma connected_one l : one_socket l -> (m_connected l = false -> stream l = None) -> one_socket (on_agent_connected false l).
Proof.
  unfold one_socket, on_agent_connected. intros [Ho Hn] Hc. cbn. destruct (m_connected l); cbn.
  - assert (Hne : next l ∉ opened l) by (intros Hin; specialize (Hn _ Hin); lia). unfold shutdown. cbn.
    destruct (m_agentHandle l); cbn; (split; [rewrite <- Ho; set_solver|]); intros h; rewrite elem_of_difference, elem_of_union, elem_of_singleton;
      intros [[Hh|Hh] ?]; [specialize (Hn _ Hh); lia|done|specialize (Hn _ Hh); lia|done].
  - rewrite Ho, Hc by done. split; set_solver by lia.
Qed.

(** No socket is lost when agents are handed over in an orderly way: if an agent that
    comes while another one is connected is followed by the next one only after the evicted
    session was cleaned up, every socket but the current agent's has been closed. *)
Theorem sockets_closed configured l :
  rtc (orderly configured) opened_link l -> opened l = match stream l with Some h => {[h]} | None => ∅ end.
Proof.
  intros Hr. cut (one_socket l); [by intros []|]. assert (H0 : one_socket opened_link) by (split; set_solver).
  remember opened_link as l0 eqn:E. clear E. induction Hr as [l1|l1 l2 l3 [Hs Hc] Hr IH]; [done|]. apply IH. clear IH Hr.
  destruct Hs; try exact H0; try congruence.
  - apply (close_stream_one _ H0).
  - by apply (close_stream_one (put_inner false false (put_connected false l)) H0).
  - apply connected_one; [done|]. by apply Hc.
  - unfold shutdown. by destruct (m_agentHandle l).
Qed.

(** And otherwise one is lost, and the wrong one closed: the clean-up of an evicted session
    closes [m_agentStream], which is by then the socket of the agent that came back. *)
Lemma session_starts configured : exists l, reachable false configured l /\ svc l = InSession /\ m_connected l = true
  /\ stream l = Some 0%nat /\ m_agentHandle l = Some 0%nat /\ opened l = {[0%nat]} /\ next l = 1%nat /\ m_running l = true /\ callers l = [].
Proof.
  destruct configured; eexists; (split; [|split_and!]).
  1:{ eapply rtc_l; [apply web_connect|]. eapply rtc_l; [by apply svc_wake|]. eapply rtc_l; [by apply svc_begin|]. by eapply rtc_once, svc_ready. }
  9:{ eapply rtc_l; [apply web_connect|]. eapply rtc_l; [by apply svc_wake|]. by eapply rtc_once, svc_skip. }
  all: by vm_compute.
Qed.
Lemma returning_agent_cut_off configured :
  exists l, reachable false configured l /\ opened l = {[0%nat]} /\ stream l = None /\ m_connected l = false /\ next l = 3%nat.
Proof.
  destruct (session_starts configured) as (l & Hr & Hs & Hc & Hst & Hh & Ho & Hn & _).
  set (l1 := on_agent_connected false l). set (l2 := on_agent_connected false l1).
  exists (at_pc Idle (put_handle None (close_stream (put_inner false false (put_connected false (at_pc Ending l2)))))). split.
  - unfold reachable in *. etransitivity; [exact Hr|]. eapply rtc_l; [apply web_connect|]. fold l1. eapply rtc_l; [apply web_connect|]. fold l2.
    eapply rtc_l; [apply svc_leave|by apply rtc_once, svc_end]. unfold l2, l1, on_agent_connected, shutdown. cbn. rewrite Hc. cbn. by rewrite Hh.
  - unfold l2, l1, on_agent_connected, shutdown. cbn. rewrite Hc. cbn. rewrite Hh. cbn. rewrite Hn, Ho. split_and!; [set_solver|done..].
Qed.
End Race.

(** * The options of the database agent *)

Section AgentOptions.
Context {N T D : Type} `{!NetIO N} `{!NetDial N} `{!NetBlocking N} `{!Digest} `{!Tls T} `{!Fuel}.
Context `{!Bson} `{!JsonLib} `{!MongoClient D} `{!What}.

Ltac agent_option_cases :=
  intros k arg [] o'; unfold set_agent_option;
  repeat match goal with
    | |- context [if Ascii.eqb k ?d then _ else _] => destruct (Ascii.eqb_spec k d) as [->|?]; [cbn|]
    | |- context [stoi 10 arg] => destruct (stoi 10 arg) eqn:?; cbn
    end; intros [= <-]; cbn; try done;
  repeat match goal with |- context [Ascii.eqb k ?d] => destruct (Ascii.eqb_spec k d) as [->|?] end; done.
Lemma server_host_setting : setting set_agent_option Ok "H" server_host. Proof. agent_option_cases. Qed.
Lemma tls_hostname_setting : setting set_agent_option Ok "N" tls_hostname. Proof. agent_option_cases. Qed.
Lemma tls_ca_setting : setting set_agent_option Ok "A" tls_ca. Proof. agent_option_cases. Qed.

(** The name that the server's certificate is checked against is the one given, and not the
    server's host: without [--tls-hostname] the agent runs its session with whatever
    certificate the server showed. *)
Theorem server_name_unchecked args cfg uri pause raw (a : DbAgent N T D) :
  agent_main args = Ok (inr (cfg, uri, pause)) ->
  m_host cfg = default "" (last_given "H" args) /\ m_host cfg <> "" /\ 0 <= m_port cfg <= 65535
  /\ m_tls_hostname cfg = default "" (last_given "N" args)
  /\ (last_given "N" args = None -> run_once cfg raw a =
        let '(ok, a) := connect_and_handshake cfg raw a in
        if negb ok then Some (ConnectFailed, a) else
        match setup_inner_tls cfg a with
        | None => None
        | Some (false, a) => Some (TlsFailed, disconnect a)
        | Some (true, a) => a ← run_session fuel cfg a; Some (SessionRan, a)
        end).
Proof.
  unfold agent_main. destruct (get_opts _ _ _) as [[code|o]|] eqn:Hs; cbn; try done.
  destruct (str_empty (server_host o)) eqn:E; [done|]. apply str_empty_false in E.
  destruct (_ || _); [done|]. intros [= <- _ _]. cbn [m_host m_port m_tls_hostname].
  pose proof (text_given _ _ _ _ _ _ server_host_setting Hs) as Hh. cbn in Hh. pose proof (text_given _ _ _ _ _ _ tls_hostname_setting Hs) as Hn.
  split; [done|]. split; [done|]. split; [|split; [done|]].
  - change (2 ^ 16) with 65536. pose proof (Z.mod_pos_bound (if server_port o =? 0 then 443 else server_port o) 65536). lia.
  - intros HN. rewrite HN in Hn. cbn in Hn. unfold run_once. cbn [m_tls_hostname]. rewrite Hn. done.
Qed.
End AgentOptions.

(** * The certificates *)

Section Certificates.
Context {C S X509 : Type} `{!OpenSSL.OpenSsl C S X509} `{!OpenSSL.OpenSslLaws}.
#[local] Existing Instance OpenSSL.openssl_session.

Context {N D : Type} `{!NetIO N} `{!NetDial N} `{!NetBlocking N} `{!Digest} `{!Fuel}.

(** C34. Neither client verifies the certificate of its server.  Whatever certification
    authority is configured, an inner session that the database agent or the tunnel's
    transport establishes has OpenSSL's mode in which a client goes on whatever the check
    says: [set_ca] sets the mode of the context after the session was made from it.  The
    server's sessions have the mode that is asked for. *)
Theorem server_certificate_unchecked :
  (forall cfg (a a' : DbAgent N (OpenSSL.Session C S) D), setup_inner_tls cfg a = Some (true, a') ->
     exists t, m_innerTls a' = Some t /\ OpenSSL.checks t = OpenSSL.VerifyNone)
  /\ (forall cfg (s s' : CloudTransport.Transport N (OpenSSL.Session C S)), CloudTransport.setup_inner_tls cfg s = Some (true, s') ->
        CloudTransport.cert_path cfg <> "" ->
        exists t b, CloudTransport.m_inner_tls s' = Some (t, b) /\ OpenSSL.checks t = OpenSSL.VerifyNone)
  /\ (forall cert key ca, ca <> "" -> OpenSSL.verify_off = false -> OpenSSL.checks (tls_server cert key ca : OpenSSL.Session C S) = OpenSSL.VerifyPeer).
Proof.
  assert (Hca : forall ca, OpenSSL.checks (if str_empty ca then tls_client else tls_set_ca ca tls_client : OpenSSL.Session C S) = OpenSSL.VerifyNone).
  { intros ca. pose proof OpenSSL.client_checks as E. destruct (str_empty ca); [exact E|]. etransitivity; [apply OpenSSL.set_ca_checks|exact E]. }
  split; [|split].
  - intros cfg a a'. unfold setup_inner_tls. set (t0 := if str_empty (m_tls_ca cfg) then _ else _). pose proof (Hca (m_tls_ca cfg)) as HV. fold t0 in HV.
    set (p := if str_empty (m_tls_cert cfg) then _ else _).
    assert (Hp : OpenSSL.checks p.2 = OpenSSL.VerifyNone).
    { unfold p. destruct (str_empty (m_tls_cert cfg)); [exact HV|]. etransitivity; [apply OpenSSL.set_cert_checks|exact HV]. }
    destruct p as [[] t]; cbn [negb snd] in *; [|done].
    destruct (handshake (mkInner t (mkWsTransport true (link a)))) as [[[] i]|] eqn:Eh; [|done|done]. intros [= <-].
    apply OpenSSL.handshake_checks in Eh. exists (ssl i). split; [done|]. cbn in Eh. by rewrite Eh.
  - intros cfg s s'. unfold CloudTransport.setup_inner_tls. intros Hs Hne. apply str_empty_false in Hne. rewrite Hne in Hs.
    set (t0 := if str_empty (CloudTransport.ca_path cfg) then _ else _) in Hs. pose proof (Hca (CloudTransport.ca_path cfg)) as HV. fold t0 in HV.
    pose proof (OpenSSL.set_cert_checks (CloudTransport.cert_path cfg) (CloudTransport.key_path cfg) t0) as Hc. rewrite HV in Hc.
    change (OpenSSL.set_cert (CloudTransport.cert_path cfg) (CloudTransport.key_path cfg) t0)
      with (tls_set_cert (CloudTransport.cert_path cfg) (CloudTransport.key_path cfg) t0) in Hc.
    destruct (tls_set_cert _ _ t0) as [[] t]; cbn [negb snd] in *; [|done].
    destruct (handshake (mkInner t (WsTlsBridge.new_bridge true, CloudTransport.conn s))) as [[[] i]|] eqn:Eh; [|done|done].
    apply OpenSSL.handshake_checks in Eh. cbn in Eh. destruct (_ && _); [done|].
    destruct (WsTlsBridge.leftover_socket_bytes _) as [left b]. injection Hs as <-. exists (ssl i), b. split; [done|]. by rewrite Eh.
  - intros cert key ca Hne Hoff. apply str_empty_false in Hne. etransitivity; [apply OpenSSL.server_checks|]. by rewrite Hne, Hoff.
Qed.
End Certificates.

(** * Examples *)

Section Witnesses.
#[local] Existing Instance toy_bson.
#[local] Instance ex_json : JsonLib := table_json [].
#[local] Instance ex_what : What := fun _ => "error".
#[local] Instance ex_digest : Digest := {| sha1 _ := str_repeat "x" 20; bio_base64 := base64_encode |}.
#[local] Instance ex_digest_laws : DigestLaws.
Proof. by split. Qed.
#[local] Instance ex_fuel : Fuel := 9%nat.
(** A network that delivers a text to whoever dials, and never fails. *)
#[local] Instance ex_net : NetIO string := {|
  net_recv s := (None, s); net_send _ s := (true, s); net_close s := s; net_register s := (true, s); net_unregister s := s;
  net_schedule _ s := (None, s); net_cancel _ s := s; net_mask_key s := (77, s); net_rand_bytes _ s := (None, s) |}.
#[local] Instance ex_masks : MaskLaws string.
Proof. by intros n. Qed.
#[local] Instance ex_dial : NetDial string := {|
  net_connect _ _ s := (true, s);
  net_recv1 s := match s with String c t => (Some c, t) | EmptyString => (None, s) end |}.
#[local] Program Instance ex_stream : DialStream string := {| net_stream s := s |}.
Next Obligation. by intros ? c t ->. Qed.
Next Obligation. by intros ? ->. Qed.
#[local] Instance ex_blocking : NetBlocking string := {| net_recv_n := string_recv_n; net_poll _ s := (true, s); net_told_to_stop _ := false |}.
#[local] Program Instance ex_blocking_laws : BlockingLaws string := {| quiet _ := 0%nat |}.
Solve All Obligations with (intros; first [apply surjective_pairing|cbn; lia|done]).
#[local] Existing Instance plain_sizes.

(** A client whose state is the documents it holds. *)
#[local] Instance ex_mongo : MongoClient (list string) := {|
  create_document db coll doc d := (Ok "42", d ++ [doc]);
  create_bulk_document _ _ _ d := (Ok 0, d); update_collection _ _ _ d := (Ok false, d); update_bulk_document _ _ _ d := (Ok 0, d);
  delete_document _ _ d := (Throw DbError, d); get_document _ _ _ d := (Ok "", d);
  get_documents _ _ _ d := (Ok "[]", d); get_documents_all _ _ d := (Ok "[]", d); next_awbno _ d := (Throw DbError, d);
  store_file _ _ _ d := (Ok "", d); fetch_file _ d := (Ok "", d); fetch_file_by_id _ d := (Ok "", d); delete_file _ d := (Ok true, d) |}.

Definition ex_conn (incoming : string) : Conn string := mkConn true None incoming [].
Definition ex_request (doc : string) (n : Z) : string := (build_request CREATE_DOCUMENT "" "cdr" doc "" "" n).1.2.
Definition ex_requests : list string := [ex_request "{a}" 7; ex_request "{b}" 8].
Definition ex_config : AgentConfig := mkAgentConfig "cloud" 443 "pbx" "" "" "" "".
Definition ex_server : Session string PlainTls := mkSession (Some (mkPlainTls "" "" "" "")) (ex_conn "") [].
Definition ex_bytes : string := written (agentStream ex_server) (agentStream (send_requests ex_requests ex_server).2).
Definition ex_agent : DbAgent string PlainTls (list string) := mkDbAgent (Some (mkPlainTls "" "" "" "")) (ex_conn ex_bytes) [].

Definition ex_rounds (bytes : string) : nat := Datatypes.S (String.length bytes).
Definition ex_back (a' : DbAgent string PlainTls (list string)) : string := written (link ex_agent) (link a').

Lemma fresh_settled : settled (mkPlainTls "" "" "" "").
Proof. by repeat split. Qed.
Lemma fresh_linked (t t' : PlainTls) : linked t t'.
Proof. by split. Qed.

Definition message_okb (p : string) : bool := negb (str_empty p) && (Z.of_nat (String.length p) <? 2 ^ 62).
Lemma messages_okb l : List.forallb message_okb l = true -> Forall message_ok l.
Proof.
  induction l as [|p l IH]; [done|]. cbn [List.forallb]. unfold message_okb at 1. rewrite !andb_true_iff, negb_true_iff, Z.ltb_lt.
  intros [[Hp Hl] Hr]. apply Forall_cons_2; [split; [by apply str_empty_false|done]|by apply IH].
Qed.
Lemma link_sends b (s : string) : (net_send b s).1 = true.
Proof. done. Qed.
Lemma ex_goes (s : string) : net_told_to_stop s = false.
Proof. done. Qed.

Lemma db_link_carries_witness :
  exists a', run_session (ex_rounds ex_bytes) ex_config ex_agent = Some a' /\ m_db a' = ["{a}"; "{b}"]
    /\ exists s2, server_session (ex_rounds (ex_back a')) (mkSession (inner (send_requests ex_requests ex_server).2) (ex_conn (ex_back a')) []) = Some s2
         /\ m_handle (agentStream s2) = false /\ List.length (routed s2) = 2%nat.
Proof.
  destruct (db_link_carries ex_config ex_requests ex_server ex_agent (mkPlainTls "" "" "" "") (mkPlainTls "" "" "" "") (ex_rounds ex_bytes)
    link_sends ex_goes ex_goes eq_refl eq_refl fresh_settled fresh_settled eq_refl eq_refl
    (fun t _ => fresh_linked _ _) (fun t _ => fresh_linked _ _) eq_refl eq_refl) as (a' & Hr & _ & Hd & Hb).
  - apply messages_okb. by vm_compute.
  - apply messages_okb. by vm_compute.
  - by vm_compute.
  - vm_compute. reflexivity.
  - by vm_compute.
  - unfold ex_rounds. fold ex_bytes. cbn [quiet ex_blocking_laws]. lia.
  - exists a'. split; [exact Hr|]. split; [rewrite Hd; by vm_compute|].
    destruct (Hb (ex_conn (ex_back a')) (ex_rounds (ex_back a')) eq_refl eq_refl) as (s2 & Hs & Hh & Hro).
    + assert (Ea : run_session (ex_rounds ex_bytes) ex_config ex_agent = Some a') by exact Hr. vm_compute in Ea. injection Ea as <-. by vm_compute.
    + unfold ex_rounds, ex_back. lia.
    + exists s2. split; [|split; [exact Hh|rewrite Hro; by vm_compute]]. exact Hs.
Defined.

Definition ex_raw : string := "0123456789abcdef".
Definition ex_answer : string := upgrade_answer (bio_base64 ex_raw) +:+ "frames".
Lemma db_handshake_witness :
  let '(req, key) := db_request ex_raw "cloud.example" in
  (exists ok cs', ws_upgrade_server (ex_conn (req +:+ "more")) = (ok, cs') /\ log cs' = [Sent (upgrade_answer key) ok] /\ net cs' = "more")
  /\ (exists c', dial (req, key) validate_db_response "cloud.example" 443 (ex_conn ex_answer) = (true, c') /\ net c' = "frames").
Proof.
  pose proof (db_handshake ex_raw "cloud.example" 443 (ex_conn ((db_request ex_raw "cloud.example").1 +:+ "more")) (ex_conn ex_answer) "frames" "more") as H.
  destruct H as [(ok & cs' & H1 & H2 & _ & H3) (c' & H4 & _ & H5)]; try (vm_compute; reflexivity).
  - apply Nat.leb_le. by vm_compute.
  - split; [exists ok, cs'; exact (conj H1 (conj H2 H3))|exists c'; exact (conj H4 H5)].
Defined.

(** A session that one request asks to use and gets its way through the inner TLS. *)
Lemma session_is_sealed_witness :
  exists l l', Shared.reachable false true l /\ rtc (Race.session_step false true) l l'
    /\ Shared.callers l' = [Shared.SawSet "r"] /\ exists w, Race.adds w l l'.
Proof.
  destruct (Race.session_starts true) as (l & Hr & Hs & Hc & _ & _ & _ & _ & Hrun & Hn). exists l.
  assert (Hin : Race.in_session l) by done.
  set (l1 := Shared.put_callers (Shared.callers l ++ [Shared.Checked "r"]) (Shared.wire l) l).
  set (l2 := Shared.put_callers ([] ++ Shared.branch "r" l1 :: []) (Shared.wire l1) l1).
  assert (Hsteps : rtc (Race.session_step false true) l l2).
  { eapply rtc_l; [by split; [apply Shared.call_check|]|]. apply rtc_once. split; [|done]. apply Shared.call_branch.
    unfold l1. cbn [Shared.callers Shared.put_callers]. by rewrite Hn. }
  destruct (Race.session_is_sealed false true l l2 eq_refl Hr Hin Hsteps) as (Hb & _ & Hw & _).
  exists l2. split; [done|]. split; [done|]. split; [|exact Hw]. exact (f_equal (fun c => [c]) (Hb "r")).
Defined.

(** The agent connects on the mTLS port after somebody opened [/ws/db]. *)
Definition ex_taken : Shared.Link := Shared.on_agent_connected true Shared.opened_link.
Definition ex_rejected : Shared.Link :=
  Shared.put_stream None (Shared.close_socket (Shared.next ex_taken) (Shared.arrive ex_taken)).
Lemma mtls_agent_locked_out_witness :
  rtc (Race.others true) ex_taken ex_rejected /\ Shared.svc ex_rejected = Shared.Idle /\ Shared.m_connected ex_rejected = true.
Proof.
  assert (Hr : rtc (Race.others true) ex_taken ex_rejected).
  { apply rtc_once. split; [by apply Shared.svc_reject|]. split; intros H; [apply (f_equal Shared.m_connected) in H|apply (f_equal Shared.m_running) in H]; by vm_compute in H. }
  split; [exact Hr|]. exact (Race.mtls_agent_locked_out true Shared.opened_link ex_rejected eq_refl eq_refl eq_refl Hr).
Defined.

Lemma sockets_closed_witness :
  exists l, rtc (Race.orderly true) Shared.opened_link l /\ Shared.stream l = Some 0%nat /\ Shared.opened l = {[0%nat]}.
Proof.
  exists (Shared.on_agent_connected false Shared.opened_link).
  assert (Hr : rtc (Race.orderly true) Shared.opened_link (Shared.on_agent_connected false Shared.opened_link)).
  { apply rtc_once. split; [apply Shared.web_connect|done]. }
  split; [exact Hr|]. split; [reflexivity|]. rewrite (Race.sockets_closed true _ Hr). reflexivity.
Defined.

(** OpenSSL's settings and nothing else: every handshake succeeds at once. *)
#[local] Instance ex_ssl : OpenSSL.OpenSsl OpenSSL.verify_mode OpenSSL.verify_mode unit := {|
  OpenSSL.SSL_CTX_new _ := OpenSSL.VerifyNone; OpenSSL.SSL_CTX_set_min_tls12 c := c;
  OpenSSL.SSL_CTX_load_verify_locations _ c := (true, c); OpenSSL.SSL_CTX_set_verify m _ := m;
  OpenSSL.SSL_CTX_use_certificate_file _ c := (true, c); OpenSSL.SSL_CTX_use_PrivateKey_file _ c := (true, c);
  OpenSSL.SSL_CTX_add_client_CA _ c := c; OpenSSL.read_x509 _ := Some tt; OpenSSL.verify_env := None;
  OpenSSL.SSL_new c := c; OpenSSL.SSL_set_state _ s := s; OpenSSL.SSL_use_certificate_file _ s := (true, s);
  OpenSSL.SSL_use_PrivateKey_file _ s := (true, s); OpenSSL.SSL_check_private_key _ := true; OpenSSL.SSL_get_peer_certificate _ := Some tt;
  OpenSSL.X509_check_host _ _ := true; OpenSSL.X509_common_name _ := None; OpenSSL.SSL_do_handshake _ s := (HsDone, s);
  OpenSSL.SSL_write _ _ s := (false, s); OpenSSL.SSL_read _ s := (RdWantRead, s); OpenSSL.wbio_pending _ := 0%nat;
  OpenSSL.wbio_read _ s := (None, s); OpenSSL.rbio_write _ s := s; OpenSSL.SSL_readable _ := 0%nat |}.
#[local] Program Instance ex_ssl_laws : OpenSSL.OpenSslLaws := {| OpenSSL.ctx_verify c := c; OpenSSL.ssl_verify s := s |}.
Solve All Obligations with done.
#[local] Existing Instance OpenSSL.openssl_session.
Lemma server_certificate_unchecked_witness :
  exists (a' : DbAgent string (OpenSSL.Session OpenSSL.verify_mode OpenSSL.verify_mode) (list string)) t,
    setup_inner_tls (mkAgentConfig "cloud" 443 "pbx" "ca.pem" "cert.pem" "key.pem" "cloud") (mkDbAgent None (ex_conn "") []) = Some (true, a')
    /\ m_innerTls a' = Some t /\ OpenSSL.checks t = OpenSSL.VerifyNone.
Proof.
  eexists. destruct (server_certificate_unchecked (N := string) (D := list string)) as [Hd _].
  destruct (Hd (mkAgentConfig "cloud" 443 "pbx" "ca.pem" "cert.pem" "key.pem" "cloud") (mkDbAgent None (ex_conn "") []) _ eq_refl) as (t & Ht).
  exists t. split; [reflexivity|exact Ht].
Defined.
End Witnesses.
