(* ===== verification/AgentMain.v ===== *)
(** The agent's process (pbx-agent/src/main/main.cpp): its options, the callbacks and
    handlers that connect the components, and its three threads as a transition system.

    The reactor's thread runs the timers of the tunnel and the subscriber watcher and reads
    the sockets; the plaintext from the cloud goes through the queue of
    [InnerTlsDispatchTask], whose thread runs the connector and the demux with it; what
    blocks in requests to Asterisk is a job for the worker of [AriDispatchTask], whose
    frames for the cloud go back to the reactor through [ReactorFrameOutbox].  (The two
    tasks on their own are [DispatchTask].)  The connector, the demux, the watcher and the
    transport have no lock: a callback of the reactor that meets one of the task's thread is
    a data race, after which nothing is known. *)

From S2P Require Import Prelude AriRest AriSocket CloudTransport.
From S2P Require Import SipFrame Json MessageParser FrameStream CloudTunnel CloudWiring CallRouter AriClient AriClientSpec Provisioning AgentEnv AgentTunnel AgentTunnelSpec.

#[local] Open Scope Z_scope.

(** * The options *)

Record Options := mkOptions {
  cloud_host : string; cloud_port : Z; tls_cert : string; tls_key : string; tls_ca : string; mongo_uri : string;
  society : string; ast_host : string; ast_port : Z; ari_app : string; ari_user : string; ari_pass : string;
  sip_realm : string; inner_tls : InnerTlsConfig }.

Definition default_options : Options :=
  let cert := "/opt/pbx-agent/certs/agent.crt" in
  let key := "/opt/pbx-agent/certs/agent.key" in
  let ca := "/opt/pbx-agent/certs/cloud-ca.pem" in
  mkOptions "" 443 cert key ca "mongodb://pbx-mongo:27017/pabx" "" "pbx-asterisk" 8088 "pbx" "asterisk" "asterisk" ""
    (mkInnerTlsConfig cert key ca "").

(** One option that [ACE_Get_Opt] delivers, with its argument: the new options, or the code
    that the process ends with. *)
Definition set_option (c : ascii) (arg : string) (o : Options) : result (Z + Options) :=
  let 'mkOptions ch cp tc tk ta mu so ah ap aa au aw sr it := o in
  let tls cert key ca name := mkInnerTlsConfig cert key ca name in
  if Ascii.eqb c "H" then Ok (inr (mkOptions arg cp tc tk ta mu so ah ap aa au aw sr it))
  else if Ascii.eqb c "P" then p ← stoi 10 arg; Ok (inr (mkOptions ch p tc tk ta mu so ah ap aa au aw sr it))
  else if Ascii.eqb c "E" then Ok (inr (mkOptions ch cp arg tk ta mu so ah ap aa au aw sr it))
  else if Ascii.eqb c "K" then Ok (inr (mkOptions ch cp tc arg ta mu so ah ap aa au aw sr it))
  else if Ascii.eqb c "A" then Ok (inr (mkOptions ch cp tc tk arg mu so ah ap aa au aw sr it))
  else if Ascii.eqb c "U" then Ok (inr (mkOptions ch cp tc tk ta arg so ah ap aa au aw sr it))
  else if Ascii.eqb c "S" then Ok (inr (mkOptions ch cp tc tk ta mu arg ah ap aa au aw sr it))
  else if Ascii.eqb c "a" then Ok (inr (mkOptions ch cp tc tk ta mu so arg ap aa au aw sr it))
  else if Ascii.eqb c "p" then p ← stoi 10 arg; Ok (inr (mkOptions ch cp tc tk ta mu so ah p aa au aw sr it))
  else if Ascii.eqb c "n" then Ok (inr (mkOptions ch cp tc tk ta mu so ah ap arg au aw sr it))
  else if Ascii.eqb c "u" then Ok (inr (mkOptions ch cp tc tk ta mu so ah ap aa arg aw sr it))
  else if Ascii.eqb c "w" then Ok (inr (mkOptions ch cp tc tk ta mu so ah ap aa au arg sr it))
  else if Ascii.eqb c "r" then Ok (inr (mkOptions ch cp tc tk ta mu so ah ap aa au aw arg it))
  else if Ascii.eqb c "i" then Ok (inr (mkOptions ch cp tc tk ta mu so ah ap aa au aw sr (tls arg (key_path it) (ca_path it) (hostname it))))
  else if Ascii.eqb c "j" then Ok (inr (mkOptions ch cp tc tk ta mu so ah ap aa au aw sr (tls (cert_path it) arg (ca_path it) (hostname it))))
  else if Ascii.eqb c "l" then Ok (inr (mkOptions ch cp tc tk ta mu so ah ap aa au aw sr (tls (cert_path it) (key_path it) arg (hostname it))))
  else if Ascii.eqb c "m" then Ok (inr (mkOptions ch cp tc tk ta mu so ah ap aa au aw sr (tls (cert_path it) (key_path it) (ca_path it) arg)))
  else if Ascii.eqb c "h" then Ok (inl 0)
  else if Ascii.eqb c "?" then Ok (inl (-1))
  else Ok (inr o).
Definition set_options := get_opts set_option.

(** What [main] goes on with: the options, and whether the realm was given. *)
Definition read_options (args : list (ascii * string)) : result (Z + Options * bool) :=
  r ← set_options args default_options;
  Ok match r with
     | inl code => inl code
     | inr o =>
         if str_empty (cloud_host o) || str_empty (society o) then inl (-1) else
         let cli := negb (str_empty (sip_realm o)) in
         let 'mkOptions ch cp tc tk ta mu so ah ap aa au aw sr it := o in
         inr (mkOptions ch cp tc tk ta mu so ah ap aa au aw (if cli then sr else so +:+ ".pbx.local") it, cli)
     end.

(** [static_cast<std::uint16_t>]. *)
Definition to_u16 (z : Z) : Z := z mod 2 ^ 16.
Definition ari_rest_cfg (o : Options) : AriRestConfig := mkAriRestConfig (ast_host o) (to_u16 (ast_port o)) (ari_user o) (ari_pass o).
Definition ari_ws_cfg (o : Options) : AriConfig := mkAriConfig (ast_host o) (to_u16 (ast_port o)) (ari_app o) (ari_user o) (ari_pass o).
Definition ari_cfg (o : Options) : AriClient.Config :=
  let 'AriClient.mkConfig _ _ calls context extension priority := AriClient.default_config (society o) in
  AriClient.mkConfig (society o) (ari_app o) calls context extension priority.
(** The host and the port that the connector's factory dials. *)
Definition cloud_address (o : Options) : string * Z := (cloud_host o, to_u16 (cloud_port o)).

(** * The threads *)

(** The closures that are given to [AriDispatchTask]. *)
Inductive job := JobEvent (event : string) | JobSnapshot | JobRevoke (sip_username : string).

Section Main.
Context {X H : Type} `{!AgentIO X} `{!AgentEnv H} `{!JsonLib}.

(** What the callbacks of the tunnel's objects reach on the reactor thread: the sockets,
    [deferred_factory.real], the queue of the task and the watcher, whose world is the one
    that Asterisk and the database are part of. *)
Record Reactor := mkReactor { sockets : X; real : bool; jobs : list job; watcher : Watcher H }.
Implicit Types (r : Reactor).

Definition on_sockets {A} (f : X -> A * X) r : A * Reactor :=
  let '(a, x) := f (sockets r) in (a, mkReactor x (real r) (jobs r) (watcher r)).
Definition put_watcher (w : Watcher H) r : Reactor := mkReactor (sockets r) (real r) (jobs r) w.
Definition dispatch (j : job) r : Reactor := mkReactor (sockets r) (real r) (jobs r ++ [j]) (watcher r).

(** [DeferredAsteriskFactory::open] is the case of [asterisk_open]. *)
#[export] Instance reactor_io : AgentIO Reactor := {|
  asterisk_open sid meta r := if real r then on_sockets (asterisk_open sid meta) r else (None, r);
  asterisk_send s bytes r := on_sockets (asterisk_send s bytes) r;
  asterisk_close s reason r := (on_sockets (fun x => (tt, asterisk_close s reason x)) r).2;
  create_connected r := on_sockets create_connected r;
  transport_send t bytes r := on_sockets (transport_send t bytes) r;
  transport_ping t r := on_sockets (transport_ping t) r;
  transport_close t r := (on_sockets (fun x => (tt, transport_close t x)) r).2;
  now_unix r := now_unix (sockets r);
|}.

(** ** The handlers *)

Definition revoked_handler : AgentTunnel.handler Reactor := fun payload r =>
  match json_parse payload with
  | Throw _ => (Ok [], r)
  | Ok j => (Ok [], match member_str "sipUsername" j with Some user => dispatch (JobRevoke user) r | None => r end)
  end.
Definition bootstrap_handler (sip_realm_from_cli : bool) : AgentTunnel.handler Reactor := fun payload r =>
  let '(res, w) := on_society_bootstrap sip_realm_from_cli payload (watcher r) in
  (match res with Ok _ => Ok [] | Throw e => Throw e end, put_watcher w r).
Definition on_connected (society_id : string) : connected_handler Reactor := fun r =>
  match main_on_connected society_id r with
  | (Ok cs, r) => (Ok cs, dispatch JobSnapshot r)
  | (Throw e, r) => (Throw e, r)
  end.

(** [set_register_state_handler] and [set_asterisk_status_handler]: the frame that a report
    is posted as, or the exception of [dump]. *)
Definition status_payload (connected : bool) : json := mk_obj [("connected", JBool connected)].
Definition payload_of (society_id : string) (c : call) : option (Op * json) :=
  match c with
  | RegisterState user online => Some (REGISTER_STATE, register_state_payload society_id user online)
  | AsteriskStatus connected => Some (ASTERISK_STATUS, status_payload connected)
  | _ => None
  end.
Definition frame_of (society_id : string) (c : call) : option (result Frame) :=
  match payload_of society_id c with
  | Some (op, payload) => Some (text ← json_dump payload; Ok (mkFrame op 0 text))
  | None => None
  end.
Definition post_of (society_id : string) (c : call) : option Frame :=
  match frame_of society_id c with Some (Ok f) => Some f | _ => None end.
(** The reports among a job's calls, and those of them that are posted: an exception of
    [dump] leaves the job, where nothing but further reports follows a report. *)
Definition is_report (c : call) : bool := match c with RegisterState _ _ | AsteriskStatus _ => true | _ => false end.
Definition reports : list call -> list call := List.filter is_report.
Fixpoint posted (society_id : string) (cs : list call) : list call :=
  match cs with
  | [] => []
  | c :: cs =>
      match frame_of society_id c with
      | None => posted society_id cs
      | Some (Ok _) => c :: posted society_id cs
      | Some (Throw _) => []
      end
  end.

Definition run_job (j : job) : M (AriClient H) unit :=
  match j with
  | JobEvent event => on_event event
  | JobSnapshot => publish_register_snapshot
  | JobRevoke user => revoke_subscriber user
  end.

(** ** The objects of [main] *)

(** [outbox] is [ReactorFrameOutbox::m_pending], [posting] what the running job has still to
    post; [noted] are the reports that the jobs made so far, [handed] the frames that the outbox
    gave to the connector, and [executed] the jobs that ran. *)
Record World := mkWorld {
  tunnel : Agent Reactor; ari : AriClient H; posting : list Frame; outbox : list Frame;
  noted : list call; handed : list Frame; executed : list job }.
Implicit Types (w : World).

(** The same world under another component. *)
Definition with_host {W} `{!HasEnv W H} (h : H) (v : W) : W := put_env (mkEnv h (calls (get_env v))) v.

Definition put_tunnel (t : Agent Reactor) w : World := mkWorld t (ari w) (posting w) (outbox w) (noted w) (handed w) (executed w).
Definition reactor w : Reactor := io (tunnel w).
Definition on_reactor (f : Reactor -> Reactor) w : World :=
  put_tunnel (mkAgent (demux (tunnel w)) (connector (tunnel w)) (f (reactor w)) (outs (tunnel w))) w.

(** [main] up to the event loop, but for the timers: ARI subscription, the watcher's
    bootstrap, the connector with the demux and their handlers. *)
Definition start_main (o : Options) (cli : bool) (x : X) (h : H) : result World :=
  let '(r1, a) := (AriClient.start ;; set_register_state_handler true ;; set_asterisk_status_handler true)
                    (new_ari (ari_cfg o) (mkEnv h [])) in
  let '(r2, v) := bootstrap (new_watcher (society o) (sip_realm o) (mkEnv (host (get_env a)) [])) in
  let t := mkAgent (new_demux true) (put_demux_ptr true (new_connector AgentTunnel.default_config)) (mkReactor x false [] v) [] in
  let t := set_subscriber_revoked_handler (Some revoked_handler) t in
  let t := set_on_connected (Some (on_connected (society o))) t in
  let t := set_society_bootstrap_handler (Some (bootstrap_handler cli)) t in
  let t := mkAgent (demux t) (connector t) (mkReactor (sockets (io t)) true (jobs (io t)) (watcher (io t))) (outs t) in
  _ ← r1; _ ← r2; Ok (mkWorld t a [] [] [] [] []).

(** The worker takes a job.  What it does to Asterisk and to the database it does on the
    world as it is now; an exception ends the job. *)
Definition worker_run (society_id : string) (j : job) (rest : list job) w : World :=
  let c := with_host (host (get_env (watcher (reactor w)))) (ari w) in
  let '(_, c') := run_job j c in
  let new := drop (List.length (calls (get_env c))) (calls (get_env c')) in
  let w := on_reactor (fun r => mkReactor (sockets r) (real r) rest (with_host (host (get_env c')) (watcher r))) w in
  mkWorld (tunnel w) c' (omap (post_of society_id) (posted society_id new)) (outbox w) (noted w ++ reports new) (handed w) (executed w ++ [j]).

(** The timers' callbacks. *)
Definition ping_timeout w : World :=
  if AgentTunnel.connected (tunnel w) then put_tunnel (send_ws_ping (tunnel w)) w else w.
Definition watcher_timeout w : result unit * World :=
  let '(r, v) := Provisioning.tick (watcher (reactor w)) in (r, on_reactor (put_watcher v) w).

(** What the reactor does with the objects that it shares with the task's thread.  A
    callback of its that throws ends the process. *)
Inductive reactor_step : World -> World -> Prop :=
  | on_lost w : reactor_step w (put_tunnel (AgentTunnel.on_transport_lost (tunnel w)) w)
  | on_timer w t : AgentTunnel.tick (tunnel w) = (Ok tt, t) -> reactor_step w (put_tunnel t w)
  | on_ping w : reactor_step w (ping_timeout w)
  | on_watch w w' : watcher_timeout w = (Ok tt, w') -> reactor_step w w'
  | on_stream_data sid bytes w : reactor_step w (put_tunnel (AgentTunnel.on_asterisk_data sid bytes (tunnel w)) w)
  | on_stream_eof sid reason w : reactor_step w (put_tunnel (AgentTunnel.on_asterisk_eof sid reason (tunnel w)) w)
  | on_notify w :
      let '(pending, t) := outbox_handle_exception (outbox w) (tunnel w) in
      reactor_step w (mkWorld t (ari w) (posting w) pending (noted w) (handed w ++ outbox w) (executed w)).
Inductive worker_step (society_id : string) : World -> World -> Prop :=
  | takes_job j rest w : posting w = [] -> jobs (reactor w) = j :: rest -> worker_step society_id w (worker_run society_id j rest w)
  | posts f fs w : posting w = f :: fs ->
      worker_step society_id w (mkWorld (tunnel w) (ari w) fs (outbox_post f (outbox w)) (noted w) (handed w) (executed w)).
(** The task's thread: its loop swallows what the handler throws, which keeps what the
    handler did before. *)
Definition handle_block (bytes : string) w : World := put_tunnel (AgentTunnel.on_bytes_received bytes (tunnel w)).2 w.

(** The process: the objects, the queue of the task, and the block that its thread is in the
    handler with; or a process in which a data race happened. *)
Inductive Process :=
  | Running (w : World) (blocks : list string) (handling : option string)
  | Undefined.

(** The handler's effect is at its end.  A callback of the reactor that uses the connector or the
    demux while the task's thread is in the handler meets it there: [reactor_races].  A read of
    the socket and the watcher's timer may overlap the handler; they meet it too when it sends
    over the TLS session that is read, or bootstraps the watcher, which is [reactor_races] again.
    The worker and an ARI event touch only queues that have locks (and the worker what is its
    own). *)
Inductive step (society_id : string) : Process -> Process -> Prop :=
  | reactor_calls w w' q : reactor_step w w' -> step society_id (Running w q None) (Running w' q None)
  | reactor_reads bytes w q h : step society_id (Running w q h) (Running w (q ++ [bytes]) h)
  | reactor_watches w w' q h : watcher_timeout w = (Ok tt, w') -> step society_id (Running w q h) (Running w' q h)
  | reactor_races w q bytes : step society_id (Running w q (Some bytes)) Undefined
  | ari_event event w q h : step society_id (Running w q h) (Running (on_reactor (dispatch (JobEvent event)) w) q h)
  | worker_steps w w' q h : worker_step society_id w w' -> step society_id (Running w q h) (Running w' q h)
  | task_takes bytes w q : step society_id (Running w (bytes :: q) None) (Running w q (Some bytes))
  | task_done bytes w q : step society_id (Running w q (Some bytes)) (Running (handle_block bytes w) q None).
Definition reachable (o : Options) (cli : bool) (x : X) (h : H) (p : Process) : Prop :=
  exists w0, start_main o cli x h = Ok w0 /\ rtc (step (society o)) (Running w0 [] None) p.
End Main.
Arguments World : clear implicits.
Arguments Process : clear implicits.
Arguments Reactor : clear implicits.

(** * What the options are *)

Ltac option_cases :=
  intros k arg [] o'; unfold set_option;
  repeat match goal with
    | |- context [if Ascii.eqb k ?d then _ else _] => destruct (Ascii.eqb_spec k d) as [->|?]; [cbn|]
    | |- context [stoi 10 arg] => destruct (stoi 10 arg) eqn:?; cbn
    end; intros [= <-]; cbn; try done;
  repeat match goal with |- context [Ascii.eqb k ?d] => destruct (Ascii.eqb_spec k d) as [->|?] end; done.

Lemma cloud_host_field : setting set_option Ok "H" cloud_host. Proof. option_cases. Qed.
Lemma society_field : setting set_option Ok "S" society. Proof. option_cases. Qed.
Lemma sip_realm_field : setting set_option Ok "r" sip_realm. Proof. option_cases. Qed.
Lemma cloud_port_field : setting set_option (stoi 10) "P" cloud_port. Proof. option_cases. Qed.
Lemma ast_port_field : setting set_option (stoi 10) "p" ast_port. Proof. option_cases. Qed.
Lemma tls_cert_field : setting set_option Ok "E" tls_cert. Proof. option_cases. Qed.
Lemma tls_key_field : setting set_option Ok "K" tls_key. Proof. option_cases. Qed.
Lemma tls_ca_field : setting set_option Ok "A" tls_ca. Proof. option_cases. Qed.
Lemma mongo_uri_field : setting set_option Ok "U" mongo_uri. Proof. option_cases. Qed.
Lemma ast_host_field : setting set_option Ok "a" ast_host. Proof. option_cases. Qed.
Lemma ari_app_field : setting set_option Ok "n" ari_app. Proof. option_cases. Qed.
Lemma ari_user_field : setting set_option Ok "u" ari_user. Proof. option_cases. Qed.
Lemma ari_pass_field : setting set_option Ok "w" ari_pass. Proof. option_cases. Qed.
Lemma inner_tls_cert_field : setting set_option Ok "i" (fun o => cert_path (inner_tls o)). Proof. option_cases. Qed.
Lemma inner_tls_key_field : setting set_option Ok "j" (fun o => key_path (inner_tls o)). Proof. option_cases. Qed.
Lemma inner_tls_ca_field : setting set_option Ok "l" (fun o => ca_path (inner_tls o)). Proof. option_cases. Qed.
Lemma inner_tls_hostname_field : setting set_option Ok "m" (fun o => hostname (inner_tls o)). Proof. option_cases. Qed.

Lemma stoi_range base s z : stoi base s = Ok z -> - 2 ^ 31 <= z < 2 ^ 31.
Proof. unfold stoi. destruct (scan_number base s) as [[[] v]|]; intros E; repeat case_match; simplify_eq; lia. Qed.

(** The number that the option gives, or the default, and the port that is used. *)
Definition port_of (c : ascii) (usual : Z) (args : list (ascii * string)) (n port : Z) : Prop :=
  match last_given c args with Some a => stoi 10 a = Ok n | None => n = usual end
  /\ - 2 ^ 31 <= n < 2 ^ 31 /\ 0 <= port <= 65535 /\ (port = n <-> 0 <= n <= 65535).

Lemma port_of_number c f args o o' :
  setting set_option (stoi 10) c f -> - 2 ^ 31 <= f o < 2 ^ 31 -> set_options args o = Ok (inr o') -> port_of c (f o) args (f o') (to_u16 (f o')).
Proof.
  intros Hf Hr Hs. pose proof (setting_given _ _ _ _ _ Hf _ _ Hs) as Hn. split; [done|].
  assert (- 2 ^ 31 <= f o' < 2 ^ 31).
  { destruct (last_given c args); [by apply stoi_range in Hn|by rewrite Hn]. }
  unfold to_u16. change (2 ^ 16) with 65536. pose proof (Z.mod_pos_bound (f o') 65536).
  split_and!; try lia. split; [lia|]. intros. apply Z.mod_small. lia.
Qed.

(** Everything but the two ports and what the realm defaults to. *)
Record texts := mkTexts {
  t_cloud_host : string; t_tls_cert : string; t_tls_key : string; t_tls_ca : string; t_mongo_uri : string; t_society : string;
  t_ast_host : string; t_ari_app : string; t_ari_user : string; t_ari_pass : string; t_inner_tls : InnerTlsConfig }.
Definition texts_of (o : Options) : texts :=
  mkTexts (cloud_host o) (tls_cert o) (tls_key o) (tls_ca o) (mongo_uri o) (society o) (ast_host o) (ari_app o) (ari_user o)
    (ari_pass o) (inner_tls o).
(** What they are meant to be: the argument given last, or the default. *)
Definition documented_texts (args : list (ascii * string)) : texts :=
  let given c usual := default usual (last_given c args) in
  mkTexts (given "H"%char "") (given "E"%char "/opt/pbx-agent/certs/agent.crt") (given "K"%char "/opt/pbx-agent/certs/agent.key")
    (given "A"%char "/opt/pbx-agent/certs/cloud-ca.pem") (given "U"%char "mongodb://pbx-mongo:27017/pabx") (given "S"%char "")
    (given "a"%char "pbx-asterisk") (given "n"%char "pbx") (given "u"%char "asterisk") (given "w"%char "asterisk")
    (mkInnerTlsConfig (given "i"%char "/opt/pbx-agent/certs/agent.crt") (given "j"%char "/opt/pbx-agent/certs/agent.key")
       (given "l"%char "/opt/pbx-agent/certs/cloud-ca.pem") (given "m"%char "")).

Lemma texts_given args o : set_options args default_options = Ok (inr o) -> texts_of o = documented_texts args.
Proof.
  intros Hs. pose proof (fun c f Hf => text_given set_option c f args default_options o Hf Hs) as Ht.
  pose proof (Ht _ _ inner_tls_cert_field) as H1. pose proof (Ht _ _ inner_tls_key_field) as H2.
  pose proof (Ht _ _ inner_tls_ca_field) as H3. pose proof (Ht _ _ inner_tls_hostname_field) as H4. cbn in H1, H2, H3, H4.
  unfold texts_of, documented_texts.
  rewrite (Ht _ _ cloud_host_field), (Ht _ _ tls_cert_field), (Ht _ _ tls_key_field), (Ht _ _ tls_ca_field), (Ht _ _ mongo_uri_field),
    (Ht _ _ society_field), (Ht _ _ ast_host_field), (Ht _ _ ari_app_field), (Ht _ _ ari_user_field), (Ht _ _ ari_pass_field).
  f_equal. rewrite <- H1, <- H2, <- H3, <- H4. by destruct (inner_tls o).
Qed.


(** * What the threads guarantee *)

Section Threads.
Context {X H : Type} `{!AgentIO X} `{!AgentEnv H} `{!JsonLib}.
Implicit Types (w : World X H) (t : Agent (Reactor X H)).

(** ** The objects, whatever thread has them *)

Inductive world_step (society_id : string) : World X H -> World X H -> Prop :=
  | world_reactor w w' : reactor_step w w' -> world_step society_id w w'
  | world_event event w : world_step society_id w (on_reactor (dispatch (JobEvent event)) w)
  | world_worker w w' : worker_step society_id w w' -> world_step society_id w w'
  | world_block bytes w : world_step society_id w (handle_block bytes w).

Lemma step_worlds society_id p p' w' q' h' :
  step society_id p p' -> p' = Running w' q' h' ->
  exists w q h, p = Running w q h /\ rtc (world_step society_id) w w'.
Proof.
  intros Hs. destruct Hs; intros [= <- <- <-]; do 3 eexists; (split; [done|]); try done; apply rtc_once.
  - by apply world_reactor.
  - by apply world_reactor, on_watch.
  - apply world_event.
  - by apply world_worker.
  - apply world_block.
Qed.
Lemma steps_worlds society_id w0 q0 h0 p :
  rtc (step society_id) (Running w0 q0 h0) p ->
  forall w q h, p = Running w q h -> rtc (world_step society_id) w0 w.
Proof.
  intros Hr. apply (rtc_ind_r (R:=step society_id) (fun p => forall w q h, p = Running w q h -> rtc (world_step society_id) w0 w) (Running w0 q0 h0)).
  - by intros w q h [= <- _ _].
  - intros p1 p2 _ Hs IH w q h ->. destruct (step_worlds _ _ _ _ _ _ Hs eq_refl) as (w1 & q1 & h1 & -> & Hw).
    etransitivity; [by eapply IH|done].
  - done.
Qed.
Lemma reachable_worlds o cli x h w q b :
  reachable o cli x h (Running w q b) -> exists w0, start_main o cli x h = Ok w0 /\ rtc (world_step (society o)) w0 w.
Proof. intros (w0 & E & Hr). exists w0. split; [done|]. by eapply steps_worlds. Qed.

(** ** Frames of the worker *)

Section Reports.
Context `{!JsonText}.

(** What is noted is posted, in that order. *)
Definition balanced (society_id : string) w : Prop :=
  handed w ++ outbox w ++ posting w = omap (post_of society_id) (noted w)
  /\ Forall (fun c => is_Some (post_of society_id c)) (noted w).

(** A report of a UTF-8 name prints. *)
Lemma report_posted society_id c :
  utf8_ok society_id = true -> call_utf8 c -> is_report c = true ->
  exists f, frame_of society_id c = Some (Ok f).
Proof.
  intros Hs Hc Hr. unfold frame_of.
  assert (forall op payload, payload_of society_id c = Some (op, payload) -> json_utf8 payload = true) as Hu.
  { intros op payload. destruct c as [| |user online|up]; try done; cbn [payload_of]; intros [= <- <-];
      apply mk_obj_utf8; cbn [json_utf8 forallb fst snd]; [|done]. cbn in Hc. by rewrite Hs, Hc. }
  destruct (payload_of society_id c) as [[op payload]|] eqn:Hp; [|by destruct c].
  pose proof (dump_utf8 payload (Hu op payload eq_refl)) as Hd. destruct (json_dump payload); [by eexists|done].
Qed.
Lemma posted_reports society_id cs :
  utf8_ok society_id = true -> Forall call_utf8 cs ->
  posted society_id cs = reports cs /\ Forall (fun c => is_Some (post_of society_id c)) (reports cs).
Proof.
  intros Hs. induction 1 as [|c cs Hc _ [IH1 IH2]]; [by split|]. cbn. destruct (is_report c) eqn:Hr.
  - destruct (report_posted society_id c Hs Hc Hr) as [f Hf]. rewrite Hf, IH1. split; [done|].
    constructor; [unfold post_of; rewrite Hf; by eexists|done].
  - assert (frame_of society_id c = None) as -> by (by destruct c). by split.
Qed.
Lemma run_job_utf8 j (c : AriClient H) :
  exists new, calls (get_env (run_job j c).2) = calls (get_env c) ++ new /\ Forall call_utf8 new.
Proof.
  destruct j as [event| |user]; cbn [run_job]; [apply on_event_utf8|apply snapshot_utf8|by apply grows_revoke].
Qed.

Lemma balanced_step society_id w w' :
  utf8_ok society_id = true -> world_step society_id w w' -> balanced society_id w -> balanced society_id w'.
Proof.
  unfold balanced. intros Hu [w1 w2 [| | |w1' w2' Hw| | |]|event w1|w1 w2 [j rest w1' Hp Hj|f fs w1' Hp]|bytes w1] [Hb Hn]; cbn; try done.
  - unfold ping_timeout. by destruct (AgentTunnel.connected _).
  - unfold watcher_timeout in Hw. destruct Provisioning.tick. by injection Hw as _ <-.
  - split; [by rewrite <- app_assoc|done].
  - unfold worker_run. set (c := with_host _ _). destruct (run_job_utf8 j c) as (new & Hnew & Hutf8).
    destruct (run_job j c) as [r c']. cbn in Hnew |- *. rewrite Hnew, drop_app_length. rewrite Hp, app_nil_r in Hb.
    destruct (posted_reports society_id new Hu Hutf8) as [-> Hr]. split.
    + by rewrite app_assoc, Hb, omap_app.
    + by apply Forall_app_2.
  - rewrite Hp in Hb. split; [|done]. unfold outbox_post. by rewrite <- !app_assoc.
Qed.

Lemma balanced_reachable o cli x h w q b :
  utf8_ok (society o) = true -> reachable o cli x h (Running w q b) -> balanced (society o) w.
Proof.
  intros Hu (w0 & E0 & Hr)%reachable_worlds. assert (balanced (society o) w0) as Hb.
  { unfold start_main in E0. repeat match type of E0 with context [match ?x with (_, _) => _ end] => destruct x as [[|] ?] end; try done.
    injection E0 as <-. split; [done|constructor]. }
  clear E0. induction Hr as [|w1 w2 w3 Hs Hr IH]; [done|]. by apply IH, (balanced_step _ _ _ Hu Hs).
Qed.
End Reports.

Lemma omap_split {A B} (f : A -> option B) l l1 l2 :
  Forall (fun a => is_Some (f a)) l -> l1 ++ l2 = omap f l -> exists a b, l = a ++ b /\ l1 = omap f a /\ l2 = omap f b.
Proof.
  intros Hl. revert l1. induction Hl as [|a l [y Hy] Hl IH]; intros l1 He.
  - apply app_nil in He as [-> ->]. by exists [], [].
  - destruct l1 as [|y' l1]; [by exists [], (a :: l)|]. cbn in He. rewrite Hy in He. injection He as -> He.
    destruct (IH _ He) as (b & c & -> & -> & ->). exists (a :: b), c. cbn. by rewrite Hy.
Qed.

(** ** Presence, from the worker to the cloud's cache *)

Section Presence.
Context {D : Type} `{!CloudHost D} `{!CloudIO (Host D)}.
Implicit Types (cw : Cloud (Host D)) (dir : gmap (string * string) bool).

Definition presence_step (society_id : string) dir (c : call) : gmap (string * string) bool :=
  match c with RegisterState user online => <[(society_id, user) := online]> dir | _ => dir end.
Definition status_step (up : bool) (c : call) : bool := match c with AsteriskStatus connected => connected | _ => up end.

(** The cloud as [main] wires it, for the two frames. *)
Definition wired cw : Prop :=
  let hs := m_handlers (bridge cw) in
  CloudTunnel.m_register_state_handler hs = Some register_state_handler /\ CloudTunnel.m_asterisk_status_handler hs = None.
(** The payload of a report is read as it was printed. *)
Definition reads_back (society_id : string) (c : call) : Prop :=
  forall op payload text, payload_of society_id c = Some (op, payload) -> json_dump payload = Ok text -> json_parse text = Ok payload.

Lemma dispatch_post society_id c f cw dir :
  nul_free society_id -> reads_back society_id c -> wired cw -> post_of society_id c = Some f -> agrees (cache (CloudTunnel.io cw)) dir ->
  exists cw', CloudTunnel.dispatch_frame f cw = (Ok tt, cw') /\ wired cw'
    /\ agrees (cache (CloudTunnel.io cw')) (presence_step society_id dir c)
    /\ asterisk_connected cw' = status_step (asterisk_connected cw) c.
Proof.
  intros Hn Hr [W1 W2] Hf Ha. unfold post_of, frame_of in Hf. destruct c as [| |user online|up]; try done; cbn [payload_of] in Hf.
  - destruct (json_dump _) as [text|] eqn:Hd; [|done]. injection Hf as <-. eapply Hr in Hd; [|done].
    change (mkFrame REGISTER_STATE 0 text) with (report_frame text). rewrite (dispatch_report text cw W1).
    assert (register_report text = Some (society_id, user, online)) as Hrep.
    { unfold register_report. rewrite Hd. by vm_compute. }
    eexists. split; [done|]. unfold register_state_handler. rewrite Hrep. split_and!; try done. by apply agrees_set.
  - destruct (json_dump _) as [text|] eqn:Hd; [|done]. injection Hf as <-. eapply Hr in Hd; [|done].
    unfold CloudTunnel.dispatch_frame. cbn [op payload]. unfold CloudTunnel.run_handler. rewrite W2.
    eexists. split; [done|]. split_and!; try done. cbn. unfold asterisk_flag. by rewrite Hd.
Qed.

Lemma dispatch_posts society_id cs cw dir :
  nul_free society_id -> Forall (reads_back society_id) cs -> Forall (fun c => is_Some (post_of society_id c)) cs ->
  wired cw -> agrees (cache (CloudTunnel.io cw)) dir ->
  exists cw', for_each (omap (post_of society_id) cs) CloudTunnel.dispatch_frame cw = (Ok tt, cw')
    /\ agrees (cache (CloudTunnel.io cw')) (fold_left (presence_step society_id) cs dir)
    /\ asterisk_connected cw' = fold_left status_step cs (asterisk_connected cw).
Proof.
  intros Hn Hp Hc. revert cw dir. induction Hc as [|c cs [f Hf] Hc IH]; intros cw dir Hw Ha; [by exists cw|].
  apply Forall_cons_1 in Hp as [Hp1 Hp].
  destruct (dispatch_post _ _ _ _ _ Hn Hp1 Hw Hf Ha) as (cw1 & Hd & Hw1 & Ha1 & H1).
  destruct (IH Hp _ _ Hw1 Ha1) as (cw' & Hd' & Ha' & H1'). exists cw'. cbn. rewrite Hf, <- H1. split; [|done].
  change (option_list (Some f) ++ _) with (f :: omap (post_of society_id) cs). by rewrite (for_each_cons_ok _ _ _ _ cw1).
Qed.

(** C19. Presence end to end.  In every run of the agent's three threads in which no two of
    them race for the connector, the frames that its outbox has handed to the tunnel are the
    reports that the worker's jobs made, in that order, none lost, repeated or overtaken,
    but for those that still wait; dispatched by the cloud they never throw, its cache says
    of every subscriber what the last of these reports said, and its Asterisk flag is the
    last one reported. *)
Theorem presence_end_to_end `{!JsonText} o cli x h w q b cw dir :
  reachable o cli x h (Running w q b) -> utf8_ok (society o) = true -> nul_free (society o) ->
  Forall (reads_back (society o)) (noted w) ->
  wired cw -> agrees (cache (CloudTunnel.io cw)) dir ->
  exists given waiting cw', noted w = given ++ waiting
    /\ handed w = omap (post_of (society o)) given /\ outbox w ++ posting w = omap (post_of (society o)) waiting
    /\ List.length (handed w) = List.length given
    /\ for_each (handed w) CloudTunnel.dispatch_frame cw = (Ok tt, cw')
    /\ agrees (cache (CloudTunnel.io cw')) (fold_left (presence_step (society o)) given dir)
    /\ asterisk_connected cw' = fold_left status_step given (asterisk_connected cw).
Proof.
  intros Hr Hu Hn Hp Hw Ha. destruct (balanced_reachable _ _ _ _ _ _ _ Hu Hr) as [Hb Hs].
  destruct (omap_split _ _ _ _ Hs Hb) as (given & waiting & Hg & Hh1 & Hh2).
  rewrite Hg in Hs, Hp. apply Forall_app in Hs as [Hs _]. apply Forall_app in Hp as [Hp _].
  destruct (dispatch_posts _ given cw dir Hn Hp Hs Hw Ha) as (cw' & Hd & Ha' & Hf).
  exists given, waiting, cw'. rewrite <- Hh1 in Hd. split_and!; try done. rewrite Hh1.
  clear -Hs. induction Hs as [|c cs [f Hf] _ IH]; [done|]. cbn. rewrite Hf. cbn. by rewrite IH.
Qed.
End Presence.

(** ** The tunnel's side of the process *)

(** What [main] sets once. *)
Definition handlers t :=
  (m_revoked_handler (demux t), m_society_bootstrap_handler (demux t), m_on_connected (connector t), m_demux (connector t)).

Lemma handlers_inert t t' : inert t t' -> handlers t' = handlers t.
Proof. intros []. unfold handlers. congruence. Qed.
Lemma handlers_send_frame op sid p t : handlers (send_frame op sid p t) = handlers t.
Proof. apply handlers_inert, inert_send_frame. Qed.
Lemma handlers_mark_disconnected t : handlers (mark_disconnected t) = handlers t.
Proof. unfold handlers. rewrite connector_mark_disconnected, demux_mark_disconnected. cbn. by destruct (m_demux (connector t)). Qed.

Lemma handlers_read_loop fuel t : handlers (read_loop fuel t).2 = handlers t.
Proof.
  revert t. induction fuel as [|fuel IH]; intros t; cbn [read_loop]; [done|].
  destruct (decode _) as [f n| |]; [|done|done]. pose proof (handlers_inert _ _ (inert_dispatch_frame f t)) as Hi.
  cbn [reader_dispatch demux_reader] in *. destruct (dispatch_frame f t) as [[u|e] t1]; cbn [snd] in *; [|done].
  by rewrite IH, <- Hi.
Qed.
Lemma handlers_flush_loop q t : handlers (flush_loop q t) = handlers t.
Proof.
  revert t. induction q as [|s q IH]; intros t; cbn [flush_loop]; [done|]. destruct (m_transport _); [|done].
  unfold call_transport_send. destruct transport_send as [[] h]; [by rewrite IH|by rewrite handlers_mark_disconnected].
Qed.
Lemma handlers_run_on_connected t : handlers (run_on_connected t).2 = handlers t.
Proof.
  unfold run_on_connected. destruct (m_on_connected _) as [g|]; [|done]. destruct (g (io t)) as [[cs|e] h]; cbn [snd]; [|done].
  assert (forall v, handlers (fold_left (fun t c => run_agent_call c t) cs v) = handlers v) as Hc; [|by rewrite Hc].
  induction cs as [|c cs IH]; intros v; cbn [fold_left]; [done|]. rewrite IH. destruct c; [done|]. apply handlers_send_frame.
Qed.

Lemma handlers_tick t : handlers (tick t).2 = handlers t.
Proof.
  rewrite tick_settle. assert (handlers (settle t) = handlers t) as <-.
  { unfold settle. destruct (m_disconnect_pending _); [|done]. destruct (m_transport _); [|done]. by rewrite handlers_mark_disconnected. }
  destruct (m_transport _); cbn [snd].
  - unfold maybe_heartbeat. destruct (_ <=? 0); [done|]. destruct (_ <? _); [done|].
    destruct (_ <=? _); [apply handlers_mark_disconnected|]. pose proof (handlers_send_frame PING 0 "" (settle t)) as Hs.
    destruct (m_transport _); [|done]. by etransitivity; [|exact Hs].
  - destruct (_ <? _); [done|]. unfold attempt_connect, call_create_connected.
    destruct (create_connected _) as [[u|] h]; [|done]. rewrite handlers_run_on_connected. unfold flush_outbound.
    by rewrite handlers_flush_loop.
Qed.

Lemma handlers_step t t' : agent_step t t' -> handlers t' = handlers t.
Proof.
  intros [? ? []|?]; [..|apply handlers_tick].
  - unfold on_bytes_received. destruct (negb _); [done|]. unfold on_tunnel_bytes, read_bytes.
    match goal with |- context [read_loop ?n ?v] => pose proof (handlers_read_loop n v) as Hl; destruct (read_loop n v) as [[[]|e] t1] end;
      exact Hl.
  - unfold on_transport_lost. by destruct (m_transport _).
  - apply handlers_send_frame.
  - unfold send_ws_ping. destruct (m_transport _); [|done]. destruct (m_disconnect_pending _); [done|].
    unfold call_transport_ping. by destruct transport_ping as [[] h].
  - unfold on_asterisk_data. destruct (_ !! _); [|done]. apply handlers_inert, inert_tunnel_send.
  - apply handlers_inert, inert_on_asterisk_eof.
  - done.
Qed.

Lemma agent_step_reactor f w : agent_step (tunnel w) (tunnel (on_reactor f w)).
Proof.
  assert (tunnel (on_reactor f w) = with_io (f (reactor w)) [] (tunnel w)) as ->; [|apply step_event, step_environment].
  unfold on_reactor, put_tunnel, with_io. cbn. by rewrite app_nil_r.
Qed.
Lemma agent_steps_send_frames fs t : rtc agent_step t (send_frames fs t).
Proof.
  revert t. induction fs as [|f fs IH]; intros t; [done|]. eapply rtc_l; [|apply IH]. apply step_event, step_send.
Qed.
Lemma tunnel_worker_run society_id j rest w :
  exists g, tunnel (worker_run society_id j rest w) = tunnel (on_reactor g w) /\ forall r, sockets (g r) = sockets r.
Proof.
  unfold worker_run. destruct (run_job _ _) as [r c']. cbn [tunnel].
  exists (fun r => mkReactor (sockets r) (real r) rest (with_host (host (get_env c')) (watcher r))). done.
Qed.

Lemma stream_send_frames fs t :
  agent_inv t -> config_ok (m_cfg (connector t)) -> unbounded t ->
  tunnel_stream (send_frames fs t) = tunnel_stream t ++ map encode_frame fs.
Proof.
  revert t. induction fs as [|f fs IH]; intros t Hi Hk Hu; [by rewrite app_nil_r|].
  destruct (agent_evolves_send_frame (op f) (stream_id f) (payload f) t Hi Hk) as (Hi1 & Hc1 & _).
  unfold send_frames. cbn [fold_left map]. etransitivity; [apply IH; [done|by rewrite Hc1|unfold unbounded in *; by rewrite Hc1]|].
  rewrite agent_stream_send_frame by done. by rewrite <- app_assoc.
Qed.

(** A step of any thread is a run of the tunnel's two objects. *)
Lemma tunnel_step society_id w w' : world_step society_id w w' -> rtc agent_step (tunnel w) (tunnel w').
Proof.
  intros [w1 w2 Hs|event w1|w1 w2 Hs|bytes w1].
  - destruct Hs as [w1|w1 t Ht|w1|w1 w2 Hw|sid bytes w1|sid reason w1|w1]; cbn [tunnel put_tunnel].
    + apply rtc_once, step_event, step_lost.
    + pose proof (step_tick (tunnel w1)) as Hb. rewrite Ht in Hb. by apply rtc_once.
    + unfold ping_timeout. destruct (AgentTunnel.connected _); [|done]. apply rtc_once, step_event, step_ping.
    + unfold watcher_timeout in Hw. destruct Provisioning.tick. injection Hw as _ <-. apply rtc_once, agent_step_reactor.
    + apply rtc_once, step_event, step_data.
    + apply rtc_once, step_event, step_eof.
    + apply agent_steps_send_frames.
  - apply rtc_once, agent_step_reactor.
  - destruct Hs as [j rest w1 _ _|f fs w1 _]; [|done].
    destruct (tunnel_worker_run society_id j rest w1) as (g & -> & _). apply rtc_once, agent_step_reactor.
  - apply rtc_once, step_event, step_bytes.
Qed.

Record running (t0 : Agent (Reactor X H)) w : Prop := {
  run_steps : rtc agent_step t0 (tunnel w);
  run_handlers : handlers (tunnel w) = handlers t0;
  run_inv : agent_inv (tunnel w);
  run_cfg : m_cfg (connector (tunnel w)) = AgentTunnel.default_config;
  run_handed : sublist (map encode_frame (handed w)) (tunnel_stream (tunnel w));
}.

Lemma handlers_steps t t' : rtc agent_step t t' -> handlers t' = handlers t.
Proof. induction 1 as [|? ? ? Hs _ IH]; [done|]. by rewrite IH, (handlers_step _ _ Hs). Qed.

Lemma running_step society_id t0 w w' : world_step society_id w w' -> running t0 w -> running t0 w'.
Proof.
  intros Hs [H1 H2 H3 H4 H5]. pose proof (tunnel_step _ _ _ Hs) as Ht.
  assert (config_ok (m_cfg (connector (tunnel w))) /\ unbounded (tunnel w)) as [Hk Hu]
    by (unfold unbounded; rewrite H4; by split; [split; cbn; lia|]).
  destruct (agent_evolves_steps _ _ Ht H3 Hk) as (Hi & Hc & Hn). destruct (Hn Hu) as [new Hnew].
  split; [by etransitivity|by rewrite (handlers_steps _ _ Ht)|done|by rewrite Hc|].
  assert (handed w' = handed w -> sublist (map encode_frame (handed w')) (tunnel_stream (tunnel w'))) as Hsame.
  { intros ->. rewrite Hnew. by apply sublist_inserts_r. }
  destruct Hs as [v1 v2 [| | |w1 w2 Hw| | |w1]|event v1|v1 v2 [j rest w1 _ _|f fs w1 _]|bytes v1]; try (by apply Hsame).
  - apply Hsame. unfold ping_timeout. by destruct (AgentTunnel.connected _).
  - apply Hsame. unfold watcher_timeout in Hw. destruct Provisioning.tick. by injection Hw as _ <-.
  - cbn [handed tunnel]. rewrite stream_send_frames by done. rewrite map_app. by apply sublist_app.
  - apply Hsame. unfold worker_run. by destruct (run_job _ _).
Qed.

Definition main_handlers (o : Options) (cli : bool) :=
  (Some (@revoked_handler X H H0), Some (@bootstrap_handler X H _ H0 cli), Some (@on_connected X H H0 (society o)), true).

Lemma running_reachable o cli x h w q b :
  reachable o cli x h (Running w q b) ->
  exists w0, start_main o cli x h = Ok w0 /\ running (tunnel w0) w /\ handlers (tunnel w0) = main_handlers o cli.
Proof.
  intros (w0 & E0 & Hr)%reachable_worlds. exists w0. split; [done|].
  assert (running (tunnel w0) w0 /\ handlers (tunnel w0) = main_handlers o cli) as [Hw Hh].
  { unfold start_main in E0.
    repeat match type of E0 with context [match ?x with (_, _) => _ end] => destruct x as [[|] ?] end; try done.
    injection E0 as <-. split; [by split|done]. }
  split; [|done]. clear E0 Hh. revert Hw. generalize (tunnel w0) as t0.
  induction Hr as [|w1 w2 w3 Hs Hr IH]; [done|]. intros t0 Hw. by apply IH, (running_step _ _ _ _ Hs).
Qed.

(** C38. The process refines the tunnel.  Whatever the three threads do, as long as the
    reactor and the task's thread do not race, the connector and the demux go through a run
    of the events that their own theorems are about - a handler that throws on the task's
    thread included -, with the handlers that [main] installed, and every frame of the
    outbox is part of the stream that the transports accepted or that waits for the next
    one, in order. *)
Theorem process_refines_tunnel o cli x h w q b :
  reachable o cli x h (Running w q b) ->
  exists w0, start_main o cli x h = Ok w0 /\ rtc agent_step (tunnel w0) (tunnel w)
  /\ handlers (tunnel w) = main_handlers o cli /\ agent_inv (tunnel w)
  /\ sublist (map encode_frame (handed w)) (tunnel_stream (tunnel w)).
Proof.
  intros Hr. destruct (running_reachable _ _ _ _ _ _ _ Hr) as (w0 & E0 & [H1 H2 H3 H4 H5] & Hh).
  exists w0. split_and!; try done. by rewrite H2.
Qed.

(** The race is always near: the first block that arrives while a timer is due is enough. *)
Theorem handlers_race o cli x h w q b : reachable o cli x h (Running w q b) -> reachable o cli x h Undefined.
Proof.
  intros (w0 & E & Hr). exists w0. split; [done|]. etransitivity; [exact Hr|]. destruct b as [bytes|].
  - apply rtc_once, reactor_races.
  - eapply rtc_l; [apply (reactor_reads _ "" w q)|]. destruct q as [|bytes q]; cbn [app];
      (eapply rtc_l; [apply task_takes|]); apply rtc_once, reactor_races.
Qed.

(** ** The worker *)

Lemma posts_all society_id w :
  exists w', rtc (worker_step society_id) w w' /\ posting w' = [] /\ tunnel w' = tunnel w /\ ari w' = ari w
  /\ executed w' = executed w /\ outbox w' = outbox w ++ posting w.
Proof.
  remember (posting w) as fs eqn:Hfs. revert w Hfs. induction fs as [|f fs IH]; intros w Hfs.
  - exists w. by rewrite app_nil_r.
  - pose proof (posts society_id f fs w (eq_sym Hfs)) as Hs. match type of Hs with worker_step _ _ ?v => destruct (IH v eq_refl) as (w' & H1 & H2 & H3 & H4 & H5 & H6) end.
    exists w'. split; [by eapply rtc_l|]. cbn in H6. unfold outbox_post in H6. by rewrite <- app_assoc in H6.
Qed.

Lemma runs_jobs society_id js rest w :
  jobs (reactor w) = js ++ rest ->
  exists w', rtc (worker_step society_id) w w' /\ posting w' = [] /\ jobs (reactor w') = rest /\ executed w' = executed w ++ js.
Proof.
  revert w. induction js as [|j js IH]; intros w Hj; destruct (posts_all society_id w) as (w1 & H1 & H2 & H3 & _ & H5 & _).
  - exists w1. unfold reactor in *. by rewrite H3, H5, app_nil_r.
  - unfold reactor in Hj. rewrite <- H3 in Hj. pose proof (takes_job society_id j (js ++ rest) w1 H2 Hj) as Hs.
    assert (jobs (reactor (worker_run society_id j (js ++ rest) w1)) = js ++ rest
      /\ executed (worker_run society_id j (js ++ rest) w1) = executed w1 ++ [j]) as [Hj2 He2].
    { unfold worker_run. by destruct (run_job _ _). }
    destruct (IH _ Hj2) as (w' & H6 & H7 & H8 & H9). exists w'. split_and!; try done.
    + etransitivity; [done|]. by eapply rtc_l.
    + by rewrite H9, He2, H5, <- app_assoc.
Qed.

(** ** Revocation, from the cloud to Asterisk *)

(** The calls that a revocation makes, after the answer to the first. *)
Definition live_channel (id : json) : option ari_call :=
  match id with JStr id => if str_empty id then None else Some (Hangup id "normal") | _ => None end.
Definition hangups (endpoint : Response) : list ari_call :=
  if negb (http_ok endpoint) then [] else
  match json_parse (body endpoint) with
  | Ok ep => match member "channel_ids" ep with Some (JArr ids) => omap live_channel ids | _ => [] end
  | Throw _ => []
  end.
Definition revocation_calls (user : string) (endpoint : Response) : list call :=
  map Ari (GetEndpoint "PJSIP" user :: hangups endpoint).

Lemma posted_ari society_id cs : posted society_id (map Ari cs) = [].
Proof. by induction cs as [|c cs IH]. Qed.

Lemma revoke_channels_run ids (c : AriClient H) :
  exists c', for_each ids revoke_channel c = (Ok tt, c') /\ trace c' = trace c ++ map Ari (omap live_channel ids).
Proof.
  revert c. induction ids as [|id ids IH]; intros c; [exists c; by rewrite app_nil_r|].
  assert (exists c1, revoke_channel id c = (Ok tt, c1) /\ trace c1 = trace c ++ map Ari (option_list (live_channel id))) as (c1 & H1 & T1).
  { destruct id as [| | | |id| |]; try (exists c; by rewrite app_nil_r). cbn. destruct (str_empty id); [exists c; by rewrite app_nil_r|].
    unfold ari_hangup. rewrite (M_bind_ok _ _ _ _ _ (call_ari_run _ c)). by eexists. }
  destruct (IH c1) as (c' & H2 & T2). exists c'. rewrite (for_each_cons_ok _ _ _ _ _ H1). split; [done|].
  rewrite T2, T1, <- app_assoc, <- map_app. f_equal. f_equal. cbn. by destruct (live_channel id).
Qed.

Lemma revoke_run user (c : AriClient H) :
  user <> "" -> exists c', revoke_subscriber user c = (Ok tt, c')
    /\ trace c' = trace c ++ revocation_calls user (answer (GetEndpoint "PJSIP" user) (ari_host c)).
Proof.
  intros Hu. unfold revoke_subscriber, revocation_calls, hangups. destruct (str_empty user) eqn:E; [by destruct user|].
  rewrite (M_bind_ok _ _ _ _ _ (call_ari_run _ c)). unfold answer, ari_host.
  set (r := (env_ari _ _).1). match goal with |- context [put_router ?e c] => set (c1 := put_router e c) end.
  assert (trace c1 = trace c ++ [Ari (GetEndpoint "PJSIP" user)]) as T1 by done.
  assert (exists c', (Ok tt, c1) = (Ok tt, c') /\ trace c' = trace c ++ map Ari [GetEndpoint "PJSIP" user]) as Hnone by (by exists c1).
  destruct (http_ok r); cbn [negb]; [|done]. destruct (json_parse (body r)) as [ep|]; [|done].
  destruct (member "channel_ids" ep) as [[| | | | |ids|]|]; try done.
  destruct (revoke_channels_run ids c1) as (c' & H1 & T2). exists c'. split; [done|]. by rewrite T2, T1, <- app_assoc.
Qed.

(** A block that completes one frame is that frame, dispatched. *)
Lemma block_of_frame f bytes t t' :
  frame_wf f -> m_recv_buffer (demux t) +:+ bytes = encode_frame f -> m_demux (connector t) = true ->
  dispatch_frame f (set_recv_buffer (encode_frame f) (on_connector (put_pings 0) t)) = (Ok tt, t') ->
  recv_buffer t' = encode_frame f ->
  AgentTunnel.on_bytes_received bytes t = (Ok tt, set_recv_buffer "" t').
Proof.
  intros Hwf Hb Hm Hd Hr. unfold AgentTunnel.on_bytes_received. cbn [connector on_connector put_pings m_demux]. rewrite Hm. cbn [negb].
  unfold on_tunnel_bytes, read_bytes.
  change (recv_buffer (on_connector (put_pings 0) t)) with (m_recv_buffer (demux t)). rewrite Hb.
  set (v := set_recv_buffer _ _) in *. change (recv_buffer v) with (encode_frame f).
  pose proof (decode_encode_frame f "" Hwf) as He. rewrite str_app_nil_r in He.
  assert (exists n, String.length (encode_frame f) = S n) as [n Hl] by (unfold encode_frame; rewrite length_encode; by eexists).
  cbn [read_loop]. change (recv_buffer v) with (encode_frame f). rewrite He. change (reader_dispatch f v) with (dispatch_frame f v).
  rewrite Hd, Hr, str_drop_all, Hl by done. cbn [read_loop].
  change (recv_buffer (set_recv_buffer "" t')) with "". by rewrite decode_empty.
Qed.

(** C20. Revocation end to end.  The cloud's [revoke] sends one frame for the subscriber.
    In every run of the agent without a data race, when the thread of the inner-TLS task
    handles the block that completes this frame, it queues one job behind those that wait,
    and of the tunnel's objects it only empties the receive buffer and the count of
    pings.  The worker gets to the job whatever the earlier jobs do; it asks Asterisk for
    the subscriber's endpoint and hangs up each channel that the answer lists, once and in
    order, and does nothing else. *)
Theorem revocation_end_to_end o cli x h w q bytes society_id user text :
  reachable o cli x h (Running w q (Some bytes)) ->
  let payload := mk_obj [("societyId", JStr society_id); ("sipUsername", JStr user)] in
  let frame := mkFrame SUBSCRIBER_REVOKED 0 text in
  json_dump payload = Ok text -> json_parse text = Ok payload -> user <> "" ->
  frame_wf frame -> m_recv_buffer (demux (tunnel w)) +:+ bytes = encode_frame frame ->
  (forall (D : Type) `(!CloudIO D) (cw : Cloud D), CloudTunnel.m_tunnel (bridge cw) = true ->
     CloudTunnel.revoke society_id user cw = (Ok tt, CloudTunnel.tunnel_send SUBSCRIBER_REVOKED 0 text cw))
  /\ exists w1 w2,
    step (society o) (Running w q (Some bytes)) (Running w1 q None)
    /\ tunnel w1 = set_recv_buffer "" (on_connector (put_pings 0) (tunnel (on_reactor (dispatch (JobRevoke user)) w)))
    /\ rtc (step (society o)) (Running w1 q None) (Running w2 q None)
    /\ jobs (reactor w2) = [JobRevoke user] /\ executed w2 = executed w ++ jobs (reactor w)
    /\ let w3 := worker_run (society o) (JobRevoke user) [] w2 in
       step (society o) (Running w2 q None) (Running w3 q None)
       /\ executed w3 = executed w2 ++ [JobRevoke user] /\ posting w3 = []
       /\ calls (get_env (ari w3)) = calls (get_env (ari w2))
            ++ revocation_calls user (answer (GetEndpoint "PJSIP" user) (host (get_env (watcher (reactor w2))))).
Proof.
  intros Hr payload frame Hd Hp Hu Hwf Hb. split; [intros D ? cw Ht; unfold CloudTunnel.revoke; fold payload; by rewrite Ht, Hd|].
  destruct (running_reachable _ _ _ _ _ _ _ Hr) as (w0 & _ & [_ Hh _ _ _] & Hi). rewrite Hi in Hh. injection Hh as Hrev _ _ Hdm.
  set (w1 := handle_block bytes w).
  assert (tunnel w1 = set_recv_buffer "" (on_connector (put_pings 0) (tunnel (on_reactor (dispatch (JobRevoke user)) w)))) as Hw1.
  { unfold w1, handle_block. cbn [tunnel put_tunnel].
    rewrite (block_of_frame frame bytes (tunnel w) (set_recv_buffer (encode_frame frame)
      (on_connector (put_pings 0) (tunnel (on_reactor (dispatch (JobRevoke user)) w))))); try done.
    unfold dispatch_frame. cbn [op frame]. cbn [demux set_recv_buffer demux_reader on_demux on_connector put_recv_buffer m_revoked_handler].
    rewrite Hrev. unfold run_handler, revoked_handler. cbn [SipFrame.payload frame].
    rewrite Hp. unfold on_reactor, put_tunnel, with_io. cbn. by rewrite app_nil_r. }
  assert (jobs (reactor w1) = jobs (reactor w) ++ [JobRevoke user] /\ executed w1 = executed w) as [Hj1 He1].
  { unfold reactor. by rewrite Hw1. }
  destruct (runs_jobs (society o) (jobs (reactor w)) [JobRevoke user] w1 Hj1) as (w2 & Hs & Hq & Hj & He).
  exists w1, w2. split; [apply task_done|]. split; [done|].
  split; [apply (rtc_congruence (R:=worker_step (society o)) (fun w => Running w q None)); [|exact Hs]; intros ? ?; apply worker_steps|].
  split; [done|]. split; [by rewrite He, He1|].
  cbn zeta. split; [by apply worker_steps, takes_job|]. unfold worker_run. cbn [run_job].
  set (c := with_host _ (ari w2)).
  destruct (revoke_run user c Hu) as (c' & Hc & Hcalls). rewrite Hc. cbn [ari executed posting get_env ari_has_env].
  change (router_env (m_router c')).(calls) with (trace c'). rewrite Hcalls.
  assert (trace c = calls (get_env (ari w2))) as Htr by done. assert (ari_host c = host (get_env (watcher (reactor w2)))) as Hho by done.
  split_and!; [done| |by rewrite Htr, Hho].
  change (calls (get_env c)) with (trace c). rewrite drop_app_length. unfold revocation_calls. by rewrite posted_ari.
Qed.
End Threads.

Section Witnesses.
Definition ex_args : list (ascii * string) :=
  [("H"%char, "cloud.example"); ("P"%char, "80"); ("S"%char, "soc1"); ("P"%char, "70000"); ("E"%char, "a.crt"); ("j"%char, "a.key")].


Definition ex_revocation : json := mk_obj [("societyId", JStr "soc1"); ("sipUsername", JStr "a101")].
Definition ex_answer : json :=
  mk_obj [("technology", JStr "PJSIP"); ("channel_ids", JArr [JStr "c1"; JNull; JStr ""; JStr "c2"])].
Definition ex_endpoints : json :=
  JArr [mk_obj [("technology", JStr "PJSIP"); ("resource", JStr "a101"); ("state", JStr "online")];
        mk_obj [("technology", JStr "PJSIP"); ("resource", JStr "a102"); ("state", JStr "offline")]].
#[local] Instance ex_json : JsonLib :=
  table_json [ex_revocation; ex_answer; ex_endpoints; status_payload true;
              register_state_payload "soc1" "a101" true; register_state_payload "soc1" "a102" false].
#[local] Instance ex_text : JsonText.
Proof. apply table_json_text. vm_compute. reflexivity. Qed.
(** Asterisk lists its endpoints and answers for each; the database is empty. *)
#[local] Instance ex_asterisk : AgentEnv Z := {|
  env_ari c h := (mkResponse 200 (compact_dump match c with ListEndpoints _ => ex_endpoints | _ => ex_answer end), h);
  env_query _ h := (Ok "", h);
  env_watch _ _ h := (None, h);
  env_time h := h;
  env_db := "pabx";
|}.

Definition ex_options : Options :=
  let 'mkOptions _ cp tc tk ta mu _ ah ap aa au aw _ it := default_options in
  mkOptions "cloud.example" cp tc tk ta mu "soc1" ah ap aa au aw "soc1.pbx.local" it.
Definition ex_world : World FakeIO Z :=
  match start_main ex_options false (mkFakeIO [] [] 100) 7 with
  | Ok w => w
  | Throw _ => mkWorld (mkAgent (new_demux true) (new_connector AgentTunnel.default_config)
      (mkReactor (mkFakeIO [] [] 0) false [] (new_watcher "" "" (mkEnv 0 []))) []) (new_ari (ari_cfg ex_options) (mkEnv 0 [])) [] [] [] [] []
  end.
Lemma ex_started : start_main ex_options false (mkFakeIO [] [] 100) 7 = Ok ex_world.
Proof. by vm_compute. Qed.

(** The tunnel comes up, the worker makes the snapshot and posts two of its three frames,
    which the reactor sends. *)
Definition ex_up : World FakeIO Z := put_tunnel (tick (tunnel ex_world)).2 ex_world.
Definition ex_post (w : World FakeIO Z) : World FakeIO Z :=
  match posting w with
  | f :: fs => mkWorld (tunnel w) (ari w) fs (outbox_post f (outbox w)) (noted w) (handed w) (executed w)
  | [] => w
  end.
Definition ex_posted : World FakeIO Z := ex_post (ex_post (worker_run "soc1" JobSnapshot [] ex_up)).
Definition ex_sent : World FakeIO Z :=
  let '(pending, t) := outbox_handle_exception (outbox ex_posted) (tunnel ex_posted) in
  mkWorld t (ari ex_posted) (posting ex_posted) pending (noted ex_posted) (handed ex_posted ++ outbox ex_posted) (executed ex_posted).

#[local] Strategy expand [ex_up ex_posted ex_sent].
Abbreviation ex_step w w' := (step "soc1" (Running w [] None) (Running w' [] None)).
Lemma ex_post_step w : match posting w with [] => false | _ => true end = true -> ex_step w (ex_post w).
Proof. unfold ex_post. destruct (posting w) as [|f fs] eqn:E; [done|]. intros _. apply worker_steps. by constructor. Qed.
Lemma ex_connects : ex_step ex_world ex_up.
Proof. apply reactor_calls. apply on_timer. assert ((tick (tunnel ex_world)).1 = Ok tt) as E by (vm_compute; reflexivity). by destruct (tick _) as [r t]; cbn in *; subst. Qed.
Lemma ex_takes : ex_step ex_up (worker_run "soc1" JobSnapshot [] ex_up).
Proof. apply worker_steps. apply takes_job; vm_compute; reflexivity. Qed.
Lemma ex_notifies : ex_step ex_posted ex_sent.
Proof. apply reactor_calls. exact (on_notify ex_posted). Qed.

Lemma ex_reachable : reachable ex_options false (mkFakeIO [] [] 100) 7 (Running ex_sent [] None).
Proof.
  exists ex_world. split; [exact ex_started|]. change (society ex_options) with "soc1"%string.
  apply (rtc_l _ _ _ _ ex_connects), (rtc_l _ _ _ _ ex_takes).
  eapply rtc_l; [apply ex_post_step; vm_compute; reflexivity|].
  eapply rtc_l; [apply ex_post_step; vm_compute; reflexivity|].
  apply rtc_once. pose proof ex_notifies as Hn. unfold ex_posted in Hn. exact Hn.
Qed.

(** Then the frame of a revocation comes, and the task's thread takes it. *)
Definition ex_block : string := encode_frame (mkFrame SUBSCRIBER_REVOKED 0 (compact_dump ex_revocation)).
Lemma ex_revoking : reachable ex_options false (mkFakeIO [] [] 100) 7 (Running ex_sent [] (Some ex_block)).
Proof.
  destruct ex_reachable as (w0 & E & Hr). exists w0. split; [exact E|]. etransitivity; [exact Hr|].
  eapply rtc_l; [apply (reactor_reads _ ex_block)|]. apply rtc_once, task_takes.
Qed.

#[local] Instance ex_host : CloudHost Z := {|
  db_get_document _ _ _ d := (Ok "", d);
  db_create_document _ _ d := (Ok "", d);
  push_notify _ _ d := (Ok tt, d);
|}.
#[local] Instance ex_io : CloudIO (Host Z) := {|
  agent_send _ _ h := (true, h);
  agent_close _ h := h;
  browser_send _ _ h := h;
  browser_close _ _ h := h;
  clock_now := outside;
|}.
Definition ex_cloud : Cloud (Host Z) := wire_cloud CloudTunnel.default_config true false 100.

Lemma ex_noted : noted ex_sent = [AsteriskStatus true; RegisterState "a101" true; RegisterState "a102" false].
Proof. vm_compute; reflexivity. Qed.

Lemma presence_end_to_end_witness :
  exists cw', for_each (handed ex_sent) CloudTunnel.dispatch_frame ex_cloud = (Ok tt, cw')
  /\ List.length (handed ex_sent) = 2%nat
  /\ Presence.is_online (cache (CloudTunnel.io cw')) "soc1" "a101" = true /\ asterisk_connected cw' = true.
Proof.
  assert (List.length (handed ex_sent) = 2%nat) as Hlen by (vm_compute; reflexivity).
  destruct (presence_end_to_end ex_options false (mkFakeIO [] [] 100) 7 ex_sent [] None ex_cloud ∅ ex_reachable)
    as (given & waiting & cw' & Hn & _ & _ & Hl & Hd & Ha & Hf).
  - vm_compute; reflexivity.
  - vm_compute; reflexivity.
  - rewrite ex_noted. repeat (apply Forall_cons_2; [intros op p text [= <- <-] [= <-]; vm_compute; reflexivity|]). by apply Forall_nil_2.
  - by split.
  - intros society user _. vm_compute; reflexivity.
  - exists cw'. split; [exact Hd|]. split; [exact Hlen|]. rewrite Hlen in Hl. rewrite ex_noted in Hn.
    assert (given = [AsteriskStatus true; RegisterState "a101" true]) as ->.
    { clear -Hn Hl. destruct given as [|c1 [|c2 [|]]]; try discriminate. by injection Hn as <- <- _. }
    split; [|by rewrite Hf].
    rewrite Ha by (vm_compute; reflexivity). vm_compute; reflexivity.
Defined.

Lemma process_refines_tunnel_witness :
  rtc agent_step (tunnel ex_world) (tunnel ex_sent) /\ sublist (map encode_frame (handed ex_sent)) (tunnel_stream (tunnel ex_sent)).
Proof.
  destruct (process_refines_tunnel ex_options false (mkFakeIO [] [] 100) 7 ex_sent [] None ex_reachable) as (w0 & E & Hs & _ & _ & Hl).
  rewrite ex_started in E. injection E as <-. by split.
Defined.

Lemma revocation_end_to_end_witness :
  exists w2 : World FakeIO Z, executed w2 = [JobSnapshot]
  /\ calls (get_env (ari (worker_run "soc1" (JobRevoke "a101") [] w2)))
     = calls (get_env (ari w2)) ++ [Ari (GetEndpoint "PJSIP" "a101"); Ari (Hangup "c1" "normal"); Ari (Hangup "c2" "normal")].
Proof.
  assert (json_parse (compact_dump ex_revocation) = Ok ex_revocation) as Hp by (vm_compute; reflexivity).
  assert ("a101"%string <> "") as Hu by done.
  assert (frame_wf (mkFrame SUBSCRIBER_REVOKED 0 (compact_dump ex_revocation))) as Hwf by (split; [unfold is_u32; cbn; lia|vm_compute; discriminate]).
  assert (m_recv_buffer (demux (tunnel ex_sent)) +:+ ex_block = ex_block) as Hb by (vm_compute; reflexivity).
  destruct (revocation_end_to_end ex_options false (mkFakeIO [] [] 100) 7 ex_sent [] ex_block "soc1" "a101" (compact_dump ex_revocation)
    ex_revoking eq_refl Hp Hu Hwf Hb) as (_ & w1 & w2 & _ & _ & _ & _ & He & _ & _ & _ & Hc).
  exists w2. split; [rewrite He; vm_compute; reflexivity|]. etransitivity; [exact Hc|]. by f_equal.
Defined.
End Witnesses.
